(* ===== verification/_CoqProject ===== *)
-Q . S2P
Prelude.v
Trace.v
Float32.v
Frequency.v
Topology.v
Validation.v
Supervisor.v
FrameParser.v
JobStore.v
Bridge.v
LeaseGuard.v
Work.v
Telemetry.v
Reactor.v
Serial.v
Transport.v
PowerPolicy.v
RuntimeHealth.v
BalancedRamp.v
RunningEvidence.v
Bringup.v
BringupEvidence.v
LiveFrequency.v
BringupRun.v
Swd.v
SwdFlash.v
FlashStub.v
BridgeUpdate.v
Power.v
ResultDedup.v
Vcore.v
BoardStages.v
BoardEvidence.v
BoardPower.v
BoardGate.v
BoardSafety.v
BoardMaintenance.v
BoardTable.v
PowerTask.v
PowerRequests.v
PowerOwner.v
BoardTask.v
