(* ===== verification/Prelude.v ===== *)
(** * Verification of the Bitaxe Bonanza firmware core

    The firmware runs on an ESP32 that drives a chain of four Bonanza ASICs of
    236 hash engines each.  A bridge controller switches the board's 5 V supply,
    the ASIC reset and the fan, and does so only while the firmware renews a
    safety lease; a regulator supplies the cores.  This development models the
    part of the firmware, under src/components/asic, src/main/power, the power task
    and three neighbouring components, that decides whether that hardware is energized, starts its
    engines, gives them work and believes what they report, and proves what
    makes it correct.

    ** The parts and how they interact

    - [Topology] (bzm_topology.c) numbers the engines; everything that addresses
      an engine goes through it.
    - [Validation] (bzm_validation.c) runs the start-up stages in order and forces
      the board off unless asked to hold it; [Supervisor] (bzm_supervisor.c) owns
      the hardware, runs validations, and keeps ownership, leases, latched faults
      and maintenance.
    - [Bridge] (bzm_bridge.c) is the framed link to the bridge controller;
      [LeaseGuard] (bzm_lease_guard.c, bzm_dispatch_gate.c) renews its lease around
      every delay and gates the dispatch of work.
    - [Serial] (serial.c) and [Transport] (bzm_transport.c) carry the nine-bit
      command protocol of the chain; [FrameParser] (bzm_frame_parser.c) cuts the
      received bytes into frames; [Telemetry] (bzm_telemetry.c) decodes and judges
      the sensor frames.
    - [JobStore] (mining_job/asic_job.c, asic_job_store.c) retains the jobs handed
      out; [Work] (bzm.c, bzm_work.c and the stratum helpers they use) builds work
      packages and register programs; [Reactor] (bzm_reactor.c) assigns packages
      to engines and attributes results to jobs; [ResultDedup] (bzm_result_dedup.c)
      recognises a submission that was accepted before.
    - [BalancedRamp] (bzm_balanced_ramp.c) starts the engines pair by pair;
      [RunningEvidence] (bzm_running_evidence.c) decides whether the board mines;
      [RuntimeHealth] (bzm_runtime_health.c) judges a held board from one snapshot
      of bridge, fan, regulator, parser and telemetry.
    - [Bringup] (bzm_bringup.c) is the staged bring-up that ties these together:
      discovery of the chain, sensors, clocks, the balanced ramp, the running check,
      and the live frequency step, whose targets and ramps are [Frequency]
      (bzm_frequency.c).  What the stages prove is in [BringupEvidence] (one stage at
      a time), [LiveFrequency] (the frequency step with its retries) and
      [BringupRun] (any sequence of calls, with a simulated board).
    - [BridgeUpdate] (bzm_bridge_update.c) replaces the firmware of the bridge: it
      checks an uploaded image and its manifest, takes the supervisor's and the
      bridge's maintenance through hooks, and programs the flash of the bridge's
      processor over its debug port: [Swd] (the lower half of bzm_bridge_swd.c)
      drives the two-wire protocol, [SwdFlash] (its upper half) halts the core,
      uploads a stub and programs and verifies the image, and [FlashStub]
      (rp2040_flash_stub.c) is that stub.
    - [PowerPolicy] (power_management/power_policy.c) decides when the control
      task starts, stops, cools down or hands over the board; [Power] (bzm_power.c,
      bzm_tps546_verify.c) holds the profile and voltages of the core regulator and
      the sequences that switch it; [Vcore] (main/power/vcore.c) gives those sequences
      their operations, and checks for faults.
    - The board composes them (main/power/bzm_board_power.c).  [BoardStages] has the
      state behind RUNTIME, the authorizers and the gate of dispatch, the sampling of
      the health, the evidence of mining, the safe-off and the eight stages that
      [Validation] runs; [BoardPower] has the operations: initialisation, start, stop,
      tuning, maintenance, sampling, and the monitor task, which takes its turns wherever
      an operation gives up the lock.  [BoardEvidence] logs every event of the hardware
      and specifies each stage and the safe-off by what it leaves in that log;
      [BoardGate] relates the log of the supervisor to that of the hardware; [BoardSafety]
      has the invariant of all operations; [BoardMaintenance] shows which operations
      switch nothing on, and when the board is powered down.
    - [BoardTable] (main/power/board_power.c) is the table of operations that a Bonanza
      board offers to [PowerPolicy], and [PowerTask] (main/tasks/power_management_task.c)
      the task that owns the policy: other tasks ask it for a pause, a resume or
      maintenance by requests that both sides hold, and raise an epoch that revokes work.
      [PowerRequests] has the protocol of the requests, [PowerOwner] the epochs and
      the ownership of maintenance, and [BoardTask] the task over the Bonanza board.

    [Prelude] holds what they share: record update for struct assignment, the
    wrap-around of machine integers, little-endian bytes, the computations [io]
    (state passing over a world), [attempt] (the same with an early end, for the
    report of a failed stage) and [prog] (with fuel), and reachability.  [Trace]
    adds operations that log their outcome and the symbolic execution of programs
    over them.  [Float32] gives C's [float] and
    [double] as IEEE data.

    ** Conventions

    A record has the fields of the C struct, an inductive type the enumerators of
    the C enum where the code only compares them, and an integer where it checks
    ranges or casts.  Integers are [Z] with the wrap of their type written out
    where the code may leave it.  A function that writes through a pointer returns
    the new value; one that may reject returns an [option] or a status.  A table of
    function pointers is a record of computations over a world [W], and the
    theorems quantify over [W] and the table: callbacks may do anything.  Vendor
    code - the UART driver, the clock, the tick conversion - is a parameter in the
    same way, with its documented behaviour as named hypotheses ([uart_laws] in
    [Bridge], [link_laws] in [Transport]) that the [Demo] modules
    show to be satisfiable.  A mutex makes the code it protects one step.
    In [BoardPower] the world is the board's state beside the hardware's, and the
    whole operation of the power task is a sequence of such steps with turns of the monitor
    task between ([others]); in [PowerTask] the calls and the task are a step relation,
    one atomic access at a time where they meet, and the world, which answers whether
    an operation was cancelled, may change at any step.
    Diagnostic text is modelled only where the code decides by it.

    ** Fuel and bounds

    Loops over a constant range or a list are structural.  A loop that waits for
    time or bytes carries fuel and returns [None] when it runs out, and a theorem
    gives the fuel that is enough: 260 plus the microseconds of the time-out for a
    bridge transaction ([Bridge.bridge_transact_returns]), and for a register read
    over the serial link the bound in [Transport.transport_register_read_returns].
    The parser supplies its own fuel, one more than the bytes it holds
    ([FrameParser.frame_parser_conserves_stream]), and so do the guarded delay and
    the loops over the chunks of a flash image, one more than its pages
    ([FlashStub.Target.flash_delivers_image]).

    ** What the theorems show

    - Power: dispatch is allowed only after a complete authorised GOOD bring-up
      with nothing after it; a verified safe-off is off; a latched fault confines
      the hardware; maintenance owners exclude each other; an expired lease shuts
      down ([Supervisor]); the stages run as an authorised prefix and end held or
      off ([Validation]); the control task starts the board only cooled down,
      unowned and fault-free, and stops it whenever it has to ([PowerPolicy]); a
      GOOD health verdict is a safe board, and a realignment of the parser ends
      ([RuntimeHealth]); a switching sequence of the core rail is done in full and
      in order or everything is switched off ([Power]).
    - Board: dispatch is authorized only on a board whose hardware log shows a verified
      safe-off and then every stage with its evidence; each power switch and each
      step of the driver comes in its turn; a stop that succeeds leaves it verified
      off; the safe-off gives all its commands and is GOOD exactly when all was
      confirmed ([BoardSafety]).  No party of the power task touches a freed request;
      granted maintenance has exactly its owner, and the call that asked for it learns of it; revoked
      work stays revoked until a later resume ([PowerOwner]); while anybody
      owns the board it is powered down and dispatches nothing ([BoardTask]).
    - Bring-up: whatever the order of the calls and whatever the hardware answers,
      each flag of the bring-up state stands for registers that were read back and
      not written since, or for the whole activation, and the stored clocks for
      dividers read back under a lock;
      a GOOD clock stage has locked every PLL and seen safe telemetry after it; the
      ramp stage issues exactly the activation script of [BalancedRamp], with safe
      telemetry after every pair; a live frequency step moves a domain by at most a
      ramp step, to the verified target of its request ([BringupRun]); the live
      ramp reaches every target ([Frequency]).
    - Starting engines: the barrier opens only with every engine of every ASIC
      acknowledged exactly once, right after its program; the voltage stacks never differ by
      more than one engine; no register is touched without authorisation; a healthy
      board completes ([BalancedRamp]).
    - Work and results: a result is attributed to the one package on the hardware
      that produced it, and nothing is believed before a flush completed
      ([Reactor]); a stale handle never names another job ([JobStore]); a package
      determines the block headers it stands for, and versions do not repeat
      ([Work]); the duplicates are exactly the repetitions among the last 256
      submissions ([ResultDedup]); mining is reported GOOD only on verified
      results, and recovery is bounded ([RunningEvidence]).
    - Communication: the parser conserves the byte stream and delivers every
      well-formed frame ([FrameParser]); the result queue is a bounded FIFO that
      keeps the newest entries, and a register read returns ([Transport]); the
      bridge's status decoder accepts exactly the consistent statuses, and a safety
      command returns, with the fault sentinel if it failed ([Bridge]); the confirmation
      counters report exactly the histories that confirm ([Telemetry]); a guarded
      delay renews the lease before every chunk ([LeaseGuard]).
    - Firmware update: whatever the board answers, an update uses the debug port
      only under the granted lease and in maintenance and gives both back, and reports completion only
      for an image that was read back and a firmware that names itself as the
      manifest does ([BridgeUpdate]); whatever the link answers, the processor is
      reset only after a complete verification ([SwdFlash]); over a processor with
      a documented boot ROM the flash then holds the image ([FlashStub]); register
      and memory accesses put exactly the cycles of the protocol on the wires
      ([Swd]).

    Each theorem with a hypothesis is applied to a concrete case in the [Demo]
    module of its file.

    ** Not modelled

    - bzm_driver.c, the glue of the bring-up, the reactor and the transport with the
      tasks and their locks: its functions are services of the board in [BoardStages]
      (their parts are modelled above); and bzm_frequency_qualification.c and
      bzm_overheat_recovery.c, which the firmware does not call.
    - The registers of the regulator (main/power/TPS546.c), services in [Vcore]; the
      initialisation of the core voltage; the operations of the other boards in
      board_power.c; asic_init.c.
    - The values and texts that the board and the power task publish for the display,
      and the creation of the power task with its queue and lock.
    - The hooks that the updater is given and the commands it sends to the bridge are
      operations of its world in [BridgeUpdate]; [Supervisor] and [Bridge] model
      the functions behind them.
    - The drivers of the other ASIC families (bm1366.c to bm1397.c, asic*.c,
      pll.c, crc.c), which share no state with the Bonanza path.
    - The stratum clients and protocols beyond the helpers above: JSON over
      sockets, and the Noise handshake, whose cryptography is a library.
    - Peripheral drivers (main/thermal, the rest of main/power), tasks, the HTTP
      server, display, network and storage under src/main: calls into the vendor's
      framework with little logic of their own; generated images and fonts, web
      assets, tests. *)

From stdpp Require Export base list numbers strings relations.
From Stdlib Require Export ZArith Lia.

#[global] Open Scope Z_scope.

(** ** Record update

    C code updates one field of a struct at a time.  A record [R] declares its
    fields once, in an [Eta R] instance; [s <| f := v |>] is then the struct
    assignment [s->f = v]. *)

Class Eta (R : Type) := eta_of : R -> R.

Class SetField {R E : Type} (get : R -> E) := set_field : (E -> E) -> R -> R.
Arguments set_field {R E} get {_} f r.

Ltac app_head t := lazymatch t with ?f _ => app_head f | _ => t end.

Ltac derive_set_field R get :=
  lazymatch constr:(eta_of (R := R)) with
  | @eta_of _ ?inst =>
      let h := app_head inst in
      exact (fun f r => ltac:(
        let e := eval cbv beta delta [h] in (inst r) in
        match e with
        | context C [get r] => let e' := context C [f (get r)] in exact e'
        end))
  end.

#[export] Hint Extern 0 (@SetField ?R ?E ?get) =>
  derive_set_field R get : typeclass_instances.

Declare Custom Entry field_assign.
Notation "p := v" := (set_field p (fun _ => v))
  (in custom field_assign at level 1, p constr at level 1, v constr at level 99).
Notation "s <| u |>" := (u s)
  (at level 1, left associativity, u custom field_assign at level 1).
Notation "s <| u ; .. ; v ; w |>" := (w (v .. (u s) ..))
  (at level 1, left associativity, u custom field_assign at level 1,
   v custom field_assign at level 1, w custom field_assign at level 1).

(** ** Machine integers

    A C integer of width [w] is a [Z] in [0, 2^w); every C operation that may
    leave the range is followed by the wrap of its type. *)

Definition wrap (w z : Z) : Z := z mod 2 ^ w.
Definition u8 : Z -> Z := wrap 8.
Definition u16 : Z -> Z := wrap 16.
Definition u32 : Z -> Z := wrap 32.
Definition u64 : Z -> Z := wrap 64.

Definition UINT8_MAX : Z := 255.
Definition UINT16_MAX : Z := 65535.
Definition UINT32_MAX : Z := 4294967295.
Definition UINT64_MAX : Z := 18446744073709551615.

Definition in_width (w z : Z) : Prop := 0 <= z < 2 ^ w.
Abbreviation is_u8 := (in_width 8).
Abbreviation is_u16 := (in_width 16).
Abbreviation is_u32 := (in_width 32).
Abbreviation is_u64 := (in_width 64).

Lemma wrap_in_width w z : 0 <= w -> in_width w (wrap w z).
Proof. intros Hw. apply Z.mod_pos_bound. lia. Qed.

Lemma wrap_small w z : in_width w z -> wrap w z = z.
Proof. intros Hz. by apply Z.mod_small. Qed.

Lemma wrap_wrap w z : wrap w (wrap w z) = wrap w z.
Proof. apply Zmod_mod. Qed.

Lemma wrap_add_l w x y : wrap w (wrap w x + y) = wrap w (x + y).
Proof. apply Zplus_mod_idemp_l. Qed.

Lemma u8_range z : 0 <= u8 z < 256.
Proof. apply (wrap_in_width 8 z). lia. Qed.
Lemma u16_range z : 0 <= u16 z < 65536.
Proof. apply (wrap_in_width 16 z). lia. Qed.
Lemma u32_range z : 0 <= u32 z < 4294967296.
Proof. apply (wrap_in_width 32 z). lia. Qed.
Lemma u64_range z : 0 <= u64 z < 18446744073709551616.
Proof. apply (wrap_in_width 64 z). lia. Qed.

Lemma u8_small z : 0 <= z < 256 -> u8 z = z.
Proof. intros. by apply wrap_small. Qed.
Lemma u16_small z : 0 <= z < 65536 -> u16 z = z.
Proof. intros. by apply wrap_small. Qed.
Lemma u32_small z : 0 <= z < 4294967296 -> u32 z = z.
Proof. intros. by apply wrap_small. Qed.
Lemma u64_small z : 0 <= z < 18446744073709551616 -> u64 z = z.
Proof. intros. by apply wrap_small. Qed.

Create HintDb width.
Create Rewrite HintDb width.
#[export] Hint Resolve u8_range u16_range u32_range u64_range : width.
#[export] Hint Rewrite u8_small u16_small u32_small u64_small using lia : width.

(** [(v & mask) != 0] *)
Definition has_bits (v mask : Z) : bool := negb (Z.land v mask =? 0).
(** [(v & mask) == mask] *)
Definition all_bits (v mask : Z) : bool := Z.land v mask =? mask.

(** ** Bounded quantification

    A property of every index below a constant bound is decided by evaluation. *)

Definition forall_below (n : Z) (f : Z -> bool) : bool := forallb f (seqZ 0 n).

Lemma forall_below_spec n f :
  forall_below n f = true -> forall i, 0 <= i < n -> f i = true.
Proof.
  unfold forall_below. rewrite forallb_forall. intros H i Hi. apply H.
  apply list_elem_of_In, elem_of_seqZ. lia.
Qed.

Lemma Forall_removelast {A} (P : A -> Prop) l : Forall P l -> Forall P (removelast l).
Proof.
  induction 1 as [|x l Hx Hl IH]; simpl; [constructor|]. destruct l; [constructor|by constructor].
Qed.

Lemma filter_all {A} (P : A -> Prop) `{!forall x, Decision (P x)} l : Forall P l -> filter P l = l.
Proof. induction 1; [done|]. rewrite filter_cons_True by done. by f_equal. Qed.

(** ** Bytes *)

Definition bytes_ok (l : list Z) : Prop := Forall is_u8 l.

Lemma bytes_ok_eval l : forallb (fun b => (0 <=? b) && (b <? 256)) l = true -> bytes_ok l.
Proof.
  rewrite forallb_forall. intros H. apply Forall_forall. intros x Hx.
  apply list_elem_of_In, H, andb_true_iff in Hx as [H1 H2].
  apply Z.leb_le in H1. apply Z.ltb_lt in H2. unfold in_width. change (2 ^ 8) with 256. lia.
Qed.

(** [b[i]] for an index the code has checked; 0 elsewhere. *)
Definition byte_at (b : list Z) (i : nat) : Z := nth i b 0.

Definition le_bytes_value (b : list Z) : Z :=
  fold_right (fun x acc => x + 256 * acc) 0 b.

Fixpoint le_bytes_of (n : nat) (v : Z) : list Z :=
  match n with
  | O => []
  | S n => v mod 256 :: le_bytes_of n (v / 256)
  end.

(** The bytes before the terminator of a C string. *)
Fixpoint c_string (bytes : list Z) : list Z :=
  match bytes with
  | [] => []
  | b :: bytes => if b =? 0 then [] else b :: c_string bytes
  end.

(** The firmware's little-endian readers, at offset [i]. *)
Definition read_le16 (b : list Z) (i : nat) : Z :=
  Z.lor (byte_at b i) (Z.shiftl (byte_at b (i + 1)) 8).
Definition read_le32 (b : list Z) (i : nat) : Z :=
  Z.lor (Z.lor (Z.lor (byte_at b i) (Z.shiftl (byte_at b (i + 1)) 8))
               (Z.shiftl (byte_at b (i + 2)) 16))
        (Z.shiftl (byte_at b (i + 3)) 24).

Lemma length_le_bytes_of n v : length (le_bytes_of n v) = n.
Proof. revert v. induction n; intros; simpl; auto. Qed.

Lemma le_bytes_of_ok n v : bytes_ok (le_bytes_of n v).
Proof.
  revert v. induction n; intros v; simpl; constructor; [|by apply IHn].
  apply Z.mod_pos_bound. lia.
Qed.

Lemma le_bytes_value_of n v :
  0 <= v < 256 ^ Z.of_nat n -> le_bytes_value (le_bytes_of n v) = v.
Proof.
  revert v. induction n as [|n IH]; intros v Hv; simpl.
  - change (256 ^ Z.of_nat 0) with 1 in Hv. lia.
  - rewrite Nat2Z.inj_succ, Z.pow_succ_r in Hv by lia.
    rewrite IH; [pose proof (Z.div_mod v 256); lia|].
    split; [apply Z.div_pos; lia|]. apply Z.div_lt_upper_bound; lia.
Qed.

Lemma lor_shiftl_add a b n :
  0 <= n -> 0 <= a < 2 ^ n -> Z.lor a (Z.shiftl b n) = a + 2 ^ n * b.
Proof.
  intros Hn Ha. rewrite Z.add_comm, Z.mul_comm, <- Z.shiftl_mul_pow2 by done.
  symmetry. rewrite Z.lor_comm. rewrite <- Z.lxor_lor, <- Z.add_nocarry_lxor; [done| |].
  all: apply Z.bits_inj'; intros i Hi; rewrite Z.land_spec, Z.shiftl_spec, Z.bits_0 by done.
  all: destruct (Z.lt_ge_cases i n) as [Hl|Hl]; [by rewrite Z.testbit_neg_r by lia|].
  all: replace (Z.testbit a i) with false; [by rewrite andb_false_r|].
  all: symmetry; rewrite <- (Z.mod_small a (2 ^ n)) by lia.
  all: apply Z.mod_pow2_bits_high; lia.
Qed.

Lemma le16_sum b0 b1 :
  is_u8 b0 -> is_u8 b1 -> Z.lor b0 (Z.shiftl b1 8) = b0 + 256 * b1.
Proof. intros. by rewrite lor_shiftl_add by (try lia; done). Qed.

Lemma le32_sum b0 b1 b2 b3 :
  is_u8 b0 -> is_u8 b1 -> is_u8 b2 -> is_u8 b3 ->
  Z.lor (Z.lor (Z.lor b0 (Z.shiftl b1 8)) (Z.shiftl b2 16)) (Z.shiftl b3 24) =
  b0 + 256 * b1 + 65536 * b2 + 16777216 * b3.
Proof.
  unfold in_width. change (2 ^ 8) with 256. intros H0 H1 H2 H3.
  rewrite (lor_shiftl_add b0) by (change (2 ^ 8) with 256; lia).
  rewrite (lor_shiftl_add _ b2) by (change (2 ^ 8) with 256; change (2 ^ 16) with 65536; lia).
  rewrite (lor_shiftl_add _ b3)
    by (change (2 ^ 8) with 256; change (2 ^ 16) with 65536; change (2 ^ 24) with 16777216; lia).
  change (2 ^ 8) with 256; change (2 ^ 16) with 65536; change (2 ^ 24) with 16777216. lia.
Qed.

(** The four little-endian bytes of a 32-bit value, as the code writes them. *)
Lemma le32_bytes v :
  is_u32 v ->
  u8 v + 256 * u8 (Z.shiftr v 8) + 65536 * u8 (Z.shiftr v 16) + 16777216 * u8 (Z.shiftr v 24) = v.
Proof.
  unfold in_width, u8, wrap. change (2 ^ 32) with 4294967296. change (2 ^ 8) with 256. intros Hv.
  rewrite !Z.shiftr_div_pow2 by lia.
  change (2 ^ 8) with 256; change (2 ^ 16) with (256 * 256); change (2 ^ 24) with (256 * 256 * 256).
  rewrite <- !Z.div_div by lia.
  pose proof (Z.div_mod v 256 ltac:(lia)).
  pose proof (Z.div_mod (v / 256) 256 ltac:(lia)).
  pose proof (Z.div_mod (v / 256 / 256) 256 ltac:(lia)).
  pose proof (Z.div_mod (v / 256 / 256 / 256) 256 ltac:(lia)).
  assert (v / 256 / 256 / 256 / 256 = 0).
  { rewrite !Z.div_div by lia. apply Z.div_small. lia. }
  lia.
Qed.

(** Splitting a little-endian reader's result gives back the bytes. *)
Lemma read_le16_pair b0 b1 :
  is_u8 b0 -> is_u8 b1 -> 0 <= Z.lor b0 (Z.shiftl b1 8) < 65536 /\
  u8 (Z.lor b0 (Z.shiftl b1 8)) = b0 /\ u8 (Z.shiftr (Z.lor b0 (Z.shiftl b1 8)) 8) = b1.
Proof.
  intros H0 H1. rewrite le16_sum by done. unfold in_width in *. change (2 ^ 8) with 256 in *.
  split; [lia|]. rewrite Z.shiftr_div_pow2 by lia. change (2 ^ 8) with 256.
  unfold u8, wrap. change (2 ^ 8) with 256. rewrite Z.mul_comm. split.
  - rewrite Z.mod_add by lia. by apply Z.mod_small.
  - rewrite Z.div_add by lia. rewrite (Z.div_small b0) by lia. by apply Z.mod_small.
Qed.

Lemma read_le32_quad b0 b1 b2 b3 v :
  is_u8 b0 -> is_u8 b1 -> is_u8 b2 -> is_u8 b3 ->
  v = Z.lor (Z.lor (Z.lor b0 (Z.shiftl b1 8)) (Z.shiftl b2 16)) (Z.shiftl b3 24) ->
  is_u32 v /\ u8 v = b0 /\ u8 (Z.shiftr v 8) = b1 /\ u8 (Z.shiftr v 16) = b2 /\ u8 (Z.shiftr v 24) = b3.
Proof.
  intros H0 H1 H2 H3 ->. rewrite le32_sum by done. unfold in_width in *. change (2 ^ 8) with 256 in *.
  change (2 ^ 32) with 4294967296. split; [lia|].
  unfold u8, wrap. change (2 ^ 8) with 256.
  rewrite !Z.shiftr_div_pow2 by lia.
  change (2 ^ 8) with 256; change (2 ^ 16) with 65536; change (2 ^ 24) with 16777216.
  split_and!; symmetry.
  - apply Z.mod_unique with (b1 + 256 * b2 + 65536 * b3); lia.
  - replace ((b0 + 256 * b1 + 65536 * b2 + 16777216 * b3) / 256) with (b1 + 256 * b2 + 65536 * b3)
      by (apply Z.div_unique with b0; lia).
    apply Z.mod_unique with (b2 + 256 * b3); lia.
  - replace ((b0 + 256 * b1 + 65536 * b2 + 16777216 * b3) / 65536) with (b2 + 256 * b3)
      by (apply Z.div_unique with (b0 + 256 * b1); lia).
    apply Z.mod_unique with b3; lia.
  - replace ((b0 + 256 * b1 + 65536 * b2 + 16777216 * b3) / 16777216) with b3
      by (apply Z.div_unique with (b0 + 256 * b1 + 65536 * b2); lia).
    apply Z.mod_unique with 0; lia.
Qed.

Lemma u8_is_u8 z : is_u8 (u8 z).
Proof. apply u8_range. Qed.
#[export] Hint Resolve u8_is_u8 : width.

(** ** Effects

    A function that calls out through an operation table threads the state [W]
    of the world behind that table. *)

Definition io (W A : Type) : Type := W -> A * W.
Definition io_ret {W A} (a : A) : io W A := fun w => (a, w).
Definition io_bind {W A B} (m : io W A) (k : A -> io W B) : io W B :=
  fun w => let '(a, w') := m w in k a w'.

Declare Scope io_scope.
Delimit Scope io_scope with io.
Notation "'let!' x := m 'in' k" := (io_bind m (fun x => k))
  (at level 10, x pattern, m at level 200, k at level 200) : io_scope.

(** A program that may also fail to return: its loops carry fuel, and [None]
    means the fuel ran out. *)
Definition prog (W A : Type) : Type := W -> option (A * W).
Definition prog_ret {W A} (a : A) : prog W A := fun w => Some (a, w).
Definition prog_bind {W A B} (m : prog W A) (k : A -> prog W B) : prog W B :=
  fun w => match m w with Some (a, w') => k a w' | None => None end.
Definition prog_io {W A} (m : io W A) : prog W A := fun w => Some (m w).

Declare Scope prog_scope.
Delimit Scope prog_scope with prog.
Notation "'let?' x := m 'in' k" := (prog_bind m (fun x => k))
  (at level 10, x pattern, m at level 200, k at level 200) : prog_scope.

(** A computation that may end early, with an [X] for its caller. *)
Definition attempt (X W A : Type) : Type := io W (X + A).
Definition fails {X W A} (x : X) : attempt X W A := io_ret (inl x).
Definition succeeds {X W A} (a : A) : attempt X W A := io_ret (inr a).
Definition attempt_bind {X W A B} (m : attempt X W A) (k : A -> attempt X W B) : attempt X W B :=
  io_bind m (fun r => match r with inl x => fails x | inr a => k a end).
Definition performs {X W A} (m : io W A) : attempt X W A := io_bind m succeeds.
(** A call that must answer [true]. *)
Definition requires {X W} (m : io W bool) (x : X) : attempt X W unit :=
  io_bind m (fun ok => if ok then succeeds tt else fails x).

Declare Scope attempt_scope.
Delimit Scope attempt_scope with attempt.
Notation "'let*' x := m 'in' k" := (attempt_bind m (fun x => k))
  (at level 10, x pattern, m at level 200, k at level 200) : attempt_scope.

(** A [for] loop over a list, left at the first failure. *)
Fixpoint for_each {X W A} (xs : list A) (body : A -> attempt X W unit) : attempt X W unit :=
  match xs with
  | [] => succeeds tt
  | x :: xs => attempt_bind (body x) (fun _ => for_each xs body)
  end.

(** ** ESP-IDF error codes

    [ESP_ERR_OTHER] stands for every code the firmware only passes on. *)

Inductive esp_err_t :=
| ESP_OK | ESP_FAIL | ESP_ERR_NO_MEM | ESP_ERR_INVALID_ARG | ESP_ERR_INVALID_STATE
| ESP_ERR_INVALID_SIZE | ESP_ERR_NOT_FOUND | ESP_ERR_NOT_SUPPORTED | ESP_ERR_TIMEOUT
| ESP_ERR_INVALID_RESPONSE | ESP_ERR_INVALID_CRC | ESP_ERR_INVALID_VERSION
| ESP_ERR_OTHER (code : Z).
#[export] Instance esp_err_t_eq_dec : EqDecision esp_err_t.
Proof. solve_decision. Defined.

(** ** Reachability *)

Section reachability.
Context {S : Type} (init : S -> Prop) (step : S -> S -> Prop).

Definition reachable (s : S) : Prop := exists s0, init s0 /\ rtc step s0 s.

Lemma reachable_invariant (P : S -> Prop) :
  (forall s, init s -> P s) ->
  (forall s s', P s -> step s s' -> P s') ->
  forall s, reachable s -> P s.
Proof.
  intros Hi Hs s (s0 & H0 & Hr). specialize (Hi s0 H0). clear H0.
  induction Hr; eauto.
Qed.
End reachability.

(** ** Tactics *)

(** Case analysis on the boolean guards of translated code. *)
Ltac guard_step :=
  match goal with
  | H : context [if ?c then _ else _] |- _ => let E := fresh "E" in destruct c eqn:E
  | |- context [if ?c then _ else _] => let E := fresh "E" in destruct c eqn:E
  end.

(** Turn boolean hypotheses into propositions. *)
Ltac prop_bool :=
  repeat match goal with
  | H : andb _ _ = true |- _ => apply andb_true_iff in H as [? ?]
  | H : orb _ _ = false |- _ => apply orb_false_iff in H as [? ?]
  | H : negb _ = true |- _ => apply negb_true_iff in H
  | H : negb _ = false |- _ => apply negb_false_iff in H
  | H : bool_decide _ = true |- _ => apply bool_decide_eq_true in H
  | H : bool_decide _ = false |- _ => apply bool_decide_eq_false in H
  end.
Ltac guard_goal :=
  match goal with
  | |- context [if ?c then _ else _] => let E := fresh "E" in destruct c eqn:E
  end.
