(* ===== verification/Trace.v ===== *)
(** * Operations that leave a log

    A component that calls out through an operation table is observed through
    the log its operations leave: [traced] runs an operation of the world [W] and
    appends the event of its outcome.  [emits m post] is the specification of a
    program over such a world: whatever the world answers, [m] only extends the
    log, and its result and the new events satisfy [post].  The [symbolic_step]
    tactic executes a program under that specification, one operation at a time;
    a component adds the lemmas of its own operations. *)

From S2P Require Import Prelude.

Section trace.
Context {W E : Type}.

Abbreviation world := (W * list E)%type.

(** An operation that logs its outcome. *)
Definition traced {A} (m : io W A) (ev : A -> E) : io world A :=
  fun '(w, log) => let '(a, w) := m w in (a, (w, log ++ [ev a])).
(** An operation that is not logged. *)
Definition lifted {A} (m : io W A) : io world A :=
  fun '(w, log) => let '(a, w) := m w in (a, (w, log)).

Definition emits {A} (m : io world A) (post : A -> list E -> Prop) : Prop :=
  forall w log, exists a w' evs, m (w, log) = (a, (w', log ++ evs)) /\ post a evs.

Lemma emits_ret {A} (a : A) (post : A -> list E -> Prop) : post a [] -> emits (io_ret a) post.
Proof. intros H w log. exists a, w, []. by rewrite app_nil_r. Qed.

Lemma emits_bind {A B} (m : io world A) (k : A -> io world B) (post : B -> list E -> Prop) :
  emits m (fun a e1 => emits (k a) (fun b e2 => post b (e1 ++ e2))) -> emits (io_bind m k) post.
Proof.
  intros Hm w log. destruct (Hm w log) as (a & w1 & e1 & E1 & Hk).
  destruct (Hk w1 (log ++ e1)) as (b & w2 & e2 & E2 & Hb). exists b, w2, (e1 ++ e2).
  unfold io_bind. rewrite E1. cbn. by rewrite app_assoc.
Qed.

Lemma emits_traced {A} (m : io W A) ev (post : A -> list E -> Prop) :
  (forall a, post a [ev a]) -> emits (traced m ev) post.
Proof. intros H w log. unfold traced. destruct (m w) as [a w']. by exists a, w', [ev a]. Qed.

Lemma emits_lifted {A} (m : io W A) (post : A -> list E -> Prop) :
  (forall a, post a []) -> emits (lifted m) post.
Proof. intros H w log. unfold lifted. destruct (m w) as [a w']. exists a, w', []. by rewrite app_nil_r. Qed.

Lemma emits_mono {A} (m : io world A) (p q : A -> list E -> Prop) :
  emits m p -> (forall a e, p a e -> q a e) -> emits m q.
Proof. intros Hm Hpq w log. destruct (Hm w log) as (a & w' & e & E1 & Ha). exists a, w', e. auto. Qed.

(** The rules of [attempt]s. *)
Lemma emits_succeeds {X A} (a : A) (post : X + A -> list E -> Prop) : post (inr a) [] -> emits (succeeds a) post.
Proof. apply emits_ret. Qed.

Lemma emits_fails {X A} (x : X) (post : X + A -> list E -> Prop) : post (inl x) [] -> emits (fails x) post.
Proof. apply emits_ret. Qed.

Lemma emits_attempt {X A B} (m : attempt X world A) (k : A -> attempt X world B) (post : X + B -> list E -> Prop) :
  emits m (fun r e1 => match r with
                       | inl x => post (inl x) e1
                       | inr a => emits (k a) (fun b e2 => post b (e1 ++ e2))
                       end) ->
  emits (attempt_bind m k) post.
Proof.
  intros Hm. apply emits_bind. eapply emits_mono; [exact Hm|]. intros [x|a] e H; [|done].
  apply emits_ret. by rewrite app_nil_r.
Qed.

Lemma emits_performs {X A} (m : io world A) (post : X + A -> list E -> Prop) :
  emits m (fun a e => post (inr a) e) -> emits (performs m) post.
Proof.
  intros Hm. apply emits_bind. eapply emits_mono; [exact Hm|]. intros a e H. apply emits_ret. by rewrite app_nil_r.
Qed.

Lemma emits_requires {X} (m : io world bool) (x : X) (post : X + unit -> list E -> Prop) :
  emits m (fun ok e => post (if ok then inr tt else inl x) e) -> emits (requires m x) post.
Proof.
  intros Hm. apply emits_bind. eapply emits_mono; [exact Hm|].
  intros [] e H; apply emits_ret; by rewrite app_nil_r.
Qed.

(** [ends frame bad good]: every event is in the frame, and the result is a failure in
    [bad] or a success for which [good] holds of the events. *)
Definition ends {X A} (frame : E -> Prop) (bad : X -> Prop) (good : A -> list E -> Prop)
    (r : X + A) (e : list E) : Prop :=
  Forall frame e /\ match r with inl x => bad x | inr a => good a e end.

Lemma ends_mono {X A} (m : attempt X world A) (f f' : E -> Prop) (b : X -> Prop) (g g' : A -> list E -> Prop) :
  emits m (ends f b g) -> (forall e, f e -> f' e) -> (forall a e, g a e -> g' a e) -> emits m (ends f' b g').
Proof.
  intros H Hf Hg. eapply emits_mono; [exact H|]. intros [x|a] e [H1 H2]; (split; [by eapply Forall_impl|auto]).
Qed.

Lemma ends_bind {X A B} (m : attempt X world A) (k : A -> attempt X world B) f (b : X -> Prop) g h :
  emits m (ends f b g) ->
  (forall a e1, Forall f e1 -> g a e1 -> emits (k a) (ends f b (fun y e2 => h y (e1 ++ e2)))) ->
  emits (attempt_bind m k) (ends f b h).
Proof.
  intros Hm Hk. apply emits_attempt. eapply emits_mono; [exact Hm|]. intros [x|a] e1 [F1 G1]; [by split|].
  eapply emits_mono; [by apply Hk|]. intros [y|y] e2 [F2 G2]; (split; [by apply Forall_app|done]).
Qed.

Lemma ends_framed {X A} (m : attempt X world A) f (b : X -> Prop) g :
  emits m (ends f b g) -> emits m (ends f b (fun a e => Forall f e /\ g a e)).
Proof. intros H. eapply emits_mono; [exact H|]. by intros [x|a] e [H1 H2]. Qed.

Lemma ends_succeeds {X A} (a : A) f (b : X -> Prop) (g : A -> list E -> Prop) :
  g a [] -> emits (succeeds a) (ends f b g).
Proof. intros H. apply emits_succeeds. by split. Qed.

Lemma ends_fails {X A} (x : X) f (b : X -> Prop) (g : A -> list E -> Prop) : b x -> emits (fails x) (ends f b g).
Proof. intros H. apply emits_fails. by split. Qed.

Lemma ends_performs {X A} (m : io world A) f (b : X -> Prop) (g : A -> list E -> Prop) :
  emits m (fun a e => Forall f e /\ g a e) -> emits (performs m) (ends f b g).
Proof. intros H. apply emits_performs. eapply emits_mono; [exact H|]. by intros a e [??]. Qed.

Lemma ends_requires {X} (m : io world bool) (x : X) f (b : X -> Prop) (g : unit -> list E -> Prop) :
  b x -> emits m (fun ok e => Forall f e /\ (ok = true -> g tt e)) -> emits (requires m x) (ends f b g).
Proof. intros Hx H. apply emits_requires. eapply emits_mono; [exact H|]. intros [] e [??]; by split; auto. Qed.

(** A loop that ends leaves the events of its iterations. *)
Lemma ends_for_each {X A} (xs : list A) (body : A -> attempt X world unit) f (b : X -> Prop)
    (good : A -> list E -> Prop) :
  (forall x, x ∈ xs -> emits (body x) (ends f b (fun _ e => good x e))) ->
  emits (for_each xs body) (ends f b (fun _ e => exists es, e = concat es /\ Forall2 good xs es)).
Proof.
  induction xs as [|x xs IH]; intros Hb; cbn [for_each].
  { apply ends_succeeds. exists []. split; [done|constructor]. }
  eapply ends_bind; [apply Hb; by left|]. intros [] e1 _ G1.
  eapply ends_mono; [apply IH; intros; apply Hb; by right|auto|]. intros [] e2 (es & -> & Hes).
  exists (e1 :: es). split; [done|]. by constructor.
Qed.

(** [yields m post]: whatever the world, the result of [m] satisfies [post]. *)
Definition yields {V A} (m : io V A) (post : A -> Prop) : Prop := forall v, post (fst (m v)).

Lemma yields_ret {V A} (a : A) (post : A -> Prop) : post a -> yields (V := V) (io_ret a) post.
Proof. by intros H v. Qed.

Lemma yields_bind {V A B} (m : io V A) (k : A -> io V B) (p : A -> Prop) (post : B -> Prop) :
  yields m p -> (forall a, p a -> yields (k a) post) -> yields (io_bind m k) post.
Proof. intros Hm Hk v. unfold io_bind. specialize (Hm v). destruct (m v) as [a v']. by apply (Hk a). Qed.

Lemma yields_traced {A} (m : io W A) (ev : A -> E) (post : A -> Prop) : yields m post -> yields (traced m ev) post.
Proof. intros H [w log]. specialize (H w). unfold traced. by destruct (m w). Qed.

Lemma yields_lifted {A} (m : io W A) (post : A -> Prop) : yields m post -> yields (lifted m) post.
Proof. intros H [w log]. specialize (H w). unfold lifted. by destruct (m w). Qed.

(** An operation that logs its outcome, whose results are known to satisfy [p]. *)
Lemma emits_traced_yields {A} (m : io W A) ev (p : A -> Prop) (post : A -> list E -> Prop) :
  yields m p -> (forall a, p a -> post a [ev a]) -> emits (traced m ev) post.
Proof.
  intros Hm H w log. specialize (Hm w). unfold traced. destruct (m w) as [a w']. exists a, w', [ev a]. auto.
Qed.
End trace.

(** One step of symbolic execution. *)
Ltac symbolic_step :=
  lazymatch goal with
  | |- emits (io_ret _) _ => apply emits_ret
  | |- emits (succeeds _) _ => apply emits_succeeds
  | |- emits (fails _) _ => apply emits_fails
  | |- emits (attempt_bind _ _) _ => apply emits_attempt
  | |- emits (performs _) _ => apply emits_performs
  | |- emits (requires _ _) _ => apply emits_requires
  | |- emits (io_bind _ _) _ => apply emits_bind
  | |- emits (if ?c then _ else _) _ => let E := fresh "E" in destruct c eqn:E
  | |- emits (let '(_, _) := ?x in _) _ => let E := fresh "E" in destruct x eqn:E
  | |- emits (match ?x with _ => _ end) _ => let E := fresh "E" in destruct x eqn:E
  | |- emits (traced _ _) _ => apply emits_traced; intros ?
  | |- emits (lifted _) _ => apply emits_lifted; intros ?
  end; cbn [fst snd].
