(* ===== verification/Float32.v ===== *)
(** * Binary32 and binary64 arithmetic

    C [float] and [double] values as the IEEE 754 data of the Standard Library's
    [SpecFloat], with the operations the firmware uses, rounded to nearest even
    as the hardware and the C library do.  A decimal literal [n/d] whose
    numerator and denominator are exact is the correctly rounded quotient. *)

From S2P Require Import Prelude.
From Stdlib Require Export Floats.SpecFloat.

Definition f32 := spec_float.
Definition f64 := spec_float.

Definition f32_of_Z (z : Z) : f32 := binary_normalize 24 128 z 0 false.
Definition f64_of_Z (z : Z) : f64 := binary_normalize 53 1024 z 0 false.
Definition fadd : f32 -> f32 -> f32 := SFadd 24 128.
Definition fsub : f32 -> f32 -> f32 := SFsub 24 128.
Definition fmul : f32 -> f32 -> f32 := SFmul 24 128.
Definition fdiv : f32 -> f32 -> f32 := SFdiv 24 128.
Definition dadd : f64 -> f64 -> f64 := SFadd 53 1024.
Definition dsub : f64 -> f64 -> f64 := SFsub 53 1024.
Definition dmul : f64 -> f64 -> f64 := SFmul 53 1024.
Definition ddiv : f64 -> f64 -> f64 := SFdiv 53 1024.

(** [x < y], [x <= y], [x == y]: false when either is NaN. *)
Definition flt (x y : f32) : bool := SFltb x y.
Definition fle (x y : f32) : bool := SFleb x y.
Definition feq (x y : f32) : bool := SFeqb x y.

(** The literal [n/d]. *)
Definition f32_lit (n d : Z) : f32 := fdiv (f32_of_Z n) (f32_of_Z d).
Definition f64_lit (n d : Z) : f64 := ddiv (f64_of_Z n) (f64_of_Z d).

Definition is_finite (x : spec_float) : bool :=
  match x with S754_zero _ | S754_finite _ _ _ => true | _ => false end.
Definition fneg (x : spec_float) : spec_float := SFopp x.
Definition fabs (x : spec_float) : spec_float := SFabs x.

(** [fminf] and [fmaxf]: a NaN is ignored. *)
Definition is_nan (x : spec_float) : bool := match x with S754_nan => true | _ => false end.
Definition fminf (x y : f32) : f32 := if is_nan x then y else if is_nan y then x else if flt y x then y else x.
Definition fmaxf (x y : f32) : f32 := if is_nan x then y else if is_nan y then x else if flt x y then y else x.

(** Widening and narrowing conversions. *)
Definition f64_of_f32 (x : f32) : f64 :=
  match x with
  | S754_finite s m e => binary_normalize 53 1024 (if s then Z.neg m else Z.pos m) e s
  | x => x
  end.
Definition f32_of_f64 (x : f64) : f32 :=
  match x with
  | S754_finite s m e => binary_normalize 24 128 (if s then Z.neg m else Z.pos m) e s
  | x => x
  end.

(** Magnitude of a finite number, rounded half up, and truncated. *)
Definition round_magnitude (m : positive) (e : Z) : Z :=
  if 0 <=? e then Z.shiftl (Z.pos m) e
  else Z.shiftr (Z.pos m + Z.shiftl 1 (- e - 1)) (- e).
Definition trunc_magnitude (m : positive) (e : Z) : Z :=
  if 0 <=? e then Z.shiftl (Z.pos m) e else Z.shiftr (Z.pos m) (- e).

(** [lroundf] and [lround] (halves away from zero), and the conversion to an
    integer type, of a finite value within the type's range. *)
Definition fround (x : spec_float) : Z :=
  match x with
  | S754_finite s m e => if s then - round_magnitude m e else round_magnitude m e
  | _ => 0
  end.
Definition ftrunc (x : spec_float) : Z :=
  match x with
  | S754_finite s m e => if s then - trunc_magnitude m e else trunc_magnitude m e
  | _ => 0
  end.

Example f32_tenths : fadd (f32_lit 1 10) (f32_lit 2 10) = S754_finite false 10066330 (-25).
Proof. by vm_compute. Qed.
Example f32_round_half : (fround (f32_lit 5 2), fround (f32_lit (-5) 2), ftrunc (f32_lit (-5) 2)) = (3, -3, -2).
Proof. by vm_compute. Qed.
