(* ===== verification/Frequency.v ===== *)
(** * Frequency targets of the hash PLLs

    Models src/components/asic/bzm_frequency.c with its header: the resolution of
    a requested frequency to a feedback divider, the first step after power-on,
    and the steps of the cold and of the live ramp.  [float] values are the
    binary32 data of [Float32]; a function that returns [bool] and writes an
    out-parameter returns an [option], and a [NULL] out-parameter, which every
    function rejects, is not modelled. *)

From S2P Require Import Prelude Float32.

(** ** Data *)

Definition BZM_FREQUENCY_POWER_ON_MHZ : f32 := f32_of_Z 800.
Definition BZM_FREQUENCY_TARGET_MIN_MHZ : f32 := f32_of_Z 800.
Definition BZM_FREQUENCY_TARGET_MAX_MHZ : f32 := f32_of_Z 2000.
Definition BZM_FREQUENCY_INITIAL_OFFSET_MHZ : f32 := f32_of_Z 100.
Definition BZM_FREQUENCY_INITIAL_MAX_MHZ : f32 := f32_of_Z 1425.
Definition BZM_FREQUENCY_RAMP_STEP_MHZ : f32 := f32_of_Z 25.
Definition BZM_FREQUENCY_EPSILON_MHZ : f32 := f32_lit 1 1000.
Definition BZM_REFERENCE_MHZ : Z := 50.
Definition BZM_REFERENCE_DIVIDER : Z := 2.
Definition BZM_POST1_DIVIDER : Z := 1.
Definition BZM_POST2_DIVIDER : Z := 1.

Record bzm_frequency_target_t := mk_frequency_target {
  requested_mhz : f32;
  actual_mhz : f32;
  target_feedback_divider : Z;
  target_postdiv_register : Z;
}.

(** ** Operations *)

Definition clamp_frequency (frequency_mhz minimum_mhz maximum_mhz : f32) : f32 :=
  if flt frequency_mhz minimum_mhz then minimum_mhz
  else if flt maximum_mhz frequency_mhz then maximum_mhz
  else frequency_mhz.

Definition bzm_frequency_request_is_valid (requested : f32) : bool :=
  is_finite requested && fle BZM_FREQUENCY_TARGET_MIN_MHZ requested &&
  fle requested BZM_FREQUENCY_TARGET_MAX_MHZ.

(** [(float)BZM_REFERENCE_DIVIDER * (BZM_POST1_DIVIDER + 1) * (BZM_POST2_DIVIDER + 1)] *)
Definition output_dividers : f32 :=
  fmul (fmul (f32_of_Z BZM_REFERENCE_DIVIDER) (f32_of_Z (BZM_POST1_DIVIDER + 1)))
       (f32_of_Z (BZM_POST2_DIVIDER + 1)).

(** The frequency a feedback divider gives. *)
Definition mhz_of_divider (divider : Z) : f32 :=
  fdiv (fmul (f32_of_Z BZM_REFERENCE_MHZ) (f32_of_Z divider)) output_dividers.

Definition postdiv_value : Z :=
  Z.lor (Z.lor (Z.lor (Z.shiftl 1 12) (Z.shiftl BZM_POST2_DIVIDER 9)) (Z.shiftl BZM_POST1_DIVIDER 6))
        BZM_REFERENCE_DIVIDER.

Definition bzm_frequency_resolve_target (requested : f32) : option bzm_frequency_target_t :=
  if negb (is_finite requested) then None
  else
    let clamped_mhz :=
      clamp_frequency requested BZM_FREQUENCY_TARGET_MIN_MHZ BZM_FREQUENCY_TARGET_MAX_MHZ in
    let feedback := fdiv (fmul output_dividers clamped_mhz) (f32_of_Z BZM_REFERENCE_MHZ) in
    let divider := u16 (ftrunc feedback) in
    let divider :=
      if flt (f32_lit 1 2) (fsub feedback (f32_of_Z divider)) then u16 (divider + 1) else divider in
    Some {| requested_mhz := requested; actual_mhz := mhz_of_divider divider;
            target_feedback_divider := divider; target_postdiv_register := postdiv_value |}.

Definition bzm_frequency_initial_mhz (target_mhz : f32) : f32 :=
  match bzm_frequency_resolve_target target_mhz with
  | None => S754_nan
  | Some resolved =>
      let initial_mhz :=
        clamp_frequency (fsub (actual_mhz resolved) BZM_FREQUENCY_INITIAL_OFFSET_MHZ)
          BZM_FREQUENCY_TARGET_MIN_MHZ BZM_FREQUENCY_INITIAL_MAX_MHZ in
      match bzm_frequency_resolve_target initial_mhz with
      | None => S754_nan
      | Some resolved => actual_mhz resolved
      end
  end.

Definition bzm_frequency_next_ramp_mhz (current_mhz target_mhz : f32) : option f32 :=
  if negb (is_finite current_mhz) || negb (bzm_frequency_request_is_valid target_mhz) then None
  else
    match bzm_frequency_resolve_target target_mhz with
    | None => None
    | Some resolved_target =>
        if flt current_mhz (fsub BZM_FREQUENCY_POWER_ON_MHZ BZM_FREQUENCY_EPSILON_MHZ) then None
        else
          let target_mhz := actual_mhz resolved_target in
          if fle (fsub target_mhz BZM_FREQUENCY_EPSILON_MHZ) current_mhz then None
          else
            let step := fadd current_mhz BZM_FREQUENCY_RAMP_STEP_MHZ in
            let candidate_mhz :=
              if fle (fabs (fsub current_mhz BZM_FREQUENCY_POWER_ON_MHZ)) BZM_FREQUENCY_EPSILON_MHZ then
                let initial := bzm_frequency_initial_mhz target_mhz in
                if negb (is_finite initial) || fle initial (fadd current_mhz BZM_FREQUENCY_EPSILON_MHZ)
                then step else initial
              else step in
            let candidate_mhz := if flt target_mhz candidate_mhz then target_mhz else candidate_mhz in
            match bzm_frequency_resolve_target candidate_mhz with
            | None => None
            | Some resolved =>
                if fle (actual_mhz resolved) (fadd current_mhz BZM_FREQUENCY_EPSILON_MHZ) then None
                else Some (actual_mhz resolved)
            end
    end.

Definition bzm_frequency_next_live_ramp_mhz (current_mhz target_mhz : f32) : option f32 :=
  if negb (bzm_frequency_request_is_valid current_mhz) ||
     negb (bzm_frequency_request_is_valid target_mhz) then None
  else
    match bzm_frequency_resolve_target current_mhz, bzm_frequency_resolve_target target_mhz with
    | Some resolved_current, Some resolved_target =>
        if fle BZM_FREQUENCY_EPSILON_MHZ (fabs (fsub (actual_mhz resolved_current) current_mhz)) then None
        else
          let current_mhz := actual_mhz resolved_current in
          let target_mhz := actual_mhz resolved_target in
          let delta_mhz := fsub target_mhz current_mhz in
          if flt (fabs delta_mhz) BZM_FREQUENCY_EPSILON_MHZ then None
          else
            let up := flt (f32_of_Z 0) delta_mhz in
            let candidate_mhz :=
              fadd current_mhz
                (if up then BZM_FREQUENCY_RAMP_STEP_MHZ else fneg BZM_FREQUENCY_RAMP_STEP_MHZ) in
            let candidate_mhz :=
              if (up && flt target_mhz candidate_mhz) ||
                 (flt delta_mhz (f32_of_Z 0) && flt candidate_mhz target_mhz)
              then target_mhz else candidate_mhz in
            match bzm_frequency_resolve_target candidate_mhz with
            | None => None
            | Some resolved_next =>
                if flt (fabs (fsub (actual_mhz resolved_next) current_mhz)) BZM_FREQUENCY_EPSILON_MHZ
                then None else Some (actual_mhz resolved_next)
            end
    | _, _ => None
    end.

(** ** The divider grid

    The frequencies of the dividers 128 to 320 - 800 to 2000 MHz in steps of
    6.25 MHz - are exact binary32 numbers.  Two of them are compared and subtracted
    as their dividers are; the facts about one divider, or one difference of
    dividers, are decided by evaluation. *)

#[export] Instance spec_float_eq_dec : EqDecision spec_float.
Proof. solve_decision. Defined.
#[export] Instance bzm_frequency_target_t_eq_dec : EqDecision bzm_frequency_target_t.
Proof. solve_decision. Defined.

(** Below 1024 MHz the last of the 24 bits has weight 2^-14, from there on 2^-13. *)
Definition grid_float (n : Z) : f32 :=
  if n <? 164 then S754_finite false (Z.to_pos (n * 102400)) (-14)
  else S754_finite false (Z.to_pos (n * 51200)) (-13).

(** The difference of two of them, as [SFsub] computes it. *)
Definition grid_difference (d : Z) (fine : bool) : f32 :=
  if fine then binary_normalize 24 128 (d * 102400) (-14) false
  else binary_normalize 24 128 (d * 51200) (-13) false.

Lemma shl_align_same m e : shl_align m e e = (m, e).
Proof. unfold shl_align. by rewrite Z.sub_diag. Qed.
Lemma shl_align_fine m : shl_align m (-13) (-14) = ((m~0)%positive, -14).
Proof. done. Qed.

Lemma normalize_eq x y e : x = y -> binary_normalize 24 128 x e false = binary_normalize 24 128 y e false.
Proof. by intros ->. Qed.

Lemma grid_sub a b : 0 < a -> 0 < b ->
  fsub (grid_float a) (grid_float b) = grid_difference (a - b) ((a <? 164) || (b <? 164)).
Proof.
  intros Ha Hb. unfold fsub, SFsub, grid_float, grid_difference.
  destruct (Z.ltb_spec a 164), (Z.ltb_spec b 164); cbn [orb cond_Zopp];
    change (Z.min (-14) (-14)) with (-14); change (Z.min (-14) (-13)) with (-14);
    change (Z.min (-13) (-14)) with (-14); change (Z.min (-13) (-13)) with (-13);
    rewrite ?shl_align_same, ?shl_align_fine; cbn [fst]; rewrite ?(Pos2Z.inj_xO (Z.to_pos _)), ?Z2Pos.id by lia;
    apply normalize_eq; lia.
Qed.

Lemma grid_lt a b : 0 < a -> 0 < b -> flt (grid_float a) (grid_float b) = (a <? b).
Proof.
  intros Ha Hb. unfold flt, SFltb, SFcompare, grid_float.
  destruct (Z.ltb_spec a 164), (Z.ltb_spec b 164);
    repeat match goal with
    | |- context [Pos.compare_cont Eq (Z.to_pos ?x) (Z.to_pos ?y)] =>
        change (Pos.compare_cont Eq (Z.to_pos x) (Z.to_pos y)) with (Pos.compare (Z.to_pos x) (Z.to_pos y));
        rewrite <- (Z2Pos.inj_compare x y) by lia
    end; cbn [Z.compare Pos.compare Pos.compare_cont CompOpp].
  1,4: match goal with |- context [Z.compare ?x ?y] => destruct (Z.compare_spec x y) end.
  all: destruct (Z.ltb_spec a b); done || lia.
Qed.

(** The facts about one divider. *)
Definition divider_checked (i : Z) : bool :=
  let n := i + 128 in
  bool_decide (mhz_of_divider n = grid_float n) && bzm_frequency_request_is_valid (grid_float n) &&
  bool_decide (bzm_frequency_resolve_target (grid_float n) =
    Some (mk_frequency_target (grid_float n) (grid_float n) n 0x1242)) &&
  bool_decide (fadd (grid_float n) BZM_FREQUENCY_RAMP_STEP_MHZ = grid_float (n + 4)) &&
  ((i <? 4) || bool_decide (fadd (grid_float n) (fneg BZM_FREQUENCY_RAMP_STEP_MHZ) = grid_float (n - 4))).
Lemma dividers_checked : forall_below 193 divider_checked = true.
Proof. by vm_compute. Qed.

(** Below 128 only as the candidate of a step down. *)
Definition low_checked (i : Z) : bool :=
  bool_decide (fadd (grid_float (i + 128)) (fneg BZM_FREQUENCY_RAMP_STEP_MHZ) = grid_float (i + 124)).
Lemma low_dividers_checked : forall_below 4 low_checked = true.
Proof. by vm_compute. Qed.

(** The facts about one difference of dividers. *)
Definition difference_checked (i : Z) : bool :=
  let d := i - 192 in
  forallb (fun fine =>
    let x := grid_difference d fine in
    Bool.eqb (flt (fabs x) BZM_FREQUENCY_EPSILON_MHZ) (d =? 0) &&
    Bool.eqb (fle BZM_FREQUENCY_EPSILON_MHZ (fabs x)) (negb (d =? 0)) &&
    Bool.eqb (flt (f32_of_Z 0) x) (0 <? d) && Bool.eqb (flt x (f32_of_Z 0)) (d <? 0)) [true; false].
Lemma differences_checked : forall_below 385 difference_checked = true.
Proof. by vm_compute. Qed.

Lemma divider_facts n : 128 <= n <= 320 ->
  mhz_of_divider n = grid_float n /\ bzm_frequency_request_is_valid (grid_float n) = true /\
  bzm_frequency_resolve_target (grid_float n) =
    Some (mk_frequency_target (grid_float n) (grid_float n) n 0x1242) /\
  fadd (grid_float n) BZM_FREQUENCY_RAMP_STEP_MHZ = grid_float (n + 4) /\
  (132 <= n -> fadd (grid_float n) (fneg BZM_FREQUENCY_RAMP_STEP_MHZ) = grid_float (n - 4)).
Proof.
  intros Hn. pose proof (forall_below_spec _ _ dividers_checked (n - 128) ltac:(lia)) as H.
  unfold divider_checked in H. replace (n - 128 + 128) with n in H by lia. prop_bool. split_and!; try done.
  intros Hl. match goal with E : (_ <? _) || _ = true |- _ => apply orb_true_iff in E as [?|Hd] end; [lia|].
  by apply bool_decide_eq_true in Hd.
Qed.

Lemma difference_facts a b : 128 <= a <= 320 -> 128 <= b <= 320 ->
  let x := fsub (grid_float a) (grid_float b) in
  flt (fabs x) BZM_FREQUENCY_EPSILON_MHZ = (a - b =? 0) /\
  fle BZM_FREQUENCY_EPSILON_MHZ (fabs x) = negb (a - b =? 0) /\
  flt (f32_of_Z 0) x = (0 <? a - b) /\ flt x (f32_of_Z 0) = (a - b <? 0).
Proof.
  intros Ha Hb. cbn zeta. rewrite grid_sub by lia.
  pose proof (forall_below_spec _ _ differences_checked (a - b + 192) ltac:(lia)) as H.
  unfold difference_checked in H. replace (a - b + 192 - 192) with (a - b) in H by lia.
  rewrite forallb_forall in H.
  specialize (H ((a <? 164) || (b <? 164)) ltac:(destruct (_ || _); cbn; tauto)). cbn beta zeta in H.
  rewrite !andb_true_iff, !Bool.eqb_true_iff in H. tauto.
Qed.

(** ** The live ramp *)

(** The dividers on the way from [i] to [j], in steps of four - 25 MHz. *)
Definition divider_after (i j k : Z) : Z :=
  if i <? j then Z.min j (i + 4 * k) else Z.max j (i - 4 * k).
Definition ramp_steps (i j : Z) : Z := (Z.abs (j - i) + 3) / 4.

Lemma next_live_step i j t r : 128 <= i <= 320 -> 128 <= j <= 320 ->
  bzm_frequency_request_is_valid t = true -> bzm_frequency_resolve_target t = Some r ->
  actual_mhz r = mhz_of_divider j ->
  bzm_frequency_next_live_ramp_mhz (mhz_of_divider i) t =
    if i =? j then None else Some (mhz_of_divider (divider_after i j 1)).
Proof.
  intros Hi Hj Ht Hr Ha.
  destruct (divider_facts i Hi) as (Ei & Vi & Ri & Ui & Di), (divider_facts j Hj) as (Ej & _ & Rj & _ & _).
  unfold bzm_frequency_next_live_ramp_mhz. rewrite Ei, Vi, Ht, Ri, Hr, Ha, Ej. cbn [negb orb actual_mhz].
  destruct (difference_facts i i Hi Hi) as (_ & -> & _ & _). rewrite Z.sub_diag. cbn [Z.eqb negb].
  destruct (difference_facts j i Hj Hi) as (-> & _ & -> & ->).
  destruct (Z.eqb_spec i j) as [->|Hn]; [by rewrite Z.sub_diag|]. rewrite (proj2 (Z.eqb_neq (j - i) 0)) by lia.
  assert (Hnext : forall n, 128 <= n <= 320 -> n <> i ->
    match bzm_frequency_resolve_target (grid_float n) with
    | None => None
    | Some resolved_next =>
        if flt (fabs (fsub (actual_mhz resolved_next) (grid_float i))) BZM_FREQUENCY_EPSILON_MHZ
        then None else Some (actual_mhz resolved_next)
    end = Some (mhz_of_divider n)).
  { intros n Hn1 Hn2. destruct (divider_facts n Hn1) as (-> & _ & -> & _ & _). cbn [actual_mhz].
    destruct (difference_facts n i Hn1 Hi) as (-> & _). by rewrite (proj2 (Z.eqb_neq (n - i) 0)) by lia. }
  unfold divider_after. destruct (Z.ltb_spec i j).
  - rewrite (proj2 (Z.ltb_lt 0 (j - i))), (proj2 (Z.ltb_ge (j - i) 0)) by lia. cbn [andb orb].
    rewrite Ui, grid_lt by lia. destruct (Z.ltb_spec j (i + 4)); rewrite orb_false_r.
    + rewrite Hnext by lia. do 2 f_equal. lia.
    + rewrite Hnext by lia. do 2 f_equal. lia.
  - rewrite (proj2 (Z.ltb_ge 0 (j - i))), (proj2 (Z.ltb_lt (j - i) 0)) by lia. cbn [andb orb].
    destruct (decide (132 <= i)) as [Hl|Hl].
    + rewrite Di, grid_lt by lia. destruct (Z.ltb_spec (i - 4) j); rewrite Hnext by lia; do 2 f_equal; lia.
    + pose proof (forall_below_spec _ _ low_dividers_checked (i - 128) ltac:(lia)) as E.
      unfold low_checked in E. replace (i - 128 + 128) with i in E by lia.
      replace (i - 128 + 124) with (i - 4) in E by lia. apply bool_decide_eq_true in E. rewrite E, grid_lt by lia.
      rewrite (proj2 (Z.ltb_lt (i - 4) j)) by lia. rewrite Hnext by lia. do 2 f_equal. lia.
Qed.

(** The frequencies the live ramp passes through. *)
Fixpoint live_ramp (steps : nat) (current_mhz target_mhz : f32) : list f32 :=
  match steps with
  | O => []
  | S steps =>
      match bzm_frequency_next_live_ramp_mhz current_mhz target_mhz with
      | None => []
      | Some next_mhz => next_mhz :: live_ramp steps next_mhz target_mhz
      end
  end.

Lemma divider_after_last i j : divider_after i j (ramp_steps i j) = j.
Proof.
  unfold divider_after, ramp_steps. pose proof (Z.div_mod (Z.abs (j - i) + 3) 4 ltac:(lia)).
  pose proof (Z.mod_pos_bound (Z.abs (j - i) + 3) 4 ltac:(lia)). destruct (Z.ltb_spec i j); lia.
Qed.

Lemma divider_after_step i j k : 0 <= k -> i <> j ->
  divider_after (divider_after i j 1) j k = divider_after i j (k + 1).
Proof.
  intros Hk Hn. unfold divider_after.
  destruct (Z.ltb_spec i j), (Z.ltb_spec (Z.min j (i + 4 * 1)) j), (Z.ltb_spec (Z.max j (i - 4 * 1)) j); lia.
Qed.

Lemma ramp_steps_step i j : i <> j -> ramp_steps i j = Z.succ (ramp_steps (divider_after i j 1) j).
Proof.
  intros Hn. unfold ramp_steps, divider_after. destruct (Z.ltb_spec i j).
  - destruct (Z.le_gt_cases j (i + 4 * 1)).
    + rewrite Z.min_l, Z.sub_diag by lia. change ((Z.abs 0 + 3) / 4) with 0.
      symmetry. apply Z.div_unique with (Z.abs (j - i) - 1); lia.
    + rewrite Z.min_r by lia. rewrite <- Z.add_1_r, <- Z.div_add by lia. f_equal. lia.
  - destruct (Z.le_gt_cases (i - 4 * 1) j).
    + rewrite Z.max_l, Z.sub_diag by lia. change ((Z.abs 0 + 3) / 4) with 0.
      symmetry. apply Z.div_unique with (Z.abs (j - i) - 1); lia.
    + rewrite Z.max_r by lia. rewrite <- Z.add_1_r, <- Z.div_add by lia. f_equal. lia.
Qed.

Lemma live_ramp_walk i j t r steps : 128 <= i <= 320 -> 128 <= j <= 320 ->
  bzm_frequency_request_is_valid t = true -> bzm_frequency_resolve_target t = Some r ->
  actual_mhz r = mhz_of_divider j -> ramp_steps i j <= Z.of_nat steps ->
  live_ramp steps (mhz_of_divider i) t =
    (fun k => mhz_of_divider (divider_after i j k)) <$> seqZ 1 (ramp_steps i j).
Proof.
  intros Hi Hj Ht Hr Ha. revert i Hi. induction steps as [|steps IH]; intros i Hi Hs; cbn [live_ramp].
  { by rewrite seqZ_nil by lia. }
  rewrite (next_live_step i j t r) by done. destruct (Z.eqb_spec i j) as [->|Hn].
  { unfold ramp_steps. rewrite Z.sub_diag. by rewrite seqZ_nil by done. }
  pose proof (ramp_steps_step i j Hn) as Hst.
  assert (0 <= ramp_steps (divider_after i j 1) j) by (apply Z.div_pos; lia).
  rewrite IH; [|unfold divider_after; destruct (i <? j); lia|lia].
  rewrite Hst, (seqZ_cons 1 (Z.succ _)) by lia. rewrite fmap_cons. f_equal. rewrite Z.pred_succ.
  rewrite <- (fmap_add_seqZ 1 1), <- list_fmap_compose. apply list_fmap_ext. intros k x Hk.
  apply list_elem_of_lookup_2, elem_of_seqZ in Hk. cbn. f_equal. rewrite divider_after_step by lia. f_equal. lia.
Qed.

(** C17: The live ramp reaches its target: between any two frequencies of the divider
    grid - 800 to 2000 MHz - it passes through the grid frequencies at most four
    dividers, 25 MHz, apart, straight to the frequency the request resolves to, needs
    at most 48 steps, and refuses any further step there. *)
Theorem live_ramp_reaches_target i j t r steps :
  128 <= i <= 320 -> 128 <= j <= 320 ->
  bzm_frequency_request_is_valid t = true -> bzm_frequency_resolve_target t = Some r ->
  actual_mhz r = mhz_of_divider j -> (48 <= steps)%nat ->
  live_ramp steps (mhz_of_divider i) t =
    (fun k => mhz_of_divider (divider_after i j k)) <$> seqZ 1 (ramp_steps i j) /\
  ramp_steps i j <= 48 /\ divider_after i j (ramp_steps i j) = j /\
  bzm_frequency_next_live_ramp_mhz (mhz_of_divider j) t = None.
Proof.
  intros Hi Hj Ht Hr Ha Hs. assert (Hb : 0 <= ramp_steps i j <= 48).
  { unfold ramp_steps. split; [apply Z.div_pos; lia|]. apply Z.lt_succ_r, Z.div_lt_upper_bound; lia. }
  split; [|split; [lia|split; [by apply divider_after_last|]]].
  - apply live_ramp_walk with r; try done. lia.
  - rewrite (next_live_step j j t r) by done. by rewrite Z.eqb_refl.
Qed.

Lemma live_ramp_reaches_target_witness :
  live_ramp 48 (mhz_of_divider 128) (f32_of_Z 1003) =
    (fun k => mhz_of_divider (divider_after 128 160 k)) <$> seqZ 1 8 /\
  bzm_frequency_next_live_ramp_mhz (mhz_of_divider 160) (f32_of_Z 1003) = None.
Proof.
  destruct (live_ramp_reaches_target 128 160 (f32_of_Z 1003)
    (mk_frequency_target (f32_of_Z 1003) (f32_of_Z 1000) 160 0x1242) 48) as (H1 & _ & _ & H2);
    [lia|lia|by vm_compute|by vm_compute|by vm_compute|lia|].
  split; [exact H1|exact H2].
Defined.
