(* ===== verification/Topology.v ===== *)
(** * Engine topology of a Bonanza ASIC and the chain's wire identifiers

    Models src/components/asic/bzm_topology.c and include/bzm_topology.h: the
    four wire identifiers, the 20 x 12 engine grid with its four holes, the
    lookups by coordinate, grid id, physical id, topology index and stack
    index, and the balanced activation order.  A function that returns [bool]
    and writes an out-parameter returns an [option]; a [NULL] out-parameter,
    which every function rejects, is not modelled. *)

From S2P Require Import Prelude.

(** ** Data *)

Definition BZM_MAX_ASIC_COUNT : Z := 4.
Definition BZM_ASIC_ID_STRIDE : Z := 10.
Definition BZM_TOPOLOGY_ROWS : Z := 20.
Definition BZM_TOPOLOGY_COLUMNS : Z := 12.
Definition BZM_TOPOLOGY_GRID_ENGINE_COUNT : Z := BZM_TOPOLOGY_ROWS * BZM_TOPOLOGY_COLUMNS.
Definition BZM_TOPOLOGY_ENGINE_COUNT : Z := 236.
Definition BZM_TOPOLOGY_STACK_ENGINE_COUNT : Z := 118.
Definition BZM_TOPOLOGY_PAIR_COUNT : Z := BZM_TOPOLOGY_STACK_ENGINE_COUNT.
Definition BZM_TOPOLOGY_ACTIVATION_COUNT : Z := BZM_TOPOLOGY_ENGINE_COUNT.
Definition BZM_ENGINE_STACK_COUNT : Z := 2.

Inductive bzm_engine_stack_t := BZM_ENGINE_STACK_BOTTOM | BZM_ENGINE_STACK_TOP.
#[export] Instance bzm_engine_stack_t_eq_dec : EqDecision bzm_engine_stack_t.
Proof. solve_decision. Defined.

Record bzm_engine_location_t := mk_engine_location {
  row : Z;
  column : Z;
  stack : bzm_engine_stack_t;
  physical_id : Z;
  grid_id : Z;
  topology_index : Z;
  stack_index : Z;
}.
#[export] Instance bzm_engine_location_t_eq_dec : EqDecision bzm_engine_location_t.
Proof. solve_decision. Defined.

Record bzm_engine_pair_t := mk_engine_pair {
  pair_index : Z;
  bottom : bzm_engine_location_t;
  top : bzm_engine_location_t;
}.

Definition bzm_asic_wire_ids : list Z := [0x0a; 0x14; 0x1e; 0x28].

(** ** Wire identifiers *)

Definition bzm_topology_asic_id_at (logical_index : Z) : option Z :=
  if BZM_MAX_ASIC_COUNT <=? logical_index then None
  else Some (byte_at bzm_asic_wire_ids (Z.to_nat logical_index)).

Fixpoint asic_index_scan (ids : list Z) (index : nat) (asic_id : Z) : option nat :=
  match ids with
  | [] => None
  | id :: ids => if id =? asic_id then Some index else asic_index_scan ids (S index) asic_id
  end.

Definition bzm_topology_asic_index (asic_id : Z) : option nat :=
  asic_index_scan bzm_asic_wire_ids 0 asic_id.

(** ** Grid *)

Definition stack_for_row (r : Z) : bzm_engine_stack_t :=
  if r <? BZM_TOPOLOGY_ROWS / 2 then BZM_ENGINE_STACK_BOTTOM else BZM_ENGINE_STACK_TOP.

Definition bzm_topology_coordinate_is_valid (r c : Z) : bool :=
  if (BZM_TOPOLOGY_ROWS <=? r) || (BZM_TOPOLOGY_COLUMNS <=? c) then false
  else negb (((r =? 0) && ((c =? 4) || (c =? 5))) || ((r =? 19) && ((c =? 5) || (c =? 11)))).

(** The iterations of [for (column) for (row)], in loop order. *)
Definition grid_scan : list (Z * Z) :=
  c ← seqZ 0 BZM_TOPOLOGY_COLUMNS; r ← seqZ 0 BZM_TOPOLOGY_ROWS; [(r, c)].

Fixpoint locate_loop (scan : list (Z * Z)) (requested_row requested_column : Z)
    (next_index bottom_index top_index : Z) : option bzm_engine_location_t :=
  match scan with
  | [] => None
  | (r, c) :: scan =>
      if negb (bzm_topology_coordinate_is_valid r c) then
        locate_loop scan requested_row requested_column next_index bottom_index top_index
      else
        let st := stack_for_row r in
        let si := if decide (st = BZM_ENGINE_STACK_BOTTOM) then bottom_index else top_index in
        if (r =? requested_row) && (c =? requested_column) then
          Some {| row := r; column := c; stack := st;
                  physical_id := u16 (Z.lor (Z.shiftl c 6) r);
                  grid_id := u16 (c * BZM_TOPOLOGY_ROWS + r);
                  topology_index := next_index; stack_index := si |}
        else if decide (st = BZM_ENGINE_STACK_BOTTOM) then
          locate_loop scan requested_row requested_column
                      (u16 (next_index + 1)) (u16 (bottom_index + 1)) top_index
        else
          locate_loop scan requested_row requested_column
                      (u16 (next_index + 1)) bottom_index (u16 (top_index + 1))
  end.

Definition locate_coordinate (requested_row requested_column : Z)
    : option bzm_engine_location_t :=
  if negb (bzm_topology_coordinate_is_valid requested_row requested_column) then None
  else locate_loop grid_scan requested_row requested_column 0 0 0.

Definition bzm_topology_from_coordinate (r c : Z) : option bzm_engine_location_t :=
  locate_coordinate r c.

Definition bzm_topology_from_grid_id (id : Z) : option bzm_engine_location_t :=
  if BZM_TOPOLOGY_GRID_ENGINE_COUNT <=? id then None
  else locate_coordinate (u8 (id mod BZM_TOPOLOGY_ROWS)) (u8 (id / BZM_TOPOLOGY_ROWS)).

Definition bzm_topology_from_physical_id (id : Z) : option bzm_engine_location_t :=
  let r := u8 (Z.land id 0x3f) in
  let c := Z.shiftr id 6 in
  if BZM_TOPOLOGY_COLUMNS <=? c then None else locate_coordinate r (u8 c).

Fixpoint engine_at_loop (scan : list (Z * Z)) (index current : Z)
    : option bzm_engine_location_t :=
  match scan with
  | [] => None
  | (r, c) :: scan =>
      if negb (bzm_topology_coordinate_is_valid r c) then engine_at_loop scan index current
      else if current =? index then locate_coordinate r c
      else engine_at_loop scan index (u16 (current + 1))
  end.

Definition bzm_topology_engine_at (index : Z) : option bzm_engine_location_t :=
  if BZM_TOPOLOGY_ENGINE_COUNT <=? index then None else engine_at_loop grid_scan index 0.

Fixpoint stack_engine_loop (scan : list (Z * Z)) (st : bzm_engine_stack_t)
    (index current : Z) : option bzm_engine_location_t :=
  match scan with
  | [] => None
  | (r, c) :: scan =>
      if negb (bzm_topology_coordinate_is_valid r c) || negb (bool_decide (stack_for_row r = st))
      then stack_engine_loop scan st index current
      else if current =? index then locate_coordinate r c
      else stack_engine_loop scan st index (u16 (current + 1))
  end.

Definition bzm_topology_stack_engine_at (st : bzm_engine_stack_t) (index : Z)
    : option bzm_engine_location_t :=
  if BZM_TOPOLOGY_STACK_ENGINE_COUNT <=? index then None
  else stack_engine_loop grid_scan st index 0.

Definition bzm_topology_balanced_pair_at (index : Z) : option bzm_engine_pair_t :=
  if BZM_TOPOLOGY_PAIR_COUNT <=? index then None
  else match bzm_topology_stack_engine_at BZM_ENGINE_STACK_BOTTOM index,
             bzm_topology_stack_engine_at BZM_ENGINE_STACK_TOP index with
       | Some b, Some t => Some {| pair_index := index; bottom := b; top := t |}
       | _, _ => None
       end.

Definition other_stack (st : bzm_engine_stack_t) : bzm_engine_stack_t :=
  match st with
  | BZM_ENGINE_STACK_BOTTOM => BZM_ENGINE_STACK_TOP
  | BZM_ENGINE_STACK_TOP => BZM_ENGINE_STACK_BOTTOM
  end.

Definition bzm_topology_activation_at (activation_index : Z) (first_stack : bzm_engine_stack_t)
    : option bzm_engine_location_t :=
  if BZM_TOPOLOGY_ACTIVATION_COUNT <=? activation_index then None
  else
    let index := u16 (activation_index / BZM_ENGINE_STACK_COUNT) in
    let second_member := negb (activation_index mod BZM_ENGINE_STACK_COUNT =? 0) in
    let st := if second_member then other_stack first_stack else first_stack in
    bzm_topology_stack_engine_at st index.

(** ** Lemmas *)

Lemma asic_index_scan_spec ids k id i :
  asic_index_scan ids k id = Some i -> (k <= i)%nat /\ ids !! (i - k)%nat = Some id.
Proof.
  revert k. induction ids as [|x ids IH]; intros k; simpl; [done|].
  destruct (Z.eqb_spec x id) as [->|].
  - intros [= ->]. split; [lia|]. by rewrite Nat.sub_diag.
  - intros H%IH. destruct H as [Hle H]. split; [lia|].
    by replace (i - k)%nat with (S (i - S k))%nat by lia.
Qed.

Lemma asic_index_lt id i : bzm_topology_asic_index id = Some i -> (i < 4)%nat.
Proof.
  intros H%asic_index_scan_spec. destruct H as [_ H].
  apply lookup_lt_Some in H. simpl in H. lia.
Qed.

Lemma asic_index_inj x y i :
  bzm_topology_asic_index x = Some i -> bzm_topology_asic_index y = Some i -> x = y.
Proof.
  intros [_ Hx]%asic_index_scan_spec [_ Hy]%asic_index_scan_spec. congruence.
Qed.

(** One engine agrees with every lookup that can name it. *)
Definition engine_consistent (e : bzm_engine_location_t) : bool :=
  bool_decide (bzm_topology_from_coordinate (row e) (column e) = Some e) &&
  bool_decide (bzm_topology_from_grid_id (grid_id e) = Some e) &&
  bool_decide (bzm_topology_from_physical_id (physical_id e) = Some e) &&
  bool_decide (bzm_topology_engine_at (topology_index e) = Some e) &&
  bool_decide (bzm_topology_stack_engine_at (stack e) (stack_index e) = Some e) &&
  bool_decide (stack e = stack_for_row (row e)).

Definition consistent_result (want : bzm_engine_location_t -> bool)
    (r : option bzm_engine_location_t) : bool :=
  match r with Some e => want e && engine_consistent e | None => false end.

Definition engine_at_checked (i : Z) : bool :=
  consistent_result (fun e => topology_index e =? i) (bzm_topology_engine_at i).

Definition coordinate_checked (i : Z) : bool :=
  let r := i mod 20 in let c := i / 20 in
  if bzm_topology_coordinate_is_valid r c then
    consistent_result (fun e => (row e =? r) && (column e =? c)) (bzm_topology_from_coordinate r c)
  else bool_decide (bzm_topology_from_coordinate r c = None).

Lemma all_engines_checked : forall_below 236 engine_at_checked = true.
Proof. by vm_compute. Qed.

Lemma all_coordinates_checked : forall_below 240 coordinate_checked = true.
Proof. by vm_compute. Qed.

Lemma engine_at_result i :
  0 <= i < 236 ->
  exists e, bzm_topology_engine_at i = Some e /\ topology_index e = i /\ engine_consistent e = true.
Proof.
  intros Hi. pose proof (forall_below_spec _ _ all_engines_checked i Hi) as H.
  unfold engine_at_checked, consistent_result in H.
  destruct (bzm_topology_engine_at i) as [e|]; [|done]. exists e.
  apply andb_true_iff in H as [H1 H2]. by apply Z.eqb_eq in H1.
Qed.

Lemma valid_coordinate_index r c :
  0 <= r -> 0 <= c -> bzm_topology_coordinate_is_valid r c = true -> r < 20 /\ c < 12.
Proof.
  unfold bzm_topology_coordinate_is_valid, BZM_TOPOLOGY_ROWS, BZM_TOPOLOGY_COLUMNS.
  destruct (Z.leb_spec 20 r), (Z.leb_spec 12 c); simpl; done.
Qed.

Definition activation_order (st : bzm_engine_stack_t) : list bzm_engine_location_t :=
  omap (fun i => bzm_topology_activation_at i st) (seqZ 0 236).

Definition stack_count (st : bzm_engine_stack_t) (l : list bzm_engine_location_t) : Z :=
  Z.of_nat (length (filter (fun e => stack e = st) l)).

Definition prefixes_balanced (l : list bzm_engine_location_t) : bool :=
  forallb (fun n =>
    let p := take n l in
    Z.abs (stack_count BZM_ENGINE_STACK_BOTTOM p - stack_count BZM_ENGINE_STACK_TOP p) <=? 1)
  (seq 0 237).

Definition activation_checked (st : bzm_engine_stack_t) : bool :=
  let l := activation_order st in
  (length l =? 236)%nat && prefixes_balanced l &&
  bool_decide (NoDup (topology_index <$> l)) &&
  forallb (fun e => (0 <=? topology_index e) &&
                    bool_decide (bzm_topology_engine_at (topology_index e) = Some e)) l.

Lemma activation_checked_ok st : activation_checked st = true.
Proof. destruct st; by vm_compute. Qed.

Lemma omap_all_some {A B} (f : A -> option B) l :
  length (omap f l) = length l -> f <$> l = Some <$> omap f l.
Proof.
  assert (Hle : forall l, (length (omap f l) <= length l)%nat).
  { clear l. induction l as [|x l IH]; [done|]. cbn. destruct (f x); cbn; lia. }
  induction l as [|x l IH]; [done|]. cbn. specialize (Hle l). destruct (f x); cbn; intros H.
  - f_equal. apply IH. cbn in *. lia.
  - cbn in *. lia.
Qed.

(** Activation is a numbering of the engines. *)
Lemma activation_order_lookup st i :
  0 <= i < 236 -> bzm_topology_activation_at i st = activation_order st !! Z.to_nat i.
Proof.
  intros Hi. pose proof (activation_checked_ok st) as H. unfold activation_checked in H. prop_bool.
  match goal with E : (_ =? _)%nat = true |- _ => apply Nat.eqb_eq in E; rename E into Hlen end.
  assert (Ho : (fun i => bzm_topology_activation_at i st) <$> seqZ 0 236 = Some <$> activation_order st)
    by (apply omap_all_some; exact Hlen).
  apply (f_equal (lookup (Z.to_nat i))) in Ho. rewrite !list_lookup_fmap in Ho.
  rewrite lookup_seqZ_lt in Ho by lia. cbn in Ho. rewrite Z2Nat.id in Ho by lia. change (0 + i) with i in Ho.
  destruct (activation_order st !! Z.to_nat i); cbn in Ho; congruence.
Qed.

Lemma activation_at_engine st i :
  0 <= i < 236 -> exists e, bzm_topology_activation_at i st = Some e /\
    bzm_topology_from_physical_id (physical_id e) = Some e.
Proof.
  intros Hi. rewrite activation_order_lookup by done.
  pose proof (activation_checked_ok st) as H. unfold activation_checked in H. prop_bool.
  match goal with E : (_ =? _)%nat = true |- _ => apply Nat.eqb_eq in E; rename E into Hlen end.
  match goal with E : forallb _ _ = true |- _ => rename E into Hall end.
  destruct (lookup_lt_is_Some_2 (activation_order st) (Z.to_nat i)) as [e He]; [lia|].
  exists e. split; [done|]. rewrite forallb_forall in Hall.
  assert (He' : In e (activation_order st)) by (by eapply list_elem_of_In, list_elem_of_lookup_2).
  apply Hall, andb_true_iff in He' as [H0 Ht]. apply Z.leb_le in H0. apply bool_decide_eq_true in Ht.
  assert (topology_index e < 236).
  { unfold bzm_topology_engine_at in Ht.
    destruct (Z.leb_spec BZM_TOPOLOGY_ENGINE_COUNT (topology_index e)) as [|Hlt]; [done|].
    unfold BZM_TOPOLOGY_ENGINE_COUNT in Hlt. lia. }
  destruct (engine_at_result (topology_index e) ltac:(lia)) as (e' & Hee & _ & Hc).
  rewrite Ht in Hee. injection Hee as <-. unfold engine_consistent in Hc. by prop_bool.
Qed.

Lemma activation_physical_inj st i j e e' :
  0 <= i < 236 -> 0 <= j < 236 ->
  bzm_topology_activation_at i st = Some e -> bzm_topology_activation_at j st = Some e' ->
  physical_id e = physical_id e' -> i = j /\ e = e'.
Proof.
  intros Hi Hj He He' Hp.
  destruct (activation_at_engine st i Hi) as (x & Hx & Hpx), (activation_at_engine st j Hj) as (y & Hy & Hpy).
  simplify_eq. assert (e = e') as <- by congruence. split; [|done].
  rewrite activation_order_lookup in He, He' by done.
  pose proof (activation_checked_ok st) as H. unfold activation_checked in H. prop_bool.
  assert (Z.to_nat i = Z.to_nat j); [|lia].
  match goal with E : NoDup _ |- _ => apply (proj1 (NoDup_alt _) E _ _ (topology_index e)) end.
  - by rewrite list_lookup_fmap, He.
  - by rewrite list_lookup_fmap, He'.
Qed.

(** ** Properties *)

(** C34: Engine numbering is a bijection: every topology index below 236 names
    exactly one engine, and the lookups by coordinate, by grid id, by physical
    id and by stack position all return that same engine, whose voltage stack
    is the one of its row. *)
Theorem topology_lookups_agree (i : Z) :
  0 <= i < 236 ->
  exists e, bzm_topology_engine_at i = Some e /\ topology_index e = i /\
    bzm_topology_from_coordinate (row e) (column e) = Some e /\
    bzm_topology_from_grid_id (grid_id e) = Some e /\
    bzm_topology_from_physical_id (physical_id e) = Some e /\
    bzm_topology_stack_engine_at (stack e) (stack_index e) = Some e /\
    stack e = stack_for_row (row e).
Proof.
  intros Hi. destruct (engine_at_result i Hi) as (e & He & Hidx & Hc).
  exists e. unfold engine_consistent in Hc. prop_bool. tauto.
Qed.

Lemma topology_lookups_agree_witness :
  0 <= 4 < 236 /\
  exists e, bzm_topology_engine_at 4 = Some e /\ topology_index e = 4 /\
    bzm_topology_from_coordinate (row e) (column e) = Some e /\
    bzm_topology_from_grid_id (grid_id e) = Some e /\
    bzm_topology_from_physical_id (physical_id e) = Some e /\
    bzm_topology_stack_engine_at (stack e) (stack_index e) = Some e /\
    stack e = stack_for_row (row e).
Proof. split; [lia | apply (topology_lookups_agree 4); lia]. Defined.

(** A coordinate has an engine exactly when it lies on the grid and is not
    one of the four holes, and that engine's topology index leads back to it;
    so the topology indices cover all usable coordinates. *)
Theorem topology_coordinates_complete (r c : Z) :
  0 <= r -> 0 <= c ->
  if bzm_topology_coordinate_is_valid r c then
    exists e, bzm_topology_from_coordinate r c = Some e /\ row e = r /\ column e = c /\
              bzm_topology_engine_at (topology_index e) = Some e
  else bzm_topology_from_coordinate r c = None.
Proof.
  intros Hr Hc. destruct (bzm_topology_coordinate_is_valid r c) eqn:Hv.
  2: { unfold bzm_topology_from_coordinate, locate_coordinate. by rewrite Hv. }
  destruct (valid_coordinate_index r c Hr Hc Hv) as [Hr' Hc'].
  pose proof (forall_below_spec _ _ all_coordinates_checked (c * 20 + r)) as H.
  unfold coordinate_checked in H.
  replace ((c * 20 + r) mod 20) with r in H by (apply Z.mod_unique with c; lia).
  replace ((c * 20 + r) / 20) with c in H by (apply Z.div_unique with r; lia).
  rewrite Hv in H. specialize (H ltac:(lia)). unfold consistent_result in H.
  destruct (bzm_topology_from_coordinate r c) as [e|]; [|done].
  unfold engine_consistent in H. prop_bool. exists e.
  repeat match goal with E : (_ =? _) = true |- _ => apply Z.eqb_eq in E end. tauto.
Qed.

Lemma topology_coordinates_complete_witness :
  (0 <= 19 /\ 0 <= 3) /\
  if bzm_topology_coordinate_is_valid 19 3 then
    exists e, bzm_topology_from_coordinate 19 3 = Some e /\ row e = 19 /\ column e = 3 /\
              bzm_topology_engine_at (topology_index e) = Some e
  else bzm_topology_from_coordinate 19 3 = None.
Proof. split; [lia | apply (topology_coordinates_complete 19 3); lia]. Defined.

(** The activation sequence starting on either stack lists all 236 engines
    without repetition, every listed engine is a topology engine, and in every
    prefix the two stacks differ by at most one active engine. *)
Theorem topology_activation_balanced (st : bzm_engine_stack_t) :
  length (activation_order st) = 236%nat /\
  NoDup (topology_index <$> activation_order st) /\
  (forall e, e ∈ activation_order st -> bzm_topology_engine_at (topology_index e) = Some e) /\
  (forall n, Z.abs (stack_count BZM_ENGINE_STACK_BOTTOM (take n (activation_order st)) -
                    stack_count BZM_ENGINE_STACK_TOP (take n (activation_order st))) <= 1).
Proof.
  pose proof (activation_checked_ok st) as H. unfold activation_checked in H. prop_bool.
  match goal with E : (_ =? _)%nat = true |- _ => apply Nat.eqb_eq in E; rename E into Hlen end.
  match goal with E : prefixes_balanced _ = true |- _ => rename E into Hbal end.
  match goal with E : forallb _ _ = true |- _ => rename E into Hall end.
  split_and!; try done.
  - intros e He. rewrite forallb_forall in Hall. apply list_elem_of_In, Hall in He. by prop_bool.
  - unfold prefixes_balanced in Hbal. rewrite forallb_forall in Hbal.
    intros n. rewrite <- (Nat.min_id n).
    destruct (le_lt_dec n 236).
    + rewrite Nat.min_id. apply Z.leb_le, Hbal, in_seq. lia.
    + rewrite Nat.min_id, take_ge by lia. rewrite <- (take_ge (activation_order st) 236) by lia.
      apply Z.leb_le, Hbal, in_seq. lia.
Qed.
