(* ===== verification/Validation.v ===== *)
(** * Staged start-up validation

    Models src/components/asic/bzm_validation.c and its header: the stage
    schema, the admission policy, and the runner that executes the stages in
    order and forces the board safe-off on every exit except a requested hold.
    The stage runner and the safe-off operation are the caller's function
    pointers: a table of optional operations over a world [W] the theorems
    quantify over.  [bzm_validation_stage_t] is an integer, since the code
    compares stages and checks values outside the schema. *)

From S2P Require Import Prelude.

#[local] Open Scope string_scope.
#[local] Open Scope list_scope.
#[local] Open Scope Z_scope.
#[local] Open Scope io_scope.

(** ** Data *)

Definition BZM_VALIDATION_SCHEMA_VERSION : Z := 1.
Definition BZM_VALIDATION_DETAIL_LENGTH : nat := 160.

Abbreviation bzm_validation_stage_t := Z (only parsing).
Definition BZM_STAGE_OFF_SAFE : Z := 0.
Definition BZM_STAGE_CONTROLS : Z := 1.
Definition BZM_STAGE_POWER_RAIL : Z := 2.
Definition BZM_STAGE_CHAIN_4 : Z := 3.
Definition BZM_STAGE_SENSORS : Z := 4.
Definition BZM_STAGE_CLOCKS : Z := 5.
Definition BZM_STAGE_BALANCED_RAMP : Z := 6.
Definition BZM_STAGE_RUNNING : Z := 7.
Definition BZM_STAGE_COUNT : Z := 8.

Inductive bzm_check_status_t :=
| BZM_CHECK_NOT_RUN | BZM_CHECK_RUNNING | BZM_CHECK_GOOD
| BZM_CHECK_BAD | BZM_CHECK_BLOCKED | BZM_CHECK_SKIPPED.
#[export] Instance bzm_check_status_t_eq_dec : EqDecision bzm_check_status_t.
Proof. solve_decision. Defined.

Inductive bzm_validation_code_t :=
| BZM_VALIDATION_CODE_NONE
| BZM_VALIDATION_CODE_STAGE_OK
| BZM_VALIDATION_CODE_STAGE_FAILED
| BZM_VALIDATION_CODE_INVALID_CONFIGURATION
| BZM_VALIDATION_CODE_BUILD_CEILING
| BZM_VALIDATION_CODE_NOT_IMPLEMENTED
| BZM_VALIDATION_CODE_POWER_NOT_COMPILED
| BZM_VALIDATION_CODE_LOCAL_ARM_REQUIRED
| BZM_VALIDATION_CODE_INDEPENDENT_KILL_REQUIRED
| BZM_VALIDATION_CODE_POWER_LEASE_REQUIRED
| BZM_VALIDATION_CODE_PREREQUISITE_FAILED
| BZM_VALIDATION_CODE_SAFE_OFF_FAILED.
#[export] Instance bzm_validation_code_t_eq_dec : EqDecision bzm_validation_code_t.
Proof. solve_decision. Defined.

Inductive bzm_validation_state_t :=
| BZM_VALIDATION_IDLE | BZM_VALIDATION_EXECUTING | BZM_VALIDATION_OFF_SAFE
| BZM_VALIDATION_HOLDING | BZM_VALIDATION_FAULT_LATCHED
| BZM_VALIDATION_SHUTDOWN_UNVERIFIED.
#[export] Instance bzm_validation_state_t_eq_dec : EqDecision bzm_validation_state_t.
Proof. solve_decision. Defined.

Record bzm_stage_result_t := mk_stage_result {
  status : bzm_check_status_t;
  code : bzm_validation_code_t;
  detail : string;
}.
#[export] Instance bzm_stage_result_t_eta : Eta bzm_stage_result_t :=
  fun r => mk_stage_result (status r) (code r) (detail r).

Record bzm_validation_policy_t := mk_policy {
  run_id : Z;
  requested_stage : bzm_validation_stage_t;
  build_max_stage : bzm_validation_stage_t;
  implemented_max_stage : bzm_validation_stage_t;
  powered_stages_compiled : bool;
  local_arm_present : bool;
  production_mode : bool;
  independent_kill_available : bool;
  allow_esp_only_kill_in_lab : bool;
  board_managed_safety : bool;
  hold_after_success : bool;
  lease_ms : Z;
}.

Record bzm_validation_ops_t (W : Type) := mk_validation_ops {
  run_stage : option (bzm_validation_stage_t -> io W bzm_stage_result_t);
  force_safe_off_op : option (io W bzm_stage_result_t);
}.
Arguments mk_validation_ops {W}.
Arguments run_stage {W}.
Arguments force_safe_off_op {W}.

Record bzm_validation_report_t := mk_report {
  schema_version : Z;
  report_run_id : Z;
  report_requested_stage : bzm_validation_stage_t;
  report_build_max_stage : bzm_validation_stage_t;
  report_implemented_max_stage : bzm_validation_stage_t;
  reached_stage : bzm_validation_stage_t;
  overall : bzm_check_status_t;
  state : bzm_validation_state_t;
  energized : bool;
  report_lease_ms : Z;
  stages : list bzm_stage_result_t;
  final_safe_off : bzm_stage_result_t;
}.
#[export] Instance bzm_validation_report_t_eta : Eta bzm_validation_report_t :=
  fun r => mk_report (schema_version r) (report_run_id r) (report_requested_stage r)
    (report_build_max_stage r) (report_implemented_max_stage r) (reached_stage r)
    (overall r) (state r) (energized r) (report_lease_ms r) (stages r) (final_safe_off r).

(** ** Helpers *)

(** [snprintf] into a buffer of 160 bytes keeps the first 159 characters. *)
Definition copy_detail (d : option string) : string :=
  String.substring 0 (BZM_VALIDATION_DETAIL_LENGTH - 1) (default EmptyString d).

Definition valid_stage (stage : bzm_validation_stage_t) : bool :=
  (BZM_STAGE_OFF_SAFE <=? stage) && (stage <? BZM_STAGE_COUNT).

Definition bzm_validation_stage_name (stage : bzm_validation_stage_t) : string :=
  (if stage =? BZM_STAGE_OFF_SAFE then "OFF_SAFE"
   else if stage =? BZM_STAGE_CONTROLS then "CONTROLS"
   else if stage =? BZM_STAGE_POWER_RAIL then "POWER_RAIL"
   else if stage =? BZM_STAGE_CHAIN_4 then "CHAIN_4"
   else if stage =? BZM_STAGE_SENSORS then "SENSORS"
   else if stage =? BZM_STAGE_CLOCKS then "CLOCKS"
   else if stage =? BZM_STAGE_BALANCED_RAMP then "BALANCED_RAMP"
   else if stage =? BZM_STAGE_RUNNING then "RUNNING"
   else "INVALID_STAGE").

Definition bzm_validation_status_name (s : bzm_check_status_t) : string :=
  match s with
  | BZM_CHECK_NOT_RUN => "NOT_RUN"
  | BZM_CHECK_RUNNING => "RUNNING"
  | BZM_CHECK_GOOD => "GOOD"
  | BZM_CHECK_BAD => "BAD"
  | BZM_CHECK_BLOCKED => "BLOCKED"
  | BZM_CHECK_SKIPPED => "SKIPPED"
  end.

Definition bzm_validation_code_name (c : bzm_validation_code_t) : string :=
  match c with
  | BZM_VALIDATION_CODE_NONE => "NONE"
  | BZM_VALIDATION_CODE_STAGE_OK => "STAGE_OK"
  | BZM_VALIDATION_CODE_STAGE_FAILED => "STAGE_FAILED"
  | BZM_VALIDATION_CODE_INVALID_CONFIGURATION => "INVALID_CONFIGURATION"
  | BZM_VALIDATION_CODE_BUILD_CEILING => "BUILD_CEILING"
  | BZM_VALIDATION_CODE_NOT_IMPLEMENTED => "NOT_IMPLEMENTED"
  | BZM_VALIDATION_CODE_POWER_NOT_COMPILED => "POWER_NOT_COMPILED"
  | BZM_VALIDATION_CODE_LOCAL_ARM_REQUIRED => "LOCAL_ARM_REQUIRED"
  | BZM_VALIDATION_CODE_INDEPENDENT_KILL_REQUIRED => "INDEPENDENT_KILL_REQUIRED"
  | BZM_VALIDATION_CODE_POWER_LEASE_REQUIRED => "POWER_LEASE_REQUIRED"
  | BZM_VALIDATION_CODE_PREREQUISITE_FAILED => "PREREQUISITE_FAILED"
  | BZM_VALIDATION_CODE_SAFE_OFF_FAILED => "SAFE_OFF_FAILED"
  end.

Definition bzm_validation_result (s : bzm_check_status_t) (c : bzm_validation_code_t)
    (d : option string) : bzm_stage_result_t :=
  {| status := s; code := c; detail := copy_detail d |}.

Definition blocked (c : bzm_validation_code_t) (d : string) : bzm_stage_result_t :=
  bzm_validation_result BZM_CHECK_BLOCKED c (Some d).

Definition is_good (r : bzm_stage_result_t) : bool := bool_decide (status r = BZM_CHECK_GOOD).

Definition set_stage (stage : bzm_validation_stage_t) (r : bzm_stage_result_t)
    (report : bzm_validation_report_t) : bzm_validation_report_t :=
  report <| stages := <[Z.to_nat stage := r]> (stages report) |>.

(** ** Operations *)

Definition initialize_report (policy : option bzm_validation_policy_t)
    : bzm_validation_report_t :=
  {| schema_version := BZM_VALIDATION_SCHEMA_VERSION;
     report_run_id := from_option run_id 0 policy;
     report_requested_stage := from_option requested_stage BZM_STAGE_OFF_SAFE policy;
     report_build_max_stage := from_option build_max_stage BZM_STAGE_OFF_SAFE policy;
     report_implemented_max_stage := from_option implemented_max_stage BZM_STAGE_OFF_SAFE policy;
     reached_stage := BZM_STAGE_OFF_SAFE;
     overall := BZM_CHECK_NOT_RUN;
     state := BZM_VALIDATION_IDLE;
     energized := false;
     report_lease_ms := from_option lease_ms 0 policy;
     stages := replicate (Z.to_nat BZM_STAGE_COUNT)
       (bzm_validation_result BZM_CHECK_NOT_RUN BZM_VALIDATION_CODE_NONE (Some "not requested"));
     final_safe_off :=
       bzm_validation_result BZM_CHECK_NOT_RUN BZM_VALIDATION_CODE_NONE
         (Some "final safe-off has not run") |}.

Definition normalize_stage_result (result : bzm_stage_result_t) : bzm_stage_result_t :=
  match status result with
  | BZM_CHECK_GOOD =>
      if decide (code result = BZM_VALIDATION_CODE_NONE)
      then result <| code := BZM_VALIDATION_CODE_STAGE_OK |> else result
  | BZM_CHECK_BAD | BZM_CHECK_BLOCKED =>
      if decide (code result = BZM_VALIDATION_CODE_NONE)
      then result <| code := BZM_VALIDATION_CODE_STAGE_FAILED |> else result
  | _ =>
      bzm_validation_result BZM_CHECK_BAD BZM_VALIDATION_CODE_STAGE_FAILED
        (Some "stage runner returned an invalid terminal status")
  end.

Fixpoint skip_stages (todo : list bzm_validation_stage_t) (report : bzm_validation_report_t)
    : bzm_validation_report_t :=
  match todo with
  | [] => report
  | stage :: todo =>
      skip_stages todo
        (set_stage stage
           (bzm_validation_result BZM_CHECK_SKIPPED BZM_VALIDATION_CODE_PREREQUISITE_FAILED
              (Some "an earlier startup step did not complete GOOD")) report)
  end.

(** [for (stage = failed + 1; stage <= requested && stage < COUNT; ++stage)] *)
Definition skip_after (report : bzm_validation_report_t) (failed_stage : bzm_validation_stage_t)
    : bzm_validation_report_t :=
  skip_stages
    (seqZ (failed_stage + 1)
       (Z.min (report_requested_stage report + 1) BZM_STAGE_COUNT - (failed_stage + 1)))
    report.

Definition validate_policy (policy : option bzm_validation_policy_t) : bzm_stage_result_t :=
  match policy with
  | None =>
      blocked BZM_VALIDATION_CODE_INVALID_CONFIGURATION
        "stage values are outside the validation schema"
  | Some p =>
      if negb (valid_stage (requested_stage p)) || negb (valid_stage (build_max_stage p)) ||
         negb (valid_stage (implemented_max_stage p)) then
        blocked BZM_VALIDATION_CODE_INVALID_CONFIGURATION
          "stage values are outside the validation schema"
      else if implemented_max_stage p <? build_max_stage p then
        blocked BZM_VALIDATION_CODE_NOT_IMPLEMENTED
          "build ceiling exceeds the implemented stage ceiling"
      else if build_max_stage p <? requested_stage p then
        blocked BZM_VALIDATION_CODE_BUILD_CEILING
          "requested stage exceeds this image's build ceiling"
      else if (BZM_STAGE_POWER_RAIL <=? requested_stage p) && negb (powered_stages_compiled p) then
        blocked BZM_VALIDATION_CODE_POWER_NOT_COMPILED "this image cannot energize the ASIC rail"
      else if (BZM_STAGE_POWER_RAIL <=? requested_stage p) && negb (local_arm_present p) then
        blocked BZM_VALIDATION_CODE_LOCAL_ARM_REQUIRED
          "powered startup requires local controller authority"
      else
        let attended_lab_authority := negb (production_mode p) && allow_esp_only_kill_in_lab p in
        if (BZM_STAGE_POWER_RAIL <=? requested_stage p) && negb (independent_kill_available p) &&
           negb (board_managed_safety p) && negb attended_lab_authority then
          blocked BZM_VALIDATION_CODE_INDEPENDENT_KILL_REQUIRED
            "neither independent kill nor accepted board-managed fixed-voltage safety is configured"
        else if (BZM_STAGE_POWER_RAIL <=? requested_stage p) && (lease_ms p =? 0) then
          blocked BZM_VALIDATION_CODE_POWER_LEASE_REQUIRED
            "powered startup requires a bounded watchdog"
        else
          bzm_validation_result BZM_CHECK_GOOD BZM_VALIDATION_CODE_STAGE_OK
            (Some "validation policy accepted")
  end.

Section operations.
Context {W : Type}.
Implicit Types (ops : option (bzm_validation_ops_t W)) (report : bzm_validation_report_t).

Definition safe_off_result ops : io W bzm_stage_result_t :=
  match ops with
  | Some {| force_safe_off_op := Some off |} =>
      let! result := off in io_ret (normalize_stage_result result)
  | _ =>
      io_ret (bzm_validation_result BZM_CHECK_BAD BZM_VALIDATION_CODE_SAFE_OFF_FAILED
                (Some "safe-off operation is unavailable"))
  end.

Definition force_safe_off ops report : io W (bool * bzm_validation_report_t) :=
  let! result := safe_off_result ops in
  if negb (is_good result) then
    let result := result <| status := BZM_CHECK_BAD; code := BZM_VALIDATION_CODE_SAFE_OFF_FAILED |> in
    let result :=
      if decide (detail result = EmptyString)
      then result <| detail := copy_detail (Some "safe-off could not be verified") |>
      else result in
    io_ret (false,
      report <| final_safe_off := result; overall := BZM_CHECK_BAD;
                state := BZM_VALIDATION_SHUTDOWN_UNVERIFIED; energized := true |>)
  else
    io_ret (true,
      report <| final_safe_off := result;
                state := if decide (overall report = BZM_CHECK_BAD)
                         then BZM_VALIDATION_FAULT_LATCHED else BZM_VALIDATION_OFF_SAFE;
                energized := false |>).

(** [true]: the loop ran to its end; [false]: it returned after a safe-off. *)
Fixpoint stage_loop (run : bzm_validation_stage_t -> io W bzm_stage_result_t) ops
    (todo : list bzm_validation_stage_t) report : io W (bool * bzm_validation_report_t) :=
  match todo with
  | [] => io_ret (true, report)
  | stage :: todo =>
      let report :=
        set_stage stage (bzm_validation_result BZM_CHECK_RUNNING BZM_VALIDATION_CODE_NONE
                           (Some "stage is executing")) report in
      let! raw := run stage in
      let result := normalize_stage_result raw in
      let report := set_stage stage result report in
      if negb (is_good result) then
        let! off := force_safe_off ops (skip_after (report <| overall := status result |>) stage) in
        io_ret (false, snd off)
      else
        let report := report <| reached_stage := stage |> in
        let report :=
          if BZM_STAGE_POWER_RAIL <=? stage then report <| energized := true |> else report in
        stage_loop run ops todo report
  end.

Definition bzm_validation_execute (policy : option bzm_validation_policy_t) ops
    : io W (bool * bzm_validation_report_t) :=
  let report := initialize_report policy in
  match ops with
  | Some {| run_stage := Some run |} =>
      let policy_result := validate_policy policy in
      match policy with
      | Some p =>
          if negb (is_good policy_result) then
            let blocked_stage :=
              if valid_stage (requested_stage p) then requested_stage p else BZM_STAGE_OFF_SAFE in
            let! off := force_safe_off ops
              (set_stage blocked_stage policy_result (report <| overall := BZM_CHECK_BLOCKED |>)) in
            io_ret (false, snd off)
          else
            let report :=
              report <| state := BZM_VALIDATION_EXECUTING; overall := BZM_CHECK_GOOD |> in
            let! done := stage_loop run ops (seqZ 0 (requested_stage p + 1)) report in
            let '(complete, report) := done in
            if negb complete then io_ret (false, report)
            else if (BZM_STAGE_POWER_RAIL <=? requested_stage p) && hold_after_success p then
              io_ret (true, report <| state := BZM_VALIDATION_HOLDING; energized := true |>)
            else force_safe_off ops report
      | None =>
          let! off := force_safe_off ops
            (set_stage BZM_STAGE_OFF_SAFE policy_result (report <| overall := BZM_CHECK_BLOCKED |>)) in
          io_ret (false, snd off)
      end
  | _ =>
      let! off := force_safe_off ops
        (set_stage BZM_STAGE_OFF_SAFE
           (blocked BZM_VALIDATION_CODE_INVALID_CONFIGURATION "startup step runner is unavailable")
           (report <| overall := BZM_CHECK_BLOCKED |>)) in
      io_ret (false, snd off)
  end.
End operations.

(** ** The trace of an execution

    The operations, instrumented to record each call and its raw result. *)

Inductive validation_event :=
| Ran (stage : Z) (result : bzm_stage_result_t)
| SafeOff (result : bzm_stage_result_t).

Abbreviation stage_run := (Z * bzm_stage_result_t)%type (only parsing).
Definition ran (e : stage_run) : validation_event := Ran (fst e) (snd e).
Definition run_good (e : stage_run) : Prop := status (snd e) = BZM_CHECK_GOOD.

Section traced.
Context {W : Type} (run : Z -> io W bzm_stage_result_t) (off : io W bzm_stage_result_t).

Definition traced_run (stage : Z) : io (W * list validation_event) bzm_stage_result_t :=
  fun '(w, t) => let '(r, w') := run stage w in (r, (w', t ++ [Ran stage r])).
Definition traced_off : io (W * list validation_event) bzm_stage_result_t :=
  fun '(w, t) => let '(r, w') := off w in (r, (w', t ++ [SafeOff r])).
Definition traced_ops : option (bzm_validation_ops_t (W * list validation_event)) :=
  Some {| run_stage := Some traced_run; force_safe_off_op := Some traced_off |}.
End traced.

Lemma is_good_spec r : is_good r = true <-> status r = BZM_CHECK_GOOD.
Proof. apply bool_decide_eq_true. Qed.

Lemma is_good_normalize r : is_good (normalize_stage_result r) = is_good r.
Proof.
  unfold normalize_stage_result, is_good.
  destruct r as [[] c d]; simpl; try case_decide; done.
Qed.

Lemma normalize_terminal r :
  status (normalize_stage_result r) ∈ [BZM_CHECK_GOOD; BZM_CHECK_BAD; BZM_CHECK_BLOCKED] /\
  code (normalize_stage_result r) ≠ BZM_VALIDATION_CODE_NONE.
Proof.
  unfold normalize_stage_result.
  destruct r as [[] c d]; simpl; try case_decide; split; try done; set_solver.
Qed.

(** What the safe-off leaves in the report [before] of the call. *)
Definition after_safe_off (before : bzm_validation_report_t) (result : bzm_stage_result_t)
    (after : bzm_validation_report_t) : Prop :=
  stages after = stages before /\ reached_stage after = reached_stage before /\
  energized after = negb (is_good result) /\
  is_good (final_safe_off after) = is_good result /\
  overall after = (if is_good result then overall before else BZM_CHECK_BAD) /\
  state after = (if is_good result then
                   if decide (overall before = BZM_CHECK_BAD)
                   then BZM_VALIDATION_FAULT_LATCHED else BZM_VALIDATION_OFF_SAFE
                 else BZM_VALIDATION_SHUTDOWN_UNVERIFIED).

Lemma force_safe_off_traced {W} run (off : io W bzm_stage_result_t) report w t :
  exists result w' report',
    force_safe_off (traced_ops run off) report (w, t) =
      ((is_good result, report'), (w', t ++ [SafeOff result])) /\
    after_safe_off report result report'.
Proof.
  unfold force_safe_off, safe_off_result, traced_ops, traced_off, io_bind, io_ret.
  destruct (off w) as [r w'] eqn:Hoff. exists r, w'.
  rewrite is_good_normalize. unfold after_safe_off. destruct (is_good r) eqn:Hg; cbn.
  - eexists. split; [done|]. cbn. split_and!; try done. by rewrite is_good_normalize.
  - eexists. split; [done|]. cbn. split_and!; try done. case_decide; done.
Qed.

Lemma skip_stages_other todo report :
  report_requested_stage (skip_stages todo report) = report_requested_stage report /\
  overall (skip_stages todo report) = overall report /\
  reached_stage (skip_stages todo report) = reached_stage report /\
  length (stages (skip_stages todo report)) = length (stages report).
Proof.
  revert report. induction todo as [|x todo IH]; intros report; simpl; [done|].
  destruct (IH (set_stage x (bzm_validation_result BZM_CHECK_SKIPPED
    BZM_VALIDATION_CODE_PREREQUISITE_FAILED
    (Some "an earlier startup step did not complete GOOD")) report)) as (-> & -> & -> & ->).
  cbn. by rewrite length_insert.
Qed.

Definition stage_status (report : bzm_validation_report_t) (s : Z) : option bzm_check_status_t :=
  status <$> stages report !! Z.to_nat s.

Lemma stage_status_set report r x s :
  0 <= x < Z.of_nat (length (stages report)) -> 0 <= s ->
  stage_status (set_stage x r report) s =
    if decide (s = x) then Some (status r) else stage_status report s.
Proof.
  intros Hx Hs. unfold stage_status, set_stage. cbn. case_decide.
  - subst. rewrite list_lookup_insert_eq; [done|lia].
  - rewrite list_lookup_insert_ne; [done|lia].
Qed.

Lemma stage_status_skip a n report s :
  0 <= a -> a + n <= Z.of_nat (length (stages report)) -> 0 <= s ->
  stage_status (skip_stages (seqZ a n) report) s =
    if decide (a <= s < a + n) then Some BZM_CHECK_SKIPPED else stage_status report s.
Proof.
  intros Ha Hn Hs. destruct (Z.le_ge_cases n 0) as [Hn0|Hn0].
  { rewrite seqZ_nil by done. simpl. rewrite decide_False by lia. done. }
  revert a report Ha Hn. pattern n.
  apply natlike_ind; [| |done]; clear n Hn0.
  - intros a report _ _. rewrite seqZ_nil by done. simpl. by rewrite decide_False by lia.
  - intros n Hn0 IH a report Ha Hn. rewrite seqZ_cons by lia. simpl.
    rewrite Z.pred_succ, IH by (cbn; rewrite ?length_insert; lia).
    rewrite stage_status_set by lia. repeat case_decide; try done; lia.
Qed.

(** The outcome of the loop over the stages [a .. a + n - 1]. *)
Definition loop_completed (a n : Z) (before after : bzm_validation_report_t)
    (runs : list stage_run) (events : list validation_event) : Prop :=
  Z.of_nat (length runs) = n /\ Forall run_good runs /\ events = ran <$> runs /\
  overall after = overall before /\ state after = state before /\
  reached_stage after = (if n =? 0 then reached_stage before else a + n - 1) /\
  energized after =
    (energized before || negb (n =? 0) && (BZM_STAGE_POWER_RAIL <=? a + n - 1)) /\
  (forall s, a + n <= s -> stage_status after s = stage_status before s).

Definition loop_stopped (a n : Z) (before after : bzm_validation_report_t)
    (runs : list stage_run) (events : list validation_event) : Prop :=
  exists goods failed off_result,
    runs = goods ++ [failed] /\ Z.of_nat (length runs) <= n /\
    Forall run_good goods /\ ~ run_good failed /\
    events = (ran <$> runs) ++ [SafeOff off_result] /\
    reached_stage after =
      (if decide (goods = []) then reached_stage before else fst failed - 1) /\
    overall after =
      (if is_good off_result then status (normalize_stage_result (snd failed)) else BZM_CHECK_BAD) /\
    energized after = negb (is_good off_result) /\
    is_good (final_safe_off after) = is_good off_result /\
    state after = (if is_good off_result then
                     if decide (status (normalize_stage_result (snd failed)) = BZM_CHECK_BAD)
                     then BZM_VALIDATION_FAULT_LATCHED else BZM_VALIDATION_OFF_SAFE
                   else BZM_VALIDATION_SHUTDOWN_UNVERIFIED) /\
    (forall s, fst failed < s < a + n -> stage_status after s = Some BZM_CHECK_SKIPPED) /\
    (forall s, a + n <= s -> stage_status after s = stage_status before s).

Lemma stage_status_after_safe_off before r after s :
  after_safe_off before r after -> stage_status after s = stage_status before s.
Proof. unfold stage_status, after_safe_off. by intros (-> & _). Qed.

(** A report between two stages of the loop. *)
Definition loop_ready (a n : Z) (report : bzm_validation_report_t) : Prop :=
  length (stages report) = 8%nat /\ 0 <= a /\ a + n = report_requested_stage report + 1 /\
  a + n <= 8.

Definition next_report (a : Z) (r : bzm_stage_result_t) (report : bzm_validation_report_t)
    : bzm_validation_report_t :=
  let report := set_stage a (normalize_stage_result r)
    (set_stage a (bzm_validation_result BZM_CHECK_RUNNING BZM_VALIDATION_CODE_NONE
                    (Some "stage is executing")) report) in
  report <| reached_stage := a;
            energized := energized report || (BZM_STAGE_POWER_RAIL <=? a) |>.

Lemma next_report_status a r report s :
  length (stages report) = 8%nat -> 0 <= a < 8 -> 0 <= s ->
  stage_status (next_report a r report) s =
    if decide (s = a) then Some (status (normalize_stage_result r)) else stage_status report s.
Proof.
  intros Hl Ha Hs. unfold next_report.
  transitivity (stage_status (set_stage a (normalize_stage_result r)
    (set_stage a (bzm_validation_result BZM_CHECK_RUNNING BZM_VALIDATION_CODE_NONE
                    (Some "stage is executing")) report)) s); [done|].
  rewrite !stage_status_set by (cbn; rewrite ?length_insert; lia). by case_decide.
Qed.

Lemma loop_ready_next a n r report :
  loop_ready a n report -> loop_ready (a + 1) (n - 1) (next_report a r report).
Proof.
  unfold loop_ready. cbn. rewrite !length_insert. lia.
Qed.

Lemma energized_step (a : Z) (n : nat) (e : bool) :
  e || (BZM_STAGE_POWER_RAIL <=? a) ||
    negb (Z.of_nat n =? 0) && (BZM_STAGE_POWER_RAIL <=? a + 1 + Z.of_nat n - 1) =
  e || negb (Z.of_nat (S n) =? 0) && (BZM_STAGE_POWER_RAIL <=? a + Z.of_nat (S n) - 1).
Proof.
  unfold BZM_STAGE_POWER_RAIL. destruct e; [done|]. cbn [orb].
  destruct (Z.eqb_spec (Z.of_nat n) 0), (Z.leb_spec 2 a),
    (Z.leb_spec 2 (a + 1 + Z.of_nat n - 1)), (Z.eqb_spec (Z.of_nat (S n)) 0),
    (Z.leb_spec 2 (a + Z.of_nat (S n) - 1)); simpl; try done; lia.
Qed.

Section loop.
Context {W : Type} (run : Z -> io W bzm_stage_result_t) (off : io W bzm_stage_result_t).

Abbreviation loop := (stage_loop (traced_run run) (traced_ops run off)).

(** One stage: either the loop goes on with [next_report] or it stops. *)
Lemma stage_loop_step a n todo report w t :
  loop_ready a n report -> 0 < n -> exists r w1,
    (status r = BZM_CHECK_GOOD /\
     loop (a :: todo) report (w, t) = loop todo (next_report a r report) (w1, t ++ [Ran a r])) \/
    (status r ≠ BZM_CHECK_GOOD /\ exists off_result w2 after,
     loop (a :: todo) report (w, t) =
       ((false, after), (w2, t ++ [Ran a r; SafeOff off_result])) /\
     after_safe_off
       (skip_after (set_stage a (normalize_stage_result r)
          (set_stage a (bzm_validation_result BZM_CHECK_RUNNING BZM_VALIDATION_CODE_NONE
                  (Some "stage is executing")) report)
          <| overall := status (normalize_stage_result r) |>) a) off_result after).
Proof.
  intros (Hl & Ha & Han & Hn8) Hn. destruct (run a w) as [r w1] eqn:Hr. exists r, w1.
  assert (Htr : traced_run run a (w, t) = (r, (w1, t ++ [Ran a r]))).
  { unfold traced_run. by rewrite Hr. }
  destruct (is_good r) eqn:Hg; [left|right]; simpl; unfold io_bind;
    rewrite Htr, is_good_normalize, Hg; simpl.
  - apply is_good_spec in Hg. split; [done|]. f_equal. unfold next_report.
    destruct (BZM_STAGE_POWER_RAIL <=? a); cbn; [by rewrite orb_true_r|].
    rewrite orb_false_r. by destruct report.
  - split; [intros H%is_good_spec; congruence|].
    match goal with |- context [force_safe_off _ ?rep _] =>
      destruct (force_safe_off_traced run off rep w1 (t ++ [Ran a r]))
        as (o & w2 & after & Hf & Hafter) end.
    exists o, w2, after. rewrite Hf. split; [|done]. unfold io_ret. simpl.
    by rewrite <- app_assoc.
Qed.

Lemma loop_outcome_cons (a : Z) (n : nat) r report (ok : bool) after runs events :
  0 <= a < 8 -> length (stages report) = 8%nat -> status r = BZM_CHECK_GOOD ->
  runs.*1 = seqZ (a + 1) (Z.of_nat (length runs)) ->
  (if ok then loop_completed (a + 1) (Z.of_nat n) (next_report a r report) after runs events
   else loop_stopped (a + 1) (Z.of_nat n) (next_report a r report) after runs events) ->
  if ok then loop_completed a (Z.of_nat (S n)) report after ((a, r) :: runs) (Ran a r :: events)
  else loop_stopped a (Z.of_nat (S n)) report after ((a, r) :: runs) (Ran a r :: events).
Proof.
  intros Ha Hl Hg Hruns. destruct ok.
  - intros (Hn & Hgoods & -> & Hov & Hst & Hre & Hen & Hout).
    unfold loop_completed. simpl length. split_and!; try done; try lia.
    + by constructor.
    + rewrite Hre. cbn. destruct (Z.eqb_spec (Z.of_nat n) 0); simpl; lia.
    + rewrite Hen. change (energized (next_report a r report))
        with (energized report || (BZM_STAGE_POWER_RAIL <=? a)).
      apply energized_step.
    + intros s Hs. rewrite Hout, next_report_status by lia. by rewrite decide_False by lia.
  - intros (goods & failed & o & -> & Hlen & Hgoods & Hbad & -> & Hre & Hov & Hen & Hfin & Hst & Hskip & Hout).
    exists ((a, r) :: goods), failed, o. simpl length in *. split_and!; try done; try lia.
    + by constructor.
    + rewrite Hre. rewrite (decide_False (P := (a, r) :: goods = [])) by done.
      destruct (decide (goods = [])) as [->|]; [|done]. simpl in *. injection Hruns as ->. cbn. lia.
    + intros s Hs. apply Hskip. lia.
    + intros s Hs. rewrite Hout, next_report_status by lia. by rewrite decide_False by lia.
Qed.

Lemma loop_outcome_stop (a : Z) (n : nat) r report o after :
  loop_ready a (Z.of_nat (S n)) report -> status r ≠ BZM_CHECK_GOOD ->
  after_safe_off
    (skip_after (set_stage a (normalize_stage_result r)
       (set_stage a (bzm_validation_result BZM_CHECK_RUNNING BZM_VALIDATION_CODE_NONE
               (Some "stage is executing")) report)
       <| overall := status (normalize_stage_result r) |>) a) o after ->
  loop_stopped a (Z.of_nat (S n)) report after [(a, r)] [Ran a r; SafeOff o] /\
  (forall s, 0 <= s <= a -> stage_status after s =
     if decide (s = a) then Some (status (normalize_stage_result r)) else stage_status report s).
Proof.
  intros (Hl & Ha & Han & Hn8) Hb Hafter.
  match type of Hafter with after_safe_off ?b _ _ => set (before := b) in * end.
  assert (Hs : forall s, 0 <= s -> stage_status after s =
    if decide (s = a) then Some (status (normalize_stage_result r))
    else if decide (a < s < a + Z.of_nat (S n)) then Some BZM_CHECK_SKIPPED
    else stage_status report s).
  { intros s Hs. rewrite (stage_status_after_safe_off _ _ _ s Hafter).
    unfold before, skip_after. rewrite stage_status_skip by (cbn; rewrite ?length_insert; lia).
    cbn [report_requested_stage set_field set_stage].
    match goal with |- context [stage_status ?rep s] =>
      assert (stage_status rep s =
        if decide (s = a) then Some (status (normalize_stage_result r)) else stage_status report s)
        as -> end.
    { etransitivity; [apply (stage_status_set (set_stage a _ report) (normalize_stage_result r))|];
        rewrite ?stage_status_set; cbn; rewrite ?length_insert; try lia.
      all: by case_decide. }
    change (report_requested_stage _) with (report_requested_stage report).
    repeat case_decide; try done; unfold BZM_STAGE_COUNT in *; lia. }
  destruct Hafter as (_ & Hre & Hen & Hfin & Hov & Hst). split.
  - exists [], (a, r), o. simpl. unfold before, skip_after in *.
    match type of Hre with context [skip_stages ?t ?rep] =>
      destruct (skip_stages_other t rep) as (_ & Hov' & Hre' & _);
      rewrite Hre' in Hre; rewrite Hov' in Hov, Hst end.
    split_and!; try done; try lia.
    + intros s Hsa. rewrite Hs by lia. by rewrite decide_False, decide_True by lia.
    + intros s Hsa. rewrite Hs by lia. by rewrite !decide_False by lia.
  - intros s Hsa. rewrite Hs by lia. repeat case_decide; try done; lia.
Qed.

Lemma stage_loop_spec n : forall a report w t,
  loop_ready a (Z.of_nat n) report ->
  exists ok after runs events w',
    loop (seqZ a (Z.of_nat n)) report (w, t) = ((ok, after), (w', t ++ events)) /\
    runs.*1 = seqZ a (Z.of_nat (length runs)) /\
    (forall s, 0 <= s < a -> stage_status after s = stage_status report s) /\
    (forall s r, (s, r) ∈ runs -> stage_status after s = Some (status (normalize_stage_result r))) /\
    if ok then loop_completed a (Z.of_nat n) report after runs events
    else loop_stopped a (Z.of_nat n) report after runs events.
Proof.
  induction n as [|n IH]; intros a report w t Hready.
  { exists true, report, [], [], w. rewrite seqZ_nil by done. simpl.
    rewrite app_nil_r. unfold loop_completed. simpl. rewrite orb_false_r.
    split_and!; first [done | by constructor | by intros s r Hin%elem_of_nil]. }
  pose proof Hready as (Hl & Ha & Han & Hn8).
  rewrite seqZ_cons by lia. replace (Z.pred (Z.of_nat (S n))) with (Z.of_nat n) by lia.
  replace (Z.succ a) with (a + 1) by lia.
  destruct (stage_loop_step a (Z.of_nat (S n)) (seqZ (a + 1) (Z.of_nat n)) report w t Hready)
    as (r & w1 & [[Hg Heq]|(Hb & o & w2 & after & Heq & Hafter)]); [lia| |].
  - pose proof (loop_ready_next _ _ r _ Hready) as Hready'.
    replace (Z.of_nat (S n) - 1) with (Z.of_nat n) in Hready' by lia.
    destruct (IH (a + 1) (next_report a r report) w1 (t ++ [Ran a r]) Hready')
      as (ok & after & runs & events & w' & Hlo & Hruns & Hlow & Hin & Hout).
    exists ok, after, ((a, r) :: runs), (Ran a r :: events), w'.
    rewrite Heq, Hlo, <- app_assoc. split_and!; [done| | | |].
    + rewrite fmap_cons, Hruns. cbn [length fst]. rewrite (seqZ_cons a) by lia.
      by replace (Z.pred (Z.of_nat (S (length runs)))) with (Z.of_nat (length runs)) by lia.
    + intros s Hs. rewrite Hlow, next_report_status by lia. by rewrite decide_False by lia.
    + intros s r' [[= -> ->]|Hr]%elem_of_cons; [|by apply Hin].
      rewrite Hlow, next_report_status by lia. by rewrite decide_True.
    + apply loop_outcome_cons; try done; lia.
  - destruct (loop_outcome_stop _ _ _ _ _ _ Hready Hb Hafter) as [Hstop Hs].
    exists false, after, [(a, r)], [Ran a r; SafeOff o], w2. split_and!; try done.
    + intros s Hsa. rewrite Hs by lia. by rewrite decide_False by lia.
    + intros s r' [= -> ->]%list_elem_of_singleton. rewrite Hs by lia. by rewrite decide_True.
Qed.
End loop.

(** The admission policy, as a specification. *)
Definition power_authorized (p : bzm_validation_policy_t) : Prop :=
  powered_stages_compiled p = true /\ local_arm_present p = true /\
  (independent_kill_available p = true \/ board_managed_safety p = true \/
   (production_mode p = false /\ allow_esp_only_kill_in_lab p = true)) /\
  lease_ms p ≠ 0.

Definition policy_authorized (p : bzm_validation_policy_t) : Prop :=
  0 <= requested_stage p <= build_max_stage p /\
  build_max_stage p <= implemented_max_stage p < BZM_STAGE_COUNT /\
  (BZM_STAGE_POWER_RAIL <= requested_stage p -> power_authorized p).

Lemma validate_policy_spec p :
  is_good (validate_policy (Some p)) = true <-> policy_authorized p.
Proof.
  unfold validate_policy, policy_authorized, power_authorized, valid_stage, BZM_STAGE_OFF_SAFE,
    BZM_STAGE_COUNT, BZM_STAGE_POWER_RAIL.
  destruct p as [rid req bmax imax compiled arm prod kill lab board hold lease]; cbn.
  destruct (Z.leb_spec 0 req), (Z.ltb_spec req 8), (Z.leb_spec 0 bmax), (Z.ltb_spec bmax 8),
    (Z.leb_spec 0 imax), (Z.ltb_spec imax 8); cbn; try (split; [done|intros; lia]).
  destruct (Z.ltb_spec imax bmax); cbn; [split; [done|intros; lia]|].
  destruct (Z.ltb_spec bmax req); cbn; [split; [done|intros; lia]|].
  destruct (Z.leb_spec 2 req); cbn; [|split; [intros _; split_and!; lia|done]].
  destruct compiled, arm, kill, board, prod, lab, (Z.eqb_spec lease 0); cbn;
    (split; [first [done | intros _; split_and!; try lia; intuition] | intros; intuition]).
Qed.

Lemma validate_policy_blocked policy :
  is_good (validate_policy policy) = false ->
  status (validate_policy policy) = BZM_CHECK_BLOCKED.
Proof.
  unfold is_good. destruct policy as [p|]; [|done].
  unfold validate_policy. repeat guard_step; done.
Qed.

Section execute.
Context {W : Type} (run : Z -> io W bzm_stage_result_t) (off : io W bzm_stage_result_t).

(** Blocked by the policy: the safe-off is the only operation performed. *)
Definition execution_blocked (ok : bool) (report : bzm_validation_report_t)
    (events : list validation_event) : Prop :=
  exists o, events = [SafeOff o] /\ ok = false /\
    overall report = (if is_good o then BZM_CHECK_BLOCKED else BZM_CHECK_BAD) /\
    energized report = negb (is_good o) /\
    state report = (if is_good o then BZM_VALIDATION_OFF_SAFE else BZM_VALIDATION_SHUTDOWN_UNVERIFIED) /\
    is_good (final_safe_off report) = is_good o.

Lemma blocked_report_spec stage r report w t :
  overall report = BZM_CHECK_BLOCKED -> exists after w' o,
    force_safe_off (traced_ops run off) (set_stage stage r report) (w, t) =
      ((is_good o, after), (w', t ++ [SafeOff o])) /\
    overall after = (if is_good o then BZM_CHECK_BLOCKED else BZM_CHECK_BAD) /\
    energized after = negb (is_good o) /\
    state after = (if is_good o then BZM_VALIDATION_OFF_SAFE else BZM_VALIDATION_SHUTDOWN_UNVERIFIED) /\
    is_good (final_safe_off after) = is_good o.
Proof.
  intros Hov. destruct (force_safe_off_traced run off (set_stage stage r report) w t)
    as (o & w' & after & Hf & _ & _ & Hen & Hfin & Hov' & Hst).
  exists after, w', o. rewrite Hf, Hov', Hst.
  change (overall (set_stage _ _ _)) with (overall report). rewrite Hov. done.
Qed.

Lemma execute_blocked policy w t :
  is_good (validate_policy policy) = false ->
  exists ok report w' events,
    bzm_validation_execute policy (traced_ops run off) (w, t) = ((ok, report), (w', t ++ events)) /\
    execution_blocked ok report events.
Proof.
  intros Hb. unfold bzm_validation_execute. cbn [traced_ops].
  assert (Hex : forall stage, exists after w' o,
    force_safe_off (traced_ops run off)
      (set_stage stage (validate_policy policy)
         ((initialize_report policy) <| overall := BZM_CHECK_BLOCKED |>)) (w, t) =
      ((is_good o, after), (w', t ++ [SafeOff o])) /\
    execution_blocked false after [SafeOff o]).
  { intros stage. destruct (blocked_report_spec stage (validate_policy policy)
      ((initialize_report policy) <| overall := BZM_CHECK_BLOCKED |>) w t)
      as (after & w' & o & Hf & Hov & Hen & Hst & Hfin); [done|].
    exists after, w', o. split; [done|]. exists o. done. }
  destruct policy as [p|].
  - rewrite Hb. cbn [negb]. unfold io_bind.
    destruct (Hex (if valid_stage (requested_stage p) then requested_stage p else BZM_STAGE_OFF_SAFE))
      as (after & w' & o & Hf & Hbl).
    exists false, after, w', [SafeOff o]. by rewrite Hf.
  - unfold io_bind. destruct (Hex BZM_STAGE_OFF_SAFE) as (after & w' & o & Hf & Hbl).
    exists false, after, w', [SafeOff o]. by rewrite Hf.
Qed.

(** The report the loop starts from. *)
Definition start_report (p : bzm_validation_policy_t) : bzm_validation_report_t :=
  (initialize_report (Some p))
    <| state := BZM_VALIDATION_EXECUTING; overall := BZM_CHECK_GOOD |>.

(** All requested stages ran GOOD: held, or shut down. *)
Definition execution_completed (p : bzm_validation_policy_t) (ok : bool)
    (report : bzm_validation_report_t) (tail : list validation_event) : Prop :=
  if (BZM_STAGE_POWER_RAIL <=? requested_stage p) && hold_after_success p then
    ok = true /\ tail = [] /\ energized report = true /\ overall report = BZM_CHECK_GOOD /\
    state report = BZM_VALIDATION_HOLDING
  else exists o, tail = [SafeOff o] /\ ok = is_good o /\
    overall report = (if is_good o then BZM_CHECK_GOOD else BZM_CHECK_BAD) /\
    energized report = negb (is_good o) /\
    state report = (if is_good o then BZM_VALIDATION_OFF_SAFE else BZM_VALIDATION_SHUTDOWN_UNVERIFIED) /\
    is_good (final_safe_off report) = is_good o.

Lemma execute_admitted p w t :
  policy_authorized p ->
  exists ok report w' events runs,
    bzm_validation_execute (Some p) (traced_ops run off) (w, t) = ((ok, report), (w', t ++ events)) /\
    runs.*1 = seqZ 0 (Z.of_nat (length runs)) /\
    (forall s r, (s, r) ∈ runs -> stage_status report s = Some (status (normalize_stage_result r))) /\
    (forall s, requested_stage p < s < 8 -> stage_status report s = Some BZM_CHECK_NOT_RUN) /\
    ((Z.of_nat (length runs) = requested_stage p + 1 /\ Forall run_good runs /\
      reached_stage report = requested_stage p /\
      exists tail, events = (ran <$> runs) ++ tail /\ execution_completed p ok report tail) \/
     (ok = false /\
      loop_stopped 0 (requested_stage p + 1) (start_report p) report runs events)).
Proof.
  intros Hp. pose proof Hp as (Hreq & Hmax & _). unfold BZM_STAGE_COUNT in Hmax.
  assert (Hready : loop_ready 0 (Z.of_nat (Z.to_nat (requested_stage p + 1))) (start_report p)).
  { unfold loop_ready. rewrite Z2Nat.id by lia. split; [done|].
    change (report_requested_stage (start_report p)) with (requested_stage p). lia. }
  destruct (stage_loop_spec run off _ _ _ w t Hready)
    as (ok & after & runs & events & w' & Hlo & Hruns & _ & Hin & Hout).
  rewrite Z2Nat.id in Hlo, Hout by lia.
  assert (Hinit : forall s, requested_stage p < s < 8 ->
    stage_status (start_report p) s = Some BZM_CHECK_NOT_RUN).
  { intros s Hs. unfold stage_status. cbn [stages start_report initialize_report set_field].
    change (stages (start_report p)) with (replicate (Z.to_nat BZM_STAGE_COUNT)
      (bzm_validation_result BZM_CHECK_NOT_RUN BZM_VALIDATION_CODE_NONE (Some "not requested"))).
    rewrite lookup_replicate_2; [done|]. unfold BZM_STAGE_COUNT. lia. }
  unfold bzm_validation_execute. cbn [traced_ops].
  rewrite (proj2 (validate_policy_spec p) Hp). cbn [negb].
  fold (start_report p). unfold io_bind. fold (traced_ops run off). rewrite Hlo.
  destruct ok; cbn [negb].
  - destruct Hout as (Hlen & Hgoods & -> & Hov & Hst & Hre & _ & Hrest).
    change (overall (start_report p)) with BZM_CHECK_GOOD in Hov.
    assert (Hz : (requested_stage p + 1 =? 0) = false) by (apply Z.eqb_neq; lia).
    rewrite Hz in Hre.
    destruct ((BZM_STAGE_POWER_RAIL <=? requested_stage p) && hold_after_success p) eqn:Hhold.
    + eexists true, _, w', _, runs. split; [reflexivity|]. split_and!; try done.
      * intros s Hs. etransitivity; [apply Hrest; lia|]. by apply Hinit.
      * left. split_and!; try done; [etransitivity; [exact Hre|lia]|].
        exists []. unfold execution_completed. rewrite Hhold, app_nil_r. done.
    + destruct (force_safe_off_traced run off after w' (t ++ (ran <$> runs)))
        as (o & w2 & after2 & Hf & Hafter). rewrite Hf.
      exists (is_good o), after2, w2, ((ran <$> runs) ++ [SafeOff o]), runs. rewrite <- app_assoc.
      pose proof Hafter as (Hstg & Hre2 & Hen2 & Hfin2 & Hov2 & Hst2).
      split_and!; try done.
      * intros s r Hsr. rewrite (stage_status_after_safe_off _ _ _ s Hafter). by apply Hin.
      * intros s Hs. rewrite (stage_status_after_safe_off _ _ _ s Hafter).
        rewrite Hrest by lia. by apply Hinit.
      * left. split_and!; try done; [rewrite Hre2, Hre; lia|].
        exists [SafeOff o]. split; [done|]. unfold execution_completed. rewrite Hhold.
        exists o. rewrite Hov in *. split_and!; try done.
  - exists false, after, w', events, runs. split_and!; try done.
    + intros s Hs. destruct Hout as (? & ? & ? & _ & _ & _ & _ & _ & _ & _ & _ & _ & _ & _ & Hrest).
      rewrite Hrest by lia. by apply Hinit.
    + by right.
Qed.
End execute.

(** The board is left energized. *)
Definition execution_held (policy : option bzm_validation_policy_t) (ok : bool)
    (report : bzm_validation_report_t) (runs : list stage_run)
    (tail : list validation_event) : Prop :=
  exists p, policy = Some p /\ policy_authorized p /\ hold_after_success p = true /\
    BZM_STAGE_POWER_RAIL <= requested_stage p /\ tail = [] /\ ok = true /\
    state report = BZM_VALIDATION_HOLDING /\ energized report = true /\
    overall report = BZM_CHECK_GOOD /\ reached_stage report = requested_stage p /\
    Forall run_good runs /\ runs.*1 = seqZ 0 (requested_stage p + 1).

(** The last operation is the safe-off, and the report tells its outcome. *)
Definition execution_shut_down (ok : bool) (report : bzm_validation_report_t)
    (tail : list validation_event) : Prop :=
  exists o, tail = [SafeOff o] /\
    energized report = negb (is_good o) /\ is_good (final_safe_off report) = is_good o /\
    (ok = true -> is_good o = true /\ state report = BZM_VALIDATION_OFF_SAFE) /\
    if is_good o
    then state report = BZM_VALIDATION_OFF_SAFE \/
         state report = BZM_VALIDATION_FAULT_LATCHED /\ overall report = BZM_CHECK_BAD
    else state report = BZM_VALIDATION_SHUTDOWN_UNVERIFIED /\ overall report = BZM_CHECK_BAD.

Lemma execute_result {W} (run : Z -> io W bzm_stage_result_t) off policy w t :
  exists ok report w' runs tail,
    bzm_validation_execute policy (traced_ops run off) (w, t) =
      ((ok, report), (w', t ++ (ran <$> runs) ++ tail)) /\
    Forall (fun e => exists p, policy = Some p /\ policy_authorized p /\
                               0 <= fst e <= requested_stage p) runs /\
    (execution_held policy ok report runs tail \/ execution_shut_down ok report tail).
Proof.
  destruct (is_good (validate_policy policy)) eqn:Hg.
  - destruct policy as [p|]; [|done]. apply validate_policy_spec in Hg as Hp.
    destruct (execute_admitted run off p w t Hp)
      as (ok & report & w' & events & runs & -> & Hruns & _ & _ & Hout).
    assert (Hall : Z.of_nat (length runs) <= requested_stage p + 1 ->
      Forall (fun e => exists p', Some p = Some p' /\ policy_authorized p' /\
                                  0 <= fst e <= requested_stage p') runs).
    { intros Hlen. apply Forall_forall. intros e He. exists p. split_and!; try done.
      all: assert (fst e ∈ runs.*1) as Hin by (apply list_elem_of_fmap; by exists e).
      all: rewrite Hruns in Hin; apply elem_of_seqZ in Hin; lia. }
    destruct Hout as [(Hlen & Hgoods & Hre & tail & -> & Hc)|(-> & Hstop)].
    + exists ok, report, w', runs, tail. split_and!; [done|apply Hall; lia|].
      unfold execution_completed in Hc. destruct (_ && _) eqn:Hh.
      * left. prop_bool. destruct Hc as (-> & -> & Hen & Hov & Hst).
        exists p. rewrite <- Hlen. split_and!; try done. by apply Z.leb_le.
      * right. destruct Hc as (o & -> & -> & Hov & Hen & Hst & Hfin). exists o.
        rewrite Hst, Hov, Hen, Hfin. split_and!; try done; destruct (is_good o); first [done | by auto].
    + destruct Hstop
        as (goods & failed & o & -> & Hlen & _ & _ & -> & _ & Hov & Hen & Hfin & Hst & _).
      exists false, report, w', (goods ++ [failed]), [SafeOff o].
      split_and!; [done|by apply Hall|]. right. exists o.
      rewrite Hst, Hov, Hen, Hfin. split_and!; try done.
      destruct (is_good o); [|done]. case_decide; [by right|by left].
  - destruct (execute_blocked run off policy w t Hg)
      as (ok & report & w' & events & -> & o & -> & -> & Hov & Hen & Hst & Hfin).
    exists false, report, w', [], [SafeOff o]. split_and!; [done|constructor|].
    right. exists o. rewrite Hst, Hov, Hen, Hfin. split_and!; try done.
    destruct (is_good o); [by left|done].
Qed.

(** ** Properties *)

Section properties.
Context {W : Type} (run : Z -> io W bzm_stage_result_t) (off : io W bzm_stage_result_t).

(** C12: For every stage runner and safe-off operation, an execution runs the
    stages 0, 1, 2, ... in order without repetition or gap, goes past a stage
    only if that stage reported GOOD, and runs any stage at all only under a
    policy that authorises the requested stage: within the build and
    implementation ceilings and, from POWER_RAIL on, with powered stages
    compiled in, local authority, a kill path and a nonzero lease. *)
Theorem validation_runs_authorized_prefix policy w :
  exists ok report w' runs tail,
    bzm_validation_execute policy (traced_ops run off) (w, []) =
      ((ok, report), (w', (ran <$> runs) ++ tail)) /\
    (tail = [] \/ exists o, tail = [SafeOff o]) /\
    runs.*1 = seqZ 0 (Z.of_nat (length runs)) /\
    Forall run_good (removelast runs) /\
    (runs = [] \/ exists p, policy = Some p /\ policy_authorized p /\
                            Z.of_nat (length runs) <= requested_stage p + 1).
Proof.
  destruct (is_good (validate_policy policy)) eqn:Hg.
  - destruct policy as [p|]; [|done]. apply validate_policy_spec in Hg.
    destruct (execute_admitted run off p w [] Hg)
      as (ok & report & w' & events & runs & -> & Hruns & _ & _ & Hout).
    destruct Hout as [(Hlen & Hgoods & _ & tail & -> & Hc)|(_ & Hstop)].
    + exists ok, report, w', runs, tail. split_and!; try done.
      * unfold execution_completed in Hc. destruct (_ && _).
        { left. by destruct Hc as (_ & -> & _). }
        right. destruct Hc as (o & -> & _). by exists o.
      * by apply Forall_removelast.
      * right. exists p. split_and!; try done. lia.
    + destruct Hstop as (goods & failed & o & -> & Hlen & Hgoods & _ & -> & _).
      exists ok, report, w', (goods ++ [failed]), [SafeOff o]. rewrite removelast_last.
      split_and!; try done; [by right; exists o|]. right. by exists p.
  - destruct (execute_blocked run off policy w [] Hg)
      as (ok & report & w' & events & -> & o & -> & _).
    exists ok, report, w', [], [SafeOff o]. split_and!; try done.
    + right. by exists o.
    + by left.
Qed.

(** C13: Every execution ends in one of two ways.  Either it returns true and
    holds the board energized, which happens only when a powered stage was
    requested with hold and every stage ran GOOD; or its last operation is
    the safe-off, and the report then says energized exactly when that
    safe-off did not verify, with state SHUTDOWN_UNVERIFIED and overall BAD,
    and a return value of true only after a verified safe-off. *)
Theorem validation_holds_or_shuts_down policy w :
  exists ok report w' runs tail,
    bzm_validation_execute policy (traced_ops run off) (w, []) =
      ((ok, report), (w', (ran <$> runs) ++ tail)) /\
    (execution_held policy ok report runs tail \/ execution_shut_down ok report tail).
Proof.
  destruct (execute_result run off policy w []) as (ok & report & w' & runs & tail & -> & _ & H).
  by exists ok, report, w', runs, tail.
Qed.

(** Under an authorising policy the report tells exactly what ran: a
    stage that ran carries its normalised status, the requested stages after
    a failed one are SKIPPED, the stages beyond the request are NOT_RUN, and
    the reached stage is the last one that ran GOOD. *)
Theorem validation_report_matches_runs p w :
  policy_authorized p ->
  exists ok report w' runs tail,
    bzm_validation_execute (Some p) (traced_ops run off) (w, []) =
      ((ok, report), (w', (ran <$> runs) ++ tail)) /\
    (forall s r, (s, r) ∈ runs ->
       stage_status report s = Some (status (normalize_stage_result r))) /\
    (forall s, Z.of_nat (length runs) <= s <= requested_stage p ->
       stage_status report s = Some BZM_CHECK_SKIPPED) /\
    (forall s, requested_stage p < s < 8 -> stage_status report s = Some BZM_CHECK_NOT_RUN) /\
    reached_stage report =
      Z.max 0 (Z.of_nat (length (filter (fun e => is_good (snd e) = true) runs)) - 1).
Proof.
  intros Hp. pose proof Hp as ([Hr0 _] & _). unfold BZM_STAGE_COUNT in *.
  destruct (execute_admitted run off p w [] Hp)
    as (ok & report & w' & events & runs & -> & Hruns & Hin & Hnot & Hout).
  assert (Hfil : forall l, Forall run_good l -> filter (fun e => is_good (snd e) = true) l = l).
  { intros l Hl. apply filter_all. eapply Forall_impl; [exact Hl|].
    intros e He. by apply is_good_spec. }
  destruct Hout as [(Hlen & Hgoods & Hre & tail & -> & _)|(_ & Hstop)].
  - exists ok, report, w', runs, tail. split_and!; try done; [lia|].
    rewrite Hre, Hfil by done. lia.
  - destruct Hstop as (goods & failed & o & -> & Hlen & Hgoods & Hbad & -> & Hre & _ & _ & _ & _ & Hskip & _).
    exists ok, report, w', (goods ++ [failed]), [SafeOff o].
    rewrite length_app in Hlen, Hruns. simpl length in *.
    assert (Hf : fst failed = Z.of_nat (length goods)).
    { assert ((goods ++ [failed]).*1 !! length goods = Some (fst failed)) as Hx.
      { rewrite list_lookup_fmap, lookup_app_r, Nat.sub_diag by lia. done. }
      rewrite Hruns in Hx. apply lookup_seqZ in Hx. lia. }
    split_and!; try done.
    + intros s Hs. rewrite length_app in Hs. simpl in Hs. apply Hskip. lia.
    + rewrite Hre, filter_app, Hfil, length_app by done.
      rewrite filter_cons_False by (rewrite is_good_spec; done). simpl.
      case_decide as Hnil; [by subst|]. destruct goods; [done|]. simpl in *. lia.
Qed.
End properties.

(** A laboratory bring-up of the four-ASIC chain whose sensor stage fails. *)
Definition example_policy : bzm_validation_policy_t :=
  {| run_id := 7; requested_stage := BZM_STAGE_CLOCKS; build_max_stage := BZM_STAGE_RUNNING;
     implemented_max_stage := BZM_STAGE_RUNNING; powered_stages_compiled := true;
     local_arm_present := true; production_mode := false; independent_kill_available := false;
     allow_esp_only_kill_in_lab := true; board_managed_safety := false;
     hold_after_success := true; lease_ms := 5000 |}.

Definition example_run (stage : Z) : io unit bzm_stage_result_t :=
  io_ret (bzm_validation_result
            (if stage =? BZM_STAGE_SENSORS then BZM_CHECK_BAD else BZM_CHECK_GOOD)
            BZM_VALIDATION_CODE_NONE None).

Definition example_off : io unit bzm_stage_result_t :=
  io_ret (bzm_validation_result BZM_CHECK_GOOD BZM_VALIDATION_CODE_NONE None).

Lemma example_policy_authorized : policy_authorized example_policy.
Proof. apply validate_policy_spec. by vm_compute. Qed.

Example example_execution :
  let '((ok, report), (_, events)) :=
    bzm_validation_execute (Some example_policy) (traced_ops example_run example_off) (tt, []) in
  (ok, state report, energized report, reached_stage report, stage_status report 4,
   stage_status report 5, stage_status report 6, length events) =
  (false, BZM_VALIDATION_FAULT_LATCHED, false, 3, Some BZM_CHECK_BAD,
   Some BZM_CHECK_SKIPPED, Some BZM_CHECK_NOT_RUN, 6%nat).
Proof. reflexivity. Qed.

Lemma validation_report_matches_runs_witness :
  policy_authorized example_policy /\
  exists ok report w' runs tail,
    bzm_validation_execute (Some example_policy) (traced_ops example_run example_off) (tt, []) =
      ((ok, report), (w', (ran <$> runs) ++ tail)) /\
    (forall s r, (s, r) ∈ runs ->
       stage_status report s = Some (status (normalize_stage_result r))) /\
    (forall s, Z.of_nat (length runs) <= s <= requested_stage example_policy ->
       stage_status report s = Some BZM_CHECK_SKIPPED) /\
    (forall s, requested_stage example_policy < s < 8 ->
       stage_status report s = Some BZM_CHECK_NOT_RUN) /\
    reached_stage report =
      Z.max 0 (Z.of_nat (length (filter (fun e => is_good (snd e) = true) runs)) - 1).
Proof.
  split; [exact example_policy_authorized|].
  apply (validation_report_matches_runs example_run example_off example_policy tt).
  exact example_policy_authorized.
Defined.
