(* ===== verification/Supervisor.v ===== *)
(** * The hardware supervisor: ownership, leases and latched faults

    Models src/components/asic/bzm_supervisor.c and its header.  A supervisor
    owns the operation table it was initialised with (the section's [run] and
    [off], which [bzm_supervisor_init] checks to be present), runs validations
    through [Validation.bzm_validation_execute], and hands the hardware to one
    owner at a time.  Every public operation is a state transformer over the
    world behind the table; [apply_op] collects them into one step function.
    A [NULL] supervisor, which every function rejects, is not modelled. *)

From S2P Require Import Prelude Validation.

#[local] Open Scope string_scope.
#[local] Open Scope list_scope.
#[local] Open Scope Z_scope.
#[local] Open Scope io_scope.

(** ** Data *)

Definition BZM_SUPERVISOR_FAULT_DETAIL_LENGTH : nat := 160.

Inductive bzm_supervisor_owner_t :=
| BZM_SUPERVISOR_OWNER_NONE
| BZM_SUPERVISOR_OWNER_VALIDATION
| BZM_SUPERVISOR_OWNER_MINING
| BZM_SUPERVISOR_OWNER_BRIDGE_UPDATE
| BZM_SUPERVISOR_OWNER_FACTORY_TEST
| BZM_SUPERVISOR_OWNER_ESP_OTA
| BZM_SUPERVISOR_OWNER_ESP_RESTART.
#[export] Instance bzm_supervisor_owner_t_eq_dec : EqDecision bzm_supervisor_owner_t.
Proof. solve_decision. Defined.

Record bzm_supervisor_config_t := mk_supervisor_config {
  cfg_build_max_stage : bzm_validation_stage_t;
  cfg_implemented_max_stage : bzm_validation_stage_t;
  cfg_powered_stages_compiled : bool;
  cfg_production_mode : bool;
  cfg_independent_kill_available : bool;
  cfg_allow_esp_only_kill_in_lab : bool;
  cfg_board_managed_safety : bool;
  maximum_lease_ms : Z;
}.

Record bzm_supervisor_t := mk_supervisor {
  config : bzm_supervisor_config_t;
  report : bzm_validation_report_t;
  owner : bzm_supervisor_owner_t;
  next_run_id : Z;
  lease_deadline_ms : Z;
  initialized : bool;
  fault_latched : bool;
  fault_code : Z;
  fault_detail : string;
}.
#[export] Instance bzm_supervisor_t_eta : Eta bzm_supervisor_t :=
  fun s => mk_supervisor (config s) (report s) (owner s) (next_run_id s)
    (lease_deadline_ms s) (initialized s) (fault_latched s) (fault_code s) (fault_detail s).

(** The numeric values of the two validation codes used as fault codes. *)
Definition FAULT_STAGE_FAILED : Z := 2.
Definition FAULT_SAFE_OFF_FAILED : Z := 11.

Definition zero_result : bzm_stage_result_t :=
  {| status := BZM_CHECK_NOT_RUN; code := BZM_VALIDATION_CODE_NONE; detail := EmptyString |}.

(** The report after [memset(..., 0, ...)]. *)
Definition zero_report : bzm_validation_report_t :=
  {| schema_version := 0; report_run_id := 0; report_requested_stage := 0;
     report_build_max_stage := 0; report_implemented_max_stage := 0; reached_stage := 0;
     overall := BZM_CHECK_NOT_RUN; state := BZM_VALIDATION_IDLE; energized := false;
     report_lease_ms := 0; stages := replicate (Z.to_nat BZM_STAGE_COUNT) zero_result;
     final_safe_off := zero_result |}.

(** ** Queries *)

Definition maintenance_owner (o : bzm_supervisor_owner_t) : bool :=
  match o with
  | BZM_SUPERVISOR_OWNER_BRIDGE_UPDATE | BZM_SUPERVISOR_OWNER_FACTORY_TEST
  | BZM_SUPERVISOR_OWNER_ESP_OTA | BZM_SUPERVISOR_OWNER_ESP_RESTART => true
  | _ => false
  end.

Definition bzm_supervisor_owner_is_maintenance (o : bzm_supervisor_owner_t) : bool :=
  maintenance_owner o.

Definition bzm_supervisor_owner_name (o : bzm_supervisor_owner_t) : string :=
  match o with
  | BZM_SUPERVISOR_OWNER_NONE => "NONE"
  | BZM_SUPERVISOR_OWNER_VALIDATION => "VALIDATION"
  | BZM_SUPERVISOR_OWNER_MINING => "MINING"
  | BZM_SUPERVISOR_OWNER_BRIDGE_UPDATE => "BRIDGE_UPDATE"
  | BZM_SUPERVISOR_OWNER_FACTORY_TEST => "FACTORY_TEST"
  | BZM_SUPERVISOR_OWNER_ESP_OTA => "ESP_OTA"
  | BZM_SUPERVISOR_OWNER_ESP_RESTART => "ESP_RESTART"
  end.

(** Owners that hold the hardware energized. *)
Definition active_owner (o : bzm_supervisor_owner_t) : bool :=
  bool_decide (o = BZM_SUPERVISOR_OWNER_VALIDATION) ||
  bool_decide (o = BZM_SUPERVISOR_OWNER_MINING).

Definition fault_detail_of (d : option string) : string :=
  String.substring 0 (BZM_SUPERVISOR_FAULT_DETAIL_LENGTH - 1)
    (default "unspecified Bonanza fault" d).

Definition off_safe_stage_good (r : bzm_validation_report_t) : bool :=
  from_option is_good false (stages r !! Z.to_nat BZM_STAGE_OFF_SAFE).

Definition bzm_supervisor_safe_off_verified (s : bzm_supervisor_t) : bool :=
  initialized s && negb (energized (report s)) && off_safe_stage_good (report s) &&
  is_good (final_safe_off (report s)) &&
  (bool_decide (state (report s) = BZM_VALIDATION_OFF_SAFE) ||
   bool_decide (state (report s) = BZM_VALIDATION_FAULT_LATCHED)).

Definition bzm_supervisor_dispatch_allowed (s : bzm_supervisor_t) (now_ms : Z) : bool :=
  initialized s && negb (fault_latched s) &&
  bool_decide (owner s = BZM_SUPERVISOR_OWNER_MINING) &&
  bool_decide (state (report s) = BZM_VALIDATION_HOLDING) &&
  bool_decide (overall (report s) = BZM_CHECK_GOOD) &&
  (reached_stage (report s) =? BZM_STAGE_RUNNING) &&
  (now_ms <? lease_deadline_ms s).

Definition bzm_supervisor_report (s : bzm_supervisor_t) : option bzm_validation_report_t :=
  if initialized s then Some (report s) else None.

(** ** Operations *)

Definition bzm_supervisor_init {W} (cfg : option bzm_supervisor_config_t)
    (validation_ops : option (bzm_validation_ops_t W)) : option bzm_supervisor_t :=
  match cfg, validation_ops with
  | Some cfg, Some {| run_stage := Some _; force_safe_off_op := Some _ |} =>
      if negb (valid_stage (cfg_build_max_stage cfg)) ||
         negb (valid_stage (cfg_implemented_max_stage cfg)) ||
         (cfg_implemented_max_stage cfg <? cfg_build_max_stage cfg) ||
         (maximum_lease_ms cfg =? 0)
      then None
      else Some {| config := cfg; report := zero_report; owner := BZM_SUPERVISOR_OWNER_NONE;
                   next_run_id := 1; lease_deadline_ms := 0; initialized := true;
                   fault_latched := false; fault_code := 0; fault_detail := EmptyString |}
  | _, _ => None
  end.

Definition block_report (s : bzm_supervisor_t) (target : bzm_validation_stage_t) (d : string)
    : bzm_supervisor_t :=
  let r := zero_report
    <| schema_version := BZM_VALIDATION_SCHEMA_VERSION;
       report_run_id := next_run_id s;
       report_requested_stage := target;
       report_build_max_stage := cfg_build_max_stage (config s);
       report_implemented_max_stage := cfg_implemented_max_stage (config s);
       overall := BZM_CHECK_BLOCKED;
       state := BZM_VALIDATION_OFF_SAFE |> in
  s <| report :=
         (set_stage target
            (bzm_validation_result BZM_CHECK_BLOCKED BZM_VALIDATION_CODE_PREREQUISITE_FAILED
               (Some d)) r)
         <| final_safe_off :=
              bzm_validation_result BZM_CHECK_NOT_RUN BZM_VALIDATION_CODE_NONE
                (Some "request was blocked before hardware execution") |>;
       next_run_id := u32 (next_run_id s + 1) |>.

(** Latch a fault without replacing the code and detail of an earlier one. *)
Definition latch_first (s : bzm_supervisor_t) (c : Z) (d : option string) : bzm_supervisor_t :=
  let s := s <| fault_latched := true |> in
  if fault_code s =? 0 then s <| fault_code := c; fault_detail := fault_detail_of d |> else s.

Definition set_state (st : bzm_validation_state_t) (s : bzm_supervisor_t) : bzm_supervisor_t :=
  s <| report := (report s) <| state := st |> |>.

Section operations.
Context {W : Type} (run : Z -> io W bzm_stage_result_t) (off : io W bzm_stage_result_t).
Implicit Types s : bzm_supervisor_t.

Definition validation_ops : option (bzm_validation_ops_t W) :=
  Some {| run_stage := Some run; force_safe_off_op := Some off |}.

Definition stop_internal s (reason : option string) (preempt_maintenance : bool)
    : io W (bool * bzm_supervisor_t) :=
  if negb (initialized s) || negb preempt_maintenance && maintenance_owner (owner s)
  then io_ret (false, s)
  else
    let! safe_off := off in
    let s := s <| report := (report s) <| final_safe_off := safe_off;
                                          energized := negb (is_good safe_off) |>;
                  lease_deadline_ms := 0;
                  owner := BZM_SUPERVISOR_OWNER_NONE |> in
    if negb (is_good safe_off) then
      let s := latch_first s FAULT_SAFE_OFF_FAILED
        (if decide (detail safe_off = EmptyString) then reason else Some (detail safe_off)) in
      io_ret (false,
        s <| report := (report s) <| overall := BZM_CHECK_BAD;
                                     state := BZM_VALIDATION_SHUTDOWN_UNVERIFIED |> |>)
    else
      io_ret (true,
        set_state (if fault_latched s then BZM_VALIDATION_FAULT_LATCHED
                   else BZM_VALIDATION_OFF_SAFE) s).

Definition bzm_supervisor_stop s (reason : option string) : io W (bool * bzm_supervisor_t) :=
  stop_internal s reason false.

Definition request_policy s (target : bzm_validation_stage_t) (local_arm hold : bool) (lease : Z)
    : bzm_validation_policy_t :=
  {| run_id := next_run_id s; requested_stage := target;
     build_max_stage := cfg_build_max_stage (config s);
     implemented_max_stage := cfg_implemented_max_stage (config s);
     powered_stages_compiled := cfg_powered_stages_compiled (config s);
     local_arm_present := local_arm;
     production_mode := cfg_production_mode (config s);
     independent_kill_available := cfg_independent_kill_available (config s);
     allow_esp_only_kill_in_lab := cfg_allow_esp_only_kill_in_lab (config s);
     board_managed_safety := cfg_board_managed_safety (config s);
     hold_after_success := hold; lease_ms := lease |}.

(** After [bzm_validation_execute] returned false. *)
Definition request_failed s : bzm_supervisor_t :=
  let s := s <| owner := BZM_SUPERVISOR_OWNER_NONE; lease_deadline_ms := 0 |> in
  let s := if decide (overall (report s) = BZM_CHECK_BAD)
           then latch_first s FAULT_STAGE_FAILED (Some "startup step failed") else s in
  if fault_latched s && negb (bool_decide (state (report s) = BZM_VALIDATION_SHUTDOWN_UNVERIFIED))
  then set_state BZM_VALIDATION_FAULT_LATCHED s else s.

(** After it returned true. *)
Definition request_completed s (target : bzm_validation_stage_t) (lease now_ms : Z)
    : bzm_supervisor_t :=
  let s :=
    if decide (state (report s) = BZM_VALIDATION_HOLDING) then
      s <| owner := if target =? BZM_STAGE_RUNNING then BZM_SUPERVISOR_OWNER_MINING
                    else BZM_SUPERVISOR_OWNER_VALIDATION;
           lease_deadline_ms := u64 (now_ms + lease) |>
    else s <| owner := BZM_SUPERVISOR_OWNER_NONE; lease_deadline_ms := 0 |> in
  if fault_latched s then set_state BZM_VALIDATION_FAULT_LATCHED s else s.

(** The part of a request that runs once the hardware is free. *)
Definition request_execute s (target : bzm_validation_stage_t) (local_arm hold : bool)
    (lease now_ms : Z) : io W (bool * bzm_supervisor_t) :=
  let policy := request_policy s target local_arm hold lease in
  let s := s <| next_run_id := u32 (next_run_id s + 1) |> in
  let! result := bzm_validation_execute (Some policy) validation_ops in
  let '(completed, r) := result in
  let s := s <| report := r |> in
  if negb completed then io_ret (false, request_failed s)
  else io_ret (true, request_completed s target lease now_ms).

Definition bzm_supervisor_request_validation s (target : bzm_validation_stage_t)
    (local_arm hold : bool) (lease now_ms : Z) : io W (bool * bzm_supervisor_t) :=
  if negb (initialized s) || negb (valid_stage target) then io_ret (false, s)
  else if maintenance_owner (owner s) then
    io_ret (false, block_report s target "exclusive maintenance lease is active")
  else if fault_latched s && negb (target =? BZM_STAGE_OFF_SAFE) then
    let s := block_report s target "latched fault requires a new OFF_SAFE proof and clear" in
    let! stopped := bzm_supervisor_stop s (Some "fault-latched start rejected") in
    io_ret (false, snd stopped)
  else if maximum_lease_ms (config s) <? lease then
    let s := block_report s target "requested lease exceeds the compiled maximum" in
    let! stopped := bzm_supervisor_stop s (Some "invalid validation lease") in
    io_ret (false, snd stopped)
  else if negb (bool_decide (owner s = BZM_SUPERVISOR_OWNER_NONE)) then
    let! stopped := bzm_supervisor_stop s (Some "replacing active validation") in
    let '(ok, s) := stopped in
    if negb ok then io_ret (false, s) else request_execute s target local_arm hold lease now_ms
  else request_execute s target local_arm hold lease now_ms.

Definition bzm_supervisor_tick s (now_ms : Z) : io W (bool * bzm_supervisor_t) :=
  if negb (initialized s) then io_ret (false, s)
  else if active_owner (owner s) && negb (lease_deadline_ms s =? 0) &&
          (lease_deadline_ms s <=? now_ms)
  then bzm_supervisor_stop s (Some "validation lease expired")
  else io_ret (true, s).

Definition bzm_supervisor_heartbeat s (lease now_ms : Z) : bool * bzm_supervisor_t :=
  if negb (initialized s) || negb (active_owner (owner s)) ||
     negb (bool_decide (state (report s) = BZM_VALIDATION_HOLDING)) || (lease =? 0) ||
     (maximum_lease_ms (config s) <? lease) || (lease_deadline_ms s <=? now_ms)
  then (false, s)
  else (true, s <| lease_deadline_ms := u64 (now_ms + lease);
                   report := (report s) <| report_lease_ms := lease |> |>).

Definition bzm_supervisor_latch_fault s (c : Z) (d : option string)
    : io W (bool * bzm_supervisor_t) :=
  if negb (initialized s) || (c =? 0) then io_ret (false, s)
  else
    let s := if negb (fault_latched s)
             then s <| fault_code := c; fault_detail := fault_detail_of d |> else s in
    let s := s <| fault_latched := true |> in
    let! stopped := stop_internal s d true in
    let '(ok, s) := stopped in
    let s := s <| report := (report s) <| overall := BZM_CHECK_BAD |> |> in
    io_ret (ok, if (ok : bool) then set_state BZM_VALIDATION_FAULT_LATCHED s else s).

Definition bzm_supervisor_clear_fault s : bool * bzm_supervisor_t :=
  if negb (initialized s) || negb (fault_latched s) ||
     negb (report_requested_stage (report s) =? BZM_STAGE_OFF_SAFE) ||
     negb (bzm_supervisor_safe_off_verified s)
  then (false, s)
  else (true, set_state BZM_VALIDATION_OFF_SAFE
                (s <| fault_latched := false; fault_code := 0; fault_detail := EmptyString |>)).

Definition bzm_supervisor_acquire_maintenance s (o : bzm_supervisor_owner_t) (now_ms : Z)
    : io W (bool * bzm_supervisor_t) :=
  if negb (initialized s) || negb (maintenance_owner o) || maintenance_owner (owner s)
  then io_ret (false, s)
  else
    let! attempt :=
      if decide (owner s = BZM_SUPERVISOR_OWNER_NONE)
      then bzm_supervisor_request_validation s BZM_STAGE_OFF_SAFE false false 0 now_ms
      else bzm_supervisor_stop s (Some "maintenance requested") in
    let '(safe, s) := attempt in
    if negb safe || negb (bzm_supervisor_safe_off_verified s) then io_ret (false, s)
    else
      let '(cleared, s) := if fault_latched s then bzm_supervisor_clear_fault s else (true, s) in
      if negb cleared then io_ret (false, s)
      else io_ret (true, s <| owner := o |>).

Definition bzm_supervisor_acquire_bridge_recovery s : bool * bzm_supervisor_t :=
  if negb (initialized s) || negb (bool_decide (owner s = BZM_SUPERVISOR_OWNER_NONE)) ||
     negb (fault_latched s) ||
     negb (bool_decide (state (report s) = BZM_VALIDATION_SHUTDOWN_UNVERIFIED))
  then (false, s)
  else (true, s <| owner := BZM_SUPERVISOR_OWNER_BRIDGE_UPDATE; lease_deadline_ms := 0 |>).

Definition bzm_supervisor_release_maintenance s (o : bzm_supervisor_owner_t)
    : io W (bool * bzm_supervisor_t) :=
  if negb (initialized s) || negb (maintenance_owner o) || negb (bool_decide (owner s = o))
  then io_ret (false, s)
  else
    let bridge_recovery :=
      bool_decide (o = BZM_SUPERVISOR_OWNER_BRIDGE_UPDATE) && fault_latched s &&
      bool_decide (state (report s) = BZM_VALIDATION_SHUTDOWN_UNVERIFIED) in
    let! stopped := stop_internal s (Some "maintenance released") true in
    let '(ok, s) := stopped in
    let s :=
      if bridge_recovery && (ok : bool) then
        s <| report := (set_stage BZM_STAGE_OFF_SAFE (final_safe_off (report s)) (report s))
               <| report_requested_stage := BZM_STAGE_OFF_SAFE;
                  reached_stage := BZM_STAGE_OFF_SAFE |> |>
      else s in
    io_ret (ok, s <| owner := BZM_SUPERVISOR_OWNER_NONE |>).

Definition bzm_supervisor_prepare_restart s : io W (bool * bzm_supervisor_t) :=
  if negb (initialized s) || maintenance_owner (owner s) then io_ret (false, s)
  else
    let! stopped := bzm_supervisor_stop s (Some "ESP restart requested") in
    let '(ok, s) := stopped in
    if negb ok || negb (bzm_supervisor_safe_off_verified s) then io_ret (false, s)
    else io_ret (true, s <| owner := BZM_SUPERVISOR_OWNER_ESP_RESTART |>).
End operations.

(** ** The supervisor as a transition system *)

Inductive supervisor_op :=
| RequestValidation (target : bzm_validation_stage_t) (local_arm hold : bool) (lease now_ms : Z)
| Stop (reason : option string)
| Tick (now_ms : Z)
| Heartbeat (lease now_ms : Z)
| LatchFault (code : Z) (detail : option string)
| ClearFault
| AcquireMaintenance (owner : bzm_supervisor_owner_t) (now_ms : Z)
| AcquireBridgeRecovery
| ReleaseMaintenance (owner : bzm_supervisor_owner_t)
| PrepareRestart.

Section system.
Context {W : Type} (run : Z -> io W bzm_stage_result_t) (off : io W bzm_stage_result_t).

Definition apply_op (op : supervisor_op) (s : bzm_supervisor_t) : io W (bool * bzm_supervisor_t) :=
  match op with
  | RequestValidation target arm hold lease now =>
      bzm_supervisor_request_validation run off s target arm hold lease now
  | Stop reason => bzm_supervisor_stop off s reason
  | Tick now => bzm_supervisor_tick off s now
  | Heartbeat lease now => io_ret (bzm_supervisor_heartbeat s lease now)
  | LatchFault c d => bzm_supervisor_latch_fault off s c d
  | ClearFault => io_ret (bzm_supervisor_clear_fault s)
  | AcquireMaintenance o now => bzm_supervisor_acquire_maintenance run off s o now
  | AcquireBridgeRecovery => io_ret (bzm_supervisor_acquire_bridge_recovery s)
  | ReleaseMaintenance o => bzm_supervisor_release_maintenance off s o
  | PrepareRestart => bzm_supervisor_prepare_restart off s
  end.
End system.

Section reachability.
Context {W : Type} (run : Z -> io W bzm_stage_result_t) (off : io W bzm_stage_result_t).

(** A supervisor with the log of the hardware operations performed so far. *)
Definition system : Type := bzm_supervisor_t * (W * list validation_event).

Inductive system_init : system -> Prop :=
| system_init_intro cfg s w :
    bzm_supervisor_init (Some cfg) (traced_ops run off) = Some s -> system_init (s, (w, [])).

Inductive system_step : system -> system -> Prop :=
| system_step_intro op s s' b wl wl' :
    apply_op (traced_run run) (traced_off off) op s wl = ((b, s'), wl') ->
    system_step (s, wl) (s', wl').

Definition system_reachable : system -> Prop := reachable system_init system_step.
End reachability.

(** *** The invariant *)

Record core_ok (s : bzm_supervisor_t) : Prop := {
  core_initialized : initialized s = true;
  core_fault_code : fault_latched s = negb (fault_code s =? 0);
}.

(** The log ends with the GOOD stages 0 .. [reached], run under an authorising
    policy, and nothing since. *)
Definition energized_by (log : list validation_event) (reached : Z) : Prop :=
  exists before runs p,
    log = before ++ (ran <$> runs) /\ Forall run_good runs /\
    runs.*1 = seqZ 0 (reached + 1) /\
    policy_authorized p /\ requested_stage p = reached /\ BZM_STAGE_POWER_RAIL <= reached.

Definition ends_safe (log : list validation_event) : Prop :=
  exists before o, log = before ++ [SafeOff o] /\ is_good o = true.

Record supervisor_inv (s : bzm_supervisor_t) (log : list validation_event) : Prop := {
  inv_core : core_ok s;
  inv_active : active_owner (owner s) = true ->
    state (report s) = BZM_VALIDATION_HOLDING /\ energized (report s) = true /\
    overall (report s) = BZM_CHECK_GOOD /\ fault_latched s = false /\
    (owner s = BZM_SUPERVISOR_OWNER_MINING <-> reached_stage (report s) = BZM_STAGE_RUNNING) /\
    energized_by log (reached_stage (report s));
  inv_holding : state (report s) = BZM_VALIDATION_HOLDING -> active_owner (owner s) = true;
  inv_energized : energized (report s) = true ->
    active_owner (owner s) = true \/ state (report s) = BZM_VALIDATION_SHUTDOWN_UNVERIFIED;
  inv_unverified : state (report s) = BZM_VALIDATION_SHUTDOWN_UNVERIFIED -> fault_latched s = true;
  inv_safe : active_owner (owner s) = false ->
    is_good (final_safe_off (report s)) = true -> ends_safe log;
}.

(** What happens to the supervisor when the safe-off returns [o]. *)
Record stopped (s : bzm_supervisor_t) (o : bzm_stage_result_t) (s' : bzm_supervisor_t) : Prop := {
  stopped_core : core_ok s';
  stopped_config : config s' = config s;
  stopped_owner : owner s' = BZM_SUPERVISOR_OWNER_NONE;
  stopped_deadline : lease_deadline_ms s' = 0;
  stopped_run_id : next_run_id s' = next_run_id s;
  stopped_energized : energized (report s') = negb (is_good o);
  stopped_safe_off : final_safe_off (report s') = o;
  stopped_stages : stages (report s') = stages (report s);
  stopped_requested : report_requested_stage (report s') = report_requested_stage (report s);
  stopped_latched : fault_latched s' = fault_latched s || negb (is_good o);
  stopped_overall : overall (report s') = if is_good o then overall (report s) else BZM_CHECK_BAD;
  stopped_state : state (report s') =
    if is_good o then
      if fault_latched s then BZM_VALIDATION_FAULT_LATCHED else BZM_VALIDATION_OFF_SAFE
    else BZM_VALIDATION_SHUTDOWN_UNVERIFIED;
}.

Lemma stopped_inv s o s' log : stopped s o s' -> supervisor_inv s' (log ++ [SafeOff o]).
Proof.
  intros H. destruct H. split; try done; rewrite ?stopped_owner0; try done.
  - rewrite stopped_state0. destruct (is_good o); [|done]. by destruct (fault_latched s).
  - rewrite stopped_energized0, stopped_state0. destruct (is_good o); [done|by right].
  - rewrite stopped_state0, stopped_latched0. destruct (is_good o); [|by rewrite orb_true_r].
    by destruct (fault_latched s).
  - rewrite stopped_safe_off0. intros _ Ho. by exists log, o.
Qed.

Lemma stop_internal_stopped {W} (off : io W bzm_stage_result_t) s reason preempt w :
  core_ok s -> (preempt = true \/ maintenance_owner (owner s) = false) ->
  exists s', stop_internal off s reason preempt w = ((is_good (off w).1, s'), (off w).2) /\
             stopped s (off w).1 s'.
Proof.
  intros [Hi Hc] Hp. unfold stop_internal. rewrite Hi.
  replace (negb true || negb preempt && maintenance_owner (owner s)) with false
    by (destruct Hp as [-> | ->]; by rewrite ?andb_false_r).
  unfold io_bind. destruct (off w) as [o w'] eqn:Hoff. cbn [fst snd].
  destruct (is_good o) eqn:Hg; cbn [negb].
  - eexists. split; [reflexivity|].
    split; cbn; try done; rewrite ?Hg, ?orb_false_r; try done.
  - eexists. split; [reflexivity|]. unfold latch_first.
    destruct (Z.eqb_spec (fault_code s) 0) as [Hz|Hz];
      (split; cbn; rewrite ?Hz; cbn; try rewrite (proj2 (Z.eqb_neq _ _) Hz); cbn;
       rewrite ?Hg, ?orb_true_r; try done; split; cbn; try done).
    by rewrite (proj2 (Z.eqb_neq _ _) Hz).
Qed.

Section traced_specs.
Context {W : Type} (run : Z -> io W bzm_stage_result_t) (off : io W bzm_stage_result_t).

Abbreviation trun := (traced_run run).
Abbreviation toff := (traced_off off).

Lemma stop_internal_spec s reason preempt w log :
  core_ok s -> (preempt = true \/ maintenance_owner (owner s) = false) ->
  exists o s' w', stop_internal toff s reason preempt (w, log) =
    ((is_good o, s'), (w', log ++ [SafeOff o])) /\ stopped s o s'.
Proof.
  intros Hc Hp. destruct (stop_internal_stopped toff s reason preempt (w, log) Hc Hp)
    as (s' & Heq & Hst).
  unfold traced_off in *. destruct (off w) as [o w'] eqn:Hoff. by exists o, s', w'.
Qed.

(** A hardware event other than running a stage past OFF_SAFE. *)
Definition off_safe_event (e : validation_event) : Prop :=
  match e with Ran stage _ => stage = BZM_STAGE_OFF_SAFE | SafeOff _ => True end.

(** Running [m] from [s] and [log] keeps the invariant, and while a fault is
    latched it runs no stage beyond OFF_SAFE. *)
Definition safe_from (s : bzm_supervisor_t) (log : list validation_event)
    (m : io (W * list validation_event) (bool * bzm_supervisor_t)) : Prop :=
  forall w, exists b s' w' ev,
    m (w, log) = ((b, s'), (w', log ++ ev)) /\ supervisor_inv s' (log ++ ev) /\
    (fault_latched s = true -> Forall off_safe_event ev).

Lemma safe_from_ret s log b s' :
  supervisor_inv s' log -> safe_from s log (io_ret (b, s')).
Proof. intros H w. exists b, s', w, []. rewrite app_nil_r. split_and!; try done. Qed.

(** A [stop_internal] followed by a pure step. *)
Lemma safe_from_stop s0 s log reason preempt
    (k : bool * bzm_supervisor_t -> io (W * list validation_event) (bool * bzm_supervisor_t)) :
  core_ok s -> (preempt = true \/ maintenance_owner (owner s) = false) ->
  (forall o s', stopped s o s' -> exists b s'',
     k (is_good o, s') = io_ret (b, s'') /\ supervisor_inv s'' (log ++ [SafeOff o])) ->
  safe_from s0 log (io_bind (stop_internal toff s reason preempt) k).
Proof.
  intros Hc Hp Hk w.
  destruct (stop_internal_spec s reason preempt w log Hc Hp) as (o & s' & w' & Heq & Hst).
  destruct (Hk o s' Hst) as (b & s'' & Hk' & Hi).
  exists b, s'', w', [SafeOff o]. unfold io_bind. rewrite Heq, Hk'.
  split_and!; [done|done|by repeat constructor].
Qed.

Lemma request_failed_inv s o log :
  core_ok s -> execution_shut_down false (report s) [SafeOff o] ->
  supervisor_inv (request_failed s) (log ++ [SafeOff o]).
Proof.
  intros [Hi Hc] (o' & [= <-] & Hen & Hfin & _ & Hst). unfold request_failed, latch_first.
  assert (Hend : is_good o = true -> ends_safe (log ++ [SafeOff o])).
  { intros Ho. by exists log, o. }
  destruct s as [cfg r ow rid dl ini lat fc fd]; cbn in *. subst ini lat.
  destruct (is_good o).
  - destruct Hst as [Hst|[Hst Hov]]; repeat case_decide; try congruence;
      destruct (Z.eqb_spec fc 0) as [->|Hfc]; cbn; rewrite ?Hst; cbn;
      rewrite ?(proj2 (Z.eqb_neq _ _) Hfc); cbn;
      split; cbn; rewrite ?Hst, ?Hen, ?Hfin; auto; try done; split; cbn;
      rewrite ?(proj2 (Z.eqb_neq _ _) Hfc); done.
  - destruct Hst as [Hst Hov]. rewrite decide_True by done.
    destruct (Z.eqb_spec fc 0) as [->|Hfc]; cbn; rewrite ?Hst;
      rewrite bool_decide_true by done; cbn;
      rewrite ?(proj2 (Z.eqb_neq _ _) Hfc); cbn;
      split; cbn; rewrite ?Hst, ?Hen, ?Hfin; auto; try done; split; cbn;
      rewrite ?(proj2 (Z.eqb_neq _ _) Hfc); done.
Qed.

Lemma request_off_inv s o target lease now log :
  core_ok s -> execution_shut_down true (report s) [SafeOff o] ->
  supervisor_inv (request_completed s target lease now) (log ++ [SafeOff o]).
Proof.
  intros [Hi Hc] (o' & [= <-] & Hen & Hfin & Hok & _). unfold request_completed.
  destruct (Hok eq_refl) as [Ho Hst]. rewrite Ho in *.
  assert (Hend : ends_safe (log ++ [SafeOff o])) by (by exists log, o).
  rewrite decide_False by congruence.
  destruct s as [cfg r ow rid dl ini lat fc fd]; cbn in *. subst ini.
  destruct lat; split; cbn; rewrite ?Hst, ?Hen, ?Hfin; auto; try done; split; cbn; done.
Qed.

Lemma request_held_inv s p runs target lease now log :
  core_ok s -> fault_latched s = false -> requested_stage p = target ->
  execution_held (Some p) true (report s) runs [] ->
  supervisor_inv (request_completed s target lease now) (log ++ (ran <$> runs)).
Proof.
  intros [Hi Hc] Hlat <- (p' & [= <-] & Hp & _ & Hpow & _ & _ & Hst & Hen & Hov & Hre & Hgood & Hruns).
  unfold request_completed. rewrite decide_True by done.
  assert (He : energized_by (log ++ (ran <$> runs)) (requested_stage p)).
  { by exists log, runs, p. }
  destruct s as [cfg r ow rid dl ini lat fc fd]; cbn in *. subst ini.
  rewrite Hlat in Hc. subst lat.
  destruct (Z.eqb_spec (requested_stage p) BZM_STAGE_RUNNING) as [Heq|Hne];
    split; cbn; rewrite ?Hst, ?Hen, ?Hov, ?Hre; auto; try done; split; done.
Qed.

Lemma request_execute_safe s0 s log target arm hold lease now :
  core_ok s ->
  (fault_latched s = true -> target = BZM_STAGE_OFF_SAFE) ->
  (fault_latched s0 = true -> target = BZM_STAGE_OFF_SAFE) ->
  safe_from s0 log (request_execute trun toff s target arm hold lease now).
Proof.
  intros Hc Hlat Hlat0 w. unfold request_execute.
  change (validation_ops trun toff) with (traced_ops run off).
  set (p := request_policy s target arm hold lease).
  set (s1 := s <| next_run_id := u32 (next_run_id s + 1) |>).
  destruct (execute_result run off (Some p) w log)
    as (ok & r & w' & runs & tail & Heq & Hruns & Hout).
  assert (Hcr : core_ok (s1 <| report := r |>)) by (destruct Hc; split; done).
  assert (Hev : fault_latched s0 = true -> Forall off_safe_event (ran <$> runs)).
  { intros Ht%Hlat0. apply Forall_fmap. eapply Forall_impl; [exact Hruns|].
    intros e (p' & [= <-] & _ & He). cbn in *. rewrite Ht in He. unfold BZM_STAGE_OFF_SAFE in *. lia. }
  unfold io_bind. rewrite Heq. destruct Hout as [Hheld|Hshut].
  - pose proof Hheld as (p' & [= <-] & _ & _ & Hpow & -> & -> & _).
    assert (Hl1 : fault_latched s = false).
    { destruct (fault_latched s) eqn:Hl; [|done]. specialize (Hlat eq_refl).
      change (requested_stage p) with target in Hpow. subst target. by destruct Hpow. }
    eexists true, _, w', (ran <$> runs). rewrite app_nil_r.
    split_and!; [reflexivity| |done]. by apply (request_held_inv _ p).
  - pose proof Hshut as (o & -> & _).
    exists ok. destruct ok; cbn [negb]; eexists _, w', _; (split; [reflexivity|]).
    all: rewrite app_assoc; split;
      [first [by apply request_off_inv | by apply request_failed_inv]|].
    all: intros Ht; apply Forall_app; split; [by apply Hev|by repeat constructor].
Qed.

Lemma block_report_core s target d : core_ok s -> core_ok (block_report s target d).
Proof. intros []. by split. Qed.

(** A blocked request leaves a passive supervisor passive. *)
Lemma block_report_inv s log target d :
  supervisor_inv s log -> active_owner (owner s) = false ->
  supervisor_inv (block_report s target d) log.
Proof.
  intros [] Hact. split; try done.
  - by apply block_report_core.
  - cbn. intros H. congruence.
Qed.

Lemma active_not_maintenance o : active_owner o = true -> maintenance_owner o = false.
Proof. by destruct o. Qed.

Lemma stop_safe s0 s log reason :
  core_ok s -> supervisor_inv s log \/ maintenance_owner (owner s) = false ->
  safe_from s0 log (bzm_supervisor_stop toff s reason).
Proof.
  intros Hc Hi. unfold bzm_supervisor_stop.
  destruct (maintenance_owner (owner s)) eqn:Hm.
  - destruct Hi as [Hi|]; [|done]. unfold stop_internal. rewrite Hm, orb_true_r.
    by apply safe_from_ret.
  - intros w. destruct (stop_internal_spec s reason false w log Hc) as (o & s' & w' & Heq & Hst);
      [by right|].
    exists (is_good o), s', w', [SafeOff o]. split_and!; [done|by apply (stopped_inv s)|].
    by repeat constructor.
Qed.

(** Discarding the result of a stop. *)
Lemma stop_then_false_safe s0 s log reason :
  core_ok s -> maintenance_owner (owner s) = false ->
  safe_from s0 log
    (io_bind (bzm_supervisor_stop toff s reason) (fun r => io_ret (false, snd r))).
Proof.
  intros Hc Hm. apply safe_from_stop; [done|by right|]. intros o s' Hst.
  eexists false, _. split; [reflexivity|]. by apply (stopped_inv s).
Qed.

Lemma request_validation_safe s log target arm hold lease now :
  supervisor_inv s log ->
  safe_from s log
    (bzm_supervisor_request_validation trun toff s target arm hold lease now).
Proof.
  intros Hinv. pose proof (inv_core _ _ Hinv) as Hc.
  unfold bzm_supervisor_request_validation.
  destruct (negb (initialized s) || negb (valid_stage target)); [by apply safe_from_ret|].
  destruct (maintenance_owner (owner s)) eqn:Hm.
  { apply safe_from_ret, block_report_inv; [done|].
    destruct (active_owner (owner s)) eqn:Ha; [|done]. by apply active_not_maintenance in Ha; congruence. }
  destruct (fault_latched s && negb (target =? BZM_STAGE_OFF_SAFE)) eqn:Hl.
  { apply stop_then_false_safe; [by apply block_report_core|done]. }
  destruct (maximum_lease_ms (config s) <? lease).
  { apply stop_then_false_safe; [by apply block_report_core|done]. }
  assert (Ht : fault_latched s = true -> target = BZM_STAGE_OFF_SAFE).
  { intros H. rewrite H in Hl. cbn in Hl. prop_bool. by apply Z.eqb_eq. }
  destruct (negb (bool_decide (owner s = BZM_SUPERVISOR_OWNER_NONE))).
  2: { by apply request_execute_safe. }
  intros w. unfold io_bind, bzm_supervisor_stop.
  destruct (stop_internal_spec s (Some "replacing active validation") false w log Hc)
    as (o & s' & w' & Heq & Hst); [by right|].
  rewrite Heq. destruct (is_good o) eqn:Ho; cbn [negb].
  - assert (Hl' : fault_latched s' = true -> target = BZM_STAGE_OFF_SAFE).
    { rewrite (stopped_latched _ _ _ Hst), Ho, orb_false_r. exact Ht. }
    destruct (request_execute_safe s s' (log ++ [SafeOff o]) target arm hold lease now
      (stopped_core _ _ _ Hst) Hl' Ht w') as (b & s2 & w2 & ev & -> & Hi2 & Hev).
    exists b, s2, w2, (SafeOff o :: ev). rewrite <- app_assoc in *. split_and!; try done.
    intros H. constructor; [done|by apply Hev].
  - exists false, s', w', [SafeOff o]. split_and!; [done|by apply (stopped_inv s)|].
    by repeat constructor.
Qed.

Lemma heartbeat_inv s log lease now :
  supervisor_inv s log -> supervisor_inv (bzm_supervisor_heartbeat s lease now).2 log.
Proof.
  intros Hinv. unfold bzm_supervisor_heartbeat. guard_step; [done|].
  destruct Hinv as [[] ? ? ? ? ?]. by split.
Qed.

Lemma safe_off_verified_state s :
  bzm_supervisor_safe_off_verified s = true ->
  energized (report s) = false /\ is_good (final_safe_off (report s)) = true /\
  (state (report s) = BZM_VALIDATION_OFF_SAFE \/
   state (report s) = BZM_VALIDATION_FAULT_LATCHED).
Proof.
  unfold bzm_supervisor_safe_off_verified. intros H. prop_bool. split_and!; try done.
  match goal with E : _ || _ = true |- _ => apply orb_true_iff in E as [E|E] end; prop_bool; auto.
Qed.

(** A verified-off supervisor is passive; its owner may become a maintainer. *)
Lemma verified_passive s log :
  supervisor_inv s log -> bzm_supervisor_safe_off_verified s = true ->
  active_owner (owner s) = false.
Proof.
  intros Hinv (Hen & _)%safe_off_verified_state.
  destruct (active_owner (owner s)) eqn:Ha; [|done].
  destruct (inv_active _ _ Hinv Ha) as (_ & He & _). congruence.
Qed.

Lemma set_owner_inv s log o :
  supervisor_inv s log -> active_owner (owner s) = false -> active_owner o = false ->
  supervisor_inv (s <| owner := o |>) log.
Proof.
  intros [[] Ha Hh He Hu Hs] Hp Ho. split; cbn; try done; try congruence.
  - intros H%Hh. congruence.
  - intros [H|H]%He; [congruence|by right].
  - intros _. by apply Hs.
Qed.

Lemma maintenance_not_active o : maintenance_owner o = true -> active_owner o = false.
Proof. by destruct o. Qed.

Lemma clear_fault_inv s log :
  supervisor_inv s log -> supervisor_inv (bzm_supervisor_clear_fault s).2 log.
Proof.
  intros Hinv. unfold bzm_supervisor_clear_fault. guard_step; [done|]. prop_bool.
  pose proof (verified_passive _ _ Hinv ltac:(done)) as Hp.
  match goal with E : bzm_supervisor_safe_off_verified s = true |- _ =>
    apply safe_off_verified_state in E as (Hen & Hfin & _) end.
  destruct Hinv as [[Hi Hc] Ha Hh He Hu Hs]. split; cbn; try done; try congruence.
  all: intros ?; congruence.
Qed.

Lemma acquire_bridge_recovery_inv s log :
  supervisor_inv s log -> supervisor_inv (bzm_supervisor_acquire_bridge_recovery s).2 log.
Proof.
  intros Hinv. unfold bzm_supervisor_acquire_bridge_recovery. guard_step; [done|]. prop_bool.
  assert (active_owner (owner s) = false) as Hp by (by replace (owner s) with BZM_SUPERVISOR_OWNER_NONE).
  destruct (set_owner_inv _ _ BZM_SUPERVISOR_OWNER_BRIDGE_UPDATE Hinv Hp eq_refl) as [[] ? ? ? ? ?].
  by split.
Qed.

Lemma latch_fault_safe s log c d :
  supervisor_inv s log -> safe_from s log (bzm_supervisor_latch_fault toff s c d).
Proof.
  intros Hinv. destruct (inv_core _ _ Hinv) as [Hi Hc]. unfold bzm_supervisor_latch_fault.
  destruct (Z.eqb_spec c 0) as [|Hne]; [rewrite orb_true_r; by apply safe_from_ret|].
  rewrite Hi. cbn [negb orb].
  set (s1 := (if negb (fault_latched s)
              then s <| fault_code := c; fault_detail := fault_detail_of d |>
              else s) <| fault_latched := true |>).
  assert (Hc1 : core_ok s1).
  { unfold s1. destruct (fault_latched s) eqn:Hl; split; cbn; try done.
    by apply Z.eqb_neq in Hne as ->. }
  apply safe_from_stop; [done|by left|].
  intros o s' Hst. pose proof (stopped_inv _ _ _ log Hst) as [[] ? Hh He Hu Hs].
  pose proof (stopped_owner _ _ _ Hst) as Ho. pose proof (stopped_energized _ _ _ Hst) as Hen.
  pose proof (stopped_latched _ _ _ Hst) as Hl. pose proof (stopped_state _ _ _ Hst) as Hstate.
  eexists _, _; split; [reflexivity|].
  destruct (is_good o); split; cbn; rewrite ?Ho; try done; try congruence.
  all: try (rewrite Hl; reflexivity); try (rewrite Hstate; auto; done).
  all: try (rewrite Hen; done).
  all: intros _ Hg; apply Hs; [by rewrite Ho|done].
Qed.

Lemma release_maintenance_safe s log o :
  supervisor_inv s log -> safe_from s log (bzm_supervisor_release_maintenance toff s o).
Proof.
  intros Hinv. pose proof (inv_core _ _ Hinv) as Hc. unfold bzm_supervisor_release_maintenance.
  guard_step; [by apply safe_from_ret|].
  apply safe_from_stop; [done|by left|].
  intros o' s' Hst. pose proof (stopped_inv _ _ _ log Hst) as Hi'.
  pose proof (stopped_owner _ _ _ Hst) as Ho.
  assert (active_owner (owner s') = false) as Hp by (by rewrite Ho).
  destruct (set_owner_inv _ _ BZM_SUPERVISOR_OWNER_NONE Hi' Hp eq_refl) as [[] ? ? ? ? ?].
  eexists _, _; split; [reflexivity|]. destruct (_ && is_good o'); by split.
Qed.

Lemma prepare_restart_safe s log :
  supervisor_inv s log -> safe_from s log (bzm_supervisor_prepare_restart toff s).
Proof.
  intros Hinv. pose proof (inv_core _ _ Hinv) as Hc. unfold bzm_supervisor_prepare_restart.
  destruct (negb (initialized s) || maintenance_owner (owner s)) eqn:Hg; [by apply safe_from_ret|].
  prop_bool. intros w. unfold io_bind, bzm_supervisor_stop.
  destruct (stop_internal_spec s (Some "ESP restart requested") false w log Hc)
    as (o & s' & w' & Heq & Hst); [by right|].
  rewrite Heq. pose proof (stopped_inv _ _ _ log Hst) as Hi'.
  destruct (negb (is_good o) || negb (bzm_supervisor_safe_off_verified s')) eqn:Hv;
    unfold io_ret; eexists _, _, w', [SafeOff o]; (split; [reflexivity|]).
  - split; [done|by repeat constructor].
  - prop_bool. split; [|by repeat constructor]. apply set_owner_inv; [done| |done].
    by apply (verified_passive _ _ Hi').
Qed.

Lemma acquire_maintenance_safe s log o now :
  supervisor_inv s log -> safe_from s log (bzm_supervisor_acquire_maintenance trun toff s o now).
Proof.
  intros Hinv. unfold bzm_supervisor_acquire_maintenance.
  destruct (negb (initialized s) || negb (maintenance_owner o) || maintenance_owner (owner s)) eqn:Hg;
    [by apply safe_from_ret|]. prop_bool. intros w.
  assert (Hattempt : safe_from s log
    (if decide (owner s = BZM_SUPERVISOR_OWNER_NONE)
     then bzm_supervisor_request_validation trun toff s BZM_STAGE_OFF_SAFE false false 0 now
     else bzm_supervisor_stop toff s (Some "maintenance requested"))).
  { case_decide; [by apply request_validation_safe|].
    apply stop_safe; [by apply (inv_core _ log)|by left]. }
  destruct (Hattempt w) as (b & s1 & w1 & ev & Heq & Hi1 & Hev).
  unfold io_bind at 1. rewrite Heq.
  destruct (negb b || negb (bzm_supervisor_safe_off_verified s1)) eqn:Hv.
  { exists false, s1, w1, ev. done. }
  prop_bool. pose proof (verified_passive _ _ Hi1 ltac:(done)) as Hp.
  destruct (fault_latched s1).
  - pose proof (clear_fault_inv s1 _ Hi1) as Hi2.
    assert (active_owner (owner (bzm_supervisor_clear_fault s1).2) = false) as Hp2.
    { unfold bzm_supervisor_clear_fault. guard_goal; exact Hp. }
    destruct (bzm_supervisor_clear_fault s1) as [cleared s2]. cbn in Hi2, Hp2.
    destruct cleared; cbn [negb]; unfold io_ret; eexists _, _, w1, ev;
      (split; [reflexivity|]); split; try done.
    apply set_owner_inv; [done|done|by apply maintenance_not_active].
  - exists true, (s1 <| owner := o |>), w1, ev. split; [done|]. split; [|done].
    apply set_owner_inv; [done|done|by apply maintenance_not_active].
Qed.

(** Every operation keeps the invariant, from every reachable state. *)
Lemma apply_op_safe op s log :
  supervisor_inv s log -> safe_from s log (apply_op trun toff op s).
Proof.
  intros Hinv. destruct op; cbn [apply_op].
  - by apply request_validation_safe.
  - apply stop_safe; [by apply (inv_core _ log)|by left].
  - unfold bzm_supervisor_tick. guard_step; [by apply safe_from_ret|].
    guard_step; [|by apply safe_from_ret].
    apply stop_safe; [by apply (inv_core _ log)|by left].
  - destruct (bzm_supervisor_heartbeat s lease now_ms) as [b s'] eqn:Heq.
    apply safe_from_ret. change s' with (b, s').2. rewrite <- Heq. by apply heartbeat_inv.
  - by apply latch_fault_safe.
  - destruct (bzm_supervisor_clear_fault s) as [b s'] eqn:Heq.
    apply safe_from_ret. change s' with (b, s').2. rewrite <- Heq. by apply clear_fault_inv.
  - by apply acquire_maintenance_safe.
  - destruct (bzm_supervisor_acquire_bridge_recovery s) as [b s'] eqn:Heq.
    apply safe_from_ret. change s' with (b, s').2. rewrite <- Heq.
    by apply acquire_bridge_recovery_inv.
  - by apply release_maintenance_safe.
  - by apply prepare_restart_safe.
Qed.

Lemma init_inv cfg (ops : option (bzm_validation_ops_t (W * list validation_event))) s :
  bzm_supervisor_init (Some cfg) ops = Some s -> supervisor_inv s [].
Proof.
  unfold bzm_supervisor_init. destruct ops as [[[|] [|]]|]; try done.
  guard_step; [done|]. intros [= <-]. split; try done.
Qed.

Lemma reachable_inv s w log :
  system_reachable run off (s, (w, log)) -> supervisor_inv s log.
Proof.
  intros Hr. set (P := fun x : system (W := W) => supervisor_inv (fst x) (snd (snd x))).
  change (P (s, (w, log))).
  apply (reachable_invariant (system_init run off) (system_step run off)); [| |exact Hr]; unfold P.
  { intros x []; cbn. by eapply init_inv. }
  clear. intros x y Hx Hstep. destruct Hstep as [op s s' b [w log] [w' log'] Heq]. cbn in *.
  destruct (apply_op_safe op s log Hx w) as (b' & s2 & w2 & ev & Heq' & Hi & _).
  rewrite Heq in Heq'. by simplify_eq.
Qed.
End traced_specs.

(** *** Latched faults *)

Section latch.
Context {W : Type} (run : Z -> io W bzm_stage_result_t) (off : io W bzm_stage_result_t).

(** [m], started from a latched supervisor, ends latched or verified off. *)
Definition keeps_latch (m : io W (bool * bzm_supervisor_t)) : Prop :=
  forall w, let s' := (m w).1.2 in
    fault_latched s' = true \/ bzm_supervisor_safe_off_verified s' = true.

Lemma latch_first_latched s c d : fault_latched (latch_first s c d) = true.
Proof. unfold latch_first. by guard_goal. Qed.

Lemma stop_internal_latched s reason preempt :
  fault_latched s = true ->
  forall w, fault_latched (stop_internal off s reason preempt w).1.2 = true.
Proof.
  intros Hl w. unfold stop_internal. guard_goal; [done|]. unfold io_bind.
  destruct (off w) as [o w']. guard_goal; cbn; [apply latch_first_latched|done].
Qed.

Lemma keeps_latch_ret b s : fault_latched s = true -> keeps_latch (io_ret (b, s)).
Proof. intros H w. by left. Qed.

Lemma keeps_latch_stop s reason preempt k :
  fault_latched s = true ->
  (forall b s', fault_latched s' = true -> keeps_latch (k (b, s'))) ->
  keeps_latch (io_bind (stop_internal off s reason preempt) k).
Proof.
  intros Hl Hk w. pose proof (stop_internal_latched s reason preempt Hl w) as H.
  unfold io_bind. destruct (stop_internal off s reason preempt w) as [[b s'] w'].
  by apply Hk.
Qed.

Lemma clear_fault_verified s :
  fault_latched s = true ->
  let s' := (bzm_supervisor_clear_fault s).2 in
  fault_latched s' = true \/ bzm_supervisor_safe_off_verified s' = true.
Proof.
  intros Hl. cbn. unfold bzm_supervisor_clear_fault. guard_goal; [by left|right].
  prop_bool. match goal with E : bzm_supervisor_safe_off_verified s = true |- _ => rename E into Hv end.
  unfold bzm_supervisor_safe_off_verified in *. cbn. prop_bool.
  repeat match goal with E : _ = true |- _ => rewrite E end.
  match goal with E : energized _ = false |- _ => rewrite E end.
  change (off_safe_stage_good _) with (off_safe_stage_good (report s)) at 1.
  match goal with E : off_safe_stage_good _ = true |- _ => rewrite E end.
  by rewrite bool_decide_true.
Qed.

Lemma request_execute_latched s target arm hold lease now :
  fault_latched s = true -> keeps_latch (request_execute run off s target arm hold lease now).
Proof.
  intros Hl w. unfold request_execute, io_bind.
  destruct (bzm_validation_execute _ _ w) as [[completed r] w']. left.
  destruct completed; cbn [negb io_ret fst snd].
  - unfold request_completed. repeat guard_goal; exact Hl.
  - unfold request_failed. repeat guard_goal;
      first [exact Hl | by apply (latch_first_latched _ _ _)].
Qed.

Lemma request_validation_latched s target arm hold lease now :
  fault_latched s = true ->
  keeps_latch (bzm_supervisor_request_validation run off s target arm hold lease now).
Proof.
  intros Hl. unfold bzm_supervisor_request_validation.
  repeat (guard_goal; [first [by apply keeps_latch_ret
    | by apply keeps_latch_stop; [|intros b s' Hl'; by apply keeps_latch_ret]]|]).
  guard_goal; [|by apply request_execute_latched].
  apply keeps_latch_stop; [done|]. intros b s' Hl'.
  destruct b; [by apply request_execute_latched|by apply keeps_latch_ret].
Qed.

Lemma apply_op_latched op s : fault_latched s = true -> keeps_latch (apply_op run off op s).
Proof.
  intros Hl. destruct op; cbn [apply_op].
  - by apply request_validation_latched.
  - intros w. left. by apply stop_internal_latched.
  - unfold bzm_supervisor_tick. guard_goal; [by apply keeps_latch_ret|].
    guard_goal; [|by apply keeps_latch_ret]. intros w. left. by apply stop_internal_latched.
  - unfold bzm_supervisor_heartbeat. guard_goal; by apply keeps_latch_ret.
  - unfold bzm_supervisor_latch_fault. guard_goal; [by apply keeps_latch_ret|].
    apply keeps_latch_stop; [done|]. intros b s' Hl'. apply keeps_latch_ret. by destruct b.
  - intros w. by apply clear_fault_verified.
  - unfold bzm_supervisor_acquire_maintenance. guard_goal; [by apply keeps_latch_ret|]. intros w.
    match goal with |- context [io_bind ?m _] => set (attempt := m);
      assert (keeps_latch attempt) as Ha end.
    { unfold attempt. case_decide; [by apply request_validation_latched|].
      intros w'. left. by apply stop_internal_latched. }
    specialize (Ha w). unfold io_bind. destruct (attempt w) as [[b s1] w1]. cbn in Ha.
    guard_goal; [done|]. prop_bool. right.
    destruct (fault_latched s1) eqn:Hl1; [|done].
    destruct (clear_fault_verified s1 Hl1) as [Hc|Hc]; revert Hc;
      unfold bzm_supervisor_clear_fault; guard_goal; cbn; done.
  - unfold bzm_supervisor_acquire_bridge_recovery. guard_goal; by apply keeps_latch_ret.
  - unfold bzm_supervisor_release_maintenance. guard_goal; [by apply keeps_latch_ret|].
    apply keeps_latch_stop; [done|]. intros b s' Hl'. apply keeps_latch_ret. by guard_goal.
  - unfold bzm_supervisor_prepare_restart. guard_goal; [by apply keeps_latch_ret|].
    apply keeps_latch_stop; [done|]. intros b s' Hl'. guard_goal; by apply keeps_latch_ret.
Qed.
End latch.

(** ** Properties *)

Section properties.
Context {W : Type} (run : Z -> io W bzm_stage_result_t) (off : io W bzm_stage_result_t).

(** C9: In every reachable state, if work may be dispatched then the last
    thing that happened to the hardware is a complete bring-up: stages 0 to 7
    ran in order, each reported GOOD, under an authorising policy, and no
    safe-off or other stage has run since; moreover no fault is latched and
    the mining lease has not expired. *)
Theorem supervisor_dispatch_after_full_bringup s w log now :
  system_reachable run off (s, (w, log)) ->
  bzm_supervisor_dispatch_allowed s now = true ->
  energized_by log BZM_STAGE_RUNNING /\ fault_latched s = false /\
  owner s = BZM_SUPERVISOR_OWNER_MINING /\ now < lease_deadline_ms s.
Proof.
  intros Hr Hd. apply reachable_inv in Hr. unfold bzm_supervisor_dispatch_allowed in Hd.
  prop_bool. assert (Ha : active_owner (owner s) = true) by (by replace (owner s) with BZM_SUPERVISOR_OWNER_MINING).
  destruct (inv_active _ _ Hr Ha) as (_ & _ & _ & _ & [Hre _] & He).
  rewrite Hre in He by done. split_and!; try done. by apply Z.ltb_lt.
Qed.

(** In every reachable state in which safe-off counts as verified, the
    last operation on the hardware is a safe-off that reported GOOD; the
    supervisor is not energized, nobody holds a validation or mining lease
    and no work may be dispatched. *)
Theorem supervisor_verified_off_is_off s w log :
  system_reachable run off (s, (w, log)) ->
  bzm_supervisor_safe_off_verified s = true ->
  ends_safe log /\ energized (report s) = false /\ active_owner (owner s) = false /\
  (forall now, bzm_supervisor_dispatch_allowed s now = false).
Proof.
  intros Hr Hv. apply reachable_inv in Hr. pose proof (verified_passive _ _ Hr Hv) as Hp.
  pose proof (safe_off_verified_state _ Hv) as (Hen & Hfin & _).
  split_and!; [by apply (inv_safe _ _ Hr)|done|done|]. intros now.
  assert (Hne : owner s ≠ BZM_SUPERVISOR_OWNER_MINING) by (intros H; by rewrite H in Hp).
  unfold bzm_supervisor_dispatch_allowed. rewrite (bool_decide_false _ Hne).
  by rewrite !andb_false_r.
Qed.

(** C10: From every reachable state with a latched fault, no operation runs a
    hardware stage other than OFF_SAFE, and the latch is given up only in a
    state whose safe-off is verified, so only after a GOOD safe-off as the
    last hardware operation. *)
Theorem supervisor_latched_fault_confines op s w log :
  system_reachable run off (s, (w, log)) -> fault_latched s = true ->
  exists b s' w' ev,
    apply_op (traced_run run) (traced_off off) op s (w, log) = ((b, s'), (w', log ++ ev)) /\
    Forall off_safe_event ev /\
    (fault_latched s' = true \/ bzm_supervisor_safe_off_verified s' = true /\ ends_safe (log ++ ev)).
Proof.
  intros Hr Hl. apply reachable_inv in Hr.
  destruct (apply_op_safe run off op s log Hr w) as (b & s' & w' & ev & Heq & Hi & Hev).
  exists b, s', w', ev. split_and!; [done|by apply Hev|].
  pose proof (apply_op_latched (traced_run run) (traced_off off) op s Hl (w, log)) as Hk.
  rewrite Heq in Hk. cbn in Hk. destruct Hk as [|Hv]; [by left|right]. split; [done|].
  pose proof (safe_off_verified_state _ Hv) as (_ & Hfin & _).
  apply (inv_safe _ _ Hi); [by apply (verified_passive _ _ Hi)|done].
Qed.

(** C11: The owner of a maintenance lease is exclusive: while one holds it,
    every operation either leaves the owner in place and the hardware
    untouched, or is that owner's own release or a latched fault, and then
    forces exactly one safe-off and leaves no owner. *)
Theorem supervisor_maintenance_exclusive op s w :
  initialized s = true -> maintenance_owner (owner s) = true ->
  let '((_, s'), w') := apply_op run off op s w in
  (owner s' = owner s /\ w' = w) \/
  (owner s' = BZM_SUPERVISOR_OWNER_NONE /\ w' = (off w).2 /\
   (op = ReleaseMaintenance (owner s) \/ exists c d, op = LatchFault c d)).
Proof.
  intros Hi Hm. assert (Ha : active_owner (owner s) = false) by (by apply maintenance_not_active).
  assert (Hn : owner s ≠ BZM_SUPERVISOR_OWNER_NONE) by (intros H; by rewrite H in Hm).
  destruct op as [target ? ? ? ?| | | |c d| |o ?| |o|]; cbn [apply_op].
  - unfold bzm_supervisor_request_validation. rewrite Hi, Hm.
    destruct (valid_stage target); by left.
  - unfold bzm_supervisor_stop, stop_internal. rewrite Hi, Hm. by left.
  - unfold bzm_supervisor_tick. rewrite Hi, Ha. by left.
  - unfold bzm_supervisor_heartbeat. rewrite Hi, Ha. by left.
  - unfold bzm_supervisor_latch_fault, stop_internal. rewrite Hi. cbn [negb orb].
    destruct (c =? 0); [by left|].
    match goal with |- context [if negb (fault_latched s) then ?a else ?b] =>
      set (s1 := if negb (fault_latched s) then a else b) end.
    assert (initialized s1 = true) as Hi1 by (unfold s1; by destruct (fault_latched s)).
    change (initialized (_ <| fault_latched := true |>)) with (initialized s1).
    rewrite Hi1. cbn [negb andb orb]. unfold io_bind.
    destruct (off w) as [o w']. destruct (is_good o); cbn; right; (split_and!; [|done|by right; eauto]).
    all: try unfold latch_first; repeat guard_goal; done.
  - unfold bzm_supervisor_clear_fault. guard_goal; by left.
  - unfold bzm_supervisor_acquire_maintenance. rewrite Hm, orb_true_r. by left.
  - unfold bzm_supervisor_acquire_bridge_recovery.
    rewrite (bool_decide_false _ Hn), Hi. by left.
  - unfold bzm_supervisor_release_maintenance, stop_internal. rewrite Hi. cbn [negb orb andb].
    destruct (decide (owner s = o)) as [<-|Hne].
    2: { rewrite (bool_decide_false _ Hne), orb_true_r. by left. }
    rewrite bool_decide_true by done.
    rewrite Hm. cbn [negb orb]. unfold io_bind.
    destruct (off w) as [o w']. destruct (is_good o); cbn; right; split_and!; auto.
  - unfold bzm_supervisor_prepare_restart. rewrite Hi, Hm. by left.
Qed.

(** An expired lease ends ownership: at or after the deadline a heartbeat
    is refused and changes nothing, dispatch is refused, and the tick forces
    one safe-off, drops the owner and refuses dispatch at every later time,
    also when the safe-off cannot be verified (then the fault is latched). *)
Theorem supervisor_lease_expiry s w now lease :
  initialized s = true -> active_owner (owner s) = true ->
  lease_deadline_ms s ≠ 0 -> lease_deadline_ms s <= now ->
  bzm_supervisor_heartbeat s lease now = (false, s) /\
  bzm_supervisor_dispatch_allowed s now = false /\
  let '((ok, s'), w') := bzm_supervisor_tick off s now w in
  w' = (off w).2 /\ ok = is_good (off w).1 /\
  owner s' = BZM_SUPERVISOR_OWNER_NONE /\ lease_deadline_ms s' = 0 /\
  fault_latched s' = fault_latched s || negb ok /\
  (forall later, bzm_supervisor_dispatch_allowed s' later = false).
Proof.
  intros Hi Ha Hd Hn. pose proof (active_not_maintenance _ Ha) as Hm.
  assert (Hle : (lease_deadline_ms s <=? now) = true) by (by apply Z.leb_le).
  split_and!.
  - unfold bzm_supervisor_heartbeat. by rewrite Hle, orb_true_r.
  - unfold bzm_supervisor_dispatch_allowed. rewrite (proj2 (Z.ltb_ge _ _) Hn). by rewrite andb_false_r.
  - unfold bzm_supervisor_tick, bzm_supervisor_stop, stop_internal.
    rewrite Hi, Ha, Hle, (proj2 (Z.eqb_neq _ _) Hd), Hm. cbn. unfold io_bind.
    destruct (off w) as [o w']. destruct (is_good o) eqn:Hg; cbn.
    + rewrite orb_false_r. split_and!; try done. intros later.
      unfold bzm_supervisor_dispatch_allowed. cbn. by rewrite !andb_false_r.
    + unfold latch_first. cbn. rewrite orb_true_r.
      destruct (fault_code s =? 0); cbn; split_and!; try done; intros later;
        unfold bzm_supervisor_dispatch_allowed; cbn; by rewrite !andb_false_r.
Qed.

Lemma verified_after_stop s o s' :
  stopped s o s' -> is_good o = true ->
  bzm_supervisor_safe_off_verified s' = off_safe_stage_good (report s).
Proof.
  intros [[Hi _] _ _ _ _ Hen Hfin Hstg _ _ _ Hst] Hg.
  unfold bzm_supervisor_safe_off_verified, off_safe_stage_good.
  rewrite Hi, Hen, Hfin, Hstg, Hst, Hg. cbn.
  destruct (from_option _ _ _), (fault_latched s); done.
Qed.

(** A release by the owner with a verified safe-off. *)
Lemma release_good s w :
  core_ok s -> maintenance_owner (owner s) = true -> is_good (off w).1 = true ->
  let '((ok, s'), w') := bzm_supervisor_release_maintenance off s (owner s) w in
  ok = true /\ w' = (off w).2 /\ core_ok s' /\ owner s' = BZM_SUPERVISOR_OWNER_NONE /\
  fault_latched s' = fault_latched s /\
  (bool_decide (owner s = BZM_SUPERVISOR_OWNER_BRIDGE_UPDATE) && fault_latched s &&
   bool_decide (state (report s) = BZM_VALIDATION_SHUTDOWN_UNVERIFIED) = true ->
   (0 < length (stages (report s)))%nat ->
   bzm_supervisor_safe_off_verified s' = true) /\
  (bool_decide (state (report s) = BZM_VALIDATION_SHUTDOWN_UNVERIFIED) = false ->
   bzm_supervisor_safe_off_verified s' = off_safe_stage_good (report s) /\
   off_safe_stage_good (report s') = off_safe_stage_good (report s)).
Proof.
  intros Hc Hm Hg. unfold bzm_supervisor_release_maintenance.
  rewrite (core_initialized _ Hc), Hm, bool_decide_true by done. cbn [negb orb].
  set (recovery := bool_decide (owner s = _) && _ && _).
  unfold io_bind. destruct (stop_internal_stopped off s (Some "maintenance released") true w Hc)
    as (s1 & -> & Hst); [by left|]. rewrite Hg. unfold io_ret.
  pose proof (verified_after_stop _ _ _ Hst Hg) as Hver.
  pose proof Hst as [[Hi1 Hc1] _ _ _ _ Hen Hfin Hstg _ Hlat _ Hstate]. rewrite Hg in *.
  rewrite orb_false_r in Hlat. rewrite andb_true_r.
  split_and!; [done|done| | | | |].
  - destruct recovery; split; done.
  - by destruct recovery.
  - by destruct recovery.
  - intros -> Hlen. unfold bzm_supervisor_safe_off_verified, off_safe_stage_good. cbn.
    rewrite Hi1, Hen, Hfin, Hg, Hstate. cbn. rewrite Hstg.
    rewrite list_lookup_insert_eq by done. cbn. rewrite Hg. by destruct (fault_latched s).
  - intros Hne. unfold recovery. rewrite Hne, andb_false_r. split; [exact Hver|].
    unfold off_safe_stage_good. cbn. by rewrite Hstg.
Qed.

Lemma prepare_restart_good s w :
  core_ok s -> maintenance_owner (owner s) = false -> is_good (off w).1 = true ->
  (bzm_supervisor_prepare_restart off s w).1.1 = off_safe_stage_good (report s).
Proof.
  intros Hc Hm Hg. unfold bzm_supervisor_prepare_restart, bzm_supervisor_stop, io_bind.
  rewrite (core_initialized _ Hc), Hm. cbn [negb orb].
  destruct (stop_internal_stopped off s (Some "ESP restart requested") false w Hc)
    as (s1 & -> & Hst); [by right|]. rewrite Hg, (verified_after_stop _ _ _ Hst Hg).
  by destruct (off_safe_stage_good (report s)).
Qed.

Lemma verified_stage_good s :
  bzm_supervisor_safe_off_verified s = true -> off_safe_stage_good (report s) = true.
Proof. unfold bzm_supervisor_safe_off_verified. intros H. by prop_bool. Qed.

Lemma block_report_stage s target d :
  off_safe_stage_good (report (block_report s target d)) = false.
Proof.
  unfold off_safe_stage_good. change (stages (report (block_report s target d))) with
    (<[Z.to_nat target := bzm_validation_result BZM_CHECK_BLOCKED
         BZM_VALIDATION_CODE_PREREQUISITE_FAILED (Some d)]> (replicate 8 zero_result)).
  by destruct (Z.to_nat target).
Qed.

(** C33: Blank-bridge recovery: releasing the recovery lease with a verified
    safe-off leaves a verified supervisor with the fault still latched, as
    the restart that follows needs; but a validation request that is rejected
    during the recovery overwrites the unverified-shutdown state the release
    looks for, so the same release then leaves the safe-off unverified and
    the restart is refused. *)
Theorem supervisor_recovery_proof_lost s w target arm hold lease now :
  initialized s = true -> fault_latched s = negb (fault_code s =? 0) ->
  owner s = BZM_SUPERVISOR_OWNER_BRIDGE_UPDATE ->
  fault_latched s = true -> state (report s) = BZM_VALIDATION_SHUTDOWN_UNVERIFIED ->
  length (stages (report s)) = 8%nat -> valid_stage target = true ->
  (forall v, is_good (off v).1 = true) ->
  let released := (bzm_supervisor_release_maintenance off s BZM_SUPERVISOR_OWNER_BRIDGE_UPDATE w).1 in
  let requested := (bzm_supervisor_request_validation run off s target arm hold lease now w).1 in
  let released' :=
    (bzm_supervisor_release_maintenance off requested.2 BZM_SUPERVISOR_OWNER_BRIDGE_UPDATE w).1 in
  released.1 = true /\ bzm_supervisor_safe_off_verified released.2 = true /\
  fault_latched released.2 = true /\
  (bzm_supervisor_prepare_restart off released.2 w).1.1 = true /\
  requested.1 = false /\ released'.1 = true /\
  bzm_supervisor_safe_off_verified released'.2 = false /\
  (bzm_supervisor_prepare_restart off released'.2 w).1.1 = false.
Proof.
  intros Hi Hcode Ho Hl Hst Hlen Hv Hoff. cbn zeta. assert (Hc : core_ok s) by done.
  pose proof (release_good s w Hc) as Hrel. rewrite Ho in Hrel.
  specialize (Hrel eq_refl (Hoff w)).
  destruct (bzm_supervisor_release_maintenance off s _ w) as [[ok s1] w1].
  destruct Hrel as (-> & -> & Hc1 & Ho1 & Hl1 & Hver & _). rewrite Hl, Hst in Hver.
  specialize (Hver eq_refl ltac:(lia)). cbn [fst snd].
  unfold bzm_supervisor_request_validation. rewrite Hi, Hv, Ho. cbn [negb orb maintenance_owner].
  set (blocked_s := block_report s target _). cbn [io_ret fst snd].
  pose proof (release_good blocked_s w (block_report_core s target _ Hc)) as Hrel2.
  change (owner blocked_s) with (owner s) in Hrel2. rewrite Ho in Hrel2.
  specialize (Hrel2 eq_refl (Hoff w)).
  destruct (bzm_supervisor_release_maintenance off blocked_s _ w) as [[ok2 s2] w2].
  destruct Hrel2 as (-> & _ & Hc2 & Ho2 & _ & _ & Hver2). destruct (Hver2 eq_refl) as [Hv2 Hs2].
  split_and!; try done.
  - congruence.
  - rewrite (prepare_restart_good s1 w Hc1) by (by rewrite ?Ho1). by apply verified_stage_good.
  - cbn. rewrite Hv2. apply block_report_stage.
  - cbn [fst snd]. rewrite (prepare_restart_good s2 w Hc2) by (by rewrite ?Ho2). rewrite Hs2. apply block_report_stage.
Qed.
End properties.

(** ** A concrete supervisor *)

Module Demo.
Definition good : bzm_stage_result_t :=
  bzm_validation_result BZM_CHECK_GOOD BZM_VALIDATION_CODE_STAGE_OK None.
Definition bad : bzm_stage_result_t :=
  bzm_validation_result BZM_CHECK_BAD BZM_VALIDATION_CODE_STAGE_FAILED (Some "no reply").
Definition run (_ : Z) : io unit bzm_stage_result_t := io_ret good.
Definition off : io unit bzm_stage_result_t := io_ret good.
Definition off_bad : io unit bzm_stage_result_t := io_ret bad.
Definition cfg : bzm_supervisor_config_t :=
  {| cfg_build_max_stage := BZM_STAGE_RUNNING; cfg_implemented_max_stage := BZM_STAGE_RUNNING;
     cfg_powered_stages_compiled := true; cfg_production_mode := true;
     cfg_independent_kill_available := false; cfg_allow_esp_only_kill_in_lab := false;
     cfg_board_managed_safety := true; maximum_lease_ms := 30000 |}.

Definition init_state : bzm_supervisor_t :=
  default (mk_supervisor cfg zero_report BZM_SUPERVISOR_OWNER_NONE 0 0 false false 0 "")
    (bzm_supervisor_init (Some cfg) (traced_ops run off)).

Definition apply (off : io unit bzm_stage_result_t) (op : supervisor_op)
    (x : bzm_supervisor_t * (unit * list validation_event)) :=
  let '((_, s'), wl') := apply_op (traced_run run) (traced_off off) op (fst x) (snd x) in (s', wl').

(** Mining from time 1000 with a lease of 10 s. *)
Definition mining := Eval vm_compute in
  apply off (RequestValidation BZM_STAGE_RUNNING true true 10000 1000) (init_state, (tt, [])).
(** The lease has run out and the tick has shut the hardware down. *)
Definition expired := Eval vm_compute in apply off (Tick 11000) mining.
(** A fault latched while mining, after a verified shutdown. *)
Definition latched := Eval vm_compute in apply off (LatchFault 77 (Some "over temperature")) mining.
Definition maintained := Eval vm_compute in
  apply off (AcquireMaintenance BZM_SUPERVISOR_OWNER_ESP_OTA 2000) mining.
(** A safe-off that does not verify, then blank-bridge recovery. *)
Definition recovering := Eval vm_compute in
  apply off_bad AcquireBridgeRecovery (apply off_bad (Stop None) (init_state, (tt, []))).

Lemma init_reachable : system_reachable run off (init_state, (tt, [])).
Proof. exists (init_state, (tt, [])). split; [by apply system_init_intro with cfg|apply rtc_refl]. Qed.

Lemma apply_reachable op x :
  system_reachable run off x -> system_reachable run off (apply off op x).
Proof.
  intros (x0 & H0 & Hr). exists x0. split; [done|]. eapply rtc_r; [exact Hr|].
  unfold apply. destruct x as [s wl]. cbn.
  destruct (apply_op _ _ op s wl) as [[b s'] wl'] eqn:Heq.
  by apply (system_step_intro run off op _ _ b).
Qed.

Lemma mining_reachable : system_reachable run off mining.
Proof.
  replace mining with
    (apply off (RequestValidation BZM_STAGE_RUNNING true true 10000 1000) (init_state, (tt, [])))
    by (by vm_compute). apply apply_reachable, init_reachable.
Qed.
Lemma expired_reachable : system_reachable run off expired.
Proof.
  replace expired with (apply off (Tick 11000) mining) by (by vm_compute).
  apply apply_reachable, mining_reachable.
Qed.
Lemma latched_reachable : system_reachable run off latched.
Proof.
  replace latched with (apply off (LatchFault 77 (Some "over temperature")) mining)
    by (by vm_compute). apply apply_reachable, mining_reachable.
Qed.

Lemma supervisor_dispatch_after_full_bringup_witness :
  bzm_supervisor_dispatch_allowed mining.1 5000 = true /\
  (energized_by mining.2.2 BZM_STAGE_RUNNING /\ fault_latched mining.1 = false /\
   owner mining.1 = BZM_SUPERVISOR_OWNER_MINING /\ 5000 < lease_deadline_ms mining.1).
Proof.
  split; [reflexivity|].
  apply (supervisor_dispatch_after_full_bringup run off mining.1 tt mining.2.2 5000);
    [exact mining_reachable|reflexivity].
Defined.

Lemma supervisor_verified_off_is_off_witness :
  bzm_supervisor_safe_off_verified expired.1 = true /\
  (ends_safe expired.2.2 /\ energized (report expired.1) = false /\
   active_owner (owner expired.1) = false /\
   forall now, bzm_supervisor_dispatch_allowed expired.1 now = false).
Proof.
  split; [reflexivity|].
  apply (supervisor_verified_off_is_off run off expired.1 tt expired.2.2);
    [exact expired_reachable|reflexivity].
Defined.

Lemma supervisor_latched_fault_confines_witness :
  fault_latched latched.1 = true /\
  exists b s' w' ev,
    apply_op (traced_run run) (traced_off off)
      (RequestValidation BZM_STAGE_RUNNING true true 10000 20000) latched.1 (tt, latched.2.2) =
      ((b, s'), (w', latched.2.2 ++ ev)) /\
    Forall off_safe_event ev /\
    (fault_latched s' = true \/
     bzm_supervisor_safe_off_verified s' = true /\ ends_safe (latched.2.2 ++ ev)).
Proof.
  split; [reflexivity|].
  apply (supervisor_latched_fault_confines run off _ latched.1 tt latched.2.2);
    [exact latched_reachable|reflexivity].
Defined.

Lemma supervisor_maintenance_exclusive_witness :
  maintenance_owner (owner maintained.1) = true /\
  let '((_, s'), w') := apply_op run off
    (RequestValidation BZM_STAGE_RUNNING true true 10000 3000) maintained.1 tt in
  (owner s' = owner maintained.1 /\ w' = tt) \/
  (owner s' = BZM_SUPERVISOR_OWNER_NONE /\ w' = (off tt).2 /\
   (RequestValidation BZM_STAGE_RUNNING true true 10000 3000 =
      ReleaseMaintenance (owner maintained.1) \/
    exists c d, RequestValidation BZM_STAGE_RUNNING true true 10000 3000 = LatchFault c d)).
Proof.
  split; [reflexivity|].
  apply (supervisor_maintenance_exclusive run off _ maintained.1 tt); reflexivity.
Defined.

Lemma supervisor_lease_expiry_witness :
  lease_deadline_ms mining.1 <= 11000 /\
  (bzm_supervisor_heartbeat mining.1 500 11000 = (false, mining.1) /\
   bzm_supervisor_dispatch_allowed mining.1 11000 = false /\
   let '((ok, s'), w') := bzm_supervisor_tick off_bad mining.1 11000 tt in
   w' = (off_bad tt).2 /\ ok = is_good (off_bad tt).1 /\
   owner s' = BZM_SUPERVISOR_OWNER_NONE /\ lease_deadline_ms s' = 0 /\
   fault_latched s' = fault_latched mining.1 || negb ok /\
   forall later, bzm_supervisor_dispatch_allowed s' later = false).
Proof.
  split; [by vm_compute|].
  apply (supervisor_lease_expiry off_bad mining.1 tt 11000 500); by vm_compute.
Defined.

Lemma supervisor_recovery_proof_lost_witness :
  fault_latched recovering.1 = true /\
  let released := (bzm_supervisor_release_maintenance off recovering.1
                     BZM_SUPERVISOR_OWNER_BRIDGE_UPDATE tt).1 in
  let requested := (bzm_supervisor_request_validation run off recovering.1
                      BZM_STAGE_RUNNING true true 10000 3000 tt).1 in
  let released' := (bzm_supervisor_release_maintenance off requested.2
                      BZM_SUPERVISOR_OWNER_BRIDGE_UPDATE tt).1 in
  released.1 = true /\ bzm_supervisor_safe_off_verified released.2 = true /\
  fault_latched released.2 = true /\
  (bzm_supervisor_prepare_restart off released.2 tt).1.1 = true /\
  requested.1 = false /\ released'.1 = true /\
  bzm_supervisor_safe_off_verified released'.2 = false /\
  (bzm_supervisor_prepare_restart off released'.2 tt).1.1 = false.
Proof.
  split; [reflexivity|].
  apply (supervisor_recovery_proof_lost run off recovering.1 tt); try reflexivity.
Defined.
End Demo.
