(* ===== verification/FrameParser.v ===== *)
(** * The TDM frame parser

    Models src/components/asic/bzm_frame_parser.c and its header: the byte
    stream of the ASIC chain is cut into frames, a byte whose position cannot
    start a frame is discarded, and a register response is recognised only
    while its length is registered.  The buffer and the discard trace are the
    fixed arrays of the code; the handler is the caller's callback, a state
    transformer of its context [C] that does not touch the parser.  A [NULL]
    parser, which every function rejects, is not modelled. *)

From S2P Require Import Prelude Topology.

(** ** Data *)

Definition BZM_BROADCAST_ASIC : Z := 0xfa.
Definition BZM_RESULT_FRAME_SIZE : nat := 8.
Definition BZM_TDM_HEADER_SIZE : nat := 2.
Definition BZM_TDM_BROADCAST_ASIC_ID : Z := BZM_BROADCAST_ASIC.
Definition BZM_TDM_TELEMETRY_PAYLOAD_SIZE : nat := 8.
Definition BZM_TDM_NOOP_PAYLOAD_SIZE : nat := 3.
Definition BZM_TDM_MAX_REGISTER_PAYLOAD_SIZE : nat := 32.
Definition BZM_TDM_MAX_FRAME_SIZE : nat := BZM_TDM_HEADER_SIZE + BZM_TDM_MAX_REGISTER_PAYLOAD_SIZE.
Definition BZM_FRAME_PARSER_DISCARD_TRACE_SIZE : nat := 16.

Definition BZM_FRAME_RESULT : Z := 0x01.
Definition BZM_FRAME_REGISTER : Z := 0x03.
Definition BZM_FRAME_TELEMETRY : Z := 0x0d.
Definition BZM_FRAME_NOOP : Z := 0x0f.

Record bzm_frame_t := mk_frame {
  type : Z;
  asic_id : Z;
  payload : list Z;
  payload_length : nat;
  timestamp_us : Z;
}.

Record bzm_frame_parser_t (C : Type) := mk_frame_parser {
  buffer : list Z;
  buffered_length : nat;
  expected_register_length : list nat;
  handler : option (C -> bzm_frame_t -> C);
  handler_context : C;
  emitted_frames : Z;
  discarded_bytes : Z;
  emitted_frames_at_last_discard : Z;
  unexpected_register_headers : Z;
  discard_trace : list Z;
  discard_trace_next : nat;
  discard_trace_length : nat;
}.
Arguments mk_frame_parser {C}.
Arguments buffer {C}.
Arguments buffered_length {C}.
Arguments expected_register_length {C}.
Arguments handler {C}.
Arguments handler_context {C}.
Arguments emitted_frames {C}.
Arguments discarded_bytes {C}.
Arguments emitted_frames_at_last_discard {C}.
Arguments unexpected_register_headers {C}.
Arguments discard_trace {C}.
Arguments discard_trace_next {C}.
Arguments discard_trace_length {C}.
#[export] Instance bzm_frame_parser_t_eta {C} : Eta (bzm_frame_parser_t C) :=
  fun p => mk_frame_parser (buffer p) (buffered_length p) (expected_register_length p)
    (handler p) (handler_context p) (emitted_frames p) (discarded_bytes p)
    (emitted_frames_at_last_discard p) (unexpected_register_headers p)
    (discard_trace p) (discard_trace_next p) (discard_trace_length p).

(** ** Operations *)

Definition valid_wire_asic_id (id : Z) : bool :=
  bool_decide (is_Some (bzm_topology_asic_index id)) || (id =? BZM_TDM_BROADCAST_ASIC_ID).

Section parser.
Context {C : Type}.
Abbreviation parser_t := (bzm_frame_parser_t C).

Definition bzm_frame_parser_init (h : option (C -> bzm_frame_t -> C)) (context : C) : parser_t :=
  {| buffer := replicate BZM_TDM_MAX_FRAME_SIZE 0; buffered_length := 0;
     expected_register_length := replicate 4 0%nat; handler := h; handler_context := context;
     emitted_frames := 0; discarded_bytes := 0; emitted_frames_at_last_discard := 0;
     unexpected_register_headers := 0;
     discard_trace := replicate BZM_FRAME_PARSER_DISCARD_TRACE_SIZE 0;
     discard_trace_next := 0; discard_trace_length := 0 |}.

Definition expected_at (p : parser_t) (index : nat) : nat :=
  nth index (expected_register_length p) 0%nat.

Definition bzm_frame_parser_expect_register (p : parser_t) (id : Z) (length : nat)
    : bool * parser_t :=
  match bzm_topology_asic_index id with
  | Some index =>
      if (length =? 0)%nat || (BZM_TDM_MAX_REGISTER_PAYLOAD_SIZE <? length)%nat ||
         negb (expected_at p index =? 0)%nat
      then (false, p)
      else (true, p <| expected_register_length := <[index := length]> (expected_register_length p) |>)
  | None => (false, p)
  end.

Definition bzm_frame_parser_cancel_register (p : parser_t) (id : Z) : bool * parser_t :=
  match bzm_topology_asic_index id with
  | Some index =>
      if (expected_at p index =? 0)%nat then (false, p)
      else (true, p <| expected_register_length := <[index := 0%nat]> (expected_register_length p) |>)
  | None => (false, p)
  end.

(** [memmove] of the bytes behind the prefix to the front of the buffer. *)
Definition discard_prefix (p : parser_t) (count : nat) : parser_t :=
  let kept := (buffered_length p - count)%nat in
  let p :=
    if (count <? buffered_length p)%nat then
      p <| buffer := take kept (drop count (buffer p)) ++ drop kept (buffer p) |>
    else p in
  p <| buffered_length := kept |>.

Definition record_discard (p : parser_t) (value : Z) : parser_t :=
  p <| emitted_frames_at_last_discard := emitted_frames p;
       discard_trace := <[discard_trace_next p := value]> (discard_trace p);
       discard_trace_next :=
         ((discard_trace_next p + 1) mod BZM_FRAME_PARSER_DISCARD_TRACE_SIZE)%nat;
       discard_trace_length :=
         if (discard_trace_length p <? BZM_FRAME_PARSER_DISCARD_TRACE_SIZE)%nat
         then (discard_trace_length p + 1)%nat else discard_trace_length p |>.

Definition count_unexpected (p : parser_t) : parser_t :=
  p <| unexpected_register_headers := u32 (unexpected_register_headers p + 1) |>.

(** [None]: no valid header, or none yet. *)
Definition expected_frame_length (p : parser_t) : option nat * parser_t :=
  if (buffered_length p <? BZM_TDM_HEADER_SIZE)%nat then (None, p)
  else
    let id := byte_at (buffer p) 0 in
    let kind := byte_at (buffer p) 1 in
    if negb (valid_wire_asic_id id) then (None, p)
    else if kind =? BZM_FRAME_RESULT then
      (Some (BZM_TDM_HEADER_SIZE + BZM_RESULT_FRAME_SIZE)%nat, p)
    else if kind =? BZM_FRAME_REGISTER then
      match bzm_topology_asic_index id with
      | None => (None, count_unexpected p)
      | Some index =>
          let length := expected_at p index in
          if (length =? 0)%nat then (None, count_unexpected p)
          else (Some (BZM_TDM_HEADER_SIZE + length)%nat, p)
      end
    else if kind =? BZM_FRAME_TELEMETRY then
      (Some (BZM_TDM_HEADER_SIZE + BZM_TDM_TELEMETRY_PAYLOAD_SIZE)%nat, p)
    else if kind =? BZM_FRAME_NOOP then
      (Some (BZM_TDM_HEADER_SIZE + BZM_TDM_NOOP_PAYLOAD_SIZE)%nat, p)
    else (None, p).

(** Drop the first buffered byte and account for it. *)
Definition discard_first (p : parser_t) : parser_t :=
  let p := discard_prefix (record_discard p (byte_at (buffer p) 0)) 1 in
  p <| discarded_bytes := u32 (discarded_bytes p + 1) |>.

Definition frame_at_front (p : parser_t) (frame_length : nat) (ts : Z) : bzm_frame_t :=
  let length := (frame_length - BZM_TDM_HEADER_SIZE)%nat in
  {| type := byte_at (buffer p) 1; asic_id := byte_at (buffer p) 0;
     payload := take length (drop BZM_TDM_HEADER_SIZE (buffer p)) ++
                replicate (BZM_TDM_MAX_REGISTER_PAYLOAD_SIZE - length) 0;
     payload_length := length; timestamp_us := ts |}.

Definition deliver (p : parser_t) (frame : bzm_frame_t) : parser_t :=
  let p := p <| emitted_frames := u32 (emitted_frames p + 1) |> in
  match handler p with
  | Some h => p <| handler_context := h (handler_context p) frame |>
  | None => p
  end.

(** One iteration of the parse loop. *)
Inductive parse_step_t :=
| ParseStop (p : parser_t)
| ParseDiscard (p : parser_t)
| ParseSkip (p : parser_t)
| ParseEmit (p : parser_t).

Definition parse_step (p : parser_t) (ts : Z) : parse_step_t :=
  if (buffered_length p <? BZM_TDM_HEADER_SIZE)%nat then ParseStop p
  else
    match expected_frame_length p with
    | (None, p) => ParseDiscard (discard_first p)
    | (Some frame_length, p) =>
        if (buffered_length p <? frame_length)%nat then ParseStop p
        else
          let frame := frame_at_front p frame_length ts in
          let p := discard_prefix p frame_length in
          if type frame =? BZM_FRAME_REGISTER then
            match bzm_topology_asic_index (asic_id frame) with
            | None => ParseSkip p
            | Some index =>
                ParseEmit (deliver
                  (p <| expected_register_length := <[index := 0%nat]> (expected_register_length p) |>)
                  frame)
            end
          else ParseEmit (deliver p frame)
    end.

Fixpoint parse_loop (fuel : nat) (p : parser_t) (ts : Z) (emitted : nat) : option (nat * parser_t) :=
  match fuel with
  | O => None
  | S fuel =>
      match parse_step p ts with
      | ParseStop p => Some (emitted, p)
      | ParseDiscard p | ParseSkip p => parse_loop fuel p ts emitted
      | ParseEmit p => parse_loop fuel p ts (S emitted)
      end
  end.

(** Every iteration consumes a byte: [S (buffered_length p)] iterations are
    enough ([parse_buffer_total]). *)
Definition parse_buffer (p : parser_t) (ts : Z) : option (nat * parser_t) :=
  parse_loop (S (buffered_length p)) p ts 0.

Definition push_byte (p : parser_t) (b : Z) : parser_t :=
  let p := if (buffered_length p =? BZM_TDM_MAX_FRAME_SIZE)%nat then discard_first p else p in
  p <| buffer := <[buffered_length p := b]> (buffer p);
       buffered_length := (buffered_length p + 1)%nat |>.

Fixpoint feed_loop (p : parser_t) (data : list Z) (ts : Z) (emitted : nat)
    : option (nat * parser_t) :=
  match data with
  | [] => Some (emitted, p)
  | b :: data =>
      match parse_buffer (push_byte p b) ts with
      | Some (n, p) => feed_loop p data ts (emitted + n)
      | None => None
      end
  end.

Definition bzm_frame_parser_feed (p : parser_t) (data : list Z) (ts : Z)
    : option (nat * parser_t) :=
  feed_loop p data ts 0.

Definition bzm_frame_parser_pending_bytes (p : parser_t) : nat := buffered_length p.

Definition bzm_frame_parser_recent_discards (p : parser_t) (capacity : nat) : list Z :=
  let length := Nat.min (discard_trace_length p) capacity in
  let oldest := ((discard_trace_next p + BZM_FRAME_PARSER_DISCARD_TRACE_SIZE -
                  discard_trace_length p) mod BZM_FRAME_PARSER_DISCARD_TRACE_SIZE)%nat in
  let skip := (discard_trace_length p - length)%nat in
  (fun index => byte_at (discard_trace p)
     ((oldest + skip + index) mod BZM_FRAME_PARSER_DISCARD_TRACE_SIZE)%nat) <$> seq 0 length.
End parser.

(** ** Specification: the events a byte stream is cut into *)

(** The protocol's payload sizes, with registers only while expected. *)
Definition payload_size (expected : list nat) (id kind : Z) : option nat :=
  if negb (valid_wire_asic_id id) then None
  else if kind =? BZM_FRAME_RESULT then Some 8%nat
  else if kind =? BZM_FRAME_TELEMETRY then Some 8%nat
  else if kind =? BZM_FRAME_NOOP then Some 3%nat
  else if kind =? BZM_FRAME_REGISTER then
    match bzm_topology_asic_index id with
    | Some i => match nth i expected 0%nat with O => None | n => Some n end
    | None => None
    end
  else None.

Inductive wire_event := WDiscard (b : Z) | WFrame (f : bzm_frame_t).

Definition frame_wire (f : bzm_frame_t) : list Z :=
  asic_id f :: type f :: take (payload_length f) (payload f).
Definition wire_of (e : wire_event) : list Z :=
  match e with WDiscard b => [b] | WFrame f => frame_wire f end.
Definition frames (evs : list wire_event) : list bzm_frame_t :=
  omap (fun e => match e with WFrame f => Some f | _ => None end) evs.
Definition discards (evs : list wire_event) : list Z :=
  omap (fun e => match e with WDiscard b => Some b | _ => None end) evs.

(** A frame that is acceptable while the registers [expected] are awaited, and
    the registers awaited after it. *)
Definition frame_accepted (expected : list nat) (f : bzm_frame_t) : Prop :=
  payload_size expected (asic_id f) (type f) = Some (payload_length f) /\
  (payload_length f <= 32)%nat /\ length (payload f) = 32%nat /\
  drop (payload_length f) (payload f) = replicate (32 - payload_length f) 0.
Definition after_frame (expected : list nat) (f : bzm_frame_t) : list nat :=
  if type f =? BZM_FRAME_REGISTER then
    match bzm_topology_asic_index (asic_id f) with
    | Some i => <[i := 0%nat]> expected
    | None => expected
    end
  else expected.
Fixpoint all_accepted (expected : list nat) (fs : list bzm_frame_t) : Prop :=
  match fs with
  | [] => True
  | f :: fs => frame_accepted expected f /\ all_accepted (after_frame expected f) fs
  end.

Section parser_spec.
Context {C : Type}.
Abbreviation parser_t := (bzm_frame_parser_t C).

Definition pending (p : parser_t) : list Z := take (buffered_length p) (buffer p).

Record parser_ok (p : parser_t) : Prop := {
  ok_buffer : length (buffer p) = 34%nat;
  ok_buffered : (buffered_length p <= 34)%nat;
  ok_expected : length (expected_register_length p) = 4%nat;
  ok_expected_max : Forall (fun n => (n <= 32)%nat) (expected_register_length p);
  ok_trace : length (discard_trace p) = 16%nat;
}.

(** The trace holds the last 16 of the bytes [h] discarded so far. *)
Definition ring_ok (p : parser_t) (h : list Z) : Prop :=
  length (discard_trace p) = 16%nat /\
  discard_trace_next p = (length h mod 16)%nat /\
  discard_trace_length p = Nat.min 16 (length h) /\
  forall i, (i < length h)%nat -> (length h <= i + 16)%nat ->
    discard_trace p !! (i mod 16)%nat = h !! i.

Definition handle (h : option (C -> bzm_frame_t -> C)) (c : C) (f : bzm_frame_t) : C :=
  match h with Some h => h c f | None => c end.

(** The parser [p], given [data], has cut off the events [evs]. *)
Record fed (p : parser_t) (data : list Z) (ts : Z) (evs : list wire_event) (p' : parser_t) : Prop := {
  fed_stream : pending p ++ data = concat (wire_of <$> evs) ++ pending p';
  fed_ok : parser_ok p';
  fed_handler : handler p' = handler p;
  fed_context : handler_context p' = foldl (handle (handler p)) (handler_context p) (frames evs);
  fed_emitted : u32 (emitted_frames p') = u32 (emitted_frames p + Z.of_nat (length (frames evs)));
  fed_discarded : u32 (discarded_bytes p') = u32 (discarded_bytes p + Z.of_nat (length (discards evs)));
  fed_expected : expected_register_length p' = foldl after_frame (expected_register_length p) (frames evs);
  fed_accepted : all_accepted (expected_register_length p) (frames evs);
  fed_timestamps : Forall (fun f => timestamp_us f = ts) (frames evs);
  fed_ring : forall h, ring_ok p h -> ring_ok p' (h ++ discards evs);
}.

(** *** Composition *)

Lemma frames_app e1 e2 : frames (e1 ++ e2) = frames e1 ++ frames e2.
Proof. apply omap_app. Qed.
Lemma discards_app e1 e2 : discards (e1 ++ e2) = discards e1 ++ discards e2.
Proof. apply omap_app. Qed.

Lemma all_accepted_app exp f1 f2 :
  all_accepted exp f1 -> all_accepted (foldl after_frame exp f1) f2 -> all_accepted exp (f1 ++ f2).
Proof. revert exp. induction f1 as [|f f1 IH]; cbn; [done|]. intros exp [? ?] ?. auto. Qed.

Lemma u32_add_l x y z : u32 x = u32 y -> u32 (x + z) = u32 (y + z).
Proof.
  intros H. unfold u32 in *. rewrite <- (wrap_add_l 32 x), H. apply wrap_add_l.
Qed.

Lemma fed_refl p ts : parser_ok p -> fed p [] ts [] p.
Proof.
  intros H. split; cbn; try done; rewrite ?app_nil_r, ?Z.add_0_r; try done.
  intros h. by rewrite app_nil_r.
Qed.

Lemma fed_trans p d1 ts e1 p1 d2 e2 p2 :
  fed p d1 ts e1 p1 -> fed p1 d2 ts e2 p2 -> fed p (d1 ++ d2) ts (e1 ++ e2) p2.
Proof.
  intros [S1 O1 H1 C1 M1 D1 X1 A1 T1 R1] [S2 O2 H2 C2 M2 D2 X2 A2 T2 R2].
  split; rewrite ?frames_app, ?discards_app; try done.
  - by rewrite fmap_app, concat_app, app_assoc, S1, <- app_assoc, S2, app_assoc.
  - congruence.
  - by rewrite foldl_app, C2, C1, H1.
  - rewrite M2, length_app, Nat2Z.inj_add, Z.add_assoc. by apply u32_add_l.
  - rewrite D2, length_app, Nat2Z.inj_add, Z.add_assoc. by apply u32_add_l.
  - by rewrite X2, X1, foldl_app.
  - apply all_accepted_app; [done|]. by rewrite <- X1.
  - by apply Forall_app.
  - intros h Hh. rewrite app_assoc. by apply R2, R1.
Qed.

(** *** The buffer *)

Lemma pending_length p : parser_ok p -> length (pending p) = buffered_length p.
Proof. intros []. unfold pending. rewrite length_take. lia. Qed.

Lemma discard_prefix_pending p n :
  parser_ok p -> (n <= buffered_length p)%nat ->
  pending (discard_prefix p n) = drop n (pending p) /\ parser_ok (discard_prefix p n).
Proof.
  intros Hok Hn. pose proof Hok as []. unfold discard_prefix, pending.
  destruct (Nat.ltb_spec n (buffered_length p)); cbn.
  - split.
    + rewrite take_app_le by (rewrite length_take, length_drop; lia).
      rewrite take_take, Nat.min_id, skipn_firstn_comm. done.
    + split; cbn; try done; [|lia].
      rewrite length_app, length_take, !length_drop. lia.
  - split.
    + replace (buffered_length p - n)%nat with 0%nat by lia.
      rewrite drop_ge; [done|]. rewrite length_take. lia.
    + split; cbn; try done. lia.
Qed.

Lemma pending_head p b l : pending p = b :: l -> byte_at (buffer p) 0 = b.
Proof.
  unfold pending, byte_at. destruct (buffered_length p), (buffer p); cbn; try done. by intros [= -> _].
Qed.

Lemma pending_second p a b l : pending p = a :: b :: l -> byte_at (buffer p) 1 = b.
Proof.
  unfold pending, byte_at.
  destruct (buffered_length p) as [|[|n]], (buffer p) as [|x [|y t]]; cbn; try done.
  by intros [= _ -> _].
Qed.

Lemma push_byte_room (p : parser_t) b :
  (buffered_length p <= 33)%nat ->
  push_byte p b = p <| buffer := <[buffered_length p := b]> (buffer p);
                       buffered_length := (buffered_length p + 1)%nat |>.
Proof.
  intros H. unfold push_byte. change BZM_TDM_MAX_FRAME_SIZE with 34%nat.
  by rewrite (proj2 (Nat.eqb_neq _ _)) by lia.
Qed.

Lemma pending_push p b :
  parser_ok p -> (buffered_length p <= 33)%nat ->
  pending (push_byte p b) = pending p ++ [b] /\ parser_ok (push_byte p b) /\
  buffered_length (push_byte p b) = S (buffered_length p).
Proof.
  intros [] Hb. rewrite push_byte_room by done.
  unfold pending. cbn. rewrite Nat.add_1_r. split_and!; [| |done].
  - rewrite take_S_r with (x := b); [by rewrite take_insert_ge by lia|].
    apply list_lookup_insert_eq. lia.
  - split; cbn; rewrite ?length_insert; try done. lia.
Qed.

Lemma fed_push p b ts :
  parser_ok p -> (buffered_length p <= 33)%nat -> fed p [b] ts [] (push_byte p b).
Proof.
  intros Hok Hb. destruct (pending_push p b Hok Hb) as (Hp & Hok' & _).
  rewrite push_byte_room in * by done.
  split; try done; cbn; rewrite ?Z.add_0_r; try done. intros h. by rewrite app_nil_r.
Qed.

(** *** One step *)

Lemma ring_record (p : parser_t) h b :
  ring_ok p h -> ring_ok (record_discard p b) (h ++ [b]).
Proof.
  intros (Hl & Hn & Ht & Hr). unfold ring_ok, record_discard.
  cbn [set_field discard_trace discard_trace_next discard_trace_length].
  change BZM_FRAME_PARSER_DISCARD_TRACE_SIZE with 16%nat.
  rewrite length_insert, length_app, Hn, Ht. cbn [length]. split_and!; [done| | |].
  - change (((length h mod 16 + 1) mod 16)%nat = ((length h + 1) mod 16)%nat).
    by rewrite Nat.Div0.add_mod_idemp_l.
  - destruct (Nat.ltb_spec (16 `min` length h) 16); lia.
  - intros i Hi Hi16. destruct (decide (i = length h)) as [->|Hne].
    + rewrite list_lookup_insert_eq by (rewrite Hl; apply Nat.mod_upper_bound; lia).
      by rewrite lookup_app_r, Nat.sub_diag by lia.
    + rewrite list_lookup_insert_ne.
      * rewrite lookup_app_l by lia. apply Hr; lia.
      * intros Heq. assert (length h = i + 16 * ((length h - i) / 16))%nat.
        { pose proof (Nat.div_mod_eq (length h) 16). pose proof (Nat.div_mod_eq i 16).
          pose proof (Nat.mod_upper_bound i 16). lia. }
        lia.
Qed.

Lemma expected_frame_length_spec (p : parser_t) :
  (2 <= buffered_length p)%nat ->
  match payload_size (expected_register_length p) (byte_at (buffer p) 0) (byte_at (buffer p) 1) with
  | Some n => expected_frame_length p = (Some (2 + n)%nat, p)
  | None => expected_frame_length p = (None, p) \/ expected_frame_length p = (None, count_unexpected p)
  end.
Proof.
  intros Hb. unfold expected_frame_length, payload_size, expected_at.
  change BZM_TDM_HEADER_SIZE with 2%nat. rewrite (proj2 (Nat.ltb_ge _ _)) by lia.
  destruct (negb (valid_wire_asic_id _)); [by left|].
  generalize (byte_at (buffer p) 1) as k, (bzm_topology_asic_index (byte_at (buffer p) 0)) as o.
  intros k o.
  destruct (Z.eqb_spec k BZM_FRAME_RESULT) as [->|H1]; [done|].
  destruct (Z.eqb_spec k BZM_FRAME_REGISTER) as [->|H2].
  - unfold BZM_FRAME_REGISTER, BZM_FRAME_RESULT, BZM_FRAME_TELEMETRY, BZM_FRAME_NOOP. cbn.
    destruct o as [i|]; [|by right].
    destruct (nth i (expected_register_length p) 0%nat); [by right|done].
  - destruct (Z.eqb_spec k BZM_FRAME_TELEMETRY); [done|].
    destruct (Z.eqb_spec k BZM_FRAME_NOOP); [done|by left].
Qed.

Lemma payload_size_max expected id k n :
  Forall (fun n => (n <= 32)%nat) expected -> payload_size expected id k = Some n -> (n <= 32)%nat.
Proof.
  intros Hm. unfold payload_size. repeat (case_match; try done; try (intros [= <-]; lia)).
  all: intros [= <-]. rewrite Forall_lookup in Hm.
  match goal with E : nth ?i _ _ = S ?m |- _ =>
    destruct (nth_lookup_or_length expected i 0%nat) as [Hx|Hx]; [rewrite E in Hx; eauto|] end.
  match goal with E : nth ?i _ _ = S ?m |- _ => rewrite nth_overflow in E by done end. done.
Qed.

Lemma payload_size_register expected id n :
  payload_size expected id BZM_FRAME_REGISTER = Some n ->
  exists i, bzm_topology_asic_index id = Some i /\ nth i expected 0%nat = n /\ n ≠ 0%nat.
Proof.
  unfold payload_size. destruct (negb _); [done|]. generalize (bzm_topology_asic_index id) as o.
  unfold BZM_FRAME_REGISTER, BZM_FRAME_RESULT, BZM_FRAME_TELEMETRY, BZM_FRAME_NOOP. cbn.
  intros [i|]; [|done]. destruct (nth i expected 0%nat) eqn:Hi; [done|]. intros [= <-]. by exists i.
Qed.

Lemma fed_discard (p : parser_t) ts :
  parser_ok p -> (2 <= buffered_length p)%nat ->
  fed p [] ts [WDiscard (byte_at (buffer p) 0)] (discard_first p) /\
  buffered_length (discard_first p) = (buffered_length p - 1)%nat.
Proof.
  intros Hok Hb. pose proof (pending_length p Hok) as Hl.
  destruct (pending p) as [|b l] eqn:Hp; [cbn in Hl; lia|].
  rewrite (pending_head _ _ _ Hp). unfold discard_first. rewrite (pending_head _ _ _ Hp).
  assert (Hok' : parser_ok (record_discard p b)).
  { destruct Hok. split; cbn; try done. by rewrite length_insert. }
  destruct (discard_prefix_pending (record_discard p b) 1 Hok') as [Hp' Hok2]; [cbn; lia|].
  assert (Hd : forall q : parser_t, q = discard_prefix (record_discard p b) 1 ->
    handler q = handler p /\ handler_context q = handler_context p /\
    emitted_frames q = emitted_frames p /\ discarded_bytes q = discarded_bytes p /\
    expected_register_length q = expected_register_length p /\
    buffered_length q = (buffered_length p - 1)%nat /\
    forall h, ring_ok (record_discard p b) h -> ring_ok q h).
  { intros q ->. unfold discard_prefix. by destruct (1 <? _)%nat. }
  remember (discard_prefix (record_discard p b) 1) as q eqn:Hq.
  destruct (Hd q eq_refl) as (H1 & H2 & H3 & H4 & H5 & H6 & H7). clear Hd Hq.
  split; [|done]. split; cbn; try done; rewrite ?Z.add_0_r; try congruence.
  - rewrite app_nil_r. change (pending (record_discard p b)) with (pending p) in Hp'.
    rewrite Hp in *. cbn in Hp'. unfold pending in *. cbn. by rewrite Hp'.
  - destruct Hok2. by split.
  - rewrite H4. apply wrap_wrap.
  - intros h Hh. destruct (H7 (h ++ [b]) (ring_record p h b Hh)) as (? & ? & ? & ?). done.
Qed.

Lemma frame_at_front_wire (p : parser_t) n ts :
  parser_ok p -> (2 + n <= buffered_length p)%nat ->
  let f := frame_at_front p (2 + n) ts in
  frame_wire f = take (2 + n) (pending p) /\ length (payload f) = 32%nat /\
  drop n (payload f) = replicate (32 - n) 0 /\ (n <= 32)%nat /\
  type f = byte_at (buffer p) 1 /\ asic_id f = byte_at (buffer p) 0 /\ payload_length f = n.
Proof.
  intros [] Hn. unfold frame_at_front, frame_wire, pending. cbn.
  change BZM_TDM_MAX_REGISTER_PAYLOAD_SIZE with 32%nat. rewrite Nat.sub_0_r.
  assert (Hl : length (take n (drop 2 (buffer p))) = n) by (rewrite length_take, length_drop; lia).
  split_and!; try done; try lia.
  - rewrite take_app_le, take_take, Nat.min_id by lia. rewrite take_take, Nat.min_l by lia.
    destruct (buffer p) as [|x [|y t]]; done.
  - rewrite length_app, Hl, length_replicate. lia.
  - by rewrite drop_app_length' by lia.
Qed.

Lemma fed_emit (p : parser_t) ts n :
  parser_ok p -> (2 + n <= buffered_length p)%nat ->
  payload_size (expected_register_length p) (byte_at (buffer p) 0) (byte_at (buffer p) 1) = Some n ->
  exists p', parse_step p ts = ParseEmit p' /\
    fed p [] ts [WFrame (frame_at_front p (2 + n) ts)] p' /\
    buffered_length p' = (buffered_length p - (2 + n))%nat.
Proof.
  intros Hok Hn Hsize. pose proof (expected_frame_length_spec p ltac:(lia)) as Hexp.
  rewrite Hsize in Hexp. unfold parse_step. change BZM_TDM_HEADER_SIZE with 2%nat.
  rewrite (proj2 (Nat.ltb_ge _ _)) by lia. rewrite Hexp, (proj2 (Nat.ltb_ge _ _)) by lia.
  destruct (frame_at_front_wire p n ts Hok Hn) as (Hw & Hpl & Hz & Hn32 & Ht & Hid & Hlen).
  cbn zeta in *. set (f := frame_at_front p (2 + n) ts) in *.
  destruct (discard_prefix_pending p (2 + n) Hok Hn) as [Hp' Hok'].
  set (q := discard_prefix p (2 + n)) in *.
  assert (Hq : handler q = handler p /\ handler_context q = handler_context p /\
    emitted_frames q = emitted_frames p /\ discarded_bytes q = discarded_bytes p /\
    expected_register_length q = expected_register_length p /\
    buffered_length q = (buffered_length p - (2 + n))%nat /\
    forall h, ring_ok p h -> ring_ok q h).
  { unfold q, discard_prefix. by destruct (2 + n <? _)%nat. }
  destruct Hq as (H1 & H2 & H3 & H4 & H5 & H6 & H7).
  assert (Hacc : frame_accepted (expected_register_length p) f).
  { unfold frame_accepted. rewrite Ht, Hid, Hlen. done. }
  assert (Hfed : forall r, parser_ok r -> pending r = pending q -> handler r = handler q ->
    handler_context r = handler_context q -> emitted_frames r = emitted_frames q ->
    discarded_bytes r = discarded_bytes q -> buffered_length r = buffered_length q ->
    expected_register_length r = after_frame (expected_register_length p) f ->
    (forall h, ring_ok q h -> ring_ok r h) ->
    fed p [] ts [WFrame f] (deliver r f) /\
    buffered_length (deliver r f) = (buffered_length p - (2 + n))%nat).
  { intros r R0 R1 R2 R3 R4 R5 R6 R7 R8.
    assert (Hdel : deliver r f = r <| emitted_frames := u32 (emitted_frames r + 1);
                                      handler_context := handle (handler r) (handler_context r) f |>).
    { unfold deliver, handle. cbn. destruct r; cbn. by destruct handler0. }
    rewrite Hdel. split; [|cbn; lia]. split; cbn; try done; rewrite ?Z.add_0_r; try congruence.
    - change (pending p ++ [] = (frame_wire f ++ []) ++ pending r).
      by rewrite !app_nil_r, R1, Hp', Hw, take_drop.
    - destruct R0. by split.
    - rewrite R4, H3. apply wrap_wrap.
    - repeat constructor.
    - intros h Hh. rewrite app_nil_r.
      destruct (R8 h (H7 h Hh)) as (? & ? & ? & ?). by split_and!. }
  unfold after_frame in Hfed. destruct (type f =? BZM_FRAME_REGISTER) eqn:Htype.
  - assert (exists i, bzm_topology_asic_index (asic_id f) = Some i) as [i Hi].
    { rewrite <- Ht, <- Hid in Hsize. apply Z.eqb_eq in Htype. rewrite Htype in Hsize.
      apply payload_size_register in Hsize as (i & Hi & _). by exists i. }
    rewrite Hi in *. eexists. split; [reflexivity|]. apply Hfed; try done; [|by rewrite <- H5].
    destruct Hok'. split; cbn; try done; rewrite ?length_insert; try done.
    apply Forall_insert; [done|lia].
  - eexists. split; [reflexivity|]. apply Hfed; try done.
Qed.

(** A parser the loop leaves alone: no header yet, or an incomplete frame. *)
Definition quiescent (p : parser_t) : Prop :=
  (buffered_length p < 2)%nat \/
  exists n, payload_size (expected_register_length p) (byte_at (buffer p) 0) (byte_at (buffer p) 1) = Some n /\
            (buffered_length p < 2 + n)%nat.

Lemma quiescent_room p : parser_ok p -> quiescent p -> (buffered_length p <= 33)%nat.
Proof.
  intros [] [H|(n & Hs & Hn)]; [lia|]. apply payload_size_max in Hs; [lia|done].
Qed.

Lemma parse_step_spec (p : parser_t) ts :
  parser_ok p ->
  (parse_step p ts = ParseStop p /\ quiescent p) \/
  (exists b p', parse_step p ts = ParseDiscard p' /\ fed p [] ts [WDiscard b] p' /\
     (buffered_length p' < buffered_length p)%nat) \/
  (exists f p', parse_step p ts = ParseEmit p' /\ fed p [] ts [WFrame f] p' /\
     (buffered_length p' < buffered_length p)%nat).
Proof.
  intros Hok. destruct (Nat.lt_ge_cases (buffered_length p) 2) as [Hlt|Hge].
  { left. unfold parse_step. change BZM_TDM_HEADER_SIZE with 2%nat.
    rewrite (proj2 (Nat.ltb_lt _ _)) by lia. split; [done|by left]. }
  pose proof (expected_frame_length_spec p Hge) as Hexp.
  destruct (payload_size _ _ _) as [n|] eqn:Hsize.
  - destruct (Nat.lt_ge_cases (buffered_length p) (2 + n)) as [Hlt|Hn].
    + left. unfold parse_step. change BZM_TDM_HEADER_SIZE with 2%nat.
      rewrite (proj2 (Nat.ltb_ge _ _)) by lia. rewrite Hexp, (proj2 (Nat.ltb_lt _ _)) by lia.
      split; [done|right; eauto].
    + right. right. destruct (fed_emit p ts n Hok Hn Hsize) as (p' & Hs & Hf & Hb).
      eexists _, p'. split_and!; [done|done|lia].
  - right. left. unfold parse_step. change BZM_TDM_HEADER_SIZE with 2%nat.
    rewrite (proj2 (Nat.ltb_ge _ _)) by lia.
    destruct Hexp as [-> | ->].
    + destruct (fed_discard p ts Hok Hge) as [Hf Hb]. eexists _, _. split_and!; [done|done|lia].
    + assert (Hok' : parser_ok (count_unexpected p)) by (destruct Hok; by split).
      destruct (fed_discard (count_unexpected p) ts Hok' Hge) as [Hf Hb].
      eexists _, _. split_and!; [done| |rewrite Hb; cbn; lia]. destruct Hf. by split.
Qed.

(** *** The loops *)

Lemma parse_loop_spec fuel : forall (p : parser_t) ts n,
  parser_ok p -> (buffered_length p < fuel)%nat ->
  exists evs p', parse_loop fuel p ts n = Some ((n + length (frames evs))%nat, p') /\
                 fed p [] ts evs p' /\ quiescent p'.
Proof.
  induction fuel as [|fuel IH]; intros p ts n Hok Hf; [lia|]. cbn [parse_loop].
  destruct (parse_step_spec p ts Hok) as [[-> Hq]|[(b & p1 & -> & Hfed & Hlt)|(f & p1 & -> & Hfed & Hlt)]].
  - exists [], p. cbn. rewrite Nat.add_0_r. split_and!; [done|by apply fed_refl|done].
  - destruct (IH p1 ts n (fed_ok _ _ _ _ _ Hfed)) as (evs & p' & -> & Hfed' & Hq); [lia|].
    exists (WDiscard b :: evs), p'. split_and!; [done| |done]. by apply (fed_trans _ [] _ [_] _ [] evs _ Hfed).
  - destruct (IH p1 ts (S n) (fed_ok _ _ _ _ _ Hfed)) as (evs & p' & -> & Hfed' & Hq); [lia|].
    exists (WFrame f :: evs), p'. split_and!; [| |done].
    { change (frames (WFrame f :: evs)) with (f :: frames evs). cbn [length].
      by rewrite Nat.add_succ_r. }
    by apply (fed_trans _ [] _ [_] _ [] evs _ Hfed).
Qed.

Lemma parse_buffer_total (p : parser_t) ts :
  parser_ok p ->
  exists evs p', parse_buffer p ts = Some (length (frames evs), p') /\
                 fed p [] ts evs p' /\ quiescent p'.
Proof. intros Hok. apply (parse_loop_spec _ p ts 0 Hok). lia. Qed.

Lemma feed_loop_spec data : forall (p : parser_t) ts n,
  parser_ok p -> (buffered_length p <= 33)%nat ->
  exists evs p', feed_loop p data ts n = Some ((n + length (frames evs))%nat, p') /\
                 fed p data ts evs p' /\ (buffered_length p' <= 33)%nat.
Proof.
  induction data as [|b data IH]; intros p ts n Hok Hb; cbn [feed_loop].
  - exists [], p. cbn. rewrite Nat.add_0_r. split_and!; [done|by apply fed_refl|done].
  - pose proof (fed_push p b ts Hok Hb) as Hpush.
    destruct (parse_buffer_total (push_byte p b) ts (fed_ok _ _ _ _ _ Hpush))
      as (e1 & p1 & -> & Hf1 & Hq1).
    pose proof (quiescent_room _ (fed_ok _ _ _ _ _ Hf1) Hq1) as Hb1.
    destruct (IH p1 ts (n + length (frames e1))%nat (fed_ok _ _ _ _ _ Hf1) Hb1)
      as (e2 & p2 & -> & Hf2 & Hb2).
    exists (e1 ++ e2), p2. split_and!; [|  |done].
    + rewrite frames_app, length_app. f_equal. f_equal. lia.
    + apply (fed_trans p [b] ts e1 p1 data e2 p2); [|done].
      exact (fed_trans p [b] ts [] _ [] e1 p1 Hpush Hf1).
Qed.

(** *** Feeding the bytes of one frame *)

Lemma pending_prefix_header (p : parser_t) f l r :
  pending p = l -> l ++ r = frame_wire f -> (2 <= length l)%nat ->
  byte_at (buffer p) 0 = asic_id f /\ byte_at (buffer p) 1 = type f.
Proof.
  intros Hp Hl Hlen. destruct l as [|x [|y l]]; cbn in Hlen; try lia.
  injection Hl as -> -> _. split; [by apply (pending_head _ _ _ Hp)|by apply (pending_second _ _ _ _ Hp)].
Qed.

Lemma frame_wire_length f :
  (payload_length f <= 32)%nat -> length (payload f) = 32%nat ->
  length (frame_wire f) = (2 + payload_length f)%nat.
Proof. intros. unfold frame_wire. cbn. rewrite length_take. lia. Qed.

Definition stamped (ts : Z) (f : bzm_frame_t) : bzm_frame_t :=
  {| type := type f; asic_id := asic_id f; payload := payload f;
     payload_length := payload_length f; timestamp_us := ts |}.

Lemma frame_wire_inj expected f g :
  frame_accepted expected f -> frame_accepted expected g -> frame_wire f = frame_wire g ->
  stamped 0 f = stamped 0 g.
Proof.
  intros (Hs1 & Hm1 & Hl1 & Hz1) (Hs2 & Hm2 & Hl2 & Hz2) Hw.
  injection Hw as Hid Ht Hp. rewrite Hid, Ht in Hs1.
  assert (payload_length f = payload_length g) as Hlen by congruence.
  unfold stamped. rewrite Hid, Ht, Hlen in *. f_equal.
  rewrite <- (take_drop (payload_length g) (payload f)), Hp, Hz1, <- Hz2. apply take_drop.
Qed.

(** A whole frame in an otherwise empty buffer. *)
Lemma parse_whole_frame (p : parser_t) f ts :
  parser_ok p -> frame_accepted (expected_register_length p) f -> pending p = frame_wire f ->
  exists p', parse_buffer p ts = Some (1%nat, p') /\
    fed p [] ts [WFrame (stamped ts f)] p' /\ buffered_length p' = 0%nat.
Proof.
  intros Hok Hacc Hp. pose proof Hacc as (Hs & Hm & Hl & Hz).
  pose proof (pending_length p Hok) as Hlen. rewrite Hp, frame_wire_length in Hlen by done.
  destruct (pending_prefix_header p f (frame_wire f) [] Hp) as [Hb0 Hb1];
    [by rewrite app_nil_r|rewrite frame_wire_length by done; lia|].
  destruct (fed_emit p ts (payload_length f) Hok) as (p' & Hstep & Hfed & Hb); [lia|by rewrite Hb0, Hb1|].
  assert (Hfront : frame_at_front p (2 + payload_length f) ts = stamped ts f).
  { destruct (frame_at_front_wire p (payload_length f) ts Hok) as (Hw & ? & ? & ? & Ht & Hid & Hpl); [lia|].
    cbn zeta in *. set (g := frame_at_front p (2 + payload_length f) ts) in *.
    assert (Hg : frame_accepted (expected_register_length p) g).
    { unfold frame_accepted. rewrite Ht, Hid, Hpl, Hb0, Hb1. done. }
    assert (stamped 0 g = stamped 0 f) as Heq.
    { apply (frame_wire_inj (expected_register_length p)); try done.
      rewrite Hw, Hp, take_ge; [done|]. rewrite frame_wire_length by done. lia. }
    change g with (stamped ts (stamped 0 g)). by rewrite Heq. }
  rewrite Hfront in *. exists p'. split_and!; [|done|lia].
  unfold parse_buffer. cbn [parse_loop]. rewrite Hstep.
  replace (buffered_length p) with (S (1 + payload_length f)) by lia. cbn [parse_loop].
  unfold parse_step. change BZM_TDM_HEADER_SIZE with 2%nat.
  by rewrite (proj2 (Nat.ltb_lt _ _)) by lia.
Qed.

(** An incomplete frame stays in the buffer. *)
Lemma parse_partial_frame (p : parser_t) f l r ts :
  parser_ok p -> frame_accepted (expected_register_length p) f ->
  pending p = l -> l ++ r = frame_wire f -> r ≠ [] ->
  parse_buffer p ts = Some (0%nat, p).
Proof.
  intros Hok (Hs & Hm & Hl & Hz) Hp Hw Hr. pose proof (pending_length p Hok) as Hlen.
  assert (length l < 2 + payload_length f)%nat as Hlt.
  { rewrite <- frame_wire_length, <- Hw, length_app by done. destruct r; [done|cbn; lia]. }
  rewrite Hp in Hlen. unfold parse_buffer. cbn [parse_loop].
  unfold parse_step. change BZM_TDM_HEADER_SIZE with 2%nat.
  destruct (Nat.ltb_spec (buffered_length p) 2) as [|Hge]; [done|].
  destruct (pending_prefix_header p f l r Hp Hw) as [Hb0 Hb1]; [lia|].
  pose proof (expected_frame_length_spec p Hge) as Hexp. rewrite Hb0, Hb1, Hs in Hexp.
  rewrite Hexp. by rewrite (proj2 (Nat.ltb_lt _ _)) by lia.
Qed.

Lemma feed_frame r : forall (p : parser_t) f l ts n rest,
  parser_ok p -> frame_accepted (expected_register_length p) f ->
  pending p = l -> l ++ r = frame_wire f -> r ≠ [] ->
  exists p', feed_loop p (r ++ rest) ts n = feed_loop p' rest ts (S n) /\
    fed p r ts [WFrame (stamped ts f)] p' /\ buffered_length p' = 0%nat.
Proof.
  induction r as [|b r IH]; intros p f l ts n rest Hok Hacc Hp Hw Hr; [done|].
  pose proof (pending_length p Hok) as Hlen. pose proof Hacc as (Hs & Hm & Hl & Hz).
  assert (length l + S (length r) = 2 + payload_length f)%nat as Htot.
  { rewrite <- frame_wire_length, <- Hw, length_app by done. done. }
  rewrite Hp in Hlen. assert (Hb : (buffered_length p <= 33)%nat) by lia.
  pose proof (fed_push p b ts Hok Hb) as Hpush.
  destruct (pending_push p b Hok Hb) as (Hp1 & Hok1 & Hbl). rewrite Hp in Hp1.
  assert (Hacc1 : frame_accepted (expected_register_length (push_byte p b)) f).
  { by rewrite (fed_expected _ _ _ _ _ Hpush). }
  assert (Hw1 : (l ++ [b]) ++ r = frame_wire f) by by rewrite <- app_assoc.
  cbn [app feed_loop]. destruct r as [|b' r].
  - rewrite app_nil_r in Hw1. rewrite Hw1 in Hp1.
    destruct (parse_whole_frame _ f ts Hok1 Hacc1 Hp1) as (p' & -> & Hfed & Hb').
    exists p'. rewrite Nat.add_1_r. split_and!; [done| |done].
    exact (fed_trans p [b] ts [] _ [] _ p' Hpush Hfed).
  - rewrite (parse_partial_frame _ f _ _ ts Hok1 Hacc1 Hp1 Hw1) by done.
    rewrite Nat.add_0_r.
    destruct (IH (push_byte p b) f (l ++ [b]) ts n rest Hok1 Hacc1 Hp1 Hw1 ltac:(done))
      as (p' & Heq & Hfed & Hb').
    exists p'. split_and!; [done| |done].
    exact (fed_trans p [b] ts [] _ (b' :: r) _ p' Hpush Hfed).
Qed.

Lemma feed_frames fs : forall (p : parser_t) ts n,
  parser_ok p -> buffered_length p = 0%nat -> all_accepted (expected_register_length p) fs ->
  exists p', feed_loop p (concat (frame_wire <$> fs)) ts n = Some ((n + length fs)%nat, p') /\
    fed p (concat (frame_wire <$> fs)) ts (WFrame ∘ stamped ts <$> fs) p' /\
    buffered_length p' = 0%nat.
Proof.
  induction fs as [|f fs IH]; intros p ts n Hok Hb Hacc; cbn [fmap list_fmap concat].
  - exists p. cbn. rewrite Nat.add_0_r. split_and!; [done|by apply fed_refl|done].
  - destruct Hacc as [Hf Hfs].
    assert (Hp : pending p = []) by (unfold pending; by rewrite Hb).
    destruct (feed_frame (frame_wire f) p f [] ts n (concat (frame_wire <$> fs)) Hok Hf Hp eq_refl)
      as (p1 & Heq & Hfed & Hb1); [done|].
    assert (Hx : expected_register_length p1 = after_frame (expected_register_length p) f).
    { by rewrite (fed_expected _ _ _ _ _ Hfed). }
    destruct (IH p1 ts (S n) (fed_ok _ _ _ _ _ Hfed) Hb1) as (p2 & Heq2 & Hfed2 & Hb2);
      [by rewrite Hx|].
    exists p2. split_and!; [|by apply (fed_trans p _ ts [_] p1)|done].
    change (feed_loop p (frame_wire f ++ concat (frame_wire <$> fs)) ts n = Some ((n + S (length fs))%nat, p2)).
    rewrite Heq, Heq2. f_equal. f_equal. lia.
Qed.
End parser_spec.

(** *** Register responses *)

Definition register_of (i : nat) (f : bzm_frame_t) : Prop :=
  type f = BZM_FRAME_REGISTER /\ bzm_topology_asic_index (asic_id f) = Some i.
#[export] Instance register_of_dec i f : Decision (register_of i f).
Proof. unfold register_of. apply _. Defined.

Lemma after_frame_register expected f i :
  register_of i f -> after_frame expected f = <[i := 0%nat]> expected.
Proof. intros [Ht Hi]. unfold after_frame. by rewrite Ht, Hi. Qed.

Lemma nth_insert (l : list nat) i j x :
  nth j (<[i := x]> l) 0%nat = if decide (i = j /\ (i < length l)%nat) then x else nth j l 0%nat.
Proof.
  rewrite <- !nth_default_eq. unfold nth_default.
  change (nth_error (<[i := x]> l) j) with (nth_error (<[i:=x]> l) j).
  revert i j. induction l as [|y l IH]; intros i j; cbn.
  - rewrite decide_False by (cbn; lia). by destruct i.
  - destruct i, j; cbn; try done. rewrite IH. repeat case_decide; try done; lia.
Qed.

Lemma after_frame_other expected f i :
  ~ register_of i f -> nth i (after_frame expected f) 0%nat = nth i expected 0%nat.
Proof.
  intros Hn. unfold after_frame. destruct (Z.eqb_spec (type f) BZM_FRAME_REGISTER) as [Ht|]; [|done].
  destruct (bzm_topology_asic_index (asic_id f)) as [j|] eqn:Hj; [|done].
  rewrite nth_insert. case_decide as Hd; [|done]. destruct Hd as [-> _]. by destruct Hn.
Qed.

Lemma register_none expected fs i :
  all_accepted expected fs -> nth i expected 0%nat = 0%nat ->
  filter (register_of i) fs = [] /\ nth i (foldl after_frame expected fs) 0%nat = 0%nat.
Proof.
  revert expected. induction fs as [|f fs IH]; intros expected; cbn [all_accepted foldl]; [done|].
  intros [(Hs & _) Hfs] Hz. rewrite filter_cons. case_decide as Hr.
  - exfalso. destruct Hr as [Ht Hi]. rewrite Ht in Hs.
    apply payload_size_register in Hs as (j & Hj & Hn & Hne). congruence.
  - apply IH; [done|]. by rewrite after_frame_other.
Qed.

Lemma register_at_most_once expected fs i :
  all_accepted expected fs -> (i < length expected)%nat ->
  (filter (register_of i) fs = [] /\
   nth i (foldl after_frame expected fs) 0%nat = nth i expected 0%nat) \/
  (exists f, filter (register_of i) fs = [f] /\ payload_length f = nth i expected 0%nat /\
     payload_length f ≠ 0%nat /\ nth i (foldl after_frame expected fs) 0%nat = 0%nat).
Proof.
  revert expected. induction fs as [|f fs IH]; intros expected; cbn [all_accepted foldl].
  { intros _ _. left. done. }
  intros [(Hs & _) Hfs] Hlt. rewrite filter_cons. case_decide as Hr.
  - right. exists f. pose proof (after_frame_register expected f i Hr) as Ha. rewrite Ha in *.
    destruct Hr as [Ht Hi]. rewrite Ht in Hs.
    apply payload_size_register in Hs as (j & Hj & Hn & Hne).
    rewrite Hi in Hj. injection Hj as ->.
    destruct (register_none _ _ j Hfs) as [-> Hend]; [|done].
    rewrite nth_insert. by rewrite decide_True.
  - rewrite <- (after_frame_other expected f i Hr). apply IH; [done|].
    unfold after_frame. repeat case_match; rewrite ?length_insert; done.
Qed.

(** ** Properties *)

Section properties.
Context {C : Type}.
Abbreviation parser_t := (bzm_frame_parser_t C).

(** C38: Feeding never loses or invents a byte and always terminates: the bytes
    that were pending followed by the new data are, in order, the bytes of the
    frames emitted and of the single bytes discarded, followed by what is still
    pending; the handler has been applied to exactly those frames in order; the
    return value and the two counters agree with them; every frame has one of
    the protocol's shapes; and at most 33 bytes stay pending, so the buffer
    never overflows. *)
Theorem frame_parser_conserves_stream (p : parser_t) data ts :
  parser_ok p -> (bzm_frame_parser_pending_bytes p <= 33)%nat ->
  exists evs p',
    bzm_frame_parser_feed p data ts = Some (length (frames evs), p') /\
    pending p ++ data = concat (wire_of <$> evs) ++ pending p' /\
    handler_context p' = foldl (handle (handler p)) (handler_context p) (frames evs) /\
    u32 (emitted_frames p') = u32 (emitted_frames p + Z.of_nat (length (frames evs))) /\
    u32 (discarded_bytes p') = u32 (discarded_bytes p + Z.of_nat (length (discards evs))) /\
    all_accepted (expected_register_length p) (frames evs) /\
    Forall (fun f => timestamp_us f = ts) (frames evs) /\
    parser_ok p' /\ (bzm_frame_parser_pending_bytes p' <= 33)%nat.
Proof.
  intros Hok Hb. destruct (feed_loop_spec data p ts 0 Hok Hb) as (evs & p' & Heq & Hfed & Hb').
  exists evs, p'. destruct Hfed. by split_and!.
Qed.

(** Framing round trip: the encodings of any sequence of acceptable frames,
    fed in one piece to a parser with nothing pending, are delivered to the
    handler as exactly those frames in that order, with the time stamp of the
    call; nothing is discarded and nothing stays pending. *)
Theorem frame_parser_roundtrip (p : parser_t) fs ts :
  parser_ok p -> bzm_frame_parser_pending_bytes p = 0%nat ->
  all_accepted (expected_register_length p) fs ->
  exists p',
    bzm_frame_parser_feed p (concat (frame_wire <$> fs)) ts = Some (length fs, p') /\
    handler_context p' = foldl (handle (handler p)) (handler_context p) (stamped ts <$> fs) /\
    u32 (discarded_bytes p') = u32 (discarded_bytes p) /\
    expected_register_length p' = foldl after_frame (expected_register_length p) (stamped ts <$> fs) /\
    bzm_frame_parser_pending_bytes p' = 0%nat.
Proof.
  intros Hok Hb Hacc. destruct (feed_frames fs p ts 0 Hok Hb Hacc) as (p' & Heq & Hfed & Hb').
  exists p'. destruct Hfed as [_ _ _ Hc _ Hd Hx _ _ _].
  assert (Hf : frames (WFrame ∘ stamped ts <$> fs) = stamped ts <$> fs).
  { clear. induction fs; cbn; [done|by f_equal]. }
  assert (Hdis : discards (WFrame ∘ stamped ts <$> fs) = []).
  { clear. induction fs; cbn; done. }
  rewrite Hf in *. rewrite Hdis, Z.add_0_r in Hd. by split_and!.
Qed.

(** One register response per request: of the frames one call emits, at
    most one is a register frame of a given ASIC; it has exactly the length
    that was registered and it uses the registration up, and without it the
    registration is still in place. *)
Theorem frame_parser_register_once (p : parser_t) data ts i :
  parser_ok p -> (bzm_frame_parser_pending_bytes p <= 33)%nat -> (i < 4)%nat ->
  exists evs p',
    bzm_frame_parser_feed p data ts = Some (length (frames evs), p') /\
    handler_context p' = foldl (handle (handler p)) (handler_context p) (frames evs) /\
    ((filter (register_of i) (frames evs) = [] /\ expected_at p' i = expected_at p i) \/
     exists f, filter (register_of i) (frames evs) = [f] /\
       payload_length f = expected_at p i /\ payload_length f ≠ 0%nat /\ expected_at p' i = 0%nat).
Proof.
  intros Hok Hb Hi. destruct (feed_loop_spec data p ts 0 Hok Hb) as (evs & p' & Heq & Hfed & _).
  exists evs, p'. split_and!; [done|by destruct Hfed|]. unfold expected_at.
  rewrite (fed_expected _ _ _ _ _ Hfed). apply register_at_most_once; [by destruct Hfed|].
  by rewrite (ok_expected _ Hok).
Qed.

Lemma recent_discards_ring (p : parser_t) h capacity :
  ring_ok p h ->
  bzm_frame_parser_recent_discards p capacity = drop (length h - Nat.min (Nat.min 16 (length h)) capacity) h.
Proof.
  intros (Hl & Hn & Ht & Hr). unfold bzm_frame_parser_recent_discards.
  change BZM_FRAME_PARSER_DISCARD_TRACE_SIZE with 16%nat. rewrite Hn, Ht.
  set (n := (16 `min` length h)%nat). set (k := (n `min` capacity)%nat).
  apply list_eq. intros j. rewrite list_lookup_fmap, lookup_drop.
  destruct (Nat.lt_ge_cases j k) as [Hj|Hj].
  - rewrite lookup_seq_lt by done. cbn [fmap option_fmap option_map]. unfold byte_at.
    assert (Hm : (((length h mod 16 + 16 - n) mod 16 + (n - k) + (0 + j)) mod 16 =
                  (length h - k + j) mod 16)%nat).
    { rewrite <- Nat.add_assoc, Nat.Div0.add_mod_idemp_l.
      replace (length h - k + j)%nat with ((length h - n) + ((n - k) + j))%nat by lia.
      replace (length h mod 16 + 16 - n + (n - k + (0 + j)))%nat
        with ((length h mod 16 + 16 - n) + ((n - k) + j))%nat by lia.
      rewrite <- (Nat.Div0.add_mod_idemp_l (length h - n)).
      rewrite <- (Nat.Div0.add_mod_idemp_l (length h mod 16 + 16 - n)). do 2 f_equal.
      pose proof (Nat.div_mod_eq (length h) 16) as Hd.
      destruct (Nat.lt_ge_cases (length h) 16) as [Hlt|Hge].
      - replace n with (length h) by lia. rewrite (Nat.mod_small (length h)) by done.
        by replace (length h + 16 - length h)%nat with 16%nat by lia; rewrite Nat.sub_diag.
      - replace n with 16%nat by lia.
        replace (length h mod 16 + 16 - 16)%nat with (length h mod 16)%nat by lia.
        rewrite Nat.Div0.mod_mod.
        replace (length h) with ((length h - 16) + 1 * 16)%nat at 1 by lia. apply Nat.Div0.mod_add. }
    change (0 + j)%nat with j in Hm. cbn [Nat.add] in *. rewrite Hm.
    assert (length h - k + j < length h)%nat as Hlt by lia.
    rewrite <- (Hr (length h - k + j)%nat) by lia.
    destruct (lookup_lt_is_Some_2 (discard_trace p) ((length h - k + j) mod 16)) as [x Hx].
    { rewrite Hl. apply Nat.mod_upper_bound. lia. }
    rewrite Hx. f_equal. by apply nth_lookup_Some.
  - rewrite lookup_seq_ge by done. symmetry. apply lookup_ge_None. lia.
Qed.

(** The discard trace is a faithful ring: after any feed, starting from a
    parser whose trace records the discards [h], the trace of [capacity] bytes
    is the most recent of all the bytes ever discarded, oldest first: as many
    of them as fit in the capacity and in the 16 bytes kept. *)
Theorem frame_parser_recent_discards (p : parser_t) h data ts capacity :
  parser_ok p -> (bzm_frame_parser_pending_bytes p <= 33)%nat -> ring_ok p h ->
  exists evs p',
    bzm_frame_parser_feed p data ts = Some (length (frames evs), p') /\
    pending p ++ data = concat (wire_of <$> evs) ++ pending p' /\
    let all := h ++ discards evs in
    bzm_frame_parser_recent_discards p' capacity =
      drop (length all - Nat.min (Nat.min 16 (length all)) capacity) all.
Proof.
  intros Hok Hb Hring. destruct (feed_loop_spec data p ts 0 Hok Hb) as (evs & p' & Heq & Hfed & _).
  exists evs, p'. split_and!; [done|by destruct Hfed|]. cbn zeta.
  by apply recent_discards_ring, (fed_ring _ _ _ _ _ Hfed).
Qed.
End properties.

(** ** A concrete parser *)

Module Demo.
(** The handler collects the frames. *)
Definition fresh : bzm_frame_parser_t (list bzm_frame_t) :=
  bzm_frame_parser_init (Some (fun c f => c ++ [f])) [].
(** A register read of 4 bytes from the second ASIC is outstanding. *)
Definition waiting : bzm_frame_parser_t (list bzm_frame_t) :=
  (bzm_frame_parser_expect_register fresh 0x14 4).2.
Definition noise : list Z := [0x55; 0x0a; 0x99; 0x14; 0x03; 1; 2; 3; 4; 0x0a; 0x0f; 7].

Lemma fresh_ok : parser_ok fresh.
Proof. split; try (by vm_compute; lia). repeat constructor; lia. Qed.
Lemma waiting_ok : parser_ok waiting.
Proof. split; try (by vm_compute; lia). repeat constructor; lia. Qed.
Lemma fresh_ring : ring_ok fresh [].
Proof. unfold ring_ok. cbn. split_and!; try done. intros; lia. Qed.

Example noise_result :
  match bzm_frame_parser_feed waiting noise 99 with
  | Some (n, p) => (n, payload_length <$> handler_context p, bzm_frame_parser_recent_discards p 8,
                    bzm_frame_parser_pending_bytes p)
  | None => (0%nat, [], [], 0%nat)
  end = (1%nat, [4%nat], [0x55; 0x0a; 0x99], 3%nat).
Proof. by vm_compute. Qed.

Definition sample_frames : list bzm_frame_t :=
  [ {| type := BZM_FRAME_REGISTER; asic_id := 0x14;
       payload := [9; 8; 7; 6] ++ replicate 28 0; payload_length := 4; timestamp_us := 0 |};
    {| type := BZM_FRAME_NOOP; asic_id := 0xfa;
       payload := [1; 2; 3] ++ replicate 29 0; payload_length := 3; timestamp_us := 0 |} ].

Lemma sample_accepted : all_accepted (expected_register_length waiting) sample_frames.
Proof. cbn [all_accepted sample_frames]. unfold frame_accepted. split_and!; try done; by vm_compute; lia. Qed.

Lemma frame_parser_conserves_stream_witness :
  parser_ok waiting /\
  exists evs p',
    bzm_frame_parser_feed waiting noise 99 = Some (length (frames evs), p') /\
    pending waiting ++ noise = concat (wire_of <$> evs) ++ pending p' /\
    handler_context p' = foldl (handle (handler waiting)) (handler_context waiting) (frames evs) /\
    u32 (emitted_frames p') = u32 (emitted_frames waiting + Z.of_nat (length (frames evs))) /\
    u32 (discarded_bytes p') = u32 (discarded_bytes waiting + Z.of_nat (length (discards evs))) /\
    all_accepted (expected_register_length waiting) (frames evs) /\
    Forall (fun f => timestamp_us f = 99) (frames evs) /\
    parser_ok p' /\ (bzm_frame_parser_pending_bytes p' <= 33)%nat.
Proof.
  split; [exact waiting_ok|].
  apply (frame_parser_conserves_stream waiting noise 99); [exact waiting_ok|vm_compute; lia].
Defined.

Lemma frame_parser_roundtrip_witness :
  all_accepted (expected_register_length waiting) sample_frames /\
  exists p',
    bzm_frame_parser_feed waiting (concat (frame_wire <$> sample_frames)) 5 =
      Some (length sample_frames, p') /\
    handler_context p' =
      foldl (handle (handler waiting)) (handler_context waiting) (stamped 5 <$> sample_frames) /\
    u32 (discarded_bytes p') = u32 (discarded_bytes waiting) /\
    expected_register_length p' =
      foldl after_frame (expected_register_length waiting) (stamped 5 <$> sample_frames) /\
    bzm_frame_parser_pending_bytes p' = 0%nat.
Proof.
  split; [exact sample_accepted|].
  apply (frame_parser_roundtrip waiting sample_frames 5);
    [exact waiting_ok|reflexivity|exact sample_accepted].
Defined.

Lemma frame_parser_register_once_witness :
  (1 < 4)%nat /\
  exists evs p',
    bzm_frame_parser_feed waiting noise 99 = Some (length (frames evs), p') /\
    handler_context p' = foldl (handle (handler waiting)) (handler_context waiting) (frames evs) /\
    ((filter (register_of 1) (frames evs) = [] /\ expected_at p' 1 = expected_at waiting 1) \/
     exists f, filter (register_of 1) (frames evs) = [f] /\
       payload_length f = expected_at waiting 1 /\ payload_length f ≠ 0%nat /\
       expected_at p' 1 = 0%nat).
Proof.
  split; [lia|].
  apply (frame_parser_register_once waiting noise 99 1);
    [exact waiting_ok|vm_compute; lia|lia].
Defined.

Lemma frame_parser_recent_discards_witness :
  ring_ok fresh [] /\
  exists evs p',
    bzm_frame_parser_feed fresh noise 99 = Some (length (frames evs), p') /\
    pending fresh ++ noise = concat (wire_of <$> evs) ++ pending p' /\
    let all := [] ++ discards evs in
    bzm_frame_parser_recent_discards p' 5 =
      drop (length all - Nat.min (Nat.min 16 (length all)) 5) all.
Proof.
  split; [exact fresh_ring|].
  apply (frame_parser_recent_discards fresh [] noise 99 5);
    [exact fresh_ok|vm_compute; lia|exact fresh_ring].
Defined.
End Demo.
