(* ===== verification/JobStore.v ===== *)
(** * Mining jobs and the store of assigned work

    Models src/components/mining_job/asic_job.c with include/asic_job.h (the
    owned job and its 80-byte header) and src/components/asic/asic_job_store.c
    with include/asic_job_store.h and the context of include/asic_result.h: the
    table of 256 slots in which every assignment handed to the hardware is
    retained under a handle that carries its slot and its generation.

    Every store operation runs under the store's mutex, so each is one atomic
    step; the outer submission lock only delays a second producer.  A borrowed
    job pointer is modelled with its address, since the code compares it.
    Allocation and mutex creation are outcomes given to [asic_job_store_init]. *)

From S2P Require Import Prelude.
From Stdlib Require Import Floats.SpecFloat.

(** ** Jobs *)

Inductive mining_job_source_t := JOB_TYPE_V1 | JOB_TYPE_SV2_STANDARD | JOB_TYPE_SV2_EXTENDED.

Record asic_job_t := mk_asic_job {
  version : Z;
  version_mask : Z;
  prev_hash : list Z;
  merkle_root : list Z;
  ntime : Z;
  nbits : Z;
  starting_nonce : Z;
  pool_diff : spec_float;
  pool_id : Z;
  source_type : mining_job_source_t;
  job_id : list Z;
  extranonce2 : list Z;
}.

Definition write_le32 (value : Z) : list Z :=
  (fun i => u8 (Z.shiftr value (8 * i))) <$> [0; 1; 2; 3].

Definition asic_job_header (job : asic_job_t) (nonce v : Z) : list Z :=
  write_le32 v ++ prev_hash job ++ merkle_root job ++
  write_le32 (ntime job) ++ write_le32 (nbits job) ++ write_le32 nonce.

(** ** The store *)

Definition ASIC_JOB_STORE_CAPACITY : Z := 256.
Definition ASIC_WORK_HANDLE_INVALID : Z := UINT64_MAX.

Record asic_job_context_t := mk_job_context {
  work_generation : Z;
  job_version : Z;
  clean_jobs : bool;
  pool_work : bool;
}.

(** A [const asic_job_t *]: its address and what it points to. *)
Record job_ref := mk_job_ref {
  address : Z;
  pointee : asic_job_t;
}.

Record asic_job_store_entry_t := mk_entry {
  valid : bool;
  handle : Z;
  template : asic_job_t;
  context : asic_job_context_t;
}.

Record asic_job_store_t := mk_store {
  submission_job : option Z;
  submission_context : asic_job_context_t;
  entries : option (list asic_job_store_entry_t);
  capacity : Z;
  next_slot : Z;
  next_generation : Z;
}.
#[export] Instance asic_job_store_t_eta : Eta asic_job_store_t :=
  fun s => mk_store (submission_job s) (submission_context s) (entries s) (capacity s)
             (next_slot s) (next_generation s).

Definition zero_job : asic_job_t :=
  {| version := 0; version_mask := 0; prev_hash := replicate 32 0; merkle_root := replicate 32 0;
     ntime := 0; nbits := 0; starting_nonce := 0; pool_diff := S754_zero false; pool_id := 0;
     source_type := JOB_TYPE_V1; job_id := replicate 32 0; extranonce2 := replicate 65 0 |}.
Definition zero_context : asic_job_context_t :=
  {| work_generation := 0; job_version := 0; clean_jobs := false; pool_work := false |}.
Definition clear_entry : asic_job_store_entry_t :=
  {| valid := false; handle := 0; template := zero_job; context := zero_context |}.
Definition zero_store : asic_job_store_t :=
  {| submission_job := None; submission_context := zero_context; entries := None;
     capacity := 0; next_slot := 0; next_generation := 0 |}.

Definition asic_job_store_init (allocated lock_ok submission_lock_ok : bool)
    : bool * asic_job_store_t :=
  if negb allocated then (false, zero_store)
  else if negb lock_ok then (false, zero_store)
  else if negb submission_lock_ok then (false, zero_store)
  else (true, zero_store <| entries := Some (replicate (Z.to_nat ASIC_JOB_STORE_CAPACITY) clear_entry);
                            capacity := ASIC_JOB_STORE_CAPACITY;
                            next_generation := 1 |>).

Definition asic_job_store_begin_submission (s : asic_job_store_t) (job : option job_ref)
    (ctx : asic_job_context_t) : asic_job_store_t :=
  s <| submission_job := address <$> job; submission_context := ctx |>.

Definition asic_job_store_end_submission (s : asic_job_store_t) : asic_job_store_t :=
  s <| submission_job := None; submission_context := zero_context |>.

(** The context an assignment of [job] is stored with. *)
Definition bound_context (s : asic_job_store_t) (job : job_ref) : bool * asic_job_context_t :=
  let bound := bool_decide (submission_job s = Some (address job)) in
  (bound, if bound then submission_context s
          else {| work_generation := 0; job_version := version (pointee job);
                  clean_jobs := false; pool_work := false |}).

Definition asic_job_store_submission_context (s : asic_job_store_t) (job : option job_ref)
    : bool * option asic_job_context_t :=
  match entries s, job with
  | Some _, Some job => let '(bound, ctx) := bound_context s job in (bound, Some ctx)
  | _, _ => (false, None)
  end.

Definition store_entry (s : asic_job_store_t) (slot h : Z) (job : job_ref) : asic_job_store_t :=
  s <| entries :=
         (fun es => <[Z.to_nat slot := {| valid := true; handle := h; template := pointee job;
                                          context := snd (bound_context s job) |}]> es)
           <$> entries s |>.

(** The handle, when the job was stored. *)
Definition asic_job_store_store_slot (s : asic_job_store_t) (slot : Z) (job : option job_ref)
    : option Z * asic_job_store_t :=
  match entries s, job with
  | Some _, Some job =>
      if capacity s <=? slot then (None, s) else (Some slot, store_entry s slot slot job)
  | _, _ => (None, s)
  end.

Definition asic_job_store_store_generated (s : asic_job_store_t) (job : option job_ref)
    : option Z * asic_job_store_t :=
  match entries s, job with
  | Some _, Some job =>
      if capacity s =? 0 then (None, s)
      else
        let slot := u8 (next_slot s mod capacity s) in
        let generation := next_generation s in
        let s := s <| next_slot := u16 (next_slot s + 1);
                      next_generation := u64 (next_generation s + 1) |> in
        let s := if next_generation s =? 0 then s <| next_generation := 1 |> else s in
        let generated := Z.lor (u64 (Z.shiftl generation 8)) slot in
        (Some generated, store_entry s slot generated job)
  | _, _ => (None, s)
  end.

(** The entry a handle names, if that entry still carries the handle. *)
Definition find_entry (s : asic_job_store_t) (h : Z) : option asic_job_store_entry_t :=
  match entries s with
  | None => None
  | Some es =>
      if h =? ASIC_WORK_HANDLE_INVALID then None
      else
        let slot := Z.land h 0xff in
        if capacity s <=? slot then None
        else match es !! Z.to_nat slot with
             | Some e => if valid e && (handle e =? h) then Some e else None
             | None => None
             end
  end.

Definition asic_job_store_snapshot_with_context (s : asic_job_store_t) (h : Z)
    : option (asic_job_t * asic_job_context_t) :=
  (fun e => (template e, context e)) <$> find_entry s h.

Definition asic_job_store_snapshot (s : asic_job_store_t) (h : Z) : option asic_job_t :=
  fst <$> asic_job_store_snapshot_with_context s h.

Definition asic_job_store_contains (s : asic_job_store_t) (h : Z) : bool :=
  bool_decide (is_Some (find_entry s h)).

Definition asic_job_store_release (s : asic_job_store_t) (h : Z) : bool * asic_job_store_t :=
  match find_entry s h with
  | Some _ =>
      (true, s <| entries := (fun es => <[Z.to_nat (Z.land h 0xff) := clear_entry]> es) <$> entries s |>)
  | None => (false, s)
  end.

Definition asic_job_store_invalidate_all (s : asic_job_store_t) : asic_job_store_t :=
  match entries s with
  | None => s
  | Some es =>
      let n := Z.to_nat (capacity s) in
      let s := s <| entries := Some (replicate (Nat.min n (length es)) clear_entry ++ drop n es);
                    next_slot := 0; next_generation := u64 (next_generation s + 1) |> in
      if next_generation s =? 0 then s <| next_generation := 1 |> else s
  end.

Definition asic_job_store_destroy (s : asic_job_store_t) : asic_job_store_t := zero_store.

(** ** Invariant and lemmas *)

Definition slot_of (h : Z) : nat := Z.to_nat (Z.land h 0xff).
Definition generation_of (h : Z) : Z := Z.shiftr h 8.

Definition entry_ok (limit : Z) (slot : nat) (e : asic_job_store_entry_t) : Prop :=
  valid e = true -> 0 <= handle e /\ slot_of (handle e) = slot /\ generation_of (handle e) < limit.

(** A store that is initialised and used with generated handles. *)
Definition store_ok (s : asic_job_store_t) : Prop :=
  capacity s = 256 /\ 1 <= next_generation s /\
  exists es, entries s = Some es /\ length es = 256%nat /\
    forall i e, es !! i = Some e -> entry_ok (next_generation s) i e.

Definition make_handle (generation slot : Z) : Z := generation * 256 + slot.

Lemma land_ff h : Z.land h 0xff = h mod 256.
Proof. change 0xff with (Z.ones 8). by rewrite Z.land_ones. Qed.

Lemma slot_of_lt h : (slot_of h < 256)%nat.
Proof. unfold slot_of. rewrite land_ff. pose proof (Z.mod_pos_bound h 256). lia. Qed.

Lemma generated_handle g slot :
  0 <= g < 2 ^ 56 -> 0 <= slot < 256 ->
  Z.lor (u64 (Z.shiftl g 8)) slot = make_handle g slot /\
  slot_of (make_handle g slot) = Z.to_nat slot /\ generation_of (make_handle g slot) = g.
Proof.
  intros Hg Hs. unfold make_handle, slot_of, generation_of.
  rewrite land_ff, Z.shiftr_div_pow2, Z.shiftl_mul_pow2 by lia.
  change (2 ^ 8) with 256. change (2 ^ 56) with 72057594037927936 in Hg.
  rewrite u64_small by lia. split_and!.
  - rewrite Z.lor_comm. change 256 with (2 ^ 8). rewrite <- Z.shiftl_mul_pow2 by lia.
    rewrite lor_shiftl_add by lia. rewrite Z.shiftl_mul_pow2 by lia. change (2 ^ 8) with 256. lia.
  - f_equal. rewrite Z.add_comm, Z.mod_add by lia. by apply Z.mod_small.
  - rewrite Z.add_comm, Z.div_add by lia. rewrite Z.div_small by lia. lia.
Qed.

Definition entry_matches (h : Z) (e : asic_job_store_entry_t) : bool := valid e && (handle e =? h).

Lemma find_entry_ok s es h :
  capacity s = 256 -> entries s = Some es ->
  find_entry s h =
    if h =? ASIC_WORK_HANDLE_INVALID then None
    else match es !! slot_of h with
         | Some e => if entry_matches h e then Some e else None
         | None => None
         end.
Proof.
  intros Hc He. unfold find_entry. rewrite He, Hc. destruct (h =? _); [done|].
  pose proof (Z.mod_pos_bound h 256). rewrite (proj2 (Z.leb_gt _ _)) by (rewrite land_ff; lia).
  done.
Qed.

Lemma find_entry_insert s s' es k e h :
  capacity s = 256 -> capacity s' = 256 -> entries s = Some es ->
  entries s' = Some (<[k := e]> es) -> (k < length es)%nat ->
  find_entry s' h =
    if decide (slot_of h = k) then
      if (h =? ASIC_WORK_HANDLE_INVALID) || negb (entry_matches h e) then None else Some e
    else find_entry s h.
Proof.
  intros Hc Hc' He He' Hk.
  rewrite (find_entry_ok s' _ h Hc' He'), (find_entry_ok s _ h Hc He).
  destruct (h =? ASIC_WORK_HANDLE_INVALID); [by case_decide|]. case_decide.
  - subst k. rewrite list_lookup_insert_eq by done. by destruct (entry_matches h e).
  - by rewrite list_lookup_insert_ne by congruence.
Qed.

(** The effect of a generated store. *)
Lemma store_generated_spec s job :
  store_ok s -> next_generation s < 2 ^ 56 - 1 ->
  let slot := next_slot s mod 256 in
  let h := make_handle (next_generation s) slot in
  exists s', asic_job_store_store_generated s (Some job) = (Some h, s') /\ store_ok s' /\
    next_generation s' = next_generation s + 1 /\ next_slot s' = u16 (next_slot s + 1) /\
    slot_of h = Z.to_nat slot /\ generation_of h = next_generation s /\
    h <> ASIC_WORK_HANDLE_INVALID /\ find_entry s h = None /\
    forall h', find_entry s' h' =
      if decide (h' = h) then
        Some {| valid := true; handle := h; template := pointee job;
                context := snd (bound_context s job) |}
      else if decide (slot_of h' = slot_of h) then None else find_entry s h'.
Proof.
  intros (Hc & Hg & es & He & Hl & Hok) Hlt. cbn zeta.
  assert (Hs : 0 <= next_slot s mod 256 < 256) by (apply Z.mod_pos_bound; lia).
  destruct (generated_handle (next_generation s) (next_slot s mod 256)) as (Hh & Hslot & Hgen); [lia..|].
  set (h := make_handle _ _) in *.
  assert (Hinv : h <> ASIC_WORK_HANDLE_INVALID).
  { unfold h, make_handle, ASIC_WORK_HANDLE_INVALID, UINT64_MAX.
    change (2 ^ 56) with 72057594037927936 in Hlt. lia. }
  unfold asic_job_store_store_generated. rewrite He, Hc. cbn [Z.eqb].
  rewrite u8_small by lia. rewrite Hh.
  change (next_generation (_ <| next_slot := _ |> <| next_generation := ?g |>)) with g.
  rewrite u64_small by (change (2 ^ 56) with 72057594037927936 in Hlt; lia).
  cbn [set_field next_generation]. rewrite (proj2 (Z.eqb_neq _ _)) by lia.
  unfold store_entry. cbn [set_field entries]. rewrite He. cbn [fmap option_fmap option_map].
  set (e := {| valid := true; handle := h; template := pointee job;
               context := snd (bound_context s job) |}).
  eexists. split; [reflexivity|].
  assert (Hk : (Z.to_nat (next_slot s mod 256) < length es)%nat) by (rewrite Hl; lia).
  split_and!; try done.
  - unfold store_ok. cbn. split_and!; [done|lia|]. eexists. split; [reflexivity|].
    rewrite length_insert. split; [done|]. intros i x Hx.
    apply list_lookup_insert_Some in Hx as [(<- & <- & _)|(Hne & Hx)].
    + intros _. cbn. split_and!; [unfold h, make_handle; lia|done|lia].
    + intros Hv. destruct (Hok i x Hx Hv) as (? & ? & ?). split_and!; try done. lia.
  - rewrite (find_entry_ok s es h Hc He). destruct (h =? _); [done|].
    rewrite Hslot. destruct (es !! _) as [x|] eqn:Hx; [|done].
    unfold entry_matches. destruct (valid x) eqn:Hv; [|done]. cbn.
    destruct (Hok _ x Hx Hv) as (_ & _ & Hx3).
    destruct (Z.eqb_spec (handle x) h) as [Heq|]; [|done]. rewrite Heq, Hgen in Hx3. lia.
  - intros h'. rewrite (find_entry_insert s _ es (Z.to_nat (next_slot s mod 256)) e h') by done.
    rewrite Hslot. destruct (decide (h' = h)) as [->|Hne].
    + rewrite decide_True by done. apply Z.eqb_neq in Hinv as ->. unfold entry_matches. cbn.
      by rewrite Z.eqb_refl.
    + case_decide; [|done]. unfold entry_matches. cbn.
      rewrite (proj2 (Z.eqb_neq h h')) by congruence. by rewrite orb_true_r.
Qed.

Lemma release_spec s h :
  store_ok s ->
  let '(released, s') := asic_job_store_release s h in
  released = asic_job_store_contains s h /\ store_ok s' /\
  next_generation s' = next_generation s /\
  forall h', find_entry s' h' = if decide (h' = h) then None else find_entry s h'.
Proof.
  intros Hok. pose proof Hok as (Hc & Hg & es & He & Hl & Hes).
  unfold asic_job_store_release, asic_job_store_contains.
  destruct (find_entry s h) as [x|] eqn:Hf.
  2: { split_and!; [by rewrite bool_decide_false by (by intros [])|done|done|].
       intros h'. case_decide; [by subst|done]. }
  rewrite He. cbn [fmap option_fmap option_map].
  pose proof Hf as Hfx. rewrite (find_entry_ok s es h Hc He) in Hfx.
  destruct (h =? ASIC_WORK_HANDLE_INVALID) eqn:Hinv; [done|].
  destruct (es !! slot_of h) as [y|] eqn:Hy; [|done].
  destruct (entry_matches h y) eqn:Hm; [|done]. injection Hfx as ->.
  split_and!; [by rewrite bool_decide_true by done| |done|].
  - unfold store_ok. cbn. split_and!; [done|done|]. eexists. split; [reflexivity|].
    rewrite length_insert. split; [done|]. intros i e Hx.
    apply list_lookup_insert_Some in Hx as [(_ & <- & _)|(_ & Hx)]; [done|by apply Hes].
  - intros h'. fold (slot_of h).
    rewrite (find_entry_insert s _ es (slot_of h) clear_entry h')
      by (try done; rewrite Hl; apply slot_of_lt).
    unfold entry_matches at 1. cbn. rewrite orb_true_r.
    destruct (decide (h' = h)) as [->|Hne]; [by rewrite decide_True|].
    case_decide as Hsl; [|done]. rewrite (find_entry_ok s es h' Hc He), Hsl, Hy.
    destruct (h' =? _); [done|]. unfold entry_matches in *. prop_bool.
    match goal with E : (handle x =? h) = true |- _ => apply Z.eqb_eq in E; rewrite E end.
    rewrite (proj2 (Z.eqb_neq h h')) by congruence. by rewrite andb_false_r.
Qed.

Lemma invalidate_spec s :
  store_ok s -> next_generation s < 2 ^ 56 ->
  let s' := asic_job_store_invalidate_all s in
  store_ok s' /\ next_generation s' = next_generation s + 1 /\ next_slot s' = 0 /\
  forall h, find_entry s' h = None.
Proof.
  intros (Hc & Hg & es & He & Hl & Hes) Hlt. cbn zeta. unfold asic_job_store_invalidate_all.
  rewrite He, Hc. change (Z.to_nat 256) with 256%nat. rewrite Hl, Nat.min_id.
  rewrite drop_ge by lia. rewrite app_nil_r.
  change (next_generation (_ <| next_generation := ?g |>)) with g.
  rewrite u64_small by (change (2 ^ 56) with 72057594037927936 in Hlt; lia).
  cbn [set_field next_generation]. rewrite (proj2 (Z.eqb_neq _ _)) by lia.
  assert (Hclear : forall i e, replicate 256 clear_entry !! i = Some e -> e = clear_entry).
  { intros i e Hx. by apply lookup_replicate in Hx as [-> _]. }
  split_and!; try done.
  - unfold store_ok. cbn [set_field capacity next_generation entries]. split_and!; [done|lia|].
    eexists. split; [reflexivity|]. split; [done|]. intros i e Hx. by rewrite (Hclear i e Hx).
  - intros h. rewrite (find_entry_ok _ (replicate 256 clear_entry) h) by done.
    destruct (h =? _); [done|]. destruct (_ !! slot_of h) as [e|] eqn:Hx; [|done].
    by rewrite (Hclear _ e Hx).
Qed.

(** ** Sequences of operations *)

Inductive store_op :=
| StoreGenerated (job : job_ref)
| Release (h : Z)
| InvalidateAll
| BeginSubmission (job : job_ref) (ctx : asic_job_context_t)
| EndSubmission.

Definition run_op (s : asic_job_store_t) (op : store_op) : asic_job_store_t :=
  match op with
  | StoreGenerated job => snd (asic_job_store_store_generated s (Some job))
  | Release h => snd (asic_job_store_release s h)
  | InvalidateAll => asic_job_store_invalidate_all s
  | BeginSubmission job ctx => asic_job_store_begin_submission s (Some job) ctx
  | EndSubmission => asic_job_store_end_submission s
  end.
Definition run_ops : asic_job_store_t -> list store_op -> asic_job_store_t := foldl run_op.

Lemma store_ok_submission s s' :
  entries s' = entries s -> capacity s' = capacity s -> next_generation s' = next_generation s ->
  (store_ok s -> store_ok s') /\ forall h, find_entry s' h = find_entry s h.
Proof. intros H1 H2 H3. unfold store_ok, find_entry. by rewrite H1, H2, H3. Qed.

(** One operation: a handle issued before it keeps its entry or loses it. *)
Lemma run_op_spec s op :
  store_ok s -> next_generation s < 2 ^ 56 - 1 ->
  store_ok (run_op s op) /\
  next_generation s <= next_generation (run_op s op) <= next_generation s + 1 /\
  forall h, generation_of h < next_generation s ->
    find_entry (run_op s op) h = find_entry s h \/ find_entry (run_op s op) h = None.
Proof.
  intros Hok Hlt. destruct op as [job|h0| |job ctx|]; cbn [run_op].
  - destruct (store_generated_spec s job Hok Hlt)
      as (s' & -> & Hok' & Hg & _ & _ & Hgen & _ & _ & Hf). cbn [snd].
    split_and!; [done|lia|lia|]. intros h Hh. rewrite Hf.
    rewrite decide_False by (intros ->; lia). case_decide; auto.
  - pose proof (release_spec s h0 Hok) as H. destruct (asic_job_store_release s h0) as [b s'].
    destruct H as (_ & Hok' & Hg & Hf). cbn [snd]. split_and!; [done|lia|lia|].
    intros h _. rewrite Hf. case_decide; auto.
  - destruct (invalidate_spec s Hok) as (Hok' & Hg & _ & Hf); [lia|].
    split_and!; [done|lia|lia|]. intros h _. right. apply Hf.
  - destruct (store_ok_submission s (asic_job_store_begin_submission s (Some job) ctx)) as [H1 H2];
      try done. split_and!; [by apply H1|cbn; lia|cbn; lia|]. intros h _. left. apply H2.
  - destruct (store_ok_submission s (asic_job_store_end_submission s)) as [H1 H2]; try done.
    split_and!; [by apply H1|cbn; lia|cbn; lia|]. intros h _. left. apply H2.
Qed.

Lemma run_ops_spec ops : forall s,
  store_ok s -> next_generation s + Z.of_nat (length ops) < 2 ^ 56 ->
  store_ok (run_ops s ops) /\
  next_generation s <= next_generation (run_ops s ops) <= next_generation s + Z.of_nat (length ops) /\
  forall h, generation_of h < next_generation s ->
    find_entry (run_ops s ops) h = find_entry s h \/ find_entry (run_ops s ops) h = None.
Proof.
  induction ops as [|op ops IH]; intros s Hok Hlt; cbn [run_ops foldl length] in *.
  { split_and!; try done; try lia. by left. }
  destruct (run_op_spec s op Hok) as (Hok' & Hg & Hf); [lia|].
  destruct (IH (run_op s op) Hok') as (Hok2 & Hg2 & Hf2); [lia|].
  change (foldl run_op (run_op s op) ops) with (run_ops (run_op s op) ops).
  split_and!; try done; [lia..|]. intros h Hh.
  destruct (Hf2 h) as [-> | ->]; [lia| |by right]. by apply Hf.
Qed.

Lemma init_ok : store_ok (snd (asic_job_store_init true true true)).
Proof.
  unfold store_ok. split_and!; [done|by vm_compute|]. eexists. split; [reflexivity|].
  split; [done|]. intros i e He. apply lookup_replicate in He as [-> _]. done.
Qed.

(** Consecutive generated stores. *)
Fixpoint store_jobs (s : asic_job_store_t) (jobs : list job_ref) : list Z * asic_job_store_t :=
  match jobs with
  | [] => ([], s)
  | job :: jobs =>
      match asic_job_store_store_generated s (Some job) with
      | (Some h, s) => let '(hs, s) := store_jobs s jobs in (h :: hs, s)
      | (None, s) => ([], s)
      end
  end.

Lemma u16_add_mod x j : (u16 x + j) mod 256 = (x + j) mod 256.
Proof.
  rewrite <- Z.add_mod_idemp_l by lia. unfold u16, wrap.
  rewrite Z.mod_mod_divide by (by exists 256). by rewrite Z.add_mod_idemp_l by lia.
Qed.

Lemma store_jobs_old jobs : forall s h e,
  store_ok s -> next_generation s + Z.of_nat (length jobs) < 2 ^ 56 ->
  0 <= next_slot s < 65536 -> generation_of h < next_generation s ->
  find_entry s h = Some e ->
  (forall j, (j < length jobs)%nat -> Z.of_nat (slot_of h) <> (next_slot s + Z.of_nat j) mod 256) ->
  find_entry (snd (store_jobs s jobs)) h = Some e.
Proof.
  induction jobs as [|job jobs IH]; intros s h e Hok Hlt Hns Hgen Hf Hslots; cbn [store_jobs]; [done|].
  cbn [length] in Hlt.
  destruct (store_generated_spec s job Hok) as (s' & -> & Hok' & Hg & Hn & Hsl & Hgen' & _ & _ & Hfind); [lia|].
  pose proof (Z.mod_pos_bound (next_slot s) 256 ltac:(lia)) as Hb.
  assert (Hmod : forall j, (u16 (next_slot s + 1) + Z.of_nat j) mod 256 =
                           (next_slot s + Z.of_nat (S j)) mod 256).
  { intros j. rewrite u16_add_mod. f_equal. lia. }
  destruct (store_jobs s' jobs) as [hs s2] eqn:Hrest. cbn [snd].
  replace s2 with (snd (store_jobs s' jobs)) by (by rewrite Hrest).
  apply IH; try done; try lia.
  - rewrite Hn. apply u16_range.
  - rewrite Hfind. rewrite decide_False by (intros ->; lia).
    rewrite decide_False; [done|]. rewrite Hsl. intros Heq.
    apply (Hslots 0%nat); [cbn; lia|]. rewrite Z.add_0_r. lia.
  - intros j Hj. rewrite Hn, Hmod. apply Hslots. cbn. lia.
Qed.

Lemma store_jobs_all jobs : forall s,
  store_ok s -> next_generation s + Z.of_nat (length jobs) < 2 ^ 56 ->
  0 <= next_slot s < 65536 -> (length jobs <= 256)%nat ->
  let '(hs, s') := store_jobs s jobs in
  length hs = length jobs /\
  forall i h job, hs !! i = Some h -> jobs !! i = Some job ->
    asic_job_store_snapshot s' h = Some (pointee job).
Proof.
  induction jobs as [|job jobs IH]; intros s Hok Hlt Hns Hlen; cbn [store_jobs]; [done|].
  cbn [length] in *.
  destruct (store_generated_spec s job Hok) as (s' & Heq & Hok' & Hg & Hn & Hsl & Hgen' & _ & _ & Hfind); [lia|].
  rewrite Heq. specialize (IH s' Hok'). rewrite Hg, Hn in IH.
  specialize (IH ltac:(lia) (u16_range _) ltac:(lia)).
  set (h := make_handle _ _) in *.
  assert (Hold : find_entry (snd (store_jobs s' jobs)) h =
    Some {| valid := true; handle := h; template := pointee job; context := snd (bound_context s job) |}).
  { apply store_jobs_old; try done; try lia.
    - rewrite Hn. apply u16_range.
    - rewrite Hfind. by rewrite decide_True.
    - intros j Hj. rewrite Hsl, Hn, Z2Nat.id by (apply Z.mod_pos_bound; lia).
      rewrite u16_add_mod. intros Hm.
      assert (Hd : (next_slot s + 1 + Z.of_nat j - next_slot s) mod 256 = 0).
      { rewrite Zminus_mod, <- Hm, Z.sub_diag. done. }
      replace (next_slot s + 1 + Z.of_nat j - next_slot s) with (Z.of_nat (S j)) in Hd by lia.
      rewrite Z.mod_small in Hd by lia. lia. }
  destruct (store_jobs s' jobs) as [hs s2]. destruct IH as [IHl IH]. cbn [snd] in Hold.
  split; [cbn; by f_equal|]. intros [|i] h' job' Hh Hj; cbn in Hh, Hj.
  - injection Hh as <-. injection Hj as <-.
    unfold asic_job_store_snapshot, asic_job_store_snapshot_with_context. by rewrite Hold.
  - by apply (IH i).
Qed.

(** ** The header *)

Definition job_ok (job : asic_job_t) : Prop :=
  length (prev_hash job) = 32%nat /\ length (merkle_root job) = 32%nat /\
  is_u32 (ntime job) /\ is_u32 (nbits job).

Lemma write_le32_list v :
  write_le32 v = [u8 v; u8 (Z.shiftr v 8); u8 (Z.shiftr v 16); u8 (Z.shiftr v 24)].
Proof. unfold write_le32. cbn. by rewrite Z.shiftr_0_r. Qed.

Lemma read_write_le32 v pre post :
  is_u32 v -> read_le32 (pre ++ write_le32 v ++ post) (length pre) = v.
Proof.
  intros Hv. unfold read_le32, byte_at. rewrite write_le32_list.
  rewrite !app_nth2_plus. rewrite (app_nth2 pre) by lia. rewrite Nat.sub_diag. cbn [app nth].
  rewrite le32_sum by apply u8_is_u8. by apply le32_bytes.
Qed.

Lemma read_le32_at n pre post l v :
  l = pre ++ write_le32 v ++ post -> length pre = n -> is_u32 v -> read_le32 l n = v.
Proof. intros -> <- Hv. by apply read_write_le32. Qed.

(** ** Properties *)

(** The 80-byte header carries every field at its Bitcoin offset in little
    endian: version at 0, previous hash at 4, merkle root at 36, time at 68,
    bits at 72 and nonce at 76. *)
Theorem job_header_fields job nonce v :
  job_ok job -> is_u32 nonce -> is_u32 v ->
  let header := asic_job_header job nonce v in
  length header = 80%nat /\ read_le32 header 0 = v /\
  take 32 (drop 4 header) = prev_hash job /\ take 32 (drop 36 header) = merkle_root job /\
  read_le32 header 68 = ntime job /\ read_le32 header 72 = nbits job /\
  read_le32 header 76 = nonce.
Proof.
  intros (Hp & Hm & Ht & Hb) Hn Hv. cbn zeta. unfold asic_job_header.
  assert (Hl : forall x, length (write_le32 x) = 4%nat) by (intros; by rewrite write_le32_list).
  split_and!.
  - rewrite !length_app, !Hl, Hp, Hm. done.
  - by apply (read_write_le32 v []).
  - rewrite drop_app_length' by (by rewrite Hl). by apply take_app_length'.
  - rewrite app_assoc, drop_app_length' by (rewrite length_app, Hl; lia).
    by apply take_app_length'.
  - apply (read_le32_at 68 (write_le32 v ++ prev_hash job ++ merkle_root job)
             (write_le32 (nbits job) ++ write_le32 nonce)); [by rewrite <- !app_assoc| |done].
    rewrite !length_app, Hl. lia.
  - apply (read_le32_at 72 (write_le32 v ++ prev_hash job ++ merkle_root job ++ write_le32 (ntime job))
             (write_le32 nonce)); [by rewrite <- !app_assoc| |done].
    rewrite !length_app, !Hl. lia.
  - apply (read_le32_at 76 (write_le32 v ++ prev_hash job ++ merkle_root job ++
             write_le32 (ntime job) ++ write_le32 (nbits job)) []);
      [by rewrite app_nil_r, <- !app_assoc| |done].
    rewrite !length_app, !Hl. lia.
Qed.

(** A generated store issues a handle that named nothing before, retains
    exactly the job and the submission context under it, evicts at most the
    previous assignment of the same slot and changes no other handle. *)
Theorem job_store_generated_fresh s job :
  store_ok s -> next_generation s < 2 ^ 56 - 1 ->
  exists h s',
    asic_job_store_store_generated s (Some job) = (Some h, s') /\ store_ok s' /\
    asic_job_store_contains s h = false /\
    asic_job_store_snapshot_with_context s' h =
      Some (pointee job, snd (bound_context s job)) /\
    forall h', h' <> h ->
      asic_job_store_snapshot_with_context s' h' =
        if decide (slot_of h' = slot_of h) then None
        else asic_job_store_snapshot_with_context s h'.
Proof.
  intros Hok Hlt.
  destruct (store_generated_spec s job Hok Hlt) as (s' & Heq & Hok' & _ & _ & _ & _ & _ & Hnone & Hf).
  eexists _, s'. split; [exact Heq|]. split; [done|].
  unfold asic_job_store_contains, asic_job_store_snapshot_with_context.
  split_and!; [by rewrite Hnone|rewrite Hf; by rewrite decide_True|].
  intros h' Hne. rewrite Hf, (decide_False (P := h' = _)) by done. by case_decide.
Qed.

(** Stale results are rejected: through any sequence of generated stores,
    releases, invalidations and submissions, a handle issued before the
    sequence either still names exactly the assignment it named, or nothing;
    in particular a handle that was released, evicted or invalidated never
    names work again, as long as the generation counter has not run out of its
    56 bits. *)
Theorem job_store_stale_handles s ops h :
  store_ok s -> generation_of h < next_generation s ->
  next_generation s + Z.of_nat (length ops) < 2 ^ 56 ->
  asic_job_store_snapshot_with_context (run_ops s ops) h =
    asic_job_store_snapshot_with_context s h \/
  asic_job_store_snapshot_with_context (run_ops s ops) h = None.
Proof.
  intros Hok Hh Hlt. destruct (run_ops_spec ops s Hok Hlt) as (_ & _ & Hf).
  unfold asic_job_store_snapshot_with_context.
  destruct (Hf h Hh) as [-> | ->]; [by left|by right].
Qed.

(** Invalidation and release take effect at once: after an invalidation no
    handle names work, and after a release the released handle does not while
    every other handle is unaffected. *)
Theorem job_store_revocation s h :
  store_ok s -> next_generation s < 2 ^ 56 ->
  (forall h', asic_job_store_snapshot (asic_job_store_invalidate_all s) h' = None) /\
  let '(released, s') := asic_job_store_release s h in
  released = asic_job_store_contains s h /\ store_ok s' /\
  asic_job_store_contains s' h = false /\
  forall h', h' <> h -> asic_job_store_snapshot s' h' = asic_job_store_snapshot s h'.
Proof.
  intros Hok Hlt. split.
  - intros h'. destruct (invalidate_spec s Hok Hlt) as (_ & _ & _ & Hf).
    unfold asic_job_store_snapshot, asic_job_store_snapshot_with_context. by rewrite Hf.
  - pose proof (release_spec s h Hok) as H. destruct (asic_job_store_release s h) as [released s'].
    destruct H as (-> & Hok' & _ & Hf). split_and!; [done|done| |].
    + unfold asic_job_store_contains. rewrite Hf. by rewrite decide_True.
    + intros h' Hne. unfold asic_job_store_snapshot, asic_job_store_snapshot_with_context.
      rewrite Hf. by rewrite decide_False.
Qed.

(** The store holds a full rotation: up to 256 consecutive assignments all
    remain addressable, each under its own handle. *)
Theorem job_store_full_rotation s jobs :
  store_ok s -> 0 <= next_slot s < 65536 -> (length jobs <= 256)%nat ->
  next_generation s + Z.of_nat (length jobs) < 2 ^ 56 ->
  let '(hs, s') := store_jobs s jobs in
  length hs = length jobs /\
  forall i h job, hs !! i = Some h -> jobs !! i = Some job ->
    asic_job_store_snapshot s' h = Some (pointee job).
Proof. intros Hok Hns Hlen Hlt. by apply store_jobs_all. Qed.

(** ** Concrete stores *)


(** ** Concrete stores *)

Module Demo.
Definition fresh : asic_job_store_t := (asic_job_store_init true true true).2.
Definition job (a : Z) : job_ref :=
  {| address := a;
     pointee := {| version := a; version_mask := 0x1fffe000; prev_hash := replicate 32 1;
                   merkle_root := replicate 32 2; ntime := 0x65010002; nbits := 0x1d00ffff;
                   starting_nonce := 0; pool_diff := S754_zero false; pool_id := 0;
                   source_type := JOB_TYPE_V1; job_id := []; extranonce2 := [] |} |}.
(** Two assignments; the first handle is 256 (generation 1, slot 0). *)
Definition assigned : asic_job_store_t := run_ops fresh [StoreGenerated (job 7); StoreGenerated (job 8)].
Definition later : list store_op := [Release 256; StoreGenerated (job 9); InvalidateAll; StoreGenerated (job 10)].

Lemma assigned_ok : store_ok assigned.
Proof. apply run_ops_spec; [exact init_ok|by vm_compute]. Qed.

Example assigned_handles :
  (asic_job_store_contains assigned 256, asic_job_store_contains assigned (2 * 256 + 1),
   asic_job_store_contains (run_ops assigned later) 256,
   asic_job_store_contains (run_ops assigned later) (2 * 256 + 1)) = (true, true, false, false).
Proof. by vm_compute. Qed.

Lemma job_header_fields_witness :
  job_ok (pointee (job 7)) /\
  let header := asic_job_header (pointee (job 7)) 0xdeadbeef 0x20000000 in
  length header = 80%nat /\ read_le32 header 0 = 0x20000000 /\
  take 32 (drop 4 header) = prev_hash (pointee (job 7)) /\
  take 32 (drop 36 header) = merkle_root (pointee (job 7)) /\
  read_le32 header 68 = ntime (pointee (job 7)) /\ read_le32 header 72 = nbits (pointee (job 7)) /\
  read_le32 header 76 = 0xdeadbeef.
Proof.
  assert (job_ok (pointee (job 7))) as H by (unfold job_ok, in_width; cbn; lia).
  split; [exact H|]. apply (job_header_fields (pointee (job 7)) 0xdeadbeef 0x20000000);
    [exact H|unfold in_width; lia|unfold in_width; lia].
Defined.

Lemma job_store_generated_fresh_witness :
  store_ok assigned /\
  exists h s',
    asic_job_store_store_generated assigned (Some (job 9)) = (Some h, s') /\ store_ok s' /\
    asic_job_store_contains assigned h = false /\
    asic_job_store_snapshot_with_context s' h =
      Some (pointee (job 9), snd (bound_context assigned (job 9))) /\
    forall h', h' <> h ->
      asic_job_store_snapshot_with_context s' h' =
        if decide (slot_of h' = slot_of h) then None
        else asic_job_store_snapshot_with_context assigned h'.
Proof.
  split; [exact assigned_ok|].
  apply (job_store_generated_fresh assigned (job 9)); [exact assigned_ok|by vm_compute].
Defined.

Lemma job_store_stale_handles_witness :
  store_ok assigned /\
  (asic_job_store_snapshot_with_context (run_ops assigned later) 256 =
     asic_job_store_snapshot_with_context assigned 256 \/
   asic_job_store_snapshot_with_context (run_ops assigned later) 256 = None).
Proof.
  split; [exact assigned_ok|].
  apply (job_store_stale_handles assigned later 256); [exact assigned_ok|by vm_compute|by vm_compute].
Defined.

Lemma job_store_revocation_witness :
  store_ok assigned /\
  (forall h', asic_job_store_snapshot (asic_job_store_invalidate_all assigned) h' = None) /\
  let '(released, s') := asic_job_store_release assigned 256 in
  released = asic_job_store_contains assigned 256 /\ store_ok s' /\
  asic_job_store_contains s' 256 = false /\
  forall h', h' <> 256 -> asic_job_store_snapshot s' h' = asic_job_store_snapshot assigned h'.
Proof.
  split; [exact assigned_ok|].
  apply (job_store_revocation assigned 256); [exact assigned_ok|by vm_compute].
Defined.

Lemma job_store_full_rotation_witness :
  store_ok assigned /\
  let '(hs, s') := store_jobs assigned (job <$> seqZ 0 256) in
  length hs = length (job <$> seqZ 0 256) /\
  forall i h j, hs !! i = Some h -> (job <$> seqZ 0 256) !! i = Some j ->
    asic_job_store_snapshot s' h = Some (pointee j).
Proof.
  split; [exact assigned_ok|].
  apply (job_store_full_rotation assigned (job <$> seqZ 0 256));
    [exact assigned_ok|by vm_compute|by vm_compute; lia|by vm_compute].
Defined.
End Demo.
