(* ===== verification/Bridge.v ===== *)
(** * The control link to the bridge controller

    Models src/components/asic/bzm_bridge.c and include/bzm_bridge.h: the
    request and response framing, the decoders of the bridge's information,
    receive statistics and safety status, and the transactions over the control
    UART with the link's own state (initialised, in maintenance, next command
    id).  The UART driver, the clock and the tick conversion belong to the
    vendor's framework: they are the operations of [uart_ops], over a world [W].
    The mutex around each access makes it one step.  [read_exact] loops until
    the bytes arrive or the clock passes the deadline, so it carries fuel;
    [read_exact_returns] gives the fuel that is enough.  Wire enumerations are
    kept as the integers the code range-checks and casts. *)

From S2P Require Import Prelude Float32.

(** ** Data *)

Definition BZM_BRIDGE_PAGE_GPIO : Z := 0x06.
Definition BZM_BRIDGE_PAGE_FAN : Z := 0x09.
Definition BZM_BRIDGE_PAGE_SYSTEM : Z := 0x00.
Definition BZM_BRIDGE_SYSTEM_GET_INFO : Z := 0x01.
Definition BZM_BRIDGE_SYSTEM_GET_RX_STATS : Z := 0x02.
Definition BZM_BRIDGE_SYSTEM_GET_SAFETY_STATUS : Z := 0x10.
Definition BZM_BRIDGE_SYSTEM_ARM_SAFETY_LEASE : Z := 0x11.
Definition BZM_BRIDGE_SYSTEM_SAFETY_HEARTBEAT : Z := 0x12.
Definition BZM_BRIDGE_SYSTEM_CLEAR_SAFETY_FAULT : Z := 0x13.
Definition BZM_BRIDGE_SYSTEM_DISARM_SAFETY_LEASE : Z := 0x14.
Definition BZM_BRIDGE_INFO_SCHEMA_VERSION : Z := 0x01.
Definition BZM_BRIDGE_VERSION_MAX_LENGTH : nat := 63.
Definition BZM_BRIDGE_PROTOCOL_MAJOR : Z := 1.
Definition BZM_BRIDGE_RX_STATS_SCHEMA_VERSION : Z := 0x01.
Definition BZM_BRIDGE_RX_STATS_LENGTH : nat := 9.
Definition BZM_BRIDGE_SAFETY_STATUS_SCHEMA_VERSION : Z := 0x01.
Definition BZM_BRIDGE_SAFETY_STATUS_LENGTH : nat := 17.
Definition BZM_BRIDGE_SAFETY_CAP_CORE_POWER_CUTOFF : Z := Z.shiftl 1 4.
Definition BZM_BRIDGE_SAFETY_CAP_FAN_TACH_INTERLOCK : Z := Z.shiftl 1 5.
Definition BZM_BRIDGE_SAFETY_CAP_INDEPENDENT_TRIP_MONITOR : Z := Z.shiftl 1 6.
Definition BZM_BRIDGE_SAFETY_EVIDENCE_OUTPUTS_SAFE : Z := Z.shiftl 1 0.
Definition BZM_BRIDGE_SAFETY_EVIDENCE_LEASE_VALID : Z := Z.shiftl 1 1.
Definition BZM_BRIDGE_SAFETY_EVIDENCE_TRIP_CLEAR : Z := Z.shiftl 1 2.
Definition BZM_BRIDGE_SAFETY_EVIDENCE_FAULT_CLEAR : Z := Z.shiftl 1 3.
Definition BZM_BRIDGE_GPIO_5V_ENABLE : Z := 0x01.
Definition BZM_BRIDGE_GPIO_ASIC_RESET : Z := 0x02.
Definition BZM_BRIDGE_GPIO_ASIC_TRIP : Z := 0x03.
Definition BZM_BRIDGE_FAN_SET_SPEED : Z := 0x10.
Definition BZM_BRIDGE_FAN_GET_TACH : Z := 0x20.
Definition BZM_BRIDGE_MAX_REQUEST_SIZE : nat := 64.
Definition BZM_BRIDGE_MAX_RESPONSE_SIZE : nat := 260.

Definition BZM_BRIDGE_SAFETY_STAGE_BOOT_SAFE : Z := 0.
Definition BZM_BRIDGE_SAFETY_STAGE_LEASE : Z := 1.
Definition BZM_BRIDGE_SAFETY_STAGE_TRIP_LATCH : Z := 2.
Definition BZM_BRIDGE_SAFETY_STATE_SAFE_OFF : Z := 0.
Definition BZM_BRIDGE_SAFETY_STATE_CONTROLLED : Z := 1.
Definition BZM_BRIDGE_SAFETY_STATE_FAULT_LATCHED : Z := 2.
Definition BZM_BRIDGE_SAFETY_FAULT_NONE : Z := 0.
Definition BZM_BRIDGE_SAFETY_FAULT_LEASE_EXPIRED : Z := 1.
Definition BZM_BRIDGE_SAFETY_FAULT_ASIC_TRIP : Z := 2.
Definition BZM_BRIDGE_SAFETY_FAULT_STATUS_INVALID : Z := 0xff.
Definition BZM_BRIDGE_SAFETY_RUNTIME_GOOD_SAFE_OFF : Z := 0.
Definition BZM_BRIDGE_SAFETY_RUNTIME_GOOD_CONTROLLED : Z := 1.
Definition BZM_BRIDGE_SAFETY_RUNTIME_BAD_FAULT : Z := 0x80.
Definition BZM_BRIDGE_SAFETY_RUNTIME_BAD_LEASE : Z := 0x81.
Definition BZM_BRIDGE_SAFETY_RUNTIME_BAD_TRIP_INPUT : Z := 0x82.
Definition BZM_BRIDGE_SAFETY_RUNTIME_BAD_UNSAFE_OUTPUTS : Z := 0x83.
Definition BZM_BRIDGE_SAFETY_PRODUCTION_GOOD : Z := 0.
Definition BZM_BRIDGE_SAFETY_PRODUCTION_BAD_STAGE_DISABLED : Z := 0x80.
Definition BZM_BRIDGE_SAFETY_PRODUCTION_BAD_CAPABILITY_GAP : Z := 0x81.
Definition BZM_BRIDGE_SAFETY_PRODUCTION_BAD_RUNTIME : Z := 0x82.

Record bzm_bridge_info_t := mk_info {
  info_schema_version : Z;
  protocol_major : Z;
  protocol_minor : Z;
  info_version : list Z;
}.

Record bzm_bridge_rx_stats_t := mk_rx_stats {
  stats_valid : bool;
  stats_schema_version : Z;
  pio_fifo_overflows : Z;
  software_ring_overflows : Z;
}.

Record bzm_bridge_safety_status_t := mk_safety_status {
  valid : bool;
  schema_version : Z;
  stage : Z;
  state : Z;
  fault : Z;
  runtime_verdict : Z;
  production_verdict : Z;
  capabilities : Z;
  evidence : Z;
  lease_remaining_ms : Z;
  five_volt_enabled : bool;
  asic_reset_asserted : bool;
  fan_full : bool;
  fan_percent : Z;
  trip_input_asserted : bool;
}.

(** ** Framing *)

(** The encoded request; empty when it is refused (return value 0). *)
Definition bzm_bridge_encode_request (id page command : Z) (payload : list Z)
    (encoded_capacity : nat) : list Z :=
  let frame_length := (length payload + 6)%nat in
  if (UINT16_MAX <? Z.of_nat frame_length) || (encoded_capacity <? frame_length)%nat then []
  else
    [Z.land (Z.of_nat frame_length) 0xff; Z.land (Z.shiftr (Z.of_nat frame_length) 8) 0xff;
     id; 0; page; command] ++ payload.

(** The result code and the payload the out-parameters designate. *)
Definition bzm_bridge_decode_response (expected_id : Z) (frame : list Z)
    : esp_err_t * option (list Z) :=
  if (length frame <? 3)%nat then (ESP_ERR_INVALID_ARG, None)
  else
    let declared_length := read_le16 frame 0 in
    if negb (declared_length =? Z.of_nat (length frame)) || negb (byte_at frame 2 =? expected_id)
    then (ESP_ERR_INVALID_RESPONSE, None)
    else
      let payload := drop 3 frame in
      if (length payload =? 1)%nat then
        let code := byte_at payload 0 in
        (if code =? 0x10 then ESP_ERR_TIMEOUT
         else if code =? 0x11 then ESP_ERR_NOT_SUPPORTED
         else if (code =? 0x12) || (code =? 0x13) then ESP_ERR_INVALID_STATE
         else ESP_OK, Some payload)
      else (ESP_OK, Some payload).

(** ** Decoders *)

Definition bzm_bridge_decode_info (payload : list Z) : esp_err_t * option bzm_bridge_info_t :=
  if (length payload <? 4)%nat then (ESP_ERR_INVALID_ARG, None)
  else
    let version_length := Z.to_nat (byte_at payload 3) in
    if negb (byte_at payload 0 =? BZM_BRIDGE_INFO_SCHEMA_VERSION) ||
       (version_length =? 0)%nat || (BZM_BRIDGE_VERSION_MAX_LENGTH <? version_length)%nat ||
       negb (length payload =? 4 + version_length)%nat
    then (ESP_ERR_INVALID_RESPONSE, None)
    else if existsb (fun b => (b <? 0x20) || (0x7e <? b)) (take version_length (drop 4 payload))
    then (ESP_ERR_INVALID_RESPONSE, None)
    else
      (ESP_OK, Some {| info_schema_version := byte_at payload 0;
                       protocol_major := byte_at payload 1;
                       protocol_minor := byte_at payload 2;
                       info_version := take version_length (drop 4 payload) ++
                         replicate (BZM_BRIDGE_VERSION_MAX_LENGTH + 1 - version_length) 0 |}).

Definition bzm_bridge_info_supports_safety (info : bzm_bridge_info_t) : bool :=
  (info_schema_version info =? BZM_BRIDGE_INFO_SCHEMA_VERSION) &&
  (protocol_major info =? BZM_BRIDGE_PROTOCOL_MAJOR).

Definition bzm_bridge_info_supports_raw_rx (info : bzm_bridge_info_t) : bool :=
  bzm_bridge_info_supports_safety info.

Definition invalidate_rx_stats : bzm_bridge_rx_stats_t :=
  {| stats_valid := false; stats_schema_version := 0; pio_fifo_overflows := 0;
     software_ring_overflows := 0 |}.

Definition invalidate_safety_status : bzm_bridge_safety_status_t :=
  {| valid := false; schema_version := 0; stage := 0;
     state := BZM_BRIDGE_SAFETY_STATE_FAULT_LATCHED;
     fault := BZM_BRIDGE_SAFETY_FAULT_STATUS_INVALID;
     runtime_verdict := BZM_BRIDGE_SAFETY_RUNTIME_BAD_FAULT;
     production_verdict := BZM_BRIDGE_SAFETY_PRODUCTION_BAD_RUNTIME;
     capabilities := 0; evidence := 0; lease_remaining_ms := 0;
     five_volt_enabled := false; asic_reset_asserted := false; fan_full := false;
     fan_percent := 0; trip_input_asserted := false |}.

Definition bzm_bridge_decode_rx_stats (payload : option (list Z))
    : esp_err_t * bzm_bridge_rx_stats_t :=
  match payload with
  | None => (ESP_ERR_INVALID_ARG, invalidate_rx_stats)
  | Some payload =>
      if negb (length payload =? BZM_BRIDGE_RX_STATS_LENGTH)%nat ||
         negb (byte_at payload 0 =? BZM_BRIDGE_RX_STATS_SCHEMA_VERSION)
      then (ESP_ERR_INVALID_RESPONSE, invalidate_rx_stats)
      else (ESP_OK, {| stats_valid := true; stats_schema_version := byte_at payload 0;
                       pio_fifo_overflows := read_le32 payload 1;
                       software_ring_overflows := read_le32 payload 5 |})
  end.

Definition valid_safety_stage (v : Z) : bool := v <=? BZM_BRIDGE_SAFETY_STAGE_TRIP_LATCH.
Definition valid_safety_state (v : Z) : bool := v <=? BZM_BRIDGE_SAFETY_STATE_FAULT_LATCHED.
Definition valid_safety_fault (v : Z) : bool := v <=? BZM_BRIDGE_SAFETY_FAULT_ASIC_TRIP.
Definition valid_runtime_verdict (v : Z) : bool :=
  (v =? BZM_BRIDGE_SAFETY_RUNTIME_GOOD_SAFE_OFF) || (v =? BZM_BRIDGE_SAFETY_RUNTIME_GOOD_CONTROLLED) ||
  (v =? BZM_BRIDGE_SAFETY_RUNTIME_BAD_FAULT) || (v =? BZM_BRIDGE_SAFETY_RUNTIME_BAD_LEASE) ||
  (v =? BZM_BRIDGE_SAFETY_RUNTIME_BAD_TRIP_INPUT) ||
  (v =? BZM_BRIDGE_SAFETY_RUNTIME_BAD_UNSAFE_OUTPUTS).
Definition valid_production_verdict (v : Z) : bool :=
  (v =? BZM_BRIDGE_SAFETY_PRODUCTION_GOOD) ||
  (v =? BZM_BRIDGE_SAFETY_PRODUCTION_BAD_STAGE_DISABLED) ||
  (v =? BZM_BRIDGE_SAFETY_PRODUCTION_BAD_CAPABILITY_GAP) ||
  (v =? BZM_BRIDGE_SAFETY_PRODUCTION_BAD_RUNTIME).

(** The union of the eight capability bits, and of the seven evidence bits. *)
Definition known_capabilities : Z := 0xff.
Definition known_evidence : Z := 0x7f.
Definition production_capabilities : Z :=
  Z.lor (Z.lor BZM_BRIDGE_SAFETY_CAP_CORE_POWER_CUTOFF BZM_BRIDGE_SAFETY_CAP_FAN_TACH_INTERLOCK)
        BZM_BRIDGE_SAFETY_CAP_INDEPENDENT_TRIP_MONITOR.

(** [(uint16_t)~mask] and [(uint8_t)~mask]. *)
Definition not16 (mask : Z) : Z := Z.lxor 0xffff mask.
Definition not8 (mask : Z) : Z := Z.lxor 0xff mask.

Definition bzm_bridge_decode_safety_status (payload : option (list Z))
    : esp_err_t * bzm_bridge_safety_status_t :=
  let invalid := (ESP_ERR_INVALID_RESPONSE, invalidate_safety_status) in
  match payload with
  | None => (ESP_ERR_INVALID_ARG, invalidate_safety_status)
  | Some payload =>
      if negb (length payload =? BZM_BRIDGE_SAFETY_STATUS_LENGTH)%nat then invalid
      else
        let stage := byte_at payload 1 in
        let state := byte_at payload 2 in
        let fault := byte_at payload 3 in
        let runtime_verdict := byte_at payload 4 in
        let production_verdict := byte_at payload 5 in
        let capabilities := read_le16 payload 6 in
        let evidence := read_le16 payload 8 in
        let lease_remaining_ms := read_le32 payload 10 in
        let output_flags := byte_at payload 14 in
        let fan_percent := byte_at payload 15 in
        let trip_value := byte_at payload 16 in
        if negb (byte_at payload 0 =? BZM_BRIDGE_SAFETY_STATUS_SCHEMA_VERSION) ||
           negb (valid_safety_stage stage) || negb (valid_safety_state state) ||
           negb (valid_safety_fault fault) || negb (valid_runtime_verdict runtime_verdict) ||
           negb (valid_production_verdict production_verdict) ||
           has_bits capabilities (not16 known_capabilities) ||
           has_bits evidence (not16 known_evidence) || has_bits output_flags (not8 0x07) ||
           (100 <? fan_percent) || (1 <? trip_value)
        then invalid
        else
          let five_volt_enabled := has_bits output_flags 0x01 in
          let asic_reset_asserted := has_bits output_flags 0x02 in
          let fan_full := has_bits output_flags 0x04 in
          let trip_input_asserted := negb (trip_value =? 0) in
          let outputs_safe :=
            negb five_volt_enabled && asic_reset_asserted && (fan_percent =? 100) in
          let lease_valid :=
            (stage =? BZM_BRIDGE_SAFETY_STAGE_BOOT_SAFE) ||
            ((state =? BZM_BRIDGE_SAFETY_STATE_CONTROLLED) && (0 <? lease_remaining_ms)) in
          let fault_clear := fault =? BZM_BRIDGE_SAFETY_FAULT_NONE in
          if xorb fan_full (fan_percent =? 100) ||
             xorb (has_bits evidence BZM_BRIDGE_SAFETY_EVIDENCE_OUTPUTS_SAFE) outputs_safe ||
             xorb (has_bits evidence BZM_BRIDGE_SAFETY_EVIDENCE_LEASE_VALID) lease_valid ||
             Bool.eqb (has_bits evidence BZM_BRIDGE_SAFETY_EVIDENCE_TRIP_CLEAR) trip_input_asserted ||
             xorb (has_bits evidence BZM_BRIDGE_SAFETY_EVIDENCE_FAULT_CLEAR) fault_clear ||
             negb (Z.land evidence production_capabilities =?
                   Z.land capabilities production_capabilities)
          then invalid
          else
            let fault_latched := state =? BZM_BRIDGE_SAFETY_STATE_FAULT_LATCHED in
            let boot_safe := stage =? BZM_BRIDGE_SAFETY_STAGE_BOOT_SAFE in
            if xorb fault_latched (negb fault_clear) ||
               ((state =? BZM_BRIDGE_SAFETY_STATE_SAFE_OFF) && negb outputs_safe) ||
               (fault_latched && (negb outputs_safe || negb (lease_remaining_ms =? 0))) ||
               (boot_safe && (negb (lease_remaining_ms =? 0) || fault_latched)) ||
               (negb boot_safe && negb (state =? BZM_BRIDGE_SAFETY_STATE_CONTROLLED) &&
                negb (lease_remaining_ms =? 0)) ||
               ((stage =? BZM_BRIDGE_SAFETY_STAGE_LEASE) &&
                (fault =? BZM_BRIDGE_SAFETY_FAULT_ASIC_TRIP)) ||
               ((stage =? BZM_BRIDGE_SAFETY_STAGE_TRIP_LATCH) && trip_input_asserted &&
                negb fault_latched)
            then invalid
            else
              let expected_runtime :=
                if negb fault_clear then BZM_BRIDGE_SAFETY_RUNTIME_BAD_FAULT
                else if trip_input_asserted then BZM_BRIDGE_SAFETY_RUNTIME_BAD_TRIP_INPUT
                else if state =? BZM_BRIDGE_SAFETY_STATE_SAFE_OFF
                then BZM_BRIDGE_SAFETY_RUNTIME_GOOD_SAFE_OFF
                else if negb boot_safe && negb lease_valid
                then BZM_BRIDGE_SAFETY_RUNTIME_BAD_LEASE
                else BZM_BRIDGE_SAFETY_RUNTIME_GOOD_CONTROLLED in
              if negb (runtime_verdict =? expected_runtime) then invalid
              else
                let runtime_good :=
                  (runtime_verdict =? BZM_BRIDGE_SAFETY_RUNTIME_GOOD_SAFE_OFF) ||
                  (runtime_verdict =? BZM_BRIDGE_SAFETY_RUNTIME_GOOD_CONTROLLED) in
                let expected_production :=
                  if negb (stage =? BZM_BRIDGE_SAFETY_STAGE_TRIP_LATCH)
                  then BZM_BRIDGE_SAFETY_PRODUCTION_BAD_STAGE_DISABLED
                  else if negb runtime_good then BZM_BRIDGE_SAFETY_PRODUCTION_BAD_RUNTIME
                  else if negb (capabilities =? known_capabilities)
                  then BZM_BRIDGE_SAFETY_PRODUCTION_BAD_CAPABILITY_GAP
                  else BZM_BRIDGE_SAFETY_PRODUCTION_GOOD in
                if negb (production_verdict =? expected_production) then invalid
                else
                  (ESP_OK,
                   {| valid := true; schema_version := byte_at payload 0; stage := stage;
                      state := state; fault := fault; runtime_verdict := runtime_verdict;
                      production_verdict := production_verdict; capabilities := capabilities;
                      evidence := evidence; lease_remaining_ms := lease_remaining_ms;
                      five_volt_enabled := five_volt_enabled;
                      asic_reset_asserted := asic_reset_asserted; fan_full := fan_full;
                      fan_percent := fan_percent; trip_input_asserted := trip_input_asserted |})
  end.

Definition bzm_bridge_safety_status_allows_fault_clear (s : bzm_bridge_safety_status_t) : bool :=
  valid s && negb (five_volt_enabled s) && asic_reset_asserted s && fan_full s &&
  (fan_percent s =? 100) && negb (trip_input_asserted s).

(** ** Transactions *)

#[local] Open Scope prog_scope.

(** The module's static variables. *)
Record bridge_t := mk_bridge {
  INITIALIZED : bool;
  MAINTENANCE : bool;
  NEXT_COMMAND_ID : Z;
}.
#[export] Instance bridge_t_eta : Eta bridge_t :=
  fun b => mk_bridge (INITIALIZED b) (MAINTENANCE b) (NEXT_COMMAND_ID b).

(** The vendor's UART driver, clock and delay.  A read returns the bytes
    received within the ticks, or [None] for a negative result. *)
Record uart_ops (W : Type) := mk_uart_ops {
  uart_param_config : io W esp_err_t;
  uart_set_pin : io W esp_err_t;
  uart_driver_install : io W esp_err_t;
  uart_driver_delete : io W unit;
  uart_flush_input : io W unit;
  uart_write_bytes : list Z -> io W Z;
  uart_wait_tx_done : Z -> io W esp_err_t;
  uart_read_bytes : nat -> Z -> io W (option (list Z));
  esp_timer_get_time : io W Z;
  vTaskDelay : Z -> io W unit;
  pdMS_TO_TICKS : Z -> Z;
}.
Arguments uart_param_config {W}.
Arguments uart_set_pin {W}.
Arguments uart_driver_install {W}.
Arguments uart_driver_delete {W}.
Arguments uart_flush_input {W}.
Arguments uart_write_bytes {W}.
Arguments uart_wait_tx_done {W}.
Arguments uart_read_bytes {W}.
Arguments esp_timer_get_time {W}.
Arguments vTaskDelay {W}.
Arguments pdMS_TO_TICKS {W}.

Section link.
Context {W : Type} (uart : uart_ops W) (fuel : nat).

(** The module's state together with the world behind the driver. *)
Abbreviation link := (bridge_t * W)%type.

Definition driver {A} (m : io W A) : prog link A :=
  fun '(b, w) => let '(a, w') := m w in Some (a, (b, w')).
Definition get_bridge : prog link bridge_t := fun '(b, w) => Some (b, (b, w)).
Definition put_bridge (b : bridge_t) : prog link unit := fun '(_, w) => Some (tt, (b, w)).

(** The loop of [read_exact]: [got] is what is in the buffer already. *)
Fixpoint read_loop (fuel : nat) (deadline : Z) (length : nat) (got : list Z)
    : prog link (esp_err_t * list Z) :=
  if (List.length got <? length)%nat then
    match fuel with
    | O => fun _ => None
    | S fuel =>
        let? now := driver (esp_timer_get_time uart) in
        let remaining_us := deadline - now in
        if remaining_us <=? 0 then prog_ret (ESP_ERR_TIMEOUT, got)
        else
          let ticks := pdMS_TO_TICKS uart ((remaining_us + 999) / 1000) in
          let ticks := if ticks =? 0 then 1 else ticks in
          let? received := driver (uart_read_bytes uart (length - List.length got) ticks) in
          match received with
          | None => prog_ret (ESP_FAIL, got)
          | Some bytes => read_loop fuel deadline length (got ++ bytes)
          end
    end
  else prog_ret (ESP_OK, got).

Definition read_exact (length : nat) (timeout_ms : Z) : prog link (esp_err_t * list Z) :=
  let? now := driver (esp_timer_get_time uart) in
  read_loop fuel (now + timeout_ms * 1000) length [].

(** The result code and the response payload. *)
Definition transact (page command : Z) (request_payload : list Z) (response_capacity : nat)
    (timeout_ms : Z) : prog link (esp_err_t * list Z) :=
  let? b := get_bridge in
  if negb (INITIALIZED b) || MAINTENANCE b then prog_ret (ESP_ERR_INVALID_STATE, [])
  else
    let command_id := NEXT_COMMAND_ID b in
    let? _ := put_bridge (b <| NEXT_COMMAND_ID := u8 (NEXT_COMMAND_ID b + 1) |>) in
    let request := bzm_bridge_encode_request command_id page command request_payload
                     BZM_BRIDGE_MAX_REQUEST_SIZE in
    if (length request =? 0)%nat then prog_ret (ESP_ERR_INVALID_SIZE, [])
    else
      let? _ := driver (uart_flush_input uart) in
      let? written := driver (uart_write_bytes uart request) in
      if negb (written =? Z.of_nat (length request)) then prog_ret (ESP_FAIL, [])
      else
        let? err := driver (uart_wait_tx_done uart (pdMS_TO_TICKS uart 100)) in
        if negb (bool_decide (err = ESP_OK)) then prog_ret (err, [])
        else
          let? (err, header) := read_exact 3 timeout_ms in
          if negb (bool_decide (err = ESP_OK)) then prog_ret (err, [])
          else
            let frame_length := read_le16 header 0 in
            if (frame_length <? 3) || (Z.of_nat BZM_BRIDGE_MAX_RESPONSE_SIZE <? frame_length)
            then prog_ret (ESP_ERR_INVALID_RESPONSE, [])
            else
              let? (err, body) := read_exact (Z.to_nat frame_length - 3) timeout_ms in
              if negb (bool_decide (err = ESP_OK)) then prog_ret (err, [])
              else
                match bzm_bridge_decode_response command_id (header ++ body) with
                | (ESP_OK, Some payload) =>
                    if (response_capacity <? length payload)%nat
                    then prog_ret (ESP_ERR_INVALID_SIZE, [])
                    else prog_ret (ESP_OK, payload)
                | (err, _) => prog_ret (err, [])
                end.

Definition set_gpio (command : Z) (high : bool) : prog link esp_err_t :=
  let request := if high then 1 else 0 in
  let? (err, response) := transact BZM_BRIDGE_PAGE_GPIO command [request] 1 200 in
  if negb (bool_decide (err = ESP_OK)) then prog_ret err
  else prog_ret (if (length response =? 1)%nat && (byte_at response 0 =? request)
                 then ESP_OK else ESP_ERR_INVALID_RESPONSE).

Definition get_gpio (command : Z) : prog link (esp_err_t * option bool) :=
  let? (err, response) := transact BZM_BRIDGE_PAGE_GPIO command [] 1 200 in
  if negb (bool_decide (err = ESP_OK)) then prog_ret (err, None)
  else if negb (length response =? 1)%nat || (1 <? byte_at response 0)
  then prog_ret (ESP_ERR_INVALID_RESPONSE, None)
  else prog_ret (ESP_OK, Some (negb (byte_at response 0 =? 0))).

Definition BZM_bridge_set_5v_enabled (enabled : bool) : prog link esp_err_t :=
  set_gpio BZM_BRIDGE_GPIO_5V_ENABLE enabled.
Definition BZM_bridge_set_asic_reset (high : bool) : prog link esp_err_t :=
  set_gpio BZM_BRIDGE_GPIO_ASIC_RESET high.

Definition BZM_bridge_init : prog link esp_err_t :=
  let? b := get_bridge in
  if MAINTENANCE b then prog_ret ESP_ERR_INVALID_STATE
  else if INITIALIZED b then prog_ret ESP_OK
  else
    let? err := driver (uart_param_config uart) in
    let? err := if bool_decide (err = ESP_OK) then driver (uart_set_pin uart) else prog_ret err in
    let? err := if bool_decide (err = ESP_OK) then driver (uart_driver_install uart)
                else prog_ret err in
    if negb (bool_decide (err = ESP_OK)) then prog_ret err
    else
      let? _ := put_bridge (b <| INITIALIZED := true |>) in
      let? err := BZM_bridge_set_5v_enabled false in
      let? err := if bool_decide (err = ESP_OK) then BZM_bridge_set_asic_reset false
                  else prog_ret err in
      if negb (bool_decide (err = ESP_OK)) then
        let? b := get_bridge in
        let? _ := put_bridge (b <| INITIALIZED := false |>) in
        let? _ := driver (uart_driver_delete uart) in
        prog_ret err
      else prog_ret ESP_OK.

Definition BZM_bridge_begin_maintenance : prog link esp_err_t :=
  let? b := get_bridge in
  if MAINTENANCE b then prog_ret ESP_ERR_INVALID_STATE
  else
    let? _ := put_bridge (b <| MAINTENANCE := true; INITIALIZED := false |>) in
    if INITIALIZED b then
      let? _ := driver (uart_driver_delete uart) in prog_ret ESP_OK
    else prog_ret ESP_OK.

Definition BZM_bridge_end_maintenance : prog link esp_err_t :=
  let? b := get_bridge in
  if negb (MAINTENANCE b) then prog_ret ESP_ERR_INVALID_STATE
  else
    let? _ := put_bridge (b <| MAINTENANCE := false |>) in
    BZM_bridge_init.

Definition BZM_bridge_is_initialized : prog link bool :=
  let? b := get_bridge in prog_ret (INITIALIZED b).

Definition BZM_bridge_get_info : prog link (esp_err_t * option bzm_bridge_info_t) :=
  let? (err, response) :=
    transact BZM_BRIDGE_PAGE_SYSTEM BZM_BRIDGE_SYSTEM_GET_INFO [] (BZM_BRIDGE_VERSION_MAX_LENGTH + 4) 500 in
  if negb (bool_decide (err = ESP_OK)) then prog_ret (err, None)
  else prog_ret (bzm_bridge_decode_info response).

Definition BZM_bridge_get_rx_stats : prog link (esp_err_t * bzm_bridge_rx_stats_t) :=
  let? (err, response) :=
    transact BZM_BRIDGE_PAGE_SYSTEM BZM_BRIDGE_SYSTEM_GET_RX_STATS [] BZM_BRIDGE_RX_STATS_LENGTH 500 in
  if bool_decide (err = ESP_ERR_INVALID_SIZE) then prog_ret (ESP_ERR_INVALID_RESPONSE, invalidate_rx_stats)
  else if negb (bool_decide (err = ESP_OK)) then prog_ret (err, invalidate_rx_stats)
  else prog_ret (bzm_bridge_decode_rx_stats (Some response)).

Definition safety_command (command : Z) : prog link (esp_err_t * bzm_bridge_safety_status_t) :=
  let? (err, response) :=
    transact BZM_BRIDGE_PAGE_SYSTEM command [] BZM_BRIDGE_SAFETY_STATUS_LENGTH 500 in
  if bool_decide (err = ESP_ERR_INVALID_SIZE)
  then prog_ret (ESP_ERR_INVALID_RESPONSE, invalidate_safety_status)
  else if negb (bool_decide (err = ESP_OK)) then prog_ret (err, invalidate_safety_status)
  else prog_ret (bzm_bridge_decode_safety_status (Some response)).

Definition BZM_bridge_get_safety_status := safety_command BZM_BRIDGE_SYSTEM_GET_SAFETY_STATUS.
Definition BZM_bridge_arm_safety := safety_command BZM_BRIDGE_SYSTEM_ARM_SAFETY_LEASE.
Definition BZM_bridge_safety_heartbeat := safety_command BZM_BRIDGE_SYSTEM_SAFETY_HEARTBEAT.
Definition BZM_bridge_clear_safety_fault := safety_command BZM_BRIDGE_SYSTEM_CLEAR_SAFETY_FAULT.
Definition BZM_bridge_disarm_safety := safety_command BZM_BRIDGE_SYSTEM_DISARM_SAFETY_LEASE.

Definition BZM_bridge_pulse_asic_reset : prog link esp_err_t :=
  let? err := BZM_bridge_set_asic_reset false in
  if negb (bool_decide (err = ESP_OK)) then prog_ret err
  else
    let? _ := driver (vTaskDelay uart (pdMS_TO_TICKS uart 100)) in
    let? err := BZM_bridge_set_asic_reset true in
    if negb (bool_decide (err = ESP_OK)) then prog_ret err
    else
      let? _ := driver (vTaskDelay uart (pdMS_TO_TICKS uart 100)) in
      prog_ret ESP_OK.

Definition BZM_bridge_get_asic_trip : prog link (esp_err_t * option bool) :=
  get_gpio BZM_BRIDGE_GPIO_ASIC_TRIP.

Definition BZM_bridge_set_fan_percent (percent : f32) : prog link esp_err_t :=
  if negb (is_finite percent) || flt percent (f32_of_Z 0) || flt (f32_of_Z 1) percent
  then prog_ret ESP_ERR_INVALID_ARG
  else
    let request := u8 (fround (fmul percent (f32_of_Z 100))) in
    let? (err, response) := transact BZM_BRIDGE_PAGE_FAN BZM_BRIDGE_FAN_SET_SPEED [request] 1 200 in
    if negb (bool_decide (err = ESP_OK)) then prog_ret err
    else prog_ret (if (length response =? 1)%nat && (byte_at response 0 =? 0)
                   then ESP_OK else ESP_ERR_INVALID_RESPONSE).

Definition BZM_bridge_get_fan_rpm : prog link (esp_err_t * option Z) :=
  let? (err, response) := transact BZM_BRIDGE_PAGE_FAN BZM_BRIDGE_FAN_GET_TACH [] 2 1000 in
  if negb (bool_decide (err = ESP_OK)) then prog_ret (err, None)
  else if negb (length response =? 2)%nat then prog_ret (ESP_ERR_INVALID_RESPONSE, None)
  else prog_ret (ESP_OK, Some (read_le16 response 0)).
End link.

(** ** Specification of the safety status *)

Definition outputs_safe (s : bzm_bridge_safety_status_t) : bool :=
  negb (five_volt_enabled s) && asic_reset_asserted s && (fan_percent s =? 100).
Definition boot_safe (s : bzm_bridge_safety_status_t) : bool :=
  stage s =? BZM_BRIDGE_SAFETY_STAGE_BOOT_SAFE.
Definition lease_valid (s : bzm_bridge_safety_status_t) : bool :=
  boot_safe s || ((state s =? BZM_BRIDGE_SAFETY_STATE_CONTROLLED) && (0 <? lease_remaining_ms s)).
Definition fault_clear (s : bzm_bridge_safety_status_t) : bool :=
  fault s =? BZM_BRIDGE_SAFETY_FAULT_NONE.
Definition fault_latched (s : bzm_bridge_safety_status_t) : bool :=
  state s =? BZM_BRIDGE_SAFETY_STATE_FAULT_LATCHED.

Definition runtime_of (s : bzm_bridge_safety_status_t) : Z :=
  if negb (fault_clear s) then BZM_BRIDGE_SAFETY_RUNTIME_BAD_FAULT
  else if trip_input_asserted s then BZM_BRIDGE_SAFETY_RUNTIME_BAD_TRIP_INPUT
  else if state s =? BZM_BRIDGE_SAFETY_STATE_SAFE_OFF then BZM_BRIDGE_SAFETY_RUNTIME_GOOD_SAFE_OFF
  else if negb (lease_valid s) then BZM_BRIDGE_SAFETY_RUNTIME_BAD_LEASE
  else BZM_BRIDGE_SAFETY_RUNTIME_GOOD_CONTROLLED.

Definition production_of (s : bzm_bridge_safety_status_t) : Z :=
  if negb (stage s =? BZM_BRIDGE_SAFETY_STAGE_TRIP_LATCH)
  then BZM_BRIDGE_SAFETY_PRODUCTION_BAD_STAGE_DISABLED
  else if negb (runtime_of s <=? 1) then BZM_BRIDGE_SAFETY_PRODUCTION_BAD_RUNTIME
  else if negb (capabilities s =? 0xff) then BZM_BRIDGE_SAFETY_PRODUCTION_BAD_CAPABILITY_GAP
  else BZM_BRIDGE_SAFETY_PRODUCTION_GOOD.

(** A status whose evidence, state and verdicts all tell the same story. *)
Record status_consistent (s : bzm_bridge_safety_status_t) : Prop := {
  sc_valid : valid s = true;
  sc_schema : schema_version s = 1;
  sc_stage : 0 <= stage s <= 2;
  sc_state : 0 <= state s <= 2;
  sc_fault : 0 <= fault s <= 2;
  sc_capabilities : 0 <= capabilities s < 256;
  sc_lease : is_u32 (lease_remaining_ms s);
  sc_fan : 0 <= fan_percent s <= 100;
  sc_fan_full : fan_full s = (fan_percent s =? 100);
  sc_evidence : evidence s =
    Z.b2z (outputs_safe s) + 2 * Z.b2z (lease_valid s) + 4 * Z.b2z (negb (trip_input_asserted s)) +
    8 * Z.b2z (fault_clear s) + Z.land (capabilities s) 0x70;
  sc_latched : fault_latched s = negb (fault_clear s);
  sc_safe_off : state s = BZM_BRIDGE_SAFETY_STATE_SAFE_OFF -> outputs_safe s = true;
  sc_latched_safe : fault_latched s = true -> outputs_safe s = true;
  sc_no_lease : lease_remaining_ms s <> 0 ->
    state s = BZM_BRIDGE_SAFETY_STATE_CONTROLLED /\ boot_safe s = false;
  sc_boot_safe : boot_safe s = true -> fault_latched s = false;
  sc_lease_stage : stage s = BZM_BRIDGE_SAFETY_STAGE_LEASE -> fault s <> BZM_BRIDGE_SAFETY_FAULT_ASIC_TRIP;
  sc_trip_latch : stage s = BZM_BRIDGE_SAFETY_STAGE_TRIP_LATCH -> trip_input_asserted s = true ->
    fault_latched s = true;
  sc_runtime : runtime_verdict s = runtime_of s;
  sc_production : production_verdict s = production_of s;
}.

Definition le16_bytes (v : Z) : list Z := [u8 v; u8 (Z.shiftr v 8)].
Definition le32_bytes_of (v : Z) : list Z :=
  [u8 v; u8 (Z.shiftr v 8); u8 (Z.shiftr v 16); u8 (Z.shiftr v 24)].

(** The 17 bytes the bridge sends for a status. *)
Definition status_payload (s : bzm_bridge_safety_status_t) : list Z :=
  [schema_version s; stage s; state s; fault s; runtime_verdict s; production_verdict s] ++
  le16_bytes (capabilities s) ++ le16_bytes (evidence s) ++ le32_bytes_of (lease_remaining_ms s) ++
  [Z.b2z (five_volt_enabled s) + 2 * Z.b2z (asic_reset_asserted s) + 4 * Z.b2z (fan_full s);
   fan_percent s; Z.b2z (trip_input_asserted s)].

(** *** Bits *)

Definition flags_checked (f : Z) : bool :=
  has_bits f (not8 7) ||
  (f =? Z.b2z (has_bits f 1) + 2 * Z.b2z (has_bits f 2) + 4 * Z.b2z (has_bits f 4)).
Lemma flags_checked_ok : forall_below 256 flags_checked = true.
Proof. by vm_compute. Qed.

Definition evidence_bits_checked (e : Z) : bool :=
  (e <? 128) && (e =? Z.b2z (has_bits e 1) + 2 * Z.b2z (has_bits e 2) + 4 * Z.b2z (has_bits e 4) +
                      8 * Z.b2z (has_bits e 8) + Z.land e 0x70).
Lemma evidence_bits_checked_ok : forall_below 128 evidence_bits_checked = true.
Proof. by vm_compute. Qed.

(** A word with no bit of the [n] above the low [k] is small. *)
Lemma no_high_bits e k n :
  0 <= k -> 0 <= n -> 0 <= e < 2 ^ (k + n) -> has_bits e (Z.shiftl (Z.ones n) k) = false -> e < 2 ^ k.
Proof.
  intros Hk Hn He Hb. unfold has_bits in Hb. apply negb_false_iff, Z.eqb_eq in Hb.
  rewrite Z.pow_add_r in He by done. pose proof (Z.pow_pos_nonneg 2 k ltac:(lia) Hk).
  assert (E : Z.shiftr (Z.land e (Z.shiftl (Z.ones n) k)) k = 0) by (rewrite Hb; apply Z.shiftr_0_l).
  rewrite Z.shiftr_land, Z.shiftr_shiftl_l, Z.sub_diag, Z.shiftl_0_r, Z.land_ones in E by done.
  rewrite Z.shiftr_div_pow2 in E by done.
  rewrite Z.mod_small in E; [apply Z.div_small_iff in E; lia|].
  split; [apply Z.div_pos; lia|]. apply Z.div_lt_upper_bound; lia.
Qed.

(** The evidence word built from four flags and the capability bits. *)
Definition evidence_word (b0 b1 b2 b3 : bool) (caps : Z) : Z :=
  Z.b2z b0 + 2 * Z.b2z b1 + 4 * Z.b2z b2 + 8 * Z.b2z b3 + Z.land caps 0x70.
Definition evidence_word_checked (b0 b1 b2 b3 : bool) (caps : Z) : bool :=
  let e := evidence_word b0 b1 b2 b3 caps in
  eqb (has_bits e 1) b0 && eqb (has_bits e 2) b1 && eqb (has_bits e 4) b2 && eqb (has_bits e 8) b3 &&
  (Z.land e 0x70 =? Z.land caps 0x70) && negb (has_bits e (not16 0x7f)) && (0 <=? e) && (e <? 128) &&
  negb (has_bits caps (not16 0xff)).
Lemma evidence_word_checked_ok b0 b1 b2 b3 :
  forall_below 256 (evidence_word_checked b0 b1 b2 b3) = true.
Proof. destruct b0, b1, b2, b3; by vm_compute. Qed.

Lemma evidence_word_spec b0 b1 b2 b3 caps :
  0 <= caps < 256 ->
  let e := evidence_word b0 b1 b2 b3 caps in
  has_bits e 1 = b0 /\ has_bits e 2 = b1 /\ has_bits e 4 = b2 /\ has_bits e 8 = b3 /\
  Z.land e 0x70 = Z.land caps 0x70 /\ has_bits e (not16 0x7f) = false /\ 0 <= e < 128 /\
  has_bits caps (not16 0xff) = false.
Proof.
  intros Hc. cbn zeta.
  pose proof (forall_below_spec _ _ (evidence_word_checked_ok b0 b1 b2 b3) caps Hc) as H.
  unfold evidence_word_checked in H. cbn zeta in H. prop_bool.
  repeat match goal with
  | E : eqb _ _ = true |- _ => apply eqb_prop in E
  | E : (_ =? _) = true |- _ => apply Z.eqb_eq in E
  | E : (_ <=? _) = true |- _ => apply Z.leb_le in E
  | E : (_ <? _) = true |- _ => apply Z.ltb_lt in E
  end. split_and!; assumption.
Qed.

Lemma status_list_17 {A} (l : list A) :
  length l = 17%nat ->
  exists b0 b1 b2 b3 b4 b5 b6 b7 b8 b9 b10 b11 b12 b13 b14 b15 b16,
    l = [b0; b1; b2; b3; b4; b5; b6; b7; b8; b9; b10; b11; b12; b13; b14; b15; b16].
Proof.
  intros H. do 17 (destruct l as [|? l]; [done|]). destruct l; [|done]. by repeat eexists.
Qed.

(** Turn the integer tests among the hypotheses into arithmetic. *)
Ltac z_tests :=
  repeat match goal with
  | E : (_ =? _) = true |- _ => apply Z.eqb_eq in E
  | E : (_ =? _) = false |- _ => apply Z.eqb_neq in E
  | E : (_ <=? _) = true |- _ => apply Z.leb_le in E
  | E : (_ <=? _) = false |- _ => apply Z.leb_gt in E
  | E : (_ <? _) = true |- _ => apply Z.ltb_lt in E
  | E : (_ <? _) = false |- _ => apply Z.ltb_ge in E
  | E : xorb _ _ = false |- _ => apply xorb_eq in E
  end.

Lemma evidence_of_bits e caps b0 b1 b2 b3 :
  0 <= e < 65536 -> has_bits e (not16 0x7f) = false ->
  has_bits e 1 = b0 -> has_bits e 2 = b1 -> has_bits e 4 = b2 -> has_bits e 8 = b3 ->
  Z.land e 0x70 = Z.land caps 0x70 -> e = evidence_word b0 b1 b2 b3 caps.
Proof.
  intros He Hm <- <- <- <- Hp. unfold evidence_word. rewrite <- Hp.
  pose proof (no_high_bits e 7 9 ltac:(lia) ltac:(lia) He Hm) as Hs. change (2 ^ 7) with 128 in Hs.
  pose proof (forall_below_spec _ _ evidence_bits_checked_ok e ltac:(lia)) as H.
  apply andb_true_iff in H as [_ H]. by apply Z.eqb_eq in H.
Qed.

Lemma capabilities_small c : 0 <= c < 65536 -> has_bits c (not16 0xff) = false -> c < 256.
Proof.
  intros Hc Hm. by apply (no_high_bits c 8 8).
Qed.

Lemma flags_of_bits f :
  is_u8 f -> has_bits f (not8 7) = false ->
  f = Z.b2z (has_bits f 1) + 2 * Z.b2z (has_bits f 2) + 4 * Z.b2z (has_bits f 4).
Proof.
  intros Hf Hm. pose proof (forall_below_spec _ _ flags_checked_ok f Hf) as H.
  unfold flags_checked in H. rewrite Hm in H. by apply Z.eqb_eq in H.
Qed.

(** The tests of the decoder, over the status it builds. *)
Record decoder_tests (s : bzm_bridge_safety_status_t) : Prop := {
  dt_valid : valid s = true;
  dt_schema : (schema_version s =? 1) = true;
  dt_bytes : is_u8 (stage s) /\ is_u8 (state s) /\ is_u8 (fault s) /\ is_u8 (fan_percent s);
  dt_ranges : (stage s <=? 2) = true /\ (state s <=? 2) = true /\ (fault s <=? 2) = true /\
    (100 <? fan_percent s) = false;
  dt_words : 0 <= capabilities s < 65536 /\ 0 <= evidence s < 65536 /\ is_u32 (lease_remaining_ms s);
  dt_caps : has_bits (capabilities s) (not16 0xff) = false;
  dt_evid : has_bits (evidence s) (not16 0x7f) = false;
  dt_fan_full : xorb (fan_full s) (fan_percent s =? 100) = false;
  dt_e1 : xorb (has_bits (evidence s) 1) (outputs_safe s) = false;
  dt_e2 : xorb (has_bits (evidence s) 2) (lease_valid s) = false;
  dt_e4 : eqb (has_bits (evidence s) 4) (trip_input_asserted s) = false;
  dt_e8 : xorb (has_bits (evidence s) 8) (fault_clear s) = false;
  dt_production_bits : (Z.land (evidence s) 0x70 =? Z.land (capabilities s) 0x70) = true;
  dt_latched : xorb (fault_latched s) (negb (fault_clear s)) = false;
  dt_safe_off : (state s =? 0) && negb (outputs_safe s) = false;
  dt_latched_safe : fault_latched s && (negb (outputs_safe s) || negb (lease_remaining_ms s =? 0)) = false;
  dt_boot : boot_safe s && (negb (lease_remaining_ms s =? 0) || fault_latched s) = false;
  dt_lease : negb (boot_safe s) && negb (state s =? 1) && negb (lease_remaining_ms s =? 0) = false;
  dt_lease_stage : (stage s =? 1) && (fault s =? 2) = false;
  dt_trip : (stage s =? 2) && trip_input_asserted s && negb (fault_latched s) = false;
  dt_runtime : (runtime_verdict s =?
    (if negb (fault_clear s) then 0x80 else if trip_input_asserted s then 0x82
     else if state s =? 0 then 0 else if negb (boot_safe s) && negb (lease_valid s) then 0x81 else 1)) = true;
  dt_production : (production_verdict s =?
    (if negb (stage s =? 2) then 0x80
     else if negb ((runtime_verdict s =? 0) || (runtime_verdict s =? 1)) then 0x82
     else if negb (capabilities s =? 0xff) then 0x81 else 0)) = true;
}.

Lemma runtime_of_test s :
  (if negb (fault_clear s) then 0x80 else if trip_input_asserted s then 0x82
   else if state s =? 0 then 0 else if negb (boot_safe s) && negb (lease_valid s) then 0x81 else 1) =
  runtime_of s.
Proof.
  unfold runtime_of, lease_valid. destruct (fault_clear s), (trip_input_asserted s), (boot_safe s); try done;
    by destruct (state s =? 0).
Qed.

Lemma production_of_test s :
  runtime_verdict s = runtime_of s ->
  (if negb (stage s =? 2) then 0x80
   else if negb ((runtime_verdict s =? 0) || (runtime_verdict s =? 1)) then 0x82
   else if negb (capabilities s =? 0xff) then 0x81 else 0) = production_of s.
Proof.
  intros ->. unfold production_of. change BZM_BRIDGE_SAFETY_STAGE_TRIP_LATCH with 2.
  destruct (stage s =? 2); [|done]. cbn [negb].
  replace ((runtime_of s =? 0) || (runtime_of s =? 1)) with (runtime_of s <=? 1); [done|].
  unfold runtime_of. repeat guard_goal; done.
Qed.

Lemma consistent_of_tests s : decoder_tests s -> status_consistent s.
Proof.
  intros [Hv Hs (B1 & B2 & B3 & B4) (R1 & R2 & R3 & R4) (W1 & W2 & W3) Hc He Hff E1 E2 E4 E8 Ep
          Hl Hso Hls Hb Hle Hst Htr Hr Hp].
  unfold in_width in B1, B2, B3, B4. z_tests.
  assert (Hrt : runtime_verdict s = runtime_of s) by (by rewrite <- runtime_of_test).
  split; try done; try lia.
  - split; [lia|]. by apply capabilities_small.
  - apply (evidence_of_bits _ (capabilities s)); try done.
    destruct (has_bits (evidence s) 4), (trip_input_asserted s); done.
  - intros Hz. rewrite Hz in Hso. by apply negb_false_iff in Hso.
  - intros Hz. rewrite Hz in Hls. cbn in Hls. apply orb_false_iff in Hls as [Hls _].
    by apply negb_false_iff in Hls.
  - intros Hz. apply Z.eqb_neq in Hz. rewrite Hz in *.
    destruct (boot_safe s); [done|]. split; [|done]. cbn in Hle. rewrite andb_true_r in Hle.
    apply negb_false_iff in Hle. by apply Z.eqb_eq.
  - intros Hz. rewrite Hz in Hb. by apply orb_false_iff in Hb as [_ ->].
  - intros Hz Hf. rewrite Hz, Hf in Hst. done.
  - intros Hz Ht. rewrite Hz, Ht in Htr. cbn in Htr. by apply negb_false_iff in Htr.
  - by rewrite <- production_of_test.
Qed.

Lemma decode_safety_sound payload s :
  bytes_ok payload -> bzm_bridge_decode_safety_status (Some payload) = (ESP_OK, s) ->
  status_consistent s /\ payload = status_payload s.
Proof.
  intros Hok. unfold bzm_bridge_decode_safety_status.
  destruct (negb (length payload =? BZM_BRIDGE_SAFETY_STATUS_LENGTH)%nat) eqn:Hlen; [done|].
  apply negb_false_iff, Nat.eqb_eq, status_list_17 in Hlen
    as (b0 & b1 & b2 & b3 & b4 & b5 & b6 & b7 & b8 & b9 & b10 & b11 & b12 & b13 & b14 & b15 & b16 & ->).
  unfold read_le16, read_le32. cbn [byte_at nth Nat.add].
  unfold bytes_ok in Hok. rewrite !Forall_cons in Hok.
  destruct Hok as (K0 & K1 & K2 & K3 & K4 & K5 & K6 & K7 & K8 & K9 & K10 & K11 & K12 & K13 & K14 & K15 & K16 & _).
  destruct (read_le16_pair b6 b7 K6 K7) as (Rc & Rc0 & Rc1).
  destruct (read_le16_pair b8 b9 K8 K9) as (Re & Re0 & Re1).
  destruct (read_le32_quad b10 b11 b12 b13 _ K10 K11 K12 K13 eq_refl) as (Rl & Rl0 & Rl1 & Rl2 & Rl3).
  set (caps := Z.lor b6 (Z.shiftl b7 8)) in *. set (evid := Z.lor b8 (Z.shiftl b9 8)) in *.
  set (lease := Z.lor (Z.lor (Z.lor b10 _) _) _) in *. clearbody caps evid lease.
  cbn zeta.
  destruct (negb (b0 =? _) || _ || _ || _ || _ || _ || _ || _ || _ || _ || _) eqn:G1; [done|].
  destruct (xorb (has_bits b14 4) _ || _ || _ || _ || _ || _) eqn:G2; [done|].
  destruct (xorb (b2 =? _) _ || _ || _ || _ || _ || _ || _) eqn:G3; [done|].
  destruct (negb (b4 =? _)) eqn:G4; [done|].
  destruct (negb (b5 =? _)) eqn:G5; [done|].
  intros [= <-].
  prop_bool. match goal with |- status_consistent ?x /\ _ => assert (Htests : decoder_tests x) end.
  { split; unfold lease_valid, boot_safe, fault_latched, fault_clear, outputs_safe; cbn;
      try assumption; try done; try (split_and!; assumption). }
  split; [by apply consistent_of_tests|]. unfold status_payload, le16_bytes, le32_bytes_of. cbn.
  rewrite Rc0, Rc1, Re0, Re1, Rl0, Rl1, Rl2, Rl3.
  rewrite <- (flags_of_bits b14) by done.
  replace (Z.b2z (negb (b16 =? 0))) with b16; [done|]. z_tests. unfold in_width in K16.
  destruct (Z.eqb_spec b16 0); cbn; lia.
Qed.

(** *** Completeness *)

Lemma le16_round v : 0 <= v < 65536 -> Z.lor (u8 v) (Z.shiftl (u8 (Z.shiftr v 8)) 8) = v.
Proof.
  intros Hv. rewrite le16_sum by apply u8_is_u8. unfold u8, wrap. change (2 ^ 8) with 256.
  rewrite Z.shiftr_div_pow2 by lia. change (2 ^ 8) with 256.
  pose proof (Z.div_mod v 256 ltac:(lia)).
  rewrite (Z.mod_small (v / 256)) by (split; [apply Z.div_pos; lia|apply Z.div_lt_upper_bound; lia]).
  lia.
Qed.

Lemma le32_round v :
  is_u32 v ->
  Z.lor (Z.lor (Z.lor (u8 v) (Z.shiftl (u8 (Z.shiftr v 8)) 8)) (Z.shiftl (u8 (Z.shiftr v 16)) 16))
        (Z.shiftl (u8 (Z.shiftr v 24)) 24) = v.
Proof. intros Hv. rewrite le32_sum by apply u8_is_u8. by apply le32_bytes. Qed.

Lemma evidence_bound s : status_consistent s -> 0 <= evidence s < 128.
Proof.
  intros H. rewrite (sc_evidence _ H). fold (evidence_word (outputs_safe s) (lease_valid s)
    (negb (trip_input_asserted s)) (fault_clear s) (capabilities s)).
  apply evidence_word_spec, (sc_capabilities _ H).
Qed.

Lemma tests_of_consistent s : status_consistent s -> decoder_tests s.
Proof.
  intros H. pose proof (evidence_bound s H) as Hev.
  destruct (evidence_word_spec (outputs_safe s) (lease_valid s) (negb (trip_input_asserted s))
    (fault_clear s) (capabilities s) (sc_capabilities _ H)) as (E1 & E2 & E4 & E8 & Ep & Em & _ & Ec).
  assert (He : evidence_word (outputs_safe s) (lease_valid s) (negb (trip_input_asserted s))
    (fault_clear s) (capabilities s) = evidence s) by (by rewrite (sc_evidence _ H)).
  cbn zeta in *. rewrite He in *. destruct H.
  assert (Hr : (runtime_verdict s =?
    (if negb (fault_clear s) then 0x80 else if trip_input_asserted s then 0x82
     else if state s =? 0 then 0 else if negb (boot_safe s) && negb (lease_valid s) then 0x81 else 1)) = true).
  { rewrite runtime_of_test. by apply Z.eqb_eq. }
  split; rewrite ?E1, ?E2, ?E4, ?E8, ?Ep, ?Z.eqb_refl, ?xorb_nilpotent; try done.
  - by apply Z.eqb_eq.
  - unfold in_width. change (2 ^ 8) with 256. lia.
  - rewrite !Z.leb_le, Z.ltb_ge. lia.
  - split_and!; try done; lia.
  - by rewrite sc_fan_full0, xorb_nilpotent.
  - by destruct (trip_input_asserted s).
  - by rewrite sc_latched0, xorb_nilpotent.
  - destruct (Z.eqb_spec (state s) 0) as [Hz|]; [|done]. by rewrite sc_safe_off0.
  - destruct (fault_latched s) eqn:Hf; [|done]. rewrite sc_latched_safe0 by done. cbn.
    destruct (Z.eqb_spec (lease_remaining_ms s) 0) as [|Hne]; [done|].
    destruct (sc_no_lease0 Hne) as [Hst _]. unfold fault_latched in Hf. rewrite Hst in Hf. done.
  - destruct (boot_safe s) eqn:Hb; [|done]. rewrite sc_boot_safe0 by done.
    destruct (Z.eqb_spec (lease_remaining_ms s) 0) as [|Hne]; [done|].
    destruct (sc_no_lease0 Hne) as [_ Hbs]. congruence.
  - destruct (Z.eqb_spec (lease_remaining_ms s) 0) as [|Hne]; [by rewrite andb_false_r|].
    destruct (sc_no_lease0 Hne) as [-> _]. by rewrite andb_false_r.
  - destruct (Z.eqb_spec (stage s) 1) as [Hz|]; [|done]. cbn. apply Z.eqb_neq. by apply sc_lease_stage0.
  - destruct (Z.eqb_spec (stage s) 2) as [Hz|]; [|done]. cbn.
    destruct (trip_input_asserted s) eqn:Ht; [|done]. by rewrite sc_trip_latch0.
  - rewrite production_of_test by done. by apply Z.eqb_eq.
Qed.

Lemma runtime_of_valid s : valid_runtime_verdict (runtime_of s) = true.
Proof. unfold runtime_of. by repeat guard_goal. Qed.
Lemma production_of_valid s : valid_production_verdict (production_of s) = true.
Proof. unfold production_of. by repeat guard_goal. Qed.

Lemma flags_bits b0 b1 b2 :
  let f := Z.b2z b0 + 2 * Z.b2z b1 + 4 * Z.b2z b2 in
  has_bits f 1 = b0 /\ has_bits f 2 = b1 /\ has_bits f 4 = b2 /\ has_bits f (not8 7) = false.
Proof. by destruct b0, b1, b2. Qed.

(** The first guard of an [if] chain is false, by the facts at hand. *)
Ltac guard_false tac :=
  match goal with |- (if ?g then _ else _) = _ =>
    let H := fresh in assert (g = false) as H by (repeat (apply orb_false_iff; split); tac); rewrite H; clear H
  end.

Lemma decode_safety_complete s :
  status_consistent s ->
  bzm_bridge_decode_safety_status (Some (status_payload s)) = (ESP_OK, s).
Proof.
  intros H. pose proof (tests_of_consistent s H) as
    [Tv Ts _ (R1 & R2 & R3 & R4) (W1 & W2 & W3) Tc Te Tff T1 T2 T4 T8 Tp Tl Tso Tls Tb Tle Tst Ttr Tr Tpr].
  destruct (flags_bits (five_volt_enabled s) (asic_reset_asserted s) (fan_full s)) as (F1 & F2 & F4 & Fm).
  cbn zeta in *.
  assert (Hrun : valid_runtime_verdict (runtime_verdict s) = true)
    by (rewrite (sc_runtime _ H); apply runtime_of_valid).
  assert (Hprod : valid_production_verdict (production_verdict s) = true)
    by (rewrite (sc_production _ H); apply production_of_valid).
  assert (Htrip : negb (Z.b2z (trip_input_asserted s) =? 0) = trip_input_asserted s)
    by (by destruct (trip_input_asserted s)).
  assert (Htrip1 : (1 <? Z.b2z (trip_input_asserted s)) = false) by (by destruct (trip_input_asserted s)).
  unfold bzm_bridge_decode_safety_status.
  replace (negb (length (status_payload s) =? BZM_BRIDGE_SAFETY_STATUS_LENGTH)%nat) with false by done.
  cbn zeta.
  change (read_le16 (status_payload s) 6) with
    (Z.lor (u8 (capabilities s)) (Z.shiftl (u8 (Z.shiftr (capabilities s) 8)) 8)).
  change (read_le16 (status_payload s) 8) with
    (Z.lor (u8 (evidence s)) (Z.shiftl (u8 (Z.shiftr (evidence s) 8)) 8)).
  change (read_le32 (status_payload s) 10) with
    (Z.lor (Z.lor (Z.lor (u8 (lease_remaining_ms s)) (Z.shiftl (u8 (Z.shiftr (lease_remaining_ms s) 8)) 8))
             (Z.shiftl (u8 (Z.shiftr (lease_remaining_ms s) 16)) 16))
           (Z.shiftl (u8 (Z.shiftr (lease_remaining_ms s) 24)) 24)).
  rewrite !le16_round, le32_round by done.
  change (byte_at (status_payload s) 0) with (schema_version s).
  change (byte_at (status_payload s) 1) with (stage s).
  change (byte_at (status_payload s) 2) with (state s).
  change (byte_at (status_payload s) 3) with (fault s).
  change (byte_at (status_payload s) 4) with (runtime_verdict s).
  change (byte_at (status_payload s) 5) with (production_verdict s).
  change (byte_at (status_payload s) 14) with
    (Z.b2z (five_volt_enabled s) + 2 * Z.b2z (asic_reset_asserted s) + 4 * Z.b2z (fan_full s)).
  change (byte_at (status_payload s) 15) with (fan_percent s).
  change (byte_at (status_payload s) 16) with (Z.b2z (trip_input_asserted s)).
  rewrite F1, F2, F4, Htrip.
  guard_false ltac:(first [assumption | apply negb_false_iff; assumption]).
  guard_false ltac:(first [assumption | apply negb_false_iff; assumption]).
  guard_false ltac:(assumption).
  guard_false ltac:(apply negb_false_iff; assumption).
  guard_false ltac:(apply negb_false_iff; assumption).
  rewrite <- Tv. by destruct s.
Qed.

(** ** The link *)

Section link_lemmas.
Context {W : Type} (uart : uart_ops W).

(** What the framework documents of its driver and clock: the clock [now] does
    not run backwards, a read returns at most the bytes asked for, and a read
    that returns none has waited at least a microsecond. *)
Record uart_laws (now : W -> Z) : Prop := {
  clock_reads w : (esp_timer_get_time uart w).1 = now w;
  clock_time w : now w <= now (esp_timer_get_time uart w).2;
  read_time w n t : now w <= now (uart_read_bytes uart n t w).2;
  read_progress w n t bytes : (uart_read_bytes uart n t w).1 = Some bytes ->
    (length bytes <= n)%nat /\ (bytes = [] -> now w < now (uart_read_bytes uart n t w).2);
}.

Lemma read_loop_returns now fuel : forall deadline n got b w,
  uart_laws now -> (length got <= n)%nat ->
  Z.of_nat (n - length got) + Z.max 0 (deadline - now w) < Z.of_nat fuel ->
  is_Some (read_loop uart fuel deadline n got (b, w)).
Proof.
  induction fuel as [|fuel IH]; intros deadline n got b w Hlaws Hgot Hfuel; [lia|].
  cbn [read_loop]. destruct (length got <? n)%nat eqn:Hlt; [|by eexists].
  apply Nat.ltb_lt in Hlt. unfold prog_bind, driver at 1.
  pose proof (clock_reads _ Hlaws w) as Hr. pose proof (clock_time _ Hlaws w) as Ht.
  destruct (esp_timer_get_time uart w) as [t w1]. cbn [fst snd] in Hr, Ht. subst t.
  destruct (Z.leb_spec (deadline - now w) 0) as [Hle|Hgt]; [by eexists|]. unfold driver.
  match goal with |- context [uart_read_bytes uart ?a ?t w1] => set (k := a); set (tk := t) end.
  pose proof (read_time _ Hlaws w1 k tk) as Hrt. pose proof (read_progress _ Hlaws w1 k tk) as Hrp.
  destruct (uart_read_bytes uart k tk w1) as [[bytes|] w2]; [|by eexists].
  cbn [fst snd] in Hrt, Hrp. destruct (Hrp bytes eq_refl) as [Hlen Hempty].
  apply IH; [done|rewrite length_app; unfold k in Hlen; lia|].
  rewrite length_app. destruct bytes as [|x bytes]; cbn [length] in *.
  - specialize (Hempty eq_refl). lia.
  - unfold k in Hlen. lia.
Qed.

Lemma read_exact_returns now fuel n timeout b w :
  uart_laws now -> 0 <= timeout -> Z.of_nat n + timeout * 1000 < Z.of_nat fuel ->
  is_Some (read_exact uart fuel n timeout (b, w)).
Proof.
  intros Hlaws Ht Hf. unfold read_exact, prog_bind, driver.
  pose proof (clock_reads _ Hlaws w) as Hr. pose proof (clock_time _ Hlaws w) as Htm.
  destruct (esp_timer_get_time uart w) as [t w1]. cbn [fst snd] in Hr, Htm. subst t.
  apply (read_loop_returns now); [done|cbn; lia|cbn [length]; lia].
Qed.

Lemma prog_bind_some {A B} (m : prog (bridge_t * W) A) (k : A -> prog (bridge_t * W) B) x :
  is_Some (m x) -> (forall a x', is_Some (k a x')) -> is_Some (prog_bind m k x).
Proof. intros [[a x'] Hm] Hk. unfold prog_bind. rewrite Hm. apply Hk. Qed.

Lemma driver_some {A} (m : io W A) x : is_Some (driver m x).
Proof. destruct x as [b w]. unfold driver. destruct (m w). by eexists. Qed.

(** A read longer than the frame it belongs to still fits the response buffer. *)
Lemma transact_some now fuel page command payload capacity timeout x :
  uart_laws now -> 0 <= timeout -> 260 + timeout * 1000 < Z.of_nat fuel ->
  is_Some (transact uart fuel page command payload capacity timeout x).
Proof.
  intros Hlaws Ht Hf. unfold transact.
  apply prog_bind_some; [destruct x; by eexists|]. intros b x1.
  guard_goal; [by eexists|].
  apply prog_bind_some; [destruct x1; by eexists|]. intros _ x2. cbn zeta.
  guard_goal; [by eexists|].
  apply prog_bind_some; [apply driver_some|]. intros _ x3.
  apply prog_bind_some; [apply driver_some|]. intros written x4.
  guard_goal; [by eexists|].
  apply prog_bind_some; [apply driver_some|]. intros err x5.
  guard_goal; [by eexists|].
  apply prog_bind_some; [destruct x5; apply (read_exact_returns now); [done|lia|lia]|].
  intros [err1 header] x6. guard_goal; [by eexists|].
  destruct ((read_le16 header 0 <? 3) || _) eqn:Hlen; [by eexists|].
  apply orb_false_iff in Hlen as [H3 Hmax]. z_tests.
  change (Z.of_nat BZM_BRIDGE_MAX_RESPONSE_SIZE) with 260 in Hmax.
  apply prog_bind_some; [destruct x6; apply (read_exact_returns now); [done|lia|lia]|].
  intros [err2 body] x7. guard_goal; [by eexists|].
  destruct (bzm_bridge_decode_response _ _) as [[] [p|]]; try (by eexists).
  guard_goal; by eexists.
Qed.

Lemma transact_refused fuel page command payload capacity timeout b w :
  negb (INITIALIZED b) || MAINTENANCE b = true ->
  transact uart fuel page command payload capacity timeout (b, w) =
    Some ((ESP_ERR_INVALID_STATE, []), (b, w)).
Proof. intros H. unfold transact, prog_bind, get_bridge. by rewrite H. Qed.

Lemma decode_safety_valid payload :
  let '(err, s) := bzm_bridge_decode_safety_status payload in
  (err = ESP_OK /\ valid s = true) \/ (err <> ESP_OK /\ s = invalidate_safety_status).
Proof.
  unfold bzm_bridge_decode_safety_status. destruct payload as [p|]; [|by right].
  cbn zeta. repeat (guard_goal; [by right|]). by left.
Qed.
End link_lemmas.

(** Framing as the bridge does it. *)
Definition response_frame (id : Z) (payload : list Z) : list Z :=
  le16_bytes (Z.of_nat (length payload + 3)) ++ [id] ++ payload.

(** The bridge reports an error as a response of one byte. *)
Definition bridge_errors : list (Z * esp_err_t) :=
  [(0x10, ESP_ERR_TIMEOUT); (0x11, ESP_ERR_NOT_SUPPORTED);
   (0x12, ESP_ERR_INVALID_STATE); (0x13, ESP_ERR_INVALID_STATE)].
Definition bridge_error (payload : list Z) : esp_err_t :=
  match payload with
  | [c] => default ESP_OK (snd <$> find (fun e => c =? fst e) bridge_errors)
  | _ => ESP_OK
  end.

Lemma decode_response_frame id payload :
  Z.of_nat (length payload) + 3 < 65536 ->
  bzm_bridge_decode_response id (response_frame id payload) = (bridge_error payload, Some payload).
Proof.
  intros Hlen. unfold bzm_bridge_decode_response.
  assert (Hl : length (response_frame id payload) = (length payload + 3)%nat).
  { unfold response_frame. cbn. lia. }
  rewrite Hl, (proj2 (Nat.ltb_ge _ _)) by lia.
  change (read_le16 (response_frame id payload) 0) with
    (Z.lor (u8 (Z.of_nat (length payload + 3))) (Z.shiftl (u8 (Z.shiftr (Z.of_nat (length payload + 3)) 8)) 8)).
  rewrite le16_round by lia. rewrite Z.eqb_refl.
  change (byte_at (response_frame id payload) 2) with id. rewrite Z.eqb_refl. cbn [negb orb].
  change (drop 3 (response_frame id payload)) with payload.
  destruct payload as [|x [|y l]]; [done| |done].
  cbn [length Nat.eqb byte_at nth bridge_error bridge_errors find fst].
  destruct (x =? 0x10); [done|]. destruct (x =? 0x11); [done|].
  destruct (x =? 0x12); [done|]. by destruct (x =? 0x13).
Qed.

(** ** Properties *)

(** C39: The safety status decoder accepts exactly the payloads that encode a
    consistent status, and returns that status: evidence bits, outputs, lease,
    fault, trip input and both verdicts must tell the same story, and nothing
    in the 17 bytes is ignored. *)
Theorem bridge_safety_status_exact payload s :
  bytes_ok payload ->
  bzm_bridge_decode_safety_status (Some payload) = (ESP_OK, s) <->
  status_consistent s /\ payload = status_payload s.
Proof.
  intros Hok. split; [by apply decode_safety_sound|].
  intros [Hs ->]. by apply decode_safety_complete.
Qed.

(** C40: Safety commands return, and fail closed: over a UART and a clock of documented behaviour, in any
    state of the link and whatever bytes arrive or fail to, each safety command
    returns within its fuel, which exceeds the longest frame plus the microseconds of the
    time-out.  Either it returns ESP_OK, with a status marked valid that its own transaction
    received and the decoder accepted; or, on every failure, transport or decoding, the
    status it delivers is the fault-shaped sentinel, so no earlier evidence survives. *)
Theorem bridge_safety_command_fails_closed {W} (uart : uart_ops W) now fuel command x :
  uart_laws uart now -> 260 + 500 * 1000 < Z.of_nat fuel ->
  exists err s x', safety_command uart fuel command x = Some ((err, s), x') /\
    ((err = ESP_OK /\ valid s = true /\
      exists response,
        transact uart fuel BZM_BRIDGE_PAGE_SYSTEM command [] BZM_BRIDGE_SAFETY_STATUS_LENGTH 500 x = Some ((ESP_OK, response), x') /\
        bzm_bridge_decode_safety_status (Some response) = (ESP_OK, s)) \/
     (err <> ESP_OK /\ s = invalidate_safety_status)).
Proof.
  intros Hl Hf. unfold safety_command, prog_bind.
  destruct (transact_some uart now fuel BZM_BRIDGE_PAGE_SYSTEM command [] BZM_BRIDGE_SAFETY_STATUS_LENGTH 500 x)
    as [[[e r] y] ->]; [done|lia|lia|].
  destruct (bool_decide (e = ESP_ERR_INVALID_SIZE)); [eexists _, _, _; split; [done|]; by right|].
  destruct (bool_decide (e = ESP_OK)) eqn:He; cbn [negb].
  - apply bool_decide_eq_true in He as ->. pose proof (decode_safety_valid (Some r)) as Hd.
    destruct (bzm_bridge_decode_safety_status (Some r)) as [e2 s2] eqn:E. eexists _, _, _. split; [done|].
    destruct Hd as [[-> Hv]|Hd]; [left|by right]. split_and!; [done..|]. by exists r.
  - apply bool_decide_eq_false in He. eexists _, _, _. split; [done|]. by right.
Qed.

(** While the link is in maintenance or not initialised no command reaches
    the UART: every transaction is refused without touching the driver, the
    clock or the link state; entering maintenance establishes this from any
    state and initialisation cannot leave it. *)
Theorem bridge_maintenance_quiet {W} (uart : uart_ops W) fuel b w page command payload capacity timeout :
  MAINTENANCE b = false ->
  exists b' w',
    BZM_bridge_begin_maintenance uart (b, w) = Some (ESP_OK, (b', w')) /\
    MAINTENANCE b' = true /\ INITIALIZED b' = false /\
    BZM_bridge_init uart fuel (b', w') = Some (ESP_ERR_INVALID_STATE, (b', w')) /\
    BZM_bridge_begin_maintenance uart (b', w') = Some (ESP_ERR_INVALID_STATE, (b', w')) /\
    transact uart fuel page command payload capacity timeout (b', w') =
      Some ((ESP_ERR_INVALID_STATE, []), (b', w')).
Proof.
  intros Hm. exists (b <| MAINTENANCE := true; INITIALIZED := false |>),
    (if INITIALIZED b then (uart_driver_delete uart w).2 else w).
  split_and!; try done.
  - unfold BZM_bridge_begin_maintenance, prog_bind, get_bridge, put_bridge, driver. rewrite Hm.
    destruct (INITIALIZED b); [|done]. by destruct (uart_driver_delete uart w).
Qed.

(** Every transaction returns: with a driver and clock that keep their
    documented behaviour, the receive loop ends within the bytes of the longest
    frame plus the microseconds of the time-out, whatever arrives. *)
Theorem bridge_transact_returns {W} (uart : uart_ops W) now fuel page command payload capacity timeout x :
  uart_laws uart now -> 0 <= timeout -> 260 + timeout * 1000 < Z.of_nat fuel ->
  is_Some (transact uart fuel page command payload capacity timeout x).
Proof. apply transact_some. Qed.

(** Framing: a request of up to 58 payload bytes is encoded with its own
    length, the command id, page and command in front, fits the 64-byte request
    buffer, and longer ones are refused; a response framed by the bridge under
    the expected id is decoded to its payload, one-byte error payloads to their
    error, and a response under another id is refused. *)
Theorem bridge_framing id other page command payload :
  is_u8 id -> Z.of_nat (length payload) + 6 < 65536 -> other <> id ->
  (let request := bzm_bridge_encode_request id page command payload BZM_BRIDGE_MAX_REQUEST_SIZE in
   if (length payload <=? 58)%nat
   then read_le16 request 0 = Z.of_nat (length request) /\ (length request <= 64)%nat /\
        request = le16_bytes (Z.of_nat (length payload + 6)) ++ [id; 0; page; command] ++ payload
   else request = []) /\
  bzm_bridge_decode_response id (response_frame id payload) = (bridge_error payload, Some payload) /\
  bzm_bridge_decode_response other (response_frame id payload) = (ESP_ERR_INVALID_RESPONSE, None).
Proof.
  intros Hid Hlen Hne. split_and!.
  - cbn zeta. unfold bzm_bridge_encode_request.
    change BZM_BRIDGE_MAX_REQUEST_SIZE with 64%nat.
    assert (Hu : (UINT16_MAX <? Z.of_nat (length payload + 6)) = false)
      by (unfold UINT16_MAX; apply Z.ltb_ge; lia).
    rewrite Hu. cbn [orb]. destruct (Nat.leb_spec (length payload) 58) as [Hle|Hgt].
    + rewrite (proj2 (Nat.ltb_ge _ _)) by lia.
      assert (Hb : forall v, Z.land v 0xff = u8 v).
      { intros v. unfold u8, wrap. change 0xff with (Z.ones 8). by rewrite Z.land_ones. }
      rewrite !Hb. change (([?a; ?b; ?c; ?d; ?e; ?f] ++ ?l)) with ([a; b; c; d; e; f] ++ l).
      split_and!; [| |done].
      * unfold read_le16. cbn [byte_at nth Nat.add app]. rewrite le16_round by lia.
        cbn [length]. lia.
      * cbn [app length]. lia.
    + by rewrite (proj2 (Nat.ltb_lt _ _)) by lia.
  - apply decode_response_frame. lia.
  - unfold bzm_bridge_decode_response.
    assert (Hl : length (response_frame id payload) = (length payload + 3)%nat)
      by (unfold response_frame; cbn; lia).
    rewrite Hl, (proj2 (Nat.ltb_ge _ _)) by lia.
    change (byte_at (response_frame id payload) 2) with id.
    rewrite (proj2 (Z.eqb_neq id other)) by congruence. by rewrite orb_true_r.
Qed.

(** ** A simulated bridge *)

Module Demo.
(** The clock and the bytes the bridge has sent. *)
Definition sim : Type := Z * list Z.

(** A controlled status with a lease of 1500 ms and every capability. *)
Definition controlled : bzm_bridge_safety_status_t :=
  {| valid := true; schema_version := 1; stage := 2; state := 1; fault := 0; runtime_verdict := 1;
     production_verdict := 0; capabilities := 0xff; evidence := 0x7e; lease_remaining_ms := 1500;
     five_volt_enabled := true; asic_reset_asserted := false; fan_full := false; fan_percent := 60;
     trip_input_asserted := false |}.

(** Answers every request on the system page with [controlled], two bytes per
    read; time passes with every read. *)
Definition uart : uart_ops sim :=
  {| uart_param_config := io_ret ESP_OK; uart_set_pin := io_ret ESP_OK;
     uart_driver_install := io_ret ESP_OK; uart_driver_delete := io_ret tt;
     uart_flush_input := fun '(t, _) => (tt, (t, []));
     uart_write_bytes := fun request '(t, q) =>
       (Z.of_nat (length request), (t, q ++ response_frame (byte_at request 2) (status_payload controlled)));
     uart_wait_tx_done := fun _ => io_ret ESP_OK;
     uart_read_bytes := fun n _ '(t, q) => (Some (take (Nat.min n 2) q), (t + 1, drop (Nat.min n 2) q));
     esp_timer_get_time := fun '(t, q) => (t, (t, q));
     vTaskDelay := fun _ => io_ret tt;
     pdMS_TO_TICKS := fun ms => ms / 10 |}.

Definition up : bridge_t := {| INITIALIZED := true; MAINTENANCE := false; NEXT_COMMAND_ID := 255 |}.

Lemma uart_lawful : uart_laws uart fst.
Proof.
  split; [by intros []|intros []; cbn; lia|intros [] *; cbn; lia|].
  intros [t q] n tk bytes. cbn. intros [= <-]. rewrite length_take. split; lia.
Qed.

Lemma controlled_consistent : status_consistent controlled.
Proof. split; try done; unfold in_width; cbn; try lia; by intros. Qed.

Lemma bridge_safety_status_exact_witness :
  bytes_ok (status_payload controlled) /\
  (bzm_bridge_decode_safety_status (Some (status_payload controlled)) = (ESP_OK, controlled) <->
   status_consistent controlled /\ status_payload controlled = status_payload controlled).
Proof.
  assert (bytes_ok (status_payload controlled)) as H
    by (apply bytes_ok_eval; by vm_compute).
  split; [exact H|]. apply (bridge_safety_status_exact (status_payload controlled) controlled). exact H.
Defined.

Lemma bridge_safety_command_fails_closed_witness :
  uart_laws uart fst /\
  exists err s x',
    safety_command uart (Z.to_nat 500300) BZM_BRIDGE_SYSTEM_SAFETY_HEARTBEAT (up, (0, [])) = Some ((err, s), x') /\
    (valid s = true \/ s = invalidate_safety_status).
Proof.
  split; [exact uart_lawful|].
  destruct (bridge_safety_command_fails_closed uart fst (Z.to_nat 500300) BZM_BRIDGE_SYSTEM_SAFETY_HEARTBEAT (up, (0, [])))
    as (err & s & x' & E & H); [exact uart_lawful|lia|].
  exists err, s, x'. split; [exact E|]. destruct H as [(_ & Hv & _)|[_ ->]]; [by left|by right].
Defined.

Lemma bridge_maintenance_quiet_witness :
  MAINTENANCE up = false /\
  exists b' w',
    BZM_bridge_begin_maintenance uart (up, (0, [])) = Some (ESP_OK, (b', w')) /\
    MAINTENANCE b' = true /\ INITIALIZED b' = false /\
    BZM_bridge_init uart 100 (b', w') = Some (ESP_ERR_INVALID_STATE, (b', w')) /\
    BZM_bridge_begin_maintenance uart (b', w') = Some (ESP_ERR_INVALID_STATE, (b', w')) /\
    transact uart 100 0 1 [] 67 500 (b', w') = Some ((ESP_ERR_INVALID_STATE, []), (b', w')).
Proof. split; [reflexivity|]. apply (bridge_maintenance_quiet uart 100 up (0, [])). reflexivity. Defined.

Lemma bridge_transact_returns_witness :
  uart_laws uart fst /\
  is_Some (transact uart (Z.to_nat 500300) BZM_BRIDGE_PAGE_SYSTEM
             BZM_BRIDGE_SYSTEM_GET_SAFETY_STATUS [] 17 500 (up, (0, []))).
Proof.
  split; [exact uart_lawful|].
  apply (bridge_transact_returns uart fst); [exact uart_lawful|lia|lia].
Defined.

Lemma bridge_framing_witness :
  is_u8 7 /\
  (let request := bzm_bridge_encode_request 7 6 1 [1] BZM_BRIDGE_MAX_REQUEST_SIZE in
   if (length [1] <=? 58)%nat
   then read_le16 request 0 = Z.of_nat (length request) /\ (length request <= 64)%nat /\
        request = le16_bytes (Z.of_nat (length [1] + 6)) ++ [7; 0; 6; 1] ++ [1]
   else request = []) /\
  bzm_bridge_decode_response 7 (response_frame 7 [1]) = (bridge_error [1], Some [1]) /\
  bzm_bridge_decode_response 8 (response_frame 7 [1]) = (ESP_ERR_INVALID_RESPONSE, None).
Proof.
  split; [unfold in_width; lia|].
  apply (bridge_framing 7 8 6 1 [1]); [unfold in_width; lia|cbn; lia|lia].
Defined.
End Demo.
