(* ===== verification/LeaseGuard.v ===== *)
(** * Lease renewal and the dispatch gate

    Models src/components/asic/bzm_lease_guard.c (renewal of the bridge's safety
    lease around delays and inside long operations, execution deadlines) and
    src/components/asic/bzm_dispatch_gate.c (the authorisation callback of the
    work dispatcher), with their headers.  The callbacks are optional world
    transformers; a [NULL] schedule or gate is the [None] of the argument. *)

From S2P Require Import Prelude Float32 Bridge.

#[local] Open Scope io_scope.

(** ** Lease guard *)

Definition BZM_LEASE_GUARD_MAX_DELAY_CHUNK_MS : Z := 250.

Record bzm_lease_guard_schedule_t := mk_schedule {
  renewed : bool;
  last_renewal_ms : Z;
}.

Definition required_evidence : Z :=
  Z.lor (Z.lor BZM_BRIDGE_SAFETY_EVIDENCE_LEASE_VALID BZM_BRIDGE_SAFETY_EVIDENCE_TRIP_CLEAR)
        BZM_BRIDGE_SAFETY_EVIDENCE_FAULT_CLEAR.

Definition bzm_lease_guard_status_is_controlled (status : option bzm_bridge_safety_status_t) : bool :=
  match status with
  | None => false
  | Some s =>
      valid s && (state s =? BZM_BRIDGE_SAFETY_STATE_CONTROLLED) &&
      (fault s =? BZM_BRIDGE_SAFETY_FAULT_NONE) &&
      (runtime_verdict s =? BZM_BRIDGE_SAFETY_RUNTIME_GOOD_CONTROLLED) &&
      (0 <? lease_remaining_ms s) && all_bits (evidence s) required_evidence &&
      negb (trip_input_asserted s)
  end.

Section callbacks.
Context {W : Type}.

(** Each iteration sleeps at most 250 ms and at least one. *)
Fixpoint delay_loop (fuel : nat) (delay_ms : Z) (renew : io W bool) (sleep : Z -> io W unit)
    : io W (option bool) :=
  if delay_ms =? 0 then io_ret (Some true)
  else
    match fuel with
    | O => io_ret None
    | S fuel =>
        let! ok := renew in
        if negb ok then io_ret (Some false)
        else
          let chunk := if BZM_LEASE_GUARD_MAX_DELAY_CHUNK_MS <? delay_ms
                       then BZM_LEASE_GUARD_MAX_DELAY_CHUNK_MS else delay_ms in
          let! _ := sleep chunk in
          delay_loop fuel (u32 (delay_ms - chunk)) renew sleep
    end.

Definition delay_fuel (delay_ms : Z) : nat := Z.to_nat ((delay_ms + 249) / 250).

Definition bzm_lease_guard_delay (delay_ms : Z) (renew : option (io W bool))
    (sleep : option (Z -> io W unit)) : io W (option bool) :=
  match renew, sleep with
  | Some renew, Some sleep => delay_loop (delay_fuel delay_ms) delay_ms renew sleep
  | _, _ => io_ret (Some false)
  end.

Definition renewal_due (s : bzm_lease_guard_schedule_t) (now_ms interval_ms : Z) : bool :=
  negb (renewed s) || (now_ms <? last_renewal_ms s) ||
  (interval_ms <=? u64 (now_ms - last_renewal_ms s)).

Definition bzm_lease_guard_service_due (schedule : bzm_lease_guard_schedule_t)
    (now_ms interval_ms : Z) (renew : option (io W bool))
    : io W (bool * bzm_lease_guard_schedule_t) :=
  match renew with
  | None => io_ret (false, schedule)
  | Some renew =>
      if interval_ms =? 0 then io_ret (false, schedule)
      else if negb (renewal_due schedule now_ms interval_ms) then io_ret (true, schedule)
      else
        let! ok := renew in
        if negb ok then io_ret (false, schedule)
        else io_ret (true, {| renewed := true; last_renewal_ms := now_ms |})
  end.

Definition bzm_lease_guard_service_authorized (schedule : bzm_lease_guard_schedule_t)
    (authorized : bool) (now_ms interval_ms : Z) (renew : option (io W bool))
    : io W (bool * bzm_lease_guard_schedule_t) :=
  if authorized then bzm_lease_guard_service_due schedule now_ms interval_ms renew
  else io_ret (false, schedule).
End callbacks.

Definition bzm_lease_guard_deadline_allows (deadline_ms now_ms : Z) : bool :=
  negb (deadline_ms =? 0) && (now_ms <? deadline_ms).

(** The deadline, when it is returned with [true]. *)
Definition bzm_lease_guard_make_deadline (now_ms lease_ms : Z) : option Z :=
  if (lease_ms =? 0) || (UINT64_MAX - lease_ms <? now_ms) then None
  else
    let deadline_ms := u64 (now_ms + lease_ms) in
    if deadline_ms =? 0 then None else Some deadline_ms.

(** ** Dispatch gate *)

(** The context travels with the callback, so the pair is one closure. *)
Record bzm_dispatch_gate_t (W : Type) := mk_gate { authorize : option (io W bool) }.
Arguments mk_gate {W}.
Arguments authorize {W}.

Definition bzm_dispatch_gate_init {W} : bzm_dispatch_gate_t W := {| authorize := None |}.
Definition bzm_dispatch_gate_set {W} (a : option (io W bool)) : bzm_dispatch_gate_t W :=
  {| authorize := a |}.
Definition bzm_dispatch_gate_is_authorized {W} (gate : option (bzm_dispatch_gate_t W)) : io W bool :=
  match gate with
  | Some {| authorize := Some a |} => a
  | _ => io_ret false
  end.

(** ** Traces of a guarded delay *)

Inductive guard_event := Renewed (ok : bool) | Slept (ms : Z).

Definition traced_renew {W} (renew : io W bool) : io (W * list guard_event) bool :=
  fun '(w, t) => let '(ok, w') := renew w in (ok, (w', t ++ [Renewed ok])).
Definition traced_sleep {W} (sleep : Z -> io W unit) (ms : Z) : io (W * list guard_event) unit :=
  fun '(w, t) => let '(_, w') := sleep ms w in (tt, (w', t ++ [Slept ms])).

(** Chunks of sleep, each at most 250 ms and each right after a renewal. *)
Definition guarded_chunks (chunks : list Z) : list guard_event :=
  concat ((fun c => [Renewed true; Slept c]) <$> chunks).

Lemma delay_loop_spec {W} (renew : io W bool) (sleep : Z -> io W unit) (fuel : nat) :
  forall (d : Z) (w : W) (t : list guard_event),
  0 <= d < 4294967296 -> d <= 250 * Z.of_nat fuel ->
  exists (ok : bool) chunks w',
    delay_loop fuel d (traced_renew renew) (traced_sleep sleep) (w, t) =
      (Some ok, (w', t ++ guarded_chunks chunks ++ if ok then [] else [Renewed false])) /\
    Forall (fun c => 0 < c <= 250) chunks /\
    if ok then foldr Z.add 0 chunks = d else foldr Z.add 0 chunks < d.
Proof.
  induction fuel as [|fuel IH]; intros d w t Hd Hf.
  { cbn [delay_loop]. assert (d = 0) as -> by lia. cbn. exists true, [], w.
    cbn. rewrite app_nil_r. done. }
  cbn [delay_loop]. destruct (Z.eqb_spec d 0) as [->|Hne].
  { exists true, [], w. cbn. rewrite app_nil_r. done. }
  unfold io_bind at 1. unfold traced_renew at 1. destruct (renew w) as [ok w1].
  destruct ok; cbn [negb].
  2: { exists false, [], w1. split_and!; [done|constructor|cbn; lia]. }
  unfold BZM_LEASE_GUARD_MAX_DELAY_CHUNK_MS.
  set (c := if 250 <? d then 250 else d).
  assert (Hc : 0 < c <= 250 /\ c <= d /\ d - c <= 250 * Z.of_nat fuel).
  { unfold c. destruct (Z.ltb_spec 250 d); lia. }
  unfold io_bind at 1. unfold traced_sleep at 1. destruct (sleep c w1) as [u w2].
  rewrite u32_small by lia.
  destruct (IH (d - c) w2 ((t ++ [Renewed true]) ++ [Slept c])) as (ok & chunks & w3 & -> & Hall & Hsum);
    [lia|lia|].
  exists ok, (c :: chunks), w3. split_and!.
  - cbn [guarded_chunks fmap list_fmap concat]. by rewrite <- !app_assoc.
  - constructor; [exact (proj1 Hc)|exact Hall].
  - cbn [foldr]. destruct ok; lia.
Qed.

(** ** Properties *)

(** A guarded delay always returns; it renews the lease right before every
    chunk of sleep, sleeps in chunks of at most 250 ms, sleeps exactly the
    requested time when it succeeds, and stops at the first failed renewal,
    strictly before the requested time. *)
Theorem lease_delay_renews_before_sleep {W} (renew : io W bool) (sleep : Z -> io W unit) delay_ms w :
  is_u32 delay_ms ->
  exists (ok : bool) chunks w',
    bzm_lease_guard_delay delay_ms (Some (traced_renew renew)) (Some (traced_sleep sleep)) (w, []) =
      (Some ok, (w', guarded_chunks chunks ++ if ok then [] else [Renewed false])) /\
    Forall (fun c => 0 < c <= 250) chunks /\
    if ok then foldr Z.add 0 chunks = delay_ms else foldr Z.add 0 chunks < delay_ms.
Proof.
  intros Hd. unfold in_width in Hd. change (2 ^ 32) with 4294967296 in Hd.
  apply (delay_loop_spec renew sleep (delay_fuel delay_ms) delay_ms w []); [done|].
  unfold delay_fuel. rewrite Z2Nat.id by (apply Z.div_pos; lia).
  pose proof (Z.div_mod (delay_ms + 249) 250 ltac:(lia)).
  pose proof (Z.mod_pos_bound (delay_ms + 249) 250 ltac:(lia)). lia.
Qed.

(** Servicing a lease succeeds only with a fresh renewal on record: after a
    successful call the recorded renewal is not in the future and is less than
    one interval old, also after the clock has gone backwards; a failed renewal
    leaves the schedule as it was, and an unauthorised operation neither renews
    nor succeeds. *)
Theorem lease_service_keeps_fresh {W} (renew : option (io W bool)) schedule authorized now interval w :
  is_u64 now -> is_u64 (last_renewal_ms schedule) -> 0 <= interval ->
  let '((ok, schedule'), w') :=
    bzm_lease_guard_service_authorized schedule authorized now interval renew w in
  if ok then
    authorized = true /\ renewed schedule' = true /\
    last_renewal_ms schedule' <= now < last_renewal_ms schedule' + interval /\
    (schedule' <> schedule -> exists r, renew = Some r /\ (r w).1 = true)
  else schedule' = schedule /\ (authorized = false -> w' = w).
Proof.
  intros Hn Hl Hi. unfold in_width in *. change (2 ^ 64) with 18446744073709551616 in *.
  unfold bzm_lease_guard_service_authorized, bzm_lease_guard_service_due.
  destruct authorized; [|done]. destruct renew as [renew|]; [|done].
  destruct (Z.eqb_spec interval 0) as [|Hne]; [done|].
  destruct (renewal_due schedule now interval) eqn:Hdue; cbn [negb].
  - unfold io_bind. destruct (renew w) as [ok w'] eqn:Hr. destruct ok; cbn; [|done].
    split_and!; try done; try lia. intros _. exists renew. by rewrite Hr.
  - unfold io_ret. unfold renewal_due in Hdue. prop_bool. z_tests.
    rewrite u64_small in * by lia. split_and!; try done; lia.
Qed.

(** Deadlines never wrap: a deadline is constructed exactly when the lease
    is nonzero and the sum fits 64 bits, it is then the exact sum, and it allows
    execution at a time exactly if that time lies strictly before it. *)
Theorem lease_deadline_exact now lease t :
  is_u64 now -> is_u32 lease ->
  match bzm_lease_guard_make_deadline now lease with
  | Some d => d = now + lease /\ 0 < lease /\ is_u64 d /\
              (bzm_lease_guard_deadline_allows d t = true <-> t < now + lease)
  | None => lease = 0 \/ UINT64_MAX < now + lease
  end.
Proof.
  intros Hn Hl. unfold in_width in *. change (2 ^ 64) with 18446744073709551616 in *.
  change (2 ^ 32) with 4294967296 in *. unfold bzm_lease_guard_make_deadline, UINT64_MAX.
  destruct (Z.eqb_spec lease 0) as [|Hne]; [by left|]. cbn [orb].
  destruct (Z.ltb_spec (18446744073709551615 - lease) now) as [|Hle]; [right; lia|].
  rewrite u64_small by lia. rewrite (proj2 (Z.eqb_neq _ _)) by lia.
  split_and!; try lia. unfold bzm_lease_guard_deadline_allows.
  rewrite (proj2 (Z.eqb_neq _ _)) by lia. cbn [negb andb]. apply Z.ltb_lt.
Qed.

(** A status decoded from the bridge that passes the controlled-operation
    test comes from a consistent report under a live lease: the bridge is past
    its boot-safe stage, no fault is latched and none is recorded, the trip
    input is clear, and the lease has time left. *)
Theorem lease_controlled_status_is_live payload s :
  bytes_ok payload ->
  bzm_bridge_decode_safety_status (Some payload) = (ESP_OK, s) ->
  bzm_lease_guard_status_is_controlled (Some s) = true ->
  boot_safe s = false /\ fault_latched s = false /\ fault_clear s = true /\
  trip_input_asserted s = false /\ 0 < lease_remaining_ms s /\ lease_valid s = true.
Proof.
  intros Hok Hdec Hc. destruct (decode_safety_sound payload s Hok Hdec) as [Hs _].
  unfold bzm_lease_guard_status_is_controlled in Hc. prop_bool. z_tests.
  assert (Hl : lease_remaining_ms s <> 0) by lia.
  destruct (sc_no_lease _ Hs Hl) as [Hst Hb].
  assert (Hf : fault_clear s = true).
  { unfold fault_clear. by apply Z.eqb_eq. }
  split_and!; try done.
  - by rewrite (sc_latched _ Hs), Hf.
  - unfold lease_valid. rewrite Hb, Hst. by apply Z.ltb_lt.
Qed.

(** ** Concrete inputs *)

Module Demo.
(** The third renewal fails. *)
Definition renew : io nat bool := fun n => (negb (n =? 2)%nat, S n).
Definition sleep (_ : Z) : io nat unit := io_ret tt.

Lemma lease_delay_renews_before_sleep_witness :
  is_u32 900 /\
  exists (ok : bool) chunks w',
    bzm_lease_guard_delay 900 (Some (traced_renew renew)) (Some (traced_sleep sleep)) (0%nat, []) =
      (Some ok, (w', guarded_chunks chunks ++ if ok then [] else [Renewed false])) /\
    Forall (fun c => 0 < c <= 250) chunks /\
    if ok then foldr Z.add 0 chunks = 900 else foldr Z.add 0 chunks < 900.
Proof.
  split; [unfold in_width; lia|].
  apply (lease_delay_renews_before_sleep renew sleep 900 0%nat). unfold in_width. lia.
Defined.

Lemma lease_service_keeps_fresh_witness :
  is_u64 5000 /\
  let '((ok, schedule'), w') :=
    bzm_lease_guard_service_authorized {| renewed := true; last_renewal_ms := 9000 |} true 5000 500
      (Some renew) 0%nat in
  if ok then
    true = true /\ renewed schedule' = true /\
    last_renewal_ms schedule' <= 5000 < last_renewal_ms schedule' + 500 /\
    (schedule' <> {| renewed := true; last_renewal_ms := 9000 |} ->
     exists r, Some renew = Some r /\ (r 0%nat).1 = true)
  else schedule' = {| renewed := true; last_renewal_ms := 9000 |} /\ (true = false -> w' = 0%nat).
Proof.
  split; [unfold in_width; lia|].
  apply (lease_service_keeps_fresh (Some renew) {| renewed := true; last_renewal_ms := 9000 |}
           true 5000 500 0%nat); unfold in_width; cbn; lia.
Defined.

Lemma lease_deadline_exact_witness :
  is_u32 5000 /\
  match bzm_lease_guard_make_deadline 100 5000 with
  | Some d => d = 100 + 5000 /\ 0 < 5000 /\ is_u64 d /\
              (bzm_lease_guard_deadline_allows d 3 = true <-> 3 < 100 + 5000)
  | None => 5000 = 0 \/ UINT64_MAX < 100 + 5000
  end.
Proof.
  split; [unfold in_width; lia|]. apply (lease_deadline_exact 100 5000 3); unfold in_width; lia.
Defined.

Lemma lease_controlled_status_is_live_witness :
  bzm_lease_guard_status_is_controlled (Some Bridge.Demo.controlled) = true /\
  (boot_safe Bridge.Demo.controlled = false /\ fault_latched Bridge.Demo.controlled = false /\
   fault_clear Bridge.Demo.controlled = true /\ trip_input_asserted Bridge.Demo.controlled = false /\
   0 < lease_remaining_ms Bridge.Demo.controlled /\ lease_valid Bridge.Demo.controlled = true).
Proof.
  split; [reflexivity|].
  apply (lease_controlled_status_is_live (status_payload Bridge.Demo.controlled) Bridge.Demo.controlled);
    [apply bytes_ok_eval; by vm_compute|by vm_compute|reflexivity].
Defined.
End Demo.
