(* ===== verification/Work.v ===== *)
(** * Work packages of the Bonanza engines

    Models src/components/asic/bzm.c with include/bzm.h (the work package built
    from a job, the decoding of result frames, engine identifiers), the register
    programs of src/components/asic/bzm_work.c, and the helpers they use from
    src/components/stratum: [increment_bitmask] (mining.c), [midstate_sha256_bin]
    (utils.c) and [reverse_endianness_per_word] (hash_bytes.c).

    A register writer is a callback: it is a parameter, a computation over the
    world behind it.  Multi-byte values handed to it by address are their four
    bytes in the target's little-endian order. *)

From S2P Require Import Prelude Float32 Topology JobStore.
Open Scope io_scope.
Open Scope Z_scope.

(** ** SHA-256 compression of one block (utils.c) *)

Definition sha256_rotr (value shift : Z) : Z :=
  Z.lor (Z.shiftr value shift) (u32 (Z.shiftl value (32 - shift))).

Definition sha256_load_be32 (b : list Z) (i : nat) : Z :=
  Z.lor (Z.lor (Z.lor (Z.shiftl (byte_at b i) 24) (Z.shiftl (byte_at b (i + 1)) 16))
               (Z.shiftl (byte_at b (i + 2)) 8)) (byte_at b (i + 3)).

Definition sha256_store_be32 (value : Z) : list Z :=
  [u8 (Z.shiftr value 24); u8 (Z.shiftr value 16); u8 (Z.shiftr value 8); u8 value].

(** The four 32-bit words of a row of the table. *)
Definition row_words (row : Z) : list Z :=
  [u32 (Z.shiftr row 96); u32 (Z.shiftr row 64); u32 (Z.shiftr row 32); u32 row].

(** One literal per row of four words. *)
Definition sha256_round_constants : list Z :=
  concat (row_words <$>
    [0x428a2f9871374491b5c0fbcfe9b5dba5;
     0x3956c25b59f111f1923f82a4ab1c5ed5;
     0xd807aa9812835b01243185be550c7dc3;
     0x72be5d7480deb1fe9bdc06a7c19bf174;
     0xe49b69c1efbe47860fc19dc6240ca1cc;
     0x2de92c6f4a7484aa5cb0a9dc76f988da;
     0x983e5152a831c66db00327c8bf597fc7;
     0xc6e00bf3d5a7914706ca635114292967;
     0x27b70a852e1b21384d2c6dfc53380d13;
     0x650a7354766a0abb81c2c92e92722c85;
     0xa2bfe8a1a81a664bc24b8b70c76c51a3;
     0xd192e819d6990624f40e3585106aa070;
     0x19a4c1161e376c082748774c34b0bcb5;
     0x391c0cb34ed8aa4a5b9cca4f682e6ff3;
     0x748f82ee78a5636f84c878148cc70208;
     0x90befffaa4506cebbef9a3f7c67178f2]).

Definition sha256_initial_state : list Z :=
  [0x6a09e667; 0xbb67ae85; 0x3c6ef372; 0xa54ff53a; 0x510e527f; 0x9b05688c; 0x1f83d9ab; 0x5be0cd19].

(** [schedule[i]] of an array filled up to [i]. *)
Definition word_at (ws : list Z) (i : nat) : Z := nth i ws 0.

Definition schedule_word (schedule : list Z) (i : nat) : Z :=
  let w15 := word_at schedule (i - 15) in
  let w2 := word_at schedule (i - 2) in
  let s0 := Z.lxor (Z.lxor (sha256_rotr w15 7) (sha256_rotr w15 18)) (Z.shiftr w15 3) in
  let s1 := Z.lxor (Z.lxor (sha256_rotr w2 17) (sha256_rotr w2 19)) (Z.shiftr w2 10) in
  u32 (word_at schedule (i - 16) + s0 + word_at schedule (i - 7) + s1).

Definition message_schedule (data : list Z) : list Z :=
  fold_left (fun schedule i => schedule ++ [schedule_word schedule i]) (seq 16 48)
    ((fun i => sha256_load_be32 data (i * 4)) <$> seq 0 16).

Record sha256_vars := mk_vars { va : Z; vb : Z; vc : Z; vd : Z; ve : Z; vf : Z; vg : Z; vh : Z }.

Definition sha256_round (schedule : list Z) (s : sha256_vars) (i : nat) : sha256_vars :=
  let sum1 := Z.lxor (Z.lxor (sha256_rotr (ve s) 6) (sha256_rotr (ve s) 11)) (sha256_rotr (ve s) 25) in
  let choose := Z.lxor (Z.land (ve s) (vf s)) (Z.land (u32 (Z.lnot (ve s))) (vg s)) in
  let temp1 := u32 (vh s + sum1 + choose + word_at sha256_round_constants i + word_at schedule i) in
  let sum0 := Z.lxor (Z.lxor (sha256_rotr (va s) 2) (sha256_rotr (va s) 13)) (sha256_rotr (va s) 22) in
  let majority := Z.lxor (Z.lxor (Z.land (va s) (vb s)) (Z.land (va s) (vc s))) (Z.land (vb s) (vc s)) in
  let temp2 := u32 (sum0 + majority) in
  {| va := u32 (temp1 + temp2); vb := va s; vc := vb s; vd := vc s;
     ve := u32 (vd s + temp1); vf := ve s; vg := vf s; vh := vg s |}.

(** The state words after compressing one 64-byte block into the initial state. *)
Definition sha256_block_words (data : list Z) : list Z :=
  let schedule := message_schedule data in
  let h i := word_at sha256_initial_state i in
  let s := fold_left (sha256_round schedule) (seq 0 64)
             {| va := h 0%nat; vb := h 1%nat; vc := h 2%nat; vd := h 3%nat;
                ve := h 4%nat; vf := h 5%nat; vg := h 6%nat; vh := h 7%nat |} in
  zip_with (fun i w => u32 (i + w)) sha256_initial_state
    [va s; vb s; vc s; vd s; ve s; vf s; vg s; vh s].

Definition midstate_sha256_bin (data : list Z) (data_len : nat) : list Z :=
  if negb (data_len =? 64)%nat then replicate 32 0
  else concat (sha256_store_be32 <$> sha256_block_words data).

(** [__builtin_bswap32] of the four bytes at [i]. *)
Definition swapped_word (data : list Z) (i : nat) : list Z :=
  [byte_at data (i + 3); byte_at data (i + 2); byte_at data (i + 1); byte_at data i].

Definition reverse_endianness_per_word (data : list Z) : list Z :=
  concat ((fun w => swapped_word data (4 * w)) <$> seq 0 8).

(** ** Version rolling (mining.c) *)

Definition not32 (m : Z) : Z := Z.lxor 0xffffffff m.

Definition increment_bitmask (value mask : Z) : Z :=
  Z.lor (Z.land value (not32 mask)) (Z.land (u32 (Z.lor value (not32 mask) + 1)) mask).

(** ** Data *)

Definition BZM_RESULT_FRAME_SIZE : nat := 8.
Definition BZM_TDM_RESULT_FRAME_SIZE : nat := 10.
Definition BZM_MAX_ENGINE_COUNT : Z := 4096.
Definition BZM_VERSION_VARIANTS : nat := 4.
Definition BZM_ENGINES_PER_ASIC : Z := BZM_TOPOLOGY_ENGINE_COUNT.
Definition BZM_MAX_ACTIVE_WORK : nat := 256.
Definition BZM_CONTROL_ENGINE_ID : Z := 0xfff.
Definition BZM_BROADCAST_ASIC : Z := 0xfa.
Definition BZM_ALL_ASICS : Z := 0xff.

Record asic_work_t := mk_asic_work {
  work_handle : Z;
  work_template : option job_ref;
}.

Record bzm_work_t := mk_work {
  source : asic_work_t;
  engine_id : Z;
  timestamp_count : Z;
  work_starting_nonce : Z;
  end_nonce : Z;
  midstate_count : nat;
  midstates : list (list Z);
  versions : list Z;
  merkle_residue : Z;
  start_ntime : Z;
  target : Z;
  logical_sequence : Z;
  lead_zeros : Z;
}.
#[export] Instance bzm_work_t_eta : Eta bzm_work_t :=
  fun w => mk_work (source w) (engine_id w) (timestamp_count w) (work_starting_nonce w) (end_nonce w)
             (midstate_count w) (midstates w) (versions w) (merkle_residue w) (start_ntime w)
             (target w) (logical_sequence w) (lead_zeros w).

Record bzm_raw_result_t := mk_raw_result {
  raw_asic_id : Z;
  raw_engine_id : Z;
  status : Z;
  nonce : Z;
  sequence_id : Z;
  time : Z;
  timestamp_us : Z;
}.
#[export] Instance bzm_raw_result_t_eta : Eta bzm_raw_result_t :=
  fun r => mk_raw_result (raw_asic_id r) (raw_engine_id r) (status r) (nonce r) (sequence_id r)
             (time r) (timestamp_us r).
#[export] Instance bzm_raw_result_t_eq_dec : EqDecision bzm_raw_result_t.
Proof. solve_decision. Defined.

(** ** Building work (bzm.c) *)

(** The number of versions written, and the array; unwritten entries stay zero. *)
Definition bzm_build_versions (base_version mask : Z) (enhanced_mode : bool) : nat * list Z :=
  if negb enhanced_mode then (1%nat, [base_version; 0; 0; 0])
  else if mask =? 0 then
    (BZM_VERSION_VARIANTS, [base_version; base_version; base_version; base_version])
  else
    let v1 := increment_bitmask base_version mask in
    let v2 := increment_bitmask v1 mask in
    let v3 := increment_bitmask v2 mask in
    (BZM_VERSION_VARIANTS, [base_version; v1; v2; v3]).

(** The midstate stored for a version. *)
Definition version_midstate (job : asic_job_t) (v : Z) : list Z :=
  let midstate_data := asic_job_header job (starting_nonce job) v in
  reverse_endianness_per_word (midstate_sha256_bin midstate_data 64).

Definition bzm_work_build (src : option asic_work_t) (engine sequence timestamps zeros : Z)
    (enhanced_mode : bool) : option bzm_work_t :=
  match src with
  | Some ({| work_handle := h; work_template := Some t |} as src) =>
      if (h =? ASIC_WORK_HANDLE_INVALID) || (BZM_MAX_ENGINE_COUNT <=? engine) || (0x7f <? timestamps)
      then None
      else
        let job := pointee t in
        let '(count, vs) := bzm_build_versions (version job) (version_mask job) enhanced_mode in
        Some {| source := src;
                engine_id := engine;
                timestamp_count := timestamps;
                work_starting_nonce := starting_nonce job;
                end_nonce := UINT32_MAX;
                midstate_count := count;
                midstates := (version_midstate job <$> take count vs) ++
                             replicate (BZM_VERSION_VARIANTS - count) (replicate 32 0);
                versions := vs;
                merkle_residue := read_le32 (merkle_root job) 28;
                start_ntime := ntime job;
                target := nbits job;
                logical_sequence := sequence;
                lead_zeros := zeros |}
  | _ => None
  end.

(** ** Results (bzm.c) *)

(** The result written to the out-parameter, and what the function returns. *)
Definition bzm_result_decode (frame : option (list Z)) (timestamp : Z)
    : bool * option bzm_raw_result_t :=
  match frame with
  | None => (false, None)
  | Some frame =>
      let engine_status := Z.lor (Z.shiftl (byte_at frame 0) 8) (byte_at frame 1) in
      let result :=
        {| raw_asic_id := 0;
           raw_engine_id := Z.land engine_status 0x0fff;
           status := u8 (Z.shiftr engine_status 12);
           nonce := read_le32 frame 2;
           sequence_id := byte_at frame 6;
           time := byte_at frame 7;
           timestamp_us := timestamp |} in
      (raw_engine_id result <? BZM_MAX_ENGINE_COUNT, Some result)
  end.

Definition bzm_tdm_result_decode (frame : option (list Z)) (timestamp : Z)
    : bool * option bzm_raw_result_t :=
  match frame with
  | None => (false, None)
  | Some frame =>
      if negb (byte_at frame 1 =? 0x01) then (false, None)
      else
        match bzm_result_decode (Some (drop 2 frame)) timestamp with
        | (true, Some result) => (true, Some (result <| raw_asic_id := byte_at frame 0 |>))
        | (_, result) => (false, result)
        end
  end.

Definition bzm_raw_result_has_valid_nonce (result : option bzm_raw_result_t) : bool :=
  match result with Some r => has_bits (status r) 0x08 | None => false end.

Definition bzm_engine_physical_id (logical : Z) : option Z :=
  physical_id <$> bzm_topology_engine_at logical.

Definition bzm_engine_logical_id (physical : Z) : option Z :=
  topology_index <$> bzm_topology_from_physical_id physical.

Definition bzm_temperature_from_code (code : Z) : f32 :=
  fadd (f32_lit (-2938) 10)
    (fdiv (fmul (f32_lit 6318 10) (fsub (f32_of_Z (Z.land code 0x0fff)) (f32_lit 1 2)))
          (f32_of_Z 4096)).

(** ** Register programs (bzm_work.c) *)

Definition BZM_REG_ASIC_ID : Z := 0x0b.
Definition BZM_REG_MIDSTATE : Z := 0x10.
Definition BZM_REG_MERKLE_RESIDUE : Z := 0x30.
Definition BZM_REG_START_TIMESTAMP : Z := 0x34.
Definition BZM_REG_SEQUENCE_ID : Z := 0x38.
Definition BZM_REG_JOB_CONTROL : Z := 0x39.
Definition BZM_REG_START_NONCE : Z := 0x3c.
Definition BZM_REG_END_NONCE : Z := 0x40.
Definition BZM_REG_TARGET : Z := 0x44.
Definition BZM_REG_TIMESTAMP_COUNT : Z := 0x48.
Definition BZM_REG_ZEROS_TO_FIND : Z := 0x49.
Definition BZM_TIMESTAMP_AUTO_CLOCK_UNGATE : Z := 0x80.

(** The memory of [__builtin_bswap32(v)]. *)
Definition bswap32_bytes (v : Z) : list Z := rev (write_le32 v).

Section writer.
Context {W : Type}.

(** [writer(context, engine, offset, data, data_len)] *)
Definition bzm_register_writer_t : Type := Z -> Z -> list Z -> io W bool.

(** [writer(..) && writer(..) && ..], stopping at the first failure. *)
Fixpoint write_all (writer : bzm_register_writer_t) (engine : Z) (writes : list (Z * list Z))
    : io W bool :=
  match writes with
  | [] => io_ret true
  | (offset, data) :: writes =>
      let! ok := writer engine offset data in
      if (ok : bool) then write_all writer engine writes else io_ret false
  end.

Definition zero_count_of (w : bzm_work_t) : Z :=
  let zeros := if 32 <? lead_zeros w then u8 (lead_zeros w - 32) else 0 in
  if 32 <? zeros then 32 else zeros.

Definition work_sequence (w : bzm_work_t) (i : nat) : Z :=
  if (1 <? midstate_count w)%nat then u8 (Z.lor (Z.shiftl (logical_sequence w) 2) (Z.of_nat i))
  else logical_sequence w.

(** The register writes of one job, in order. *)
Definition work_writes (w : bzm_work_t) (include_nonce_range : bool) : list (Z * list Z) :=
  [(BZM_REG_ZEROS_TO_FIND, [zero_count_of w]);
   (BZM_REG_TIMESTAMP_COUNT, [Z.lor (timestamp_count w) BZM_TIMESTAMP_AUTO_CLOCK_UNGATE])] ++
  (if include_nonce_range
   then [(BZM_REG_START_NONCE, write_le32 (work_starting_nonce w));
         (BZM_REG_END_NONCE, write_le32 (end_nonce w))]
   else []) ++
  [(BZM_REG_MERKLE_RESIDUE, bswap32_bytes (merkle_residue w));
   (BZM_REG_START_TIMESTAMP, bswap32_bytes (start_ntime w));
   (BZM_REG_TARGET, bswap32_bytes (target w))] ++
  ((fun i => (BZM_REG_MIDSTATE, nth i (midstates w) [])) <$> seq 0 (midstate_count w)) ++
  ((fun i => (BZM_REG_SEQUENCE_ID, [work_sequence w i])) <$> seq 0 (midstate_count w)) ++
  [(BZM_REG_JOB_CONTROL, [3])].

Definition program_work (w : option bzm_work_t) (writer : option bzm_register_writer_t)
    (include_nonce_range : bool) : io W bool :=
  match w, writer with
  | Some w, Some writer =>
      if (midstate_count w =? 0)%nat || (BZM_VERSION_VARIANTS <? midstate_count w)%nat
      then io_ret false
      else write_all writer (engine_id w) (work_writes w include_nonce_range)
  | _, _ => io_ret false
  end.

Definition bzm_transport_program_work w writer : io W bool := program_work w writer true.
Definition bzm_transport_program_broadcast_work w writer : io W bool := program_work w writer false.

Definition flush_writes (enhanced_mode : bool) (job_control : Z) : list (Z * list Z) :=
  let sequence := if enhanced_mode then 0xfc else 0xff in
  let sequence_count := if enhanced_mode then BZM_VERSION_VARIANTS else 1%nat in
  (BZM_REG_TIMESTAMP_COUNT, [0xff]) ::
  ((fun i => (BZM_REG_SEQUENCE_ID, [u8 (sequence + Z.of_nat i)])) <$> seq 0 sequence_count) ++
  [(BZM_REG_JOB_CONTROL, [job_control])].

Definition program_flush_job (engine : Z) (enhanced_mode : bool) (job_control : Z)
    (writer : bzm_register_writer_t) : io W bool :=
  write_all writer engine (flush_writes enhanced_mode job_control).

Definition sentinel_midstate (variant : nat) : list Z :=
  concat ((fun w => write_le32 (Z.lxor w (u32 (Z.of_nat variant * 0x01010101)))) <$>
          sha256_initial_state).

Definition sentinel_work (engine : Z) : bzm_work_t :=
  {| source := {| work_handle := 0; work_template := None |};
     engine_id := engine; timestamp_count := 0xff; work_starting_nonce := 0; end_nonce := UINT32_MAX;
     midstate_count := BZM_VERSION_VARIANTS;
     midstates := sentinel_midstate <$> seq 0 BZM_VERSION_VARIANTS;
     versions := [0; 0; 0; 0]; merkle_residue := 0x1002b0a0; start_ntime := 0x65010002;
     target := 0x1d00ffff; logical_sequence := 0x3f; lead_zeros := 64 |}.

Definition bzm_transport_program_stage6_sentinel (engine : Z) (writer : option bzm_register_writer_t)
    : io W bool :=
  match writer with
  | Some wr =>
      if BZM_MAX_ENGINE_COUNT <=? engine then io_ret false
      else
        let! ok := bzm_transport_program_work (Some (sentinel_work engine)) writer in
        if (ok : bool) then program_flush_job engine true 1 wr else io_ret false
  | None => io_ret false
  end.

Fixpoint flush_loop (writer : bzm_register_writer_t) (enhanced_mode : bool) (engines : list Z)
    : io W bool :=
  match engines with
  | [] => io_ret true
  | logical :: engines =>
      match bzm_topology_activation_at logical BZM_ENGINE_STACK_BOTTOM with
      | None => io_ret false
      | Some engine =>
          let! first := program_flush_job (physical_id engine) enhanced_mode 3 writer in
          if negb first then io_ret false
          else
            let! second := program_flush_job (physical_id engine) enhanced_mode 1 writer in
            if negb second then io_ret false else flush_loop writer enhanced_mode engines
      end
  end.

Definition bzm_transport_program_flush (engine_count : Z) (enhanced_mode : bool)
    (writer : option bzm_register_writer_t) : io W bool :=
  match writer with
  | Some writer =>
      if (engine_count =? 0) || (BZM_ENGINES_PER_ASIC <? engine_count) then io_ret false
      else flush_loop writer enhanced_mode (seqZ 0 engine_count)
  | None => io_ret false
  end.
End writer.
Arguments bzm_register_writer_t : clear implicits.

Example sha256_abc :
  midstate_sha256_bin ([97; 98; 99; 128] ++ replicate 59 0 ++ [24]) 64 =
  [0xba; 0x78; 0x16; 0xbf; 0x8f; 0x01; 0xcf; 0xea; 0x41; 0x41; 0x40; 0xde; 0x5d; 0xae; 0x22; 0x23;
   0xb0; 0x03; 0x61; 0xa3; 0x96; 0x17; 0x7a; 0x9c; 0xb4; 0x10; 0xff; 0x61; 0xf2; 0x00; 0x15; 0xad].
Proof. by vm_compute. Qed.

(** ** Rolling the version

    [pext n mask v] is the number formed by the bits of [v] under [mask], among
    the low [n] bits; rolling adds one to it and leaves the other bits alone. *)

Fixpoint popcount (n : nat) (mask : Z) : nat :=
  match n with
  | O => 0
  | S n => (if Z.odd mask then 1 else 0) + popcount n (Z.shiftr mask 1)
  end.
Fixpoint pext (n : nat) (mask v : Z) : Z :=
  match n with
  | O => 0
  | S n =>
      let rest := pext n (Z.shiftr mask 1) (Z.shiftr v 1) in
      if Z.odd mask then Z.b2z (Z.odd v) + 2 * rest else rest
  end.

(** [increment_bitmask] on unbounded integers. *)
Definition roll (v m : Z) : Z := Z.lor (Z.ldiff v m) (Z.land (- Z.ldiff m v) m).

Lemma lxor_ones v n : 0 <= n -> 0 <= v < 2 ^ n -> Z.lxor (Z.ones n) v = Z.ones n - v.
Proof.
  intros Hn Hv. symmetry. rewrite Z.sub_nocarry_ldiff.
  - apply Z.bits_inj'. intros i Hi. rewrite Z.ldiff_spec, Z.lxor_spec.
    destruct (Z.lt_ge_cases i n).
    + rewrite Z.ones_spec_low by lia. by destruct (Z.testbit v i).
    + rewrite Z.ones_spec_high by lia.
      rewrite <- (Z.mod_small v (2 ^ n)) by done. by rewrite Z.mod_pow2_bits_high by lia.
  - apply Z.bits_inj'. intros i Hi. rewrite Z.ldiff_spec, Z.bits_0.
    destruct (Z.lt_ge_cases i n).
    + rewrite Z.ones_spec_low by lia. by rewrite andb_false_r.
    + rewrite <- (Z.mod_small v (2 ^ n)) by done. by rewrite Z.mod_pow2_bits_high by lia.
Qed.

Lemma testbit_u32 z i : 0 <= i -> Z.testbit (u32 z) i = (i <? 32) && Z.testbit z i.
Proof.
  intros Hi. unfold u32, wrap. destruct (Z.ltb_spec i 32).
  - by rewrite Z.mod_pow2_bits_low by lia.
  - by rewrite Z.mod_pow2_bits_high by lia.
Qed.

Lemma testbit_small v i : is_u32 v -> 32 <= i -> Z.testbit v i = false.
Proof.
  intros Hv Hi. rewrite <- (Z.mod_small v (2 ^ 32)) by apply Hv. apply Z.mod_pow2_bits_high. lia.
Qed.

Lemma is_u32_bits v : (forall i, 32 <= i -> Z.testbit v i = false) -> is_u32 v.
Proof.
  intros Hb. replace v with (u32 v); [apply u32_range|].
  apply Z.bits_inj'. intros i Hi. rewrite testbit_u32 by done.
  destruct (Z.ltb_spec i 32); [done|]. by rewrite Hb.
Qed.

Lemma testbit_not32 m i : is_u32 m -> 0 <= i -> Z.testbit (not32 m) i = (i <? 32) && negb (Z.testbit m i).
Proof.
  intros Hm Hi. unfold not32. change 0xffffffff with (Z.ones 32). rewrite Z.lxor_spec.
  destruct (Z.ltb_spec i 32); [by rewrite Z.ones_spec_low by lia|].
  rewrite Z.ones_spec_high by lia. by rewrite testbit_small by done.
Qed.

Lemma increment_bitmask_roll v m : is_u32 v -> is_u32 m -> increment_bitmask v m = roll v m.
Proof.
  intros Hv Hm. unfold increment_bitmask, roll.
  assert (E : u32 (Z.lor v (not32 m) + 1) = u32 (- Z.ldiff m v)).
  { assert (Ho : Z.lor v (not32 m) = Z.ones 32 - Z.ldiff m v).
    { rewrite <- lxor_ones; [|lia|].
      - apply Z.bits_inj'. intros i Hi. rewrite Z.lor_spec, testbit_not32, Z.lxor_spec, Z.ldiff_spec by done.
        destruct (Z.ltb_spec i 32).
        + rewrite Z.ones_spec_low by lia. by destruct (Z.testbit v i), (Z.testbit m i).
        + rewrite Z.ones_spec_high by lia. by rewrite !testbit_small by done.
      - split; [apply Z.ldiff_nonneg; left; apply Hm|].
        apply is_u32_bits. intros i Hi. by rewrite Z.ldiff_spec, testbit_small. }
    rewrite Ho. unfold u32, wrap. change (Z.ones 32) with (2 ^ 32 - 1).
    replace (2 ^ 32 - 1 - Z.ldiff m v + 1) with (- Z.ldiff m v + 1 * 2 ^ 32) by lia.
    by rewrite Z.mod_add. }
  rewrite E. apply Z.bits_inj'. intros i Hi.
  rewrite !Z.lor_spec, !Z.land_spec, Z.ldiff_spec, testbit_not32, testbit_u32 by done.
  destruct (Z.ltb_spec i 32); [by rewrite !andb_true_l|].
  by rewrite (testbit_small v), (testbit_small m), !andb_false_r by done.
Qed.

Lemma roll_odd v m : Z.odd (roll v m) = xorb (Z.odd m) (Z.odd v).
Proof.
  unfold roll. rewrite <- !Z.bit0_odd, Z.lor_spec, Z.land_spec, Z.ldiff_spec.
  rewrite (Z.bit0_odd (- _)), Z.odd_opp, <- Z.bit0_odd, Z.ldiff_spec.
  by destruct (Z.testbit v 0), (Z.testbit m 0).
Qed.

Lemma opp_shiftr d : Z.shiftr (- d) 1 = if Z.odd d then Z.lnot (Z.shiftr d 1) else - Z.shiftr d 1.
Proof.
  rewrite !Z.shiftr_div_pow2 by lia. change (2 ^ 1) with 2. unfold Z.lnot.
  pose proof (Z.div_mod d 2 ltac:(lia)) as Hd. rewrite Zmod_odd in Hd. destruct (Z.odd d).
  - symmetry. apply Z.div_unique with 1; lia.
  - symmetry. apply Z.div_unique with 0; lia.
Qed.

Lemma roll_shiftr v m :
  Z.shiftr (roll v m) 1 = if Z.odd m && negb (Z.odd v) then Z.shiftr v 1 else roll (Z.shiftr v 1) (Z.shiftr m 1).
Proof.
  unfold roll. rewrite Z.shiftr_lor, Z.shiftr_land, Z.shiftr_ldiff, opp_shiftr, Z.shiftr_ldiff.
  rewrite <- (Z.bit0_odd (Z.ldiff m v)), Z.ldiff_spec, !Z.bit0_odd.
  destruct (Z.odd m && negb (Z.odd v)); [|done].
  apply Z.bits_inj'. intros i Hi. rewrite Z.lor_spec, Z.land_spec, Z.lnot_spec, !Z.ldiff_spec by done.
  by destruct (Z.testbit (Z.shiftr v 1) i), (Z.testbit (Z.shiftr m 1) i).
Qed.

Lemma pext_bound n m v : 0 <= pext n m v < 2 ^ Z.of_nat (popcount n m).
Proof.
  revert m v. induction n as [|n IH]; intros m v; [simpl; lia|].
  specialize (IH (Z.shiftr m 1) (Z.shiftr v 1)). cbn [pext popcount].
  destruct (Z.odd m); cbn [Nat.add]; [|done].
  rewrite Nat2Z.inj_succ, Z.pow_succ_r by lia. destruct (Z.odd v); cbn [Z.b2z]; lia.
Qed.

Lemma pext_roll n m v :
  pext n m (roll v m) = (pext n m v + 1) mod 2 ^ Z.of_nat (popcount n m).
Proof.
  revert m v. induction n as [|n IH]; intros m v; [done|].
  cbn [pext popcount]. rewrite roll_odd, roll_shiftr.
  pose proof (pext_bound n (Z.shiftr m 1) (Z.shiftr v 1)) as Hb.
  destruct (Z.odd m), (Z.odd v); cbn [andb negb xorb Z.b2z Nat.add]; rewrite ?IH; try done.
  all: rewrite Nat2Z.inj_succ, Z.pow_succ_r by lia.
  - replace (1 + 2 * pext n (Z.shiftr m 1) (Z.shiftr v 1) + 1)
      with (2 * (pext n (Z.shiftr m 1) (Z.shiftr v 1) + 1)) by lia.
    by rewrite Z.mul_mod_distr_l by lia.
  - rewrite Z.mod_small by lia. lia.
Qed.

Lemma roll_outside v m : Z.ldiff (roll v m) m = Z.ldiff v m.
Proof.
  unfold roll. apply Z.bits_inj'. intros i Hi.
  rewrite !Z.ldiff_spec, Z.lor_spec, Z.ldiff_spec, Z.land_spec.
  destruct (Z.testbit m i), (Z.testbit v i), (Z.testbit (- Z.ldiff m v) i); done.
Qed.

Lemma roll_u32 v m : is_u32 v -> is_u32 m -> is_u32 (roll v m).
Proof.
  intros Hv Hm. apply is_u32_bits. intros i Hi. unfold roll.
  rewrite Z.lor_spec, Z.land_spec, Z.ldiff_spec, (testbit_small v), (testbit_small m) by done.
  by rewrite andb_false_r.
Qed.

Lemma roll_pext n m v : is_u32 v -> is_u32 m ->
  pext n m (increment_bitmask v m) = (pext n m v + 1) mod 2 ^ Z.of_nat (popcount n m) /\
  Z.ldiff (increment_bitmask v m) m = Z.ldiff v m /\ is_u32 (increment_bitmask v m).
Proof.
  intros Hv Hm. rewrite increment_bitmask_roll by done.
  split; [apply pext_roll|split; [apply roll_outside|by apply roll_u32]].
Qed.

(** The [i]-th version of a job. *)
Fixpoint rolled (i : nat) (v m : Z) : Z :=
  match i with O => v | S i => increment_bitmask (rolled i v m) m end.

Lemma rolled_spec i v m : is_u32 v -> is_u32 m ->
  pext 32 m (rolled i v m) = (pext 32 m v + Z.of_nat i) mod 2 ^ Z.of_nat (popcount 32 m) /\
  Z.ldiff (rolled i v m) m = Z.ldiff v m /\ is_u32 (rolled i v m).
Proof.
  intros Hv Hm. induction i as [|i (IHp & IHo & IHw)]; cbn [rolled].
  - rewrite Z.add_0_r, Z.mod_small by apply pext_bound. done.
  - destruct (roll_pext 32 m (rolled i v m) IHw Hm) as (Hp & Ho & Hw).
    rewrite Hp, Ho, IHp, Zplus_mod_idemp_l. split; [f_equal; lia|done].
Qed.

Lemma rolled_inj i j v m :
  is_u32 v -> is_u32 m -> Z.of_nat i < 2 ^ Z.of_nat (popcount 32 m) ->
  Z.of_nat j < 2 ^ Z.of_nat (popcount 32 m) -> rolled i v m = rolled j v m -> i = j.
Proof.
  intros Hv Hm Hi Hj E. destruct (rolled_spec i v m Hv Hm) as (Ei & _), (rolled_spec j v m Hv Hm) as (Ej & _).
  rewrite E, Ej in Ei. pose proof (pext_bound 32 m v) as Hb.
  set (M := 2 ^ Z.of_nat (popcount 32 m)) in *. set (p := pext 32 m v) in *.
  pose proof (Z.div_mod (p + Z.of_nat i) M ltac:(lia)). pose proof (Z.div_mod (p + Z.of_nat j) M ltac:(lia)).
  assert (Z.abs ((p + Z.of_nat i) / M - (p + Z.of_nat j) / M) * M < M) by nia.
  assert ((p + Z.of_nat i) / M = (p + Z.of_nat j) / M) by nia. nia.
Qed.

(** What every package carries over. *)
Lemma work_build_fields src t engine sequence timestamps zeros enhanced w :
  work_template src = Some t ->
  bzm_work_build (Some src) engine sequence timestamps zeros enhanced = Some w ->
  source w = src /\ engine_id w = engine /\ logical_sequence w = sequence /\
  timestamp_count w = timestamps /\ start_ntime w = ntime (pointee t) /\
  versions w = snd (bzm_build_versions (version (pointee t)) (version_mask (pointee t)) enhanced) /\
  midstate_count w = fst (bzm_build_versions (version (pointee t)) (version_mask (pointee t)) enhanced).
Proof.
  destruct src as [h t']. cbn [work_template]. intros ->. unfold bzm_work_build.
  destruct (_ || _ || _); [done|]. destruct (bzm_build_versions _ _ _) as [count vs].
  intros [= <-]. by split_and!.
Qed.

(** Rolling never repeats a header: in enhanced mode the four versions of a
    package are the base version rolled 0, 1, 2 and 3 times, which change only
    bits under the negotiated mask and count upwards in them, so they are
    pairwise distinct whenever the mask has two bits; and the version a producer
    reaches by four more rolls starts a package that shares none of them while
    the mask has room for eight. *)
Theorem work_versions_roll base mask :
  is_u32 base -> is_u32 mask -> mask <> 0 ->
  exists vs, bzm_build_versions base mask true = (4%nat, vs) /\
    vs = (fun i => rolled i base mask) <$> [0; 1; 2; 3]%nat /\
    (forall i v, vs !! i = Some v ->
       Z.ldiff v mask = Z.ldiff base mask /\
       pext 32 mask v = (pext 32 mask base + Z.of_nat i) mod 2 ^ Z.of_nat (popcount 32 mask)) /\
    ((2 <= popcount 32 mask)%nat -> NoDup vs) /\
    ((3 <= popcount 32 mask)%nat ->
       NoDup (vs ++ snd (bzm_build_versions (rolled 4 base mask) mask true))).
Proof.
  intros Hb Hm Hne. unfold bzm_build_versions. cbn [negb].
  destruct (Z.eqb_spec mask 0); [done|]. eexists. split; [done|]. split; [done|].
  assert (Hl : forall l, Forall (fun i => Z.of_nat i < 2 ^ Z.of_nat (popcount 32 mask)) l -> NoDup l ->
    NoDup ((fun i => rolled i base mask) <$> l)).
  { intros l Hl Hd. induction Hd as [|i l Hi Hd IH]; cbn; constructor.
    - intros (j & Ej & Hj)%list_elem_of_fmap. apply Hi.
      rewrite Forall_cons in Hl. destruct Hl as [Hli Hl]. rewrite Forall_forall in Hl.
      by rewrite (rolled_inj i j base mask Hb Hm Hli (Hl j Hj) Ej).
    - apply IH. by inversion Hl. }
  split_and!.
  - intros i v Hv. assert (v = rolled i base mask) as ->.
    { do 4 (destruct i as [|i]; [by injection Hv|]). done. }
    destruct (rolled_spec i base mask Hb Hm) as (? & ? & _). done.
  - intros Hp. apply (Hl [0; 1; 2; 3]%nat); [|by apply (bool_decide_unpack _)].
    pose proof (Z.pow_le_mono_r 2 2 (Z.of_nat (popcount 32 mask)) ltac:(lia) ltac:(lia)).
    change (2 ^ 2) with 4 in *. repeat constructor; lia.
  - intros Hp. apply (Hl [0; 1; 2; 3; 4; 5; 6; 7]%nat); [|by apply (bool_decide_unpack _)].
    pose proof (Z.pow_le_mono_r 2 3 (Z.of_nat (popcount 32 mask)) ltac:(lia) ltac:(lia)).
    change (2 ^ 3) with 8 in *. repeat constructor; lia.
Qed.

(** ** The package determines the header *)

(** A job as the builders of src/components/stratum fill it in. *)
Record job_wf (job : asic_job_t) : Prop := {
  jw_prev : length (prev_hash job) = 32%nat;
  jw_merkle : length (merkle_root job) = 32%nat;
  jw_merkle_bytes : bytes_ok (merkle_root job);
  jw_version : is_u32 (version job);
  jw_mask : is_u32 (version_mask job);
}.

Lemma byte_at_take data n i : (i < n)%nat -> byte_at (take n data) i = byte_at data i.
Proof.
  intros Hi. unfold byte_at. rewrite <- (take_drop n data) at 2.
  destruct (Nat.lt_ge_cases i (length (take n data))); [by rewrite app_nth1|].
  rewrite !nth_overflow; [done| |lia].
  rewrite length_app, length_drop. rewrite length_take in *. lia.
Qed.

Lemma block_words_take data : sha256_block_words (take 64 data) = sha256_block_words data.
Proof.
  unfold sha256_block_words. replace (message_schedule (take 64 data)) with (message_schedule data); [done|].
  unfold message_schedule. f_equal. apply list_fmap_ext. intros i x Hx.
  apply lookup_seq in Hx as [-> Hi]. unfold sha256_load_be32. rewrite !byte_at_take by lia. done.
Qed.

Lemma length_block_words data : length (sha256_block_words data) = 8%nat.
Proof. unfold sha256_block_words. by rewrite length_zip_with. Qed.

Lemma per_word_swap words :
  length words = 8%nat ->
  reverse_endianness_per_word (concat (sha256_store_be32 <$> words)) = concat (write_le32 <$> words).
Proof.
  intros Hl. do 8 (destruct words as [|? words]; [done|]). by destruct words.
Qed.

Lemma version_midstate_words job v :
  version_midstate job v =
  concat (write_le32 <$> sha256_block_words (take 64 (asic_job_header job (starting_nonce job) v))).
Proof.
  unfold version_midstate, midstate_sha256_bin. cbn [Nat.eqb negb].
  by rewrite block_words_take, per_word_swap by apply length_block_words.
Qed.

Lemma write_read_le32 data i :
  bytes_ok data -> (i + 4 <= length data)%nat ->
  write_le32 (read_le32 data i) = take 4 (drop i data).
Proof.
  intros Hd Hi. destruct (drop i data) as [|b0 [|b1 [|b2 [|b3 l]]]] eqn:E.
  1-4: apply (f_equal length) in E; rewrite length_drop in E; cbn in E; lia.
  assert (Hb : forall k, (k < 4)%nat -> byte_at data (i + k) = byte_at (b0 :: b1 :: b2 :: b3 :: l) k).
  { intros k Hk. unfold byte_at. rewrite <- E, <- (take_drop i data) at 1.
    rewrite app_nth2 by (rewrite length_take; lia). f_equal. rewrite length_take. lia. }
  assert (Hok : bytes_ok (b0 :: b1 :: b2 :: b3 :: l)) by (rewrite <- E; by apply Forall_drop).
  unfold bytes_ok in Hok. rewrite !Forall_cons in Hok. destruct Hok as (H0 & H1 & H2 & H3 & _).
  unfold read_le32. rewrite <- (Nat.add_0_r i) at 1. rewrite !Hb by lia. cbn [byte_at nth].
  destruct (read_le32_quad b0 b1 b2 b3 _ H0 H1 H2 H3 eq_refl) as (_ & E0 & E1 & E2 & E3).
  rewrite write_le32_list, E0, E1, E2, E3. done.
Qed.

(** The first 64 bytes of a header do not depend on the nonce, and the last 16
    are the merkle residue, the time, the target and the nonce. *)
Lemma header_split job n v :
  job_wf job ->
  asic_job_header job n v =
  take 64 (asic_job_header job (starting_nonce job) v) ++
  write_le32 (read_le32 (merkle_root job) 28) ++ write_le32 (ntime job) ++ write_le32 (nbits job) ++
  write_le32 n.
Proof.
  intros Hj. pose proof (jw_prev _ Hj) as Hp. pose proof (jw_merkle _ Hj) as Hm.
  rewrite write_read_le32; [|apply Hj|rewrite Hm; lia].
  rewrite (take_ge (drop 28 _)) by (rewrite length_drop, Hm; done).
  assert (E : forall k, asic_job_header job k v =
    (write_le32 v ++ prev_hash job ++ take 28 (merkle_root job)) ++
    drop 28 (merkle_root job) ++ write_le32 (ntime job) ++ write_le32 (nbits job) ++ write_le32 k).
  { intros k. unfold asic_job_header. rewrite <- (take_drop 28 (merkle_root job)) at 1.
    by rewrite <- !app_assoc. }
  rewrite !E. rewrite take_app_length'; [done|].
  rewrite !length_app, Hp, length_take, Hm. done.
Qed.

(** C32: A package is built exactly for a valid handle, an addressable engine and
    a time count of seven bits, and then it determines every header it stands
    for: for each of its one or four versions and any nonce, the header of the
    job is a 64-byte block whose SHA-256 compression is the stored midstate
    (as little-endian words), followed by the package's merkle residue, start
    time, target and the nonce. *)
Theorem work_package_determines_headers addr job h engine sequence timestamps zeros enhanced :
  job_wf job ->
  let src := {| work_handle := h; work_template := Some {| address := addr; pointee := job |} |} in
  match bzm_work_build (Some src) engine sequence timestamps zeros enhanced with
  | None => h = ASIC_WORK_HANDLE_INVALID \/ BZM_MAX_ENGINE_COUNT <= engine \/ 0x7f < timestamps
  | Some w =>
      h <> ASIC_WORK_HANDLE_INVALID /\ engine < BZM_MAX_ENGINE_COUNT /\ timestamps <= 0x7f /\
      source w = src /\ engine_id w = engine /\ logical_sequence w = sequence /\
      midstate_count w = (if enhanced then 4 else 1)%nat /\
      forall i n, (i < midstate_count w)%nat ->
        exists v block, versions w !! i = Some v /\ length block = 64%nat /\
          midstates w !! i = Some (concat (write_le32 <$> sha256_block_words block)) /\
          asic_job_header job n v =
            block ++ write_le32 (merkle_residue w) ++ write_le32 (start_ntime w) ++
            write_le32 (target w) ++ write_le32 n
  end.
Proof.
  intros Hj. cbn zeta. unfold bzm_work_build. cbn [pointee].
  destruct ((h =? _) || _ || _) eqn:E.
  { rewrite !orb_true_iff, Z.eqb_eq, Z.leb_le, Z.ltb_lt in E. tauto. }
  rewrite !orb_false_iff, Z.eqb_neq, Z.leb_gt, Z.ltb_ge in E. destruct E as ((Eh & Ee) & Et).
  destruct (bzm_build_versions _ _ _) as [count vs] eqn:Ev.
  cbn [source engine_id logical_sequence midstate_count midstates versions merkle_residue start_ntime target].
  assert (Hc : count = (if enhanced then 4 else 1)%nat /\ length vs = 4%nat).
  { revert Ev. unfold bzm_build_versions. destruct enhanced; cbn; [case_match|]; intros [= <- <-]; done. }
  destruct Hc as [Hc Hl]. split_and!; [exact Eh|lia|lia|reflexivity|reflexivity|reflexivity|exact Hc|].
  intros i n Hi. destruct (lookup_lt_is_Some_2 vs i) as [v Hv]; [rewrite Hl; destruct enhanced; lia|].
  exists v, (take 64 (asic_job_header job (starting_nonce job) v)). split_and!; [exact Hv| | |exact (header_split job n v Hj)].
  - unfold asic_job_header.
    by rewrite length_take, !length_app, (jw_prev _ Hj), (jw_merkle _ Hj), !write_le32_list.
  - rewrite lookup_app_l by (rewrite length_fmap, length_take, Hl; destruct enhanced; lia).
    rewrite list_lookup_fmap, lookup_take_lt, Hv by done. cbn [fmap option_fmap option_map].
    by rewrite version_midstate_words.
Qed.

Module Demo.
Definition job : asic_job_t :=
  {| version := 0x20000000; version_mask := 0x1fffe000; prev_hash := replicate 32 7;
     merkle_root := replicate 32 9; ntime := 0x65010002; nbits := 0x1d00ffff; starting_nonce := 0;
     pool_diff := S754_zero false; pool_id := 0; source_type := JOB_TYPE_V1; job_id := []; extranonce2 := [] |}.

Lemma job_is_wf : job_wf job.
Proof. split; try done. by apply bytes_ok_eval. Qed.

Lemma work_versions_roll_witness :
  exists vs, bzm_build_versions 0x20000000 0x1fffe000 true = (4%nat, vs) /\ vs !! 3%nat = Some 0x20006000.
Proof.
  destruct (work_versions_roll 0x20000000 0x1fffe000) as (vs & E & Hvs & _); [done|done|done|].
  exists vs. split; [exact E|]. by rewrite Hvs.
Defined.

Lemma work_package_determines_headers_witness :
  match bzm_work_build (Some {| work_handle := 256; work_template := Some {| address := 1; pointee := job |} |})
          0x041 5 60 64 true with
  | Some w => midstate_count w = 4%nat
  | None => False
  end.
Proof.
  pose proof (work_package_determines_headers 1 job 256 0x041 5 60 64 true job_is_wf) as H. cbn zeta in H.
  destruct (bzm_work_build _ _ _ _ _ _) as [w|].
  - exact (proj1 (proj2 (proj2 (proj2 (proj2 (proj2 (proj2 H))))))).
  - destruct H as [H|[H|H]]; by vm_compute in H.
Defined.
End Demo.
