(* ===== verification/Telemetry.v ===== *)
(** * Sensor telemetry of the ASIC chain

    Models src/components/asic/bzm_telemetry.c with its header: decoding of the
    eight-byte TDM sensor frame, the store of the latest sample per ASIC, the
    freshness and bounds tests, and the three confirmation counters that tell a
    persistent anomaly from a corrupted frame.  [float] values are the binary32
    data of [Float32].  A [NULL] argument is not modelled; the optional
    out-parameters of the confirmations are returned with the result. *)

From S2P Require Import Prelude Float32 Topology FrameParser.

(** ** Data *)

Definition BZM_CH2_CONFIRM_MAX_SAMPLES : Z := 10.

Record bzm_telemetry_bounds_t := mk_bounds {
  temperature_min_c : f32;
  temperature_max_c : f32;
  ch0_min_mv : f32;
  ch0_max_mv : f32;
  ch1_min_mv : f32;
  ch1_max_mv : f32;
  ch2_abs_max_mv : f32;
  max_stack_spread_mv : f32;
}.

Record bzm_telemetry_sample_t := mk_sample {
  sample_asic_id : Z;
  sample_timestamp_us : Z;
  received : bool;
  temperature_code : Z;
  temperature_c : f32;
  thermal_enabled : bool;
  thermal_validity : bool;
  thermal_fault : bool;
  thermal_trip : bool;
  thermal_valid : bool;
  ch0_code : Z;
  ch1_code : Z;
  ch2_code : Z;
  ch0_mv : f32;
  ch1_mv : f32;
  ch2_mv : f32;
  voltage_enabled : bool;
  voltage_fault : bool;
  voltage_trip : bool;
  voltage_valid : bool;
  pll_locked : bool;
  sample_valid : bool;
  trip : bool;
}.

(** The samples of the four ASICs, in chain order. *)
Definition bzm_telemetry_store_t : Type := list bzm_telemetry_sample_t.

Definition zero_sample (id : Z) : bzm_telemetry_sample_t :=
  let z := S754_zero false in
  {| sample_asic_id := id; sample_timestamp_us := 0; received := false; temperature_code := 0;
     temperature_c := z; thermal_enabled := false; thermal_validity := false; thermal_fault := false;
     thermal_trip := false; thermal_valid := false; ch0_code := 0; ch1_code := 0; ch2_code := 0;
     ch0_mv := z; ch1_mv := z; ch2_mv := z; voltage_enabled := false; voltage_fault := false;
     voltage_trip := false; voltage_valid := false; pll_locked := false; sample_valid := false;
     trip := false |}.

(** ** Decoding *)

Definition valid_asic_id (id : Z) : bool := bool_decide (is_Some (bzm_topology_asic_index id)).

Definition bzm_telemetry_temperature_from_code (code : Z) : f32 :=
  fadd (f32_lit (-2938) 10)
    (fdiv (fmul (f32_lit 6318 10) (fsub (f32_of_Z (Z.land code 0x0fff)) (f32_lit 1 2)))
          (f32_of_Z 4096)).

Definition bzm_telemetry_voltage_from_code_mv (code : Z) : f32 :=
  fmul (fmul (fmul (f32_of_Z 1000) (f32_lit 4 10)) (f32_lit 7067 10000))
    (fsub (fsub (fdiv (fmul (f32_of_Z 6) (f32_of_Z (Z.land code 0x3fff))) (f32_of_Z 16384))
                (fdiv (f32_of_Z 3) (f32_of_Z 16384)))
          (f32_of_Z 1)).

Definition bzm_telemetry_decode (id : Z) (data : list Z) (length : nat) (timestamp : Z)
    : option bzm_telemetry_sample_t :=
  if negb (valid_asic_id id) || negb (length =? BZM_TDM_TELEMETRY_PAYLOAD_SIZE)%nat then None
  else
    let thermal := byte_at data 0 in
    let voltage := byte_at data 2 in
    let clocks := byte_at data 7 in
    let t_code := Z.lor (Z.shiftl (Z.land thermal 0x0f) 8) (byte_at data 1) in
    let c0 := Z.lor (Z.shiftl (Z.land voltage 0x3f) 8) (byte_at data 3) in
    let c1 := Z.lor (Z.shiftl (byte_at data 4) 6) (Z.land (byte_at data 5) 0x3f) in
    let c2 := Z.lor (Z.lor (Z.shiftl (Z.land clocks 0x0f) 10) (Z.shiftl (byte_at data 6) 2))
                    (Z.shiftr (byte_at data 5) 6) in
    let th_valid := has_bits thermal 0x80 && has_bits thermal 0x40 && negb (has_bits thermal 0x20) in
    let v_valid := has_bits voltage 0x80 && negb (has_bits clocks 0x10) in
    Some
      {| sample_asic_id := id; sample_timestamp_us := timestamp; received := true;
         temperature_code := t_code;
         temperature_c := bzm_telemetry_temperature_from_code t_code;
         thermal_enabled := has_bits thermal 0x80;
         thermal_validity := has_bits thermal 0x40;
         thermal_fault := has_bits thermal 0x20;
         thermal_trip := has_bits thermal 0x10;
         thermal_valid := th_valid;
         ch0_code := c0; ch1_code := c1; ch2_code := c2;
         ch0_mv := bzm_telemetry_voltage_from_code_mv c0;
         ch1_mv := bzm_telemetry_voltage_from_code_mv c1;
         ch2_mv := bzm_telemetry_voltage_from_code_mv c2;
         voltage_enabled := has_bits voltage 0x80;
         voltage_fault := has_bits clocks 0x10;
         voltage_trip := has_bits voltage 0x40;
         voltage_valid := v_valid;
         pll_locked := has_bits clocks 0x80;
         sample_valid := th_valid && v_valid;
         trip := has_bits thermal 0x10 || has_bits voltage 0x40 |}.

(** ** The store *)

Definition bzm_telemetry_store_init : bzm_telemetry_store_t := zero_sample <$> bzm_asic_wire_ids.

Definition bzm_telemetry_store_apply_frame (store : bzm_telemetry_store_t) (frame : bzm_frame_t)
    : bool * bzm_telemetry_store_t :=
  if negb (type frame =? BZM_FRAME_TELEMETRY) || negb (valid_asic_id (asic_id frame)) then (false, store)
  else
    match bzm_topology_asic_index (asic_id frame) with
    | None => (false, store)
    | Some index =>
        match bzm_telemetry_decode (asic_id frame) (payload frame) (payload_length frame)
                (timestamp_us frame) with
        | None => (false, store)
        | Some sample => (true, <[index := sample]> store)
        end
    end.

Definition bzm_telemetry_store_get (store : bzm_telemetry_store_t) (id : Z)
    : option bzm_telemetry_sample_t :=
  match bzm_topology_asic_index id with None => None | Some index => store !! index end.

(** ** Tests *)

Definition bzm_telemetry_value_in_bounds (value minimum maximum : f32) : bool :=
  is_finite value && is_finite minimum && is_finite maximum && fle minimum maximum &&
  fle minimum value && fle value maximum.

Definition bzm_telemetry_sample_is_fresh (s : bzm_telemetry_sample_t) (now_us max_age_us : Z) : bool :=
  received s && (sample_timestamp_us s <=? now_us) && (now_us - sample_timestamp_us s <=? max_age_us).

Definition bzm_telemetry_sample_has_immediate_trip (s : bzm_telemetry_sample_t) : bool :=
  received s && trip s.

Definition bounds_are_valid (b : bzm_telemetry_bounds_t) : bool :=
  is_finite (temperature_min_c b) && is_finite (temperature_max_c b) &&
  fle (temperature_min_c b) (temperature_max_c b) &&
  is_finite (ch0_min_mv b) && is_finite (ch0_max_mv b) && fle (ch0_min_mv b) (ch0_max_mv b) &&
  is_finite (ch1_min_mv b) && is_finite (ch1_max_mv b) && fle (ch1_min_mv b) (ch1_max_mv b) &&
  is_finite (ch2_abs_max_mv b) && fle (f32_of_Z 0) (ch2_abs_max_mv b) &&
  is_finite (max_stack_spread_mv b) && fle (f32_of_Z 0) (max_stack_spread_mv b).

Definition sample_is_within_non_ch2_bounds (s : bzm_telemetry_sample_t) (b : bzm_telemetry_bounds_t) : bool :=
  if negb (bounds_are_valid b) || negb (is_finite (ch2_mv s)) then false
  else
    bzm_telemetry_value_in_bounds (temperature_c s) (temperature_min_c b) (temperature_max_c b) &&
    bzm_telemetry_value_in_bounds (ch0_mv s) (ch0_min_mv b) (ch0_max_mv b) &&
    bzm_telemetry_value_in_bounds (ch1_mv s) (ch1_min_mv b) (ch1_max_mv b) &&
    fle (fabs (fsub (ch0_mv s) (ch1_mv s))) (max_stack_spread_mv b).

Definition bzm_telemetry_sample_is_safe_except_ch2 (s : bzm_telemetry_sample_t) (now_us max_age_us : Z)
    (b : bzm_telemetry_bounds_t) (require_clock_locks : bool) : bool :=
  if trip s || negb (thermal_valid s) || negb (voltage_enabled s) ||
     negb (bzm_telemetry_sample_is_fresh s now_us max_age_us) ||
     negb (sample_is_within_non_ch2_bounds s b) || (require_clock_locks && negb (pll_locked s))
  then false
  else if voltage_valid s then true
  else voltage_fault s && is_finite (ch2_mv s) && flt (ch2_abs_max_mv b) (fabs (ch2_mv s)).

Definition bzm_telemetry_sample_is_within_bounds (s : bzm_telemetry_sample_t)
    (b : bzm_telemetry_bounds_t) : bool :=
  sample_is_within_non_ch2_bounds s b && fle (fabs (ch2_mv s)) (ch2_abs_max_mv b).

Definition bzm_telemetry_sample_is_safe (s : bzm_telemetry_sample_t) (now_us max_age_us : Z)
    (b : bzm_telemetry_bounds_t) (require_clock_locks : bool) : bool :=
  sample_valid s && negb (trip s) && bzm_telemetry_sample_is_fresh s now_us max_age_us &&
  bzm_telemetry_sample_is_within_bounds s b && (negb require_clock_locks || pll_locked s).

(** The loop of [bzm_telemetry_max_temperature]; [None] is the early [return false]. *)
Fixpoint max_temperature_loop (samples : list (Z * bzm_telemetry_sample_t)) (now_us max_age_us : Z)
    (hottest_c : f32) : option f32 :=
  match samples with
  | [] => Some hottest_c
  | (id, s) :: samples =>
      if negb (sample_asic_id s =? id) || negb (thermal_valid s) || negb (is_finite (temperature_c s)) ||
         negb (bzm_telemetry_sample_is_fresh s now_us max_age_us)
      then None
      else max_temperature_loop samples now_us max_age_us
             (if flt hottest_c (temperature_c s) then temperature_c s else hottest_c)
  end.

Definition bzm_telemetry_max_temperature (store : bzm_telemetry_store_t) (now_us max_age_us : Z)
    : option f32 :=
  match max_temperature_loop (zip bzm_asic_wire_ids store) now_us max_age_us (S754_infinity true) with
  | Some hottest => if is_finite hottest then Some hottest else None
  | None => None
  end.

(** ** Confirmation of anomalies *)

Inductive bzm_ch2_confirmation_result_t :=
| BZM_CH2_CONFIRMATION_GOOD | BZM_CH2_CONFIRMATION_PENDING | BZM_CH2_CONFIRMATION_CONTINUOUS
| BZM_CH2_CONFIRMATION_NO_NEW_SAMPLE | BZM_CH2_CONFIRMATION_INVALID.
#[export] Instance bzm_ch2_confirmation_result_t_eq_dec : EqDecision bzm_ch2_confirmation_result_t.
Proof. solve_decision. Defined.

Record bzm_ch2_confirmation_t := mk_ch2_confirmation {
  consecutive_excursions : list Z;
  ch2_last_timestamp_us : list Z;
}.
#[export] Instance bzm_ch2_confirmation_t_eta : Eta bzm_ch2_confirmation_t :=
  fun c => mk_ch2_confirmation (consecutive_excursions c) (ch2_last_timestamp_us c).

Record bzm_telemetry_confirmation_t := mk_telemetry_confirmation {
  consecutive_anomalies : list Z;
  anomaly_last_timestamp_us : list Z;
}.
#[export] Instance bzm_telemetry_confirmation_t_eta : Eta bzm_telemetry_confirmation_t :=
  fun c => mk_telemetry_confirmation (consecutive_anomalies c) (anomaly_last_timestamp_us c).

Record bzm_pll_lock_confirmation_t := mk_pll_lock_confirmation {
  consecutive_unlocks : list Z;
  unlock_last_timestamp_us : list Z;
}.
#[export] Instance bzm_pll_lock_confirmation_t_eta : Eta bzm_pll_lock_confirmation_t :=
  fun c => mk_pll_lock_confirmation (consecutive_unlocks c) (unlock_last_timestamp_us c).

Definition bzm_ch2_confirmation_init : bzm_ch2_confirmation_t :=
  {| consecutive_excursions := replicate 4 0; ch2_last_timestamp_us := replicate 4 0 |}.
Definition bzm_telemetry_confirmation_init : bzm_telemetry_confirmation_t :=
  {| consecutive_anomalies := replicate 4 0; anomaly_last_timestamp_us := replicate 4 0 |}.
Definition bzm_pll_lock_confirmation_init : bzm_pll_lock_confirmation_t :=
  {| consecutive_unlocks := replicate 4 0; unlock_last_timestamp_us := replicate 4 0 |}.

Definition sample_at (store : bzm_telemetry_store_t) (index : nat) : bzm_telemetry_sample_t :=
  nth index store (zero_sample 0).
Definition wire_id (index : nat) : Z := byte_at bzm_asic_wire_ids index.
Definition chain_indices : list nat := seq 0 4.

(** [if (count < UINT8_MAX) ++count] *)
Definition saturating_increment (count : Z) : Z := if count <? UINT8_MAX then count + 1 else count.

(** What an observation returns: the result, the culprit, the observed count
    and the updated counters. *)
Record observation (C : Type) := mk_observation {
  verdict : bzm_ch2_confirmation_result_t;
  culprit_asic_id : Z;
  observed_consecutive_samples : Z;
  counters : C;
}.
Arguments mk_observation {C}.
Arguments verdict {C}.
Arguments culprit_asic_id {C}.
Arguments observed_consecutive_samples {C}.
Arguments counters {C}.

Definition required_is_valid (required : Z) : bool :=
  negb (required =? 0) && negb (BZM_CH2_CONFIRM_MAX_SAMPLES <? required).

(** *** The CH2 excursion confirmation *)

(** [None]: some sample makes the observation invalid; otherwise whether some
    ASIC has no new sample. *)
Fixpoint ch2_check (indices : list nat) (store : bzm_telemetry_store_t) (c : bzm_ch2_confirmation_t)
    (no_new_sample : bool) : option bool :=
  match indices with
  | [] => Some no_new_sample
  | index :: indices =>
      let s := sample_at store index in
      if negb (received s) || negb (sample_asic_id s =? wire_id index) || (sample_timestamp_us s =? 0) ||
         negb (is_finite (ch2_mv s)) ||
         (sample_timestamp_us s <? byte_at (ch2_last_timestamp_us c) index)
      then None
      else ch2_check indices store c
             (no_new_sample || (sample_timestamp_us s =? byte_at (ch2_last_timestamp_us c) index))
  end.

Fixpoint ch2_first_excursion (indices : list nat) (c : bzm_ch2_confirmation_t) : Z * Z :=
  match indices with
  | [] => (0, 0)
  | index :: indices =>
      if negb (byte_at (consecutive_excursions c) index =? 0)
      then (wire_id index, byte_at (consecutive_excursions c) index)
      else ch2_first_excursion indices c
  end.

Fixpoint ch2_update (indices : list nat) (store : bzm_telemetry_store_t) (b : bzm_telemetry_bounds_t)
    (required : Z) (o : observation bzm_ch2_confirmation_t) : observation bzm_ch2_confirmation_t :=
  match indices with
  | [] => o
  | index :: indices =>
      let s := sample_at store index in
      let c := counters o in
      let c := c <| ch2_last_timestamp_us := <[index := sample_timestamp_us s]> (ch2_last_timestamp_us c) |> in
      if fle (fabs (ch2_mv s)) (ch2_abs_max_mv b) then
        let c := c <| consecutive_excursions := <[index := 0]> (consecutive_excursions c) |> in
        ch2_update indices store b required
          (mk_observation (verdict o) (culprit_asic_id o) (observed_consecutive_samples o) c)
      else
        let count := saturating_increment (byte_at (consecutive_excursions c) index) in
        let c := c <| consecutive_excursions := <[index := count]> (consecutive_excursions c) |> in
        let culprit :=
          if (culprit_asic_id o =? 0) || (required <=? count) then wire_id index else culprit_asic_id o in
        let observed :=
          if observed_consecutive_samples o <? count then count else observed_consecutive_samples o in
        let result :=
          if required <=? count then BZM_CH2_CONFIRMATION_CONTINUOUS
          else if decide (verdict o = BZM_CH2_CONFIRMATION_GOOD) then BZM_CH2_CONFIRMATION_PENDING
          else verdict o in
        ch2_update indices store b required (mk_observation result culprit observed c)
  end.

Definition bzm_ch2_confirmation_observe (c : bzm_ch2_confirmation_t) (store : bzm_telemetry_store_t)
    (b : bzm_telemetry_bounds_t) (required : Z) : observation bzm_ch2_confirmation_t :=
  if negb (bounds_are_valid b) || negb (required_is_valid required)
  then mk_observation BZM_CH2_CONFIRMATION_INVALID 0 0 c
  else
    match ch2_check chain_indices store c false with
    | None => mk_observation BZM_CH2_CONFIRMATION_INVALID 0 0 c
    | Some true =>
        let '(culprit, observed) := ch2_first_excursion chain_indices c in
        mk_observation BZM_CH2_CONFIRMATION_NO_NEW_SAMPLE culprit observed c
    | Some false =>
        ch2_update chain_indices store b required (mk_observation BZM_CH2_CONFIRMATION_GOOD 0 0 c)
    end.

(** *** The sample-safety confirmation *)

(** The counters are updated in place, also before a later ASIC's sample makes
    the observation invalid. *)
Fixpoint anomaly_loop (indices : list nat) (store : bzm_telemetry_store_t) (now_us max_age_us : Z)
    (b : bzm_telemetry_bounds_t) (require_clock_locks : bool) (required : Z)
    (c : bzm_telemetry_confirmation_t) (any_new_sample : bool)
    : bool * bool * bzm_telemetry_confirmation_t :=
  match indices with
  | [] => (true, any_new_sample, c)
  | index :: indices =>
      let s := sample_at store index in
      if negb (received s) || negb (sample_asic_id s =? wire_id index) || (sample_timestamp_us s =? 0) ||
         (sample_timestamp_us s <? byte_at (anomaly_last_timestamp_us c) index)
      then (false, any_new_sample, c)
      else if sample_timestamp_us s =? byte_at (anomaly_last_timestamp_us c) index then
        anomaly_loop indices store now_us max_age_us b require_clock_locks required c any_new_sample
      else
        let c := c <| anomaly_last_timestamp_us :=
                        <[index := sample_timestamp_us s]> (anomaly_last_timestamp_us c) |> in
        let count :=
          if bzm_telemetry_sample_has_immediate_trip s then required
          else if bzm_telemetry_sample_is_safe s now_us max_age_us b require_clock_locks then 0
          else saturating_increment (byte_at (consecutive_anomalies c) index) in
        let c := c <| consecutive_anomalies := <[index := count]> (consecutive_anomalies c) |> in
        anomaly_loop indices store now_us max_age_us b require_clock_locks required c true
  end.

(** The highest count and the first index that has it, and whether some count
    reaches the requirement. *)
Fixpoint highest_loop (indices : list nat) (counts : list Z) (required : Z)
    (highest_count : Z) (highest_index : nat) (continuous : bool) : Z * nat * bool :=
  match indices with
  | [] => (highest_count, highest_index, continuous)
  | index :: indices =>
      let count := byte_at counts index in
      let '(highest_count, highest_index) :=
        if highest_count <? count then (count, index) else (highest_count, highest_index) in
      highest_loop indices counts required highest_count highest_index
        (continuous || (required <=? count))
  end.

Definition confirmation_verdict (highest_count : Z) (continuous any_new_sample : bool)
    : bzm_ch2_confirmation_result_t :=
  if continuous then BZM_CH2_CONFIRMATION_CONTINUOUS
  else if negb any_new_sample then BZM_CH2_CONFIRMATION_NO_NEW_SAMPLE
  else if highest_count =? 0 then BZM_CH2_CONFIRMATION_GOOD
  else BZM_CH2_CONFIRMATION_PENDING.

(** The end of both observations below. *)
Definition conclude {C} (counts : list Z) (required : Z) (any_new_sample : bool) (c : C) : observation C :=
  let '(highest_count, highest_index, continuous) :=
    highest_loop chain_indices counts required 0 0 false in
  mk_observation (confirmation_verdict highest_count continuous any_new_sample)
    (if negb (highest_count =? 0) then wire_id highest_index else 0)
    (if negb (highest_count =? 0) then highest_count else 0) c.

Definition bzm_telemetry_confirmation_observe (c : bzm_telemetry_confirmation_t)
    (store : bzm_telemetry_store_t) (now_us max_age_us : Z) (b : bzm_telemetry_bounds_t)
    (require_clock_locks : bool) (required : Z) : observation bzm_telemetry_confirmation_t :=
  if (now_us =? 0) || (max_age_us =? 0) || negb (bounds_are_valid b) || negb (required_is_valid required)
  then mk_observation BZM_CH2_CONFIRMATION_INVALID 0 0 c
  else
    let '(ok, any_new_sample, c) :=
      anomaly_loop chain_indices store now_us max_age_us b require_clock_locks required c false in
    if negb ok then mk_observation BZM_CH2_CONFIRMATION_INVALID 0 0 c
    else conclude (consecutive_anomalies c) required any_new_sample c.

(** *** The PLL lock confirmation *)

(** The code finds the highest count in the same loop; it depends only on the
    final counters, since an iteration reads its own ASIC's. *)
Fixpoint unlock_loop (indices : list nat) (store : bzm_telemetry_store_t) (now_us max_age_us : Z)
    (c : bzm_pll_lock_confirmation_t) (any_new_sample : bool)
    : bool * bool * bzm_pll_lock_confirmation_t :=
  match indices with
  | [] => (true, any_new_sample, c)
  | index :: indices =>
      let s := sample_at store index in
      if negb (received s) || negb (sample_asic_id s =? wire_id index) || (sample_timestamp_us s =? 0) ||
         (sample_timestamp_us s <? byte_at (unlock_last_timestamp_us c) index) ||
         negb (bzm_telemetry_sample_is_fresh s now_us max_age_us)
      then (false, any_new_sample, c)
      else if negb (sample_timestamp_us s =? byte_at (unlock_last_timestamp_us c) index) then
        let c := c <| unlock_last_timestamp_us :=
                        <[index := sample_timestamp_us s]> (unlock_last_timestamp_us c) |> in
        let count := if pll_locked s then 0
                     else saturating_increment (byte_at (consecutive_unlocks c) index) in
        let c := c <| consecutive_unlocks := <[index := count]> (consecutive_unlocks c) |> in
        unlock_loop indices store now_us max_age_us c true
      else unlock_loop indices store now_us max_age_us c any_new_sample
  end.

Definition bzm_pll_lock_confirmation_observe (c : bzm_pll_lock_confirmation_t)
    (store : bzm_telemetry_store_t) (now_us max_age_us required : Z)
    : observation bzm_pll_lock_confirmation_t :=
  if (now_us =? 0) || (max_age_us =? 0) || negb (required_is_valid required)
  then mk_observation BZM_CH2_CONFIRMATION_INVALID 0 0 c
  else
    let '(ok, any_new_sample, c) := unlock_loop chain_indices store now_us max_age_us c false in
    if negb ok then mk_observation BZM_CH2_CONFIRMATION_INVALID 0 0 c
    else conclude (consecutive_unlocks c) required any_new_sample c.

(** ** Specification: what a run of observations has seen of each ASIC *)

Inductive sample_class := Tripped | Safe | Anomalous.
#[export] Instance sample_class_eq_dec : EqDecision sample_class.
Proof. solve_decision. Defined.

(** The newest timestamp of an ASIC and the classes of its samples, newest first. *)
Record asic_history := mk_history { newest_us : Z; seen : list sample_class }.

(** The samples since the last safe one. *)
Fixpoint since_safe (h : list sample_class) : list sample_class :=
  match h with
  | [] => []
  | Safe :: _ => []
  | x :: h => x :: since_safe h
  end.

(** A trip, or [required] samples in a row that are not safe. *)
Definition confirmed (required : Z) (h : list sample_class) : Prop :=
  Tripped ∈ since_safe h \/ required <= Z.of_nat (length (since_safe h)).

Fixpoint streak (required : Z) (h : list sample_class) : Z :=
  match h with
  | [] => 0
  | Tripped :: _ => required
  | Safe :: _ => 0
  | Anomalous :: h => saturating_increment (streak required h)
  end.

Lemma streak_spec required h :
  0 < required <= 10 ->
  0 <= streak required h <= 255 /\ (required <= streak required h <-> confirmed required h) /\
  (Tripped ∉ since_safe h -> streak required h = Z.min 255 (Z.of_nat (length (since_safe h)))).
Proof.
  intros Hr. unfold confirmed. induction h as [|[] h IH]; cbn [streak since_safe].
  - assert (Hn : ~ (Tripped ∈ @nil sample_class \/ required <= Z.of_nat (length (@nil sample_class))))
      by (intros [?%elem_of_nil|?]; [done|cbn in *; lia]).
    split; [lia|]. split; [split; [lia|tauto]|done].
  - split; [lia|]. split; [split; [intros _; left; left|lia]|]. intros Ht. destruct Ht. left.
  - assert (Hn : ~ (Tripped ∈ @nil sample_class \/ required <= Z.of_nat (length (@nil sample_class))))
      by (intros [?%elem_of_nil|?]; [done|cbn in *; lia]).
    split; [lia|]. split; [split; [lia|tauto]|done].
  - destruct IH as (Hb & Hc & Hn). unfold saturating_increment, UINT8_MAX. cbn [length].
    split; [destruct (Z.ltb_spec (streak required h) 255); lia|]. split.
    + destruct (decide (Tripped ∈ since_safe h)) as [Ht|Ht].
      * split; [intros _; left; by right|]. intros _. assert (required <= streak required h) by tauto.
        destruct (Z.ltb_spec (streak required h) 255); lia.
      * rewrite (Hn Ht). rewrite elem_of_cons.
        destruct (Z.ltb_spec (Z.min 255 (Z.of_nat (length (since_safe h)))) 255); split; intros; try (right; lia).
        all: match goal with H : _ \/ _ |- _ => destruct H as [[?|?]|?]; [done|done|lia] end.
    + rewrite not_elem_of_cons. intros [_ Ht]. rewrite (Hn Ht).
      destruct (Z.ltb_spec (Z.min 255 (Z.of_nat (length (since_safe h)))) 255); lia.
Qed.

(** Writes to the other slots of an array. *)
Lemma byte_at_insert l i j v : (i < length l)%nat ->
  byte_at (<[i := v]> l) j = if decide (i = j) then v else byte_at l j.
Proof.
  intros Hi. unfold byte_at. rewrite !nth_lookup. destruct (decide (i = j)) as [->|Hn].
  - by rewrite list_lookup_insert_eq by done.
  - by rewrite list_lookup_insert_ne.
Qed.

Lemma highest_loop_spec indices counts required h k cont h' k' cont' :
  highest_loop indices counts required h k cont = (h', k', cont') ->
  h <= h' /\ (forall i, i ∈ indices -> byte_at counts i <= h') /\
  ((h' = h /\ k' = k) \/ (k' ∈ indices /\ byte_at counts k' = h')) /\
  (cont' = true <-> cont = true \/ exists i, i ∈ indices /\ required <= byte_at counts i).
Proof.
  revert h k cont. induction indices as [|i l IH]; intros h k cont; cbn [highest_loop].
  { intros [= <- <- <-]. split; [lia|]. split; [by intros i ?%elem_of_nil|]. split; [by left|].
    split; [by left|]. intros [?|(i & ?%elem_of_nil & _)]; done. }
  destruct (h <? byte_at counts i) eqn:E; intros H.
  all: apply IH in H as (Hh & Hm & Hk & Hc); rewrite ?Z.ltb_lt, ?Z.ltb_ge in E.
  all: split; [lia|]; split; [intros j [->|Hj]%elem_of_cons; [lia|by apply Hm]|].
  all: split; [rewrite elem_of_cons; destruct Hk as [[-> ->]|[? ?]]; auto|].
  all: rewrite Hc, orb_true_iff, Z.leb_le; clear Hh Hm Hk; split.
  1,3: intros [[?|?]|(j & ? & ?)]; [by left|right; exists i|right; exists j]; rewrite elem_of_cons; auto.
  all: intros [?|(j & [->|?]%elem_of_cons & ?)]; eauto.
Qed.

Section confirmation.
Context (max_age_us : Z) (b : bzm_telemetry_bounds_t) (locks : bool) (required : Z).

Definition classify (s : bzm_telemetry_sample_t) (now_us : Z) : sample_class :=
  if bzm_telemetry_sample_has_immediate_trip s then Tripped
  else if bzm_telemetry_sample_is_safe s now_us max_age_us b locks then Safe
  else Anomalous.

(** A sample counts once: when its timestamp is new. *)
Definition see (i : nat) (h : asic_history) (o : bzm_telemetry_store_t * Z) : asic_history :=
  let s := sample_at (fst o) i in
  if sample_timestamp_us s =? newest_us h then h
  else {| newest_us := sample_timestamp_us s; seen := classify s (snd o) :: seen h |}.

Definition history (i : nat) (obs : list (bzm_telemetry_store_t * Z)) : asic_history :=
  foldl (see i) {| newest_us := 0; seen := [] |} obs.

(** The verdicts of a run of observations from fresh counters, and the last one. *)
Fixpoint observe_all (c : bzm_telemetry_confirmation_t) (obs : list (bzm_telemetry_store_t * Z))
    : list (observation bzm_telemetry_confirmation_t) :=
  match obs with
  | [] => []
  | (store, now_us) :: obs =>
      let o := bzm_telemetry_confirmation_observe c store now_us max_age_us b locks required in
      o :: observe_all (counters o) obs
  end.

(** The counters implement the histories. *)
Definition implements (c : bzm_telemetry_confirmation_t) (h : nat -> asic_history) : Prop :=
  length (consecutive_anomalies c) = 4%nat /\ length (anomaly_last_timestamp_us c) = 4%nat /\
  forall i, (i < 4)%nat ->
    byte_at (anomaly_last_timestamp_us c) i = newest_us (h i) /\
    byte_at (consecutive_anomalies c) i = streak required (seen (h i)).

Lemma anomaly_loop_spec indices store now c any any' c' h :
  NoDup indices -> Forall (fun i => (i < 4)%nat) indices -> implements c h ->
  anomaly_loop indices store now max_age_us b locks required c any = (true, any', c') ->
  implements c' (fun i => if decide (i ∈ indices) then see i (h i) (store, now) else h i) /\
  Forall (fun i => sample_timestamp_us (sample_at store i) <> 0) indices.
Proof.
  revert c any h. induction indices as [|i l IH]; intros c any h Hd Hl Hc; cbn [anomaly_loop].
  { intros [= <- <-]. split; [|constructor]. destruct Hc as (? & ? & Hc). split_and!; try done. }
  rewrite NoDup_cons in Hd. rewrite Forall_cons in Hl. destruct Hd as [Hi Hd], Hl as [Hi4 Hl].
  destruct Hc as (Hlc & Hlt & Hc). destruct (Hc i Hi4) as [Hti Hci].
  set (s := sample_at store i) in *. guard_goal; [done|]. rewrite !orb_false_iff in E.
  destruct E as [[_ Hnz] _]. apply Z.eqb_neq in Hnz.
  assert (Hsee : forall c1 any1,
    implements c1 (fun j => if decide (j = i) then see i (h i) (store, now) else h j) ->
    anomaly_loop l store now max_age_us b locks required c1 any1 = (true, any', c') ->
    implements c' (fun j => if decide (j ∈ i :: l) then see j (h j) (store, now) else h j) /\
    Forall (fun i => sample_timestamp_us (sample_at store i) <> 0) (i :: l)).
  { intros c1 any1 H1 Hr. destruct (IH c1 any1 _ Hd Hl H1 Hr) as [(Ha & Hb & Himp) Hz].
    split; [|by constructor]. split_and!; [done|done|]. intros j Hj.
    specialize (Himp j Hj). cbn beta in Himp.
    destruct (decide (j ∈ i :: l)) as [Hjl|Hjl]; rewrite elem_of_cons in Hjl.
    - destruct (decide (j = i)) as [->|Hn]; [by rewrite decide_False in Himp|].
      rewrite decide_True in Himp by tauto. done.
    - rewrite !decide_False in Himp by tauto. done. }
  assert (Esee : see i (h i) (store, now) =
    if sample_timestamp_us s =? byte_at (anomaly_last_timestamp_us c) i then h i
    else {| newest_us := sample_timestamp_us s; seen := classify s now :: seen (h i) |})
    by (unfold see; by rewrite Hti).
  destruct (sample_timestamp_us s =? _) eqn:Et; intros Hr; eapply Hsee; try exact Hr; rewrite Esee.
  - split; [done|]. split; [done|]. intros j Hj. destruct (decide (j = i)) as [->|]; by apply Hc.
  - split; [cbn; by rewrite length_insert|]. split; [cbn; by rewrite length_insert|].
    intros j Hj. cbn [anomaly_last_timestamp_us consecutive_anomalies set_field].
    rewrite !byte_at_insert by (cbn; lia).
    destruct (decide (i = j)) as [<-|Hn]; [|rewrite decide_False by done; by apply Hc].
    rewrite decide_True by done. split; [done|]. cbn [seen newest_us]. unfold classify.
    destruct (bzm_telemetry_sample_has_immediate_trip s); [done|].
    destruct (bzm_telemetry_sample_is_safe s now max_age_us b locks); [done|]. cbn [streak]. by rewrite <- Hci.
Qed.

Lemma implements_ext c h1 h2 :
  (forall i, (i < 4)%nat -> h1 i = h2 i) -> implements c h1 -> implements c h2.
Proof. intros He (Ha & Hb & Hi). split_and!; try done. intros i H4. rewrite <- (He i H4). by apply Hi. Qed.

Lemma implements_init : implements bzm_telemetry_confirmation_init (fun i => history i []).
Proof. split; [done|]. split; [done|]. intros i Hi. do 4 (destruct i as [|i]; [done|]). lia. Qed.

Lemma chain_indices_spec i : i ∈ chain_indices <-> (i < 4)%nat.
Proof. unfold chain_indices. rewrite elem_of_seq. lia. Qed.

(** What a valid observation concludes from the counters it leaves. *)
Definition concluded (o : observation bzm_telemetry_confirmation_t) (h : nat -> asic_history) : Prop :=
  (verdict o = BZM_CH2_CONFIRMATION_CONTINUOUS <->
     exists i, (i < 4)%nat /\ required <= streak required (seen (h i))) /\
  (verdict o = BZM_CH2_CONFIRMATION_GOOD -> forall i, (i < 4)%nat -> streak required (seen (h i)) = 0) /\
  (verdict o = BZM_CH2_CONFIRMATION_CONTINUOUS ->
     exists i, (i < 4)%nat /\ culprit_asic_id o = wire_id i /\
       required <= streak required (seen (h i)) /\
       observed_consecutive_samples o = streak required (seen (h i))).

Lemma streak_nonneg h : 0 < required <= 10 -> 0 <= streak required h.
Proof. intros Hr. by apply (streak_spec required h Hr). Qed.

Lemma conclude_spec c any h :
  0 < required <= 10 -> implements c h ->
  concluded (conclude (consecutive_anomalies c) required any c) h /\
  counters (conclude (consecutive_anomalies c) required any c) = c.
Proof.
  intros Hr (_ & _ & Hi). unfold conclude.
  destruct (highest_loop _ _ _ _ _ _) as [[highest index] cont] eqn:E.
  apply highest_loop_spec in E as (Hh & Hm & Hk & Hc). split; [|done].
  assert (Hcs : cont = true <-> exists i, (i < 4)%nat /\ required <= streak required (seen (h i))).
  { rewrite Hc. setoid_rewrite chain_indices_spec. split.
    - intros [?|(i & Hi4 & Hq)]; [done|]. exists i. by rewrite <- (proj2 (Hi i Hi4)).
    - intros (i & Hi4 & Hq). right. exists i. by rewrite (proj2 (Hi i Hi4)). }
  assert (Hle : forall i, (i < 4)%nat -> streak required (seen (h i)) <= highest).
  { intros i Hi4. rewrite <- (proj2 (Hi i Hi4)). by apply Hm, chain_indices_spec. }
  unfold concluded, confirmation_verdict. cbn [verdict culprit_asic_id observed_consecutive_samples].
  split_and!.
  - rewrite <- Hcs. destruct cont, any; cbn [negb]; split; try done; case_match; done.
  - destruct cont; [done|]. destruct any; [|done]. cbn [negb].
    destruct (Z.eqb_spec highest 0) as [->|]; [|done]. intros _ i Hi4.
    pose proof (streak_nonneg (seen (h i)) Hr). specialize (Hle i Hi4). lia.
  - destruct cont; [|destruct any; cbn [negb]; [case_match|]; done]. intros _.
    destruct (proj1 Hcs eq_refl) as (i & Hi4 & Hq). specialize (Hle i Hi4).
    destruct (Z.eqb_spec highest 0); [lia|]. cbn [negb].
    destruct Hk as [[-> _]|[Hin Heq]]; [lia|]. rewrite chain_indices_spec in Hin.
    exists index. rewrite <- (proj2 (Hi index Hin)), Heq. split_and!; try done. lia.
Qed.

(** A streak of zero over something seen: the newest sample is safe. *)
Lemma streak_zero h : 0 < required <= 10 -> h <> [] -> streak required h = 0 -> exists older, h = Safe :: older.
Proof.
  intros Hr. destruct h as [|[] older]; [done|cbn; lia|by eexists|]. intros _.
  pose proof (streak_nonneg older Hr). cbn. unfold saturating_increment, UINT8_MAX.
  destruct (Z.ltb_spec (streak required older) 255); lia.
Qed.

(** Something has been seen of an ASIC whose newest timestamp is set. *)
Definition history_ok (h : nat -> asic_history) : Prop :=
  forall i, (i < 4)%nat -> seen (h i) = [] -> newest_us (h i) = 0.

Lemma observe_spec c store now h :
  let o := bzm_telemetry_confirmation_observe c store now max_age_us b locks required in
  0 <= required -> implements c h -> history_ok h -> verdict o <> BZM_CH2_CONFIRMATION_INVALID ->
  let h' := fun i => see i (h i) (store, now) in
  0 < required <= 10 /\ implements (counters o) h' /\ concluded o h' /\
  forall i, (i < 4)%nat -> seen (h' i) <> [].
Proof.
  cbn zeta. unfold bzm_telemetry_confirmation_observe. intros Hr0 Hc Hok.
  destruct (_ || _ || _ || _) eqn:Ev; [done|]. rewrite !orb_false_iff, !negb_false_iff in Ev.
  destruct Ev as [_ Hr]. unfold required_is_valid in Hr. apply andb_true_iff in Hr as [Hr1 Hr2].
  rewrite negb_true_iff, Z.eqb_neq in Hr1. rewrite negb_true_iff, Z.ltb_ge in Hr2.
  unfold BZM_CH2_CONFIRM_MAX_SAMPLES in Hr2.
  destruct (anomaly_loop _ _ _ _ _ _ _ _ _) as [[[] any] c'] eqn:El; cbn [negb]; [|done].
  intros Hv. assert (Hd : NoDup chain_indices) by (by apply (bool_decide_unpack _)).
  assert (Hl : Forall (fun i => (i < 4)%nat) chain_indices) by (repeat constructor).
  destruct (anomaly_loop_spec _ _ _ _ _ _ _ _ Hd Hl Hc El) as [Himp Hz].
  apply (implements_ext _ _ (fun i => see i (h i) (store, now))) in Himp.
  2:{ intros i Hi. rewrite decide_True; [done|]. by apply chain_indices_spec. }
  destruct (conclude_spec c' any _ ltac:(lia) Himp) as [Hcon Hcc]. rewrite Hcc.
  split_and!; [lia|lia|done..|]. intros i Hi. unfold see. cbn [fst snd].
  rewrite Forall_forall in Hz. specialize (Hz i (proj2 (chain_indices_spec i) Hi)).
  destruct (Z.eqb_spec (sample_timestamp_us (sample_at store i)) (newest_us (h i))) as [E|]; [|done].
  intros Hs. apply Hz. rewrite E. by apply Hok.
Qed.

Lemma observe_all_spec c obs store now h :
  0 <= required -> implements c h -> history_ok h ->
  let os := observe_all c (obs ++ [(store, now)]) in
  Forall (fun o => verdict o <> BZM_CH2_CONFIRMATION_INVALID) os ->
  let h' := fun i => foldl (see i) (h i) (obs ++ [(store, now)]) in
  0 < required <= 10 /\
  (forall i, (i < 4)%nat -> seen (h' i) <> []) /\
  exists o, last os = Some o /\ concluded o h'.
Proof.
  cbn zeta. intros Hr0. revert c h. induction obs as [|[st nw] obs IH]; intros c h Hc Hok.
  - cbn [app observe_all]. rewrite Forall_singleton. intros Hv.
    destruct (observe_spec c store now h Hr0 Hc Hok Hv) as (Hr & _ & Hcon & Hne).
    split; [done|]. split; [done|]. eexists. split; [done|]. exact Hcon.
  - cbn [app observe_all foldl]. rewrite Forall_cons. intros [Hv Hvs].
    destruct (observe_spec c st nw h Hr0 Hc Hok Hv) as (Hr & Himp & _ & Hne).
    destruct (IH _ _ Himp ltac:(intros i Hi Hs; by destruct (Hne i Hi)) Hvs) as (_ & Hs & o & Ho & Hcon).
    split; [done|]. split; [done|]. exists o. split; [|done].
    rewrite last_cons. by rewrite Ho.
Qed.

(** C31: The confirmation counters implement the sample histories: after any run
    of valid observations from fresh counters, the last verdict is CONTINUOUS
    exactly when some ASIC's newest samples contain a trip, or at least the
    required number of samples, with no safe sample after them - a stale sample
    read again counts once -, and the reported culprit is such an ASIC; a
    verdict GOOD means that the newest sample of every ASIC was safe. *)
Theorem telemetry_confirmation_refines_history obs store now :
  0 <= required ->
  let run := obs ++ [(store, now)] in
  let os := observe_all bzm_telemetry_confirmation_init run in
  Forall (fun o => verdict o <> BZM_CH2_CONFIRMATION_INVALID) os ->
  exists o, last os = Some o /\
    (verdict o = BZM_CH2_CONFIRMATION_CONTINUOUS <->
       exists i, (i < 4)%nat /\ confirmed required (seen (history i run))) /\
    (verdict o = BZM_CH2_CONFIRMATION_CONTINUOUS ->
       exists i, (i < 4)%nat /\ culprit_asic_id o = wire_id i /\
         confirmed required (seen (history i run))) /\
    (verdict o = BZM_CH2_CONFIRMATION_GOOD ->
       forall i, (i < 4)%nat -> exists older, seen (history i run) = Safe :: older).
Proof.
  cbn zeta. intros Hr0 Hv.
  destruct (observe_all_spec _ obs store now _ Hr0 implements_init) as (Hr & Hne & o & Ho & Hc & Hg & Hx);
    [by intros i Hi|done|]. exists o. split; [done|]. split_and!.
  - rewrite Hc. split; intros (i & Hi & Hq); exists i; split; try done;
      by apply (proj1 (proj2 (streak_spec required _ Hr))).
  - intros E. destruct (Hx E) as (i & Hi & Hid & Hq & _). exists i. split_and!; try done.
    by apply (proj1 (proj2 (streak_spec required _ Hr))).
  - intros E i Hi. apply streak_zero; [done|by apply Hne|by apply Hg].
Qed.
End confirmation.

Module Demo.
Definition bounds : bzm_telemetry_bounds_t :=
  {| temperature_min_c := f32_of_Z (-20); temperature_max_c := f32_of_Z 100;
     ch0_min_mv := f32_of_Z 100; ch0_max_mv := f32_of_Z 500; ch1_min_mv := f32_of_Z 100;
     ch1_max_mv := f32_of_Z 500; ch2_abs_max_mv := f32_of_Z 50; max_stack_spread_mv := f32_of_Z 50 |}.

(** Temperature code 0x848, all three channels valid; [clocks] carries the lock. *)
Definition payload (clocks : Z) : list Z := [0xc8; 0x48; 0x9a; 0x00; 0x68; 0xc0; 0xaa; clocks].
Definition frame (id ts clocks : Z) : bzm_frame_t :=
  {| type := BZM_FRAME_TELEMETRY; asic_id := id; FrameParser.payload := payload clocks;
     payload_length := 8; timestamp_us := ts |}.
Definition store (ts clocks : Z) : bzm_telemetry_store_t :=
  foldl (fun st id => snd (bzm_telemetry_store_apply_frame st
                             (frame id ts (if id =? 0x14 then clocks else 0x82))))
    bzm_telemetry_store_init bzm_asic_wire_ids.

(** The second ASIC loses its PLL lock at 200 and stays unlocked. *)
Definition observations : list (bzm_telemetry_store_t * Z) :=
  [(store 100 0x82, 150); (store 200 0x02, 250); (store 200 0x02, 260); (store 300 0x02, 350)].

Lemma telemetry_confirmation_refines_history_witness :
  exists o, last (observe_all 1000 bounds true 3 bzm_telemetry_confirmation_init
                    (observations ++ [(store 400 0x02, 450)])) = Some o /\
    verdict o = BZM_CH2_CONFIRMATION_CONTINUOUS.
Proof.
  destruct (telemetry_confirmation_refines_history 1000 bounds true 3 observations (store 400 0x02) 450)
    as (o & Ho & Hc & _); [lia| |].
  - repeat constructor; by vm_compute.
  - exists o. split; [exact Ho|]. apply Hc. exists 1%nat. split; [lia|]. right. by vm_compute.
Defined.
End Demo.
