(* ===== verification/Reactor.v ===== *)
(** * The work reactor

    Models src/components/asic/bzm_reactor.c with its header: the assignment of
    jobs to engines, the retention of the replaced generation, the flush
    barrier, and the attribution of results.

    The reactor's pointer to the job store is modelled by the store itself, a
    field of the reactor; the transport table, copied at initialisation, is a
    parameter, a record of computations over the world [W] behind it.  A [NULL]
    reactor, store or result is not modelled.  An assignment pointer is an index
    into the table it points into. *)

From S2P Require Import Prelude Topology JobStore Work.
Open Scope io_scope.
Open Scope Z_scope.

(** ** Data *)

Inductive bzm_engine_state_t :=
| BZM_ENGINE_IDLE | BZM_ENGINE_ASSIGNED | BZM_ENGINE_FLUSHING | BZM_ENGINE_RESULT_PENDING
| BZM_ENGINE_UNHEALTHY.
#[export] Instance bzm_engine_state_t_eq_dec : EqDecision bzm_engine_state_t.
Proof. solve_decision. Defined.

Inductive bzm_assign_status_t :=
| BZM_ASSIGN_OK | BZM_ASSIGN_BUSY | BZM_ASSIGN_FLUSH_REQUIRED | BZM_ASSIGN_STORE_ERROR
| BZM_ASSIGN_TRANSPORT_ERROR | BZM_ASSIGN_INVALID.
#[export] Instance bzm_assign_status_t_eq_dec : EqDecision bzm_assign_status_t.
Proof. solve_decision. Defined.

Record bzm_transport_ops_t (W : Type) := mk_transport_ops {
  write_work : bzm_work_t -> io W bool;
  dispatch_checkpoint : option (io W bool);
  flush : option (io W bool);
}.
Arguments mk_transport_ops {W}.
Arguments write_work {W}.
Arguments dispatch_checkpoint {W}.
Arguments flush {W}.

Record bzm_reactor_config_t := mk_reactor_config {
  engine_count : Z;
  config_timestamp_count : Z;
  config_lead_zeros : Z;
  config_nonce_offset : Z;
  config_enhanced_mode : bool;
}.

Record bzm_assignment_t := mk_assignment {
  active : bool;
  logical_engine_id : Z;
  assigned_engine_id : Z;
  state : bzm_engine_state_t;
  assigned_sequence : Z;
  assigned_epoch : Z;
  assigned_handle : Z;
  assigned_timestamp_count : Z;
  base_ntime : Z;
  base_version : Z;
  nonce_offset : Z;
  enhanced_mode : bool;
  version_count : nat;
  assigned_versions : list Z;
}.
#[export] Instance bzm_assignment_t_eta : Eta bzm_assignment_t :=
  fun a => mk_assignment (active a) (logical_engine_id a) (assigned_engine_id a) (state a)
    (assigned_sequence a) (assigned_epoch a) (assigned_handle a) (assigned_timestamp_count a)
    (base_ntime a) (base_version a) (nonce_offset a) (enhanced_mode a) (version_count a)
    (assigned_versions a).

Definition zero_assignment : bzm_assignment_t :=
  {| active := false; logical_engine_id := 0; assigned_engine_id := 0; state := BZM_ENGINE_IDLE;
     assigned_sequence := 0; assigned_epoch := 0; assigned_handle := 0; assigned_timestamp_count := 0;
     base_ntime := 0; base_version := 0; nonce_offset := 0; enhanced_mode := false; version_count := 0;
     assigned_versions := [0; 0; 0; 0] |}.

Record bzm_reactor_t := mk_reactor {
  job_store : asic_job_store_t;
  config : bzm_reactor_config_t;
  assignments : list bzm_assignment_t;
  previous_assignments : list bzm_assignment_t;
  next_engine_sequence : list Z;
  retired_sequences : list (list Z);
  previous_batch : bzm_assignment_t;
  previous_batch_complete : bool;
  current_batch_complete : bool;
  next_engine : Z;
  next_sequence : Z;
  epoch : Z;
  flush_pending : bool;
  flush_complete : bool;
  results_quarantined : bool;
}.
#[export] Instance bzm_reactor_t_eta : Eta bzm_reactor_t :=
  fun r => mk_reactor (job_store r) (config r) (assignments r) (previous_assignments r)
    (next_engine_sequence r) (retired_sequences r) (previous_batch r) (previous_batch_complete r)
    (current_batch_complete r) (next_engine r) (next_sequence r) (epoch r) (flush_pending r)
    (flush_complete r) (results_quarantined r).

(** The share a result is reported as (asic_result.h), less the fields that the
    reactor leaves zero. *)
Record asic_result_t := mk_asic_result {
  share_job : asic_job_t;
  share_context : asic_job_context_t;
  share_handle : Z;
  share_nonce : Z;
  final_ntime : Z;
  final_version : Z;
  version_bits : Z;
  share_timestamp_us : Z;
  asic_index : nat;
  share_engine_id : Z;
  share_sequence_id : Z;
  micro_job_id : nat;
  generation : Z;
}.

(** ** Lookups *)

Definition sequence_space (r : bzm_reactor_t) : Z :=
  if config_enhanced_mode (config r) then 63 else 255.

Definition batch_sequence_space (r : bzm_reactor_t) : Z :=
  if config_enhanced_mode (config r) then 2 else 256.

(** [reactor->retired_sequences[engine][sequence / 64] |= 1 << (sequence % 64)] *)
Definition retire_bit (retired : list (list Z)) (engine sequence : Z) : list (list Z) :=
  alter (alter (fun word => Z.lor word (Z.shiftl 1 (sequence mod 64))) (Z.to_nat (sequence / 64)))
    (Z.to_nat engine) retired.

Definition retire_assignment (r : bzm_reactor_t) (a : bzm_assignment_t) : bzm_reactor_t :=
  if active a
  then r <| retired_sequences := retire_bit (retired_sequences r) (logical_engine_id a) (assigned_sequence a) |>
  else r.

Definition partition_nonce_space (r : bzm_reactor_t) (schedule_index : Z) (w : bzm_work_t) : bzm_work_t :=
  let total := UINT32_MAX + 1 in
  let step := total / engine_count (config r) in
  let start := step * schedule_index in
  let stop := if schedule_index + 1 =? engine_count (config r)
              then UINT32_MAX else step * (schedule_index + 1) - 1 in
  w <| work_starting_nonce := u32 start; end_nonce := u32 stop |>.

Definition scheduled_engine_at (schedule_index : Z) : option bzm_engine_location_t :=
  bzm_topology_activation_at schedule_index BZM_ENGINE_STACK_BOTTOM.

Definition names (engine sequence : Z) (a : bzm_assignment_t) : bool :=
  active a && (assigned_engine_id a =? engine) && (assigned_sequence a =? sequence).

Definition find_assignment (r : bzm_reactor_t) (engine sequence : Z) : option bzm_assignment_t :=
  match List.find (names engine sequence) (assignments r) with
  | Some a => Some a
  | None => List.find (names engine sequence) (previous_assignments r)
  end.

(** The first index whose assignment passes a test. *)
Fixpoint first_index (f : bzm_assignment_t -> bool) (l : list bzm_assignment_t) : option nat :=
  match l with
  | [] => None
  | a :: l => if f a then Some O else S <$> first_index f l
  end.

Definition find_engine_assignment (r : bzm_reactor_t) (engine : Z) : option nat :=
  first_index (fun a => active a && (assigned_engine_id a =? engine)) (assignments r).

Definition free_assignment (r : bzm_reactor_t) : option nat :=
  first_index (fun a => negb (active a) || bool_decide (state a = BZM_ENGINE_IDLE)) (assignments r).

Definition has_active_assignment (r : bzm_reactor_t) : bool :=
  existsb active (assignments r) || existsb active (previous_assignments r) || previous_batch_complete r.

Definition retain_current_batch (r : bzm_reactor_t) : bzm_reactor_t :=
  let r := r <| previous_batch := zero_assignment; previous_batch_complete := false |> in
  if negb (current_batch_complete r) then r
  else
    match List.find (fun a => active a && bool_decide (state a = BZM_ENGINE_ASSIGNED)) (assignments r) with
    | Some a => r <| previous_batch := a; previous_batch_complete := true |>
    | None => r
    end.

(** ** Operations *)

Definition zero_reactor (js : asic_job_store_t) (cfg : bzm_reactor_config_t) : bzm_reactor_t :=
  {| job_store := js; config := cfg;
     assignments := replicate BZM_MAX_ACTIVE_WORK zero_assignment;
     previous_assignments := replicate BZM_MAX_ACTIVE_WORK zero_assignment;
     next_engine_sequence := replicate BZM_MAX_ACTIVE_WORK 0;
     retired_sequences := replicate BZM_MAX_ACTIVE_WORK (replicate 4 0);
     previous_batch := zero_assignment; previous_batch_complete := false;
     current_batch_complete := false; next_engine := 0; next_sequence := 0; epoch := 0;
     flush_pending := false; flush_complete := false; results_quarantined := false |}.

Definition bzm_reactor_init (js : asic_job_store_t) (cfg : bzm_reactor_config_t) : option bzm_reactor_t :=
  if (engine_count cfg =? 0) || (BZM_ENGINES_PER_ASIC <? engine_count cfg) ||
     (0x7f <? config_timestamp_count cfg)
  then None
  else Some ((zero_reactor js cfg) <| epoch := 1 |>).

(** [if (++reactor->epoch == 0) reactor->epoch = 1] *)
Definition advance_epoch (r : bzm_reactor_t) : bzm_reactor_t :=
  let e := u32 (epoch r + 1) in r <| epoch := if e =? 0 then 1 else e |>.

Definition set_flushing (a : bzm_assignment_t) : bzm_assignment_t :=
  if active a then a <| state := BZM_ENGINE_FLUSHING |> else a.

Definition with_store (f : asic_job_store_t -> asic_job_store_t) (r : bzm_reactor_t) : bzm_reactor_t :=
  r <| job_store := f (job_store r) |>.

Definition release_handle (h : Z) : bzm_reactor_t -> bzm_reactor_t :=
  with_store (fun js => snd (asic_job_store_release js h)).

(** Everything a new flush does before the hardware is asked. *)
Definition mark_flushing (r : bzm_reactor_t) : bzm_reactor_t :=
  let r := advance_epoch (r <| flush_pending := true; flush_complete := false |>) in
  let r := with_store asic_job_store_invalidate_all r in
  r <| assignments := set_flushing <$> assignments r;
       previous_assignments := set_flushing <$> previous_assignments r;
       previous_batch := if previous_batch_complete r
                         then (previous_batch r) <| state := BZM_ENGINE_FLUSHING |>
                         else previous_batch r |>.

Definition bzm_reactor_finish_flush (r : bzm_reactor_t) : bzm_reactor_t :=
  if negb (flush_pending r) || negb (flush_complete r) then r
  else
    r <| assignments := replicate BZM_MAX_ACTIVE_WORK zero_assignment;
         previous_assignments := replicate BZM_MAX_ACTIVE_WORK zero_assignment;
         next_engine_sequence := replicate BZM_MAX_ACTIVE_WORK 0;
         retired_sequences := replicate BZM_MAX_ACTIVE_WORK (replicate 4 0);
         previous_batch := zero_assignment; previous_batch_complete := false;
         current_batch_complete := false; next_engine := 0; next_sequence := 0;
         flush_pending := false; flush_complete := false; results_quarantined := true |>.

Definition bzm_reactor_is_flush_pending (r : bzm_reactor_t) : bool := flush_pending r.
Definition bzm_reactor_results_quarantined (r : bzm_reactor_t) : bool := results_quarantined r.

Definition retire_slot (r : bzm_reactor_t) (i : nat) : bzm_reactor_t :=
  let r := retire_assignment r (nth i (assignments r) zero_assignment) in
  retire_assignment r (nth i (previous_assignments r) zero_assignment).

Definition bzm_reactor_invalidate_work (r : bzm_reactor_t) : bool * bzm_reactor_t :=
  let r := with_store asic_job_store_invalidate_all r in
  (true, advance_epoch (foldl retire_slot r (seq 0 BZM_MAX_ACTIVE_WORK))).

Definition result_sequence (r : bzm_reactor_t) (raw : bzm_raw_result_t) : Z :=
  if config_enhanced_mode (config r) then Z.shiftr (sequence_id raw) 2 else sequence_id raw.

Definition bzm_reactor_result_is_stale (r : bzm_reactor_t) (raw : bzm_raw_result_t) : bool :=
  match bzm_engine_logical_id (raw_engine_id raw), bzm_topology_asic_index (raw_asic_id raw) with
  | Some engine, Some _ =>
      if negb (bzm_raw_result_has_valid_nonce (Some raw)) then false
      else
        let sequence := result_sequence r raw in
        let retired :=
          Z.testbit (nth (Z.to_nat (sequence / 64)) (nth (Z.to_nat engine) (retired_sequences r) []) 0)
            (sequence mod 64) in
        match find_assignment r (raw_engine_id raw) sequence with
        | Some a =>
            if negb (assigned_epoch a =? epoch r) ||
               negb (asic_job_store_contains (job_store r) (assigned_handle a))
            then true else retired
        | None => retired
        end
  | _, _ => false
  end.

Section transport.
Context {W : Type} (transport : bzm_transport_ops_t W).

(** [transport.flush == NULL || transport.flush(context)] *)
Definition run_flush (r : bzm_reactor_t) : io W (bool * bzm_reactor_t) :=
  let! complete := match flush transport with Some f => f | None => io_ret true end in
  io_ret (complete, r <| flush_complete := complete |>).

Definition bzm_reactor_begin_flush (r : bzm_reactor_t) : io W (bool * bzm_reactor_t) :=
  if flush_pending r then
    if flush_complete r then io_ret (true, r) else run_flush r
  else run_flush (mark_flushing r).

(** [bool flushed = bzm_reactor_begin_flush(..); if (flushed) bzm_reactor_finish_flush(..)] *)
Definition abort_dispatch (r : bzm_reactor_t) : io W bzm_reactor_t :=
  let! flushed := bzm_reactor_begin_flush r in
  let '(ok, r) := flushed in
  io_ret (if (ok : bool) then bzm_reactor_finish_flush r else r).

Definition bzm_reactor_clear_work (r : bzm_reactor_t) : io W (bool * bzm_reactor_t) :=
  if negb (flush_pending r) && negb (has_active_assignment r) then
    let r := advance_epoch (with_store asic_job_store_invalidate_all r) in
    io_ret (true, r <| next_engine := 0; next_sequence := 0;
                       next_engine_sequence := replicate BZM_MAX_ACTIVE_WORK 0;
                       results_quarantined := true |>)
  else
    let! flushed := bzm_reactor_begin_flush r in
    let '(ok, r) := flushed in
    if negb ok then io_ret (false, r)
    else
      let r := bzm_reactor_finish_flush r in
      io_ret (negb (bzm_reactor_is_flush_pending r), r).

Definition checkpoint : io W bool :=
  match dispatch_checkpoint transport with Some c => c | None => io_ret true end.

(** The assignment recorded for a written package. *)
Definition assignment_of (r : bzm_reactor_t) (engine : bzm_engine_location_t) (sequence h : Z)
    (template : job_ref) (w : bzm_work_t) : bzm_assignment_t :=
  {| active := true;
     logical_engine_id := topology_index engine;
     assigned_engine_id := physical_id engine;
     state := BZM_ENGINE_ASSIGNED;
     assigned_sequence := sequence;
     assigned_epoch := epoch r;
     assigned_handle := h;
     assigned_timestamp_count := timestamp_count w;
     base_ntime := start_ntime w;
     base_version := version (pointee template);
     nonce_offset := config_nonce_offset (config r);
     enhanced_mode := (1 <? midstate_count w)%nat;
     version_count := midstate_count w;
     assigned_versions := versions w |}.

(** Retire the previous generation of slot [index], move the current one there
    and record the new one. *)
Definition record_assignment (r : bzm_reactor_t) (index : nat) (a : bzm_assignment_t) : bzm_reactor_t :=
  let previous := nth index (previous_assignments r) zero_assignment in
  let current := nth index (assignments r) zero_assignment in
  let r := if active previous
           then release_handle (assigned_handle previous) (retire_assignment r previous) else r in
  r <| previous_assignments :=
         <[index := if active current then current else zero_assignment]> (previous_assignments r);
       assignments := <[index := a]> (assignments r) |>.

Definition advance_schedule (r : bzm_reactor_t) (schedule_index sequence : Z) : bzm_reactor_t :=
  let r := r <| next_engine := (schedule_index + 1) mod engine_count (config r) |> in
  let r := if next_engine r =? 0 then r <| results_quarantined := false |> else r in
  r <| next_engine_sequence :=
         <[Z.to_nat schedule_index := u8 (sequence + 1)]> (next_engine_sequence r) |>.

Definition whole_range (w : bzm_work_t) : bzm_work_t :=
  w <| work_starting_nonce := 0; end_nonce := UINT32_MAX |>.

(** The engine, the slot and the sequence are chosen: store, build, write. *)
Definition assign_to (r : bzm_reactor_t) (template : job_ref) (schedule_index : Z)
    (engine : bzm_engine_location_t) (index : nat)
    : io W (bzm_assign_status_t * option bzm_work_t * bzm_reactor_t) :=
  let sequence := byte_at (next_engine_sequence r) (Z.to_nat schedule_index) in
  let '(stored, js) := asic_job_store_store_generated (job_store r) (Some template) in
  let r := r <| job_store := js |> in
  match stored with
  | None => io_ret (BZM_ASSIGN_STORE_ERROR, None, r)
  | Some h =>
      let source := {| work_handle := h; work_template := Some template |} in
      match bzm_work_build (Some source) (physical_id engine) sequence
              (config_timestamp_count (config r)) (config_lead_zeros (config r))
              (config_enhanced_mode (config r)) with
      | None => io_ret (BZM_ASSIGN_INVALID, None, release_handle h r)
      | Some w =>
          let w := whole_range w in
          let! written := write_work transport w in
          if negb written then
            let! r := abort_dispatch (release_handle h r) in
            io_ret (BZM_ASSIGN_TRANSPORT_ERROR, None, r)
          else
            let! passed := checkpoint in
            if negb passed then
              let! r := abort_dispatch (release_handle h r) in
              io_ret (BZM_ASSIGN_TRANSPORT_ERROR, None, r)
            else
              let a := assignment_of r engine sequence h template w in
              let r := advance_schedule (record_assignment r index a) schedule_index sequence in
              io_ret (BZM_ASSIGN_OK, Some w, r)
      end
  end.

Definition bzm_reactor_assign (r : bzm_reactor_t) (template : option job_ref)
    : io W (bzm_assign_status_t * option bzm_work_t * bzm_reactor_t) :=
  match template with
  | None => io_ret (BZM_ASSIGN_INVALID, None, r)
  | Some template =>
      if flush_pending r then io_ret (BZM_ASSIGN_FLUSH_REQUIRED, None, r)
      else
        let schedule_index := next_engine r in
        if sequence_space r <=? byte_at (next_engine_sequence r) (Z.to_nat schedule_index)
        then io_ret (BZM_ASSIGN_FLUSH_REQUIRED, None, r)
        else
          match scheduled_engine_at schedule_index with
          | None => io_ret (BZM_ASSIGN_INVALID, None, r)
          | Some engine =>
              let slot := match find_engine_assignment r (physical_id engine) with
                          | Some i => Some i
                          | None => free_assignment r
                          end in
              match slot with
              | None => io_ret (BZM_ASSIGN_BUSY, None, r)
              | Some index => assign_to r template schedule_index engine index
              end
          end
  end.

(** The engines of one shared-template batch; the count of completed ones. *)
Fixpoint dispatch_loop (schedule : list Z) (template : job_ref) (source : asic_work_t) (h : Z)
    (r : bzm_reactor_t) (completed : Z) : io W (Z * bzm_reactor_t) :=
  match schedule with
  | [] => io_ret (completed, r)
  | schedule_index :: schedule =>
      match scheduled_engine_at schedule_index with
      | None => io_ret (completed, r)
      | Some engine =>
          let slot := match find_engine_assignment r (physical_id engine) with
                      | Some i => Some i
                      | None => free_assignment r
                      end in
          match slot, bzm_work_build (Some source) (physical_id engine) (u8 (next_sequence r))
                        (config_timestamp_count (config r)) (config_lead_zeros (config r))
                        (config_enhanced_mode (config r)) with
          | Some index, Some w =>
              let w := partition_nonce_space r schedule_index w in
              let! written := write_work transport w in
              if negb written then io_ret (completed, r)
              else
                let! passed := checkpoint in
                if negb passed then io_ret (completed, r)
                else
                  let a := assignment_of r engine (u8 (next_sequence r)) h template w in
                  let r := r <| assignments := <[index := a]> (assignments r) |> in
                  dispatch_loop schedule template source h r (completed + 1)
          | _, _ => io_ret (completed, r)
          end
      end
  end.

Definition bzm_reactor_dispatch (r : bzm_reactor_t) (template : option job_ref)
    : io W (bzm_assign_status_t * Z * bzm_reactor_t) :=
  match template with
  | None => io_ret (BZM_ASSIGN_INVALID, 0, r)
  | Some template =>
      if flush_pending r then io_ret (BZM_ASSIGN_FLUSH_REQUIRED, 0, r)
      else if batch_sequence_space r <=? next_sequence r then
        let! flushed := bzm_reactor_begin_flush r in
        let '(ok, r) := flushed in
        io_ret (if (ok : bool) then BZM_ASSIGN_FLUSH_REQUIRED else BZM_ASSIGN_TRANSPORT_ERROR, 0, r)
      else if Z.of_nat BZM_MAX_ACTIVE_WORK <? engine_count (config r) then
        io_ret (BZM_ASSIGN_INVALID, 0, r)
      else
        let '(stored, js) := asic_job_store_store_generated (job_store r) (Some template) in
        let r := r <| job_store := js |> in
        match stored with
        | None => io_ret (BZM_ASSIGN_STORE_ERROR, 0, r)
        | Some h =>
            let source := {| work_handle := h; work_template := Some template |} in
            let r := (retain_current_batch r) <| current_batch_complete := false |> in
            let! looped := dispatch_loop (seqZ 0 (engine_count (config r))) template source h r 0 in
            let '(completed, r) := looped in
            if negb (completed =? engine_count (config r)) then
              let! r := abort_dispatch r in
              io_ret (BZM_ASSIGN_TRANSPORT_ERROR, 0, r)
            else
              io_ret (BZM_ASSIGN_OK, completed,
                      r <| next_engine := 0; next_sequence := u16 (next_sequence r + 1);
                           current_batch_complete := true; results_quarantined := false |>)
        end
  end.
End transport.

(** [__builtin_bswap32] *)
Definition bswap32 (v : Z) : Z := read_le32 (bswap32_bytes v) 0.

Definition bzm_reactor_map_result (r : bzm_reactor_t) (raw : bzm_raw_result_t) : option asic_result_t :=
  if flush_pending r || results_quarantined r then None
  else
    match bzm_engine_logical_id (raw_engine_id raw) with
    | None => None
    | Some logical =>
        if negb (bzm_raw_result_has_valid_nonce (Some raw)) then None
        else
          let sequence := result_sequence r raw in
          let micro_job :=
            Z.to_nat (if config_enhanced_mode (config r) then Z.land (sequence_id raw) 0x03 else 0) in
          let found :=
            match find_assignment r (raw_engine_id raw) sequence with
            | Some a => Some (a, false)
            | None => if previous_batch_complete r && (assigned_sequence (previous_batch r) =? sequence)
                      then Some (previous_batch r, true) else None
            end in
          match found with
          | None => None
          | Some (a, is_previous_batch) =>
              if (negb is_previous_batch && negb (logical_engine_id a =? logical)) ||
                 negb (bool_decide (state a = BZM_ENGINE_ASSIGNED)) || negb (assigned_epoch a =? epoch r)
              then None
              else if negb (sequence =? assigned_sequence a) || (version_count a <=? micro_job)%nat ||
                      (assigned_timestamp_count a <? time raw)
              then None
              else
                let final := nth micro_job (assigned_versions a) 0 in
                let ntime_offset := u32 (assigned_timestamp_count a - time raw) in
                match bzm_topology_asic_index (raw_asic_id raw),
                      asic_job_store_snapshot_with_context (job_store r) (assigned_handle a) with
                | Some index, Some (job, context) =>
                    Some {| share_job := job; share_context := context;
                            share_handle := assigned_handle a;
                            share_nonce := bswap32 (u32 (nonce raw - nonce_offset a));
                            final_ntime := u32 (base_ntime a + ntime_offset);
                            final_version := final;
                            version_bits := Z.lxor final (base_version a);
                            share_timestamp_us := timestamp_us raw;
                            asic_index := index;
                            share_engine_id := logical_engine_id a;
                            share_sequence_id := assigned_sequence a;
                            micro_job_id := micro_job;
                            generation := assigned_epoch a |}
                | _, _ => None
                end
          end
    end.

(** ** Traced executions

    The transport is instrumented with a log, newest first, of the work
    packages handed to the hardware and of the flushes. *)

Inductive hw_event := HwWrite (w : bzm_work_t) (ok : bool) | HwFlush (ok : bool).

(** The packages handed out since the last successful flush. *)
Fixpoint outstanding (log : list hw_event) : list bzm_work_t :=
  match log with
  | [] => []
  | HwWrite w _ :: log => w :: outstanding log
  | HwFlush true :: _ => []
  | HwFlush false :: log => outstanding log
  end.
Fixpoint flushed (log : list hw_event) : bool :=
  match log with
  | [] => false
  | HwFlush true :: _ => true
  | _ :: log => flushed log
  end.

Inductive reactor_op :=
| Assign (template : option job_ref)
| InvalidateWork
| ClearWork
| BeginFlush
| FinishFlush
| StoreOp (op : store_op).

(** Other users of the store submit, release and invalidate; only the reactor
    stores generated work. *)
Definition op_allowed (op : reactor_op) : Prop :=
  match op with StoreOp (StoreGenerated _) => False | _ => True end.

Section traced.
Context {W : Type} (write : bzm_work_t -> io W bool) (chk : option (io W bool)) (fl : io W bool).

Definition tworld : Type := W * list hw_event.
Definition traced_write (w : bzm_work_t) : io tworld bool :=
  fun '(s, log) => let '(ok, s) := write w s in (ok, (s, HwWrite w ok :: log)).
Definition traced_flush : io tworld bool :=
  fun '(s, log) => let '(ok, s) := fl s in (ok, (s, HwFlush ok :: log)).
Definition traced_checkpoint (c : io W bool) : io tworld bool :=
  fun '(s, log) => let '(ok, s) := c s in (ok, (s, log)).
Definition traced : bzm_transport_ops_t tworld :=
  {| write_work := traced_write; dispatch_checkpoint := traced_checkpoint <$> chk;
     flush := Some traced_flush |}.

Definition apply_op (op : reactor_op) (r : bzm_reactor_t) : io tworld bzm_reactor_t :=
  match op with
  | Assign t => let! x := bzm_reactor_assign traced r t in io_ret (snd x)
  | InvalidateWork => io_ret (snd (bzm_reactor_invalidate_work r))
  | ClearWork => let! x := bzm_reactor_clear_work traced r in io_ret (snd x)
  | BeginFlush => let! x := bzm_reactor_begin_flush traced r in io_ret (snd x)
  | FinishFlush => io_ret (bzm_reactor_finish_flush r)
  | StoreOp op => io_ret (with_store (fun js => run_op js op) r)
  end.

Definition system : Type := bzm_reactor_t * tworld.

(** Production steps, while the store's 56-bit generation counter lasts. *)
Definition system_step (s s' : system) : Prop :=
  exists op, op_allowed op /\ next_generation (job_store (fst s)) < 2 ^ 56 - 4 /\
    s' = apply_op op (fst s) (snd s).

Definition system_init (s : system) : Prop :=
  exists cfg, (0 <= engine_count cfg) /\
    bzm_reactor_init (snd (asic_job_store_init true true true)) cfg = Some (fst s) /\ snd (snd s) = [].

Definition system_reachable : system -> Prop := reachable system_init system_step.

(** *** The invariant *)

Definition works_key (w : bzm_work_t) : Z * Z := (engine_id w, logical_sequence w).

(** A package is on the hardware under a handle that names its job or nothing. *)
Definition written_ok (r : bzm_reactor_t) (w : bzm_work_t) : Prop :=
  exists k e t w0,
    0 <= k < engine_count (config r) /\ scheduled_engine_at k = Some e /\
    engine_id w = physical_id e /\ logical_sequence w < byte_at (next_engine_sequence r) (Z.to_nat k) /\
    work_template (source w) = Some t /\
    bzm_work_build (Some (source w)) (engine_id w) (logical_sequence w)
      (config_timestamp_count (config r)) (config_lead_zeros (config r))
      (config_enhanced_mode (config r)) = Some w0 /\ w = whole_range w0 /\
    generation_of (work_handle (source w)) < next_generation (job_store r) /\
    forall x, find_entry (job_store r) (work_handle (source w)) = Some x -> JobStore.template x = pointee t.

Definition recorded (r : bzm_reactor_t) (log : list hw_event) (a : bzm_assignment_t) : Prop :=
  exists w t, w ∈ outstanding log /\ work_template (source w) = Some t /\
    assigned_engine_id a = engine_id w /\ assigned_sequence a = logical_sequence w /\
    assigned_handle a = work_handle (source w) /\ assigned_timestamp_count a = timestamp_count w /\
    base_ntime a = start_ntime w /\ base_version a = version (pointee t) /\
    version_count a = midstate_count w /\ assigned_versions a = versions w /\
    nonce_offset a = config_nonce_offset (config r).

(** Engine [k] of the schedule was given a package. *)
Definition programmed (log : list hw_event) (k : Z) : Prop :=
  exists w e, w ∈ outstanding log /\ scheduled_engine_at k = Some e /\ engine_id w = physical_id e.

Record live (r : bzm_reactor_t) (log : list hw_event) : Prop := {
  live_sequences : length (next_engine_sequence r) = 256%nat;
  live_sequence_range : Forall (fun s => 0 <= s <= 255) (next_engine_sequence r);
  live_assignments : length (assignments r) = 256%nat;
  live_previous : length (previous_assignments r) = 256%nat;
  live_next : 0 <= next_engine r < engine_count (config r);
  live_no_batch : previous_batch_complete r = false;
  live_written : Forall (written_ok r) (outstanding log);
  live_unique : NoDup (works_key <$> outstanding log);
  live_recorded : forall a, a ∈ assignments r \/ a ∈ previous_assignments r -> active a = true ->
    recorded r log a;
  live_active : outstanding log <> [] -> existsb active (assignments r) = true;
  live_quarantined : results_quarantined r = true ->
    forall k, 0 <= k < next_engine r -> programmed log k;
  live_released : results_quarantined r = false -> flushed log = true ->
    forall k, 0 <= k < engine_count (config r) -> programmed log k;
}.

Definition base (r : bzm_reactor_t) : Prop :=
  store_ok (job_store r) /\ 0 < engine_count (config r) <= 236.

Definition inv (r : bzm_reactor_t) (log : list hw_event) : Prop :=
  base r /\
  if flush_pending r then flush_complete r = true -> outstanding log = [] else live r log.

(** *** Preservation *)

(** The store moved on: an old handle keeps its entry or loses it. *)
Definition store_le (js js' : asic_job_store_t) : Prop :=
  store_ok js' /\ next_generation js <= next_generation js' /\
  forall h, generation_of h < next_generation js ->
    find_entry js' h = find_entry js h \/ find_entry js' h = None.

Lemma store_le_refl js : store_ok js -> store_le js js.
Proof. intros Hok. split; [done|]. split; [lia|]. by left. Qed.

Lemma store_le_trans a b c : store_le a b -> store_le b c -> store_le a c.
Proof.
  intros (_ & Hg & Hf) (Hok & Hg' & Hf'). split; [done|]. split; [lia|]. intros h Hh.
  destruct (Hf' h ltac:(lia)) as [-> | ->]; [by apply Hf|by right].
Qed.

Lemma run_op_le js op :
  store_ok js -> next_generation js < 2 ^ 56 - 1 ->
  store_le js (run_op js op) /\ next_generation (run_op js op) <= next_generation js + 1.
Proof.
  intros Hok Hlt. destruct (run_op_spec js op Hok Hlt) as (Hok' & [Hg Hg'] & Hf).
  split; [|lia]. split; [done|]. by split; [lia|].
Qed.

Lemma written_ok_mono r r' w :
  config r' = config r -> store_le (job_store r) (job_store r') ->
  (forall k, byte_at (next_engine_sequence r) k <= byte_at (next_engine_sequence r') k) ->
  written_ok r w -> written_ok r' w.
Proof.
  intros Hcfg (_ & Hg & Hf) Hs (k & e & t & w0 & Hk & He & Hid & Hq & Ht & Hb & Hw & Hgen & Hx).
  exists k, e, t, w0. rewrite Hcfg. specialize (Hs (Z.to_nat k)). split_and!; try done; try lia.
  intros x Hfx. apply Hx. destruct (Hf _ Hgen) as [E|E]; congruence.
Qed.

Lemma recorded_mono r r' log log' a :
  config r' = config r -> (forall w, w ∈ outstanding log -> w ∈ outstanding log') ->
  recorded r log a -> recorded r' log' a.
Proof. intros Hcfg Hsub (w & t & Hw & Hr). exists w, t. rewrite Hcfg. split; [by apply Hsub|done]. Qed.

Lemma programmed_mono log log' k :
  (forall w, w ∈ outstanding log -> w ∈ outstanding log') -> programmed log k -> programmed log' k.
Proof. intros Hsub (w & e & Hw & Hr). exists w, e. split; [by apply Hsub|done]. Qed.

(** Changes that leave the tables alone. *)
Lemma live_frame r r' log :
  config r' = config r -> store_le (job_store r) (job_store r') ->
  next_engine_sequence r' = next_engine_sequence r -> assignments r' = assignments r ->
  previous_assignments r' = previous_assignments r -> next_engine r' = next_engine r ->
  previous_batch_complete r' = previous_batch_complete r ->
  results_quarantined r' = results_quarantined r -> live r log -> live r' log.
Proof.
  intros Hcfg Hle Hnes Ha Hp Hn Hb Hq []. split; rewrite ?Hcfg, ?Hnes, ?Ha, ?Hp, ?Hn, ?Hb, ?Hq; try done.
  - eapply Forall_impl; [done|]. intros w. apply written_ok_mono; [done|done|].
    intros k. rewrite Hnes. lia.
  - intros a Hin Hact. eapply recorded_mono; [done|done|]. by apply live_recorded0.
Qed.

Lemma live_empty r log :
  0 < engine_count (config r) -> length (next_engine_sequence r) = 256%nat ->
  next_engine_sequence r = replicate 256 0 -> length (assignments r) = 256%nat ->
  length (previous_assignments r) = 256%nat -> existsb active (assignments r) = false ->
  existsb active (previous_assignments r) = false -> next_engine r = 0 ->
  previous_batch_complete r = false -> outstanding log = [] ->
  (results_quarantined r = true \/ flushed log = false) -> live r log.
Proof.
  intros Hc Hl Hn Ha Hp Hae Hpe Hne Hb Ho Hq. split; rewrite ?Ho; try done; try lia.
  - rewrite Hn. by apply Forall_replicate.
  - constructor.
  - intros a Hin Hact. exfalso. rewrite <- not_true_iff_false, existsb_exists in Hae, Hpe.
    destruct Hin; [apply Hae|apply Hpe]; exists a; by rewrite <- list_elem_of_In.
  - intros E k. destruct Hq; congruence.
Qed.

Lemma finish_flush_inv r log :
  inv r log -> inv (bzm_reactor_finish_flush r) log.
Proof.
  intros [Hb Hi]. unfold bzm_reactor_finish_flush.
  destruct (flush_pending r) eqn:Ep; cbn [negb orb]; [|by split; rewrite ?Ep].
  destruct (flush_complete r) eqn:Ec; cbn [negb]; [|by split; rewrite ?Ep, ?Ec].
  split; [exact Hb|]. cbn [set_field flush_pending]. apply live_empty; try done.
  - apply Hb.
  - by apply Hi.
  - by left.
Qed.

Lemma run_flush_inv r s log :
  base r -> flush_pending r = true ->
  let '((ok, r'), (s', log')) := run_flush traced r (s, log) in
  inv r' log' /\ flush_pending r' = true /\ flush_complete r' = ok.
Proof.
  intros Hb Hp. unfold run_flush, io_bind, traced, traced_flush. cbn [flush].
  destruct (fl s) as [ok s']. cbn. split; [|done]. split; [exact Hb|]. cbn [set_field flush_pending flush_complete].
  rewrite Hp. by intros ->.
Qed.

Lemma base_store r js : store_ok js -> base r -> base (r <| job_store := js |>).
Proof. intros Hok [_ Hc]. split; done. Qed.

Lemma mark_flushing_base r :
  base r -> next_generation (job_store r) < 2 ^ 56 - 1 -> base (mark_flushing r).
Proof.
  intros [Hok Hc] Hlt. split; [|exact Hc].
  change (store_ok (asic_job_store_invalidate_all (job_store r))).
  apply (invalidate_spec (job_store r) Hok). lia.
Qed.

Lemma begin_flush_inv r s log :
  base r -> (flush_pending r = true -> flush_complete r = true -> outstanding log = []) -> next_generation (job_store r) < 2 ^ 56 - 1 ->
  let '((ok, r'), (s', log')) := bzm_reactor_begin_flush traced r (s, log) in
  inv r' log' /\ flush_pending r' = true /\ flush_complete r' = ok.
Proof.
  intros Hb Ho Hlt. unfold bzm_reactor_begin_flush. destruct (flush_pending r) eqn:Ep.
  - destruct (flush_complete r) eqn:Ec; [|by apply run_flush_inv].
    split; [|done]. split; [done|]. rewrite Ep. intros _. by apply Ho.
  - apply run_flush_inv; [|done]. by apply mark_flushing_base.
Qed.

Lemma abort_dispatch_inv r s log :
  base r -> flush_pending r = false -> next_generation (job_store r) < 2 ^ 56 - 1 ->
  let '(r', (s', log')) := abort_dispatch traced r (s, log) in inv r' log'.
Proof.
  intros Hb Hp Hlt. unfold abort_dispatch, io_bind.
  pose proof (begin_flush_inv r s log Hb ltac:(congruence) Hlt) as H.
  destruct (bzm_reactor_begin_flush traced r (s, log)) as [[[] r'] [s' log']]; cbn; [|apply H].
  apply finish_flush_inv, H.
Qed.

Lemma clear_work_inv r s log :
  inv r log -> next_generation (job_store r) < 2 ^ 56 - 1 ->
  let '((_, r'), (s', log')) := bzm_reactor_clear_work traced r (s, log) in inv r' log'.
Proof.
  intros [Hb Hi] Hlt. unfold bzm_reactor_clear_work.
  destruct (negb (flush_pending r) && negb (has_active_assignment r)) eqn:E.
  - apply andb_true_iff in E as [Ep Ea]. apply negb_true_iff in Ep, Ea. rewrite Ep in Hi.
    unfold has_active_assignment in Ea. rewrite !orb_false_iff in Ea. destruct Ea as [[Ha Hpa] _].
    cbn. split; [exact (mark_flushing_base r Hb Hlt)|]. cbn [set_field flush_pending advance_epoch].
    unfold advance_epoch, with_store. cbn. rewrite Ep. destruct Hi. apply live_empty; try done.
    + apply Hb.
    + destruct (outstanding log); [done|]. rewrite live_active0 in Ha by done. done.
    + by left.
  - clear E. unfold io_bind.
    pose proof (begin_flush_inv r s log Hb ltac:(intros E; by rewrite E in Hi) Hlt) as H.
    destruct (bzm_reactor_begin_flush traced r (s, log)) as [[[] r'] [s' log']]; cbn; [|apply H].
    apply finish_flush_inv, H.
Qed.

Lemma retire_assignment_frame r a : exists retired, retire_assignment r a = r <| retired_sequences := retired |>.
Proof.
  unfold retire_assignment. destruct (active a); [by eexists|].
  exists (retired_sequences r). by destruct r.
Qed.

Lemma retire_loop_frame idxs r :
  exists retired, foldl retire_slot r idxs = r <| retired_sequences := retired |>.
Proof.
  revert r. induction idxs as [|i idxs IH]; intros r; cbn [foldl].
  { exists (retired_sequences r). by destruct r. }
  unfold retire_slot at 2. cbv zeta.
  destruct (retire_assignment_frame r (nth i (assignments r) zero_assignment)) as [x1 ->].
  destruct (retire_assignment_frame (r <| retired_sequences := x1 |>)
              (nth i (previous_assignments (r <| retired_sequences := x1 |>)) zero_assignment)) as [x2 ->].
  destruct (IH (r <| retired_sequences := x1 |> <| retired_sequences := x2 |>)) as [x3 ->]. by exists x3.
Qed.

Lemma invalidate_work_inv r log :
  inv r log -> next_generation (job_store r) < 2 ^ 56 - 1 -> inv (snd (bzm_reactor_invalidate_work r)) log.
Proof.
  intros [[Hok Hc] Hi] Hlt. unfold bzm_reactor_invalidate_work. cbn [snd].
  destruct (retire_loop_frame (seq 0 BZM_MAX_ACTIVE_WORK) (with_store asic_job_store_invalidate_all r))
    as [retired ->].
  destruct (run_op_le (job_store r) InvalidateAll Hok Hlt) as [Hle _]. cbn [run_op] in Hle.
  split; [split; [exact (proj1 Hle)|exact Hc]|]. unfold advance_epoch, with_store. cbn.
  destruct (flush_pending r); [done|]. by apply (live_frame r).
Qed.

Lemma store_op_inv r log op :
  inv r log -> next_generation (job_store r) < 2 ^ 56 - 1 -> inv (with_store (fun js => run_op js op) r) log.
Proof.
  intros [[Hok Hc] Hi] Hlt. destruct (run_op_le (job_store r) op Hok Hlt) as [Hle _].
  split; [split; [exact (proj1 Hle)|exact Hc]|]. unfold with_store. cbn. destruct (flush_pending r); [done|].
  by apply (live_frame r).
Qed.

Lemma first_index_lt f l i : first_index f l = Some i -> (i < length l)%nat.
Proof.
  revert i. induction l as [|a l IH]; intros i; cbn [first_index]; [done|].
  destruct (f a); [intros [= <-]; cbn; lia|].
  destruct (first_index f l) as [j|]; cbn; [|done]. intros [= <-]. specialize (IH j eq_refl). cbn. lia.
Qed.

(** Recording touches the store, the retired identities and the tables. *)
Lemma record_assignment_frame r index a :
  store_ok (job_store r) -> next_generation (job_store r) < 2 ^ 56 - 1 ->
  exists retired js,
    record_assignment r index a =
      r <| retired_sequences := retired; job_store := js;
           previous_assignments :=
             <[index := if active (nth index (assignments r) zero_assignment)
                        then nth index (assignments r) zero_assignment else zero_assignment]>
               (previous_assignments r);
           assignments := <[index := a]> (assignments r) |> /\
    store_le (job_store r) js.
Proof.
  intros Hok Hlt. unfold record_assignment, release_handle, with_store.
  set (previous := nth index (previous_assignments r) zero_assignment).
  destruct (active previous) eqn:Ea.
  - destruct (retire_assignment_frame r previous) as [x ->].
    exists x, (snd (asic_job_store_release (job_store r) (assigned_handle previous))).
    split; [done|]. apply (run_op_le _ (Release _) Hok Hlt).
  - exists (retired_sequences r), (job_store r). split; [by destruct r|by apply store_le_refl].
Qed.

(** A package freshly written to the scheduled engine. *)
Record fresh_package (r : bzm_reactor_t) (e : bzm_engine_location_t) (t : job_ref) (h : Z)
    (js : asic_job_store_t) (w : bzm_work_t) : Prop := {
  fp_engine : scheduled_engine_at (next_engine r) = Some e;
  fp_source : source w = {| work_handle := h; work_template := Some t |};
  fp_engine_id : engine_id w = physical_id e;
  fp_sequence : logical_sequence w = byte_at (next_engine_sequence r) (Z.to_nat (next_engine r));
  fp_room : logical_sequence w < 255;
  fp_built : exists w0, bzm_work_build (Some (source w)) (engine_id w) (logical_sequence w)
      (config_timestamp_count (config r)) (config_lead_zeros (config r))
      (config_enhanced_mode (config r)) = Some w0 /\ w = whole_range w0;
  fp_store : store_le (job_store r) js;
  fp_generation : generation_of h = next_generation (job_store r) /\ generation_of h < next_generation js;
  fp_entry : forall x, find_entry js h = Some x -> JobStore.template x = pointee t;
}.

Lemma key_fresh r log e t h js w :
  base r -> live r log -> fresh_package r e t h js w -> works_key w ∉ works_key <$> outstanding log.
Proof.
  intros [_ Hc] Hl Hf (w' & Hk & Hin)%list_elem_of_fmap.
  pose proof (live_written _ _ Hl) as Hw. rewrite Forall_forall in Hw.
  destruct (Hw w' Hin) as (k & e' & t' & w0 & Hkr & He & Hid & Hq & _).
  injection Hk as Hke Hks. pose proof (live_next _ _ Hl).
  destruct (activation_physical_inj BZM_ENGINE_STACK_BOTTOM k (next_engine r) e' e) as [-> _]; try lia;
    [exact He|exact (fp_engine _ _ _ _ _ _ Hf)|rewrite <- Hid, <- Hke; apply Hf|].
  rewrite <- Hks, (fp_sequence _ _ _ _ _ _ Hf) in Hq. lia.
Qed.

Lemma fresh_outstanding w ok log w' :
  w' ∈ outstanding (HwWrite w ok :: log) <-> w' = w \/ w' ∈ outstanding log.
Proof. cbn. apply elem_of_cons. Qed.

Lemma advance_next k n : 0 <= k < n ->
  ((k + 1) mod n = 0 /\ k + 1 = n) \/ ((k + 1) mod n = k + 1 /\ k + 1 < n /\ (k + 1) mod n <> 0).
Proof.
  intros Hk. destruct (Z.eq_dec (k + 1) n) as [<-|].
  - left. rewrite Z.mod_same by lia. done.
  - right. rewrite Z.mod_small by lia. lia.
Qed.

Lemma byte_at_insert_le l i v k :
  byte_at l i <= v -> byte_at l k <= byte_at (<[i := v]> l) k.
Proof.
  intros Hv. unfold byte_at in *. rewrite !nth_lookup in *.
  destruct (decide (i = k)) as [->|Hn]; [|rewrite list_lookup_insert_ne by done; lia].
  destruct (Nat.lt_ge_cases k (length l)).
  - rewrite list_lookup_insert_eq by done. done.
  - rewrite list_insert_ge by done. lia.
Qed.

(** The tables after an assignment, in one update. *)
Definition assigned_tables (r : bzm_reactor_t) (w : bzm_work_t) (index : nat) (a : bzm_assignment_t)
    (retired : list (list Z)) (js : asic_job_store_t) : bzm_reactor_t :=
  let next := (next_engine r + 1) mod engine_count (config r) in
  r <| retired_sequences := retired; job_store := js;
       previous_assignments :=
         <[index := if active (nth index (assignments r) zero_assignment)
                    then nth index (assignments r) zero_assignment else zero_assignment]>
           (previous_assignments r);
       assignments := <[index := a]> (assignments r); next_engine := next;
       results_quarantined := if next =? 0 then false else results_quarantined r;
       next_engine_sequence :=
         <[Z.to_nat (next_engine r) := u8 (logical_sequence w + 1)]> (next_engine_sequence r) |>.

Section assigned.
Context (r : bzm_reactor_t) (log : list hw_event) (e : bzm_engine_location_t) (t : job_ref) (h : Z)
  (js js2 : asic_job_store_t) (w : bzm_work_t) (index : nat) (retired : list (list Z)) (ok : bool).
Context (Hb : base r) (Hl : live r log) (Hf : fresh_package r e t h js w) (Hi : (index < 256)%nat)
  (Hle : store_le js js2).

Let a : bzm_assignment_t := assignment_of (r <| job_store := js |>) e (logical_sequence w) h t w.
Let r' : bzm_reactor_t := assigned_tables r w index a retired js2.
Let log' : list hw_event := HwWrite w ok :: log.

Lemma assigned_index : (Z.to_nat (next_engine r) < length (next_engine_sequence r))%nat.
Proof. pose proof (live_next _ _ Hl). rewrite (live_sequences _ _ Hl). destruct Hb. lia. Qed.

Lemma assigned_sequence_range : 0 <= logical_sequence w < 255.
Proof.
  split; [|apply Hf]. rewrite (fp_sequence _ _ _ _ _ _ Hf). unfold byte_at.
  apply (proj1 (Forall_nth _ 0 _) (live_sequence_range _ _ Hl) _ assigned_index).
Qed.

Lemma assigned_sequence_mono k :
  byte_at (next_engine_sequence r) k <= byte_at (next_engine_sequence r') k.
Proof.
  pose proof assigned_sequence_range. apply byte_at_insert_le.
  rewrite <- (fp_sequence _ _ _ _ _ _ Hf), u8_small by lia. lia.
Qed.

Lemma assigned_written_new : written_ok r' w.
Proof.
  pose proof (live_next _ _ Hl). pose proof assigned_sequence_range as Hq.
  destruct (fp_built _ _ _ _ _ _ Hf) as (w0 & Hw0 & Hw).
  exists (next_engine r), e, t, w0. change (config r') with (config r).
  rewrite (fp_source _ _ _ _ _ _ Hf). cbn [work_template work_handle].
  split_and!; try lia; try apply Hf; try done.
  - unfold r', assigned_tables; cbn [set_field next_engine_sequence]. unfold byte_at.
    rewrite nth_lookup, list_lookup_insert_eq by apply assigned_index. cbn. rewrite u8_small by lia. lia.
  - rewrite <- (fp_source _ _ _ _ _ _ Hf). exact Hw0.
  - pose proof (proj2 (fp_generation _ _ _ _ _ _ Hf)). destruct Hle as (_ & Hg & _). cbn. lia.
  - intros x Hx. destruct Hle as (_ & _ & Hfx).
    destruct (Hfx h (proj2 (fp_generation _ _ _ _ _ _ Hf))) as [E|E]; cbn in Hx; rewrite E in Hx; [|done].
    by apply (fp_entry _ _ _ _ _ _ Hf).
Qed.

Lemma assigned_written : Forall (written_ok r') (outstanding log').
Proof.
  constructor; [exact assigned_written_new|]. eapply Forall_impl; [apply (live_written _ _ Hl)|].
  intros w'. apply written_ok_mono; [done| |exact assigned_sequence_mono].
  exact (store_le_trans _ _ _ (fp_store _ _ _ _ _ _ Hf) Hle).
Qed.

Lemma assigned_recorded x :
  x ∈ assignments r' \/ x ∈ previous_assignments r' -> active x = true -> recorded r' log' x.
Proof.
  assert (Hold : x ∈ assignments r \/ x ∈ previous_assignments r -> active x = true -> recorded r' log' x).
  { intros Hin Hact. eapply recorded_mono; [done|intros w' Hw'; by apply fresh_outstanding; right|].
    by apply (live_recorded _ _ Hl). }
  assert (Hnth : nth index (assignments r) zero_assignment ∈ assignments r).
  { apply list_elem_of_In, nth_In. by rewrite (live_assignments _ _ Hl). }
  unfold r', assigned_tables; cbn [set_field assignments previous_assignments].
  intros [Hx|Hx] Hact; apply list_elem_of_lookup in Hx as [i Hx];
    apply list_lookup_insert_Some in Hx as [(_ & <- & _)|(_ & Hx)];
    try (apply list_elem_of_lookup_2 in Hx; auto).
  - exists w, t. split; [apply fresh_outstanding; by left|]. rewrite (fp_source _ _ _ _ _ _ Hf).
    split_and!; try done. cbn. symmetry. apply Hf.
  - destruct (active (nth index (assignments r) zero_assignment)) eqn:E; [|done]. auto.
Qed.

Lemma assigned_programmed k :
  (0 <= k < next_engine r -> programmed log k) -> 0 <= k <= next_engine r -> programmed log' k.
Proof.
  intros Hold Hk. destruct (Z.eq_dec k (next_engine r)) as [->|].
  - exists w, e. split; [apply fresh_outstanding; by left|]. split; apply Hf.
  - apply (programmed_mono log); [|apply Hold; lia]. intros w' Hw'. apply fresh_outstanding. by right.
Qed.

Lemma assigned_live_tables : live r' log'.
Proof.
  pose proof (live_next _ _ Hl) as Hn. destruct (advance_next _ _ Hn) as [[Hz Hlast]|(Hs & Hlt & Hnz)].
  all: split; unfold r', assigned_tables; cbn [set_field next_engine_sequence assignments previous_assignments
    next_engine results_quarantined previous_batch_complete config]; rewrite ?length_insert;
    try apply Hl; try exact assigned_written; try exact assigned_recorded.
  - apply Forall_insert; [apply Hl|]. pose proof (u8_range (logical_sequence w + 1)). lia.
  - lia.
  - apply NoDup_cons. split; [by apply (key_fresh r log e t h js)|apply Hl].
  - intros _. apply existsb_exists. exists a. split; [|done].
    apply list_elem_of_In, (list_elem_of_lookup_2 _ index), list_lookup_insert_eq. by rewrite (live_assignments _ _ Hl).
  - rewrite Hz. done.
  - rewrite Hz. intros _ Hfl k Hk. apply assigned_programmed; [|lia]. intros Hk'.
    destruct (results_quarantined r) eqn:Eq; [by apply (live_quarantined _ _ Hl)|].
    by apply (live_released _ _ Hl).
  - apply Forall_insert; [apply Hl|]. pose proof (u8_range (logical_sequence w + 1)). lia.
  - lia.
  - apply NoDup_cons. split; [by apply (key_fresh r log e t h js)|apply Hl].
  - intros _. apply existsb_exists. exists a. split; [|done].
    apply list_elem_of_In, (list_elem_of_lookup_2 _ index), list_lookup_insert_eq. by rewrite (live_assignments _ _ Hl).
  - rewrite (proj2 (Z.eqb_neq _ _) Hnz), Hs. intros Hq k Hk. apply assigned_programmed; [|lia].
    intros Hk'. by apply (live_quarantined _ _ Hl).
  - rewrite (proj2 (Z.eqb_neq _ _) Hnz). intros Hq Hfl k Hk.
    apply (programmed_mono log); [intros w' Hw'; apply fresh_outstanding; by right|].
    by apply (live_released _ _ Hl).
Qed.
End assigned.

Lemma assigned_live r log e t h js w index :
  base r -> live r log -> fresh_package r e t h js w -> (index < 256)%nat ->
  next_generation js < 2 ^ 56 - 1 ->
  let r1 := r <| job_store := js |> in
  let a := assignment_of r1 e (logical_sequence w) h t w in
  let r' := advance_schedule (record_assignment r1 index a) (next_engine r) (logical_sequence w) in
  base r' /\ flush_pending r' = flush_pending r /\ live r' (HwWrite w true :: log).
Proof.
  intros Hb Hl Hf Hi Hlt. cbn zeta. set (a := assignment_of _ _ _ _ _ _).
  assert (Hjs : store_ok js) by apply Hf.
  destruct (record_assignment_frame (r <| job_store := js |>) index a) as (retired & js2 & -> & Hle);
    [exact Hjs|exact Hlt|].
  change (store_le js js2) in Hle.
  assert (E : forall r0, r0 = r <| job_store := js |> <| retired_sequences := retired; job_store := js2;
           previous_assignments :=
             <[index := if active (nth index (assignments r) zero_assignment)
                        then nth index (assignments r) zero_assignment else zero_assignment]>
               (previous_assignments r);
           assignments := <[index := a]> (assignments r) |> ->
    advance_schedule r0 (next_engine r) (logical_sequence w) = assigned_tables r w index a retired js2).
  { intros r0 ->. unfold advance_schedule, assigned_tables. cbn [set_field next_engine config].
    by destruct (_ =? 0). }
  match goal with |- context [advance_schedule ?x _ _] => rewrite (E x eq_refl) end. split; [split; [apply Hle|apply Hb]|]. split; [done|].
  by apply (assigned_live_tables r log e t h js js2 w index).
Qed.

Lemma assign_to_inv r log s t e index :
  base r -> live r log -> flush_pending r = false -> next_generation (job_store r) < 2 ^ 56 - 4 ->
  scheduled_engine_at (next_engine r) = Some e -> (index < 256)%nat ->
  byte_at (next_engine_sequence r) (Z.to_nat (next_engine r)) < 255 ->
  let '((_, _, r'), (s', log')) := assign_to traced r t (next_engine r) e index (s, log) in inv r' log'.
Proof.
  intros Hb Hl Hp Hlt He Hi Hroom. unfold assign_to.
  destruct (store_generated_spec (job_store r) t (proj1 Hb)) as
    (js & -> & Hok & Hg & _ & _ & Hgen & _ & _ & Hfind); [lia|].
  set (h := make_handle _ _) in *.
  assert (Hle : store_le (job_store r) js).
  { split; [done|]. split; [lia|]. intros h' Hh'. rewrite Hfind.
    rewrite decide_False by (intros ->; lia). case_decide; auto. }
  set (r1 := r <| job_store := js |>).
  assert (Hb1 : base r1) by (split; [exact Hok|exact (proj2 Hb)]).
  assert (Hrel : base (release_handle h r1) /\ next_generation (job_store (release_handle h r1)) < 2 ^ 56 - 1 /\
    store_le (job_store r) (job_store (release_handle h r1))).
  { destruct (run_op_le js (Release h) Hok) as [Hr Hr']; [lia|].
    split; [split; [exact (proj1 Hr)|exact (proj2 Hb)]|].
    split; [change (next_generation (run_op js (Release h)) < 2 ^ 56 - 1); lia|].
    exact (store_le_trans _ _ _ Hle Hr). }
  destruct Hrel as (Hbr & Hgr & Hler).
  change (next_engine_sequence r1) with (next_engine_sequence r).
  change (config r1) with (config r).
  destruct (bzm_work_build _ _ _ _ _ _) as [w0|] eqn:Hw0.
  2:{ cbn. split; [exact Hbr|]. change (flush_pending (release_handle h r1)) with (flush_pending r).
      rewrite Hp. by apply (live_frame r). }
  unfold io_bind at 1. cbn [traced write_work traced_write].
  destruct (write (whole_range w0) s) as [ok s1]. destruct ok; cbn [negb].
  2:{ unfold io_bind. pose proof (abort_dispatch_inv _ s1 (HwWrite (whole_range w0) false :: log) Hbr Hp Hgr) as H.
      destruct (abort_dispatch _ _ _) as [r' [s' log']]. exact H. }
  unfold io_bind at 1.
  assert (Hchk : exists passed s2, checkpoint traced (s1, HwWrite (whole_range w0) true :: log) =
                   (passed, (s2, HwWrite (whole_range w0) true :: log))).
  { unfold checkpoint, traced, traced_checkpoint. cbn [dispatch_checkpoint].
    destruct chk as [c|]; cbn; [|by eexists _, _]. destruct (c s1) as [p s2]. by eexists _, _. }
  destruct Hchk as (passed & s2 & ->). destruct passed; cbn [negb].
  2:{ unfold io_bind. pose proof (abort_dispatch_inv _ s2 (HwWrite (whole_range w0) true :: log) Hbr Hp Hgr) as H.
      destruct (abort_dispatch _ _ _) as [r' [s' log']]. exact H. }
  destruct (work_build_fields {| work_handle := h; work_template := Some t |} t _ _ _ _ _ _ eq_refl Hw0)
    as (Hsrc & Heng & Hseq & _).
  assert (Hf : fresh_package r e t h js (whole_range w0)).
  { split; try done.
    - change (logical_sequence w0 < 255). by rewrite Hseq.
    - exists w0. split; [|done]. change (source (whole_range w0)) with (source w0).
      change (engine_id (whole_range w0)) with (engine_id w0).
      change (logical_sequence (whole_range w0)) with (logical_sequence w0).
      by rewrite Hsrc, Heng, Hseq.
    - lia.
    - intros x. rewrite Hfind, decide_True by done. by intros [= <-]. }
  destruct (assigned_live r log e t h js (whole_range w0) index Hb Hl Hf Hi) as (Hb' & Hp' & Hl'); [lia|].
  change (logical_sequence (whole_range w0)) with (logical_sequence w0) in *. rewrite Hseq in Hb', Hp', Hl'.
  match type of Hb' with base ?r3 =>
    assert (Hfin : inv r3 (HwWrite (whole_range w0) true :: log)) by (split; [exact Hb'|]; rewrite Hp', Hp; exact Hl')
  end.
  exact Hfin.
Qed.

Lemma assign_inv r log s t :
  inv r log -> next_generation (job_store r) < 2 ^ 56 - 4 ->
  let '((_, _, r'), (s', log')) := bzm_reactor_assign traced r t (s, log) in inv r' log'.
Proof.
  intros Hinv Hlt. pose proof Hinv as [Hb Hi]. unfold bzm_reactor_assign. destruct t as [t|]; [|done].
  destruct (flush_pending r) eqn:Ep; [done|].
  destruct (Z.leb_spec (sequence_space r) (byte_at (next_engine_sequence r) (Z.to_nat (next_engine r)))) as [|Hs];
    [done|].
  destruct (scheduled_engine_at (next_engine r)) as [e|] eqn:He; [|done].
  match goal with |- context [match ?x with Some _ => _ | None => _ end (s, log)] => destruct x as [index|] eqn:Ex end;
    [|done].
  apply assign_to_inv; try done.
  - assert (Hlen := live_assignments _ _ Hi). unfold find_engine_assignment, free_assignment in Ex.
    destruct (first_index (fun a => active a && _) _) as [i|] eqn:Ei.
    + injection Ex as <-. apply first_index_lt in Ei. lia.
    + apply first_index_lt in Ex. lia.
  - unfold sequence_space in Hs. destruct (config_enhanced_mode (config r)); lia.
Qed.

Lemma system_invariant s : system_reachable s -> inv (fst s) (snd (snd s)).
Proof.
  revert s. apply (reachable_invariant _ _ (fun s => inv (fst s) (snd (snd s)))).
  - intros [r [w log]] (cfg & Hc0 & Hinit & Hlog). cbn in *. subst log. unfold bzm_reactor_init in Hinit.
    destruct (_ || _ || _) eqn:E; [done|]. injection Hinit as <-.
    rewrite !orb_false_iff, Z.eqb_neq, !Z.ltb_ge in E. destruct E as [[H0 H1] _].
    unfold BZM_ENGINES_PER_ASIC, BZM_TOPOLOGY_ENGINE_COUNT in H1.
    split; [split; [exact init_ok|cbn; lia]|]. cbn [zero_reactor set_field flush_pending].
    apply live_empty; try done; [cbn; lia|by right].
  - intros [r [w log]] s' Hinv (op & Hop & Hlt & ->). cbn [fst snd] in *.
    destruct op as [t| | | | |op]; cbn [apply_op]; unfold io_bind, io_ret.
    + pose proof (assign_inv r log w t Hinv Hlt) as H.
      destruct (bzm_reactor_assign traced r t (w, log)) as [[[st x] r'] [w' log']]. exact H.
    + apply invalidate_work_inv; [done|lia].
    + pose proof (clear_work_inv r w log Hinv ltac:(lia)) as H.
      destruct (bzm_reactor_clear_work traced r (w, log)) as [[b r'] [w' log']]. exact H.
    + destruct Hinv as [Hb Hi].
      pose proof (begin_flush_inv r w log Hb ltac:(intros E; by rewrite E in Hi) ltac:(lia)) as H.
      destruct (bzm_reactor_begin_flush traced r (w, log)) as [[b r'] [w' log']]. apply H.
    + by apply finish_flush_inv.
    + apply store_op_inv; [done|lia].
Qed.
End traced.

(** ** Properties *)

Lemma build_versions_shape base mask enhanced :
  let '(count, vs) := bzm_build_versions base mask enhanced in
  length vs = 4%nat /\ count = (if enhanced then 4 else 1)%nat.
Proof. unfold bzm_build_versions. destruct enhanced; cbn [negb]; [by destruct (mask =? 0)|done]. Qed.

Lemma find_assignment_spec r engine sequence a :
  find_assignment r engine sequence = Some a ->
  (a ∈ assignments r \/ a ∈ previous_assignments r) /\ active a = true /\
  assigned_engine_id a = engine /\ assigned_sequence a = sequence.
Proof.
  assert (Hn : forall l, List.find (names engine sequence) l = Some a ->
    a ∈ l /\ active a = true /\ assigned_engine_id a = engine /\ assigned_sequence a = sequence).
  { intros l [Hin Hna]%List.find_some. split; [by apply list_elem_of_In|].
    unfold names in Hna. rewrite !andb_true_iff, !Z.eqb_eq in Hna. tauto. }
  unfold find_assignment. destruct (List.find _ (assignments r)) as [x|] eqn:E.
  - intros [= ->]. apply Hn in E. tauto.
  - intros H. apply Hn in H. tauto.
Qed.

Lemma unique_package log p p' :
  NoDup (works_key <$> outstanding log) -> p ∈ outstanding log -> p' ∈ outstanding log ->
  engine_id p' = engine_id p -> logical_sequence p' = logical_sequence p -> p' = p.
Proof.
  intros Hd Hp Hp' He Hs. apply list_elem_of_lookup in Hp as [i Hi], Hp' as [j Hj].
  assert (i = j) as <-; [|congruence].
  apply (proj1 (NoDup_alt _) Hd i j (works_key p)); rewrite list_lookup_fmap, ?Hi, ?Hj; [done|].
  cbn. unfold works_key. by rewrite He, Hs.
Qed.

(** The micro job a raw result names. *)
Definition result_variant (r : bzm_reactor_t) (raw : bzm_raw_result_t) : Z :=
  if config_enhanced_mode (config r) then Z.land (sequence_id raw) 0x03 else 0.

(** C19: Results are attributed to the work that produced them: in every state
    reached by assignments, invalidations, clears, flushes and other users of
    the store, with any transport, when a raw result is mapped to a share there
    is exactly one package on the hardware with that engine and sequence; the
    share carries that package's job and handle, the version whose midstate the
    result's micro job had, the time the engine had rolled to and the nonce
    after the pipeline gap. *)
Theorem reactor_attributes_results {W} write chk (fl : io W bool) s raw ev :
  system_reachable write chk fl s ->
  bzm_reactor_map_result (fst s) raw = Some ev ->
  let r := fst s in
  let log := snd (snd s) in
  exists p t, p ∈ outstanding log /\
    engine_id p = raw_engine_id raw /\ logical_sequence p = result_sequence r raw /\
    (forall p', p' ∈ outstanding log -> engine_id p' = engine_id p ->
       logical_sequence p' = logical_sequence p -> p' = p) /\
    work_template (source p) = Some t /\ share_job ev = pointee t /\
    share_handle ev = work_handle (source p) /\
    versions p !! Z.to_nat (result_variant r raw) = Some (final_version ev) /\
    (Z.to_nat (result_variant r raw) < midstate_count p)%nat /\
    version_bits ev = Z.lxor (final_version ev) (version (pointee t)) /\
    time raw <= timestamp_count p /\
    final_ntime ev = u32 (start_ntime p + (timestamp_count p - time raw)) /\
    share_nonce ev = bswap32 (u32 (nonce raw - config_nonce_offset (config r))).
Proof.
  intros Hreach Hmap. cbn zeta. apply system_invariant in Hreach as [_ Hinv].
  destruct s as [r [w log]]. cbn [fst snd] in *.
  unfold bzm_reactor_map_result in Hmap. destruct (flush_pending r); [done|].
  destruct (results_quarantined r); [done|]. cbn [orb] in Hmap.
  destruct (bzm_engine_logical_id _) as [logical|]; [|done].
  destruct (bzm_raw_result_has_valid_nonce _); [|done]. cbn [negb] in Hmap.
  rewrite (live_no_batch _ _ Hinv) in Hmap. cbn [andb] in Hmap.
  destruct (find_assignment r _ _) as [a|] eqn:Ha; [|done].
  apply find_assignment_spec in Ha as (Hin & Hact & He & Hs).
  do 2 (guard_step; [done|]). rewrite !orb_false_iff, Nat.leb_gt, Z.ltb_ge in E0. destruct E0 as [[_ Hv] Ht].
  destruct (bzm_topology_asic_index _) as [ai|]; [|done].
  destruct (asic_job_store_snapshot_with_context _ _) as [[job ctx]|] eqn:Hsnap; [|done].
  injection Hmap as <-.
  destruct (live_recorded _ _ Hinv a Hin Hact) as
    (p & t & Hp & Hpt & Ee & Es & Eh & Etc & Ent & Ebv & Evc & Ev & Eno).
  pose proof (live_written _ _ Hinv) as Hwr. rewrite Forall_forall in Hwr.
  destruct (Hwr p Hp) as (k & en & t' & w0 & _ & _ & _ & _ & Hpt' & Hbuild & Hw0 & _ & Hentry).
  assert (t' = t) as -> by congruence.
  destruct (work_build_fields _ _ _ _ _ _ _ _ Hpt Hbuild) as (_ & _ & _ & _ & _ & Hvs & Hmc).
  pose proof (build_versions_shape (version (pointee t)) (version_mask (pointee t))
                (config_enhanced_mode (config r))) as Hshape.
  destruct (bzm_build_versions _ _ _) as [count vs]. cbn [fst snd] in Hvs, Hmc.
  assert (Hpv : versions p = vs) by (rewrite Hw0; exact Hvs).
  assert (Hpm : midstate_count p = count) by (rewrite Hw0; exact Hmc).
  fold (result_variant r raw) in *. exists p, t.
  cbn [share_job share_handle final_version version_bits final_ntime share_nonce].
  rewrite Evc in Hv. rewrite Etc in Ht.
  split_and!; try done.
  - by rewrite <- Ee.
  - by rewrite <- Es.
  - intros p' Hp' He' Hs'. exact (unique_package log p p' (live_unique _ _ Hinv) Hp Hp' He' Hs').
  - unfold asic_job_store_snapshot_with_context in Hsnap. rewrite Eh in Hsnap.
    destruct (find_entry _ _) as [x|] eqn:Hx; [|done]. injection Hsnap as <- _. by apply Hentry.
  - rewrite Ev, Hpv, nth_lookup. destruct Hshape as [Hl Hc].
    destruct (lookup_lt_is_Some_2 vs (Z.to_nat (result_variant r raw))) as [v Hlv]; [|by rewrite Hlv].
    rewrite Hpm in Hv. rewrite Hl. destruct (config_enhanced_mode _); lia.
  - by rewrite Ebv.
  - rewrite Ent, Etc. unfold u32, wrap. apply Zplus_mod_idemp_r.
  - by rewrite Eno.
Qed.

(** C20: The flush barrier holds until the whole chain has been reprogrammed:
    after a flush, no result is mapped before every configured engine of the
    schedule has been given a package since that flush, so a result that was
    still in flight from before it cannot be credited to new work. *)
Theorem reactor_flush_barrier {W} write chk (fl : io W bool) s raw ev k :
  system_reachable write chk fl s ->
  bzm_reactor_map_result (fst s) raw = Some ev ->
  flushed (snd (snd s)) = true -> 0 <= k < engine_count (config (fst s)) ->
  exists p e, p ∈ outstanding (snd (snd s)) /\ scheduled_engine_at k = Some e /\
    engine_id p = physical_id e.
Proof.
  intros Hreach Hmap Hfl Hk. apply system_invariant in Hreach as [_ Hinv].
  destruct s as [r [w log]]. cbn [fst snd] in *. unfold bzm_reactor_map_result in Hmap.
  destruct (flush_pending r); [done|]. destruct (results_quarantined r) eqn:Eq; [done|].
  exact (live_released _ _ Hinv Eq Hfl k Hk).
Qed.

Module Demo.
Definition cfg : bzm_reactor_config_t :=
  {| engine_count := 2; config_timestamp_count := 60; config_lead_zeros := 64;
     config_nonce_offset := 0x4c; config_enhanced_mode := true |}.
Definition write (_ : bzm_work_t) : io unit bool := io_ret true.
Definition fl : io unit bool := io_ret true.
Definition template : job_ref := {| address := 1; pointee := Work.Demo.job |}.

Definition fresh : bzm_reactor_t := (zero_reactor (snd (asic_job_store_init true true true)) cfg) <| epoch := 1 |>.
Definition step_op (op : reactor_op) (s : system) : system := apply_op write None fl op (fst s) (snd s).

(** Programmed, flushed and both engines programmed again. *)
Definition ops : list reactor_op := [Assign (Some template); ClearWork; Assign (Some template); Assign (Some template)].
Fixpoint run (ops : list reactor_op) (s : system) : system :=
  match ops with [] => s | op :: ops => run ops (step_op op s) end.
Fixpoint run_ok (ops : list reactor_op) (s : system) : bool :=
  match ops with
  | [] => true
  | op :: ops => (next_generation (job_store (fst s)) <? 2 ^ 56 - 4) && run_ok ops (step_op op s)
  end.
Definition running : system := run ops (fresh, (tt, [])).

(** The first scheduled engine reports micro job 2 of its sequence 0. *)
Definition raw : bzm_raw_result_t :=
  {| raw_asic_id := 0x14; raw_engine_id := engine_id (nth 1 (outstanding (snd (snd running))) (sentinel_work 0));
     status := 8; nonce := 0x1000004c; sequence_id := 2; time := 10; timestamp_us := 77 |}.

Lemma step_reachable op s :
  op_allowed op -> next_generation (job_store (fst s)) < 2 ^ 56 - 4 ->
  system_reachable write None fl s -> system_reachable write None fl (step_op op s).
Proof.
  intros Hop Hlt (s0 & Hi & Hr). exists s0. split; [done|]. eapply rtc_r; [exact Hr|]. by exists op.
Qed.

Lemma run_reachable ops s :
  Forall op_allowed ops -> run_ok ops s = true -> system_reachable write None fl s ->
  system_reachable write None fl (run ops s).
Proof.
  revert s. induction ops as [|op ops IH]; intros s Ha Hok Hs; cbn [run]; [done|].
  rewrite Forall_cons in Ha. cbn [run_ok] in Hok. apply andb_true_iff in Hok as [Hlt Hok].
  apply IH; [apply Ha|exact Hok|]. apply step_reachable; [apply Ha|by apply Z.ltb_lt|exact Hs].
Qed.

Lemma running_reachable : system_reachable write None fl running.
Proof.
  apply run_reachable; [by repeat constructor|by vm_compute|].
  exists (fresh, (tt, [])). split; [|constructor]. exists cfg. split; [by vm_compute|]. split; [|reflexivity].
  unfold bzm_reactor_init. reflexivity.
Qed.

Lemma running_maps : exists ev, bzm_reactor_map_result (fst running) raw = Some ev.
Proof.
  destruct (bzm_reactor_map_result (fst running) raw) as [ev|] eqn:E; [by eexists|].
  apply (f_equal (fun o => match o with Some _ => true | None => false end)) in E.
  vm_compute in E. discriminate.
Qed.

Lemma reactor_attributes_results_witness :
  exists ev p t, bzm_reactor_map_result (fst running) raw = Some ev /\
    p ∈ outstanding (snd (snd running)) /\ work_template (source p) = Some t /\ share_job ev = pointee t.
Proof.
  destruct running_maps as [ev Hev].
  destruct (reactor_attributes_results write None fl running raw ev running_reachable Hev)
    as (p & t & Hp & _ & _ & _ & Ht & Hj & _).
  exists ev, p, t. split; [exact Hev|]. split; [exact Hp|]. split; [exact Ht|exact Hj].
Defined.

Lemma reactor_flush_barrier_witness :
  exists p e, p ∈ outstanding (snd (snd running)) /\ scheduled_engine_at 1 = Some e /\
    engine_id p = physical_id e.
Proof.
  destruct running_maps as [ev Hev].
  assert (Hfl : flushed (snd (snd running)) = true) by (vm_compute; reflexivity).
  assert (Hc : engine_count (config (fst running)) = 2) by (vm_compute; reflexivity).
  refine (reactor_flush_barrier write None fl running raw ev 1 running_reachable Hev Hfl _).
  rewrite Hc. split; [discriminate|reflexivity].
Defined.
End Demo.
