(* ===== verification/Serial.v ===== *)
(** * The serial link to the ASIC chain

    Models src/components/asic/serial.c with its header over the vendor's UART
    driver for UART1, which is a parameter: a record of computations over the
    world [W] of the driver and the clock.  Port numbers, pins and the fixed
    configuration structure are not modelled, nor are the debug prints. *)

From S2P Require Import Prelude.
Open Scope io_scope.
Open Scope Z_scope.

Definition SERIAL_RX_BUFFER_BYTES : Z := 32 * 1024.
Definition SERIAL_TX_BUFFER_BYTES : Z := 2 * 1024.
Definition SERIAL_RX_FIFO_FULL_THRESHOLD : Z := 32.

Definition SERIAL_buffer_capacity_covers (buffer_bytes bytes_per_second blackout_ms : Z) : bool :=
  bytes_per_second * blackout_ms <=? buffer_bytes * 1000.

Definition SERIAL_fifo_reserve_covers (fifo_bytes full_threshold bytes_per_second latency_us : Z) : bool :=
  if (fifo_bytes <=? full_threshold) || (bytes_per_second =? 0) then false
  else bytes_per_second * latency_us <=? (fifo_bytes - full_threshold) * 1000000.

(** The UART driver, the timer and the scheduler.  [uart_read_bytes size ticks]
    yields the bytes it put into the caller's buffer, [None] on failure. *)
Record serial_driver (W : Type) := mk_serial_driver {
  uart_param_config : io W esp_err_t;
  uart_set_pin : io W esp_err_t;
  uart_driver_install : Z -> Z -> io W esp_err_t;
  uart_set_rx_full_threshold : Z -> io W esp_err_t;
  uart_driver_delete : io W esp_err_t;
  uart_is_driver_installed : io W bool;
  uart_wait_tx_done : Z -> io W esp_err_t;
  uart_set_baudrate : Z -> io W esp_err_t;
  uart_flush_input : io W esp_err_t;
  uart_flush : io W unit;
  uart_write_bytes : list Z -> io W Z;
  uart_read_bytes : Z -> Z -> io W (option (list Z));
  esp_timer_get_time : io W Z;
  vTaskDelay : Z -> io W unit;
  pdMS_TO_TICKS : Z -> Z;
  portTICK_PERIOD_MS : Z;
}.
Arguments uart_param_config {W}.
Arguments uart_set_pin {W}.
Arguments uart_driver_install {W}.
Arguments uart_set_rx_full_threshold {W}.
Arguments uart_driver_delete {W}.
Arguments uart_is_driver_installed {W}.
Arguments uart_wait_tx_done {W}.
Arguments uart_set_baudrate {W}.
Arguments uart_flush_input {W}.
Arguments uart_flush {W}.
Arguments uart_write_bytes {W}.
Arguments uart_read_bytes {W}.
Arguments esp_timer_get_time {W}.
Arguments vTaskDelay {W}.
Arguments pdMS_TO_TICKS {W}.
Arguments portTICK_PERIOD_MS {W}.

Section serial.
Context {W : Type} (d : serial_driver W).

Definition is_ok (err : esp_err_t) : bool := bool_decide (err = ESP_OK).

Definition SERIAL_init : io W esp_err_t :=
  let! err := uart_param_config d in
  if negb (is_ok err) then io_ret err
  else
    let! err := uart_set_pin d in
    if negb (is_ok err) then io_ret err
    else
      let! err := uart_driver_install d SERIAL_RX_BUFFER_BYTES SERIAL_TX_BUFFER_BYTES in
      if negb (is_ok err) then io_ret err
      else
        let! err := uart_set_rx_full_threshold d SERIAL_RX_FIFO_FULL_THRESHOLD in
        if negb (is_ok err) then
          let! _ := uart_driver_delete d in io_ret err
        else io_ret ESP_OK.

Definition SERIAL_is_initialized : io W bool := uart_is_driver_installed d.

Definition SERIAL_set_baud (baud : Z) : io W esp_err_t :=
  let! err := uart_wait_tx_done d (1000 / portTICK_PERIOD_MS d) in
  if negb (is_ok err) then io_ret err else uart_set_baudrate d baud.

(** [pdMS_TO_TICKS], rounding a positive time to at least one tick. *)
Definition timeout_ticks (timeout_ms : Z) : Z :=
  if timeout_ms =? 0 then 0
  else let ticks := pdMS_TO_TICKS d timeout_ms in if ticks =? 0 then 1 else ticks.

Definition SERIAL_wait_tx_done (timeout_ms : Z) : io W esp_err_t :=
  let! installed := SERIAL_is_initialized in
  if negb installed then io_ret ESP_ERR_INVALID_STATE
  else
    let ticks := pdMS_TO_TICKS d timeout_ms in
    uart_wait_tx_done d (if negb (timeout_ms =? 0) && (ticks =? 0) then 1 else ticks).

Definition SERIAL_ensure_initialized (baud : Z) : io W esp_err_t :=
  let! installed := SERIAL_is_initialized in
  let! err := if negb installed then SERIAL_init else io_ret ESP_OK in
  if negb (is_ok err) then io_ret err else SERIAL_set_baud baud.

Definition SERIAL_prepare_session (baud : Z) : io W esp_err_t :=
  let! err := SERIAL_ensure_initialized baud in
  if negb (is_ok err) then io_ret err else uart_flush_input d.

Definition SERIAL_send (data : list Z) : io W Z := uart_write_bytes d data.

(** A count converted to [int16_t]. *)
Definition to_int16 (n : Z) : Z :=
  let v := u16 n in if v <? 32768 then v else v - 65536.

(** The returned count and the bytes put into the buffer. *)
Definition SERIAL_rx (size timeout_ms : Z) : io W (Z * list Z) :=
  if size =? 0 then io_ret (-1, [])
  else
    let! installed := SERIAL_is_initialized in
    if negb installed then io_ret (-1, [])
    else
      let! bytes := uart_read_bytes d size (timeout_ticks timeout_ms) in
      io_ret (match bytes with
              | Some bytes => (to_int16 (Z.of_nat (length bytes)), bytes)
              | None => (-1, [])
              end).

Definition SERIAL_clear_buffer : io W unit := uart_flush d.
End serial.
