(* ===== verification/Transport.v ===== *)
(** * The serial transport of the ASIC chain

    Models src/components/asic/bzm_transport.c with its header: the nine-bit
    command encoding, chain discovery, the partition of the nonce space, the
    demultiplexing of received frames into the result queue, the pending
    register reply, the telemetry store and the NOOP probe, and the bounded
    polling loops, over the serial link ([Serial]).

    The parser's context is the transport that contains it; here it is the
    transport's [io] structure less the parser, so [io_of] reads it out of the
    parser.  Every function holds the io lock while it touches that structure,
    and is one sequential program here.  Loops that wait carry fuel; [None]
    means it ran out.  A [NULL] argument is not modelled. *)

From S2P Require Import Prelude Float32 Topology FrameParser JobStore Work Telemetry Reactor Serial.
Open Scope prog_scope.
Open Scope Z_scope.

(** ** Data *)

Definition BZM_PENDING_RESULT_COUNT : nat := 256.
Definition BZM_REGISTER_REPLY_TIMEOUT_US : Z := 1000000.

Definition bzm_result_queue_capacity_covers (result_capacity results_per_second blackout_ms : Z) : bool :=
  results_per_second * blackout_ms <=? result_capacity * 1000.

Record bzm_serial_io_state_t := mk_serial_io {
  initialized : bool;
  telemetry : bzm_telemetry_store_t;
  pending_results : list bzm_raw_result_t;
  pending_result_head : nat;
  pending_result_length : nat;
  dropped_results : Z;
  rejected_result_frames : Z;
  register_pending : bool;
  register_ready : bool;
  register_asic_id : Z;
  register_length : nat;
  register_data : list Z;
  unmatched_register_frames : Z;
  noop_pending : bool;
  noop_ready : bool;
  noop_asic_id : Z;
  unsolicited_noop_frames : Z;
  invalid_noop_frames : Z;
  telemetry_decode_failures : Z;
}.
#[export] Instance bzm_serial_io_state_t_eta : Eta bzm_serial_io_state_t :=
  fun s => mk_serial_io (initialized s) (telemetry s) (pending_results s) (pending_result_head s)
    (pending_result_length s) (dropped_results s) (rejected_result_frames s) (register_pending s)
    (register_ready s) (register_asic_id s) (register_length s) (register_data s)
    (unmatched_register_frames s) (noop_pending s) (noop_ready s) (noop_asic_id s)
    (unsolicited_noop_frames s) (invalid_noop_frames s) (telemetry_decode_failures s).

Record bzm_serial_transport_t := mk_serial_transport {
  serial_asic_ids : list Z;
  asic_count : nat;
  serial_engine_count : Z;
  serial_enhanced_mode : bool;
  parser : bzm_frame_parser_t bzm_serial_io_state_t;
}.
#[export] Instance bzm_serial_transport_t_eta : Eta bzm_serial_transport_t :=
  fun t => mk_serial_transport (serial_asic_ids t) (asic_count t) (serial_engine_count t)
    (serial_enhanced_mode t) (parser t).

Definition io_of (t : bzm_serial_transport_t) : bzm_serial_io_state_t := handler_context (parser t).
Definition set_io (t : bzm_serial_transport_t) (s : bzm_serial_io_state_t) : bzm_serial_transport_t :=
  t <| parser := (parser t) <| handler_context := s |> |>.

Record bzm_serial_parser_stats_t := mk_parser_stats {
  stats_emitted_frames : Z;
  stats_discarded_bytes : Z;
  stats_emitted_frames_at_last_discard : Z;
  stats_unexpected_register_headers : Z;
  stats_dropped_results : Z;
  stats_rejected_result_frames : Z;
  stats_unmatched_register_frames : Z;
  stats_unsolicited_noop_frames : Z;
  stats_invalid_noop_frames : Z;
  stats_telemetry_decode_failures : Z;
  buffered_bytes : nat;
  queued_results : nat;
  recent_discarded_bytes : list Z;
}.

Inductive bzm_serial_probe_result_t :=
| BZM_SERIAL_PROBE_RESPONSE | BZM_SERIAL_PROBE_NO_RESPONSE | BZM_SERIAL_PROBE_IO_ERROR.
#[export] Instance bzm_serial_probe_result_t_eq_dec : EqDecision bzm_serial_probe_result_t.
Proof. solve_decision. Defined.

Definition zero_raw_result : bzm_raw_result_t :=
  {| raw_asic_id := 0; raw_engine_id := 0; Work.status := 0; nonce := 0; sequence_id := 0; time := 0;
     Work.timestamp_us := 0 |}.

Definition zero_io : bzm_serial_io_state_t :=
  {| initialized := false; telemetry := replicate 4 (zero_sample 0);
     pending_results := replicate BZM_PENDING_RESULT_COUNT zero_raw_result;
     pending_result_head := 0; pending_result_length := 0; dropped_results := 0;
     rejected_result_frames := 0; register_pending := false; register_ready := false;
     register_asic_id := 0; register_length := 0;
     register_data := replicate BZM_TDM_MAX_REGISTER_PAYLOAD_SIZE 0; unmatched_register_frames := 0;
     noop_pending := false; noop_ready := false; noop_asic_id := 0; unsolicited_noop_frames := 0;
     invalid_noop_frames := 0; telemetry_decode_failures := 0 |}.

(** ** Received frames *)

Definition addressed_asic (id : Z) : bool := bool_decide (is_Some (bzm_topology_asic_index id)).

(** The oldest result gives way when the queue is full. *)
Definition queue_result_locked (s : bzm_serial_io_state_t) (result : bzm_raw_result_t)
    : bzm_serial_io_state_t :=
  let s :=
    if (pending_result_length s =? BZM_PENDING_RESULT_COUNT)%nat then
      s <| pending_result_head := ((pending_result_head s + 1) mod BZM_PENDING_RESULT_COUNT)%nat;
           pending_result_length := (pending_result_length s - 1)%nat;
           dropped_results := u32 (dropped_results s + 1) |>
    else s in
  let tail := ((pending_result_head s + pending_result_length s) mod BZM_PENDING_RESULT_COUNT)%nat in
  s <| pending_results := <[tail := result]> (pending_results s);
       pending_result_length := (pending_result_length s + 1)%nat |>.

(** The memory of a string literal. *)
Definition noop_identity : list Z := [50; 90; 66].

Definition transport_frame_handler (s : bzm_serial_io_state_t) (frame : bzm_frame_t)
    : bzm_serial_io_state_t :=
  if type frame =? BZM_FRAME_RESULT then
    match addressed_asic (asic_id frame), bzm_result_decode (Some (payload frame)) (FrameParser.timestamp_us frame) with
    | true, (true, Some result) => queue_result_locked s (result <| raw_asic_id := asic_id frame |>)
    | _, _ => s <| rejected_result_frames := u32 (rejected_result_frames s + 1) |>
    end
  else if type frame =? BZM_FRAME_REGISTER then
    if negb (register_pending s) || negb (asic_id frame =? register_asic_id s) ||
       negb (payload_length frame =? register_length s)%nat
    then s <| unmatched_register_frames := u32 (unmatched_register_frames s + 1) |>
    else s <| register_data := take (payload_length frame) (payload frame) ++
                               drop (payload_length frame) (register_data s);
              register_ready := true |>
  else if type frame =? BZM_FRAME_TELEMETRY then
    match bzm_telemetry_store_apply_frame (telemetry s) frame with
    | (true, store) => s <| telemetry := store |>
    | (false, _) => s <| telemetry_decode_failures := u32 (telemetry_decode_failures s + 1) |>
    end
  else if type frame =? BZM_FRAME_NOOP then
    if negb (payload_length frame =? BZM_TDM_NOOP_PAYLOAD_SIZE)%nat ||
       negb (bool_decide (take 3 (payload frame) = noop_identity))
    then s <| invalid_noop_frames := u32 (invalid_noop_frames s + 1) |>
    else if negb (noop_pending s) ||
            (negb (noop_asic_id s =? FrameParser.BZM_BROADCAST_ASIC) && negb (noop_asic_id s =? asic_id frame))
    then s <| unsolicited_noop_frames := u32 (unsolicited_noop_frames s + 1) |>
    else s <| noop_ready := true |>
  else s.

Definition bzm_serial_transport_init (t : bzm_serial_transport_t) (lock_ok : bool)
    : bool * bzm_serial_transport_t :=
  if initialized (io_of t) then (true, t)
  else if negb lock_ok then (false, t <| parser := bzm_frame_parser_init None zero_io |>)
  else
    (true, t <| parser := bzm_frame_parser_init (Some transport_frame_handler)
                            (zero_io <| initialized := true; telemetry := bzm_telemetry_store_init |>) |>).

Definition bzm_serial_transport_deinit (t : bzm_serial_transport_t) : bzm_serial_transport_t :=
  if negb (initialized (io_of t)) then t
  else t <| parser := (bzm_frame_parser_init None zero_io) |>.

Definition reset_io_state (t : bzm_serial_transport_t) (reset_telemetry reset_counters : bool)
    : bzm_serial_transport_t :=
  let s := (io_of t) <| pending_result_head := 0%nat; pending_result_length := 0%nat;
                        register_pending := false; register_ready := false;
                        noop_pending := false; noop_ready := false |> in
  let p := (parser t) <| buffered_length := 0%nat;
                         expected_register_length := replicate 4 0%nat |> in
  let s := if reset_telemetry then s <| telemetry := bzm_telemetry_store_init |> else s in
  if reset_counters then
    let p := p <| emitted_frames := 0; discarded_bytes := 0; emitted_frames_at_last_discard := 0;
                  unexpected_register_headers := 0; discard_trace_next := 0%nat;
                  discard_trace_length := 0%nat |> in
    let s := s <| dropped_results := 0; rejected_result_frames := 0; unmatched_register_frames := 0;
                  unsolicited_noop_frames := 0; invalid_noop_frames := 0;
                  telemetry_decode_failures := 0 |> in
    t <| parser := p <| handler_context := s |> |>
  else t <| parser := p <| handler_context := s |> |>.

(** ** Commands *)

(** The two bytes of a nine-bit word. *)
Definition word_bytes (word : Z) : list Z := [Z.land word 0xff; Z.land (Z.shiftr word 8) 0x01].

(** [append_word] for a sequence of words; [None] when the buffer is too small. *)
Fixpoint append_words (words : list Z) (encoded : list Z) (capacity : nat) : option (list Z) :=
  match words with
  | [] => Some encoded
  | word :: words =>
      if (capacity <? length encoded + 2)%nat then None
      else append_words words (encoded ++ word_bytes word) capacity
  end.

(** The encoded command; empty when it is refused. *)
Definition bzm_transport_encode_write (id engine offset : Z) (data : list Z) (capacity : nat) : list Z :=
  if (length data =? 0)%nat || (256 <? length data)%nat || (BZM_MAX_ENGINE_COUNT <=? engine) then []
  else
    default [] (append_words
      ([Z.lor 0x100 id; Z.lor 0x020 (Z.land (Z.shiftr engine 8) 0x0f); Z.land engine 0xff; offset;
        Z.of_nat (length data) - 1] ++ data ++ [0]) [] capacity).

Definition bzm_transport_encode_read (id engine offset : Z) (data_len : nat) (capacity : nat) : list Z :=
  if (data_len =? 0)%nat || (256 <? data_len)%nat || (BZM_MAX_ENGINE_COUNT <=? engine) then []
  else
    default [] (append_words
      [Z.lor 0x100 id; Z.lor 0x030 (Z.land (Z.shiftr engine 8) 0x0f); Z.land engine 0xff; offset;
       Z.of_nat data_len - 1; 0] [] capacity).

Definition bzm_transport_encode_noop (id : Z) (capacity : nat) : list Z :=
  default [] (append_words [Z.lor 0x100 id; 0x0f0] [] capacity).

(** ** The nonce space *)

Definition bzm_partition_nonce_range (starting_nonce end_nonce : Z) (partition partition_count : nat)
    : option (Z * Z) :=
  if (partition_count =? 0)%nat || (partition_count <=? partition)%nat || (end_nonce <? starting_nonce)
  then None
  else
    let nonce_count := end_nonce - starting_nonce + 1 in
    let nonce_step := nonce_count / Z.of_nat partition_count in
    if nonce_step =? 0 then None
    else
      Some (u32 (starting_nonce + nonce_step * Z.of_nat partition),
            if (partition + 1 =? partition_count)%nat then end_nonce
            else u32 (starting_nonce + nonce_step * Z.of_nat (partition + 1) - 1)).

(** ** Operations under the io lock *)

(** The frames emitted, and the transport after feeding its parser. *)
Definition bzm_serial_transport_ingest_bytes (t : bzm_serial_transport_t) (data : list Z)
    (timestamp : Z) : option (nat * bzm_serial_transport_t) :=
  if negb (initialized (io_of t)) then Some (0%nat, t)
  else
    match bzm_frame_parser_feed (parser t) data timestamp with
    | Some (emitted, p) => Some (emitted, t <| parser := p |>)
    | None => None
    end.

Definition dequeue_result (t : bzm_serial_transport_t) : option bzm_raw_result_t * bzm_serial_transport_t :=
  let s := io_of t in
  if negb (initialized s) || (pending_result_length s =? 0)%nat then (None, t)
  else
    (Some (nth (pending_result_head s) (pending_results s) zero_raw_result),
     set_io t (s <| pending_result_head := ((pending_result_head s + 1) mod BZM_PENDING_RESULT_COUNT)%nat;
                    pending_result_length := (pending_result_length s - 1)%nat |>)).

Definition bzm_serial_discard_pending_results (t : bzm_serial_transport_t) : bzm_serial_transport_t :=
  let s := io_of t in
  if negb (initialized s) then t
  else set_io t (s <| pending_result_head := 0%nat; pending_result_length := 0%nat |>).

Definition bzm_serial_expect_register_reply (t : bzm_serial_transport_t) (id : Z) (length : nat)
    : bool * bzm_serial_transport_t :=
  let s := io_of t in
  if negb (initialized s) || negb (addressed_asic id) || (length =? 0)%nat ||
     (BZM_TDM_MAX_REGISTER_PAYLOAD_SIZE <? length)%nat
  then (false, t)
  else if register_pending s then (false, t)
  else
    match bzm_frame_parser_expect_register (parser t) id length with
    | (true, p) =>
        (true, set_io (t <| parser := p |>)
                 (s <| register_pending := true; register_ready := false;
                       register_asic_id := id; register_length := length |>))
    | (false, p) => (false, t <| parser := p |>)
    end.

Definition bzm_serial_take_register_reply (t : bzm_serial_transport_t) (id : Z) (data_length : nat)
    : option (list Z) * bzm_serial_transport_t :=
  let s := io_of t in
  if negb (initialized s) then (None, t)
  else if register_pending s && register_ready s && (register_asic_id s =? id) &&
          (register_length s =? data_length)%nat
  then (Some (take data_length (register_data s)),
        set_io t (s <| register_pending := false; register_ready := false; register_length := 0%nat |>))
  else (None, t).

Definition bzm_serial_cancel_register_reply (t : bzm_serial_transport_t) (id : Z)
    : bool * bzm_serial_transport_t :=
  let s := io_of t in
  if negb (initialized s) then (false, t)
  else if register_pending s && (register_asic_id s =? id) then
    let t := t <| parser := snd (bzm_frame_parser_cancel_register (parser t) id) |> in
    (true, set_io t (s <| register_pending := false; register_ready := false; register_length := 0%nat |>))
  else (false, t).

(** The sample copied out, and whether one was received. *)
Definition bzm_serial_get_telemetry (t : bzm_serial_transport_t) (id : Z)
    : bool * option bzm_telemetry_sample_t :=
  if negb (initialized (io_of t)) || negb (addressed_asic id) then (false, None)
  else
    match bzm_telemetry_store_get (telemetry (io_of t)) id with
    | Some stored => (received stored, Some stored)
    | None => (false, None)
    end.

Definition bzm_serial_get_telemetry_snapshot (t : bzm_serial_transport_t) : option bzm_telemetry_store_t :=
  if negb (initialized (io_of t)) then None else Some (telemetry (io_of t)).

Definition bzm_serial_get_parser_stats (t : bzm_serial_transport_t) : option bzm_serial_parser_stats_t :=
  let s := io_of t in
  let p := parser t in
  if negb (initialized s) then None
  else
    Some {| stats_emitted_frames := emitted_frames p; stats_discarded_bytes := discarded_bytes p;
            stats_emitted_frames_at_last_discard := emitted_frames_at_last_discard p;
            stats_unexpected_register_headers := unexpected_register_headers p;
            stats_dropped_results := dropped_results s;
            stats_rejected_result_frames := rejected_result_frames s;
            stats_unmatched_register_frames := unmatched_register_frames s;
            stats_unsolicited_noop_frames := unsolicited_noop_frames s;
            stats_invalid_noop_frames := invalid_noop_frames s;
            stats_telemetry_decode_failures := telemetry_decode_failures s;
            buffered_bytes := buffered_length p;
            queued_results := pending_result_length s;
            recent_discarded_bytes :=
              bzm_frame_parser_recent_discards p BZM_FRAME_PARSER_DISCARD_TRACE_SIZE |}.

Definition clear_partial_frame (t : bzm_serial_transport_t) : bzm_serial_transport_t :=
  t <| parser := (parser t) <| buffered_length := 0%nat |> |>.

(** ** Programs over the link *)

Record bzm_chain_ops_t (V : Type) := mk_chain_ops {
  op_noop : option (Z -> prog V bool);
  op_write_register : option (Z -> Z -> Z -> list Z -> prog V bool);
  op_read_register : option (Z -> Z -> Z -> nat -> prog V (option (list Z)));
  op_delay_ms : option (Z -> prog V unit);
}.
Arguments mk_chain_ops {V}.
Arguments op_noop {V}.
Arguments op_write_register {V}.
Arguments op_read_register {V}.
Arguments op_delay_ms {V}.

(** The identifiers confirmed so far, in chain order. *)
Fixpoint discover_loop {V} (noop : Z -> prog V bool) (write : Z -> Z -> Z -> list Z -> prog V bool)
    (read : Z -> Z -> Z -> nat -> prog V (option (list Z))) (delay : option (Z -> prog V unit))
    (indices : list nat) (detected : list Z) : prog V (list Z) :=
  match indices with
  | [] => prog_ret detected
  | i :: indices =>
      let id := byte_at bzm_asic_wire_ids i in
      let link := if (i =? 0)%nat then 0 else 1 in
      let? answered := noop Work.BZM_BROADCAST_ASIC in
      if negb answered then prog_ret detected
      else
        let? written := write Work.BZM_BROADCAST_ASIC BZM_CONTROL_ENGINE_ID BZM_REG_ASIC_ID [id; link; 0; 0] in
        if negb written then prog_ret detected
        else
          let? _ := match delay with Some delay => delay 200 | None => prog_ret tt end in
          let? readback := read id BZM_CONTROL_ENGINE_ID BZM_REG_ASIC_ID 4%nat in
          match readback with
          | None => prog_ret detected
          | Some bytes =>
              if negb (byte_at bytes 0 =? id) || negb (Z.land (byte_at bytes 1) 0x01 =? link)
              then prog_ret detected
              else discover_loop noop write read delay indices (detected ++ [id])
          end
  end.

Definition bzm_discover_chain {V} (expected_count : nat) (capacity : nat) (ops : bzm_chain_ops_t V)
    : prog V (list Z) :=
  match op_noop ops, op_write_register ops, op_read_register ops with
  | Some noop, Some write, Some read =>
      if (expected_count =? 0)%nat || (Z.to_nat BZM_MAX_ASIC_COUNT <? expected_count)%nat ||
         (capacity <? expected_count)%nat
      then prog_ret []
      else discover_loop noop write read (op_delay_ms ops) (seq 0 expected_count) []
  | _, _, _ => prog_ret []
  end.

Definition BZM_POLL_BUFFER_SIZE : Z := 128.
Definition BZM_POLL_MAX_DRAIN_BYTES : Z := SERIAL_RX_BUFFER_BYTES.

Section link.
Context {W : Type} (d : serial_driver W) (fuel : nat).

(** The transport together with the world behind the serial driver. *)
Abbreviation link := (bzm_serial_transport_t * W)%type.

Definition serial {A} (m : io W A) : prog link A :=
  fun '(t, w) => let '(a, w') := m w in Some (a, (t, w')).
Definition get_transport : prog link bzm_serial_transport_t := fun '(t, w) => Some (t, (t, w)).
Definition put_transport (t : bzm_serial_transport_t) : prog link unit := fun '(_, w) => Some (tt, (t, w)).
(** An operation on the transport that returns a value. *)
Definition locked {A} (f : bzm_serial_transport_t -> A * bzm_serial_transport_t) : prog link A :=
  fun '(t, w) => let '(a, t') := f t in Some (a, (t', w)).
Definition modify (f : bzm_serial_transport_t -> bzm_serial_transport_t) : prog link unit :=
  fun '(t, w) => Some (tt, (f t, w)).
Definition ingest (data : list Z) (timestamp : Z) : prog link nat :=
  fun '(t, w) =>
    match bzm_serial_transport_ingest_bytes t data timestamp with
    | Some (emitted, t') => Some (emitted, (t', w))
    | None => None
    end.

Definition serial_write_register_raw (id engine offset : Z) (data : list Z) : io W bool :=
  if (32 <? length data)%nat then io_ret false
  else
    let encoded := bzm_transport_encode_write id engine offset data 76 in
    if (length encoded =? 0)%nat then io_ret false
    else fun w => let '(sent, w) := SERIAL_send d encoded w in (sent =? Z.of_nat (length encoded), w).

Definition bzm_serial_write_register (t : bzm_serial_transport_t) (engine offset : Z) (data : list Z)
    : io W bool :=
  if (asic_count t =? 0)%nat then io_ret false
  else serial_write_register_raw (byte_at (serial_asic_ids t) 0) engine offset data.

Definition bzm_serial_write_register_to (id engine offset : Z) (data : list Z) : io W bool :=
  serial_write_register_raw id engine offset data.

(** [reader(context, received, size, timeout_ms)] *)
Definition bzm_serial_reader_t : Type := Z -> Z -> io W (Z * list Z).

Fixpoint poll_loop (fuel : nat) (reader : bzm_serial_reader_t) (length : Z) (received : list Z)
    (total_bytes : Z) (emitted : nat) : prog link nat :=
  if (0 <? length) && (total_bytes <? BZM_POLL_MAX_DRAIN_BYTES) then
    match fuel with
    | O => fun _ => None
    | S fuel =>
        if (BZM_POLL_BUFFER_SIZE <? length) || (BZM_POLL_MAX_DRAIN_BYTES - total_bytes <? length)
        then prog_ret emitted
        else
          let? now := serial (esp_timer_get_time d) in
          let? more := ingest (take (Z.to_nat length) received) now in
          let total_bytes := total_bytes + length in
          let capacity := Z.min BZM_POLL_BUFFER_SIZE (BZM_POLL_MAX_DRAIN_BYTES - total_bytes) in
          if capacity =? 0 then prog_ret (emitted + more)%nat
          else
            let? (length, received) := serial (reader capacity 0) in
            poll_loop fuel reader length received total_bytes (emitted + more)%nat
    end
  else prog_ret emitted.

(** At most [BZM_POLL_MAX_DRAIN_BYTES] iterations: each accepts a byte. *)
Definition bzm_serial_poll_with_reader (timeout_ms : Z) (reader : bzm_serial_reader_t) : prog link nat :=
  let? t := get_transport in
  if negb (initialized (io_of t)) || (timeout_ms =? 0) then prog_ret 0%nat
  else
    let? (length, received) := serial (reader 1 timeout_ms) in
    poll_loop (Z.to_nat BZM_POLL_MAX_DRAIN_BYTES) reader length received 0 0.

Definition bzm_serial_poll (timeout_ms : Z) : prog link nat :=
  bzm_serial_poll_with_reader timeout_ms (SERIAL_rx d).

Definition remaining_ms (deadline_us : Z) : io W Z :=
  fun w =>
    let '(now, w) := esp_timer_get_time d w in
    let remaining_us := deadline_us - now in
    (if remaining_us <=? 0 then 0
     else Z.min UINT16_MAX ((remaining_us + 999) / 1000), w).

(** *** The NOOP probe *)

Definition end_noop (t : bzm_serial_transport_t) : bzm_serial_transport_t :=
  set_io t ((io_of t) <| noop_pending := false; noop_ready := false |>).

(** [true] when a response was taken before the deadline. *)
Fixpoint noop_loop (fuel : nat) (deadline : Z) : prog link bool :=
  match fuel with
  | O => fun _ => None
  | S fuel =>
      let? t := get_transport in
      if noop_ready (io_of t) then
        let? _ := put_transport (end_noop t) in prog_ret true
      else
        let? wait_ms := serial (remaining_ms deadline) in
        if wait_ms =? 0 then prog_ret false
        else
          let? _ := bzm_serial_poll wait_ms in noop_loop fuel deadline
  end.

Definition bzm_serial_probe_noop (id : Z) : prog link bzm_serial_probe_result_t :=
  let? t := get_transport in
  let s := io_of t in
  if negb (initialized s) then prog_ret BZM_SERIAL_PROBE_IO_ERROR
  else if noop_pending s then prog_ret BZM_SERIAL_PROBE_IO_ERROR
  else
    let? _ := put_transport (set_io t (s <| noop_pending := true; noop_ready := false; noop_asic_id := id |>)) in
    let discarded_before := discarded_bytes (parser t) in
    let invalid_noop_before := invalid_noop_frames s in
    let request := bzm_transport_encode_noop id 4 in
    let? sent := if (length request =? 0)%nat then prog_ret 0 else serial (SERIAL_send d request) in
    if (length request =? 0)%nat || negb (sent =? Z.of_nat (length request)) then
      let? _ := modify end_noop in
      let? _ := serial (SERIAL_clear_buffer d) in
      let? _ := modify clear_partial_frame in
      prog_ret BZM_SERIAL_PROBE_IO_ERROR
    else
      let? now := serial (esp_timer_get_time d) in
      let? ready := noop_loop fuel (now + 150000) in
      if (ready : bool) then prog_ret BZM_SERIAL_PROBE_RESPONSE
      else
        let? t := get_transport in
        let malformed_response :=
          negb (discarded_bytes (parser t) =? discarded_before) ||
          negb (invalid_noop_frames (io_of t) =? invalid_noop_before) in
        let? _ := modify end_noop in
        let? _ := modify clear_partial_frame in
        prog_ret (if malformed_response then BZM_SERIAL_PROBE_IO_ERROR else BZM_SERIAL_PROBE_NO_RESPONSE).

(** *** Register reads *)

Fixpoint reply_loop (fuel : nat) (id : Z) (data_len : nat) (deadline : Z) : prog link (option (list Z)) :=
  match fuel with
  | O => fun _ => None
  | S fuel =>
      let? reply := locked (fun t => bzm_serial_take_register_reply t id data_len) in
      match reply with
      | Some data => prog_ret (Some data)
      | None =>
          let? wait_ms := serial (remaining_ms deadline) in
          if wait_ms =? 0 then prog_ret None
          else
            let? _ := bzm_serial_poll wait_ms in reply_loop fuel id data_len deadline
      end
  end.

Definition serial_read_register_op (id engine offset : Z) (data_len : nat) : prog link (option (list Z)) :=
  if (data_len =? 0)%nat || (BZM_TDM_MAX_REGISTER_PAYLOAD_SIZE <? data_len)%nat then prog_ret None
  else
    let? expected := locked (fun t => bzm_serial_expect_register_reply t id data_len) in
    if negb expected then prog_ret None
    else
      let request := bzm_transport_encode_read id engine offset data_len 12 in
      let? sent := if (length request =? 0)%nat then prog_ret 0 else serial (SERIAL_send d request) in
      if (length request =? 0)%nat || negb (sent =? Z.of_nat (length request)) then
        let? _ := locked (fun t => bzm_serial_cancel_register_reply t id) in prog_ret None
      else
        let? now := serial (esp_timer_get_time d) in
        let? received := reply_loop fuel id data_len (now + BZM_REGISTER_REPLY_TIMEOUT_US) in
        match received with
        | Some data => prog_ret (Some data)
        | None =>
            let? _ := locked (fun t => bzm_serial_cancel_register_reply t id) in
            let? _ := serial (SERIAL_clear_buffer d) in
            let? _ := modify clear_partial_frame in
            prog_ret None
        end.

Definition bzm_serial_read_register (id engine offset : Z) (data_len : nat) : prog link (option (list Z)) :=
  serial_read_register_op id engine offset data_len.

(** *** Discovery *)

Definition serial_noop (id : Z) : prog link bool :=
  let? result := bzm_serial_probe_noop id in
  prog_ret (bool_decide (result = BZM_SERIAL_PROBE_RESPONSE)).

Definition serial_write_register_op (id engine offset : Z) (data : list Z) : prog link bool :=
  serial (serial_write_register_raw id engine offset data).

Definition serial_delay_ms (delay_ms : Z) : prog link unit :=
  serial (vTaskDelay d (pdMS_TO_TICKS d delay_ms)).

Definition serial_chain_ops : bzm_chain_ops_t link :=
  {| op_noop := Some serial_noop; op_write_register := Some serial_write_register_op;
     op_read_register := Some serial_read_register_op; op_delay_ms := Some serial_delay_ms |}.

Definition bzm_serial_discover_chain (expected_count : nat) (lock_ok : bool) : prog link nat :=
  let? ready := locked (fun t => bzm_serial_transport_init t lock_ok) in
  if negb ready then prog_ret 0%nat
  else
    let? _ := serial (SERIAL_clear_buffer d) in
    let? _ := modify (fun t => reset_io_state t true true) in
    let? ids := bzm_discover_chain expected_count (Z.to_nat BZM_MAX_ASIC_COUNT) serial_chain_ops in
    let? t := get_transport in
    let? _ := put_transport
                (t <| serial_asic_ids := ids ++ drop (length ids) (serial_asic_ids t);
                      asic_count := length ids |>) in
    prog_ret (length ids).

(** *** Work *)

(** The nonce range of each ASIC, then the common job for all of them. *)
Fixpoint write_ranges (ids : list Z) (i count : nat) (w : bzm_work_t) : io W bool :=
  match ids with
  | [] => io_ret true
  | id :: ids =>
      match bzm_partition_nonce_range (work_starting_nonce w) (end_nonce w) i count with
      | None => io_ret false
      | Some (first, last) =>
          io_bind (serial_write_register_raw id (engine_id w) BZM_REG_START_NONCE (write_le32 first)) (fun ok =>
          if negb ok then io_ret false
          else
            io_bind (serial_write_register_raw id (engine_id w) BZM_REG_END_NONCE (write_le32 last)) (fun ok =>
            if negb ok then io_ret false else write_ranges ids (S i) count w))
      end
  end.

Definition serial_register_writer (id : Z) : bzm_register_writer_t W :=
  fun engine offset data => serial_write_register_raw id engine offset data.

Definition bzm_serial_write_work (t : bzm_serial_transport_t) (w : bzm_work_t) : io W bool :=
  if (asic_count t =? 0)%nat then io_ret false
  else
    io_bind (write_ranges (take (asic_count t) (serial_asic_ids t)) 0 (asic_count t) w) (fun ok =>
    if negb ok then io_ret false
    else bzm_transport_program_broadcast_work (Some w) (Some (serial_register_writer BZM_ALL_ASICS))).

Definition bzm_serial_flush : io link bool :=
  fun '(t, w) =>
    let '(success, w) :=
      if (asic_count t =? 0)%nat then (false, w)
      else bzm_transport_program_flush (serial_engine_count t) (serial_enhanced_mode t)
             (Some (serial_register_writer BZM_ALL_ASICS)) w in
    let '(_, w) := SERIAL_clear_buffer d w in
    (success, (if initialized (io_of t) then reset_io_state t false false else t, w)).

Definition BZM_SERIAL_TRANSPORT_OPS : bzm_transport_ops_t link :=
  {| write_work := fun work '(t, w) => let '(ok, w) := bzm_serial_write_work t work w in (ok, (t, w));
     dispatch_checkpoint := None;
     flush := Some bzm_serial_flush |}.

(** *** Results *)

Fixpoint result_loop (fuel : nat) (deadline : Z) : prog link (option bzm_raw_result_t) :=
  match fuel with
  | O => fun _ => None
  | S fuel =>
      let? wait_ms := serial (remaining_ms deadline) in
      if wait_ms =? 0 then prog_ret None
      else
        let? _ := bzm_serial_poll wait_ms in
        let? result := locked dequeue_result in
        match result with
        | Some result => prog_ret (Some result)
        | None => result_loop fuel deadline
        end
  end.

Definition bzm_serial_read_result (timeout_ms : Z) : prog link (option bzm_raw_result_t) :=
  let? t := get_transport in
  if negb (initialized (io_of t)) then prog_ret None
  else
    let? result := locked dequeue_result in
    match result with
    | Some result => prog_ret (Some result)
    | None =>
        let? now := serial (esp_timer_get_time d) in
        result_loop fuel (now + timeout_ms * 1000)
    end.
End link.

(** ** The nonce space is partitioned *)

(** The chain searches every nonce exactly once: for any range of nonces at
    least as large as the number of partitions, the partitions 0, 1, 2, ...
    are non-empty ranges, the first starts and the last ends where the range
    does, and each starts right after the one before it; nothing wraps.  A
    range with fewer nonces than partitions is refused, never searched twice. *)
Theorem transport_partitions_nonces first last count :
  0 <= first <= last -> last < 2 ^ 32 -> (0 < count)%nat ->
  if last - first + 1 <? Z.of_nat count
  then forall i, bzm_partition_nonce_range first last i count = None
  else
    exists bound : nat -> Z,
      bound O = first /\ bound count = last + 1 /\
      (forall i, (i < count)%nat -> bound i < bound (S i)) /\
      (forall i, (i < count)%nat ->
         bzm_partition_nonce_range first last i count = Some (bound i, bound (S i) - 1)) /\
      (forall i, (count <= i)%nat -> bzm_partition_nonce_range first last i count = None).
Proof.
  intros Hf Hl Hc. change (2 ^ 32) with 4294967296 in Hl. unfold bzm_partition_nonce_range.
  rewrite (proj2 (Nat.eqb_neq count 0)) by lia. rewrite (proj2 (Z.ltb_ge last first)) by lia. cbn [orb].
  set (total := last - first + 1). set (step := total / Z.of_nat count).
  assert (Hdm : total = Z.of_nat count * step + total mod Z.of_nat count) by (apply Z.div_mod; lia).
  pose proof (Z.mod_pos_bound total (Z.of_nat count) ltac:(lia)) as Hmod.
  destruct (Z.ltb_spec total (Z.of_nat count)).
  { intros i. unfold step. rewrite Z.div_small by lia. by destruct (count <=? i)%nat. }
  assert (Hstep : 1 <= step) by (apply Z.div_le_lower_bound; lia).
  exists (fun i => if (i <? count)%nat then first + step * Z.of_nat i else last + 1).
  rewrite (proj2 (Z.eqb_neq step 0)) by lia.
  split; [rewrite (proj2 (Nat.ltb_lt 0 count)) by lia; lia|].
  split; [by rewrite Nat.ltb_irrefl|].
  assert (Hbound : forall i, (i < count)%nat -> step * Z.of_nat i + step <= total) by (intros i Hi; nia).
  split_and!.
  - intros i Hi. rewrite (proj2 (Nat.ltb_lt i count)) by done. pose proof (Hbound i Hi).
    destruct (Nat.ltb_spec (S i) count); unfold total in *; lia.
  - intros i Hi. rewrite (proj2 (Nat.leb_gt count i)) by done. cbn [orb].
    rewrite (proj2 (Nat.ltb_lt i count)) by done. pose proof (Hbound i Hi).
    rewrite u32_small by (unfold total in *; lia). f_equal. f_equal. rewrite Nat.add_1_r.
    destruct (Nat.eqb_spec (S i) count) as [->|].
    + rewrite Nat.ltb_irrefl. lia.
    + rewrite (proj2 (Nat.ltb_lt (S i) count)) by lia. pose proof (Hbound (S i) ltac:(lia)).
      rewrite u32_small by (unfold total in *; lia). done.
  - intros i Hi. by rewrite (proj2 (Nat.leb_le count i)).
Qed.

(** ** The result queue *)

(** The newest [n] elements. *)
Definition newest {A} (n : nat) (l : list A) : list A := drop (length l - n) l.

Lemma newest_app {A} n (a b : list A) : newest n (newest n a ++ b) = newest n (a ++ b).
Proof.
  unfold newest. rewrite !length_app, length_drop. rewrite <- drop_app_le by lia.
  rewrite drop_drop. f_equal. lia.
Qed.

(** The [n] elements of a ring of 256 from index [h]. *)
Definition ring {A} (z : A) (l : list A) (h n : nat) : list A :=
  (fun k => nth ((h + k) mod BZM_PENDING_RESULT_COUNT)%nat l z) <$> seq 0 n.

Lemma ring_index h k : (h < 256)%nat -> (k <= 256)%nat ->
  ((h + k) mod BZM_PENDING_RESULT_COUNT)%nat = (if h + k <? 256 then h + k else h + k - 256)%nat.
Proof.
  intros Hh Hk. unfold BZM_PENDING_RESULT_COUNT. destruct (Nat.ltb_spec (h + k) 256).
  - by apply Nat.mod_small.
  - symmetry. apply (Nat.mod_unique _ _ 1); lia.
Qed.

Lemma ring_ext {A} (z : A) l l' h h' n :
  (forall k, (k < n)%nat ->
    nth ((h + k) mod BZM_PENDING_RESULT_COUNT)%nat l z = nth ((h' + k) mod BZM_PENDING_RESULT_COUNT)%nat l' z) ->
  ring z l h n = ring z l' h' n.
Proof. intros H. apply list_fmap_ext. intros i k Hk. apply lookup_seq in Hk as [-> Hk]. by apply H. Qed.

Lemma ring_push {A} (z r : A) l h n :
  length l = 256%nat -> (h < 256)%nat -> (n < 256)%nat ->
  ring z (<[((h + n) mod BZM_PENDING_RESULT_COUNT)%nat := r]> l) h (n + 1) = ring z l h n ++ [r].
Proof.
  intros Hl Hh Hn. unfold ring at 1. rewrite Nat.add_1_r, seq_S, fmap_app. cbn [fmap list_fmap Nat.add]. f_equal.
  - apply ring_ext. intros k Hk. rewrite !nth_lookup. rewrite list_lookup_insert_ne; [done|].
    rewrite !ring_index by lia. destruct (Nat.ltb_spec (h + n) 256), (Nat.ltb_spec (h + k) 256); lia.
  - f_equal. rewrite nth_lookup, list_lookup_insert_eq; [done|].
    rewrite ring_index by lia. destruct (Nat.ltb_spec (h + n) 256); lia.
Qed.

Lemma ring_pop {A} (z : A) l h n :
  (h < 256)%nat -> (0 < n <= 256)%nat ->
  ring z l h n = nth h l z :: ring z l ((h + 1) mod BZM_PENDING_RESULT_COUNT)%nat (n - 1).
Proof.
  intros Hh Hn. destruct n as [|n]; [lia|]. unfold ring at 1. cbn [seq fmap list_fmap].
  rewrite ring_index by lia. rewrite Nat.add_0_r, (proj2 (Nat.ltb_lt h 256)) by done. f_equal.
  rewrite <- fmap_S_seq, <- list_fmap_compose. replace (S n - 1)%nat with n by lia.
  apply list_fmap_ext. intros i k Hk. apply lookup_seq in Hk as [-> Hk]. cbn [compose].
  f_equal. rewrite (ring_index h 1) by lia.
  destruct (Nat.ltb_spec (h + 1) 256).
  - rewrite !ring_index by lia. replace (h + 1 + (0 + i))%nat with (h + S (0 + i))%nat by lia. done.
  - rewrite !ring_index by lia. destruct (Nat.ltb_spec (h + S (0 + i)) 256), (Nat.ltb_spec (h + 1 - 256 + (0 + i)) 256); lia.
Qed.

Lemma length_ring {A} (z : A) l h n : length (ring z l h n) = n.
Proof. unfold ring. by rewrite length_fmap, length_seq. Qed.

Definition queued (s : bzm_serial_io_state_t) : list bzm_raw_result_t :=
  ring zero_raw_result (pending_results s) (pending_result_head s) (pending_result_length s).

Record io_ok (s : bzm_serial_io_state_t) : Prop := {
  iok_results : length (pending_results s) = 256%nat;
  iok_head : (pending_result_head s < 256)%nat;
  iok_length : (pending_result_length s <= 256)%nat;
  iok_register : length (register_data s) = 32%nat;
}.

Lemma queue_result_spec s r :
  io_ok s ->
  let s' := queue_result_locked s r in
  io_ok s' /\ queued s' = newest 256 (queued s ++ [r]) /\
  dropped_results s' =
    (if (length (queued s ++ [r]) <=? 256)%nat then dropped_results s else u32 (dropped_results s + 1)).
Proof.
  intros Hok. pose proof Hok as [Hl Hh Hn Hd]. cbn zeta. unfold queue_result_locked, queued.
  rewrite length_app, length_ring. cbn [length].
  change (pending_result_length s =? BZM_PENDING_RESULT_COUNT)%nat with (pending_result_length s =? 256)%nat.
  assert (Hmod : forall n, (n mod BZM_PENDING_RESULT_COUNT < 256)%nat) by (intros n; apply Nat.mod_upper_bound; lia).
  destruct (Nat.eqb_spec (pending_result_length s) 256) as [E|E];
    cbn [set_field pending_results pending_result_head pending_result_length dropped_results register_data].
  - rewrite (proj2 (Nat.leb_gt _ _)) by lia. rewrite E.
    split; [split; cbn; rewrite ?length_insert; try done; try lia; apply Hmod|]. split; [|done].
    rewrite ring_push by (try done; lia). unfold newest.
    rewrite (ring_pop _ _ (pending_result_head s) 256) by lia. cbn [app length]. rewrite length_app, length_ring.
    cbn [length]. by replace (S (256 - 1 + 1) - 256)%nat with 1%nat by lia.
  - rewrite (proj2 (Nat.leb_le _ _)) by lia.
    split; [split; cbn; rewrite ?length_insert; try done; lia|]. split; [|done].
    rewrite ring_push by (try done; lia). unfold newest. rewrite length_app, length_ring. cbn [length].
    by replace (pending_result_length s + 1 - 256)%nat with 0%nat by lia.
Qed.

Lemma queued_eq s s' :
  pending_results s' = pending_results s -> pending_result_head s' = pending_result_head s ->
  pending_result_length s' = pending_result_length s -> queued s' = queued s.
Proof. unfold queued. by intros -> -> ->. Qed.

(** The result a frame carries, when the demultiplexer accepts it. *)
Definition result_of (f : bzm_frame_t) : option bzm_raw_result_t :=
  if type f =? BZM_FRAME_RESULT then
    match addressed_asic (asic_id f), bzm_result_decode (Some (payload f)) (FrameParser.timestamp_us f) with
    | true, (true, Some result) => Some (result <| raw_asic_id := asic_id f |>)
    | _, _ => None
    end
  else None.

(** *** The register request

    While a reply is awaited the parser expects exactly that reply; once it is
    there, or when none is awaited, the parser expects nothing. *)
Definition register_ok (s : bzm_serial_io_state_t) (expected : list nat) : Prop :=
  if register_pending s then
    exists i, bzm_topology_asic_index (register_asic_id s) = Some i /\
      (0 < register_length s <= 32)%nat /\
      expected = <[i := if register_ready s then 0%nat else register_length s]> (replicate 4 0%nat)
  else expected = replicate 4 0%nat.

Lemma register_ok_accepted s expected f :
  register_ok s expected -> frame_accepted expected f -> type f = BZM_FRAME_REGISTER ->
  register_pending s = true /\ register_ready s = false /\ asic_id f = register_asic_id s /\
  payload_length f = register_length s /\ after_frame expected f = replicate 4 0%nat.
Proof.
  intros Hr (Hs & _) Ht. rewrite Ht in Hs. apply payload_size_register in Hs as (j & Hj & Hn & Hne).
  pose proof (asic_index_lt _ _ Hj) as Hj4.
  assert (Hzero : forall k, nth k (replicate 4 0%nat) 0%nat = 0%nat) by (by intros [|[|[|[|[|k]]]]]).
  unfold register_ok in Hr. destruct (register_pending s); [|subst expected; by rewrite Hzero in Hn].
  destruct Hr as (i & Hi & Hl & ->). pose proof (asic_index_lt _ _ Hi) as Hi4.
  rewrite nth_insert in Hn. case_decide as Hd; [|by rewrite Hzero in Hn]. destruct Hd as [-> _].
  destruct (register_ready s); [by subst|].
  split_and!; try done; [by apply (asic_index_inj _ _ j)|].
  rewrite (after_frame_register _ _ j) by done. rewrite list_insert_insert_eq.
  by destruct j as [|[|[|[|j]]]]; [..|lia].
Qed.

(** What a received frame does to the state the polling programs depend on. *)
Record received_frames (s : bzm_serial_io_state_t) (fs : list bzm_frame_t) (s' : bzm_serial_io_state_t)
    : Prop := {
  rf_ok : io_ok s';
  rf_initialized : initialized s' = initialized s;
  rf_queued : queued s' = newest 256 (queued s ++ omap result_of fs);
  rf_dropped : u32 (dropped_results s') =
    u32 (dropped_results s + Z.of_nat (length (queued s ++ omap result_of fs) - 256));
  rf_pending : register_pending s' = register_pending s;
  rf_asic_id : register_asic_id s' = register_asic_id s;
  rf_length : register_length s' = register_length s;
  rf_reply : register_ready s' = true ->
    (register_ready s = true /\ register_data s' = register_data s) \/
    exists f, f ∈ fs /\ type f = BZM_FRAME_REGISTER /\ asic_id f = register_asic_id s /\
      payload_length f = register_length s /\
      take (register_length s) (register_data s') = take (payload_length f) (payload f);
  rf_ready : register_ready s' = false ->
    register_ready s = false /\ Forall (fun f => type f <> BZM_FRAME_REGISTER) fs;
}.

Lemma queued_length s : io_ok s -> (length (queued s) <= 256)%nat.
Proof. intros []. unfold queued. by rewrite length_ring. Qed.

Lemma newest_all {A} n (l : list A) : (length l <= n)%nat -> newest n l = l.
Proof. intros H. unfold newest. by replace (length l - n)%nat with 0%nat by lia. Qed.

Lemma length_newest {A} n (l : list A) : length (newest n l) = Nat.min n (length l).
Proof. unfold newest. rewrite length_drop. lia. Qed.

Lemma received_refl s : io_ok s -> received_frames s [] s.
Proof.
  intros H. pose proof (queued_length s H). split; cbn; try done.
  - rewrite app_nil_r. by rewrite newest_all.
  - rewrite app_nil_r. replace (length (queued s) - 256)%nat with 0%nat by lia. by rewrite Z.add_0_r.
  - by left.
Qed.

Lemma received_trans s fs s1 gs s2 :
  io_ok s -> received_frames s fs s1 -> received_frames s1 gs s2 -> received_frames s (fs ++ gs) s2.
Proof.
  intros Hs [O1 I1 Q1 D1 P1 A1 L1 R1 N1] [O2 I2 Q2 D2 P2 A2 L2 R2 N2].
  pose proof (queued_length s Hs) as Hq.
  split; rewrite ?omap_app; try congruence.
  - by rewrite Q2, Q1, newest_app, <- app_assoc.
  - rewrite D2, Q1. rewrite (u32_add_l _ _ _ D1), <- Z.add_assoc. do 2 f_equal.
    rewrite !length_app, length_newest, !length_app. lia.
  - intros Hr. destruct (R2 Hr) as [[H1 H2]|(f & Hf & Ht & Hid & Hl & Hd)].
    + destruct (R1 H1) as [[H3 H4]|(f & Hf & Ht & Hid & Hl & Hd)]; [left; split; congruence|].
      right. exists f. split_and!; try done; [apply elem_of_app; by left|by rewrite H2].
    + right. exists f. rewrite <- L1, <- A1. split_and!; try done. apply elem_of_app. by right.
  - intros [H1 H2]%N2. destruct (N1 H1) as [H3 H4]. split; [done|]. by apply Forall_app.
Qed.

Lemma received_quiet s f s' :
  io_ok s -> io_ok s' -> result_of f = None ->
  pending_results s' = pending_results s -> pending_result_head s' = pending_result_head s ->
  pending_result_length s' = pending_result_length s -> initialized s' = initialized s ->
  dropped_results s' = dropped_results s -> register_pending s' = register_pending s ->
  register_asic_id s' = register_asic_id s -> register_length s' = register_length s ->
  (register_ready s' = true ->
    (register_ready s = true /\ register_data s' = register_data s) \/
    (type f = BZM_FRAME_REGISTER /\ asic_id f = register_asic_id s /\
      payload_length f = register_length s /\
      take (register_length s) (register_data s') = take (payload_length f) (payload f))) ->
  (register_ready s' = false -> register_ready s = false /\ type f <> BZM_FRAME_REGISTER) ->
  received_frames s [f] s'.
Proof.
  intros Hs Hs' Hr H1 H2 H3 H4 H5 H6 H7 H8 H9 H10. pose proof (queued_length s Hs) as Hq.
  split; try done; cbn [omap list_omap]; rewrite ?Hr, ?app_nil_r.
  - rewrite newest_all by done. by apply queued_eq.
  - rewrite H5. replace (length (queued s) - 256)%nat with 0%nat by lia. by rewrite Z.add_0_r.
  - intros H. destruct (H9 H) as [?|(?&?&?&?)]; [by left|]. right. exists f. split; [|done]. by left.
  - intros [H ?]%H10. split; [done|]. by repeat constructor.
Qed.

Lemma received_result s f r :
  io_ok s -> result_of f = Some r -> received_frames s [f] (queue_result_locked s r).
Proof.
  intros Hs Hr. destruct (queue_result_spec s r Hs) as (Hok & Hq & Hd).
  pose proof (queued_length s Hs) as Hlen.
  assert (Heq : forall (P : bzm_serial_io_state_t -> Prop),
    (forall s' : bzm_serial_io_state_t, initialized s' = initialized s ->
       register_pending s' = register_pending s -> register_asic_id s' = register_asic_id s ->
       register_length s' = register_length s -> register_ready s' = register_ready s ->
       register_data s' = register_data s -> P s') -> P (queue_result_locked s r)).
  { intros P HP. apply HP; unfold queue_result_locked; by destruct (pending_result_length s =? _)%nat. }
  split; cbn [omap list_omap]; rewrite ?Hr; try done; try (by apply Heq).
  - rewrite Hd. destruct (Nat.leb_spec (length (queued s ++ [r])) 256).
    + replace (length (queued s ++ [r]) - 256)%nat with 0%nat by lia. by rewrite Z.add_0_r.
    + unfold u32 at 1. rewrite wrap_wrap. unfold u32. do 2 f_equal.
      rewrite length_app in *. cbn [length] in *. lia.
  - apply Heq. intros s' _ _ _ _ H1 H2. rewrite H1, H2. by left.
  - apply Heq. intros s' _ _ _ _ -> _ ->. split; [done|]. repeat constructor. intros Ht.
    unfold result_of in Hr. by rewrite Ht in Hr.
Qed.

Lemma register_ok_same s s' expected :
  register_ok s expected -> register_pending s' = register_pending s ->
  register_ready s' = register_ready s -> register_asic_id s' = register_asic_id s ->
  register_length s' = register_length s -> register_ok s' expected.
Proof. unfold register_ok. by intros H -> -> -> ->. Qed.

Lemma after_frame_ignored expected f : type f <> BZM_FRAME_REGISTER -> after_frame expected f = expected.
Proof. intros H. unfold after_frame. by rewrite (proj2 (Z.eqb_neq _ _)). Qed.

Ltac quiet_frame :=
  split;
    [apply received_quiet; first [done | by eauto | by (intros ?; left) | by (intros ?; split)]
    |by eapply register_ok_same].

Lemma frame_handler_received s expected f :
  io_ok s -> register_ok s expected -> frame_accepted expected f ->
  received_frames s [f] (transport_frame_handler s f) /\
  register_ok (transport_frame_handler s f) (after_frame expected f).
Proof.
  intros Hs Hr Hf. unfold transport_frame_handler.
  assert (Hsame : forall s' : bzm_serial_io_state_t,
    pending_results s' = pending_results s -> pending_result_head s' = pending_result_head s ->
    pending_result_length s' = pending_result_length s -> register_data s' = register_data s -> io_ok s').
  { intros s' H1 H2 H3 H4. destruct Hs. split; congruence. }
  destruct (Z.eqb_spec (type f) BZM_FRAME_RESULT) as [Ht|Ht].
  { assert (Hnr : type f <> BZM_FRAME_REGISTER) by (by rewrite Ht). rewrite after_frame_ignored by done.
    destruct (result_of f) as [r|] eqn:Hres.
    - pose proof (received_result s f r Hs Hres) as Hrec. unfold result_of in Hres.
      rewrite (proj2 (Z.eqb_eq _ _) Ht) in Hres.
      destruct (addressed_asic _); [|done]. destruct (bzm_result_decode _ _) as [[] [r'|]]; try done.
      injection Hres as ->. split; [done|]. destruct Hrec.
      eapply register_ok_same; [done..| |done|done].
      unfold queue_result_locked. by destruct (_ =? _)%nat.
    - pose proof Hres as Hres'. unfold result_of in Hres'. rewrite (proj2 (Z.eqb_eq _ _) Ht) in Hres'.
      destruct (addressed_asic _); [destruct (bzm_result_decode _ _) as [[] [r'|]]; try done|]; quiet_frame. }
  assert (Hres : result_of f = None) by (unfold result_of; by rewrite (proj2 (Z.eqb_neq _ _) Ht)).
  destruct (Z.eqb_spec (type f) BZM_FRAME_REGISTER) as [Hreg|Hreg].
  { destruct (register_ok_accepted s expected f Hr Hf Hreg) as (Hp & Hnr & Hid & Hl & Ha).
    rewrite Hp, Hid, Hl, Z.eqb_refl, Nat.eqb_refl, Ha. cbn [negb orb].
    destruct Hf as (_ & Hm & Hpl & _).
    split; [apply received_quiet; try done|].
    - destruct Hs. split; cbn; try done. rewrite length_app, length_take, length_drop. lia.
    - intros _. right. cbn. split_and!; try done. rewrite <- Hl.
      rewrite take_app_le by (rewrite length_take; lia). rewrite take_take. by rewrite Nat.min_id.
    - unfold register_ok in *. cbn. rewrite Hp in *. destruct Hr as (i & Hi & Hlen & _).
      exists i. split_and!; try done; try lia. cbn.
      pose proof (asic_index_lt _ _ Hi). by destruct i as [|[|[|[|i]]]]; [..|lia]. }
  rewrite after_frame_ignored by done.
  repeat case_match; quiet_frame.
Qed.

Lemma frames_received fs : forall s expected,
  io_ok s -> register_ok s expected -> all_accepted expected fs ->
  let s' := foldl transport_frame_handler s fs in
  received_frames s fs s' /\ register_ok s' (foldl after_frame expected fs).
Proof.
  induction fs as [|f fs IH]; intros s expected Hs Hr Hacc; cbn [foldl].
  { split; [by apply received_refl|done]. }
  destruct Hacc as [Hf Hfs]. destruct (frame_handler_received s expected f Hs Hr Hf) as [H1 H2].
  destruct (IH _ _ (rf_ok _ _ _ H1) H2 Hfs) as [H3 H4]. split; [|done].
  exact (received_trans s [f] _ fs _ Hs H1 H3).
Qed.

(** An initialized transport whose parser, queue and register request fit. *)
Record transport_ok (t : bzm_serial_transport_t) : Prop := {
  tok_initialized : initialized (io_of t) = true;
  tok_handler : handler (parser t) = Some transport_frame_handler;
  tok_parser : parser_ok (parser t);
  tok_room : (buffered_length (parser t) <= 33)%nat;
  tok_io : io_ok (io_of t);
  tok_register : register_ok (io_of t) (expected_register_length (parser t));
}.

(** [t'] is [t] after the bytes [data] reached it and were cut into [evs]. *)
Definition received (t : bzm_serial_transport_t) (data : list Z) (evs : list wire_event)
    (t' : bzm_serial_transport_t) : Prop :=
  transport_ok t' /\ pending (parser t) ++ data = concat (wire_of <$> evs) ++ pending (parser t') /\
  received_frames (io_of t) (frames evs) (io_of t') /\
  serial_asic_ids t' = serial_asic_ids t /\ asic_count t' = asic_count t.

Lemma transport_received_refl t : transport_ok t -> received t [] [] t.
Proof. intros H. split_and!; try done; [by rewrite app_nil_r|]. by apply received_refl, tok_io. Qed.

Lemma transport_received_trans t d1 e1 t1 d2 e2 t2 :
  transport_ok t -> received t d1 e1 t1 -> received t1 d2 e2 t2 -> received t (d1 ++ d2) (e1 ++ e2) t2.
Proof.
  intros Ht (O1 & S1 & R1 & ? & ?) (O2 & S2 & R2 & ? & ?). split_and!; [done| | |congruence|congruence].
  - by rewrite fmap_app, concat_app, app_assoc, S1, <- app_assoc, S2, app_assoc.
  - rewrite frames_app. eapply received_trans; [by apply tok_io|done|done].
Qed.

Lemma ingest_received t data ts :
  transport_ok t ->
  exists evs t',
    bzm_serial_transport_ingest_bytes t data ts = Some (length (frames evs), t') /\
    received t data evs t'.
Proof.
  intros [Hi Hh Hp Hb Hio Hr]. unfold bzm_serial_transport_ingest_bytes. rewrite Hi. cbn [negb].
  destruct (feed_loop_spec data (parser t) ts 0 Hp Hb) as (evs & p' & Heq & Hfed & Hb').
  unfold bzm_frame_parser_feed. rewrite Heq. cbn [Nat.add].
  exists evs, (t <| parser := p' |>). split; [done|].
  destruct (frames_received (frames evs) (io_of t) _ Hio Hr) as [Hrec Hreg]; [by destruct Hfed|].
  assert (Hctx : handler_context p' = foldl transport_frame_handler (io_of t) (frames evs)).
  { rewrite (fed_context _ _ _ _ _ Hfed), Hh. done. }
  unfold received, io_of. cbn. rewrite Hctx. split_and!; try done; [|by apply fed_stream in Hfed].
  split; unfold io_of; cbn; rewrite ?Hctx; try done; try (by destruct Hfed).
  - destruct Hrec. congruence.
  - by rewrite (fed_handler _ _ _ _ _ Hfed).
  - by destruct Hrec.
  - by rewrite (fed_expected _ _ _ _ _ Hfed).
Qed.

Lemma dequeue_result_spec t :
  transport_ok t ->
  match queued (io_of t) with
  | [] => dequeue_result t = (None, t)
  | r :: rest =>
      exists t', dequeue_result t = (Some r, t') /\ transport_ok t' /\ queued (io_of t') = rest /\
        dropped_results (io_of t') = dropped_results (io_of t) /\
        register_pending (io_of t') = register_pending (io_of t)
  end.
Proof.
  intros [Hi Hh Hp Hb Hio Hr]. pose proof Hio as [Hl Hhd Hn Hd]. unfold dequeue_result, queued. rewrite Hi.
  cbn [negb orb]. destruct (Nat.eqb_spec (pending_result_length (io_of t)) 0) as [->|Hne]; [done|].
  rewrite ring_pop by lia. eexists. split; [done|]. split_and!; try done.
  split; cbn; try done; [by destruct Hp|].
  split; try done; [|cbn; lia].
  exact (Nat.mod_upper_bound (pending_result_head (io_of t) + 1) 256 ltac:(lia)).
Qed.

(** The result queue is a bounded FIFO that keeps the newest results:
    whatever bytes arrive, ingesting them cuts them into frames and discards,
    appends the results of the accepted result frames in order of arrival to
    the queue, keeps the newest 256 of queue and arrivals, and counts each one
    that gave way as dropped; taking results out afterwards yields the queue
    from the front, and nothing once it is empty. *)
Theorem transport_queue_keeps_newest t data ts :
  transport_ok t ->
  exists evs t',
    bzm_serial_transport_ingest_bytes t data ts = Some (length (frames evs), t') /\
    pending (parser t) ++ data = concat (wire_of <$> evs) ++ pending (parser t') /\
    transport_ok t' /\
    (let offered := queued (io_of t) ++ omap result_of (frames evs) in
     queued (io_of t') = newest 256 offered /\
     u32 (dropped_results (io_of t')) =
       u32 (dropped_results (io_of t) + Z.of_nat (length offered - 256))) /\
    match queued (io_of t') with
    | [] => dequeue_result t' = (None, t')
    | r :: rest => exists t2, dequeue_result t' = (Some r, t2) /\ transport_ok t2 /\ queued (io_of t2) = rest
    end.
Proof.
  intros Ht. destruct (ingest_received t data ts Ht) as (evs & t' & Heq & Hok & Hstream & Hrec & _).
  exists evs, t'. split_and!; [done|done|done| |].
  - destruct Hrec. by split.
  - pose proof (dequeue_result_spec t' Hok) as Hd. destruct (queued (io_of t')); [done|].
    destruct Hd as (t2 & H1 & H2 & H3 & _). by exists t2.
Qed.

(** ** The polling programs return *)

Section polling.
Context {W : Type} (d : serial_driver W).

(** What the framework documents of its driver and clock, once the driver is
    installed.  The clock [now] does not run backwards; a read returns at most
    the bytes asked for, and one that waited in vain took time.  [unread] counts
    the bytes received and not read yet, [backlog] the receive buffers: the
    line delivers at most a byte per microsecond.  [input] is the bytes read so
    far. *)
Record link_laws (now unread : W -> Z) (input : W -> list Z) (backlog : Z) : Prop := {
  law_unread w : 0 <= unread w <= backlog;
  law_time w : (esp_timer_get_time d w).1 = now w;
  law_time_w w : let w' := (esp_timer_get_time d w).2 in
    now w <= now w' /\ unread w' <= unread w + (now w' - now w) /\ input w' = input w;
  law_installed w : uart_is_driver_installed d w = (true, w);
  law_write w data : let w' := (uart_write_bytes d data w).2 in
    now w <= now w' /\ unread w' <= unread w + (now w' - now w) /\ input w' = input w;
  law_flush w : now w <= now (uart_flush d w).2 /\ input (uart_flush d w).2 = input w;
  law_read w size ticks : 0 < size -> exists bytes w',
    uart_read_bytes d size ticks w = (Some bytes, w') /\ Z.of_nat (length bytes) <= size /\
    now w <= now w' /\ unread w' <= unread w + (now w' - now w) - Z.of_nat (length bytes) /\
    input w' = input w ++ bytes /\
    (bytes = [] -> 0 < ticks -> now w < now w');
  law_ticks ms : 0 <= ms -> 0 <= pdMS_TO_TICKS d ms;
}.

Context (now unread : W -> Z) (input : W -> list Z) (backlog : Z)
  (Hlaws : link_laws now unread input backlog).

(** The microseconds passed, each waited for or used to receive a byte. *)
Definition progress (w : W) : Z := 2 * now w - unread w.

Lemma progress_bound w : 2 * now w - backlog <= progress w <= 2 * now w.
Proof. pose proof (law_unread _ _ _ _ Hlaws w). unfold progress. lia. Qed.

Lemma serial_rx_spec size timeout_ms w :
  0 < size <= 128 -> 0 <= timeout_ms ->
  exists bytes w',
    SERIAL_rx d size timeout_ms w = ((Z.of_nat (length bytes), bytes), w') /\
    Z.of_nat (length bytes) <= size /\ input w' = input w ++ bytes /\
    now w <= now w' /\ progress w <= progress w' /\
    (0 < timeout_ms \/ bytes <> [] -> progress w < progress w').
Proof.
  intros Hs Ht. unfold SERIAL_rx. rewrite (proj2 (Z.eqb_neq size 0)) by lia.
  unfold io_bind, io_ret, SERIAL_is_initialized. rewrite (law_installed _ _ _ _ Hlaws). cbn [negb].
  destruct (law_read _ _ _ _ Hlaws w size (timeout_ticks d timeout_ms)) as (bytes & w' & -> & Hl & Hn & Hu & Hin & He); [lia|].
  exists bytes, w'. split.
  { do 2 f_equal. unfold to_int16. rewrite u16_small by lia. by rewrite (proj2 (Z.ltb_lt _ _)) by lia. }
  unfold progress. split_and!; try done; try lia. intros H.
  destruct bytes as [|b bytes]; [|cbn [length] in *; lia]. destruct H as [H|]; [|done].
  cbn [length] in *. enough (now w < now w') by lia. apply He; [done|]. unfold timeout_ticks.
  rewrite (proj2 (Z.eqb_neq timeout_ms 0)) by lia. pose proof (law_ticks _ _ _ _ Hlaws timeout_ms ltac:(lia)).
  destruct (Z.eqb_spec (pdMS_TO_TICKS d timeout_ms) 0); lia.
Qed.

Lemma esp_timer_spec w :
  exists w', esp_timer_get_time d w = (now w, w') /\ input w' = input w /\
    now w <= now w' /\ progress w <= progress w'.
Proof.
  pose proof (law_time _ _ _ _ Hlaws w) as H. pose proof (law_time_w _ _ _ _ Hlaws w) as H'.
  destruct (esp_timer_get_time d w) as [t w']. cbn in *. subst t. exists w'. unfold progress.
  split_and!; [done|by apply H'|lia..].
Qed.

Lemma remaining_ms_spec deadline w :
  exists ms w', remaining_ms d deadline w = (ms, w') /\ input w' = input w /\ now w <= now w' /\ progress w <= progress w' /\
    0 <= ms /\ (ms = 0 <-> deadline <= now w).
Proof.
  unfold remaining_ms. destruct (esp_timer_spec w) as (w' & -> & Hi & H1 & H2). eexists _, w'. split; [done|]. split; [done|].
  unfold UINT16_MAX. destruct (Z.leb_spec (deadline - now w) 0).
  - split_and!; lia.
  - assert (1 <= (deadline - now w + 999) / 1000) by (apply Z.div_le_lower_bound; lia). split_and!; lia.
Qed.

(** [m] runs from [x] with the bytes [held] read but not ingested yet: it
    ingests them and all it reads. *)
Definition receives {A} (held : list Z) (m : prog (bzm_serial_transport_t * W) A)
    (x : bzm_serial_transport_t * W) (post : W -> Prop) : Prop :=
  exists a data evs t' w', m x = Some (a, (t', w')) /\
    received x.1 (held ++ data) evs t' /\ input w' = input x.2 ++ data /\
    now x.2 <= now w' /\ progress x.2 <= progress w' /\ post w'.

Lemma receives_nothing (n : nat) t w :
  transport_ok t -> receives [] (prog_ret n) (t, w) (fun _ => True).
Proof.
  intros Ht. exists n, [], [], t, w. split_and!; try done; [by apply transport_received_refl|].
  by rewrite app_nil_r.
Qed.

Lemma poll_loop_returns fuel : forall bytes total emitted t w,
  transport_ok t -> 0 <= total -> Z.of_nat (length bytes) <= BZM_POLL_BUFFER_SIZE ->
  Z.of_nat (length bytes) <= BZM_POLL_MAX_DRAIN_BYTES - total <= Z.of_nat fuel ->
  receives bytes (poll_loop d fuel (SERIAL_rx d) (Z.of_nat (length bytes)) bytes total emitted) (t, w)
    (fun _ => True).
Proof.
  induction fuel as [|fuel IH]; intros bytes total emitted t w Ht H0 Hl Hf; cbn [poll_loop].
  { destruct bytes as [|b bytes]; [|cbn [length] in *; lia]. by apply receives_nothing. }
  destruct (Z.ltb_spec 0 (Z.of_nat (length bytes)));
    [|destruct bytes; [by apply receives_nothing|cbn [length] in *; lia]].
  rewrite (proj2 (Z.ltb_lt total _)) by lia. cbn [andb].
  rewrite (proj2 (Z.ltb_ge _ _)), (proj2 (Z.ltb_ge _ _)) by lia. cbn [orb].
  unfold receives, prog_bind, serial, ingest at 1. rewrite Nat2Z.id, firstn_all.
  destruct (esp_timer_spec w) as (w1 & -> & Hi1 & Hn1 & Hp1).
  destruct (ingest_received t bytes (now w) Ht) as (evs & t1 & -> & Hr1).
  set (capacity := Z.min BZM_POLL_BUFFER_SIZE _).
  destruct (Z.eqb_spec capacity 0).
  { eexists _, [], evs, t1, w1. cbn [fst snd]. rewrite !app_nil_r. by split_and!. }
  destruct (serial_rx_spec capacity 0 w1) as (more & w2 & -> & Hm & Hi2 & Hn2 & Hp2 & _);
    [unfold capacity, BZM_POLL_BUFFER_SIZE in *; lia|lia|].
  pose proof Hr1 as [Ht1 _].
  destruct (IH more (total + Z.of_nat (length bytes)) (emitted + List.length (frames evs))%nat t1 w2 Ht1)
    as (a & data & evs2 & t' & w' & Heq & Hrec & Hin & Hn & Hp & _); [unfold capacity in Hm; lia..|].
  exists a, (more ++ data), (evs ++ evs2), t', w'. cbn [fst snd] in *. split_and!; try done; try lia.
  - by apply (transport_received_trans t bytes evs t1).
  - by rewrite Hin, Hi2, Hi1, app_assoc.
Qed.

Lemma poll_returns timeout_ms t w :
  transport_ok t -> 0 < timeout_ms ->
  receives [] (bzm_serial_poll d timeout_ms) (t, w) (fun w' => progress w < progress w').
Proof.
  intros Ht Hms. unfold receives, bzm_serial_poll, bzm_serial_poll_with_reader, prog_bind, get_transport.
  rewrite (tok_initialized _ Ht), (proj2 (Z.eqb_neq timeout_ms 0)) by lia. cbn [negb orb].
  unfold serial. destruct (serial_rx_spec 1 timeout_ms w) as (bytes & w1 & -> & Hl & Hi1 & Hn1 & Hp1 & Hlt); [lia|lia|].
  destruct (poll_loop_returns (Z.to_nat BZM_POLL_MAX_DRAIN_BYTES) bytes 0 0 t w1 Ht)
    as (a & data & evs & t' & w' & Heq & Hrec & Hin & Hn & Hp & _);
    [lia|unfold BZM_POLL_BUFFER_SIZE; lia|unfold BZM_POLL_MAX_DRAIN_BYTES, SERIAL_RX_BUFFER_BYTES; lia|].
  exists a, (bytes ++ data), evs, t', w'. cbn [fst snd app] in *. assert (progress w < progress w1) by auto.
  split_and!; try done; try lia. by rewrite Hin, Hi1, app_assoc.
Qed.

(** *** Register replies *)

Lemma set_io_ok t s expected :
  transport_ok t -> initialized s = true -> io_ok s -> (expected = replicate 4 0%nat \/
    exists i n, (n <= 32)%nat /\ expected = <[i := n]> (replicate 4 0%nat)) ->
  register_ok s expected ->
  transport_ok (set_io (t <| parser := (parser t) <| expected_register_length := expected |> |>) s).
Proof.
  intros [Hi Hh Hp Hb Hio Hr] H1 H2 H3 H4. split; try done. destruct Hp. split; cbn; try done.
  - destruct H3 as [->|(i & n & _ & ->)]; by rewrite ?length_insert.
  - destruct H3 as [->|(i & n & Hn & ->)]; [|apply Forall_insert; [|done]]; by repeat (constructor; [lia|]).
Qed.

Lemma set_expected_same (p : bzm_frame_parser_t bzm_serial_io_state_t) expected :
  expected_register_length p = expected -> p <| expected_register_length := expected |> = p.
Proof. intros <-. by destruct p. Qed.

Lemma insert_zero i : <[i := 0%nat]> (replicate 4 0%nat) = replicate 4 0%nat.
Proof. by destruct i as [|[|[|[|i]]]]. Qed.

Lemma take_reply_spec t id n :
  transport_ok t -> register_pending (io_of t) = true -> register_asic_id (io_of t) = id ->
  register_length (io_of t) = n ->
  if register_ready (io_of t) then
    exists t', bzm_serial_take_register_reply t id n = (Some (take n (register_data (io_of t))), t') /\
      transport_ok t' /\ register_pending (io_of t') = false /\ queued (io_of t') = queued (io_of t)
  else bzm_serial_take_register_reply t id n = (None, t).
Proof.
  intros Ht Hpend Hid Hn. pose proof Ht as [Hi Hh Hp Hb Hio Hr]. unfold bzm_serial_take_register_reply.
  rewrite Hi, Hpend, Hid, Hn, Z.eqb_refl, Nat.eqb_refl. cbn [negb andb].
  destruct (register_ready (io_of t)) eqn:Hready; [|done]. eexists. split; [done|]. split; [|done].
  unfold register_ok in Hr. rewrite Hpend, Hready in Hr. destruct Hr as (i & _ & _ & He).
  rewrite insert_zero in He.
  assert (Hpar : t = t <| parser := (parser t) <| expected_register_length := replicate 4 0%nat |> |>)
    by (rewrite set_expected_same by done; by destruct t).
  rewrite Hpar at 1. apply set_io_ok; try done; [by destruct Hio|by left].
Qed.

Lemma cancel_reply_spec t id :
  transport_ok t -> register_pending (io_of t) = true -> register_asic_id (io_of t) = id ->
  exists t', bzm_serial_cancel_register_reply t id = (true, t') /\
    transport_ok t' /\ register_pending (io_of t') = false /\ queued (io_of t') = queued (io_of t).
Proof.
  intros Ht Hpend Hid. pose proof Ht as [Hi Hh Hp Hb Hio Hr]. unfold bzm_serial_cancel_register_reply.
  rewrite Hi, Hpend, Hid, Z.eqb_refl. cbn [negb andb]. eexists. split; [done|]. split; [|done].
  unfold register_ok in Hr. rewrite Hpend, Hid in Hr. destruct Hr as (i & Hx & Hl & He).
  pose proof (asic_index_lt _ _ Hx) as Hi4.
  assert (Hc : snd (bzm_frame_parser_cancel_register (parser t) id) =
    (parser t) <| expected_register_length := replicate 4 0%nat |>).
  { unfold bzm_frame_parser_cancel_register, expected_at. rewrite Hx.
    destruct (Nat.eqb_spec (nth i (expected_register_length (parser t)) 0%nat) 0) as [E|E]; cbn [snd].
    - rewrite set_expected_same; [done|]. rewrite He in *. rewrite nth_insert in E.
      rewrite decide_True in E by (split; [done|by cbn]). by rewrite E, insert_zero.
    - by rewrite He, list_insert_insert_eq, insert_zero. }
  rewrite Hc. apply set_io_ok; try done; [by destruct Hio|by left].
Qed.

Lemma expect_reply_spec t id n :
  transport_ok t -> register_pending (io_of t) = false ->
  exists ok t', bzm_serial_expect_register_reply t id n = (ok, t') /\
    transport_ok t' /\ queued (io_of t') = queued (io_of t) /\ pending (parser t') = pending (parser t) /\
    if ok : bool then
      register_pending (io_of t') = true /\ register_asic_id (io_of t') = id /\
      register_length (io_of t') = n /\ register_ready (io_of t') = false /\ (n <= 32)%nat
    else t' = t.
Proof.
  intros Ht Hpend. pose proof Ht as [Hi Hh Hp Hb Hio Hr]. unfold bzm_serial_expect_register_reply.
  rewrite Hi, Hpend. cbn [negb orb].
  destruct (_ || _) eqn:E; [by exists false, t|]. apply orb_false_iff in E as [E E3%Nat.ltb_ge].
  apply orb_false_iff in E as [E1%negb_false_iff E2%Nat.eqb_neq].
  change BZM_TDM_MAX_REGISTER_PAYLOAD_SIZE with 32%nat in *.
  unfold addressed_asic in E1. apply bool_decide_eq_true in E1 as [i Hx].
  pose proof (asic_index_lt _ _ Hx) as Hi4. unfold register_ok in Hr. rewrite Hpend in Hr.
  assert (He : bzm_frame_parser_expect_register (parser t) id n =
    (true, (parser t) <| expected_register_length := <[i := n]> (replicate 4 0%nat) |>)).
  { unfold bzm_frame_parser_expect_register, expected_at. rewrite Hx, Hr.
    rewrite (proj2 (Nat.eqb_neq n 0)) by done. change BZM_TDM_MAX_REGISTER_PAYLOAD_SIZE with 32%nat.
    rewrite (proj2 (Nat.ltb_ge 32 n)) by lia.
    by destruct i as [|[|[|[|i]]]]; [..|lia]. }
  rewrite He. exists true. eexists. split; [done|]. split_and!; try done.
  apply set_io_ok; try done; [by destruct Hio|right; by exists i, n|].
  cbn. exists i. by split_and!; [done|lia|lia|].
Qed.

(** What a read may yield: a register frame of that ASIC and length among the
    frames cut off, or nothing when none was. *)
Definition reply_in (id : Z) (n : nat) (fs : list bzm_frame_t) (r : option (list Z)) : Prop :=
  match r with
  | Some data =>
      exists f, f ∈ fs /\ type f = BZM_FRAME_REGISTER /\ asic_id f = id /\ payload_length f = n /\
        data = take n (payload f)
  | None => Forall (fun f => type f <> BZM_FRAME_REGISTER) fs
  end.

(** [t'] is [t] after [data] was cut into [evs], apart from the partial frame
    [rest], with nothing awaited any more. *)
Definition read_done (t : bzm_serial_transport_t) (data : list Z) (evs : list wire_event)
    (t' : bzm_serial_transport_t) : Prop :=
  transport_ok t' /\ register_pending (io_of t') = false /\
  (exists rest, pending (parser t) ++ data = concat (wire_of <$> evs) ++ rest) /\
  queued (io_of t') = newest 256 (queued (io_of t) ++ omap result_of (frames evs)).

Lemma reply_loop_returns fuel : forall id n deadline t w,
  transport_ok t -> register_pending (io_of t) = true -> register_asic_id (io_of t) = id ->
  register_length (io_of t) = n -> Z.max 0 (2 * deadline - progress w) < Z.of_nat fuel ->
  exists r data evs t' w',
    reply_loop d fuel id n deadline (t, w) = Some (r, (t', w')) /\ input w' = input w ++ data /\
    match r with
    | Some bytes =>
        read_done t data evs t' /\
        (register_ready (io_of t) = true /\ bytes = take n (register_data (io_of t)) \/
         reply_in id n (frames evs) r)
    | None =>
        received t data evs t' /\ register_ready (io_of t') = false /\ deadline <= now w'
    end.
Proof.
  induction fuel as [|fuel IH]; intros id n deadline t w Ht Hpend Hid Hn Hf; [lia|].
  cbn [reply_loop]. unfold prog_bind, locked at 1.
  pose proof (take_reply_spec t id n Ht Hpend Hid Hn) as Htake.
  destruct (register_ready (io_of t)) eqn:Hready.
  { destruct Htake as (t' & -> & Ht' & Hp' & Hq'). eexists (Some _), [], [], t', w.
    split_and!; [done|by rewrite app_nil_r| |by left]. split_and!; [done|done|by eexists|].
    rewrite Hq'. by apply (rf_queued _ _ _ (received_refl _ (tok_io _ Ht))). }
  rewrite Htake. unfold serial.
  destruct (remaining_ms_spec deadline w) as (ms & w1 & -> & Hi1 & Hn1 & Hp1 & Hms & Hzero).
  destruct (Z.eqb_spec ms 0) as [->|Hpos].
  { eexists None, [], [], t, w1. rewrite app_nil_r.
    split_and!; [done|done|by apply transport_received_refl|done|lia]. }
  destruct (poll_returns ms t w1 Ht)
    as (a & d1 & e1 & t1 & w2 & -> & Hrec1 & Hi2 & Hn2 & _ & Hlt); [lia|].
  cbn [fst snd app] in *. pose proof Hrec1 as (Ht1 & Hs1 & Hrec & _).
  destruct (IH id n deadline t1 w2 Ht1) as (r & d2 & e2 & t' & w' & Heq & Hin & Hpost).
  { by rewrite (rf_pending _ _ _ Hrec). }
  { by rewrite (rf_asic_id _ _ _ Hrec). }
  { by rewrite (rf_length _ _ _ Hrec). }
  { pose proof (progress_bound w). lia. }
  exists r, (d1 ++ d2), (e1 ++ e2), t', w'. split_and!; [done|by rewrite Hin, Hi2, Hi1, app_assoc|].
  destruct r as [bytes|]; [|destruct Hpost; split; [by apply (transport_received_trans t d1 e1 t1)|done]].
  destruct Hpost as [(Ht' & Hp' & [rest Hs'] & Hq) Hbytes]. split.
  { split_and!; [done|done| |].
    - exists rest. by rewrite fmap_app, concat_app, app_assoc, Hs1, <- app_assoc, Hs', app_assoc.
    - by rewrite Hq, (rf_queued _ _ _ Hrec), newest_app, frames_app, omap_app, <- app_assoc. }
  right. cbn [reply_in]. rewrite frames_app. setoid_rewrite elem_of_app. destruct Hbytes as [[Hr1 ->]|(f & ? & Hrest)].
  - destruct (rf_reply _ _ _ Hrec Hr1) as [[Hr2 _]|(f & Hf' & Hty & Hfid & Hfl & Hdata)]; [congruence|].
    exists f. rewrite Hid, Hn in *. split_and!; try done; [by left|]. by rewrite Hdata, Hfl.
  - exists f. split; [by right|done].
Qed.

Lemma send_spec data w :
  exists n w', SERIAL_send d data w = (n, w') /\ input w' = input w.
Proof.
  pose proof (law_write _ _ _ _ Hlaws w data) as H. unfold SERIAL_send.
  destruct (uart_write_bytes d data w) as [n w']. exists n, w'. split; [done|apply H].
Qed.

Lemma clear_partial_frame_ok t :
  transport_ok t -> transport_ok (clear_partial_frame t) /\ io_of (clear_partial_frame t) = io_of t.
Proof. intros [Hi Hh Hp Hb Hio Hr]. split; [|done]. split; try done; [destruct Hp; split; cbn; lia || done|cbn; lia]. Qed.

Lemma read_done_nothing t t' :
  transport_ok t -> transport_ok t' -> register_pending (io_of t') = false ->
  queued (io_of t') = queued (io_of t) -> read_done t [] [] t'.
Proof.
  intros Ht Ht' Hp Hq. split_and!; [done|done|by eexists|]. rewrite Hq.
  apply (rf_queued _ _ _ (received_refl _ (tok_io _ Ht))).
Qed.

Lemma read_register_returns fuel id engine offset n t w :
  transport_ok t -> register_pending (io_of t) = false ->
  2 * BZM_REGISTER_REPLY_TIMEOUT_US + backlog < Z.of_nat fuel ->
  exists r data evs t' w',
    serial_read_register_op d fuel id engine offset n (t, w) = Some (r, (t', w')) /\
    input w' = input w ++ data /\ read_done t data evs t' /\ reply_in id n (frames evs) r.
Proof.
  intros Ht Hpend Hf. unfold serial_read_register_op.
  assert (Hnone : forall t' w', transport_ok t' -> register_pending (io_of t') = false ->
    queued (io_of t') = queued (io_of t) -> input w' = input w ->
    exists data evs, input w' = input w ++ data /\ read_done t data evs t' /\ reply_in id n (frames evs) None).
  { intros t' w' H1 H2 H3 H4. exists [], []. rewrite app_nil_r. split; [done|]. split; [|by constructor].
    by apply read_done_nothing. }
  destruct (_ || _); [destruct (Hnone t w) as (? & ? & ?); [done..|by eexists None, _, _, t, w]|].
  unfold prog_bind, locked.
  destruct (expect_reply_spec t id n Ht Hpend) as (ok & t1 & -> & Ht1 & Hq1 & Hs1 & Hok).
  destruct ok; cbn [negb]; [|subst t1; destruct (Hnone t w) as (? & ? & ?); [done..|by eexists None, _, _, t, w]].
  destruct Hok as (Hp1 & Hid1 & Hl1 & Hnr & Hn32).
  set (request := bzm_transport_encode_read id engine offset n 12).
  assert (Hsent : exists n1 w1, (if (length request =? 0)%nat then prog_ret 0 else serial (SERIAL_send d request))
    (t1, w) = Some (n1, (t1, w1)) /\ input w1 = input w).
  { destruct (length request =? 0)%nat; [by eexists _, _|]. unfold serial.
    destruct (send_spec request w) as (n1 & w1 & -> & ?). by eexists _, _. }
  destruct Hsent as (n1 & w1 & -> & Hi1).
  destruct (_ || _).
  { destruct (cancel_reply_spec t1 id Ht1 Hp1 Hid1) as (t3 & -> & Ht3 & Hp3 & Hq3).
    destruct (Hnone t3 w1) as (? & ? & ?); [done|done|congruence|done|]. by eexists None, _, _, t3, w1. }
  unfold serial at 1. destruct (esp_timer_spec w1) as (w2 & -> & Hi2 & Hn2 & Hpr2).
  destruct (reply_loop_returns fuel id n (now w1 + BZM_REGISTER_REPLY_TIMEOUT_US) t1 w2 Ht1 Hp1 Hid1 Hl1)
    as (r & data & evs & t3 & w3 & -> & Hi3 & Hpost).
  { pose proof (progress_bound w2). unfold BZM_REGISTER_REPLY_TIMEOUT_US in *.
    pose proof (law_unread _ _ _ _ Hlaws w1). lia. }
  rewrite Hi2, Hi1 in Hi3. destruct r as [bytes|].
  - destruct Hpost as [(Ht3 & Hp3 & Hs3 & Hq3) [[Hr _]|Hreply]]; [congruence|].
    eexists (Some bytes), data, evs, t3, w3. rewrite Hs1, Hq1 in *. split_and!; try done.
  - destruct Hpost as ((Ht3 & Hs3 & Hrec & _) & Hnr3 & _).
    destruct (cancel_reply_spec t3 id Ht3) as (t4 & -> & Ht4 & Hp4 & Hq4);
      [by rewrite (rf_pending _ _ _ Hrec)|by rewrite (rf_asic_id _ _ _ Hrec)|].
    unfold serial, SERIAL_clear_buffer. pose proof (law_flush _ _ _ _ Hlaws w3) as [_ Hi4].
    destruct (uart_flush d w3) as [u w4]. unfold modify. cbn [snd] in Hi4.
    destruct (clear_partial_frame_ok t4 Ht4) as [Ht5 Hio5].
    eexists None, data, evs, _, w4. split; [done|]. split; [by rewrite Hi4|]. split.
    + split_and!; [done|by rewrite Hio5|eexists; by rewrite <- Hs1, Hs3|].
      by rewrite Hio5, Hq4, (rf_queued _ _ _ Hrec), Hq1.
    + by apply (rf_ready _ _ _ Hrec).
Qed.
End polling.

(** C21: A register read always ends and cleans up after itself: over a link whose
    driver and clock keep their documented behaviour, with fuel for the one
    second time-out, it returns, and with the bytes [data] read meanwhile cut
    into events as the parser does: a reply is the payload of a register frame
    of that ASIC and that length among them, no reply means that no register
    frame was, the results among them are queued and not lost to the wait, and
    the transport is well formed and awaits no reply afterwards. *)
Theorem transport_register_read_returns {W} (d : serial_driver W) now unread input backlog
    fuel id engine offset n t w :
  link_laws d now unread input backlog ->
  transport_ok t -> register_pending (io_of t) = false ->
  2 * BZM_REGISTER_REPLY_TIMEOUT_US + backlog < Z.of_nat fuel ->
  exists r data evs t' w',
    bzm_serial_read_register d fuel id engine offset n (t, w) = Some (r, (t', w')) /\
    input w' = input w ++ data /\
    (exists rest, pending (parser t) ++ data = concat (wire_of <$> evs) ++ rest) /\
    match r with
    | Some bytes =>
        exists f, f ∈ frames evs /\ type f = BZM_FRAME_REGISTER /\ asic_id f = id /\
          payload_length f = n /\ bytes = take n (payload f)
    | None => Forall (fun f => type f <> BZM_FRAME_REGISTER) (frames evs)
    end /\
    queued (io_of t') = newest 256 (queued (io_of t) ++ omap result_of (frames evs)) /\
    transport_ok t' /\ register_pending (io_of t') = false /\
    expected_register_length (parser t') = replicate 4 0%nat.
Proof.
  intros Hlaws Ht Hpend Hf.
  destruct (read_register_returns d now unread input backlog Hlaws fuel id engine offset n t w Ht Hpend Hf)
    as (r & data & evs & t' & w' & H1 & H2 & (H3 & H4 & H5 & H6) & H7).
  exists r, data, evs, t', w'. split_and!; try done. pose proof (tok_register _ H3) as Hr.
  unfold register_ok in Hr. by rewrite H4 in Hr.
Qed.

(** ** A concrete link *)

Module Demo.
(** The reply to a register read of the first ASIC, a byte per microsecond;
    the world is the time. *)
Definition script : list Z := [0x55; 0x0a; 0x03; 1; 2; 3; 4].

Definition demo_driver : serial_driver nat :=
  {| uart_param_config := io_ret ESP_OK; uart_set_pin := io_ret ESP_OK;
     uart_driver_install := fun _ _ => io_ret ESP_OK;
     uart_set_rx_full_threshold := fun _ => io_ret ESP_OK;
     uart_driver_delete := io_ret ESP_OK;
     uart_is_driver_installed := io_ret true;
     uart_wait_tx_done := fun _ => io_ret ESP_OK;
     uart_set_baudrate := fun _ => io_ret ESP_OK;
     uart_flush_input := io_ret ESP_OK;
     uart_flush := io_ret tt;
     uart_write_bytes := fun data => io_ret (Z.of_nat (length data));
     uart_read_bytes := fun _ _ w => (Some (take 1 (drop w script)), S w);
     esp_timer_get_time := fun w => (Z.of_nat w, w);
     vTaskDelay := fun _ => io_ret tt;
     pdMS_TO_TICKS := fun ms => ms / 10;
     portTICK_PERIOD_MS := 10 |}.

Lemma demo_driver_lawful : link_laws demo_driver Z.of_nat (fun _ => 0) (fun w => take w script) 0.
Proof.
  split; try done; try (intros; cbn; split_and!; lia || done).
  - intros w size ticks Hs. exists (take 1 (drop w script)), (S w). split; [done|].
    assert (length (take 1 (drop w script)) <= 1)%nat by (rewrite length_take; lia).
    split_and!; try lia.
    by rewrite <- Nat.add_1_r, take_take_drop.
  - intros ms H. cbn. apply Z.div_pos; lia.
Qed.

Definition link : bzm_serial_transport_t :=
  (bzm_serial_transport_init
     {| serial_asic_ids := [0x0a; 0x14; 0; 0]; asic_count := 2; serial_engine_count := 236;
        serial_enhanced_mode := true; parser := bzm_frame_parser_init None zero_io |} true).2.

Lemma link_ok : transport_ok link.
Proof.
  split; [done|done| |vm_compute; lia| |done].
  - split; try (by vm_compute; lia). repeat constructor; lia.
  - split; by vm_compute; lia.
Qed.

Example read_reply :
  match bzm_serial_read_register demo_driver 20 0x0a BZM_CONTROL_ENGINE_ID BZM_REG_ASIC_ID 4 (link, 0%nat) with
  | Some (reply, (t, w)) => (reply, w, discarded_bytes (parser t))
  | None => (None, 0%nat, 0)
  end = (Some [1; 2; 3; 4], 8%nat, 1).
Proof. by vm_compute. Qed.

(** Two results of the second ASIC, from engine 3. *)
Definition result_bytes : list Z :=
  [0x14; 0x01; 0x80; 3; 1; 0; 0; 0; 9; 9; 0x14; 0x01; 0x80; 3; 2; 0; 0; 0; 9; 9].

Example results_queued :
  match bzm_serial_transport_ingest_bytes link result_bytes 7 with
  | Some (_, t) => length (queued (io_of t))
  | None => 0%nat
  end = 2%nat.
Proof. by vm_compute. Qed.

Lemma transport_partitions_nonces_witness :
  (0 <= 0 <= 0xffffffff /\ 0xffffffff < 2 ^ 32 /\ (0 < 3)%nat) /\
  if 0xffffffff - 0 + 1 <? Z.of_nat 3
  then forall i, bzm_partition_nonce_range 0 0xffffffff i 3 = None
  else
    exists bound : nat -> Z,
      bound O = 0 /\ bound 3%nat = 0xffffffff + 1 /\
      (forall i, (i < 3)%nat -> bound i < bound (S i)) /\
      (forall i, (i < 3)%nat ->
         bzm_partition_nonce_range 0 0xffffffff i 3 = Some (bound i, bound (S i) - 1)) /\
      (forall i, (3 <= i)%nat -> bzm_partition_nonce_range 0 0xffffffff i 3 = None).
Proof. split; [lia|]. apply (transport_partitions_nonces 0 0xffffffff 3); lia. Defined.

Lemma transport_queue_keeps_newest_witness :
  transport_ok link /\
  exists evs t',
    bzm_serial_transport_ingest_bytes link result_bytes 7 = Some (length (frames evs), t') /\
    pending (parser link) ++ result_bytes = concat (wire_of <$> evs) ++ pending (parser t') /\
    transport_ok t' /\
    (let offered := queued (io_of link) ++ omap result_of (frames evs) in
     queued (io_of t') = newest 256 offered /\
     u32 (dropped_results (io_of t')) =
       u32 (dropped_results (io_of link) + Z.of_nat (length offered - 256))) /\
    match queued (io_of t') with
    | [] => dequeue_result t' = (None, t')
    | r :: rest => exists t2, dequeue_result t' = (Some r, t2) /\ transport_ok t2 /\ queued (io_of t2) = rest
    end.
Proof. split; [exact link_ok|]. apply (transport_queue_keeps_newest link result_bytes 7). exact link_ok. Defined.

Lemma transport_register_read_returns_witness :
  link_laws demo_driver Z.of_nat (fun _ => 0) (fun w => take w script) 0 /\
  exists r data evs t' w',
    bzm_serial_read_register demo_driver (Z.to_nat 2000001) 0x0a BZM_CONTROL_ENGINE_ID BZM_REG_ASIC_ID 4
      (link, 0%nat) = Some (r, (t', w')) /\
    take w' script = take 0 script ++ data /\
    (exists rest, pending (parser link) ++ data = concat (wire_of <$> evs) ++ rest) /\
    match r with
    | Some bytes =>
        exists f, f ∈ frames evs /\ type f = BZM_FRAME_REGISTER /\ asic_id f = 0x0a /\
          payload_length f = 4%nat /\ bytes = take 4 (payload f)
    | None => Forall (fun f => type f <> BZM_FRAME_REGISTER) (frames evs)
    end /\
    queued (io_of t') = newest 256 (queued (io_of link) ++ omap result_of (frames evs)) /\
    transport_ok t' /\ register_pending (io_of t') = false /\
    expected_register_length (parser t') = replicate 4 0%nat.
Proof.
  split; [exact demo_driver_lawful|].
  apply (transport_register_read_returns demo_driver Z.of_nat (fun _ => 0) (fun w => take w script) 0);
    [exact demo_driver_lawful|exact link_ok|reflexivity|].
  rewrite Z2Nat.id by lia. unfold BZM_REGISTER_REPLY_TIMEOUT_US. lia.
Defined.
End Demo.
