(* ===== verification/PowerPolicy.v ===== *)
(** * The power policy of the control task

    Models src/components/power_management/power_policy.c with its header: when
    the board is started, stopped, handed over for maintenance and cooled down
    after an overheat.  The board's operations are a record of computations over
    the world [W] behind them; the policy is threaded explicitly.  The task in
    src/main/tasks/power_management_task.c owns the policy; the fields it writes
    itself are the [Ready], [Observe] and [ForcePause] commands of the transition
    system below.  The text in a sample is not modelled, and [NULL] arguments
    and an incomplete table are the refusal of [power_policy_init]. *)

From S2P Require Import Prelude Trace Float32.

#[local] Open Scope io_scope.

(** ** Data *)

Record power_target_t := mk_power_target {
  voltage_mv : Z;
  frequency_mhz : f32;
}.
#[export] Instance power_target_t_eta : Eta power_target_t :=
  fun t => mk_power_target (voltage_mv t) (frequency_mhz t).

Inductive power_health_t := POWER_HEALTH_OK | POWER_HEALTH_OVERHEAT | POWER_HEALTH_FAULT.
Inductive power_start_result_t := POWER_START_OK | POWER_START_FAILED | POWER_START_OVERHEAT.
Inductive power_owner_t := POWER_OWNER_NONE | POWER_OWNER_OTA | POWER_OWNER_BRIDGE | POWER_OWNER_RESTART.
#[export] Instance power_health_t_eq_dec : EqDecision power_health_t.
Proof. solve_decision. Defined.
#[export] Instance power_start_result_t_eq_dec : EqDecision power_start_result_t.
Proof. solve_decision. Defined.
#[export] Instance power_owner_t_eq_dec : EqDecision power_owner_t.
Proof. solve_decision. Defined.

Record power_sample_t := mk_power_sample {
  health : power_health_t;
  vreg_valid : bool;
  vreg_c : f32;
  off_asic_sensor_required : bool;
  asic_valid : bool;
  asic_c : f32;
}.

Record power_operations_t (W : Type) := mk_power_operations {
  op_start : io W power_start_result_t;
  op_stop : io W bool;
  op_apply : power_target_t -> io W bool;
  op_maintenance : power_owner_t -> bool -> io W bool;
  op_overheat : bool -> io W unit;
  op_save_target : power_target_t -> io W bool;
  op_cancelled : option (io W bool);
  minimum_voltage_mv : Z;
  minimum_frequency_mhz : f32;
}.
Arguments mk_power_operations {W}.
Arguments op_start {W}.
Arguments op_stop {W}.
Arguments op_apply {W}.
Arguments op_maintenance {W}.
Arguments op_overheat {W}.
Arguments op_save_target {W}.
Arguments op_cancelled {W}.
Arguments minimum_voltage_mv {W}.
Arguments minimum_frequency_mhz {W}.

(** The policy less its operation table, which never changes after
    initialisation. *)
Record power_policy_t := mk_power_policy {
  ready : bool;
  running : bool;
  stopped : bool;
  paused : bool;
  fault : bool;
  cooling : bool;
  reduced_target_saved : bool;
  pool_unavailable : bool;
  target : power_target_t;
  owner : power_owner_t;
  cooling_since_ms : Z;
  cooling_target : power_target_t;
}.
#[export] Instance power_policy_t_eta : Eta power_policy_t :=
  fun p => mk_power_policy (ready p) (running p) (stopped p) (paused p) (fault p) (cooling p)
    (reduced_target_saved p) (pool_unavailable p) (target p) (owner p) (cooling_since_ms p)
    (cooling_target p).

Definition zero_target : power_target_t := {| voltage_mv := 0; frequency_mhz := S754_zero false |}.

Definition owned (p : power_policy_t) : bool := negb (bool_decide (owner p = POWER_OWNER_NONE)).

(** ** Operations *)

Section policy.
Context {W : Type} (ops : power_operations_t W).

Definition power_policy_init : option power_policy_t :=
  if (minimum_voltage_mv ops =? 0) || negb (is_finite (minimum_frequency_mhz ops)) ||
     fle (minimum_frequency_mhz ops) (f32_of_Z 0)
  then None
  else
    Some {| ready := false; running := false; stopped := false; paused := false; fault := false;
            cooling := false; reduced_target_saved := false; pool_unavailable := false;
            target := zero_target; owner := POWER_OWNER_NONE; cooling_since_ms := 0;
            cooling_target := zero_target |}.

Definition stop (p : power_policy_t) : io W (bool * power_policy_t) :=
  let! ok := op_stop ops in
  let p := p <| running := false; stopped := ok |> in
  io_ret (ok, if ok then p else p <| fault := true |>).

Definition cancelled : io W bool :=
  match op_cancelled ops with Some c => c | None => io_ret false end.

Definition begin_cooling (p : power_policy_t) (now_ms : Z) (t : power_target_t) : io W power_policy_t :=
  let! _ := op_overheat ops true in
  let! stopped := stop (p <| cooling := true; cooling_since_ms := now_ms; cooling_target := t;
                             reduced_target_saved := false |>) in
  io_ret (snd stopped).

Definition power_policy_pause (p : power_policy_t) : io W (bool * power_policy_t) :=
  let p := p <| paused := true |> in
  if owned p then io_ret (false, p) else stop p.

(** [policy->fault = !cancelled(policy); (void)stop(policy);] *)
Definition fail_unless_cancelled (p : power_policy_t) : io W power_policy_t :=
  let! c := cancelled in
  let! stopped := stop (p <| fault := negb c |>) in
  io_ret (snd stopped).

Definition power_policy_resume (p : power_policy_t) : io W (bool * power_policy_t) :=
  if negb (ready p) || fault p || owned p then io_ret (false, p)
  else
    let p := p <| paused := false |> in
    if cooling p || pool_unavailable p then io_ret (true, p)
    else if running p then io_ret (true, p)
    else
      let! started := op_start ops in
      let! overheat :=
        match started with
        | POWER_START_OVERHEAT => let! c := cancelled in io_ret (negb c)
        | _ => io_ret false
        end in
      if (overheat : bool) then
        let! p := begin_cooling p UINT64_MAX (target p) in io_ret (false, p)
      else
        let! failed :=
          match started with
          | POWER_START_OK => cancelled
          | _ => io_ret true
          end in
        if (failed : bool) then
          let! p := fail_unless_cancelled p in io_ret (false, p)
        else io_ret (true, p <| running := true; stopped := false |>).

Definition power_policy_maintenance (p : power_policy_t) (o : power_owner_t) (acquire : bool)
    : io W (bool * power_policy_t) :=
  if bool_decide (o = POWER_OWNER_NONE) then io_ret (false, p)
  else if acquire then
    if owned p then io_ret (false, p)
    else
      let p := p <| paused := true; running := false |> in
      let! ok := op_maintenance ops o true in
      if negb ok then io_ret (false, p <| fault := true; stopped := false |>)
      else io_ret (true, p <| owner := o; stopped := true |>)
  else if negb (bool_decide (owner p = o)) then io_ret (false, p)
  else
    let! released := op_maintenance ops o false in
    let p := p <| owner := POWER_OWNER_NONE |> in
    if negb released then io_ret (false, p <| fault := true; stopped := false |>)
    else io_ret (true, p).

(** The reduced target of a recovery; [None] when the target it started from is
    below the minimum. *)
Definition reduced_target (t : power_target_t) : option power_target_t :=
  if negb (is_finite (frequency_mhz t)) || flt (frequency_mhz t) (minimum_frequency_mhz ops) ||
     (voltage_mv t <? minimum_voltage_mv ops)
  then None
  else
    let lowered := fsub (frequency_mhz t) (f32_of_Z 100) in
    Some {| voltage_mv := if minimum_voltage_mv ops + 100 <? voltage_mv t
                          then voltage_mv t - 100 else minimum_voltage_mv ops;
            frequency_mhz := if flt (minimum_frequency_mhz ops) lowered
                             then lowered else minimum_frequency_mhz ops |}.

(** [true]: the reduced target is saved; [false]: the step ends here. *)
Definition save_reduced (p : power_policy_t) : io W (bool * power_policy_t) :=
  if reduced_target_saved p then io_ret (true, p)
  else
    match reduced_target (cooling_target p) with
    | None => io_ret (false, p <| fault := true |>)
    | Some reduced =>
        let! saved := op_save_target ops reduced in
        if negb saved then io_ret (false, p <| fault := true |>)
        else io_ret (true, p <| reduced_target_saved := true |>)
    end.

(** Whether a cooling board may be restarted on this sample, and the policy with
    its cooldown clock restarted by a hot sensor. *)
Definition cooled (p : power_policy_t) (now_ms : Z) (s : power_sample_t) : bool * power_policy_t :=
  if negb (stopped p) || negb (vreg_valid s) || negb (is_finite (vreg_c s)) then (false, p)
  else if off_asic_sensor_required s && (negb (asic_valid s) || negb (is_finite (asic_c s))) then (false, p)
  else if off_asic_sensor_required s && flt (f32_of_Z 45) (asic_c s)
  then (false, p <| cooling_since_ms := now_ms |>)
  else if (now_ms <? cooling_since_ms p) || (now_ms - cooling_since_ms p <? 30000) ||
          flt (f32_of_Z 95) (vreg_c s)
  then (false, p)
  else (true, p).

Definition cooling_step (p : power_policy_t) (now_ms : Z) (t : power_target_t) (s : power_sample_t)
    (pools_unavailable : bool) : io W power_policy_t :=
  let p := if cooling_since_ms p =? UINT64_MAX then p <| cooling_since_ms := now_ms |> else p in
  let '(cool, p) := cooled p now_ms s in
  if negb cool then io_ret p
  else
    let! (saved, p) := save_reduced p in
    if negb saved then io_ret p
    else if negb (ready p) || paused p || pools_unavailable then io_ret p
    else
      let! started := op_start ops in
      let! overheat :=
        match started with
        | POWER_START_OVERHEAT => let! c := cancelled in io_ret (negb c)
        | _ => io_ret false
        end in
      if (overheat : bool) then begin_cooling p now_ms t
      else
        let! failed :=
          match started with
          | POWER_START_OK => cancelled
          | _ => io_ret true
          end in
        if (failed : bool) then fail_unless_cancelled p
        else
          let! _ := op_overheat ops false in
          io_ret (p <| running := true; stopped := false; cooling := false |>).

(** [if (!policy->stopped) (void)stop(policy);] *)
Definition ensure_stopped (p : power_policy_t) : io W power_policy_t :=
  if stopped p then io_ret p else let! (_, p) := stop p in io_ret p.

(** The step of a board that neither has a fault nor cools down. *)
Definition running_step (p : power_policy_t) (t : power_target_t) (pools_unavailable : bool)
    : io W power_policy_t :=
  if paused p || pools_unavailable || negb (ready p) then ensure_stopped p
  else
    let! (resumed, p) := if running p then io_ret (true, p) else power_policy_resume p in
    if negb resumed then io_ret p
    else
      let! applied := op_apply ops t in
      let! failed := if negb applied then io_ret true else cancelled in
      if (failed : bool) then fail_unless_cancelled p else io_ret p.

Definition power_policy_step (p : power_policy_t) (now_ms : Z) (t : power_target_t) (s : power_sample_t)
    (pools_unavailable hardware_fault persisted_overheat : bool) : io W power_policy_t :=
  let p := p <| target := t; pool_unavailable := pools_unavailable |> in
  if owned p then io_ret p
  else
    let p := if hardware_fault || bool_decide (health s = POWER_HEALTH_FAULT)
             then p <| fault := true |> else p in
    if fault p then ensure_stopped p
    else
      let overheat := negb (cooling p) &&
                      (bool_decide (health s = POWER_HEALTH_OVERHEAT) || persisted_overheat) in
      let! p := if overheat then begin_cooling p now_ms t else io_ret p in
      if overheat && negb (stopped p) then io_ret p
      else if cooling p then cooling_step p now_ms t s pools_unavailable
      else running_step p t pools_unavailable.
End policy.

(** ** The control task as a transition system *)

Inductive power_event :=
| EvStart (r : power_start_result_t)
| EvStop (ok : bool)
| EvApply (t : power_target_t) (ok : bool)
| EvMaintenance (o : power_owner_t) (acquire ok : bool)
| EvOverheat (enabled : bool)
| EvSave (t : power_target_t) (ok : bool).

(** What the board operations have proved about the power. *)
Inductive board_power := Unproved | ProvedOff | Started.
#[export] Instance board_power_eq_dec : EqDecision board_power.
Proof. solve_decision. Defined.

Definition board_event (b : board_power) (e : power_event) : board_power :=
  match e with
  | EvStart POWER_START_OK => Started
  | EvStart _ => Unproved
  | EvStop ok => if ok then ProvedOff else Unproved
  | EvMaintenance _ true ok => if ok then ProvedOff else Unproved
  | EvMaintenance _ false ok => if ok then b else Unproved
  | _ => b
  end.
Definition board (log : list power_event) : board_power := foldl board_event Unproved log.

Inductive command :=
| Ready (r : bool)
| Observe (t : power_target_t) (pools_unavailable : bool)
| ForcePause
| Pause
| Resume
| Maintenance (o : power_owner_t) (acquire : bool)
| Step (now_ms : Z) (t : power_target_t) (s : power_sample_t)
    (pools_unavailable hardware_fault persisted_overheat : bool).

Section system.
Context {W : Type} (ops : power_operations_t W).

Abbreviation world := (W * list power_event)%type.

Definition traced_ops : power_operations_t world :=
  {| op_start := traced (op_start ops) EvStart;
     op_stop := traced (op_stop ops) EvStop;
     op_apply := fun t => traced (op_apply ops t) (EvApply t);
     op_maintenance := fun o acquire => traced (op_maintenance ops o acquire) (EvMaintenance o acquire);
     op_overheat := fun enabled => traced (op_overheat ops enabled) (fun _ => EvOverheat enabled);
     op_save_target := fun t => traced (op_save_target ops t) (EvSave t);
     op_cancelled := lifted <$> op_cancelled ops;
     minimum_voltage_mv := minimum_voltage_mv ops;
     minimum_frequency_mhz := minimum_frequency_mhz ops |}.

Definition perform (c : command) (p : power_policy_t) : io world power_policy_t :=
  match c with
  | Ready r => io_ret (p <| ready := r |>)
  | Observe t pools => io_ret (p <| target := t; pool_unavailable := pools |>)
  | ForcePause => io_ret (p <| paused := true |>)
  | Pause => let! (_, p) := power_policy_pause traced_ops p in io_ret p
  | Resume => let! (_, p) := power_policy_resume traced_ops p in io_ret p
  | Maintenance o acquire => let! (_, p) := power_policy_maintenance traced_ops p o acquire in io_ret p
  | Step now_ms t s pools hw persisted => power_policy_step traced_ops p now_ms t s pools hw persisted
  end.

(** The task starts from an initialised policy, with a fault when the board did
    not come up. *)
Definition power_init (s : power_policy_t * world) : Prop :=
  exists p w f, power_policy_init ops = Some p /\ s = (p <| fault := f |>, (w, [])).
Inductive power_step : power_policy_t * world -> power_policy_t * world -> Prop :=
| power_step_perform c p w : power_step (p, w) (perform c p w).
Definition power_reachable : power_policy_t * world -> Prop := reachable power_init power_step.

(** *** Symbolic execution *)

Lemma emits_cancelled (post : bool -> list power_event -> Prop) :
  (forall c, post c []) -> emits (cancelled traced_ops) post.
Proof.
  intros H. unfold cancelled, traced_ops; cbn. destruct (op_cancelled ops); cbn; [by apply emits_lifted|].
  by apply emits_ret.
Qed.

(** *** The invariant *)

Record inv (p : power_policy_t) (b : board_power) : Prop := {
  inv_stopped : stopped p = true -> b = ProvedOff;
  inv_running : running p = true <-> b = Started;
  inv_idle : running p = true -> cooling p = false /\ fault p = false /\ owned p = false;
  inv_owned : owned p = true -> stopped p = true /\ paused p = true;
}.

Definition active (e : power_event) : bool :=
  match e with EvStart _ | EvApply _ _ => true | _ => false end.

(** What every operation keeps: the invariant, and a fault once latched. *)
Definition keeps (p : power_policy_t) (b : board_power) (p' : power_policy_t) (evs : list power_event) : Prop :=
  inv p' (foldl board_event b evs) /\
  (fault p = true -> fault p' = true /\ Forall (fun e => active e = false) evs).

Lemma inv_off p b :
  owned p = false -> running p = false -> (stopped p = true -> b = ProvedOff) -> b <> Started -> inv p b.
Proof. intros Ho Hr Hs Hb. split; rewrite ?Ho, ?Hr; try done. Qed.

Lemma inv_on p :
  owned p = false -> running p = true -> stopped p = false -> cooling p = false -> fault p = false ->
  inv p Started.
Proof. intros Ho Hr Hs Hc Hf. split; rewrite ?Ho, ?Hr, ?Hs; done. Qed.

(** The policy after a shutdown that returned [ok]. *)
Definition shut (ok : bool) (p : power_policy_t) : power_policy_t :=
  p <| running := false; stopped := ok; fault := fault p || negb ok |>.

Lemma inv_shut ok p :
  owned p = false -> inv (shut ok p) (if ok then ProvedOff else Unproved).
Proof. intros H. apply inv_off; destruct ok; done. Qed.

Lemma stop_emits p (post : bool * power_policy_t -> list power_event -> Prop) :
  (forall ok, post (ok, shut ok p) [EvStop ok]) -> emits (stop traced_ops p) post.
Proof.
  intros H. unfold stop. apply emits_bind, emits_traced. intros ok. apply emits_ret. cbn.
  specialize (H ok). unfold shut in H. destruct ok; cbn in *; [|by rewrite orb_true_r in H].
  rewrite orb_false_r in H. by destruct p.
Qed.

Lemma begin_cooling_emits p now_ms t (post : power_policy_t -> list power_event -> Prop) :
  (forall ok, post (shut ok (p <| cooling := true; cooling_since_ms := now_ms; cooling_target := t;
                                  reduced_target_saved := false |>)) [EvOverheat true; EvStop ok]) ->
  emits (begin_cooling traced_ops p now_ms t) post.
Proof.
  intros H. unfold begin_cooling. apply emits_bind, emits_traced. intros _.
  apply emits_bind, stop_emits. intros ok. apply emits_ret. apply H.
Qed.

Lemma fail_unless_cancelled_emits p (post : power_policy_t -> list power_event -> Prop) :
  (forall f ok, post (shut ok (p <| fault := f |>)) [EvStop ok]) ->
  emits (fail_unless_cancelled traced_ops p) post.
Proof.
  intros H. unfold fail_unless_cancelled. apply emits_bind, emits_cancelled. intros c.
  apply emits_bind, stop_emits. intros ok. apply emits_ret. apply H.
Qed.

Lemma ensure_stopped_emits p (post : power_policy_t -> list power_event -> Prop) :
  (stopped p = true -> post p []) -> (forall ok, post (shut ok p) [EvStop ok]) ->
  emits (ensure_stopped traced_ops p) post.
Proof.
  intros H1 H2. unfold ensure_stopped. destruct (stopped p); [apply emits_ret; auto|].
  apply emits_bind, stop_emits. intros ok. apply emits_ret. apply H2.
Qed.

End system.

Ltac policy_step :=
  lazymatch goal with
  | |- emits (begin_cooling _ _ _ _) _ => apply begin_cooling_emits; intros ?
  | |- emits (fail_unless_cancelled _ _) _ => apply fail_unless_cancelled_emits; intros ? ?
  | |- emits (ensure_stopped _ _) _ => apply ensure_stopped_emits; [intros ?|intros ?]
  | |- emits (stop _ _) _ => apply stop_emits; intros ?
  | |- emits (cancelled _) _ => apply emits_cancelled; intros ?
  | |- _ => first [symbolic_step | apply emits_traced; intros ?]
  end; cbn [fst snd].
Ltac symbolic := repeat policy_step; cbn [app].

Section invariant.
Context {W : Type} (ops : power_operations_t W).


Lemma keeps_refl (p q : power_policy_t) b :
  inv p b -> (paused q = paused p \/ paused q = true \/ owned p = false) ->
  running q = running p -> stopped q = stopped p -> cooling q = cooling p ->
  fault q = fault p -> owner q = owner p -> keeps p b q [].
Proof.
  intros [H1 H2 H3 H4] H5 Er Es Ec Ef Eo.
  assert (owned q = owned p) as Ew by (unfold owned; by rewrite Eo).
  split; [split; rewrite ?Er, ?Es, ?Ec, ?Ef, ?Ew; auto|by rewrite Ef].
  intros Hw. destruct (H4 Hw) as [Hs Hp]. split; [done|].
  destruct H5 as [->|[|]]; congruence.
Qed.

Lemma keeps_off (p : power_policy_t) b (q : power_policy_t) evs :
  owned q = false -> running q = false -> (stopped q = true -> foldl board_event b evs = ProvedOff) ->
  foldl board_event b evs <> Started ->
  (fault p = true -> fault q = true /\ Forall (fun e => active e = false) evs) -> keeps p b q evs.
Proof. intros. split; [by apply inv_off|done]. Qed.

Lemma keeps_shut (p : power_policy_t) b (ok : bool) (q : power_policy_t) evs :
  owned q = false -> (fault p = true -> fault q = true /\ Forall (fun e => active e = false) evs) ->
  foldl board_event b evs = (if ok then ProvedOff else Unproved) ->
  keeps p b (shut ok q) evs.
Proof.
  intros Ho Hf Hb. apply keeps_off; try done; try by rewrite Hb; destruct ok.
  intros [E ?]%Hf. split; [|done]. cbn. by rewrite E.
Qed.

Ltac settle :=
  prop_bool;
  first
    [ apply keeps_refl; [assumption|by eauto|reflexivity..]
    | apply keeps_shut; [done|let Hf := fresh in intros Hf; first [congruence|split; [done|by repeat constructor]]|done]
    | split; [by apply inv_on|congruence] ].

Lemma resume_keeps p b :
  inv p b -> emits (power_policy_resume (traced_ops ops) p) (fun r evs =>
    keeps p b (snd r) evs /\ (fst r = true -> owned (snd r) = false /\ fault (snd r) = false)).
Proof.
  intros H. unfold power_policy_resume. symbolic.
  all: split; [settle|cbn [fst]; prop_bool; by try done].
Qed.

Lemma pause_keeps p b :
  inv p b -> emits (power_policy_pause (traced_ops ops) p) (fun r evs => keeps p b (snd r) evs).
Proof. intros H. unfold power_policy_pause. symbolic; settle. Qed.

Lemma inv_maintenance p b :
  inv p b -> owner p <> POWER_OWNER_NONE -> running p = false /\ b = ProvedOff.
Proof.
  intros [H1 H2 H3 H4] Ho. assert (Hw : owned p = true) by (unfold owned; by rewrite bool_decide_false).
  split; [|by apply H1, H4]. apply not_true_is_false. intros Hr. apply H3 in Hr as (_ & _ & ?). congruence.
Qed.

Lemma maintenance_keeps p b o acquire :
  inv p b -> emits (power_policy_maintenance (traced_ops ops) p o acquire) (fun r evs => keeps p b (snd r) evs).
Proof.
  intros H. unfold power_policy_maintenance. symbolic; try settle; prop_bool; subst.
  - apply keeps_off; try done. by repeat constructor.
  - split; [by split|by repeat constructor].
  - destruct (inv_maintenance p b H) as [Hr Hb]; [done|]. apply keeps_off; try done. by repeat constructor.
  - destruct (inv_maintenance p b H) as [Hr Hb]; [done|]. apply keeps_off; try done; [by subst|].
    by repeat constructor.
Qed.

(** A policy that cools down, possibly with its clock restarted. *)
Lemma cooled_frame (p : power_policy_t) now_ms s r q :
  cooled p now_ms s = (r, q) ->
  q = p \/ (r = false /\ q = p <| cooling_since_ms := now_ms |>).
Proof. unfold cooled. repeat case_match; intros [= <- <-]; auto. Qed.

Lemma keeps_trans p b p1 e1 p2 e2 :
  keeps p b p1 e1 -> keeps p1 (foldl board_event b e1) p2 e2 -> keeps p b p2 (e1 ++ e2).
Proof.
  intros [I1 F1] [I2 F2]. split; [by rewrite foldl_app|]. intros Hf.
  destruct (F1 Hf) as [Hf1 Q1]. destruct (F2 Hf1) as [Hf2 Q2]. split; [done|by apply Forall_app].
Qed.

Lemma idle_keeps p b q evs :
  inv p b -> cooling p = true -> owned q = false -> running q = false -> stopped q = stopped p ->
  fault p = false -> foldl board_event b evs = b -> keeps p b q evs.
Proof.
  intros [H1 H2 H3 H4] Hc Ho Hr Hs Hf He.
  assert (running p = false) as Hrp by (apply not_true_is_false; intros (? & ? & ?)%H3; congruence).
  apply keeps_off; rewrite ?He, ?Hs; try done; [|congruence].
  intros Hb%H2. congruence.
Qed.

Lemma cooling_step_keeps p b now_ms t s pools :
  inv p b -> owned p = false -> fault p = false -> cooling p = true ->
  emits (cooling_step (traced_ops ops) p now_ms t s pools) (keeps p b).
Proof.
  intros H Ho Hf Hc. unfold cooling_step, save_reduced.
  assert (Hr : running p = false) by (apply not_true_is_false; intros (?&?&?)%H; congruence).
  set (p0 := if cooling_since_ms p =? UINT64_MAX then _ else p).
  assert (Hp0 : exists since, p0 = p <| cooling_since_ms := since |>).
  { unfold p0. case_match; [by exists now_ms|exists (cooling_since_ms p); by destruct p]. }
  destruct Hp0 as [since Hp0]. clearbody p0. subst p0. set (p0 := p <| cooling_since_ms := since |>).
  symbolic.
  all: match goal with E : cooled _ _ _ = _ |- _ => apply cooled_frame in E as [->|[? ->]] end.
  all: prop_bool; subst; try done.
  all: try (by apply idle_keeps).
  all: try (apply keeps_shut; [done|cbn; congruence|done]).
  all: try (split; [by apply inv_on|cbn; congruence]).
Qed.

Lemma running_step_keeps p b t pools :
  inv p b -> owned p = false -> fault p = false -> cooling p = false ->
  emits (running_step (traced_ops ops) p t pools) (keeps p b).
Proof.
  intros H Ho Hf Hc. unfold running_step. symbolic; try settle; try congruence.
  - split; [done|congruence].
  - eapply emits_mono; [by apply resume_keeps|]. intros [r q] e1 [Hq Hg]. cbn [fst snd] in *.
    destruct r; cbn [negb]; [|apply emits_ret; by rewrite app_nil_r].
    destruct (Hg eq_refl) as [Hoq Hfq]. pose proof (proj1 Hq) as Hi.
    symbolic.
    all: apply (keeps_trans p b q e1); [done|].
    all: first [apply keeps_shut; [done|congruence|done] | split; [done|congruence]].
Qed.

Lemma step_keeps p b now_ms t s pools hw persisted :
  inv p b -> emits (power_policy_step (traced_ops ops) p now_ms t s pools hw persisted) (keeps p b).
Proof.
  intros H. unfold power_policy_step. cbn zeta.
  destruct (owned _) eqn:Ho; [apply emits_ret; apply keeps_refl; by auto|].
  change (owned p = false) in Ho. set (p0 := p <| target := t; pool_unavailable := pools |>).
  assert (H0 : inv p0 b) by (destruct H; by split).
  change (keeps p b) with (keeps p0 b). change (owned p0 = false) in Ho.
  clearbody p0. clear H p. rename p0 into p, H0 into H.
  destruct (hw || _).
  { change (fault (p <| fault := true |>)) with true. cbn match. apply ensure_stopped_emits.
    - intros Hs. apply (inv_stopped _ _ H) in Hs as Hb. subst b. apply keeps_off; try done.
      apply not_true_is_false. by intros Hr%H.
    - intros ok. apply keeps_shut; [done|intros _; split; [done|by repeat constructor]|done]. }
  destruct (fault p) eqn:Hf.
  { apply ensure_stopped_emits.
    - intros Hs. apply keeps_refl; by auto.
    - intros ok. apply keeps_shut; [done|intros _; split; [done|by repeat constructor]|done]. }
  destruct (cooling p) eqn:Hc; cbn [negb andb].
  { apply emits_bind, emits_ret. cbn [app]. rewrite Hc. by apply cooling_step_keeps. }
  destruct (_ || _); cbn [andb]; apply emits_bind.
  - apply begin_cooling_emits. intros ok. set (q := shut ok _).
    assert (Hq : inv q (if ok then ProvedOff else Unproved)) by (by apply inv_shut).
    assert (Hk : keeps p b q [EvOverheat true; EvStop ok]) by (by apply keeps_shut; [|congruence|]).
    symbolic; prop_bool; try done; try congruence.
    eapply emits_mono; [apply (cooling_step_keeps q)|]; try done; [cbn|].
    + rewrite Hf. change (ok = true) in E. by rewrite E.
    + intros q' e Hq'. by apply (keeps_trans p b q [_; _]).
  - apply emits_ret. cbn [app andb]. rewrite Hc. by apply running_step_keeps.
Qed.

Lemma perform_keeps c p b : inv p b -> emits (perform ops c p) (keeps p b).
Proof.
  intros H. destruct c; cbn [perform].
  - apply emits_ret. apply keeps_refl; by auto.
  - apply emits_ret. apply keeps_refl; by auto.
  - apply emits_ret. apply keeps_refl; by auto.
  - apply emits_bind. eapply emits_mono; [by apply pause_keeps|]. intros [r q] e Hq.
    apply emits_ret. by rewrite app_nil_r.
  - apply emits_bind. eapply emits_mono; [by apply resume_keeps|]. intros [r q] e [Hq _].
    apply emits_ret. by rewrite app_nil_r.
  - apply emits_bind. eapply emits_mono; [by apply maintenance_keeps|]. intros [r q] e Hq.
    apply emits_ret. by rewrite app_nil_r.
  - by apply step_keeps.
Qed.

Lemma power_invariant p w log : power_reachable ops (p, (w, log)) -> inv p (board log).
Proof.
  intros H. enough (forall s, power_reachable ops s -> inv (fst s) (board (snd (snd s)))) as Hall by apply (Hall _ H).
  apply reachable_invariant.
  - intros s (q & w0 & f & Hq & ->). unfold power_policy_init in Hq. destruct (_ || _); [done|].
    injection Hq as <-. by apply inv_off.
  - intros s s' Hs Hstep. destruct Hstep as [c q [w0 l]]. cbn [fst snd] in *.
    destruct (perform_keeps c q (board l) Hs w0 l) as (q' & w' & evs & -> & Hk & _). cbn [fst snd].
    unfold board in *. by rewrite foldl_app.
Qed.

(** *** Starts *)

Definition starts (evs : list power_event) : nat :=
  length (List.filter (fun e => match e with EvStart _ => true | _ => false end) evs).

Lemma starts_app e1 e2 : starts (e1 ++ e2) = (starts e1 + starts e2)%nat.
Proof. unfold starts. by rewrite List.filter_app, length_app. Qed.

(** When a command may start the board. *)
Definition start_allowed (c : command) (p : power_policy_t) (evs : list power_event) : Prop :=
  match c with
  | Resume => cooling p = false /\ pool_unavailable p = false
  | Step now_ms t s pools hw persisted =>
      pools = false /\ hw = false /\ paused p = false /\ health s <> POWER_HEALTH_FAULT /\
      if cooling p then
        stopped p = true /\ cooling_since_ms p + 30000 <= now_ms /\
        vreg_valid s = true /\ is_finite (vreg_c s) = true /\ flt (f32_of_Z 95) (vreg_c s) = false /\
        (off_asic_sensor_required s = true ->
           asic_valid s = true /\ is_finite (asic_c s) = true /\ flt (f32_of_Z 45) (asic_c s) = false) /\
        (reduced_target_saved p = true \/
         exists r, reduced_target ops (cooling_target p) = Some r /\ EvSave r true ∈ evs)
      else health s <> POWER_HEALTH_OVERHEAT /\ persisted = false
  | _ => False
  end.

Lemma cooled_spec (p : power_policy_t) now_ms s q :
  cooled p now_ms s = (true, q) ->
  q = p /\ stopped p = true /\ cooling_since_ms p + 30000 <= now_ms /\
  vreg_valid s = true /\ is_finite (vreg_c s) = true /\ flt (f32_of_Z 95) (vreg_c s) = false /\
  (off_asic_sensor_required s = true ->
     asic_valid s = true /\ is_finite (asic_c s) = true /\ flt (f32_of_Z 45) (asic_c s) = false).
Proof.
  unfold cooled. repeat (guard_goal; [done|]). intros Heq. injection Heq as <-. prop_bool.
  repeat match goal with H : (_ <? _) = false |- _ => apply Z.ltb_ge in H end.
  split_and!; try done; try lia. intros Hr. rewrite Hr in *. cbn [andb] in *. prop_bool. by split_and!.
Qed.

Lemma resume_starts p :
  emits (power_policy_resume (traced_ops ops) p) (fun _ evs => (starts evs <= 1)%nat /\
    (starts evs <> 0%nat -> ready p = true /\ fault p = false /\ owned p = false /\ running p = false /\
       cooling p = false /\ pool_unavailable p = false)).
Proof.
  unfold power_policy_resume. symbolic; (split; [cbn; lia|]); try (by cbn).
  all: intros _; prop_bool; by split_and!.
Qed.

(** What a command may do about starting the board. *)
Definition guarded (c : command) (p : power_policy_t) (evs : list power_event) : Prop :=
  (starts evs <= 1)%nat /\
  (starts evs <> 0%nat ->
     ready p = true /\ fault p = false /\ owned p = false /\ running p = false /\ start_allowed c p evs).

Lemma guarded_none c p evs : starts evs = 0%nat -> guarded c p evs.
Proof. intros H. split; [lia|done]. Qed.

Lemma cooling_step_starts p now_ms t s pools :
  emits (cooling_step (traced_ops ops) p now_ms t s pools) (fun _ evs => (starts evs <= 1)%nat /\
    (starts evs <> 0%nat -> ready p = true /\ pools = false /\ paused p = false /\
       cooling_since_ms p <> UINT64_MAX /\ cooled p now_ms s = (true, p) /\
       (reduced_target_saved p = true \/
        exists r, reduced_target ops (cooling_target p) = Some r /\ EvSave r true ∈ evs))).
Proof.
  unfold cooling_step.
  destruct (cooled _ _ _) as [[] q] eqn:Hcooled; cbn [negb]; [|apply emits_ret; split; [cbn; lia|done]].
  destruct (cooled_spec _ _ _ _ Hcooled) as (-> & _ & Hsince & _).
  destruct (Z.eqb_spec (cooling_since_ms p) UINT64_MAX) as [E|E].
  { cbn [set_field cooling_since_ms] in Hsince. cbn in Hsince. lia. }
  unfold save_reduced. symbolic; prop_bool; subst; (split; [cbn; lia|]); try (by cbn).
  all: intros _; split_and!; try done; first [by left|right; eexists; split; [eassumption|by left]].
Qed.

Lemma step_starts p now_ms t s pools hw persisted :
  (cooling p = true -> running p = false) ->
  emits (power_policy_step (traced_ops ops) p now_ms t s pools hw persisted)
    (fun _ evs => guarded (Step now_ms t s pools hw persisted) p evs).
Proof.
  intros Hcr. unfold power_policy_step. cbn zeta.
  destruct (owned _) eqn:Ho; [apply emits_ret; by apply guarded_none|]. change (owned p = false) in Ho.
  destruct (hw || _) eqn:Ehw.
  { cbn. apply ensure_stopped_emits; intros; by apply guarded_none. }
  prop_bool. cbn [set_field fault cooling]. destruct (fault _) eqn:Hf.
  { apply ensure_stopped_emits; intros; by apply guarded_none. }
  change (fault p = false) in Hf. set (p0 := p <| target := t; pool_unavailable := pools |>).
  destruct (cooling p) eqn:Hc; cbn [negb andb].
  { apply emits_bind, emits_ret. cbn [app]. change (cooling p0) with (cooling p). rewrite Hc.
    eapply emits_mono; [apply cooling_step_starts|]. intros q evs [H1 H2]. split; [done|].
    intros (Hr & Hp & Hpa & Hs & Hco & Hsave)%H2. apply cooled_spec in Hco as (_ & Hco).
    unfold start_allowed. rewrite Hc. split_and!; try done; try by apply Hco. by apply Hcr. }
  destruct (_ || persisted) eqn:Eov; cbn [andb]; apply emits_bind.
  - apply begin_cooling_emits. intros ok. set (q := shut ok _).
    symbolic; prop_bool; try (by apply guarded_none); try done; try congruence.
    eapply emits_mono; [apply cooling_step_starts|]. intros q' evs [H1 H2].
    apply guarded_none. cbn. destruct (decide (starts evs = 0%nat)) as [|Hn]; [done|].
    apply H2 in Hn as (_ & _ & _ & _ & Hco & _). apply cooled_spec in Hco as (_ & _ & Hco & _). cbn in Hco. lia.
  - apply emits_ret. cbn [app]. prop_bool. cbn [andb].
    change (cooling p0) with (cooling p). rewrite Hc. unfold running_step.
    symbolic; prop_bool; try (by apply guarded_none); try done; try congruence.
    eapply emits_mono; [apply resume_starts|]. intros [r q] e1 [Hs1 Hs2]. cbn [fst snd] in *.
    assert (Hg : forall e2, starts e2 = 0%nat -> guarded (Step now_ms t s pools hw persisted) p (e1 ++ e2)).
    { intros e2 E2. unfold guarded. rewrite starts_app, E2, Nat.add_0_r. split; [done|].
      intros (Hr & _ & _ & Hru & _ & Hpo)%Hs2. unfold start_allowed. rewrite Hc. by split_and!. }
    symbolic; by apply Hg.
Qed.

Lemma perform_guarded c p b : inv p b -> emits (perform ops c p) (fun _ evs => guarded c p evs).
Proof.
  intros H. destruct c; cbn [perform]; try (apply emits_ret; by apply guarded_none).
  - apply emits_bind. unfold power_policy_pause. symbolic; by apply guarded_none.
  - apply emits_bind. eapply emits_mono; [apply resume_starts|]. intros [r q] e [H1 H2].
    apply emits_ret. rewrite app_nil_r. split; [done|]. intros (? & ? & ? & ? & ? & ?)%H2. by split_and!.
  - apply emits_bind. unfold power_policy_maintenance. symbolic; by apply guarded_none.
  - apply step_starts. intros Hc. apply not_true_is_false. intros (? & _)%H. congruence.
Qed.

(** Reasons why a step must leave the board off. *)
Definition must_stop (p : power_policy_t) (s : power_sample_t) (pools hw persisted : bool) : bool :=
  fault p || hw || bool_decide (health s = POWER_HEALTH_FAULT) ||
  (negb (cooling p) && (bool_decide (health s = POWER_HEALTH_OVERHEAT) || persisted)) ||
  paused p || pools || negb (ready p).

Lemma cooling_step_stays_off p now_ms t s pools :
  running p = false -> paused p || pools || negb (ready p) = true ->
  emits (cooling_step (traced_ops ops) p now_ms t s pools) (fun q _ => running q = false).
Proof.
  intros Hr Hm. unfold cooling_step, save_reduced.
  destruct (cooled _ _ _) as [r q] eqn:Hc.
  assert (Hq : running q = false /\ paused q = paused p /\ ready q = ready p).
  { apply cooled_frame in Hc as [->|[_ ->]]; case_match; done. }
  destruct Hq as (Hqr & Hqp & Hqy). clear Hc. symbolic; prop_bool; try done.
  all: cbn in *; destruct (paused p), pools, (ready p); cbn in *; congruence.
Qed.

Lemma step_stops p b now_ms t s pools hw persisted :
  inv p b -> owned p = false -> must_stop p s pools hw persisted = true ->
  emits (perform ops (Step now_ms t s pools hw persisted) p) (fun q _ => running q = false).
Proof.
  intros H Ho Hm. cbn [perform]. unfold power_policy_step. cbn zeta.
  change (owned (p <| target := t; pool_unavailable := pools |>)) with (owned p). rewrite Ho.
  set (p0 := p <| target := t; pool_unavailable := pools |>).
  assert (Hstopped : stopped p = true -> running p = false).
  { intros Hs. apply not_true_is_false. intros Hr. apply H in Hs, Hr. congruence. }
  destruct (hw || _) eqn:Ehw; [by cbn; apply ensure_stopped_emits|]. prop_bool.
  change (fault p0) with (fault p). change (cooling p0) with (cooling p).
  destruct (fault p) eqn:Hf; [by apply ensure_stopped_emits|].
  unfold must_stop in Hm. rewrite Hf in Hm. destruct (cooling p) eqn:Hc; cbn [negb andb orb] in *.
  - apply emits_bind, emits_ret. change (cooling p0) with (cooling p). rewrite Hc.
    apply cooling_step_stays_off; [|by rewrite H0, bool_decide_false in Hm].
    apply not_true_is_false. intros (? & _)%H. congruence.
  - apply emits_bind. destruct (bool_decide (health s = POWER_HEALTH_OVERHEAT) || persisted) eqn:Eov.
    + apply begin_cooling_emits. intros ok. set (q := shut ok _). destruct (_ && _); [by apply emits_ret|].
      change (cooling q) with true. cbn match. unfold cooling_step.
      set (q0 := if cooling_since_ms q =? UINT64_MAX then _ else q).
      destruct (cooled q0 now_ms s) as [r q1] eqn:Hco.
      assert (Hq1 : running q1 = false).
      { apply cooled_frame in Hco as [->|[_ ->]]; unfold q0; by case_match. }
      destruct r; cbn [negb]; [|by apply emits_ret].
      apply cooled_spec in Hco as (_ & _ & Hco & _). unfold q0 in Hco. case_match; cbn in Hco; lia.
    + apply emits_ret. cbn [andb]. change (cooling p0) with (cooling p). rewrite Hc.
      unfold running_step. change (paused p0) with (paused p). change (ready p0) with (ready p).
      rewrite H0, bool_decide_false in Hm by done. cbn [orb] in Hm. rewrite Hm.
      apply ensure_stopped_emits; [exact Hstopped|done].
Qed.
End invariant.

(** ** Properties *)

Section properties.
Context {W : Type} (ops : power_operations_t W).

(** C29: The board is started only when it may be: in every reachable state, a
    command starts the board at most once, and only if the policy is ready, has
    no fault, is not handed over and its board is not already started; only a
    resume without cooldown or pool loss, or a step without pause, pool loss or
    hardware fault does so; and after an overheat only with the shutdown
    verified, thirty seconds since the last hot reading, a regulator of at most
    95 degrees, an external sensor, where one is required, of at most 45, and
    the reduced target saved. *)
Theorem power_policy_start_guarded p w log c :
  power_reachable ops (p, (w, log)) ->
  let '(_, (_, log')) := perform ops c p (w, log) in
  exists evs, log' = log ++ evs /\ (starts evs <= 1)%nat /\
    (starts evs <> 0%nat ->
       ready p = true /\ fault p = false /\ owner p = POWER_OWNER_NONE /\ board log <> Started /\
       start_allowed ops c p evs).
Proof.
  intros Hr. apply power_invariant in Hr as Hinv.
  destruct (perform_guarded ops c p _ Hinv w log) as (q & w' & evs & -> & Hc & Hg).
  exists evs. split_and!; [done|done|]. intros (H1 & H2 & H3 & H4 & H5)%Hg. split_and!; try done.
  - unfold owned in H3. by apply negb_false_iff, bool_decide_eq_true in H3.
  - intros Hb%Hinv. congruence.
Qed.

(** The policy's flags are proved by the board: in every reachable state,
    [stopped] is set only if the last thing the board did was a verified
    shutdown, [running] exactly if it was a successful start, and then there is
    no fault, cooldown or maintenance owner; during maintenance the board is
    verified off; and a latched fault stays latched whatever command follows,
    without another start or tuning step. *)
Theorem power_policy_flags_proved p w log c :
  power_reachable ops (p, (w, log)) ->
  (stopped p = true -> board log = ProvedOff) /\
  (running p = true <-> board log = Started) /\
  (running p = true -> fault p = false /\ cooling p = false /\ owner p = POWER_OWNER_NONE) /\
  (owner p <> POWER_OWNER_NONE -> board log = ProvedOff) /\
  (fault p = true ->
     let '(p', (_, log')) := perform ops c p (w, log) in
     fault p' = true /\ exists evs, log' = log ++ evs /\ Forall (fun e => active e = false) evs).
Proof.
  intros Hr. apply power_invariant in Hr as Hinv.
  split_and!; [by apply Hinv|by apply Hinv| | |].
  - intros (H1 & H2 & H3)%Hinv. split_and!; try done.
    unfold owned in H3. by apply negb_false_iff, bool_decide_eq_true in H3.
  - by apply inv_maintenance.
  - intros Hf. destruct (perform_keeps ops c p _ Hinv w log) as (q & w' & evs & -> & _ & Hk).
    destruct (Hk Hf). split; [done|]. by exists evs.
Qed.

(** A step that finds a reason to stop leaves the board off: with a fault, a
    hardware fault or bad health, an overheat outside a cooldown, a pause, lost
    pools or before the task is ready, and unless the board is handed over, the
    policy is not running afterwards and the board is not left started. *)
Theorem power_policy_step_stops p w log now_ms t s pools hw persisted :
  power_reachable ops (p, (w, log)) ->
  owner p = POWER_OWNER_NONE -> must_stop p s pools hw persisted = true ->
  let '(p', (_, log')) := perform ops (Step now_ms t s pools hw persisted) p (w, log) in
  running p' = false /\ board log' <> Started.
Proof.
  intros Hr Ho Hm. apply power_invariant in Hr as Hinv.
  assert (Hw : owned p = false) by (unfold owned; by rewrite bool_decide_true).
  destruct (step_stops ops p _ now_ms t s pools hw persisted Hinv Hw Hm w log) as (q & w' & evs & E & Hq).
  destruct (perform_keeps ops (Step now_ms t s pools hw persisted) p _ Hinv w log)
    as (q' & w2 & evs' & E' & Hk & _). rewrite E in E' |- *. simplify_eq.
  split; [done|]. unfold board in *. rewrite foldl_app. intros Hb%Hk. congruence.
Qed.
End properties.

(** ** A concrete board *)

Module Demo.
(** Every operation succeeds; the world counts the starts. *)
Definition board_ops : power_operations_t nat :=
  {| op_start := fun n => (POWER_START_OK, S n); op_stop := io_ret true; op_apply := fun _ => io_ret true;
     op_maintenance := fun _ _ => io_ret true; op_overheat := fun _ => io_ret tt;
     op_save_target := fun _ => io_ret true; op_cancelled := Some (io_ret false);
     minimum_voltage_mv := 2900; minimum_frequency_mhz := f32_of_Z 600 |}.

Definition wanted : power_target_t := {| voltage_mv := 3100; frequency_mhz := f32_of_Z 800 |}.
Definition sample (h : power_health_t) (vreg : Z) : power_sample_t :=
  {| health := h; vreg_valid := true; vreg_c := f32_of_Z vreg; off_asic_sensor_required := false;
     asic_valid := false; asic_c := f32_of_Z 0 |}.
Definition tick (now_ms : Z) (h : power_health_t) (vreg : Z) : command :=
  Step now_ms wanted (sample h vreg) false false false.

Definition run (cmds : list command) : power_policy_t * (nat * list power_event) :=
  foldl (fun s c => perform board_ops c (fst s) (snd s))
    (default (mk_power_policy false false false false false false false false zero_target POWER_OWNER_NONE 0 zero_target)
       (power_policy_init board_ops), (0%nat, [])) cmds.

Lemma power_run_reachable cmds : power_reachable board_ops (run cmds).
Proof.
  unfold run. set (s0 := (_, (0%nat, []))).
  assert (H0 : power_reachable board_ops s0).
  { exists s0. split; [|constructor]. by eexists _, 0%nat, false. }
  clearbody s0. revert s0 H0. induction cmds as [|c cmds IH]; intros [p w] H0; [done|]. cbn [foldl].
  apply IH. destruct H0 as (s1 & H1 & Hr). exists s1. split; [done|].
  eapply rtc_r; [done|]. apply power_step_perform.
Qed.

Definition policy_of (cmds : list command) : power_policy_t := fst (run cmds).
Definition log_of (cmds : list command) : list power_event := snd (snd (run cmds)).
Definition count_of (cmds : list command) : nat := fst (snd (run cmds)).

Lemma parts_reachable cmds : power_reachable board_ops (policy_of cmds, (count_of cmds, log_of cmds)).
Proof.
  unfold policy_of, count_of, log_of. pose proof (power_run_reachable cmds) as H.
  destruct (run cmds) as [p [n l]]. exact H.
Qed.

(** A start, an overheat, a cooldown that lasts half a minute and a restart with
    the reduced target. *)
Definition started : list command := [Ready true; tick 0 POWER_HEALTH_OK 60].
Definition overheated : list command := started ++ [tick 1000 POWER_HEALTH_OVERHEAT 110; tick 20000 POWER_HEALTH_OK 90].

Example recovery :
  snd (snd (run (overheated ++ [tick 31000 POWER_HEALTH_OK 90]))) =
    [EvStart POWER_START_OK; EvApply wanted true; EvOverheat true; EvStop true;
     EvSave {| voltage_mv := 3000; frequency_mhz := f32_of_Z 700 |} true;
     EvStart POWER_START_OK; EvOverheat false].
Proof. by vm_compute. Qed.

Lemma power_policy_start_guarded_witness :
  power_reachable board_ops (policy_of overheated, (count_of overheated, log_of overheated)) /\
  let '(_, (_, log')) := perform board_ops (tick 31000 POWER_HEALTH_OK 90) (policy_of overheated) (count_of overheated, log_of overheated) in
  exists evs, log' = log_of overheated ++ evs /\ (starts evs <= 1)%nat /\
    (starts evs <> 0%nat ->
       ready (policy_of overheated) = true /\ fault (policy_of overheated) = false /\
       owner (policy_of overheated) = POWER_OWNER_NONE /\
       board (log_of overheated) <> Started /\
       start_allowed board_ops (tick 31000 POWER_HEALTH_OK 90) (policy_of overheated) evs).
Proof.
  split; [apply parts_reachable|].
  exact (power_policy_start_guarded board_ops (policy_of overheated) (count_of overheated) (log_of overheated)
    (tick 31000 POWER_HEALTH_OK 90) (parts_reachable overheated)).
Defined.

Lemma power_policy_flags_proved_witness :
  running (policy_of started) = true /\ board (log_of started) = Started /\
  fault (policy_of started) = false.
Proof.
  destruct (power_policy_flags_proved board_ops (policy_of started) (count_of started) (log_of started)
    Pause (parts_reachable started)) as (_ & H2 & H3 & _).
  split; [reflexivity|]. split; [apply H2; reflexivity|apply H3; reflexivity].
Defined.

Lemma power_policy_step_stops_witness :
  must_stop (policy_of started) (sample POWER_HEALTH_OVERHEAT 110) false false false = true /\
  let '(p', (_, log')) := perform board_ops (tick 1000 POWER_HEALTH_OVERHEAT 110) (policy_of started) (count_of started, log_of started) in
  running p' = false /\ board log' <> Started.
Proof.
  split; [reflexivity|].
  exact (power_policy_step_stops board_ops (policy_of started) (count_of started) (log_of started) 1000 wanted
    (sample POWER_HEALTH_OVERHEAT 110) false false false (parts_reachable started) eq_refl eq_refl).
Defined.
End Demo.
