(* ===== verification/RuntimeHealth.v ===== *)
(** * Runtime health of a held board

    Models src/components/asic/bzm_runtime_health.c with its header: the
    fail-closed evaluation of one snapshot of a held board (bridge lease, fan,
    regulator, parser counters, telemetry), and the two counters that decide when
    the parser has settled and when it has realigned after a loss of
    synchronisation.  The diagnostic text of a result is not modelled, its
    status and its fault are; the checks that differ only in the counter their
    text names are one test over the list of counters. *)

From S2P Require Import Prelude Float32 Topology Validation Supervisor FrameParser Bridge LeaseGuard Telemetry Transport.
Open Scope Z_scope.

(** ** Data *)

Definition BZM_RUNTIME_HEALTH_TPS_OPERATION_ON_MASK : Z := 0x80.
Definition BZM_RUNTIME_HEALTH_TPS_STATUS_FAULT_MASK : Z := 0xffff.

Definition BZM_BRIDGE_SAFETY_CAP_5V_CONTROL : Z := Z.shiftl 1 0.
Definition BZM_BRIDGE_SAFETY_CAP_ASIC_RESET_CONTROL : Z := Z.shiftl 1 1.
Definition BZM_BRIDGE_SAFETY_CAP_FAN_FORCE_FULL : Z := Z.shiftl 1 2.
Definition BZM_BRIDGE_SAFETY_CAP_TRIP_INPUT_SAMPLED : Z := Z.shiftl 1 3.
Definition BZM_BRIDGE_SAFETY_CAP_FAN_CONTROLLED_SPEED : Z := Z.shiftl 1 7.
Definition BZM_BRIDGE_SAFETY_EVIDENCE_CORE_CUTOFF_AVAILABLE : Z := Z.shiftl 1 4.
Definition BZM_BRIDGE_SAFETY_EVIDENCE_FAN_TACH_INTERLOCK_AVAILABLE : Z := Z.shiftl 1 5.
Definition BZM_BRIDGE_SAFETY_EVIDENCE_INDEPENDENT_TRIP_MONITOR_AVAILABLE : Z := Z.shiftl 1 6.

Inductive bzm_runtime_health_status_t := BZM_RUNTIME_HEALTH_GOOD | BZM_RUNTIME_HEALTH_BAD.

Inductive bzm_runtime_health_fault_t :=
| FAULT_NONE | FAULT_INVALID_INPUT | FAULT_INVALID_STAGE
| FAULT_BRIDGE_UNAVAILABLE | FAULT_BRIDGE_STATUS_INVALID | FAULT_BRIDGE_CAPABILITY_MISSING
| FAULT_BRIDGE_STATE | FAULT_BRIDGE_FAULT | FAULT_BRIDGE_LEASE | FAULT_BRIDGE_OUTPUT
| FAULT_FAN_NOT_FULL | FAULT_FAN_TACH_UNAVAILABLE | FAULT_FAN_TACH_LOW
| FAULT_TPS_UNAVAILABLE | FAULT_TPS_PGOOD_LOW | FAULT_TPS_OPERATION_OFF | FAULT_TPS_STATUS
| FAULT_TPS_VIN_RANGE | FAULT_TPS_VOUT_RANGE | FAULT_TPS_TEMPERATURE_RANGE | FAULT_TPS_IOUT_RANGE
| FAULT_TPS_VOUT_COMMAND | FAULT_TPS_OVERHEAT
| FAULT_TELEMETRY_UNAVAILABLE | FAULT_TELEMETRY_MISSING | FAULT_TELEMETRY_INVALID | FAULT_TELEMETRY_TRIP
| FAULT_TELEMETRY_STALE | FAULT_TELEMETRY_BOUNDS | FAULT_TELEMETRY_CLOCK_UNLOCKED | FAULT_ASIC_OVERHEAT
| FAULT_PARSER_UNAVAILABLE | FAULT_PARSER_COUNTER_REGRESSED | FAULT_PARSER_ERROR_DELTA.

Record bzm_runtime_health_tps_sample_t := mk_tps_sample {
  available : bool;
  pgood : bool;
  operation : Z;
  status_word : Z;
  vout_command_v : f32;
  vout_command_matches_expected : bool;
  vin_v : f32;
  vout_v : f32;
  iout_a : f32;
  tps_temperature_c : f32;
}.

Record bzm_runtime_health_tps_bounds_t := mk_tps_bounds {
  vin_min_v : f32;
  vin_max_v : f32;
  expected_vout_command_v : f32;
  vout_command_tolerance_v : f32;
  vout_min_v : f32;
  vout_max_v : f32;
  iout_min_a : f32;
  iout_max_a : f32;
  tps_temperature_min_c : f32;
  tps_temperature_max_c : f32;
}.

Record bzm_runtime_health_input_t := mk_health_input {
  health_stage : Z;
  holding : bool;
  bridge_status_available : bool;
  bridge_status : bzm_bridge_safety_status_t;
  require_independent_kill : bool;
  fan_tach_available : bool;
  fan_rpm : Z;
  fan_min_rpm : Z;
  require_fan_full : bool;
  tps : bzm_runtime_health_tps_sample_t;
  tps_bounds : bzm_runtime_health_tps_bounds_t;
  telemetry_available : bool;
  telemetry_store : bzm_telemetry_store_t;
  telemetry_bounds : bzm_telemetry_bounds_t;
  telemetry_now_us : Z;
  telemetry_max_age_us : Z;
  defer_ch2_bounds : bool;
  defer_clock_locks : bool;
  parser_stats_available : bool;
  parser_baseline : bzm_serial_parser_stats_t;
  parser_current : bzm_serial_parser_stats_t;
}.

Record bzm_runtime_health_result_t := mk_health_result {
  health_status : bzm_runtime_health_status_t;
  health_fault : bzm_runtime_health_fault_t;
}.

Definition good : bzm_runtime_health_result_t :=
  {| health_status := BZM_RUNTIME_HEALTH_GOOD; health_fault := FAULT_NONE |}.
Definition bad (fault : bzm_runtime_health_fault_t) : bzm_runtime_health_result_t :=
  {| health_status := BZM_RUNTIME_HEALTH_BAD; health_fault := fault |}.

(** ** One snapshot *)

Definition finite_range (minimum maximum : f32) : bool :=
  is_finite minimum && is_finite maximum && fle minimum maximum.

Definition in_range (value minimum maximum : f32) : bool :=
  is_finite value && finite_range minimum maximum && fle minimum value && fle value maximum.

Definition required_capabilities : Z :=
  Z.lor (Z.lor (Z.lor (Z.lor BZM_BRIDGE_SAFETY_CAP_5V_CONTROL BZM_BRIDGE_SAFETY_CAP_ASIC_RESET_CONTROL)
    BZM_BRIDGE_SAFETY_CAP_FAN_FORCE_FULL) BZM_BRIDGE_SAFETY_CAP_TRIP_INPUT_SAMPLED)
    BZM_BRIDGE_SAFETY_CAP_FAN_CONTROLLED_SPEED.
Definition kill_capabilities : Z :=
  Z.lor (Z.lor BZM_BRIDGE_SAFETY_CAP_CORE_POWER_CUTOFF BZM_BRIDGE_SAFETY_CAP_FAN_TACH_INTERLOCK)
    BZM_BRIDGE_SAFETY_CAP_INDEPENDENT_TRIP_MONITOR.
Definition kill_evidence : Z :=
  Z.lor (Z.lor BZM_BRIDGE_SAFETY_EVIDENCE_CORE_CUTOFF_AVAILABLE
    BZM_BRIDGE_SAFETY_EVIDENCE_FAN_TACH_INTERLOCK_AVAILABLE)
    BZM_BRIDGE_SAFETY_EVIDENCE_INDEPENDENT_TRIP_MONITOR_AVAILABLE.

Definition check_bridge_and_fan (i : bzm_runtime_health_input_t) : bzm_runtime_health_result_t :=
  let s := bridge_status i in
  if negb (bridge_status_available i) || negb (valid s) then bad FAULT_BRIDGE_UNAVAILABLE
  else if negb (schema_version s =? BZM_BRIDGE_SAFETY_STATUS_SCHEMA_VERSION) ||
          (stage s <? BZM_BRIDGE_SAFETY_STAGE_LEASE)
  then bad FAULT_BRIDGE_STATUS_INVALID
  else if negb (all_bits (capabilities s) required_capabilities) then bad FAULT_BRIDGE_CAPABILITY_MISSING
  else if require_independent_kill i &&
          (negb (stage s =? BZM_BRIDGE_SAFETY_STAGE_TRIP_LATCH) ||
           negb (production_verdict s =? BZM_BRIDGE_SAFETY_PRODUCTION_GOOD) ||
           negb (all_bits (capabilities s) kill_capabilities) ||
           negb (all_bits (evidence s) kill_evidence))
  then bad FAULT_BRIDGE_CAPABILITY_MISSING
  else if negb (state s =? BZM_BRIDGE_SAFETY_STATE_CONTROLLED) then bad FAULT_BRIDGE_STATE
  else if negb (fault s =? BZM_BRIDGE_SAFETY_FAULT_NONE) || trip_input_asserted s ||
          negb (runtime_verdict s =? BZM_BRIDGE_SAFETY_RUNTIME_GOOD_CONTROLLED)
  then bad FAULT_BRIDGE_FAULT
  else if (lease_remaining_ms s =? 0) || negb (all_bits (evidence s) required_evidence)
  then bad FAULT_BRIDGE_LEASE
  else
    let outputs_safe :=
      negb (five_volt_enabled s) && asic_reset_asserted s && fan_full s && (fan_percent s =? 100) in
    if negb (Bool.eqb outputs_safe (has_bits (evidence s) BZM_BRIDGE_SAFETY_EVIDENCE_OUTPUTS_SAFE))
    then bad FAULT_BRIDGE_STATUS_INVALID
    else if require_fan_full i && (negb (fan_full s) || negb (fan_percent s =? 100))
    then bad FAULT_FAN_NOT_FULL
    else if negb (fan_tach_available i) then bad FAULT_FAN_TACH_UNAVAILABLE
    else if fan_min_rpm i =? 0 then bad FAULT_INVALID_INPUT
    else if fan_rpm i <? fan_min_rpm i then bad FAULT_FAN_TACH_LOW
    else good.

Definition check_power (i : bzm_runtime_health_input_t) : bzm_runtime_health_result_t :=
  let expect_5v := BZM_STAGE_CHAIN_4 <=? health_stage i in
  let s := bridge_status i in
  let b := tps_bounds i in
  let t := tps i in
  if negb (Bool.eqb (five_volt_enabled s) expect_5v) || negb (Bool.eqb (asic_reset_asserted s) (negb expect_5v))
  then bad FAULT_BRIDGE_OUTPUT
  else if negb (finite_range (vin_min_v b) (vin_max_v b)) || negb (is_finite (expected_vout_command_v b)) ||
          negb (is_finite (vout_command_tolerance_v b)) || flt (vout_command_tolerance_v b) (f32_of_Z 0) ||
          negb (finite_range (vout_min_v b) (vout_max_v b)) || negb (finite_range (iout_min_a b) (iout_max_a b)) ||
          negb (finite_range (tps_temperature_min_c b) (tps_temperature_max_c b))
  then bad FAULT_INVALID_INPUT
  else if negb (available t) then bad FAULT_TPS_UNAVAILABLE
  else if is_finite (tps_temperature_c t) && flt (tps_temperature_max_c b) (tps_temperature_c t)
  then bad FAULT_TPS_OVERHEAT
  else if negb (pgood t) then bad FAULT_TPS_PGOOD_LOW
  else if negb (has_bits (operation t) BZM_RUNTIME_HEALTH_TPS_OPERATION_ON_MASK) then bad FAULT_TPS_OPERATION_OFF
  else if has_bits (status_word t) BZM_RUNTIME_HEALTH_TPS_STATUS_FAULT_MASK then bad FAULT_TPS_STATUS
  else if negb (vout_command_matches_expected t) || negb (is_finite (vout_command_v t)) ||
          flt (vout_command_tolerance_v b) (fabs (fsub (vout_command_v t) (expected_vout_command_v b)))
  then bad FAULT_TPS_VOUT_COMMAND
  else if negb (in_range (vin_v t) (vin_min_v b) (vin_max_v b)) then bad FAULT_TPS_VIN_RANGE
  else if negb (in_range (vout_v t) (vout_min_v b) (vout_max_v b)) then bad FAULT_TPS_VOUT_RANGE
  else if negb (in_range (iout_a t) (iout_min_a b) (iout_max_a b)) then bad FAULT_TPS_IOUT_RANGE
  else if negb (in_range (tps_temperature_c t) (tps_temperature_min_c b) (tps_temperature_max_c b))
  then bad FAULT_TPS_TEMPERATURE_RANGE
  else good.

(** The error counters other than the discarded bytes. *)
Definition frame_counters (s : bzm_serial_parser_stats_t) : list Z :=
  [stats_dropped_results s; stats_rejected_result_frames s; stats_unmatched_register_frames s;
   stats_unsolicited_noop_frames s; stats_invalid_noop_frames s; stats_telemetry_decode_failures s].
Definition error_counters (s : bzm_serial_parser_stats_t) : list Z :=
  stats_unexpected_register_headers s :: frame_counters s.
Definition parser_counters (s : bzm_serial_parser_stats_t) : list Z :=
  stats_emitted_frames s :: stats_discarded_bytes s :: error_counters s.

Definition check_parser (i : bzm_runtime_health_input_t) : bzm_runtime_health_result_t :=
  if negb (parser_stats_available i) then bad FAULT_PARSER_UNAVAILABLE
  else
    let baseline := parser_baseline i in
    let current := parser_current i in
    if existsb (fun p => snd p <? fst p) (zip (parser_counters baseline) (parser_counters current))
    then bad FAULT_PARSER_COUNTER_REGRESSED
    else if existsb (fun p => negb (snd p =? fst p)) (zip (error_counters baseline) (error_counters current))
    then bad FAULT_PARSER_ERROR_DELTA
    else if negb (stats_discarded_bytes current =? stats_discarded_bytes baseline)
    then bad FAULT_PARSER_ERROR_DELTA
    else good.

Definition valid_telemetry_bounds (b : bzm_telemetry_bounds_t) : bool :=
  finite_range (temperature_min_c b) (temperature_max_c b) && finite_range (ch0_min_mv b) (ch0_max_mv b) &&
  finite_range (ch1_min_mv b) (ch1_max_mv b) && is_finite (ch2_abs_max_mv b) &&
  fle (f32_of_Z 0) (ch2_abs_max_mv b) && is_finite (max_stack_spread_mv b) &&
  fle (f32_of_Z 0) (max_stack_spread_mv b).

(** The checks of one ASIC's sample. *)
Definition check_sample (i : bzm_runtime_health_input_t) (expected_id : Z) (s : bzm_telemetry_sample_t)
    : bzm_runtime_health_result_t :=
  let b := telemetry_bounds i in
  let safe_with_deferred_ch2 :=
    defer_ch2_bounds i &&
    bzm_telemetry_sample_is_safe_except_ch2 s (telemetry_now_us i) (telemetry_max_age_us i) b false in
  if negb (Telemetry.received s) || negb (sample_asic_id s =? expected_id) then bad FAULT_TELEMETRY_MISSING
  else if negb (bzm_telemetry_sample_is_fresh s (telemetry_now_us i) (telemetry_max_age_us i))
  then bad FAULT_TELEMETRY_STALE
  else if negb (voltage_trip s) &&
          (thermal_trip s ||
           (thermal_valid s && is_finite (temperature_c s) && flt (temperature_max_c b) (temperature_c s)))
  then bad FAULT_ASIC_OVERHEAT
  else if trip s || voltage_trip s then bad FAULT_TELEMETRY_TRIP
  else if (negb (sample_valid s) || negb (thermal_valid s) || negb (voltage_valid s)) &&
          negb safe_with_deferred_ch2
  then bad FAULT_TELEMETRY_INVALID
  else if negb (if defer_ch2_bounds i then safe_with_deferred_ch2
                else bzm_telemetry_sample_is_within_bounds s b)
  then bad FAULT_TELEMETRY_BOUNDS
  else if (BZM_STAGE_CLOCKS <=? health_stage i) && negb (defer_clock_locks i) && negb (pll_locked s)
  then bad FAULT_TELEMETRY_CLOCK_UNLOCKED
  else good.

Fixpoint check_samples (i : bzm_runtime_health_input_t) (indices : list nat) : bzm_runtime_health_result_t :=
  match indices with
  | [] => good
  | index :: indices =>
      let r := check_sample i (wire_id index) (sample_at (telemetry_store i) index) in
      match health_status r with
      | BZM_RUNTIME_HEALTH_GOOD => check_samples i indices
      | BZM_RUNTIME_HEALTH_BAD => r
      end
  end.

Definition check_telemetry (i : bzm_runtime_health_input_t) : bzm_runtime_health_result_t :=
  if negb (telemetry_available i) then bad FAULT_TELEMETRY_UNAVAILABLE
  else if negb (valid_telemetry_bounds (telemetry_bounds i)) then bad FAULT_INVALID_INPUT
  else check_samples i (seq 0 (Z.to_nat BZM_MAX_ASIC_COUNT)).

(** The checks in order, each from the stage at which it starts to apply. *)
Fixpoint run_checks (reached : Z)
    (checks : list (Z * bzm_runtime_health_result_t)) : bzm_runtime_health_result_t :=
  match checks with
  | [] => good
  | (from, r) :: checks =>
      match health_status r, from <=? reached with
      | BZM_RUNTIME_HEALTH_BAD, true => r
      | _, _ => run_checks reached checks
      end
  end.

Definition bzm_runtime_health_evaluate (input : option bzm_runtime_health_input_t)
    : bzm_runtime_health_result_t :=
  match input with
  | None => bad FAULT_INVALID_INPUT
  | Some i =>
      if negb (holding i) || (health_stage i =? BZM_STAGE_OFF_SAFE) then good
      else if (health_stage i <? BZM_STAGE_OFF_SAFE) || (BZM_STAGE_COUNT <=? health_stage i)
      then bad FAULT_INVALID_STAGE
      else
        run_checks (health_stage i)
          [(BZM_STAGE_OFF_SAFE, check_bridge_and_fan i); (BZM_STAGE_POWER_RAIL, check_power i);
           (BZM_STAGE_CHAIN_4, check_parser i); (BZM_STAGE_SENSORS, check_telemetry i)]
  end.

(** ** Parser windows *)

Definition window_is (discards : Z -> Z -> bool) (baseline current : option bzm_serial_parser_stats_t) : bool :=
  match baseline, current with
  | Some b, Some c =>
      (stats_emitted_frames b <=? stats_emitted_frames c) &&
      discards (stats_discarded_bytes b) (stats_discarded_bytes c) &&
      (stats_unexpected_register_headers c =? stats_unexpected_register_headers b) &&
      bool_decide (frame_counters c = frame_counters b) &&
      (buffered_bytes c =? 0)%nat && (queued_results c =? 0)%nat
  | _, _ => false
  end.

Definition bzm_runtime_health_parser_window_is_clean : _ -> _ -> bool := window_is (fun b c => c =? b).

Definition bzm_runtime_health_parser_window_is_discard_transition : _ -> _ -> bool :=
  window_is (fun b c => b <=? c).

Definition bzm_parser_settling_snapshot_at_frame_boundary (stats : option bzm_serial_parser_stats_t) : bool :=
  match stats with Some s => (buffered_bytes s =? 0)%nat | None => false end.

(** A counter structure that holds snapshots is [None] until it is initialised. *)
Record bzm_parser_settling_t := mk_settling {
  settling_baseline : option bzm_serial_parser_stats_t;
  settling_clean_windows : Z;
}.
#[export] Instance bzm_parser_settling_t_eta : Eta bzm_parser_settling_t :=
  fun s => mk_settling (settling_baseline s) (settling_clean_windows s).

Inductive bzm_parser_settling_result_t :=
| BZM_PARSER_SETTLING_BAD | BZM_PARSER_SETTLING_PENDING | BZM_PARSER_SETTLING_COMPLETE.

Definition at_rest (s : bzm_serial_parser_stats_t) : bool :=
  (queued_results s =? 0)%nat && (buffered_bytes s =? 0)%nat.

Definition bzm_parser_settling_init (baseline : option bzm_serial_parser_stats_t) : bzm_parser_settling_t :=
  {| settling_baseline :=
       match baseline with Some b => if at_rest b then Some b else None | None => None end;
     settling_clean_windows := 0 |}.

Definition bzm_parser_settling_observe (s : bzm_parser_settling_t)
    (current : option bzm_serial_parser_stats_t) (required_clean_windows : Z)
    : bzm_parser_settling_result_t * bzm_parser_settling_t :=
  match settling_baseline s, current with
  | Some b, Some c =>
      if (required_clean_windows =? 0) ||
         negb (bzm_runtime_health_parser_window_is_discard_transition (Some b) (Some c))
      then (BZM_PARSER_SETTLING_BAD, s)
      else
        let clean :=
          if stats_discarded_bytes c =? stats_discarded_bytes b
          then saturating_increment (settling_clean_windows s) else 0 in
        (if required_clean_windows <=? clean then BZM_PARSER_SETTLING_COMPLETE else BZM_PARSER_SETTLING_PENDING,
         {| settling_baseline := Some c; settling_clean_windows := clean |})
  | _, _ => (BZM_PARSER_SETTLING_BAD, s)
  end.

Record bzm_parser_realign_t := mk_realign {
  accepted : option bzm_serial_parser_stats_t;
  last_stats : option bzm_serial_parser_stats_t;
  burst_discard_baseline : Z;
  burst_unexpected_register_baseline : Z;
  clean_windows : Z;
  observed_windows : Z;
  episode_bursts : Z;
  recovering : bool;
}.
#[export] Instance bzm_parser_realign_t_eta : Eta bzm_parser_realign_t :=
  fun r => mk_realign (accepted r) (last_stats r) (burst_discard_baseline r)
    (burst_unexpected_register_baseline r) (clean_windows r) (observed_windows r) (episode_bursts r)
    (recovering r).

Inductive bzm_parser_realign_result_t :=
| BZM_PARSER_REALIGN_BAD | BZM_PARSER_REALIGN_CLEAN | BZM_PARSER_REALIGN_PENDING
| BZM_PARSER_REALIGN_RECOVERED.
#[export] Instance bzm_parser_realign_result_t_eq_dec : EqDecision bzm_parser_realign_result_t.
Proof. solve_decision. Defined.

Definition bzm_parser_realign_init (baseline : option bzm_serial_parser_stats_t) : bzm_parser_realign_t :=
  let first := match baseline with Some b => if at_rest b then Some b else None | None => None end in
  {| accepted := first; last_stats := first; burst_discard_baseline := 0;
     burst_unexpected_register_baseline := 0; clean_windows := 0; observed_windows := 0;
     episode_bursts := 0; recovering := false |}.

Definition parser_realign_transition_is_valid (b c : bzm_serial_parser_stats_t) : bool :=
  if (stats_discarded_bytes c <? stats_discarded_bytes b) ||
     (stats_unexpected_register_headers c <? stats_unexpected_register_headers b)
  then false
  else
    let discarded_delta := stats_discarded_bytes c - stats_discarded_bytes b in
    let unexpected_register_delta :=
      stats_unexpected_register_headers c - stats_unexpected_register_headers b in
    (stats_emitted_frames b <=? stats_emitted_frames c) && (unexpected_register_delta <=? discarded_delta) &&
    bool_decide (frame_counters c = frame_counters b).

(** Whether a snapshot discards nothing more than another. *)
Definition no_discards (b c : bzm_serial_parser_stats_t) : bool :=
  (stats_discarded_bytes c =? stats_discarded_bytes b) &&
  (stats_unexpected_register_headers c =? stats_unexpected_register_headers b).

(** The counters of an episode after one more window; [None] when it has more
    bursts than allowed. *)
Definition episode_window (r : bzm_parser_realign_t) (previous c : bzm_serial_parser_stats_t)
    (maximum_events : Z) : option bzm_parser_realign_t :=
  if negb (recovering r) then
    Some (r <| recovering := true;
               burst_discard_baseline := stats_discarded_bytes previous;
               burst_unexpected_register_baseline := stats_unexpected_register_headers previous;
               episode_bursts := 1; clean_windows := 0; observed_windows := 1; last_stats := Some c |>)
  else
    let observed := saturating_increment (observed_windows r) in
    if negb (no_discards previous c) then
      if maximum_events <=? episode_bursts r then None
      else Some (r <| observed_windows := observed; episode_bursts := u8 (episode_bursts r + 1);
                      clean_windows := 0; last_stats := Some c |>)
    else if (buffered_bytes c =? 0)%nat && (stats_emitted_frames_at_last_discard c <? stats_emitted_frames c)
    then Some (r <| observed_windows := observed;
                    clean_windows := saturating_increment (clean_windows r); last_stats := Some c |>)
    else Some (r <| observed_windows := observed; clean_windows := 0; last_stats := Some c |>).

Definition bzm_parser_realign_observe (r : bzm_parser_realign_t) (current : option bzm_serial_parser_stats_t)
    (maximum_discarded_bytes required_clean_windows maximum_windows maximum_events : Z)
    : bzm_parser_realign_result_t * bzm_parser_realign_t :=
  match accepted r, last_stats r, current with
  | Some a, Some l, Some c =>
      if (maximum_discarded_bytes =? 0) || (required_clean_windows =? 0) ||
         (maximum_windows <? required_clean_windows) || (maximum_events =? 0) ||
         negb (parser_realign_transition_is_valid a c) || negb (parser_realign_transition_is_valid l c)
      then (BZM_PARSER_REALIGN_BAD, r)
      else if negb (recovering r) && no_discards a c
      then (BZM_PARSER_REALIGN_CLEAN, r <| accepted := Some c; last_stats := Some c; episode_bursts := 0 |>)
      else
        match episode_window r (if recovering r then l else a) c maximum_events with
        | None => (BZM_PARSER_REALIGN_BAD, r <| observed_windows := saturating_increment (observed_windows r) |>)
        | Some r =>
            let discarded := u32 (stats_discarded_bytes c - burst_discard_baseline r) in
            if (maximum_discarded_bytes <? discarded) || (maximum_windows <? observed_windows r)
            then (BZM_PARSER_REALIGN_BAD, r)
            else if required_clean_windows <=? clean_windows r
            then (BZM_PARSER_REALIGN_RECOVERED,
                  r <| accepted := Some c; last_stats := Some c; recovering := false; episode_bursts := 0 |>)
            else (BZM_PARSER_REALIGN_PENDING, r)
        end
  | _, _, _ => (BZM_PARSER_REALIGN_BAD, r)
  end.

(** ** Names *)

Definition bzm_runtime_health_status_name (s : bzm_runtime_health_status_t) : string :=
  match s with BZM_RUNTIME_HEALTH_GOOD => "GOOD" | BZM_RUNTIME_HEALTH_BAD => "BAD" end.

Definition bzm_runtime_health_fault_name (f : bzm_runtime_health_fault_t) : string :=
  match f with
  | FAULT_NONE => "NONE"
  | FAULT_INVALID_INPUT => "INVALID_INPUT"
  | FAULT_INVALID_STAGE => "INVALID_STAGE"
  | FAULT_BRIDGE_UNAVAILABLE => "BRIDGE_UNAVAILABLE"
  | FAULT_BRIDGE_STATUS_INVALID => "BRIDGE_STATUS_INVALID"
  | FAULT_BRIDGE_CAPABILITY_MISSING => "BRIDGE_CAPABILITY_MISSING"
  | FAULT_BRIDGE_STATE => "BRIDGE_STATE"
  | FAULT_BRIDGE_FAULT => "BRIDGE_FAULT"
  | FAULT_BRIDGE_LEASE => "BRIDGE_LEASE"
  | FAULT_BRIDGE_OUTPUT => "BRIDGE_OUTPUT"
  | FAULT_FAN_NOT_FULL => "FAN_NOT_FULL"
  | FAULT_FAN_TACH_UNAVAILABLE => "FAN_TACH_UNAVAILABLE"
  | FAULT_FAN_TACH_LOW => "FAN_TACH_LOW"
  | FAULT_TPS_UNAVAILABLE => "TPS_UNAVAILABLE"
  | FAULT_TPS_PGOOD_LOW => "TPS_PGOOD_LOW"
  | FAULT_TPS_OPERATION_OFF => "TPS_OPERATION_OFF"
  | FAULT_TPS_STATUS => "TPS_STATUS"
  | FAULT_TPS_VIN_RANGE => "TPS_VIN_RANGE"
  | FAULT_TPS_VOUT_RANGE => "TPS_VOUT_RANGE"
  | FAULT_TPS_TEMPERATURE_RANGE => "TPS_TEMPERATURE_RANGE"
  | FAULT_TPS_IOUT_RANGE => "TPS_IOUT_RANGE"
  | FAULT_TPS_VOUT_COMMAND => "TPS_VOUT_COMMAND"
  | FAULT_TPS_OVERHEAT => "TPS_OVERHEAT"
  | FAULT_TELEMETRY_UNAVAILABLE => "TELEMETRY_UNAVAILABLE"
  | FAULT_TELEMETRY_MISSING => "TELEMETRY_MISSING"
  | FAULT_TELEMETRY_INVALID => "TELEMETRY_INVALID"
  | FAULT_TELEMETRY_TRIP => "TELEMETRY_TRIP"
  | FAULT_TELEMETRY_STALE => "TELEMETRY_STALE"
  | FAULT_TELEMETRY_BOUNDS => "TELEMETRY_BOUNDS"
  | FAULT_TELEMETRY_CLOCK_UNLOCKED => "TELEMETRY_CLOCK_UNLOCKED"
  | FAULT_ASIC_OVERHEAT => "ASIC_OVERHEAT"
  | FAULT_PARSER_UNAVAILABLE => "PARSER_UNAVAILABLE"
  | FAULT_PARSER_COUNTER_REGRESSED => "PARSER_COUNTER_REGRESSED"
  | FAULT_PARSER_ERROR_DELTA => "PARSER_ERROR_DELTA"
  end.

(** The persisted value of a fault. *)
Definition fault_code (f : bzm_runtime_health_fault_t) : Z :=
  match f with
  | FAULT_NONE => 0x0000 | FAULT_INVALID_INPUT => 0x0001 | FAULT_INVALID_STAGE => 0x0002
  | FAULT_BRIDGE_UNAVAILABLE => 0x0100 | FAULT_BRIDGE_STATUS_INVALID => 0x0101
  | FAULT_BRIDGE_CAPABILITY_MISSING => 0x0102 | FAULT_BRIDGE_STATE => 0x0103
  | FAULT_BRIDGE_FAULT => 0x0104 | FAULT_BRIDGE_LEASE => 0x0105 | FAULT_BRIDGE_OUTPUT => 0x0106
  | FAULT_FAN_NOT_FULL => 0x0200 | FAULT_FAN_TACH_UNAVAILABLE => 0x0201 | FAULT_FAN_TACH_LOW => 0x0202
  | FAULT_TPS_UNAVAILABLE => 0x0300 | FAULT_TPS_PGOOD_LOW => 0x0301 | FAULT_TPS_OPERATION_OFF => 0x0302
  | FAULT_TPS_STATUS => 0x0303 | FAULT_TPS_VIN_RANGE => 0x0304 | FAULT_TPS_VOUT_RANGE => 0x0305
  | FAULT_TPS_TEMPERATURE_RANGE => 0x0306 | FAULT_TPS_IOUT_RANGE => 0x0307
  | FAULT_TPS_VOUT_COMMAND => 0x0308 | FAULT_TPS_OVERHEAT => 0x0309
  | FAULT_TELEMETRY_UNAVAILABLE => 0x0400 | FAULT_TELEMETRY_MISSING => 0x0401
  | FAULT_TELEMETRY_INVALID => 0x0402 | FAULT_TELEMETRY_TRIP => 0x0403 | FAULT_TELEMETRY_STALE => 0x0404
  | FAULT_TELEMETRY_BOUNDS => 0x0405 | FAULT_TELEMETRY_CLOCK_UNLOCKED => 0x0406
  | FAULT_ASIC_OVERHEAT => 0x0407
  | FAULT_PARSER_UNAVAILABLE => 0x0500 | FAULT_PARSER_COUNTER_REGRESSED => 0x0501
  | FAULT_PARSER_ERROR_DELTA => 0x0502
  end.

(** ** What a GOOD snapshot guarantees *)

Lemma run_checks_good reached checks :
  health_status (run_checks reached checks) = BZM_RUNTIME_HEALTH_GOOD ->
  Forall (fun c => fst c <= reached -> health_status (snd c) = BZM_RUNTIME_HEALTH_GOOD) checks.
Proof.
  induction checks as [|[from r] checks IH]; [constructor|]. cbn [run_checks].
  destruct (health_status r) eqn:Hr.
  - intros H. constructor; [done|by apply IH].
  - destruct (Z.leb_spec from reached) as [?|Hlt]; [congruence|].
    intros Hc. constructor; [cbn; lia|by apply IH].
Qed.

(** The verdict of a check that passed rules out every early return. *)
Ltac passed H :=
  repeat match type of H with
  | context [if ?c then _ else _] => let E := fresh "E" in destruct c eqn:E; [discriminate H|]
  end; prop_bool; z_props
with z_props :=
  repeat match goal with
  | H : (_ =? _) = true |- _ => apply Z.eqb_eq in H
  | H : (_ =? _) = false |- _ => apply Z.eqb_neq in H
  | H : (_ <? _) = true |- _ => apply Z.ltb_lt in H
  | H : (_ <? _) = false |- _ => apply Z.ltb_ge in H
  | H : (_ <=? _) = true |- _ => apply Z.leb_le in H
  | H : (_ <=? _) = false |- _ => apply Z.leb_gt in H
  end.

Lemma check_bridge_good i :
  0 <= lease_remaining_ms (bridge_status i) ->
  health_status (check_bridge_and_fan i) = BZM_RUNTIME_HEALTH_GOOD ->
  bridge_status_available i = true /\
  bzm_lease_guard_status_is_controlled (Some (bridge_status i)) = true /\
  fan_tach_available i = true /\ fan_min_rpm i <> 0 /\ fan_min_rpm i <= fan_rpm i /\
  (require_fan_full i = true -> fan_full (bridge_status i) = true /\ fan_percent (bridge_status i) = 100).
Proof.
  intros Hl Hgood. unfold check_bridge_and_fan in Hgood. cbn zeta in Hgood. passed Hgood.
  unfold bzm_lease_guard_status_is_controlled.
  split_and!; try done; try lia.
  - rewrite !andb_true_iff, !Z.eqb_eq, Z.ltb_lt, negb_true_iff. split_and!; try done; try lia.
  - intros Hf. rewrite Hf in *. cbn [andb] in *. prop_bool. z_props. done.
Qed.

Lemma check_power_good i :
  health_status (check_power i) = BZM_RUNTIME_HEALTH_GOOD ->
  five_volt_enabled (bridge_status i) = (BZM_STAGE_CHAIN_4 <=? health_stage i) /\
  asic_reset_asserted (bridge_status i) = negb (BZM_STAGE_CHAIN_4 <=? health_stage i) /\
  available (tps i) = true /\ pgood (tps i) = true /\
  has_bits (operation (tps i)) BZM_RUNTIME_HEALTH_TPS_OPERATION_ON_MASK = true /\
  has_bits (status_word (tps i)) BZM_RUNTIME_HEALTH_TPS_STATUS_FAULT_MASK = false /\
  in_range (vin_v (tps i)) (vin_min_v (tps_bounds i)) (vin_max_v (tps_bounds i)) = true /\
  in_range (vout_v (tps i)) (vout_min_v (tps_bounds i)) (vout_max_v (tps_bounds i)) = true /\
  in_range (iout_a (tps i)) (iout_min_a (tps_bounds i)) (iout_max_a (tps_bounds i)) = true /\
  in_range (tps_temperature_c (tps i)) (tps_temperature_min_c (tps_bounds i))
    (tps_temperature_max_c (tps_bounds i)) = true.
Proof.
  intros Hgood. unfold check_power in Hgood. cbn zeta in Hgood. passed Hgood.
  repeat match goal with H : Bool.eqb _ _ = true |- _ => apply eqb_prop in H end. by split_and!.
Qed.

Lemma counters_equal (a b : list Z) :
  length a = length b -> existsb (fun p => negb (snd p =? fst p)) (zip a b) = false -> b = a.
Proof.
  revert b. induction a as [|x a IH]; intros [|y b] Hl; try done. cbn. intros H.
  apply orb_false_iff in H as [H1 H2]. apply negb_false_iff, Z.eqb_eq in H1. f_equal; [done|].
  apply IH; [by injection Hl|done].
Qed.

Lemma check_parser_good i :
  health_status (check_parser i) = BZM_RUNTIME_HEALTH_GOOD ->
  parser_stats_available i = true /\
  stats_emitted_frames (parser_baseline i) <= stats_emitted_frames (parser_current i) /\
  stats_discarded_bytes (parser_current i) = stats_discarded_bytes (parser_baseline i) /\
  error_counters (parser_current i) = error_counters (parser_baseline i).
Proof.
  intros Hgood. unfold check_parser in Hgood. cbn zeta in Hgood. passed Hgood.
  split_and!; try done; [|by apply counters_equal].
  cbn in E0. apply orb_false_iff in E0 as [E0 _]. by apply Z.ltb_ge in E0.
Qed.

(** Whether the evaluation insists on the PLL lock of each sample. *)
Definition locks_required (i : bzm_runtime_health_input_t) : bool :=
  (BZM_STAGE_CLOCKS <=? health_stage i) && negb (defer_clock_locks i).

Definition sample_healthy (i : bzm_runtime_health_input_t) (index : nat) : Prop :=
  let s := sample_at (telemetry_store i) index in
  sample_asic_id s = wire_id index /\
  (if defer_ch2_bounds i then bzm_telemetry_sample_is_safe_except_ch2 else bzm_telemetry_sample_is_safe)
    s (telemetry_now_us i) (telemetry_max_age_us i) (telemetry_bounds i) (locks_required i) = true.

Lemma check_sample_good i index :
  health_status (check_sample i (wire_id index) (sample_at (telemetry_store i) index)) = BZM_RUNTIME_HEALTH_GOOD ->
  sample_healthy i index.
Proof.
  unfold sample_healthy, check_sample. set (s := sample_at _ _). cbn zeta. intros Hgood. passed Hgood.
  assert (Hlocks : locks_required i && negb (pll_locked s) = false) by done.
  split; [done|]. destruct (defer_ch2_bounds i); cbn [andb] in *.
  - revert E4. unfold bzm_telemetry_sample_is_safe_except_ch2. rewrite Hlocks. cbn [andb].
    by rewrite !orb_false_r.
  - unfold bzm_telemetry_sample_is_safe. rewrite E4.
    cbn [negb] in E3. rewrite andb_true_r in E3. prop_bool.
    assert (bzm_telemetry_sample_is_fresh s (telemetry_now_us i) (telemetry_max_age_us i) = true) as -> by done.
    assert (sample_valid s = true) as -> by done. assert (trip s = false) as -> by done. cbn [negb andb].
    by destruct (locks_required i), (pll_locked s).
Qed.

Lemma check_samples_good i indices :
  health_status (check_samples i indices) = BZM_RUNTIME_HEALTH_GOOD -> Forall (sample_healthy i) indices.
Proof.
  induction indices as [|index indices IH]; [constructor|]. cbn [check_samples]. cbn zeta.
  destruct (health_status (check_sample i (wire_id index) _)) eqn:Hr; intros Hrest; [|congruence].
  constructor; [by apply check_sample_good|by apply IH].
Qed.

(** C30: A GOOD verdict is a safe board: for a held board beyond the first stage
    it means that the lease guard accepts the bridge's status and the fan turns
    fast enough; from the power stage on, that the outputs are what the stage
    expects and the regulator is on, without faults and in range; from the chain
    stage on, that no parser error counter moved; and from the sensor stage on,
    that the sample of each of the four ASICs is its own, fresh, untripped and
    within bounds, with the clocks locked where the stage asks for it.  A stage
    outside the schema is BAD. *)
Theorem runtime_health_good_is_safe i :
  holding i = true -> health_stage i <> BZM_STAGE_OFF_SAFE -> 0 <= lease_remaining_ms (bridge_status i) ->
  health_status (bzm_runtime_health_evaluate (Some i)) = BZM_RUNTIME_HEALTH_GOOD ->
  BZM_STAGE_OFF_SAFE < health_stage i < BZM_STAGE_COUNT /\
  (bridge_status_available i = true /\ bzm_lease_guard_status_is_controlled (Some (bridge_status i)) = true /\
   fan_tach_available i = true /\ fan_min_rpm i <> 0 /\ fan_min_rpm i <= fan_rpm i /\
   (require_fan_full i = true -> fan_full (bridge_status i) = true /\ fan_percent (bridge_status i) = 100)) /\
  (BZM_STAGE_POWER_RAIL <= health_stage i ->
   five_volt_enabled (bridge_status i) = (BZM_STAGE_CHAIN_4 <=? health_stage i) /\
   asic_reset_asserted (bridge_status i) = negb (BZM_STAGE_CHAIN_4 <=? health_stage i) /\
   available (tps i) = true /\ pgood (tps i) = true /\
   has_bits (operation (tps i)) BZM_RUNTIME_HEALTH_TPS_OPERATION_ON_MASK = true /\
   has_bits (status_word (tps i)) BZM_RUNTIME_HEALTH_TPS_STATUS_FAULT_MASK = false /\
   in_range (vin_v (tps i)) (vin_min_v (tps_bounds i)) (vin_max_v (tps_bounds i)) = true /\
   in_range (vout_v (tps i)) (vout_min_v (tps_bounds i)) (vout_max_v (tps_bounds i)) = true /\
   in_range (iout_a (tps i)) (iout_min_a (tps_bounds i)) (iout_max_a (tps_bounds i)) = true /\
   in_range (tps_temperature_c (tps i)) (tps_temperature_min_c (tps_bounds i))
     (tps_temperature_max_c (tps_bounds i)) = true) /\
  (BZM_STAGE_CHAIN_4 <= health_stage i ->
   stats_emitted_frames (parser_baseline i) <= stats_emitted_frames (parser_current i) /\
   stats_discarded_bytes (parser_current i) = stats_discarded_bytes (parser_baseline i) /\
   error_counters (parser_current i) = error_counters (parser_baseline i)) /\
  (BZM_STAGE_SENSORS <= health_stage i -> forall index, (index < 4)%nat -> sample_healthy i index).
Proof.
  intros Hh Hs Hl. cbn [bzm_runtime_health_evaluate]. rewrite Hh, (proj2 (Z.eqb_neq _ _) Hs). cbn [negb orb].
  destruct (_ || _) eqn:E; [discriminate|]. apply orb_false_iff in E as [E1 E2]. z_props.
  intros Hgood%run_checks_good. rewrite !Forall_cons in Hgood. cbn [fst snd] in Hgood.
  destruct Hgood as (H1 & H2 & H3 & H4 & _).
  split; [lia|]. split; [apply check_bridge_good; [done|by apply H1]|]. split_and!.
  - intros Hp. by apply check_power_good, H2.
  - intros Hp. by apply check_parser_good, H3.
  - intros Hp index Hi. specialize (H4 Hp). unfold check_telemetry in H4.
    destruct (negb (telemetry_available i)); [discriminate|].
    destruct (negb (valid_telemetry_bounds _)); [discriminate|].
    apply check_samples_good in H4. rewrite Forall_forall in H4. apply H4.
    apply elem_of_seq. change (Z.to_nat BZM_MAX_ASIC_COUNT) with 4%nat. lia.
Qed.

(** ** Realignment *)

Section realign.
Context (maximum_discarded_bytes required_clean_windows maximum_windows maximum_events : Z).

Definition observe (r : bzm_parser_realign_t) (c : bzm_serial_parser_stats_t) :=
  bzm_parser_realign_observe r (Some c) maximum_discarded_bytes required_clean_windows maximum_windows
    maximum_events.

(** The verdicts of consecutive observations. *)
Fixpoint observe_run (r : bzm_parser_realign_t) (cs : list bzm_serial_parser_stats_t)
    : list bzm_parser_realign_result_t :=
  match cs with
  | [] => []
  | c :: cs => let '(v, r) := observe r c in v :: observe_run r cs
  end.

Lemma saturating_increment_spec z :
  z <= UINT8_MAX -> saturating_increment z = Z.min 255 (z + 1).
Proof. unfold saturating_increment, UINT8_MAX. intros H. destruct (Z.ltb_spec z 255); lia. Qed.

(** A pending episode has used up a window, and is within its bounds. *)
Lemma observe_pending r c r' :
  observe r c = (BZM_PARSER_REALIGN_PENDING, r') -> observed_windows r <= UINT8_MAX ->
  recovering r' = true /\ observed_windows r' <= maximum_windows /\ observed_windows r' <= UINT8_MAX /\
  observed_windows r' = (if recovering r then Z.min 255 (observed_windows r + 1) else 1) /\
  u32 (stats_discarded_bytes c - burst_discard_baseline r') <= maximum_discarded_bytes.
Proof.
  unfold observe, bzm_parser_realign_observe. intros H Hm.
  destruct (accepted r) as [a|]; [|done]. destruct (last_stats r) as [l|]; [|done].
  destruct (_ || _) eqn:E0 in H; [done|]. destruct (negb (recovering r) && _) in H; [done|].
  destruct (episode_window _ _ _ _) as [q|] eqn:Eq; [|done].
  destruct (_ || _) eqn:E1 in H; [done|]. destruct (_ <=? _) in H; [done|]. injection H as <-.
  apply orb_false_iff in E1 as [E1 E2]. z_props.
  assert (Hq : recovering q = true /\ observed_windows q =
    if recovering r then Z.min 255 (observed_windows r + 1) else 1).
  { unfold episode_window in Eq. rewrite saturating_increment_spec in Eq by done.
    destruct (recovering r) eqn:Hr; cbn [negb] in Eq; [|by injection Eq as <-].
    repeat case_match; simplify_eq; cbn; by rewrite ?Hr. }
  destruct Hq as [Hq1 Hq2]. split_and!; try done. rewrite Hq2. unfold UINT8_MAX in *.
  destruct (recovering r); lia.
Qed.

(** A realignment always ends: among any run of consecutive observations one
    longer than the window limit, whatever the counters do, at least one is not
    pending - the parser has recovered, was clean, or the episode has failed.  The
    limit must be below 255: the window counter saturates there. *)
Theorem parser_realign_ends r cs :
  0 <= observed_windows r <= UINT8_MAX -> maximum_windows < UINT8_MAX ->
  (Z.to_nat maximum_windows < length cs)%nat ->
  exists v, v ∈ observe_run r cs /\ v <> BZM_PARSER_REALIGN_PENDING.
Proof.
  intros Ho Hmax Hlen.
  enough (Hgen : forall cs r, 0 <= observed_windows r <= UINT8_MAX ->
    Z.max 0 (maximum_windows - if recovering r then observed_windows r else 0) < Z.of_nat (length cs) ->
    exists v, v ∈ observe_run r cs /\ v <> BZM_PARSER_REALIGN_PENDING).
  { apply Hgen; [done|]. destruct (recovering r); lia. }
  clear cs r Ho Hlen. induction cs as [|c cs IH]; intros r Ho Hlen; [cbn in Hlen; lia|].
  cbn [observe_run]. destruct (observe r c) as [v r'] eqn:E.
  destruct (decide (v = BZM_PARSER_REALIGN_PENDING)) as [->|Hv]; [|exists v; split; [by left|done]].
  destruct (observe_pending r c r' E) as (H1 & H2 & H3 & H4 & _); [lia|]. unfold UINT8_MAX in *.
  destruct (IH r') as (v & Hv & Hne); [destruct (recovering r); lia| |].
  - rewrite H1. cbn [length] in Hlen. destruct (recovering r); lia.
  - exists v. split; [by right|done].
Qed.
End realign.

(** ** Examples *)

Module Demo.
(** A board held at the last stage, with the telemetry of [Telemetry.Demo]. *)
Definition status : bzm_bridge_safety_status_t :=
  {| valid := true; schema_version := BZM_BRIDGE_SAFETY_STATUS_SCHEMA_VERSION;
     stage := BZM_BRIDGE_SAFETY_STAGE_TRIP_LATCH; state := BZM_BRIDGE_SAFETY_STATE_CONTROLLED;
     fault := BZM_BRIDGE_SAFETY_FAULT_NONE; runtime_verdict := BZM_BRIDGE_SAFETY_RUNTIME_GOOD_CONTROLLED;
     production_verdict := BZM_BRIDGE_SAFETY_PRODUCTION_GOOD;
     capabilities := Z.lor required_capabilities kill_capabilities;
     evidence := Z.lor required_evidence kill_evidence; lease_remaining_ms := 900;
     five_volt_enabled := true; asic_reset_asserted := false; fan_full := true; fan_percent := 100;
     trip_input_asserted := false |}.

Definition regulator : bzm_runtime_health_tps_sample_t :=
  {| available := true; pgood := true; operation := 0x80; status_word := 0; vout_command_v := f32_lit 5 2;
     vout_command_matches_expected := true; vin_v := f32_of_Z 12; vout_v := f32_lit 5 2; iout_a := f32_of_Z 30;
     tps_temperature_c := f32_of_Z 55 |}.

Definition regulator_bounds : bzm_runtime_health_tps_bounds_t :=
  {| vin_min_v := f32_of_Z 11; vin_max_v := f32_of_Z 13; expected_vout_command_v := f32_lit 5 2;
     vout_command_tolerance_v := f32_lit 1 10; vout_min_v := f32_of_Z 2; vout_max_v := f32_of_Z 3;
     iout_min_a := f32_of_Z 0; iout_max_a := f32_of_Z 60; tps_temperature_min_c := f32_of_Z 0;
     tps_temperature_max_c := f32_of_Z 105 |}.

(** [frames] emitted in all, [lost] bytes discarded, the last of them at [at_frame]. *)
Definition counters (frames lost at_frame : Z) : bzm_serial_parser_stats_t :=
  {| stats_emitted_frames := frames; stats_discarded_bytes := lost;
     stats_emitted_frames_at_last_discard := at_frame; stats_unexpected_register_headers := 0;
     stats_dropped_results := 0; stats_rejected_result_frames := 0; stats_unmatched_register_frames := 0;
     stats_unsolicited_noop_frames := 0; stats_invalid_noop_frames := 0; stats_telemetry_decode_failures := 0;
     buffered_bytes := 0; queued_results := 0; recent_discarded_bytes := [] |}.

Definition input (now : Z) (lost : Z) : bzm_runtime_health_input_t :=
  {| health_stage := BZM_STAGE_RUNNING; holding := true; bridge_status_available := true; bridge_status := status;
     require_independent_kill := true; fan_tach_available := true; fan_rpm := 4000; fan_min_rpm := 1000;
     require_fan_full := true; tps := regulator; tps_bounds := regulator_bounds; telemetry_available := true;
     telemetry_store := Telemetry.Demo.store 100 0x82; telemetry_bounds := Telemetry.Demo.bounds;
     telemetry_now_us := now; telemetry_max_age_us := 1000; defer_ch2_bounds := false; defer_clock_locks := false;
     parser_stats_available := true; parser_baseline := counters 10 3 2; parser_current := counters 20 lost 2 |}.

Example stale_telemetry_is_bad : bzm_runtime_health_evaluate (Some (input 5000 3)) = bad FAULT_TELEMETRY_STALE.
Proof. by vm_compute. Qed.
Example lost_bytes_are_bad : bzm_runtime_health_evaluate (Some (input 150 4)) = bad FAULT_PARSER_ERROR_DELTA.
Proof. by vm_compute. Qed.

Lemma runtime_health_good_is_safe_witness :
  bzm_runtime_health_evaluate (Some (input 150 3)) = good /\
  BZM_STAGE_OFF_SAFE < BZM_STAGE_RUNNING < BZM_STAGE_COUNT /\ forall index, (index < 4)%nat -> sample_healthy (input 150 3) index.
Proof.
  assert (Hgood : bzm_runtime_health_evaluate (Some (input 150 3)) = good) by (by vm_compute).
  split; [exact Hgood|].
  destruct (runtime_health_good_is_safe (input 150 3)) as (H1 & _ & _ & _ & H2);
    [reflexivity|discriminate|by vm_compute|by rewrite Hgood|].
  split; [exact H1|]. apply H2. by vm_compute.
Defined.

(** Five bytes lost before the second snapshot, then three quiet windows. *)
Definition episode : list bzm_serial_parser_stats_t :=
  [counters 10 8 10; counters 11 8 10; counters 12 8 10; counters 13 8 10].

Example episode_recovers :
  observe_run 16 3 8 2 (bzm_parser_realign_init (Some (counters 10 3 2))) episode =
    [BZM_PARSER_REALIGN_PENDING; BZM_PARSER_REALIGN_PENDING; BZM_PARSER_REALIGN_PENDING;
     BZM_PARSER_REALIGN_RECOVERED].
Proof. by vm_compute. Qed.

Lemma parser_realign_ends_witness :
  (3 < length episode)%nat /\
  exists v, v ∈ observe_run 16 3 3 2 (bzm_parser_realign_init (Some (counters 10 3 2))) episode /\
    v <> BZM_PARSER_REALIGN_PENDING.
Proof.
  split; [cbn; lia|].
  apply (parser_realign_ends 16 3 3 2); [by vm_compute|by vm_compute|cbn; lia].
Defined.
End Demo.
