(* ===== verification/BalancedRamp.v ===== *)
(** * Balanced activation of the engines

    Models src/components/asic/bzm_balanced_ramp.c with its header: the commit of
    one bottom/top pair of engines on one ASIC, the preparation of an ASIC, the
    busy poll, the parser windows and the final barrier.  The hardware operations
    are a parameter; an incomplete operation table is [None].  An operation that
    fills a buffer of the caller takes the buffer's old contents and returns the
    new ones, also when it fails.  The ramp itself is always given, so the tests
    of its pointer are left out. *)

From S2P Require Import Prelude Trace Float32 Topology JobStore Work FrameParser Telemetry Transport.
Open Scope Z_scope.
Open Scope io_scope.

(** ** Data *)

Definition BZM_BALANCED_RAMP_ENGINE_CONFIG : Z := 0x04.
Definition BZM_BALANCED_RAMP_ENGINE_BUSY_MASK : Z := 0x01.
Definition BZM_BALANCED_RAMP_ENGINE_CONFIG_WRITABLE_MASK : Z := 0x67.
Definition BZM_BALANCED_RAMP_ENGINE_CONFIG_ACTIVE_MASK : Z := 0x10.
Definition BZM_BALANCED_RAMP_ENGINE_CONFIG_ALLOWED_MASK : Z :=
  Z.lor BZM_BALANCED_RAMP_ENGINE_CONFIG_WRITABLE_MASK BZM_BALANCED_RAMP_ENGINE_CONFIG_ACTIVE_MASK.
Definition BZM_BALANCED_RAMP_RESET_DELAY_MS : Z := 1.
Definition BZM_BALANCED_RAMP_BUSY_POLL_ATTEMPTS : nat := 3.
Definition BZM_BALANCED_RAMP_BUSY_POLL_DELAY_MS : Z := 1.
Definition BZM_ENGINE_REG_STATUS : Z := 0x00.
Definition BZM_ENGINE_REG_CONFIG : Z := 0x01.
Definition BZM_LOCAL_REG_ENGINE_SOFT_RESET : Z := 0x16.

Inductive bzm_balanced_ramp_failure_t :=
| BZM_BALANCED_RAMP_FAILURE_NONE | BZM_BALANCED_RAMP_FAILURE_ARGUMENT
| BZM_BALANCED_RAMP_FAILURE_PARSER_BASELINE | BZM_BALANCED_RAMP_FAILURE_TELEMETRY
| BZM_BALANCED_RAMP_FAILURE_LEASE | BZM_BALANCED_RAMP_FAILURE_ENGINE_RESET
| BZM_BALANCED_RAMP_FAILURE_CONFIG_WRITE | BZM_BALANCED_RAMP_FAILURE_SENTINEL_WRITE
| BZM_BALANCED_RAMP_FAILURE_STATUS_READ | BZM_BALANCED_RAMP_FAILURE_NOT_BUSY
| BZM_BALANCED_RAMP_FAILURE_CONFIG_READBACK | BZM_BALANCED_RAMP_FAILURE_INCOMPLETE
| BZM_BALANCED_RAMP_FAILURE_FINAL_BARRIER | BZM_BALANCED_RAMP_FAILURE_PARSER_FINAL.

Record bzm_balanced_ramp_t := mk_ramp {
  next_pair : list Z;
  prepared_asic : list bool;
  completed_pairs : Z;
  completed_engines : Z;
  baseline_captured : bool;
  failed : bool;
  failure : bzm_balanced_ramp_failure_t;
  failure_asic_id : Z;
  failure_engine_id : Z;
  failure_register_offset : Z;
  failure_expected : Z;
  failure_actual : Z;
  ramp_baseline : bzm_serial_parser_stats_t;
}.
#[export] Instance bzm_balanced_ramp_t_eta : Eta bzm_balanced_ramp_t :=
  fun r => mk_ramp (next_pair r) (prepared_asic r) (completed_pairs r) (completed_engines r)
    (baseline_captured r) (failed r) (failure r) (failure_asic_id r) (failure_engine_id r)
    (failure_register_offset r) (failure_expected r) (failure_actual r) (ramp_baseline r).
#[export] Instance bzm_serial_parser_stats_t_eta : Eta bzm_serial_parser_stats_t :=
  fun s => mk_parser_stats (stats_emitted_frames s) (stats_discarded_bytes s)
    (stats_emitted_frames_at_last_discard s) (stats_unexpected_register_headers s) (stats_dropped_results s)
    (stats_rejected_result_frames s) (stats_unmatched_register_frames s) (stats_unsolicited_noop_frames s)
    (stats_invalid_noop_frames s) (stats_telemetry_decode_failures s) (buffered_bytes s) (queued_results s)
    (recent_discarded_bytes s).

Definition zero_parser_stats : bzm_serial_parser_stats_t := mk_parser_stats 0 0 0 0 0 0 0 0 0 0 0 0 [].

Record bzm_balanced_ramp_ops_t (W : Type) := mk_ramp_ops {
  op_begin_engine : Z -> Z -> io W bool;
  op_write_register : Z -> Z -> Z -> list Z -> io W bool;
  op_read_register : Z -> Z -> Z -> list Z -> io W (bool * list Z);
  op_delay_ms : Z -> io W unit;
  op_telemetry_sample : Z -> bzm_telemetry_sample_t -> io W (bool * bzm_telemetry_sample_t);
  op_parser_stats : bzm_serial_parser_stats_t -> io W (bool * bzm_serial_parser_stats_t);
  op_final_barrier : io W bool;
}.
Arguments mk_ramp_ops {W}.
Arguments op_begin_engine {W}.
Arguments op_write_register {W}.
Arguments op_read_register {W}.
Arguments op_delay_ms {W}.
Arguments op_telemetry_sample {W}.
Arguments op_parser_stats {W}.
Arguments op_final_barrier {W}.

(** ** Parser windows *)

Definition parser_is_clean_relative_to (b c : bzm_serial_parser_stats_t) : bool :=
  (stats_discarded_bytes c =? stats_discarded_bytes b) &&
  (stats_unexpected_register_headers c =? stats_unexpected_register_headers b) &&
  (stats_dropped_results c =? stats_dropped_results b) &&
  (stats_rejected_result_frames c =? stats_rejected_result_frames b) &&
  (stats_unmatched_register_frames c =? stats_unmatched_register_frames b) &&
  (stats_telemetry_decode_failures c =? stats_telemetry_decode_failures b) &&
  (queued_results c =? 0)%nat.

Definition bzm_balanced_ramp_parser_window_is_clean (baseline current : option bzm_serial_parser_stats_t) : bool :=
  match baseline, current with
  | Some b, Some c =>
      parser_is_clean_relative_to b c && (stats_discarded_bytes c =? stats_discarded_bytes b) &&
      (buffered_bytes c =? 0)%nat
  | _, _ => false
  end.

Definition bzm_balanced_ramp_accept_transition_discards (r : bzm_balanced_ramp_t)
    (current : option bzm_serial_parser_stats_t) : bool * bzm_balanced_ramp_t :=
  match current with
  | None => (false, r)
  | Some c =>
      let b := ramp_baseline r in
      if negb (baseline_captured r) || (stats_discarded_bytes c <? stats_discarded_bytes b) ||
         negb (stats_unexpected_register_headers c =? stats_unexpected_register_headers b) ||
         negb (stats_dropped_results c =? stats_dropped_results b) ||
         negb (stats_rejected_result_frames c =? stats_rejected_result_frames b) ||
         negb (stats_unmatched_register_frames c =? stats_unmatched_register_frames b) ||
         negb (stats_telemetry_decode_failures c =? stats_telemetry_decode_failures b) ||
         negb (queued_results c =? 0)%nat
      then (false, r)
      else (true, r <| ramp_baseline := b <| stats_discarded_bytes := stats_discarded_bytes c |> |>)
  end.

Definition bzm_balanced_ramp_get_parser_baseline (r : bzm_balanced_ramp_t) : option bzm_serial_parser_stats_t :=
  if negb (baseline_captured r) || failed r || negb (queued_results (ramp_baseline r) =? 0)%nat then None
  else Some (ramp_baseline r).

(** ** Activation *)

Definition bzm_balanced_ramp_init : bzm_balanced_ramp_t :=
  {| next_pair := replicate 4 0; prepared_asic := replicate 4 false; completed_pairs := 0;
     completed_engines := 0; baseline_captured := false; failed := false;
     failure := BZM_BALANCED_RAMP_FAILURE_NONE; failure_asic_id := 0; failure_engine_id := 0;
     failure_register_offset := 0; failure_expected := 0; failure_actual := 0;
     ramp_baseline := zero_parser_stats |}.

Definition fail (r : bzm_balanced_ramp_t) (f : bzm_balanced_ramp_failure_t)
    (asic engine offset expected actual : Z) : bool * bzm_balanced_ramp_t :=
  (false, r <| failed := true; failure := f; failure_asic_id := asic; failure_engine_id := engine;
               failure_register_offset := offset; failure_expected := expected; failure_actual := actual |>).

Definition config_acknowledged (readback : Z) : bool :=
  (Z.land readback BZM_BALANCED_RAMP_ENGINE_CONFIG_WRITABLE_MASK =? BZM_BALANCED_RAMP_ENGINE_CONFIG) &&
  (Z.land readback (255 - BZM_BALANCED_RAMP_ENGINE_CONFIG_ALLOWED_MASK) =? 0).

Section ramp.
Context {W : Type} (ops : bzm_balanced_ramp_ops_t W).

Definition addressed_write (asic : Z) : bzm_register_writer_t W :=
  fun engine offset data => op_write_register ops asic engine offset data.

(** The busy poll: [None] when the last read failed, otherwise whether the engine
    was busy, with the buffer of the read. *)
Fixpoint poll_busy (asic engine : Z) (first : bool) (attempts : nat) (buffer : list Z)
    : io W (option (bool * list Z)) :=
  match attempts with
  | O => io_ret (Some (false, buffer))
  | S attempts =>
      let! _ := if first then io_ret tt else op_delay_ms ops BZM_BALANCED_RAMP_BUSY_POLL_DELAY_MS in
      let! (ok, buffer) := op_read_register ops asic engine BZM_ENGINE_REG_STATUS buffer in
      if negb ok then
        if (attempts =? 0)%nat then io_ret None else poll_busy asic engine false attempts buffer
      else if has_bits (byte_at buffer 0) BZM_BALANCED_RAMP_ENGINE_BUSY_MASK then io_ret (Some (true, buffer))
      else poll_busy asic engine false attempts buffer
  end.

Definition activate_engine (r : bzm_balanced_ramp_t) (asic : Z) (engine : bzm_engine_location_t)
    : io W (bool * bzm_balanced_ramp_t) :=
  let id := physical_id engine in
  let! begun := op_begin_engine ops asic id in
  if negb begun then io_ret (fail r BZM_BALANCED_RAMP_FAILURE_LEASE asic id 0 1 0)
  else
    let! written :=
      op_write_register ops asic id BZM_ENGINE_REG_CONFIG [BZM_BALANCED_RAMP_ENGINE_CONFIG] in
    if negb written then
      io_ret (fail r BZM_BALANCED_RAMP_FAILURE_CONFIG_WRITE asic id BZM_ENGINE_REG_CONFIG
                BZM_BALANCED_RAMP_ENGINE_CONFIG 0)
    else
      let! programmed := bzm_transport_program_stage6_sentinel id (Some (addressed_write asic)) in
      if negb programmed then io_ret (fail r BZM_BALANCED_RAMP_FAILURE_SENTINEL_WRITE asic id 0 1 0)
      else
        let! polled := poll_busy asic id true BZM_BALANCED_RAMP_BUSY_POLL_ATTEMPTS [0; 0; 0; 0] in
        match polled with
        | None => io_ret (fail r BZM_BALANCED_RAMP_FAILURE_STATUS_READ asic id BZM_ENGINE_REG_STATUS 1 0)
        | Some (busy, buffer) =>
            if negb busy then
              io_ret (fail r BZM_BALANCED_RAMP_FAILURE_NOT_BUSY asic id BZM_ENGINE_REG_STATUS
                        BZM_BALANCED_RAMP_ENGINE_BUSY_MASK (byte_at buffer 0))
            else if negb (config_acknowledged (byte_at buffer 1)) then
              io_ret (fail r BZM_BALANCED_RAMP_FAILURE_CONFIG_READBACK asic id BZM_ENGINE_REG_CONFIG
                        BZM_BALANCED_RAMP_ENGINE_CONFIG (byte_at buffer 1))
            else io_ret (true, r <| completed_engines := u16 (completed_engines r + 1) |>)
        end.

Definition prepare_asic (r : bzm_balanced_ramp_t) (asic : Z) (index : nat)
    : io W (bool * bzm_balanced_ramp_t) :=
  if nth index (prepared_asic r) false then io_ret (true, r)
  else
    let reset value :=
      op_write_register ops asic BZM_CONTROL_ENGINE_ID BZM_LOCAL_REG_ENGINE_SOFT_RESET (write_le32 value) in
    let reset_failed expected actual :=
      fail r BZM_BALANCED_RAMP_FAILURE_ENGINE_RESET asic BZM_CONTROL_ENGINE_ID
        BZM_LOCAL_REG_ENGINE_SOFT_RESET expected actual in
    let! begun := op_begin_engine ops asic BZM_CONTROL_ENGINE_ID in
    if negb begun then
      io_ret (fail r BZM_BALANCED_RAMP_FAILURE_LEASE asic BZM_CONTROL_ENGINE_ID
                BZM_LOCAL_REG_ENGINE_SOFT_RESET 1 0)
    else
      let! cleared := reset 0 in
      if negb cleared then io_ret (reset_failed 0 1)
      else
        let! _ := op_delay_ms ops BZM_BALANCED_RAMP_RESET_DELAY_MS in
        let! released := reset 1 in
        if negb released then io_ret (reset_failed 1 0)
        else
          let! _ := op_delay_ms ops BZM_BALANCED_RAMP_RESET_DELAY_MS in
          io_ret (true, r <| prepared_asic := <[index := true]> (prepared_asic r) |>).

(** The baseline of the parser counters, taken once. *)
Definition capture_baseline (r : bzm_balanced_ramp_t) (asic : Z) : io W (bool * bzm_balanced_ramp_t) :=
  if baseline_captured r then io_ret (true, r)
  else
    let! (ok, stats) := op_parser_stats ops (ramp_baseline r) in
    let r := r <| ramp_baseline := stats |> in
    if negb ok || negb (queued_results stats =? 0)%nat then
      io_ret (fail r BZM_BALANCED_RAMP_FAILURE_PARSER_BASELINE asic 0 0 0 (u32 (Z.of_nat (queued_results stats))))
    else io_ret (true, r <| baseline_captured := true |>).

Definition sample_usable (s : bzm_telemetry_sample_t) : bool :=
  Telemetry.received s && sample_valid s && is_finite (ch0_mv s) && is_finite (ch1_mv s).

(** The pair in the order of activation: the stack of the higher voltage first. *)
Definition activation_pair (s : bzm_telemetry_sample_t) (p : bzm_engine_pair_t)
    : bzm_engine_location_t * bzm_engine_location_t :=
  if fle (ch1_mv s) (ch0_mv s) then (bottom p, top p) else (top p, bottom p).

(** Both engines of a pair, on an ASIC that is prepared. *)
Definition activate_pair (r : bzm_balanced_ramp_t) (asic : Z) (index : nat) (p : bzm_engine_pair_t)
    : io W (bool * bzm_balanced_ramp_t) :=
  let! (ok, sample) := op_telemetry_sample ops asic (zero_sample 0) in
  if negb ok || negb (sample_usable sample) then
    io_ret (fail r BZM_BALANCED_RAMP_FAILURE_TELEMETRY asic 0 0 1 (Z.b2z (sample_valid sample)))
  else
    let '(first, second) := activation_pair sample p in
    let! (ok, r) := activate_engine r asic first in
    if negb ok then io_ret (false, r)
    else
      let! (ok, r) := activate_engine r asic second in
      if negb ok then io_ret (false, r)
      else
        io_ret (true, r <| next_pair := <[index := u16 (nth index (next_pair r) 0 + 1)]> (next_pair r);
                           completed_pairs := u16 (completed_pairs r + 1) |>).
End ramp.

Definition pair_argument_valid (r : bzm_balanced_ramp_t) (index : nat) (p : bzm_engine_pair_t) : bool :=
  negb (BZM_TOPOLOGY_PAIR_COUNT <=? pair_index p) &&
  bool_decide (stack (bottom p) = BZM_ENGINE_STACK_BOTTOM) &&
  bool_decide (stack (top p) = BZM_ENGINE_STACK_TOP) &&
  (stack_index (bottom p) =? pair_index p) && (stack_index (top p) =? pair_index p) &&
  (nth index (next_pair r) 0 =? pair_index p).

Definition bzm_balanced_ramp_commit_pair {W} (r : bzm_balanced_ramp_t)
    (ops : option (bzm_balanced_ramp_ops_t W)) (asic : Z) (p : option bzm_engine_pair_t)
    : io W (bool * bzm_balanced_ramp_t) :=
  if failed r then io_ret (false, r)
  else
    let refused :=
      fail r BZM_BALANCED_RAMP_FAILURE_ARGUMENT asic
        (match p with Some p => physical_id (bottom p) | None => 0 end) 0 1 0 in
    match ops, p, bzm_topology_asic_index asic with
    | Some ops, Some p, Some index =>
        if negb (pair_argument_valid r index p) then io_ret refused
        else
          let! (ok, r) := capture_baseline ops r asic in
          if negb ok then io_ret (false, r)
          else
            let! (ok, r) := prepare_asic ops r asic index in
            if negb ok then io_ret (false, r) else activate_pair ops r asic index p
    | _, _, _ => io_ret refused
    end.

(** The first ASIC whose pairs are not all committed. *)
Fixpoint incomplete_asic (r : bzm_balanced_ramp_t) (indices : list nat) : option nat :=
  match indices with
  | [] => None
  | index :: indices =>
      if negb (nth index (next_pair r) 0 =? BZM_TOPOLOGY_PAIR_COUNT) then Some index
      else incomplete_asic r indices
  end.

Definition bzm_balanced_ramp_barrier {W} (r : bzm_balanced_ramp_t)
    (ops : option (bzm_balanced_ramp_ops_t W)) (asic_count pairs_per_asic : Z)
    : io W (bool * bzm_balanced_ramp_t) :=
  let incomplete :=
    fail r BZM_BALANCED_RAMP_FAILURE_INCOMPLETE 0 0 0 (BZM_MAX_ASIC_COUNT * BZM_TOPOLOGY_PAIR_COUNT)
      (completed_pairs r) in
  match ops with
  | None => io_ret incomplete
  | Some ops =>
      if failed r || negb (baseline_captured r) || negb (asic_count =? BZM_MAX_ASIC_COUNT) ||
         negb (pairs_per_asic =? BZM_TOPOLOGY_PAIR_COUNT) ||
         negb (completed_pairs r =? BZM_MAX_ASIC_COUNT * BZM_TOPOLOGY_PAIR_COUNT) ||
         negb (completed_engines r =? BZM_MAX_ASIC_COUNT * BZM_TOPOLOGY_ENGINE_COUNT)
      then io_ret incomplete
      else
        match incomplete_asic r (seq 0 (Z.to_nat BZM_MAX_ASIC_COUNT)) with
        | Some index =>
            io_ret (fail r BZM_BALANCED_RAMP_FAILURE_INCOMPLETE (byte_at bzm_asic_wire_ids index) 0 0
                      BZM_TOPOLOGY_PAIR_COUNT (nth index (next_pair r) 0))
        | None =>
            let! passed := op_final_barrier ops in
            if negb passed then io_ret (fail r BZM_BALANCED_RAMP_FAILURE_FINAL_BARRIER 0 0 0 1 0)
            else
              let! (ok, current) := op_parser_stats ops zero_parser_stats in
              if negb ok || negb (parser_is_clean_relative_to (ramp_baseline r) current) then
                io_ret (fail r BZM_BALANCED_RAMP_FAILURE_PARSER_FINAL 0 0 0 0
                          (if (queued_results current =? 0)%nat then 1
                           else u32 (Z.of_nat (queued_results current))))
              else io_ret (true, r)
        end
  end.

Definition bzm_balanced_ramp_failure_name (f : bzm_balanced_ramp_failure_t) : string :=
  match f with
  | BZM_BALANCED_RAMP_FAILURE_NONE => "none"
  | BZM_BALANCED_RAMP_FAILURE_ARGUMENT => "argument"
  | BZM_BALANCED_RAMP_FAILURE_PARSER_BASELINE => "parser_baseline"
  | BZM_BALANCED_RAMP_FAILURE_TELEMETRY => "telemetry"
  | BZM_BALANCED_RAMP_FAILURE_LEASE => "lease"
  | BZM_BALANCED_RAMP_FAILURE_ENGINE_RESET => "engine_reset"
  | BZM_BALANCED_RAMP_FAILURE_CONFIG_WRITE => "config_write"
  | BZM_BALANCED_RAMP_FAILURE_SENTINEL_WRITE => "sentinel_write"
  | BZM_BALANCED_RAMP_FAILURE_STATUS_READ => "status_read"
  | BZM_BALANCED_RAMP_FAILURE_NOT_BUSY => "not_busy"
  | BZM_BALANCED_RAMP_FAILURE_CONFIG_READBACK => "config_readback"
  | BZM_BALANCED_RAMP_FAILURE_INCOMPLETE => "incomplete"
  | BZM_BALANCED_RAMP_FAILURE_FINAL_BARRIER => "final_barrier"
  | BZM_BALANCED_RAMP_FAILURE_PARSER_FINAL => "parser_final"
  end.

(** ** The hardware log of a ramp *)

Inductive ramp_event :=
| EvBegin (asic engine : Z) (ok : bool)
| EvWrite (asic engine offset : Z) (data : list Z) (ok : bool)
| EvRead (asic engine offset : Z) (data : list Z) (ok : bool)
| EvSample (asic : Z) (s : bzm_telemetry_sample_t) (ok : bool)
| EvStats (s : bzm_serial_parser_stats_t) (ok : bool)
| EvBarrier (ok : bool).

(** The engine whose registers an event accesses. *)
Definition access (e : ramp_event) : option (Z * Z) :=
  match e with EvWrite a engine _ _ _ | EvRead a engine _ _ _ => Some (a, engine) | _ => None end.

(** The engine the most recent authorisation was for. *)
Definition grant_step (g : option (Z * Z)) (e : ramp_event) : option (Z * Z) :=
  match e with EvBegin a engine ok => if ok then Some (a, engine) else None | _ => g end.
Definition granted (log : list ramp_event) : option (Z * Z) := foldl grant_step None log.

(** An engine is acknowledged by a status read that finds it busy, with the
    enhanced-mode configuration. *)
Definition acknowledgement (e : ramp_event) : option (Z * Z) :=
  match e with
  | EvRead a engine offset data true =>
      if (offset =? BZM_ENGINE_REG_STATUS) && has_bits (byte_at data 0) BZM_BALANCED_RAMP_ENGINE_BUSY_MASK &&
         config_acknowledged (byte_at data 1)
      then Some (a, engine) else None
  | _ => None
  end.
Definition acks (log : list ramp_event) : list (Z * Z) := omap acknowledgement log.

(** The usable telemetry samples, each of which starts the activation of a pair. *)
Definition usable_sample (e : ramp_event) : option (Z * bzm_telemetry_sample_t) :=
  match e with EvSample a s true => if sample_usable s then Some (a, s) else None | _ => None end.
Definition samples (log : list ramp_event) : list (Z * bzm_telemetry_sample_t) := omap usable_sample log.

(** The entries of one ASIC. *)
Definition on_asic {A} (asic : Z) (l : list (Z * A)) : list A :=
  omap (fun p => if fst p =? asic then Some (snd p) else None) l.

(** The writes that start an engine: its configuration, then the sentinel work
    and the flush that dispatches it. *)
Definition engine_program (engine : Z) : list (Z * list Z) :=
  (BZM_ENGINE_REG_CONFIG, [BZM_BALANCED_RAMP_ENGINE_CONFIG]) ::
  work_writes (sentinel_work engine) true ++ flush_writes true 1.
Definition program_events (asic engine : Z) (writes : list (Z * list Z)) : list ramp_event :=
  (fun '(offset, data) => EvWrite asic engine offset data true) <$> writes.

(** Register accesses of one engine that do not acknowledge it. *)
Definition silent (asic engine : Z) (e : ramp_event) : Prop :=
  access e = Some (asic, engine) /\ acknowledgement e = None.

(** The engine acknowledged right after its authorisation and its complete program, with
    nothing between but further accesses of it. *)
Definition programmed (log : list ramp_event) (p : Z * Z) : Prop :=
  exists l1 polls e l2,
    log = l1 ++ [EvBegin p.1 p.2 true] ++ program_events p.1 p.2 (engine_program p.2) ++ polls ++ e :: l2 /\
    Forall (silent p.1 p.2) polls /\ acknowledgement e = Some p.

Section system.
Context {W : Type} (ops : bzm_balanced_ramp_ops_t W).

Definition traced_ops : bzm_balanced_ramp_ops_t (W * list ramp_event) :=
  {| op_begin_engine := fun a e => traced (op_begin_engine ops a e) (EvBegin a e);
     op_write_register := fun a e offset data =>
       traced (op_write_register ops a e offset data) (EvWrite a e offset data);
     op_read_register := fun a e offset buffer =>
       traced (op_read_register ops a e offset buffer) (fun r => EvRead a e offset (snd r) (fst r));
     op_delay_ms := fun ms => lifted (op_delay_ms ops ms);
     op_telemetry_sample := fun a s => traced (op_telemetry_sample ops a s) (fun r => EvSample a (snd r) (fst r));
     op_parser_stats := fun s => traced (op_parser_stats ops s) (fun r => EvStats (snd r) (fst r));
     op_final_barrier := traced (op_final_barrier ops) EvBarrier |}.

(** The ramp as its client drives it: pairs by their topology index, on any ASIC,
    acceptance of the bytes discarded meanwhile, and the barrier. *)
Inductive ramp_op :=
| Commit (asic index : Z)
| Accept (current : bzm_serial_parser_stats_t)
| Barrier (asic_count pairs_per_asic : Z).

Definition ramp_perform (c : ramp_op) (r : bzm_balanced_ramp_t) : io (W * list ramp_event) (bool * bzm_balanced_ramp_t) :=
  match c with
  | Commit asic index => bzm_balanced_ramp_commit_pair r (Some traced_ops) asic (bzm_topology_balanced_pair_at index)
  | Accept current => io_ret (bzm_balanced_ramp_accept_transition_discards r (Some current))
  | Barrier n k => bzm_balanced_ramp_barrier r (Some traced_ops) n k
  end.

Definition ramp_state : Type := bzm_balanced_ramp_t * (W * list ramp_event).
Definition ramp_start (s : ramp_state) : Prop := exists w, s = (bzm_balanced_ramp_init, (w, [])).
Inductive ramp_step : ramp_state -> ramp_state -> Prop :=
| ramp_step_perform c r w ok r' w' : ramp_perform c r w = ((ok, r'), w') -> ramp_step (r, w) (r', w').
Definition ramp_reachable : ramp_state -> Prop := reachable ramp_start ramp_step.
End system.

(** ** Effects of a stretch of the log *)

Fixpoint authorized_from (g : option (Z * Z)) (log : list ramp_event) : Prop :=
  match log with
  | [] => True
  | e :: log => (forall p, access e = Some p -> g = Some p) /\ authorized_from (grant_step g e) log
  end.

Lemma authorized_from_app g l1 l2 :
  authorized_from g (l1 ++ l2) <-> authorized_from g l1 /\ authorized_from (foldl grant_step g l1) l2.
Proof. revert g. induction l1 as [|e l1 IH]; intros g; cbn; [tauto|]. rewrite IH. tauto. Qed.

Lemma authorized_from_split g log : authorized_from g log <->
  forall l1 e l2 p, log = l1 ++ e :: l2 -> access e = Some p -> foldl grant_step g l1 = Some p.
Proof.
  split.
  - intros H l1 e l2 p -> He. apply authorized_from_app in H as [_ H]. cbn in H. by apply (proj1 H).
  - revert g. induction log as [|e log IH]; intros g H; cbn; [done|]. split.
    + intros p Hp. by apply (H [] e log p).
    + apply IH. intros l1 e' l2 p -> Hp. by apply (H (e :: l1) e' l2 p).
Qed.

(** A stretch of the log that acknowledges [a], takes the samples [s], accesses
    authorised engines only and programs every engine right before its acknowledgement. *)
Record effect (evs : list ramp_event) (a : list (Z * Z)) (s : list (Z * bzm_telemetry_sample_t)) : Prop := {
  effect_acks : acks evs = a;
  effect_samples : samples evs = s;
  effect_authorized : forall g, authorized_from g evs;
  effect_programmed : Forall (programmed evs) a;
}.

Lemma programmed_app_l l1 l2 p : programmed l2 p -> programmed (l1 ++ l2) p.
Proof. intros (a & q & e & b & -> & H). exists (l1 ++ a), q, e, b. by rewrite <- !app_assoc. Qed.
Lemma programmed_app_r l1 l2 p : programmed l1 p -> programmed (l1 ++ l2) p.
Proof. intros (a & q & e & b & -> & H). exists a, q, e, (b ++ l2). by rewrite <- !app_assoc. Qed.

Lemma effect_nil : effect [] [] [].
Proof. by split. Qed.

Lemma effect_app e1 e2 a1 a2 s1 s2 :
  effect e1 a1 s1 -> effect e2 a2 s2 -> effect (e1 ++ e2) (a1 ++ a2) (s1 ++ s2).
Proof.
  intros [A1 S1 G1 P1] [A2 S2 G2 P2]. split.
  - unfold acks in *. by rewrite omap_app, A1, A2.
  - unfold samples in *. by rewrite omap_app, S1, S2.
  - intros g. by apply authorized_from_app.
  - apply Forall_app. split; eapply Forall_impl; eauto using programmed_app_l, programmed_app_r.
Qed.

Lemma silent_stretch a e evs :
  Forall (silent a e) evs -> acks evs = [] /\ samples evs = [] /\ authorized_from (Some (a, e)) evs /\
  foldl grant_step (Some (a, e)) evs = Some (a, e).
Proof.
  induction 1 as [|ev evs [H1 H2] Hall (I1 & I2 & I3 & I4)]; [done|].
  unfold acks, samples in *. cbn. rewrite H2, I1.
  destruct ev; try discriminate; cbn in *; injection H1 as <- <-; (split_and!; [done|done| |done|done]);
  congruence.
Qed.

(** ** The operations and their effects *)

Section operations.
Context {W : Type} (ops : bzm_balanced_ramp_ops_t W).

Lemma write_all_emits asic engine writes :
  emits (write_all (addressed_write (traced_ops ops) asic) engine writes) (fun ok evs =>
    Forall (silent asic engine) evs /\ (ok = true -> evs = program_events asic engine writes)).
Proof.
  induction writes as [|[offset data] writes IH]; cbn [write_all].
  - by apply emits_ret.
  - apply emits_bind. unfold addressed_write at 1, traced_ops at 1; cbn [op_write_register].
    apply emits_traced. intros [].
    + eapply emits_mono; [exact IH|]. intros ok evs [H1 H2]. split; [by constructor|].
      intros Hok. cbn. by rewrite H2.
    + apply emits_ret. split; [by repeat constructor|done].
Qed.

Lemma sentinel_emits asic engine :
  emits (bzm_transport_program_stage6_sentinel engine (Some (addressed_write (traced_ops ops) asic)))
    (fun ok evs => Forall (silent asic engine) evs /\
       (ok = true -> evs = program_events asic engine (work_writes (sentinel_work engine) true ++ flush_writes true 1))).
Proof.
  unfold bzm_transport_program_stage6_sentinel. destruct (_ <=? engine); [by apply emits_ret|].
  apply emits_bind. unfold bzm_transport_program_work, program_work.
  change ((midstate_count (sentinel_work engine) =? 0)%nat ||
    (BZM_VERSION_VARIANTS <? midstate_count (sentinel_work engine))%nat) with false.
  change (engine_id (sentinel_work engine)) with engine. cbv iota.
  eapply emits_mono; [apply write_all_emits|]. intros [] evs [H1 H2].
  - unfold program_flush_job. eapply emits_mono; [apply write_all_emits|]. intros ok evs' [H3 H4].
    split; [by apply Forall_app|]. intros Hok. rewrite H2, H4 by done.
    unfold program_events. by rewrite fmap_app.
  - apply emits_ret. rewrite app_nil_r. done.
Qed.

(** A poll accesses the engine; it acknowledges it exactly if it ends on a busy
    read with the configuration in place. *)
Definition poll_events (asic engine : Z) (r : option (bool * list Z)) (evs : list ramp_event) : Prop :=
  match r with
  | Some (true, buffer) =>
      exists quiet, Forall (silent asic engine) quiet /\
        evs = quiet ++ [EvRead asic engine BZM_ENGINE_REG_STATUS buffer true] /\
        has_bits (byte_at buffer 0) BZM_BALANCED_RAMP_ENGINE_BUSY_MASK = true
  | _ => Forall (silent asic engine) evs
  end.

Lemma poll_busy_emits asic engine first attempts buffer :
  emits (poll_busy (traced_ops ops) asic engine first attempts buffer) (poll_events asic engine).
Proof.
  revert first buffer. induction attempts as [|attempts IH]; intros first buffer; cbn [poll_busy].
  - apply emits_ret. by cbn.
  - apply emits_bind. assert (Hread : emits
      (let! (ok, buffer0) := op_read_register (traced_ops ops) asic engine BZM_ENGINE_REG_STATUS buffer in
       if negb ok then
         if (attempts =? 0)%nat then io_ret None
         else poll_busy (traced_ops ops) asic engine false attempts buffer0
       else if has_bits (byte_at buffer0 0) BZM_BALANCED_RAMP_ENGINE_BUSY_MASK then io_ret (Some (true, buffer0))
       else poll_busy (traced_ops ops) asic engine false attempts buffer0) (poll_events asic engine)).
    { apply emits_bind. cbn [traced_ops op_read_register]. apply emits_traced. intros [ok read]. cbn [fst snd].
      assert (Hgo : forall e, silent asic engine e ->
        emits (poll_busy (traced_ops ops) asic engine false attempts read)
          (fun b e2 => poll_events asic engine b ([e] ++ e2))).
      { intros e He. eapply emits_mono; [apply IH|]. intros [[[] ?]|] evs; cbn; [|by constructor..].
        intros (quiet & Hq & -> & Hb). exists (e :: quiet). split_and!; [by constructor|done|done]. }
      destruct ok; cbn [negb].
      - destruct (has_bits _ _) eqn:Eb; [apply emits_ret|apply Hgo].
        + exists []. by split_and!.
        + split; [done|]. cbn. by rewrite Eb.
      - destruct (attempts =? 0)%nat; [apply emits_ret; cbn; by repeat constructor|by apply Hgo]. }
    destruct first; [by apply emits_ret|].
    cbn [traced_ops op_delay_ms]. apply emits_lifted. intros _. exact Hread.
Qed.

(** The log of an engine that is not acknowledged, and of one that is. *)
Lemma silent_effect asic engine evs :
  Forall (silent asic engine) evs -> effect (EvBegin asic engine true :: evs) [] [].
Proof. intros (H1 & H2 & H3 & H4)%silent_stretch. split; [done|done|by cbn|done]. Qed.

Lemma acknowledged_effect asic engine evs quiet buffer :
  evs = program_events asic engine (engine_program engine) -> Forall (silent asic engine) evs ->
  Forall (silent asic engine) quiet ->
  has_bits (byte_at buffer 0) BZM_BALANCED_RAMP_ENGINE_BUSY_MASK = true ->
  config_acknowledged (byte_at buffer 1) = true ->
  effect ((EvBegin asic engine true :: evs ++ quiet) ++ [EvRead asic engine BZM_ENGINE_REG_STATUS buffer true])
    [(asic, engine)] [].
Proof.
  intros Hevs Hq1 Hq2 Hbusy Hc.
  assert (Hev : acknowledgement (EvRead asic engine BZM_ENGINE_REG_STATUS buffer true) = Some (asic, engine))
    by (cbn; by rewrite Hbusy, Hc).
  pose proof (proj2 (Forall_app _ _ _) (conj Hq1 Hq2)) as (A1 & A2 & A3 & A4)%silent_stretch.
  split.
  - unfold acks in *. rewrite omap_app. cbn [omap list_omap]. rewrite Hev.
    change (acknowledgement (EvBegin asic engine true)) with (@None (Z * Z)). cbv iota. by rewrite A1.
  - unfold samples in *. rewrite omap_app. cbn. cbn in A2. by rewrite A2.
  - intros g. apply authorized_from_app. split; [by cbn|]. cbn [foldl grant_step].
    rewrite A4. cbn. split; [congruence|done].
  - constructor; [|done]. exists [], quiet, (EvRead asic engine BZM_ENGINE_REG_STATUS buffer true), [].
    cbn [fst snd app]. rewrite <- Hevs. split; [|done]. cbn. by rewrite <- app_assoc.
Qed.

(** What a failure leaves. *)
Definition fails (r r' : bzm_balanced_ramp_t) : Prop := failed r' = true /\ next_pair r' = next_pair r.

Lemma activate_engine_emits r asic engine :
  emits (activate_engine (traced_ops ops) r asic engine) (fun '(ok, r') evs =>
    if (ok : bool)
    then effect evs [(asic, physical_id engine)] [] /\ r' = r <| completed_engines := u16 (completed_engines r + 1) |>
    else effect evs [] [] /\ fails r r').
Proof.
  set (id := physical_id engine). unfold activate_engine. fold id.
  set (config := EvWrite asic id BZM_ENGINE_REG_CONFIG [BZM_BALANCED_RAMP_ENGINE_CONFIG]).
  apply emits_bind. cbn [traced_ops op_begin_engine]. apply emits_traced. intros [|].
  2: { apply emits_ret. split; [|done]. split; [done|done| |done]. by cbn. }
  cbn [negb]. apply emits_bind. cbn [traced_ops op_write_register]. apply emits_traced. intros [|].
  2: { apply emits_ret. split; [apply silent_effect|done]. by repeat constructor. }
  cbn [negb]. apply emits_bind. fold (traced_ops ops).
  eapply emits_mono; [apply sentinel_emits|]. intros [] evs [H1 H2]; cbn [negb].
  2: { apply emits_ret. split; [|done]. rewrite app_nil_r. cbn. apply silent_effect. by constructor. }
  apply emits_bind. eapply emits_mono; [apply poll_busy_emits|]. specialize (H2 eq_refl).
  assert (Hq : Forall (silent asic id) (config true :: evs)) by (by constructor).
  assert (Hquiet : forall q, Forall (silent asic id) q ->
    effect (([EvBegin asic id true]) ++ [config true] ++ evs ++ q ++ []) [] []).
  { intros q Hq2. rewrite app_nil_r. apply (silent_effect asic id (config true :: evs ++ q)).
    rewrite app_comm_cons. by apply Forall_app. }
  intros [[[] buffer]|] poll Hpoll; cbn [negb]; cbn [poll_events] in Hpoll;
    [|by apply emits_ret; split; [apply Hquiet|]..].
  destruct Hpoll as (quiet & Hq2 & -> & Hbusy).
  destruct (config_acknowledged (byte_at buffer 1)) eqn:Ec; cbn [negb]; apply emits_ret; (split; [|done]).
  - rewrite app_nil_r. cbn [app]. rewrite app_assoc, app_comm_cons, app_comm_cons.
    apply (acknowledged_effect asic id (config true :: evs) quiet buffer); try done.
    rewrite H2. done.
  - apply Hquiet. apply Forall_app. split; [done|]. constructor; [|done].
    split; [done|]. cbn. by rewrite Hbusy, Ec.
Qed.

(** What the steps before the first activation leave alone. *)
Definition same_progress (r r' : bzm_balanced_ramp_t) : Prop :=
  next_pair r' = next_pair r /\ completed_pairs r' = completed_pairs r /\
  completed_engines r' = completed_engines r /\ failed r' = failed r.

Lemma capture_baseline_emits r asic :
  emits (capture_baseline (traced_ops ops) r asic) (fun '(ok, r') evs =>
    effect evs [] [] /\ if (ok : bool) then same_progress r r' /\ baseline_captured r' = true else fails r r').
Proof.
  unfold capture_baseline. destruct (baseline_captured r) eqn:E; [by apply emits_ret|].
  apply emits_bind. cbn [traced_ops op_parser_stats]. apply emits_traced. intros [ok stats]. cbn [fst snd].
  destruct (_ || _); apply emits_ret; (split; [by split|done]).
Qed.

Lemma prepare_asic_emits r asic index :
  emits (prepare_asic (traced_ops ops) r asic index) (fun '(ok, r') evs =>
    effect evs [] [] /\
    if (ok : bool) then same_progress r r' /\ baseline_captured r' = baseline_captured r else fails r r').
Proof.
  unfold prepare_asic. destruct (nth index (prepared_asic r) false); [by apply emits_ret|].
  apply emits_bind. cbn [traced_ops op_begin_engine op_write_register op_delay_ms]. cbn zeta.
  repeat (symbolic_step; try (match goal with b : bool |- context [negb ?x] => destruct x end; cbn [negb])).
  all: split; [|done]; cbn [app].
  all: first [by split | apply silent_effect; by repeat constructor].
Qed.

(** The engines of a pair, in the order a sample asks for. *)
Definition pair_order (p : bzm_engine_pair_t) (s : bzm_telemetry_sample_t) : list Z :=
  if fle (ch1_mv s) (ch0_mv s) then [physical_id (bottom p); physical_id (top p)]
  else [physical_id (top p); physical_id (bottom p)].

(** A commit, whatever its outcome, activates the engines of its pair in the order
    of the sample it took. *)
Definition pair_outcome (r : bzm_balanced_ramp_t) (asic : Z) (index : nat) (p : bzm_engine_pair_t)
    (ok : bool) (r' : bzm_balanced_ramp_t) (evs : list ramp_event) : Prop :=
  if ok then
    exists s, effect evs (pair asic <$> pair_order p s) [(asic, s)] /\
      next_pair r' = <[index := u16 (nth index (next_pair r) 0 + 1)]> (next_pair r) /\
      completed_pairs r' = u16 (completed_pairs r + 1) /\
      completed_engines r' = u16 (u16 (completed_engines r + 1) + 1) /\ failed r' = failed r
  else
    fails r r' /\
    (effect evs [] [] \/
     exists s l, effect evs (pair asic <$> l) [(asic, s)] /\ l `prefix_of` pair_order p s).

Lemma activate_pair_emits r asic index p :
  emits (activate_pair (traced_ops ops) r asic index p) (fun '(ok, r') evs =>
    pair_outcome r asic index p ok r' evs /\ (ok = true -> baseline_captured r' = baseline_captured r)).
Proof.
  unfold activate_pair. apply emits_bind. cbn [traced_ops op_telemetry_sample]. apply emits_traced.
  intros [ok s]. cbn [fst snd]. fold (traced_ops ops).
  destruct (negb ok || negb (sample_usable s)) eqn:Eu.
  { apply emits_ret. split; [|done]. split; [done|]. left. rewrite app_nil_r. split; try done.
    cbn. destruct ok; [|done]. cbn in Eu. apply negb_true_iff in Eu. by rewrite Eu. }
  apply orb_false_iff in Eu as [->%negb_false_iff Eu%negb_false_iff].
  assert (Hs : effect [EvSample asic s true] [] [(asic, s)]).
  { split; try done. cbn. by rewrite Eu. }
  destruct (activation_pair s p) as [first second] eqn:Ep.
  assert (Ho : pair_order p s = [physical_id first; physical_id second]) 
    by (revert Ep; unfold pair_order, activation_pair; by destruct (fle _ _); intros [= <- <-]).
  apply emits_bind. eapply emits_mono; [apply activate_engine_emits|].
  intros [[] r1] e1 [H1 F1]; cbn [negb].
  2: { apply emits_ret. split; [|done]. split; [done|]. right. exists s, []. rewrite app_nil_r.
       split; [by apply (effect_app _ _ [] [] [_] [])|apply prefix_nil]. }
  apply emits_bind. eapply emits_mono; [apply activate_engine_emits|].
  intros [[] r2] e2 [H2 F2]; cbn [negb]; apply emits_ret; rewrite app_nil_r.
  - subst r1 r2. split; [|done]. exists s. rewrite Ho. split; [|done].
    by apply (effect_app _ _ [] [_; _] [_] []), (effect_app _ _ [_] [_] [] []).
  - subst r1. split; [|done]. split; [done|]. right. exists s, [physical_id first]. rewrite Ho.
    split; [|by exists [physical_id second]].
    by apply (effect_app _ _ [] [_] [_] []), (effect_app _ _ [_] [] [] []).
Qed.

Lemma commit_pair_emits r asic p :
  failed r = false ->
  emits (bzm_balanced_ramp_commit_pair r (Some (traced_ops ops)) asic p) (fun '(ok, r') evs =>
    (ok = false /\ fails r r' /\ effect evs [] []) \/
    exists index q, p = Some q /\ bzm_topology_asic_index asic = Some index /\
      pair_argument_valid r index q = true /\ pair_outcome r asic index q ok r' evs).
Proof.
  intros Hf. unfold bzm_balanced_ramp_commit_pair. rewrite Hf. cbn zeta.
  destruct p as [p|]; [|apply emits_ret; left; split_and!; [done..|apply effect_nil]].
  destruct (bzm_topology_asic_index asic) as [index|] eqn:Ei;
    [|apply emits_ret; left; split_and!; [done..|apply effect_nil]].
  destruct (pair_argument_valid r index p) eqn:Ea; cbn [negb];
    [|apply emits_ret; left; split_and!; [done..|apply effect_nil]].
  apply emits_bind. eapply emits_mono; [apply capture_baseline_emits|].
  intros [[] r1] e1 [E1 H1]; cbn [negb];
    [|apply emits_ret; left; split_and!; [done..|by rewrite app_nil_r]].
  destruct H1 as [(A1 & A2 & A3 & A4) _].
  apply emits_bind. eapply emits_mono; [apply prepare_asic_emits|].
  intros [[] r2] e2 [E2 H2]; cbn [negb].
  2: { apply emits_ret. left. destruct H2 as [F1 F2]. split_and!; [done|split; congruence|].
       rewrite app_nil_r. by apply (effect_app _ _ [] [] [] []). }
  destruct H2 as [(B1 & B2 & B3 & B4) _].
  eapply emits_mono; [apply activate_pair_emits|]. intros [ok r3] e3 [H3 _].
  right. exists index, p. split_and!; try done.
  assert (Hpre : forall a s, effect e3 a s -> effect (e1 ++ e2 ++ e3) a s).
  { intros a s He. by apply (effect_app _ _ [] a [] s), (effect_app _ _ [] a [] s). }
  unfold pair_outcome in *. destruct ok.
  - destruct H3 as (s & He & N & C1 & C2 & F). exists s. split; [by apply Hpre|].
    rewrite N, C1, C2, F. by rewrite ?B1, ?B2, ?B3, ?B4, ?A1, ?A2, ?A3, ?A4.
  - destruct H3 as [[F1 F2] H3]. split; [split; congruence|]. destruct H3 as [H3|(s & l & H3 & Hl)].
    + left. by apply Hpre.
    + right. exists s, l. split; [by apply Hpre|done].
Qed.

Lemma incomplete_asic_none r indices :
  incomplete_asic r indices = None <-> Forall (fun i => nth i (next_pair r) 0 = 118) indices.
Proof.
  induction indices as [|i indices IH]; cbn; [done|]. rewrite Forall_cons, <- IH.
  destruct (Z.eqb_spec (nth i (next_pair r) 0) BZM_TOPOLOGY_PAIR_COUNT) as [E|E]; cbn.
  - unfold BZM_TOPOLOGY_PAIR_COUNT in E. tauto.
  - split; [done|]. intros [? _]. done.
Qed.

Lemma barrier_emits r n k :
  emits (bzm_balanced_ramp_barrier r (Some (traced_ops ops)) n k) (fun '(ok, r') evs =>
    effect evs [] [] /\ (failed r = true -> evs = []) /\
    if (ok : bool) then
      r' = r /\ failed r = false /\ n = 4 /\ k = 118 /\ (forall i, (i < 4)%nat -> nth i (next_pair r) 0 = 118) /\
      exists s, evs = [EvBarrier true; EvStats s true] /\ parser_is_clean_relative_to (ramp_baseline r) s = true
    else fails r r').
Proof.
  unfold bzm_balanced_ramp_barrier. cbn zeta.
  destruct (_ || _) eqn:E; [by apply emits_ret|].
  do 5 (apply orb_false_iff in E as [E ?]).
  destruct (incomplete_asic _ _) as [i|] eqn:Ei; [by apply emits_ret|].
  rewrite incomplete_asic_none, Forall_forall in Ei.
  apply emits_bind. cbn [traced_ops op_final_barrier]. apply emits_traced. intros [|]; cbn [negb].
  2: { apply emits_ret. rewrite E. by split_and!. }
  apply emits_bind. cbn [traced_ops op_parser_stats]. apply emits_traced. intros [ok s]. cbn [fst snd app].
  destruct (negb ok || _) eqn:Eok; apply emits_ret; rewrite E; (split; [by split|split; [done|]]); [done|].
  apply orb_false_iff in Eok as [->%negb_false_iff Hc%negb_false_iff]. prop_bool.
  repeat match goal with H : (_ =? _) = true |- _ => apply Z.eqb_eq in H end.
  split_and!; try done; [|by eexists].
  intros i Hi. apply Ei, elem_of_seq. change (Z.to_nat BZM_MAX_ASIC_COUNT) with 4%nat. lia.
Qed.
End operations.

(** ** The invariant *)

(** The order in which the samples ask for the engines of the pairs from [k] on. *)
Fixpoint expected_order (k : Z) (ss : list bzm_telemetry_sample_t) : list Z :=
  match ss with
  | [] => []
  | s :: ss =>
      match bzm_topology_balanced_pair_at k with Some p => pair_order p s | None => [] end ++
      expected_order (k + 1) ss
  end.

Definition total (l : list Z) : Z := foldr Z.add 0 l.

Definition asic_progress (r : bzm_balanced_ramp_t) (log : list ramp_event) (index : nat) (asic : Z) : Prop :=
  let n := nth index (next_pair r) 0 in
  let done := on_asic asic (acks log) in
  let ss := on_asic asic (samples log) in
  0 <= n <= 118 /\ done `prefix_of` expected_order 0 ss /\
  (failed r = false -> Z.of_nat (length ss) = n /\ done = expected_order 0 ss).

Record ramp_inv (r : bzm_balanced_ramp_t) (log : list ramp_event) : Prop := {
  inv_shape : length (next_pair r) = 4%nat;
  inv_effect : effect log (acks log) (samples log);
  inv_wire : Forall (fun p => fst p ∈ bzm_asic_wire_ids) (acks log);
  inv_asic : forall index asic, bzm_asic_wire_ids !! index = Some asic -> asic_progress r log index asic;
  inv_counts : failed r = false ->
    completed_pairs r = total (next_pair r) /\ completed_engines r = 2 * total (next_pair r);
}.

Lemma on_asic_app {A} asic (l1 l2 : list (Z * A)) : on_asic asic (l1 ++ l2) = on_asic asic l1 ++ on_asic asic l2.
Proof. apply omap_app. Qed.
Lemma on_asic_pairs {A} asic asic' (l : list A) :
  on_asic asic (pair asic' <$> l) = if asic' =? asic then l else [].
Proof.
  unfold on_asic. induction l as [|x l IH]; cbn; [by destruct (_ =? _)|].
  rewrite IH. by destruct (_ =? _).
Qed.

Lemma expected_order_app k s1 s2 :
  expected_order k (s1 ++ s2) = expected_order k s1 ++ expected_order (k + Z.of_nat (length s1)) s2.
Proof.
  revert k. induction s1 as [|s s1 IH]; intros k; cbn [app expected_order length].
  - by rewrite Z.add_0_r.
  - rewrite IH, <- app_assoc. do 3 f_equal. lia.
Qed.

Lemma effect_extend log evs a s :
  effect log (acks log) (samples log) -> effect evs a s ->
  acks (log ++ evs) = acks log ++ a /\ samples (log ++ evs) = samples log ++ s /\
  effect (log ++ evs) (acks (log ++ evs)) (samples (log ++ evs)).
Proof.
  intros H1 H2. pose proof (effect_app _ _ _ _ _ _ H1 H2) as [A S G P].
  split; [done|]. split; [done|]. split; [done|done|exact G|]. by rewrite A.
Qed.

(** A failure keeps the invariant. *)
Lemma ramp_inv_fails r r' log evs a s :
  ramp_inv r log -> fails r r' -> effect evs a s -> Forall (fun p => fst p ∈ bzm_asic_wire_ids) a ->
  (forall index asic, bzm_asic_wire_ids !! index = Some asic ->
     on_asic asic (acks log ++ a) `prefix_of` expected_order 0 (on_asic asic (samples log ++ s))) ->
  ramp_inv r' (log ++ evs).
Proof.
  intros [I1 I2 I3 I4 _] [F1 F2] He Hw Hp.
  destruct (effect_extend log evs a s I2 He) as (Ea & Es & Hex).
  split; [congruence|done|by rewrite Ea; apply Forall_app| |congruence].
  intros index asic Hi. unfold asic_progress. rewrite F1, F2, Ea, Es.
  split; [apply (proj1 (I4 index asic Hi))|]. split; [by apply (Hp index)|done].
Qed.

Lemma ramp_inv_idle r r' log evs :
  ramp_inv r log -> effect evs [] [] -> next_pair r' = next_pair r ->
  (failed r' = true \/ failed r' = failed r /\ completed_pairs r' = completed_pairs r /\
   completed_engines r' = completed_engines r) ->
  ramp_inv r' (log ++ evs).
Proof.
  intros [I1 I2 I3 I4 I5] He Hn Hf.
  destruct (effect_extend log evs [] [] I2 He) as (Ea & Es & Hex). rewrite !app_nil_r in *.
  split; rewrite ?Hn; [done|done|by rewrite Ea| |].
  - intros index asic Hi. specialize (I4 index asic Hi). unfold asic_progress in *. rewrite Hn, Ea, Es.
    destruct I4 as (H1 & H2 & H3). split; [done|]. split; [done|]. destruct Hf as [->|[-> _]]; [done|exact H3].
  - destruct Hf as [->|(-> & -> & ->)]; [done|exact I5].
Qed.

Lemma wire_index asic index :
  bzm_topology_asic_index asic = Some index <-> bzm_asic_wire_ids !! index = Some asic.
Proof.
  split.
  - intros [_ H]%asic_index_scan_spec. by rewrite Nat.sub_0_r in H.
  - intros H. destruct index as [|[|[|[|index]]]]; cbn in H; try (injection H as <-; reflexivity). done.
Qed.

(** The argument test lets exactly the next pair of the topology through. *)
Lemma valid_argument r index i p :
  bzm_topology_balanced_pair_at i = Some p -> pair_argument_valid r index p = true ->
  nth index (next_pair r) 0 = i /\ i < 118.
Proof.
  unfold pair_argument_valid, bzm_topology_balanced_pair_at.
  destruct (Z.leb_spec BZM_TOPOLOGY_PAIR_COUNT i) as [|Hi]; [done|].
  repeat case_match; try done. intros [= <-]. cbn [pair_index]. intros Hv. prop_bool.
  unfold BZM_TOPOLOGY_PAIR_COUNT in Hi.
  match goal with E : (nth _ _ _ =? _) = true |- _ => by apply Z.eqb_eq in E end.
Qed.

Lemma total_insert l index : (index < length l)%nat ->
  total (<[index := nth index l 0 + 1]> l) = total l + 1.
Proof.
  unfold total. revert index. induction l as [|x l IH]; intros [|index] H; cbn in *; try lia.
  rewrite IH by lia. lia.
Qed.

Lemma total_bound l : Forall (fun n => 0 <= n <= 118) l -> 0 <= total l <= 118 * Z.of_nat (length l).
Proof. unfold total. induction 1; cbn [foldr length]; lia. Qed.

Lemma inv_next r log : ramp_inv r log -> Forall (fun n => 0 <= n <= 118) (next_pair r).
Proof.
  intros [I1 _ _ I4 _]. apply Forall_lookup. intros i n Hn.
  destruct (lookup_lt_is_Some_2 bzm_asic_wire_ids i) as [asic Ha].
  { apply lookup_lt_Some in Hn. cbn. lia. }
  destruct (I4 i asic Ha) as [H _]. by rewrite (nth_lookup_Some _ _ _ _ Hn) in H.
Qed.

(** A sample of an ASIC extends the expected order by its next pair. *)
Lemma order_extended r log index asic p s :
  ramp_inv r log -> failed r = false -> bzm_asic_wire_ids !! index = Some asic ->
  bzm_topology_balanced_pair_at (nth index (next_pair r) 0) = Some p ->
  expected_order 0 (on_asic asic (samples log) ++ [s]) = on_asic asic (acks log) ++ pair_order p s.
Proof.
  intros HI Hf Hi Hp. destruct (inv_asic _ _ HI index asic Hi) as (_ & _ & H). destruct (H Hf) as [Hl Ha].
  rewrite expected_order_app, <- Ha. cbn [expected_order]. rewrite Z.add_0_l, Hl, Hp. by rewrite app_nil_r.
Qed.

Lemma ramp_inv_commit_failed r r' log evs index asic p s l :
  ramp_inv r log -> failed r = false -> fails r r' -> bzm_asic_wire_ids !! index = Some asic ->
  bzm_topology_balanced_pair_at (nth index (next_pair r) 0) = Some p ->
  effect evs (pair asic <$> l) [(asic, s)] -> l `prefix_of` pair_order p s ->
  ramp_inv r' (log ++ evs).
Proof.
  intros HI Hf HF Hi Hp He Hl. apply (ramp_inv_fails r r' log evs _ _ HI HF He).
  - apply Forall_fmap, Forall_true. intros e. cbn. by apply list_elem_of_lookup_2 in Hi.
  - intros j asic' Hj. rewrite !on_asic_app, on_asic_pairs. change [(asic, s)] with (pair asic <$> [s]).
    rewrite on_asic_pairs. destruct (Z.eqb_spec asic asic') as [<-|Hne].
    + rewrite (order_extended r log index asic p s) by done. by apply prefix_app.
    + rewrite !app_nil_r. apply (inv_asic _ _ HI j asic' Hj).
Qed.

Lemma ramp_inv_commit r r' log evs index asic p s :
  ramp_inv r log -> failed r = false -> bzm_asic_wire_ids !! index = Some asic ->
  bzm_topology_balanced_pair_at (nth index (next_pair r) 0) = Some p -> nth index (next_pair r) 0 < 118 ->
  effect evs (pair asic <$> pair_order p s) [(asic, s)] ->
  next_pair r' = <[index := u16 (nth index (next_pair r) 0 + 1)]> (next_pair r) ->
  completed_pairs r' = u16 (completed_pairs r + 1) ->
  completed_engines r' = u16 (u16 (completed_engines r + 1) + 1) -> failed r' = failed r ->
  ramp_inv r' (log ++ evs).
Proof.
  intros HI Hf Hi Hp Hlt He Hn Hc1 Hc2 Hf'. pose proof (inv_next r log HI) as Hnext.
  destruct (effect_extend log evs _ _ (inv_effect _ _ HI) He) as (Ea & Es & Hex).
  destruct (inv_asic _ _ HI index asic Hi) as (Hrange & _).
  assert (Hlen : (index < length (next_pair r))%nat)
    by (rewrite (inv_shape _ _ HI); by apply lookup_lt_Some in Hi).
  rewrite u16_small in Hn by (unfold in_width; lia).
  split.
  - rewrite Hn, length_insert. apply HI.
  - done.
  - rewrite Ea. apply Forall_app. split; [apply HI|]. apply Forall_fmap, Forall_true.
    intros e. cbn. by apply list_elem_of_lookup_2 in Hi.
  - intros j asic' Hj. unfold asic_progress. rewrite Hf', Hf, Ea, Es, !on_asic_app, on_asic_pairs, Hn.
    change [(asic, s)] with (pair asic <$> [s]). rewrite on_asic_pairs.
    destruct (Z.eqb_spec asic asic') as [<-|Hne].
    + assert (j = index) as ->. { apply wire_index in Hi, Hj. congruence. }
      rewrite (nth_lookup_Some _ _ _ (nth index (next_pair r) 0 + 1)) by (by apply list_lookup_insert_eq).
      destruct (inv_asic _ _ HI index asic Hi) as (_ & _ & Ho). destruct (Ho Hf) as [Hl _].
      split; [lia|]. rewrite (order_extended r log index asic p s) by done. split; [done|].
      intros _. split; [|done]. rewrite length_app. cbn. lia.
    + rewrite !app_nil_r. destruct (decide (j = index)) as [->|Hij]; [congruence|].
      pose proof (inv_asic _ _ HI j asic' Hj) as (H1 & H2 & H3). specialize (H3 Hf).
      assert (nth j (<[index:=nth index (next_pair r) 0 + 1]> (next_pair r)) 0 = nth j (next_pair r) 0) as ->.
      { rewrite !nth_lookup. by rewrite list_lookup_insert_ne. }
      split; [done|]. split; [done|]. intros _. exact H3.
  - intros _. destruct (inv_counts _ _ HI Hf) as [C1 C2].
    pose proof (total_bound _ Hnext) as Hb. rewrite (inv_shape _ _ HI) in Hb.
    rewrite Hc1, Hc2, C1, C2, Hn, total_insert by done. unfold u16, wrap. split; [|].
    + rewrite Z.mod_small; lia.
    + rewrite (Z.mod_small (2 * _ + 1)) by lia. rewrite Z.mod_small; lia.
Qed.

Section properties.
Context {W : Type} (ops : bzm_balanced_ramp_ops_t W).

Lemma ramp_inv_perform c r w log ok r' w' log' :
  ramp_inv r log -> ramp_perform ops c r (w, log) = ((ok, r'), (w', log')) -> ramp_inv r' log'.
Proof.
  intros HI. destruct c as [asic i|current|n k]; cbn [ramp_perform].
  - destruct (failed r) eqn:Hf.
    { unfold bzm_balanced_ramp_commit_pair. rewrite Hf. intros [= _ <- _ <-]. done. }
    destruct (commit_pair_emits ops r asic (bzm_topology_balanced_pair_at i) Hf w log)
      as ([ok1 r1] & w1 & evs & -> & H). intros [= -> -> -> <-].
    destruct H as [(-> & HF & He)|(index & p & Hp & Hi%wire_index & Ha & H)].
    { destruct HF. by apply (ramp_inv_idle r); [..|left]. }
    destruct (valid_argument _ _ _ _ Hp Ha) as [Hn Hlt]. rewrite <- Hn in Hp, Hlt. destruct ok.
    + destruct H as (s & He & N & C1 & C2 & F).
      by apply (ramp_inv_commit r r' log evs index asic p s).
    + destruct H as [HF [He|(s & l & He & Hl)]].
      * destruct HF. by apply (ramp_inv_idle r); [..|left].
      * by apply (ramp_inv_commit_failed r r' log evs index asic p s l).
  - unfold io_ret, bzm_balanced_ramp_accept_transition_discards. cbn zeta.
    destruct (_ || _); intros [= _ <- _ <-]; [done|]. rewrite <- (app_nil_r log).
    apply (ramp_inv_idle r); [done|apply effect_nil|done|by right].
  - destruct (barrier_emits ops r n k w log) as ([ok1 r1] & w1 & evs & -> & He & _ & H).
    intros [= -> -> -> <-]. destruct ok.
    + destruct H as (-> & _). apply (ramp_inv_idle r); [done|done|done|by right].
    + destruct H. by apply (ramp_inv_idle r); [..|left].
Qed.

Lemma ramp_inv_init : ramp_inv bzm_balanced_ramp_init [].
Proof.
  split; try done.
  intros index asic Hi. unfold asic_progress.
  assert (nth index (next_pair bzm_balanced_ramp_init) 0 = 0) as -> by (by destruct index as [|[|[|[|[]]]]]).
  split; [lia|]. by split.
Qed.

Lemma ramp_invariant r w log : ramp_reachable ops (r, (w, log)) -> ramp_inv r log.
Proof.
  intros H. change (ramp_inv (fst (r, (w, log))) (snd (snd (r, (w, log))))).
  apply (reachable_invariant _ _ (fun s => ramp_inv (fst s) (snd (snd s)))) in H; [done|..].
  - intros s (w0 & ->). apply ramp_inv_init.
  - intros s s' HI Hs. destruct Hs as [c r0 [w0 log0] ok r1 [w1 log1] E]. cbn in *.
    by eapply ramp_inv_perform.
Qed.
End properties.

(** The stack an engine is on, and how far the stacks of a set differ. *)
Definition on_stack (st : bzm_engine_stack_t) (engine : Z) : bool :=
  match bzm_topology_from_physical_id engine with Some e => bool_decide (stack e = st) | None => false end.
Definition imbalance (engines : list Z) : Z :=
  Z.of_nat (length (List.filter (on_stack BZM_ENGINE_STACK_BOTTOM) engines)) -
  Z.of_nat (length (List.filter (on_stack BZM_ENGINE_STACK_TOP) engines)).

(** The pairs of the topology, checked one by one. *)
Definition pair_checked (i : Z) : bool :=
  match bzm_topology_balanced_pair_at i with
  | Some p =>
      on_stack BZM_ENGINE_STACK_BOTTOM (physical_id (bottom p)) &&
      negb (on_stack BZM_ENGINE_STACK_TOP (physical_id (bottom p))) &&
      on_stack BZM_ENGINE_STACK_TOP (physical_id (top p)) &&
      negb (on_stack BZM_ENGINE_STACK_BOTTOM (physical_id (top p))) &&
      pair_argument_valid (bzm_balanced_ramp_init <| next_pair := [i] |>) 0 p &&
      (physical_id (bottom p) <? BZM_MAX_ENGINE_COUNT) && (physical_id (top p) <? BZM_MAX_ENGINE_COUNT) &&
      (0 <=? topology_index (bottom p)) && (topology_index (bottom p) <? 236) &&
      bool_decide (bzm_topology_engine_at (topology_index (bottom p)) = Some (bottom p)) &&
      (0 <=? topology_index (top p)) && (topology_index (top p) <? 236) &&
      bool_decide (bzm_topology_engine_at (topology_index (top p)) = Some (top p)) &&
      bool_decide (bzm_topology_activation_at (2 * i) BZM_ENGINE_STACK_BOTTOM = Some (bottom p)) &&
      bool_decide (bzm_topology_activation_at (2 * i + 1) BZM_ENGINE_STACK_BOTTOM = Some (top p))
  | None => false
  end.

Lemma pairs_checked : forall_below 118 pair_checked = true.
Proof. by vm_compute. Qed.

(** Every engine is a member of its pair. *)
Definition engine_paired (i : Z) : bool :=
  match bzm_topology_engine_at i with
  | Some e =>
      (0 <=? stack_index e) && (stack_index e <? 118) &&
      match bzm_topology_balanced_pair_at (stack_index e) with
      | Some p => (physical_id e =? physical_id (bottom p)) || (physical_id e =? physical_id (top p))
      | None => false
      end
  | None => false
  end.

Lemma engines_paired : forall_below 236 engine_paired = true.
Proof. by vm_compute. Qed.

Lemma pair_at i :
  0 <= i < 118 -> exists p, bzm_topology_balanced_pair_at i = Some p /\ pair_checked i = true.
Proof.
  intros Hi. pose proof (forall_below_spec _ _ pairs_checked i Hi) as H. pose proof H as Hc.
  unfold pair_checked in H. destruct (bzm_topology_balanced_pair_at i) as [p|]; [by exists p|done].
Qed.

Lemma imbalance_app l1 l2 : imbalance (l1 ++ l2) = imbalance l1 + imbalance l2.
Proof. unfold imbalance. rewrite !List.filter_app, !length_app. lia. Qed.

Lemma pair_order_balance i p s :
  0 <= i -> bzm_topology_balanced_pair_at i = Some p ->
  exists x y, pair_order p s = [x; y] /\ Z.abs (imbalance [x]) = 1 /\ imbalance [x; y] = 0.
Proof.
  intros Hi Hp. assert (i < 118).
  { unfold bzm_topology_balanced_pair_at in Hp.
    destruct (BZM_TOPOLOGY_PAIR_COUNT <=? i) eqn:E; [done|]. by apply Z.leb_gt in E. }
  destruct (pair_at i) as (q & Hq & Hc); [lia|]. unfold pair_checked in Hc. rewrite Hp in Hc. prop_bool.
  unfold pair_order, imbalance. destruct (fle _ _); eexists _, _; (split; [reflexivity|]);
    cbn [List.filter]; repeat match goal with H : on_stack _ _ = _ |- _ => rewrite H end; by cbn.
Qed.

(** Every prefix of an expected order keeps the stacks within one engine. *)
Lemma expected_order_balanced k ss l :
  0 <= k -> l `prefix_of` expected_order k ss -> -1 <= imbalance l <= 1.
Proof.
  intros Hk. revert k l Hk. induction ss as [|s ss IH]; intros k l Hk Hl; cbn [expected_order] in Hl.
  { apply prefix_nil_inv in Hl as ->. by vm_compute. }
  destruct (bzm_topology_balanced_pair_at k) as [p|] eqn:Hp; [|by eapply IH; [|exact Hl]; lia].
  destruct (pair_order_balance k p s Hk Hp) as (x & y & Ho & Hx & Hxy). rewrite Ho in Hl. cbn [app] in Hl.
  destruct l as [|a [|b l]]; [by vm_compute| |].
  - apply prefix_cons_inv_1 in Hl as ->. lia.
  - pose proof (prefix_cons_inv_1 _ _ _ _ Hl) as ->. apply prefix_cons_inv_2 in Hl.
    pose proof (prefix_cons_inv_1 _ _ _ _ Hl) as ->. apply prefix_cons_inv_2 in Hl.
    change (x :: y :: l) with ([x; y] ++ l). rewrite imbalance_app, Hxy.
    assert (0 <= k + 1) as Hk' by lia. specialize (IH (k + 1) l Hk' Hl). lia.
Qed.

Lemma on_asic_none {A} asic (l : list (Z * A)) :
  Forall (fun p => fst p ∈ bzm_asic_wire_ids) l -> asic ∉ bzm_asic_wire_ids -> on_asic asic l = [].
Proof.
  intros Hl Ha. unfold on_asic. induction Hl as [|[a x] l Hx Hl IH]; cbn; [done|].
  destruct (Z.eqb_spec a asic) as [->|]; [done|exact IH].
Qed.

Definition member (engine i : Z) : Prop :=
  exists p, bzm_topology_balanced_pair_at i = Some p /\ (engine = physical_id (bottom p) \/ engine = physical_id (top p)).

Lemma member_of_order p s engine :
  engine ∈ pair_order p s <-> engine = physical_id (bottom p) \/ engine = physical_id (top p).
Proof. unfold pair_order. destruct (fle _ _); rewrite !elem_of_cons, elem_of_nil; tauto. Qed.

(** A member has a place of its own in the activation order. *)
Lemma member_activation engine i : 0 <= i < 118 -> member engine i ->
  exists j e, (j = 2 * i \/ j = 2 * i + 1) /\ bzm_topology_activation_at j BZM_ENGINE_STACK_BOTTOM = Some e /\
    physical_id e = engine /\ 0 <= topology_index e < 236 /\ bzm_topology_engine_at (topology_index e) = Some e.
Proof.
  intros Hi (p & Hp & Hm). destruct (pair_at i Hi) as (q & _ & Hc). unfold pair_checked in Hc. rewrite Hp in Hc.
  prop_bool. repeat match goal with
  | H : (_ <=? _) = true |- _ => apply Z.leb_le in H
  | H : (_ <? _) = true |- _ => apply Z.ltb_lt in H
  end.
  destruct Hm as [->| ->]; [exists (2 * i), (bottom p)|exists (2 * i + 1), (top p)]; split_and!; auto with lia.
Qed.

Lemma member_inj engine i j :
  0 <= i < 118 -> 0 <= j < 118 -> member engine i -> member engine j -> i = j.
Proof.
  intros Hi Hj Hmi Hmj. destruct (member_activation engine i Hi Hmi) as (a & e & Ha & Ea & Pa & _).
  destruct (member_activation engine j Hj Hmj) as (b & e' & Hb & Eb & Pb & _).
  destruct (activation_physical_inj BZM_ENGINE_STACK_BOTTOM a b e e'); [lia|lia|done|done|congruence|lia].
Qed.

Lemma expected_order_members k ss engine :
  0 <= k -> k + Z.of_nat (length ss) <= 118 ->
  engine ∈ expected_order k ss <-> exists i, k <= i < k + Z.of_nat (length ss) /\ member engine i.
Proof.
  revert k. induction ss as [|s ss IH]; intros k Hk Hl; cbn [expected_order length] in *.
  { split; [by intros ?%elem_of_nil|]. intros (i & ? & _). lia. }
  destruct (pair_at k) as (p & Hp & _); [lia|]. rewrite Hp, elem_of_app, member_of_order, IH by lia. split.
  - intros [Hm|(i & Hi & Hm)]; [exists k|exists i]; (split; [lia|]); [by exists p|done].
  - intros (i & Hi & Hm). destruct (decide (i = k)) as [->|].
    + left. destruct Hm as (q & Hq & Hm). congruence.
    + right. exists i. split; [lia|done].
Qed.

Lemma expected_order_nodup k ss :
  0 <= k -> k + Z.of_nat (length ss) <= 118 -> NoDup (expected_order k ss).
Proof.
  revert k. induction ss as [|s ss IH]; intros k Hk Hl; cbn [expected_order length] in *; [constructor|].
  destruct (pair_at k) as (p & Hp & _); [lia|]. rewrite Hp. apply NoDup_app. split_and!; [|intros e He|apply IH; lia].
  - destruct (pair_order_balance k p s Hk Hp) as (x & y & -> & Hx & Hxy). apply NoDup_cons. split; [|apply NoDup_singleton].
    intros <-%list_elem_of_singleton. change [x; x] with ([x] ++ [x]) in Hxy. rewrite imbalance_app in Hxy. lia.
  - rewrite member_of_order in He. rewrite expected_order_members by lia. intros (i & Hi & Hm).
    assert (k = i); [|lia]. eapply member_inj; [lia|lia| |exact Hm]. by exists p.
Qed.

Lemma elem_of_on_asic {A} asic (x : A) (l : list (Z * A)) : x ∈ on_asic asic l <-> (asic, x) ∈ l.
Proof.
  unfold on_asic. rewrite list_elem_of_omap. split.
  - intros ([a y] & Hin & H). cbn in H. destruct (Z.eqb_spec a asic); naive_solver.
  - intros H. exists (asic, x). cbn. by rewrite Z.eqb_refl.
Qed.

Lemma nodup_by_asic {A} (l : list (Z * A)) : (forall asic, NoDup (on_asic asic l)) -> NoDup l.
Proof.
  induction l as [|[a x] l IH]; intros H; [constructor|]. apply NoDup_cons. split.
  - specialize (H a). unfold on_asic in H. cbn in H. rewrite Z.eqb_refl in H. apply NoDup_cons in H as [H _].
    by rewrite <- elem_of_on_asic.
  - apply IH. intros asic. specialize (H asic). unfold on_asic in H. cbn in H. destruct (a =? asic); [|done].
    by apply NoDup_cons in H as [_ H].
Qed.

(** With all pairs committed, an ASIC has acknowledged each engine of the topology. *)
Lemma all_members ss engine :
  Z.of_nat (length ss) = 118 ->
  engine ∈ expected_order 0 ss <->
  exists i e, 0 <= i < 236 /\ bzm_topology_engine_at i = Some e /\ physical_id e = engine.
Proof.
  intros Hl. rewrite expected_order_members, Hl by lia. split.
  - intros (i & Hi & Hm). destruct (member_activation engine i Hi Hm) as (j & e & _ & _ & He & Hr & Ht).
    by exists (topology_index e), e.
  - intros (i & e & Hi & He & <-). pose proof (forall_below_spec _ _ engines_paired i Hi) as Hp.
    unfold engine_paired in Hp. rewrite He in Hp. apply andb_true_iff in Hp as [Hr Hp].
    apply andb_true_iff in Hr as [H1%Z.leb_le H2%Z.ltb_lt]. exists (stack_index e). split; [lia|].
    destruct (bzm_topology_balanced_pair_at (stack_index e)) as [p|] eqn:Ep; [|done].
    exists p. split; [done|]. apply orb_true_iff in Hp as [H|H]; apply Z.eqb_eq in H; auto.
Qed.

(** ** A healthy board *)

(** The client of the ramp: the operations in order, up to the first failure. *)
Fixpoint ramp_run {W} (ops : bzm_balanced_ramp_ops_t W) (cs : list ramp_op) (r : bzm_balanced_ramp_t)
    : io (W * list ramp_event) (bool * bzm_balanced_ramp_t) :=
  match cs with
  | [] => io_ret (true, r)
  | c :: cs =>
      let! (ok, r) := ramp_perform ops c r in
      if negb ok then io_ret (false, r) else ramp_run ops cs r
  end.

(** All pairs, each on every ASIC, and then the barrier. *)
Definition pair_commits (i : Z) : list ramp_op := (fun asic => Commit asic i) <$> bzm_asic_wire_ids.
Definition ramp_commits (count : nat) : list ramp_op := concat (pair_commits <$> seqZ 0 (Z.of_nat count)).
Definition ramp_script : list ramp_op :=
  ramp_commits 118 ++ [Barrier BZM_MAX_ASIC_COUNT BZM_TOPOLOGY_PAIR_COUNT].

Section healthy.
Context {W : Type} (ops : bzm_balanced_ramp_ops_t W) (stats : bzm_serial_parser_stats_t).

Record healthy : Prop := {
  healthy_begin : forall a e, yields (op_begin_engine ops a e) (fun ok => ok = true);
  healthy_write : forall a e offset data, yields (op_write_register ops a e offset data) (fun ok => ok = true);
  healthy_read : forall a e offset buffer, yields (op_read_register ops a e offset buffer) (fun r =>
    fst r = true /\ has_bits (byte_at (snd r) 0) BZM_BALANCED_RAMP_ENGINE_BUSY_MASK = true /\
    config_acknowledged (byte_at (snd r) 1) = true);
  healthy_sample : forall a s, yields (op_telemetry_sample ops a s) (fun r =>
    fst r = true /\ sample_usable (snd r) = true);
  healthy_stats : forall s, yields (op_parser_stats ops s) (fun r => r = (true, stats));
  healthy_queue : queued_results stats = 0%nat;
  healthy_barrier : yields (op_final_barrier ops) (fun ok => ok = true);
}.

Context (Hh : healthy).

Lemma write_all_yields asic engine writes :
  yields (write_all (addressed_write (traced_ops ops) asic) engine writes) (fun ok => ok = true).
Proof.
  induction writes as [|[offset data] writes IH]; cbn [write_all]; [by apply yields_ret|].
  eapply yields_bind; [apply yields_traced, healthy_write, Hh|]. by intros ? ->.
Qed.

Lemma activate_engine_yields r asic engine :
  physical_id engine < BZM_MAX_ENGINE_COUNT ->
  yields (activate_engine (traced_ops ops) r asic engine) (fun '(ok, r') =>
    ok = true /\ r' = r <| completed_engines := u16 (completed_engines r + 1) |>).
Proof.
  intros He. unfold activate_engine.
  eapply yields_bind; [apply yields_traced, healthy_begin, Hh|]. intros ? ->. cbn [negb].
  eapply yields_bind; [apply yields_traced, healthy_write, Hh|]. intros ? ->. cbn [negb].
  eapply (yields_bind _ _ (fun ok => ok = true)).
  { unfold bzm_transport_program_stage6_sentinel. rewrite (proj2 (Z.leb_gt _ _) He).
    eapply yields_bind; [apply write_all_yields|]. intros ? ->. apply write_all_yields. }
  intros ? ->. cbn [negb]. eapply (yields_bind _ _ (fun polled => exists buffer, polled = Some (true, buffer) /\
    config_acknowledged (byte_at buffer 1) = true)).
  { unfold BZM_BALANCED_RAMP_BUSY_POLL_ATTEMPTS. cbn [poll_busy].
    eapply yields_bind; [by apply (yields_ret tt (fun _ => True))|]. intros _ _.
    eapply yields_bind; [apply yields_traced, healthy_read, Hh|]. intros [ok buffer] (Hok & Hb & Hc). cbn [fst snd] in Hok, Hb, Hc.
    subst ok. cbn [negb]. rewrite Hb. apply yields_ret. by exists buffer. }
  intros ? (buffer & -> & Hc). cbn [negb]. rewrite Hc. cbn [negb]. by apply yields_ret.
Qed.

(** The baseline, once captured, is the one the parser still has. *)
Definition baseline_kept (r : bzm_balanced_ramp_t) : Prop := baseline_captured r = true -> ramp_baseline r = stats.

Lemma commit_yields r asic i :
  failed r = false -> baseline_kept r -> 0 <= i < 118 ->
  (exists index, bzm_asic_wire_ids !! index = Some asic /\ nth index (next_pair r) 0 = i) ->
  yields (ramp_perform ops (Commit asic i) r) (fun '(ok, r') =>
    ok = true /\ baseline_captured r' = true /\ ramp_baseline r' = stats).
Proof.
  intros Hf Hb Hi (index & Hasic & Hn). destruct (pair_at i Hi) as (p & Hp & Hc).
  unfold pair_checked in Hc. rewrite Hp in Hc. prop_bool.
  assert (Hv : pair_argument_valid r index p = true).
  { match goal with H : pair_argument_valid _ _ p = true |- _ => revert H end.
    unfold pair_argument_valid. cbn [next_pair set_field nth]. by rewrite Hn. }
  apply wire_index in Hasic. cbn [ramp_perform]. unfold bzm_balanced_ramp_commit_pair.
  rewrite Hf, Hp, Hasic, Hv. cbn [negb].
  eapply (yields_bind _ _ (fun '(ok, r1) => ok = true /\ baseline_captured r1 = true /\ ramp_baseline r1 = stats)).
  { unfold capture_baseline. destruct (baseline_captured r) eqn:E; [by apply yields_ret; auto|].
    eapply yields_bind; [apply yields_traced, healthy_stats, Hh|]. intros ? ->. rewrite (healthy_queue Hh).
    by apply yields_ret. }
  intros [ok r1] (-> & B1 & B2). cbn [negb].
  eapply (yields_bind _ _ (fun '(ok, r2) => ok = true /\ baseline_captured r2 = true /\ ramp_baseline r2 = stats)).
  { unfold prepare_asic. destruct (nth index (prepared_asic r1) false); [by apply yields_ret|].
    eapply yields_bind; [apply yields_traced, healthy_begin, Hh|]. intros ? ->. cbn [negb].
    eapply yields_bind; [apply yields_traced, healthy_write, Hh|]. intros ? ->. cbn [negb].
    eapply (yields_bind _ _ (fun _ => True)); [by intros v|]. intros _ _.
    eapply yields_bind; [apply yields_traced, healthy_write, Hh|]. intros ? ->. cbn [negb].
    eapply (yields_bind _ _ (fun _ => True)); [by intros v|]. intros _ _. by apply yields_ret. }
  intros [ok r2] (-> & B3 & B4). cbn [negb]. unfold activate_pair.
  eapply yields_bind; [apply yields_traced, healthy_sample, Hh|]. intros [ok s] [Hok Hs]. cbn [fst snd] in Hok, Hs. subst ok.
  rewrite Hs. cbn [negb orb].
  assert (Hids : forall x y, activation_pair s p = (x, y) ->
    physical_id x < BZM_MAX_ENGINE_COUNT /\ physical_id y < BZM_MAX_ENGINE_COUNT).
  { intros x y. unfold activation_pair. repeat match goal with H : (_ <? _) = true |- _ => apply Z.ltb_lt in H end.
    by destruct (fle _ _); intros [= <- <-]. }
  destruct (activation_pair s p) as [x y]. destruct (Hids x y eq_refl) as [Hx Hy].
  eapply yields_bind; [by apply activate_engine_yields|]. intros [ok r3] (-> & ->). cbn [negb].
  eapply yields_bind; [by apply activate_engine_yields|]. intros [ok r4] (-> & ->). cbn [negb].
  by apply yields_ret.
Qed.

(** A commit that went through, as a step of the system. *)
Record ramp_ready (nexts : list Z) (r : bzm_balanced_ramp_t) (w : W * list ramp_event) : Prop := {
  ready_reachable : ramp_reachable ops (r, w);
  ready_ok : failed r = false;
  ready_baseline : baseline_kept r;
  ready_next : next_pair r = nexts;
}.

Lemma ramp_step_reachable c r w ok r' w' :
  ramp_reachable ops (r, w) -> ramp_perform ops c r w = ((ok, r'), w') -> ramp_reachable ops (r', w').
Proof.
  intros (s0 & H0 & Hr) E. exists s0. split; [done|]. eapply rtc_r; [exact Hr|]. by eapply ramp_step_perform.
Qed.

Lemma commit_ready nexts r w asic index i :
  ramp_ready nexts r w -> bzm_asic_wire_ids !! index = Some asic -> nth index nexts 0 = i -> 0 <= i < 118 ->
  exists r' w', ramp_perform ops (Commit asic i) r w = ((true, r'), w') /\
    ramp_ready (<[index := i + 1]> nexts) r' w' /\ baseline_captured r' = true.
Proof.
  intros [Hr Hf Hb Hn] Hasic Hi Hlt.
  pose proof (commit_yields r asic i Hf Hb Hlt) as Hy.
  specialize (Hy (ex_intro _ index (conj Hasic (eq_trans (f_equal (fun l => nth index l 0) Hn) Hi))) w).
  destruct (ramp_perform ops (Commit asic i) r w) as [[ok r'] w'] eqn:E. cbn [fst] in Hy.
  destruct Hy as (-> & Hc & Hs). exists r', w'. split; [done|]. split; [|done].
  pose proof (ramp_step_reachable _ _ _ _ _ _ Hr E) as Hr'. destruct w as [w log], (pair_at i Hlt) as (p & Hp & _).
  cbn [ramp_perform] in E. rewrite Hp in E.
  destruct (commit_pair_emits ops r asic (Some p) Hf w log) as ([ok1 r1] & w1 & evs & E' & H).
  rewrite E' in E. injection E as -> -> <-.
  destruct H as [(? & _)|(index' & q & [= <-] & Hi'%wire_index & Ha & H)]; [done|].
  assert (index' = index) as -> by (apply wire_index in Hasic, Hi'; congruence).
  destruct H as (s & _ & N & _ & _ & F). split; [done|congruence|by intros _|].
  rewrite N, Hn, Hi, u16_small; [done|]. unfold in_width. lia.
Qed.

Lemma ramp_run_app cs1 cs2 r w r1 w1 :
  ramp_run ops cs1 r w = ((true, r1), w1) -> ramp_run ops (cs1 ++ cs2) r w = ramp_run ops cs2 r1 w1.
Proof.
  revert r w. induction cs1 as [|c cs1 IH]; intros r w; cbn [ramp_run app]; [by intros [= -> ->]|].
  unfold io_bind. destruct (ramp_perform ops c r w) as [[[] r2] w2]; cbn [negb]; [apply IH|done].
Qed.

(** One pair on all four ASICs. *)
Lemma pair_commits_ready i r w :
  0 <= i < 118 -> ramp_ready (replicate 4 i) r w ->
  exists r' w', ramp_run ops (pair_commits i) r w = ((true, r'), w') /\ ramp_ready (replicate 4 (i + 1)) r' w' /\
    baseline_captured r' = true.
Proof.
  intros Hi R0. unfold pair_commits. cbn [fmap list_fmap bzm_asic_wire_ids ramp_run].
  destruct (commit_ready _ _ _ 0x0a 0%nat i R0) as (r1 & w1 & E1 & R1 & _); [done..|].
  destruct (commit_ready _ _ _ 0x14 1%nat i R1) as (r2 & w2 & E2 & R2 & _); [done..|].
  destruct (commit_ready _ _ _ 0x1e 2%nat i R2) as (r3 & w3 & E3 & R3 & _); [done..|].
  destruct (commit_ready _ _ _ 0x28 3%nat i R3) as (r4 & w4 & E4 & R4 & Hc); [done..|].
  exists r4, w4. unfold io_bind. rewrite E1. cbn [negb]. rewrite E2. cbn [negb]. rewrite E3. cbn [negb].
  rewrite E4. by split_and!.
Qed.

Lemma ramp_commits_ready count w :
  (count <= 118)%nat ->
  exists r w', ramp_run ops (ramp_commits count) bzm_balanced_ramp_init (w, []) = ((true, r), w') /\
    ramp_ready (replicate 4 (Z.of_nat count)) r w' /\ (count <> 0%nat -> baseline_captured r = true).
Proof.
  induction count as [|count IH]; intros Hle.
  - exists bzm_balanced_ramp_init, (w, []). split; [done|]. split; [|done]. split; try done.
    exists (bzm_balanced_ramp_init, (w, [])). split; [by exists w|done].
  - destruct IH as (r & w1 & E & R & _); [lia|].
    destruct (pair_commits_ready (Z.of_nat count) r w1) as (r2 & w2 & E2 & R2 & Hc); [lia|done|].
    exists r2, w2. replace (Z.of_nat (S count)) with (Z.of_nat count + 1) by lia. split_and!; try done.
    unfold ramp_commits. rewrite seqZ_S, fmap_app, concat_app.
    rewrite (ramp_run_app _ _ _ _ r w1) by exact E. cbn [fmap list_fmap concat]. by rewrite app_nil_r.
Qed.

(** The barrier of a board whose commits all went through. *)
Lemma barrier_ready r w :
  ramp_ready (replicate 4 118) r w -> baseline_captured r = true ->
  exists w', ramp_perform ops (Barrier BZM_MAX_ASIC_COUNT BZM_TOPOLOGY_PAIR_COUNT) r w = ((true, r), w').
Proof.
  intros [Hr Hf Hb Hn] Hc. destruct w as [w log]. pose proof (ramp_invariant ops r w log Hr) as HI.
  destruct (inv_counts _ _ HI Hf) as [C1 C2]. rewrite Hn in C1, C2.
  assert (Hy : yields (ramp_perform ops (Barrier BZM_MAX_ASIC_COUNT BZM_TOPOLOGY_PAIR_COUNT) r)
    (fun a => a = (true, r))).
  { cbn [ramp_perform]. unfold bzm_balanced_ramp_barrier. rewrite Hf, Hc, C1, C2. cbn [orb negb].
    destruct (_ || _) eqn:Ev; [by vm_compute in Ev|clear Ev]. rewrite (proj2 (incomplete_asic_none r _)).
    2: { apply Forall_forall. intros i Hi%elem_of_seq. rewrite Hn. change (Z.to_nat BZM_MAX_ASIC_COUNT) with 4%nat in Hi.
         destruct i as [|[|[|[|i]]]]; [done..|lia]. }
    eapply yields_bind; [apply yields_traced, healthy_barrier, Hh|]. intros ? ->. cbn [negb].
    eapply yields_bind; [apply yields_traced, healthy_stats, Hh|]. intros ? ->. cbn [negb orb].
    rewrite (Hb Hc). unfold parser_is_clean_relative_to. rewrite !Z.eqb_refl, (healthy_queue Hh).
    by apply yields_ret. }
  specialize (Hy (w, log)). destruct (ramp_perform ops _ r (w, log)) as [a w'] eqn:E. cbn [fst] in Hy. subst a.
  by exists w'.
Qed.
End healthy.

Section theorems.
Context {W : Type} (ops : bzm_balanced_ramp_ops_t W).

(** C23: The activation of an ASIC follows its telemetry and stays balanced: in
    every reachable state its acknowledged engines are a prefix of the order its
    samples ask for - pair after pair, in each pair the engine on the stack of the
    higher voltage first - and after every single event the active engines of the
    two stacks differ by at most one. *)
Theorem ramp_follows_voltages r w log asic :
  ramp_reachable ops (r, (w, log)) ->
  on_asic asic (acks log) `prefix_of` expected_order 0 (on_asic asic (samples log)) /\
  forall n, -1 <= imbalance (on_asic asic (acks (take n log))) <= 1.
Proof.
  intros HI%ramp_invariant.
  assert (Hp : on_asic asic (acks log) `prefix_of` expected_order 0 (on_asic asic (samples log))).
  { destruct (decide (asic ∈ bzm_asic_wire_ids)) as [[i Hi]%list_elem_of_lookup|Hn].
    - apply (inv_asic _ _ HI i asic Hi).
    - rewrite on_asic_none; [apply prefix_nil|apply HI|done]. }
  split; [done|]. intros n. apply (expected_order_balanced 0 (on_asic asic (samples log))); [lia|].
  etrans; [|exact Hp]. rewrite <- (take_drop n log) at 2.
  unfold acks, on_asic. rewrite !omap_app. by eexists.
Qed.

(** No register of an engine is touched without authorisation, and a failure is
    final: in every reachable state each register access of the log addresses the
    engine the latest successful authorisation was for, and once the ramp has
    failed, no operation accesses the hardware any more, the barrier and every
    commit are refused, and the ramp stays failed. *)
Theorem ramp_accesses_authorized r w log :
  ramp_reachable ops (r, (w, log)) ->
  (forall l1 e l2 p, log = l1 ++ e :: l2 -> access e = Some p -> granted l1 = Some p) /\
  (failed r = true -> forall c,
     exists ok r', ramp_perform ops c r (w, log) = ((ok, r'), (w, log)) /\ failed r' = true /\
       match c with Accept _ => True | _ => ok = false end).
Proof.
  intros HI%ramp_invariant. split.
  - apply (authorized_from_split None), HI.
  - intros Hf [asic i|current|n k]; cbn [ramp_perform].
    + unfold bzm_balanced_ramp_commit_pair. rewrite Hf. by eexists _, _.
    + unfold bzm_balanced_ramp_accept_transition_discards, io_ret. cbn zeta.
      destruct (_ || _); by eexists _, _.
    + unfold bzm_balanced_ramp_barrier. cbn zeta. rewrite Hf. cbn [orb]. by eexists _, _.
Qed.

(** C22: The barrier opens only on a board that is completely active: from a
    reachable state it returns true only for the full board, and then every engine
    of the topology on every ASIC - and nothing else - has acknowledged, exactly
    once, and the log holds, one right after the other, its authorisation, its complete
    program of configuration, sentinel work and dispatch, polls of it, and that
    acknowledgement; the final barrier passed, and no parser counter it
    watches has moved since the accepted baseline. *)
Theorem ramp_barrier_all_active r w log n k r' w' log' :
  ramp_reachable ops (r, (w, log)) ->
  ramp_perform ops (Barrier n k) r (w, log) = ((true, r'), (w', log')) ->
  n = BZM_MAX_ASIC_COUNT /\ k = BZM_TOPOLOGY_PAIR_COUNT /\
  (exists s, log' = log ++ [EvBarrier true; EvStats s true] /\
     parser_is_clean_relative_to (ramp_baseline r) s = true) /\
  NoDup (acks log) /\ Forall (programmed log) (acks log) /\
  forall asic engine, (asic, engine) ∈ acks log <->
    asic ∈ bzm_asic_wire_ids /\
    exists i e, 0 <= i < 236 /\ bzm_topology_engine_at i = Some e /\ physical_id e = engine.
Proof.
  intros HI%ramp_invariant. cbn [ramp_perform].
  destruct (barrier_emits ops r n k w log) as ([ok1 r1] & w1 & evs & -> & He & _ & H). intros [= -> -> -> <-].
  destruct H as (-> & Hf & -> & -> & Hall & s & -> & Hs).
  assert (Hasic : forall i asic, bzm_asic_wire_ids !! i = Some asic ->
    Z.of_nat (length (on_asic asic (samples log))) = 118 /\
    on_asic asic (acks log) = expected_order 0 (on_asic asic (samples log))).
  { intros i asic Hi. destruct (inv_asic _ _ HI i asic Hi) as (_ & _ & H). destruct (H Hf) as [H1 H2].
    rewrite Hall in H1; [done|]. apply lookup_lt_Some in Hi. exact Hi. }
  split; [done|]. split; [done|]. split; [by exists s|]. split_and!; [|apply (inv_effect _ _ HI)|].
  - apply nodup_by_asic. intros asic.
    destruct (decide (asic ∈ bzm_asic_wire_ids)) as [[i Hi]%list_elem_of_lookup|Hn].
    + destruct (Hasic i asic Hi) as [H1 ->]. apply expected_order_nodup; lia.
    + rewrite on_asic_none; [constructor|apply HI|done].
  - intros asic engine. rewrite <- elem_of_on_asic. split.
    + intros Hin. assert (Hw : asic ∈ bzm_asic_wire_ids).
      { apply elem_of_on_asic in Hin. pose proof (inv_wire _ _ HI) as Hw. rewrite Forall_forall in Hw. apply (Hw _ Hin). }
      split; [done|]. apply list_elem_of_lookup in Hw as [i Hi]. destruct (Hasic i asic Hi) as [H1 H2].
      rewrite H2 in Hin. by apply all_members in Hin.
    + intros [[i Hi]%list_elem_of_lookup He']. destruct (Hasic i asic Hi) as [H1 ->]. by apply all_members.
Qed.

(** C24: A healthy board always completes its ramp: if every authorisation, write and
    barrier succeeds, every status read finds the engine busy and configured, every
    sample is usable and the parser counters stand still, then committing all pairs
    on all ASICs and closing with the barrier succeeds, with all 944 engines counted. *)
Theorem ramp_completes stats w :
  healthy ops stats ->
  exists r w', ramp_run ops ramp_script bzm_balanced_ramp_init (w, []) = ((true, r), w') /\
    failed r = false /\ completed_engines r = 944 /\
    bzm_balanced_ramp_get_parser_baseline r = Some stats.
Proof.
  intros Hh. destruct (ramp_commits_ready ops stats Hh 118 w) as (r & [w1 log1] & E & R & Hc); [lia|].
  specialize (Hc ltac:(done)). destruct (barrier_ready ops stats Hh r (w1, log1) R Hc) as (w2 & E2).
  destruct R as [Hr Hf Hb Hn]. exists r, w2. unfold ramp_script. rewrite (ramp_run_app ops _ _ _ _ _ _ E).
  cbn [ramp_run]. unfold io_bind. rewrite E2. split; [done|]. split; [done|]. split.
  - pose proof (ramp_invariant ops r w1 log1 Hr) as HI. destruct (inv_counts _ _ HI Hf) as [_ ->]. by rewrite Hn.
  - unfold bzm_balanced_ramp_get_parser_baseline. by rewrite Hc, Hf, (Hb Hc), (healthy_queue _ _ Hh).
Qed.
End theorems.

(** ** Examples *)

Module Demo.
(** A board that grants the first [limit] authorisations. *)
Definition board (limit : option nat) : bzm_balanced_ramp_ops_t nat :=
  {| op_begin_engine := fun _ _ n => (match limit with Some l => (n <? l)%nat | None => true end, S n);
     op_write_register := fun _ _ _ _ => io_ret true;
     op_read_register := fun _ _ _ _ => io_ret (true, [1; 0x14; 0; 0]);
     op_delay_ms := fun _ => io_ret tt;
     op_telemetry_sample := fun _ _ => io_ret (true, sample_at (Telemetry.Demo.store 100 0x82) 0);
     op_parser_stats := fun _ => io_ret (true, zero_parser_stats);
     op_final_barrier := io_ret true |}.

Lemma board_healthy : healthy (board None) zero_parser_stats.
Proof. split; unfold yields; intros; cbn; split_and?; by vm_compute. Qed.

Lemma ramp_completes_witness :
  exists r w', ramp_run (board None) ramp_script bzm_balanced_ramp_init (0%nat, []) = ((true, r), w') /\
    failed r = false /\ completed_engines r = 944 /\
    bzm_balanced_ramp_get_parser_baseline r = Some zero_parser_stats.
Proof. apply (ramp_completes (board None) zero_parser_stats 0%nat), board_healthy. Defined.

Lemma ramp_barrier_all_active_witness :
  exists r w log, ramp_reachable (board None) (r, (w, log)) /\
    NoDup (acks log) /\ Forall (programmed log) (acks log) /\ (0x28, 0) ∈ acks log.
Proof.
  destruct (ramp_commits_ready (board None) zero_parser_stats board_healthy 118 0%nat)
    as (r & [w log] & _ & R & Hc); [lia|]. specialize (Hc ltac:(done)).
  destruct (barrier_ready (board None) zero_parser_stats board_healthy r (w, log) R Hc) as ([w2 log2] & E).
  exists r, w, log. split; [apply R|].
  destruct (ramp_barrier_all_active (board None) r w log _ _ r w2 log2 (ready_reachable _ _ _ _ _ R) E)
    as (_ & _ & _ & H1 & H2 & H3).
  split; [exact H1|]. split; [exact H2|]. apply H3. split; [by repeat (left; reflexivity) || right|].
  exists 0. eexists. split; [lia|]. split; [by vm_compute|by vm_compute].
Defined.

(** The third authorisation - the one for the second engine - is refused. *)
Definition refused : (bool * bzm_balanced_ramp_t) * (nat * list ramp_event) :=
  ramp_perform (board (Some 2%nat)) (Commit 0x0a 0) bzm_balanced_ramp_init (0%nat, []).

Lemma refused_reachable : ramp_reachable (board (Some 2%nat)) (snd (fst refused), snd refused).
Proof.
  exists (bzm_balanced_ramp_init, (0%nat, [])). split; [by exists 0%nat|].
  apply rtc_once, (ramp_step_perform _ (Commit 0x0a 0) _ _ false). by vm_compute.
Qed.

Lemma ramp_accesses_authorized_witness :
  length (acks (snd (snd refused))) = 1%nat /\
  exists ok r', ramp_perform (board (Some 2%nat)) (Commit 0x14 0) (snd (fst refused)) (snd refused) =
    ((ok, r'), snd refused) /\ failed r' = true /\ ok = false.
Proof.
  split; [by vm_compute|].
  destruct (ramp_accesses_authorized (board (Some 2%nat)) (snd (fst refused)) (fst (snd refused)) (snd (snd refused))
    refused_reachable) as [_ H].
  exact (H ltac:(by vm_compute) (Commit 0x14 0)).
Defined.

Lemma ramp_follows_voltages_witness :
  on_asic 0x0a (acks (snd (snd refused))) = [0] /\
  on_asic 0x0a (acks (snd (snd refused))) `prefix_of` expected_order 0 (on_asic 0x0a (samples (snd (snd refused)))).
Proof.
  split; [by vm_compute|].
  apply (ramp_follows_voltages (board (Some 2%nat)) (snd (fst refused)) (fst (snd refused)) (snd (snd refused)) 0x0a
    refused_reachable).
Defined.
End Demo.
