(* ===== verification/RunningEvidence.v ===== *)
(** * Evidence of a mining board

    Models src/components/asic/bzm_running_evidence.c with its header: the
    evaluation of the dispatch and result counters of a mining board against a
    baseline, and the lifecycle that grants a proved board bounded time to
    recover.  The diagnostic text of a result is not modelled. *)

From S2P Require Import Prelude Float32.
Open Scope Z_scope.

(** ** Data *)

Record bzm_running_stats_t := mk_running_stats {
  dispatch_batches : Z;
  dispatched_logical_engines : Z;
  dispatched_chip_engines : Z;
  dispatch_failures : Z;
  mapped_results : Z;
  mapping_rejections : Z;
  mapping_rejection_streak : Z;
  mapping_recovery_pending : bool;
  locally_valid_results : Z;
  locally_rejected_results : Z;
  duplicate_results : Z;
  local_rejection_streak : Z;
  local_recovery_pending : bool;
}.

Record bzm_running_evidence_config_t := mk_evidence_config {
  required_chip_engine_writes : Z;
  minimum_valid_results : Z;
  allow_mapping_recovery : bool;
  maximum_mapping_rejections : Z;
  maximum_local_rejections : Z;
  proof_timeout_ms : Z;
  recovery_timeout_ms : Z;
}.
#[export] Instance bzm_running_evidence_config_t_eta : Eta bzm_running_evidence_config_t :=
  fun c => mk_evidence_config (required_chip_engine_writes c) (minimum_valid_results c)
    (allow_mapping_recovery c) (maximum_mapping_rejections c) (maximum_local_rejections c)
    (proof_timeout_ms c) (recovery_timeout_ms c).

Inductive bzm_running_evidence_status_t :=
| BZM_RUNNING_EVIDENCE_PENDING | BZM_RUNNING_EVIDENCE_GOOD | BZM_RUNNING_EVIDENCE_BAD.
#[export] Instance bzm_running_evidence_status_t_eq_dec : EqDecision bzm_running_evidence_status_t.
Proof. solve_decision. Defined.

Inductive bzm_running_evidence_fault_t :=
| BZM_RUNNING_EVIDENCE_FAULT_NONE | BZM_RUNNING_EVIDENCE_FAULT_COUNTER_ROLLBACK
| BZM_RUNNING_EVIDENCE_FAULT_DISPATCH | BZM_RUNNING_EVIDENCE_FAULT_MAPPING
| BZM_RUNNING_EVIDENCE_FAULT_LOCAL_VALIDATION | BZM_RUNNING_EVIDENCE_FAULT_TIMEOUT
| BZM_RUNNING_EVIDENCE_FAULT_INVALID_CONFIGURATION.

Record bzm_running_evidence_result_t := mk_evidence_result {
  evidence_status : bzm_running_evidence_status_t;
  evidence_fault : bzm_running_evidence_fault_t;
  observed : bzm_running_stats_t;
  elapsed_ms : Z;
}.
#[export] Instance bzm_running_evidence_result_t_eta : Eta bzm_running_evidence_result_t :=
  fun r => mk_evidence_result (evidence_status r) (evidence_fault r) (observed r) (elapsed_ms r).

Record bzm_running_evidence_lifecycle_t := mk_lifecycle {
  completed_once : bool;
  recovery_active : bool;
  recovery_started_at_ms : Z;
  last_locally_valid_results : Z;
}.

(** ** Evaluation *)

Definition counter_rolled_back (b c : bzm_running_stats_t) : bool :=
  (dispatch_batches c <? dispatch_batches b) ||
  (dispatched_logical_engines c <? dispatched_logical_engines b) ||
  (dispatched_chip_engines c <? dispatched_chip_engines b) ||
  (dispatch_failures c <? dispatch_failures b) || (mapped_results c <? mapped_results b) ||
  (mapping_rejections c <? mapping_rejections b) || (locally_valid_results c <? locally_valid_results b) ||
  (locally_rejected_results c <? locally_rejected_results b).

Definition subtract_stats (c b : bzm_running_stats_t) : bzm_running_stats_t :=
  {| dispatch_batches := u64 (dispatch_batches c - dispatch_batches b);
     dispatched_logical_engines := u64 (dispatched_logical_engines c - dispatched_logical_engines b);
     dispatched_chip_engines := u64 (dispatched_chip_engines c - dispatched_chip_engines b);
     dispatch_failures := u64 (dispatch_failures c - dispatch_failures b);
     mapped_results := u64 (mapped_results c - mapped_results b);
     mapping_rejections := u64 (mapping_rejections c - mapping_rejections b);
     mapping_rejection_streak := mapping_rejection_streak c;
     mapping_recovery_pending := mapping_recovery_pending c;
     locally_valid_results := u64 (locally_valid_results c - locally_valid_results b);
     locally_rejected_results := u64 (locally_rejected_results c - locally_rejected_results b);
     duplicate_results := 0;
     local_rejection_streak := local_rejection_streak c;
     local_recovery_pending := local_recovery_pending c |}.

Definition zero_stats : bzm_running_stats_t := mk_running_stats 0 0 0 0 0 0 0 false 0 0 0 0 false.

Definition proof_requirements_met (o : bzm_running_stats_t) (k : bzm_running_evidence_config_t) : bool :=
  negb (dispatch_batches o =? 0) && (required_chip_engine_writes k <=? dispatched_chip_engines o) &&
  (minimum_valid_results k <=? mapped_results o) && (minimum_valid_results k <=? locally_valid_results o).

Definition result_with (status : bzm_running_evidence_status_t) (fault : bzm_running_evidence_fault_t)
    (o : option bzm_running_stats_t) (elapsed : Z) : bzm_running_evidence_result_t :=
  {| evidence_status := status; evidence_fault := fault; observed := default zero_stats o;
     elapsed_ms := elapsed |}.

Definition bzm_running_result_meets_proof (nonce_difficulty minimum_nonce_difficulty : f64) : bool :=
  is_finite nonce_difficulty && is_finite minimum_nonce_difficulty &&
  flt (f64_of_Z 0) minimum_nonce_difficulty && fle minimum_nonce_difficulty nonce_difficulty.

Definition config_invalid (k : bzm_running_evidence_config_t) : bool :=
  (required_chip_engine_writes k =? 0) || (minimum_valid_results k =? 0) || (proof_timeout_ms k =? 0) ||
  (recovery_timeout_ms k =? 0) || (maximum_local_rejections k =? 0) ||
  (allow_mapping_recovery k && (maximum_mapping_rejections k =? 0)).

(** Waiting, for as long as the time-out allows. *)
Definition waiting (k : bzm_running_evidence_config_t) (o : bzm_running_stats_t) (elapsed : Z)
    (fault : bzm_running_evidence_fault_t) : bzm_running_evidence_result_t :=
  if proof_timeout_ms k <=? elapsed
  then result_with BZM_RUNNING_EVIDENCE_BAD fault (Some o) elapsed
  else result_with BZM_RUNNING_EVIDENCE_PENDING BZM_RUNNING_EVIDENCE_FAULT_NONE (Some o) elapsed.

Definition bzm_running_evidence_evaluate (baseline current : option bzm_running_stats_t)
    (config : option bzm_running_evidence_config_t) (elapsed : Z) : bzm_running_evidence_result_t :=
  let invalid :=
    result_with BZM_RUNNING_EVIDENCE_BAD BZM_RUNNING_EVIDENCE_FAULT_INVALID_CONFIGURATION None elapsed in
  match baseline, current, config with
  | Some b, Some c, Some k =>
      if config_invalid k then invalid
      else if counter_rolled_back b c
      then result_with BZM_RUNNING_EVIDENCE_BAD BZM_RUNNING_EVIDENCE_FAULT_COUNTER_ROLLBACK None elapsed
      else
        let o := subtract_stats c b in
        if negb (dispatch_failures o =? 0)
        then result_with BZM_RUNNING_EVIDENCE_BAD BZM_RUNNING_EVIDENCE_FAULT_DISPATCH (Some o) elapsed
        else if negb (mapping_rejections o =? 0) && negb (allow_mapping_recovery k)
        then result_with BZM_RUNNING_EVIDENCE_BAD BZM_RUNNING_EVIDENCE_FAULT_MAPPING (Some o) elapsed
        else if negb (mapping_rejections o =? 0) && mapping_recovery_pending o
        then waiting k o elapsed BZM_RUNNING_EVIDENCE_FAULT_MAPPING
        else if negb (locally_rejected_results o =? 0) && local_recovery_pending o &&
                (maximum_local_rejections k <=? local_rejection_streak o)
        then waiting k o elapsed BZM_RUNNING_EVIDENCE_FAULT_LOCAL_VALIDATION
        else if proof_requirements_met o k
        then result_with BZM_RUNNING_EVIDENCE_GOOD BZM_RUNNING_EVIDENCE_FAULT_NONE (Some o) elapsed
        else waiting k o elapsed BZM_RUNNING_EVIDENCE_FAULT_TIMEOUT
  | _, _, _ => invalid
  end.

(** ** The lifecycle *)

Definition bzm_running_evidence_lifecycle_init : bzm_running_evidence_lifecycle_t :=
  {| completed_once := false; recovery_active := false; recovery_started_at_ms := 0;
     last_locally_valid_results := 0 |}.

(** The time since [started_at], at its maximum when the clock went back. *)
Definition elapsed_since (started_at now : Z) : Z :=
  if started_at <=? now then now - started_at else UINT64_MAX.

(** A proof established on this observation, with or without a recovery. *)
Definition proved (recovering : bool) (now : Z) (o : bzm_running_stats_t) : bzm_running_evidence_lifecycle_t :=
  {| completed_once := true; recovery_active := recovering;
     recovery_started_at_ms := if recovering then now else 0;
     last_locally_valid_results := locally_valid_results o |}.

Definition good_result (r : bzm_running_evidence_result_t) : bzm_running_evidence_result_t :=
  r <| evidence_status := BZM_RUNNING_EVIDENCE_GOOD; evidence_fault := BZM_RUNNING_EVIDENCE_FAULT_NONE |>.

(** Before the first proof. *)
Definition track_initial (l : bzm_running_evidence_lifecycle_t) (b c : option bzm_running_stats_t)
    (config : option bzm_running_evidence_config_t) (k : bzm_running_evidence_config_t)
    (r : bzm_running_evidence_result_t) (overall now : Z)
    : bzm_running_evidence_result_t * bzm_running_evidence_lifecycle_t :=
  if proof_timeout_ms k <=? overall then
    (result_with BZM_RUNNING_EVIDENCE_BAD BZM_RUNNING_EVIDENCE_FAULT_TIMEOUT (Some (observed r)) overall, l)
  else if bool_decide (evidence_status r = BZM_RUNNING_EVIDENCE_GOOD) then (r, proved false now (observed r))
  else if proof_requirements_met (observed r) k then (good_result r, proved true now (observed r))
  else (bzm_running_evidence_evaluate b c config overall, l).

(** After it: a pending observation is tolerated for the recovery time-out, which a
    new locally valid result starts afresh. *)
Definition track_recovery (l : bzm_running_evidence_lifecycle_t) (b c : option bzm_running_stats_t)
    (k : bzm_running_evidence_config_t) (r : bzm_running_evidence_result_t) (overall now : Z)
    : bzm_running_evidence_result_t * bzm_running_evidence_lifecycle_t :=
  if bool_decide (evidence_status r = BZM_RUNNING_EVIDENCE_GOOD) then (r, proved false now (observed r))
  else
    let restart := negb (recovery_active l) ||
      (last_locally_valid_results l <? locally_valid_results (observed r)) in
    let started := if restart then now else recovery_started_at_ms l in
    let l := {| completed_once := completed_once l; recovery_active := true;
                recovery_started_at_ms := started;
                last_locally_valid_results := locally_valid_results (observed r) |} in
    let r := bzm_running_evidence_evaluate b c (Some (k <| proof_timeout_ms := recovery_timeout_ms k |>))
               (elapsed_since started now) in
    let r := r <| elapsed_ms := overall |> in
    (if bool_decide (evidence_status r = BZM_RUNNING_EVIDENCE_PENDING) then good_result r else r, l).

Definition bzm_running_evidence_track (lifecycle : option bzm_running_evidence_lifecycle_t)
    (baseline current : option bzm_running_stats_t) (config : option bzm_running_evidence_config_t)
    (started_at now : Z) : bzm_running_evidence_result_t * option bzm_running_evidence_lifecycle_t :=
  let overall := elapsed_since started_at now in
  match lifecycle with
  | None =>
      (result_with BZM_RUNNING_EVIDENCE_BAD BZM_RUNNING_EVIDENCE_FAULT_INVALID_CONFIGURATION None overall, None)
  | Some l =>
      let r := (bzm_running_evidence_evaluate baseline current config 0) <| elapsed_ms := overall |> in
      match evidence_status r, config with
      | BZM_RUNNING_EVIDENCE_BAD, _ | _, None => (r, Some l)
      | _, Some k =>
          let '(r, l) :=
            if negb (completed_once l) then track_initial l baseline current config k r overall now
            else track_recovery l baseline current k r overall now in
          (r, Some l)
      end
  end.

Definition bzm_running_evidence_status_name (s : bzm_running_evidence_status_t) : string :=
  match s with
  | BZM_RUNNING_EVIDENCE_PENDING => "PENDING"
  | BZM_RUNNING_EVIDENCE_GOOD => "GOOD"
  | BZM_RUNNING_EVIDENCE_BAD => "BAD"
  end.

Definition bzm_running_evidence_fault_name (f : bzm_running_evidence_fault_t) : string :=
  match f with
  | BZM_RUNNING_EVIDENCE_FAULT_NONE => "NONE"
  | BZM_RUNNING_EVIDENCE_FAULT_COUNTER_ROLLBACK => "COUNTER_ROLLBACK"
  | BZM_RUNNING_EVIDENCE_FAULT_DISPATCH => "DISPATCH"
  | BZM_RUNNING_EVIDENCE_FAULT_MAPPING => "MAPPING"
  | BZM_RUNNING_EVIDENCE_FAULT_LOCAL_VALIDATION => "LOCAL_VALIDATION"
  | BZM_RUNNING_EVIDENCE_FAULT_TIMEOUT => "TIMEOUT"
  | BZM_RUNNING_EVIDENCE_FAULT_INVALID_CONFIGURATION => "INVALID_CONFIGURATION"
  end.

(** ** Runs of observations *)

Section run.
Context (b : bzm_running_stats_t) (k : bzm_running_evidence_config_t) (started_at : Z).

(** An observation: the counters and the time. *)
Abbreviation observation := (bzm_running_stats_t * Z)%type.

Definition track (l : bzm_running_evidence_lifecycle_t) (o : observation) :=
  bzm_running_evidence_track (Some l) (Some b) (Some (fst o)) (Some k) started_at (snd o).

(** The result of each observation of a run. *)
Fixpoint track_run (l : bzm_running_evidence_lifecycle_t) (os : list observation)
    : list bzm_running_evidence_result_t :=
  match os with
  | [] => []
  | o :: os =>
      match track l o with
      | (r, Some l) => r :: track_run l os
      | (r, None) => [r]
      end
  end.

(** The counters do not move backwards, no dispatch failed, and results were lost
    to no one or may be lost. *)
Definition sound (c : bzm_running_stats_t) : Prop :=
  (dispatch_batches b <= dispatch_batches c /\ dispatched_logical_engines b <= dispatched_logical_engines c /\
   dispatched_chip_engines b <= dispatched_chip_engines c /\ dispatch_failures b <= dispatch_failures c /\
   mapped_results b <= mapped_results c /\ mapping_rejections b <= mapping_rejections c /\
   locally_valid_results b <= locally_valid_results c /\ locally_rejected_results b <= locally_rejected_results c) /\
  dispatch_failures (subtract_stats c b) = 0 /\
  (mapping_rejections (subtract_stats c b) <> 0 -> allow_mapping_recovery k = true).

(** A complete dispatch and enough verified results inside the initial time-out. *)
Definition complete (o : bzm_running_stats_t) : Prop :=
  dispatch_batches o <> 0 /\ required_chip_engine_writes k <= dispatched_chip_engines o /\
  minimum_valid_results k <= mapped_results o /\ minimum_valid_results k <= locally_valid_results o.
Definition proof_observation (o : observation) : Prop :=
  sound (fst o) /\ complete (subtract_stats (fst o) b) /\
  started_at <= snd o /\ snd o - started_at < proof_timeout_ms k.

Lemma requirements_complete o : proof_requirements_met o k = true -> complete o.
Proof.
  unfold proof_requirements_met. rewrite !andb_true_iff, negb_true_iff, Z.eqb_neq, !Z.leb_le.
  unfold complete. tauto.
Qed.

Lemma evaluate_sound c k' elapsed :
  config_invalid k' = false -> allow_mapping_recovery k' = allow_mapping_recovery k -> config_invalid k = false ->
  let r := bzm_running_evidence_evaluate (Some b) (Some c) (Some k') elapsed in
  evidence_status r <> BZM_RUNNING_EVIDENCE_BAD ->
  sound c /\ observed r = subtract_stats c b /\
  (evidence_status r = BZM_RUNNING_EVIDENCE_GOOD -> proof_requirements_met (subtract_stats c b) k' = true) /\
  (evidence_status r = BZM_RUNNING_EVIDENCE_PENDING -> elapsed < proof_timeout_ms k').
Proof.
  intros Hk' Ha Hk. unfold bzm_running_evidence_evaluate. rewrite Hk'.
  destruct (counter_rolled_back b c) eqn:E1; [done|]. cbn zeta.
  destruct (Z.eqb_spec (dispatch_failures (subtract_stats c b)) 0) as [E2|]; [cbn [negb]|done].
  destruct (negb _ && negb _) eqn:E3; [done|].
  assert (Hs : sound c).
  { split; [unfold counter_rolled_back in E1; rewrite !orb_false_iff, !Z.ltb_ge in E1; tauto|].
    split; [done|]. intros Hm. rewrite <- Ha. apply andb_false_iff in E3 as [E3|E3]; apply negb_false_iff in E3; [|done].
    by apply Z.eqb_eq in E3. }
  assert (Hw : forall f, let r := waiting k' (subtract_stats c b) elapsed f in
    evidence_status r <> BZM_RUNNING_EVIDENCE_BAD ->
    sound c /\ observed r = subtract_stats c b /\
    (evidence_status r = BZM_RUNNING_EVIDENCE_GOOD -> proof_requirements_met (subtract_stats c b) k' = true) /\
    (evidence_status r = BZM_RUNNING_EVIDENCE_PENDING -> elapsed < proof_timeout_ms k')).
  { intros f. unfold waiting. destruct (Z.leb_spec (proof_timeout_ms k') elapsed); cbn; [done|].
    intros _. by split_and!. }
  do 2 (match goal with |- context [if ?c then waiting _ _ _ _ else _] => destruct c; [apply Hw|] end).
  destruct (proof_requirements_met _ k') eqn:E; [|apply Hw]. cbn. intros _. by split_and!.
Qed.

Context (Hproof : is_u32 (proof_timeout_ms k)) (Hrecovery : is_u32 (recovery_timeout_ms k)).

Lemma elapsed_bound from now limit : is_u32 limit -> elapsed_since from now < limit -> from <= now /\ now - from < limit.
Proof. unfold elapsed_since, in_width, UINT64_MAX. destruct (Z.leb_spec from now); lia. Qed.

(** The first proof. *)
Lemma track_initial_step l c e now r l' :
  config_invalid k = false -> completed_once l = false ->
  sound c -> observed e = subtract_stats c b ->
  (evidence_status e = BZM_RUNNING_EVIDENCE_GOOD -> proof_requirements_met (subtract_stats c b) k = true) ->
  track_initial l (Some b) (Some c) (Some k) k e (elapsed_since started_at now) now = (r, l') ->
  (completed_once l' = true -> proof_observation (c, now)) /\
  (evidence_status r = BZM_RUNNING_EVIDENCE_GOOD -> completed_once l' = true).
Proof.
  intros Hk Hl Hs Ho Hg. unfold track_initial. rewrite Ho.
  destruct (Z.leb_spec (proof_timeout_ms k) (elapsed_since started_at now)) as [|Ht]; [intros [= <- <-]; by rewrite Hl|].
  apply elapsed_bound in Ht as [H1 H2]; [|done].
  destruct (bool_decide_reflect (evidence_status e = BZM_RUNNING_EVIDENCE_GOOD)) as [Hgood|_].
  { intros [= <- <-]. split; [|done]. intros _. split; [done|]. split; [by apply requirements_complete, Hg|done]. }
  destruct (proof_requirements_met (subtract_stats c b) k) eqn:Hp.
  { intros [= <- <-]. split; [|done]. intros _. split; [done|]. by split; [apply requirements_complete|]. }
  pose proof (evaluate_sound c k (elapsed_since started_at now) Hk eq_refl Hk) as H. cbn zeta in H.
  destruct (bzm_running_evidence_evaluate _ _ _ _) as [status fault obs time]. cbn in H.
  intros [= <- <-]. rewrite Hl. split; [done|]. cbn. intros ->. destruct H as (_ & _ & H & _); [done|]. by rewrite H in Hp.
Qed.

(** What one observation does. *)
Lemma track_step l o r l' :
  track l o = (r, Some l') ->
  (completed_once l' = true -> completed_once l = true \/ proof_observation o) /\
  (completed_once l = true -> completed_once l' = true) /\
  (evidence_status r = BZM_RUNNING_EVIDENCE_GOOD -> completed_once l' = true /\ sound (fst o)).
Proof.
  destruct o as [c now]. unfold track, bzm_running_evidence_track. cbn [fst snd]. cbn zeta.
  destruct (config_invalid k) eqn:Hk.
  { unfold bzm_running_evidence_evaluate. rewrite Hk. cbn. intros [= <- <-]. split_and!; auto; done. }
  pose proof (evaluate_sound c k 0 Hk eq_refl Hk) as He. cbn zeta in He.
  set (e := (bzm_running_evidence_evaluate (Some b) (Some c) (Some k) 0) <| elapsed_ms := _ |>).
  change (bzm_running_evidence_evaluate (Some b) (Some c) (Some k) 0) with
    ((bzm_running_evidence_evaluate (Some b) (Some c) (Some k) 0)) in He.
  assert (He' : evidence_status e <> BZM_RUNNING_EVIDENCE_BAD -> sound c /\ observed e = subtract_stats c b /\
    (evidence_status e = BZM_RUNNING_EVIDENCE_GOOD -> proof_requirements_met (subtract_stats c b) k = true)).
  { intros H. destruct (He H) as (? & ? & ? & _). by split_and!. }
  clearbody e. clear He. destruct (decide (evidence_status e = BZM_RUNNING_EVIDENCE_BAD)) as [E|E].
  { rewrite E. intros [= <- <-]. rewrite E. by split_and!; auto. }
  destruct (He' E) as (Hs & Ho & Hg). intros H.
  assert (H' : (if negb (completed_once l)
    then track_initial l (Some b) (Some c) (Some k) k e (elapsed_since started_at now) now
    else track_recovery l (Some b) (Some c) k e (elapsed_since started_at now) now) = (r, l')).
  { destruct (evidence_status e); [..|done]; destruct (if negb _ then _ else _) as [r0 l0]; congruence. }
  clear H. destruct (completed_once l) eqn:El; cbn [negb] in H'.
  - split; [by left|]. split; [|intros _; split; [|done]]; unfold track_recovery in H'; cbn zeta in H';
      destruct (bool_decide _) in H'; by injection H' as <- <-.
  - destruct (track_initial_step _ _ _ _ _ _ Hk El Hs Ho Hg H') as [H1 H2].
    split; [by right; apply H1|]. split; [done|]. intros Hr. by split; [apply H2|].
Qed.

Lemma track_lifecycle l o : exists r l', track l o = (r, Some l').
Proof.
  unfold track, bzm_running_evidence_track. cbn zeta.
  destruct (evidence_status _); [destruct (if negb _ then _ else _)..|]; by eexists _, _.
Qed.

Lemma track_run_good l os i r :
  track_run l os !! i = Some r -> evidence_status r = BZM_RUNNING_EVIDENCE_GOOD ->
  exists o, os !! i = Some o /\ sound (fst o) /\
    (completed_once l = true \/ exists j p, (j <= i)%nat /\ os !! j = Some p /\ proof_observation p).
Proof.
  revert l i. induction os as [|o os IH]; intros l i; [done|]. cbn [track_run].
  destruct (track_lifecycle l o) as (r0 & l0 & E). rewrite E. destruct (track_step _ _ _ _ E) as (H1 & _ & H3).
  destruct i as [|i]; cbn [lookup list_lookup].
  - intros [= ->] Hg. exists o. destruct (H3 Hg) as [Hc Hs]. split_and!; [done|done|].
    destruct (H1 Hc) as [|Hp]; [by left|right]. by exists 0%nat, o.
  - intros Hr Hg. destruct (IH _ _ Hr Hg) as (o' & Ho & Hs & Hp). exists o'. split_and!; [done|done|].
    destruct Hp as [Hc|(j & p & Hj & Hp & Hpp)].
    + destruct (H1 Hc) as [|Hp]; [by left|right]. exists 0%nat, o. by split_and!; [lia|..].
    + right. exists (S j), p. by split_and!; [lia|..].
Qed.

(** An observation that does not qualify by itself. *)
Definition recovering (c : bzm_running_stats_t) : Prop :=
  evidence_status (bzm_running_evidence_evaluate (Some b) (Some c) (Some k) 0) <> BZM_RUNNING_EVIDENCE_GOOD.
Definition verified (o : observation) : Z := locally_valid_results (subtract_stats (fst o) b).

Lemma waiting_not_good k' o elapsed f :
  evidence_status (waiting k' o elapsed f) <> BZM_RUNNING_EVIDENCE_GOOD.
Proof. unfold waiting. by destruct (_ <=? _). Qed.

(** Whether an observation qualifies does not depend on the time-out. *)
Lemma qualified_any_timeout c t elapsed elapsed' :
  config_invalid k = false ->
  evidence_status (bzm_running_evidence_evaluate (Some b) (Some c) (Some (k <| proof_timeout_ms := t |>)) elapsed) =
    BZM_RUNNING_EVIDENCE_GOOD ->
  evidence_status (bzm_running_evidence_evaluate (Some b) (Some c) (Some k) elapsed') = BZM_RUNNING_EVIDENCE_GOOD.
Proof.
  intros Hk. unfold bzm_running_evidence_evaluate. rewrite Hk.
  destruct (config_invalid (k <| proof_timeout_ms := t |>)); [intros H; discriminate H|].
  destruct (counter_rolled_back b c); [intros H; discriminate H|]. cbn zeta.
  change (allow_mapping_recovery (k <| proof_timeout_ms := t |>)) with (allow_mapping_recovery k).
  change (maximum_local_rejections (k <| proof_timeout_ms := t |>)) with (maximum_local_rejections k).
  change (proof_requirements_met (subtract_stats c b) (k <| proof_timeout_ms := t |>)) with
    (proof_requirements_met (subtract_stats c b) k).
  repeat match goal with
  | |- evidence_status (if ?x then _ else _) = _ -> _ => destruct x
  | |- evidence_status (waiting _ _ _ _) = _ -> _ => intros []%waiting_not_good
  | |- evidence_status (result_with _ _ _ _) = _ -> _ => cbn; intros; first [discriminate|reflexivity]
  end.
Qed.

(** A tolerated observation keeps the start of the recovery unless there is a new
    verified result, and lies within the time-out. *)
Lemma recovery_step l o r l' :
  completed_once l = true -> recovering (fst o) -> track l o = (r, Some l') ->
  evidence_status r = BZM_RUNNING_EVIDENCE_GOOD ->
  completed_once l' = true /\ recovery_active l' = true /\ last_locally_valid_results l' = verified o /\
  (recovery_active l = true -> verified o <= last_locally_valid_results l ->
   recovery_started_at_ms l' = recovery_started_at_ms l) /\
  recovery_started_at_ms l' <= snd o /\ snd o - recovery_started_at_ms l' < recovery_timeout_ms k.
Proof.
  destruct o as [c now]. unfold recovering, verified, track, bzm_running_evidence_track. cbn [fst snd]. cbn zeta.
  intros Hl Hnot H Hgood. destruct (config_invalid k) eqn:Hk.
  { exfalso. revert H Hgood. unfold bzm_running_evidence_evaluate. rewrite Hk. cbn. by intros [= <- _]. }
  pose proof (evaluate_sound c k 0 Hk eq_refl Hk) as He. cbn zeta in He.
  pose proof (fun e => qualified_any_timeout c (recovery_timeout_ms k) e 0 Hk) as Hq.
  destruct (bzm_running_evidence_evaluate (Some b) (Some c) (Some k) 0) as [status fault obs time].
  cbn in He, Hnot. cbn [evidence_status] in Hq. rewrite Hl in H. cbn [negb] in H. revert H. cbn.
  destruct status; [|done|intros [= <- <-]; by cbn in Hgood].
  destruct He as (_ & -> & _); [done|]. unfold track_recovery. cbn zeta.
  rewrite bool_decide_false by done. cbn [observed evidence_status].
  set (k' := k <| proof_timeout_ms := recovery_timeout_ms k |>) in *. set (started := if _ || _ then now else _).
  assert (Hk' : config_invalid k' = false).
  { revert Hk. unfold config_invalid, k'. cbn. rewrite !orb_false_iff. tauto. }
  pose proof (evaluate_sound c k' (elapsed_since started now) Hk' eq_refl Hk) as He. cbn zeta in He.
  specialize (Hq (elapsed_since started now)).
  destruct (bzm_running_evidence_evaluate _ _ (Some k') _) as [status2 fault2 obs2 time2].
  cbn [evidence_status] in He, Hq. unfold set_field. cbn [evidence_status].
  destruct status2; [|by specialize (Hq eq_refl)|intros [= <- <-]; by cbn in Hgood].
  destruct He as (_ & _ & _ & Ht); [done|]. specialize (Ht eq_refl).
  change (proof_timeout_ms k') with (recovery_timeout_ms k) in Ht. apply elapsed_bound in Ht as [H1 H2]; [|done].
  intros [= _ <-]. cbn [completed_once recovery_active last_locally_valid_results recovery_started_at_ms].
  split_and!; try done. intros Ha Hv. unfold started. rewrite Ha. cbn [negb orb].
  destruct (_ <? _) eqn:E; [|done]. apply Z.ltb_lt in E. cbn in E, Hv. lia.
Qed.

(** Consecutive observations without a new verified result. *)
Fixpoint nothing_new (last : Z) (os : list observation) : Prop :=
  match os with
  | [] => True
  | o :: os => verified o <= last /\ nothing_new (verified o) os
  end.

Lemma recovery_run l os since o :
  completed_once l = true -> recovery_active l = true -> recovery_started_at_ms l <= since ->
  nothing_new (last_locally_valid_results l) os -> Forall (fun o => recovering (fst o)) os ->
  Forall (fun r => evidence_status r = BZM_RUNNING_EVIDENCE_GOOD) (track_run l os) ->
  o ∈ os -> snd o - since < recovery_timeout_ms k.
Proof.
  revert l. induction os as [|o0 os IH]; intros l Hc Ha Hs Hn Hr Hg Ho; [by apply elem_of_nil in Ho|].
  cbn [nothing_new track_run] in *. destruct Hn as [Hv Hn].
  destruct (track_lifecycle l o0) as (r0 & l0 & E). rewrite E in Hg. inversion_clear Hg. inversion_clear Hr.
  destruct (recovery_step l o0 r0 l0) as (C1 & C2 & C3 & C4 & C5 & C6); [done..|].
  specialize (C4 Ha Hv). apply elem_of_cons in Ho as [->|Ho]; [lia|].
  apply (IH l0); try done; [lia|by rewrite C3].
Qed.
End run.


(** C28: Mining is reported GOOD only on real evidence: in every run of observations,
    a GOOD result means that no counter moved backwards, no dispatch failed and no
    result was lost without permission, and that this or an earlier observation -
    inside the initial time-out - had seen a complete dispatch to the required
    engines and the required number of mapped and locally verified results. *)
Theorem running_good_is_proved b k started_at os i r :
  is_u32 (proof_timeout_ms k) ->
  track_run b k started_at bzm_running_evidence_lifecycle_init os !! i = Some r ->
  evidence_status r = BZM_RUNNING_EVIDENCE_GOOD ->
  (exists o, os !! i = Some o /\ sound b k (fst o)) /\
  exists j p, (j <= i)%nat /\ os !! j = Some p /\ proof_observation b k started_at p.
Proof.
  intros Hp Hr Hg. destruct (track_run_good b k started_at Hp _ _ _ _ Hr Hg) as (o & Ho & Hs & [Hc|Hj]); [done|].
  split; [by exists o|done].
Qed.

(** Recovery is bounded: after the proof, a run of observations that do not
    qualify by themselves and bring no new locally verified result is reported GOOD
    throughout only as long as it is shorter than the recovery time-out, whatever
    the clock does; so a board that stops producing results is reported BAD. *)
Theorem running_recovery_bounded b k started_at l o os :
  is_u32 (recovery_timeout_ms k) -> completed_once l = true ->
  Forall (fun o => recovering b k (fst o)) (o :: os) -> nothing_new b (verified b o) os ->
  Forall (fun r => evidence_status r = BZM_RUNNING_EVIDENCE_GOOD) (track_run b k started_at l (o :: os)) ->
  forall o', o' ∈ os -> snd o' - snd o < recovery_timeout_ms k.
Proof.
  intros Hk Hc Hr Hn Hg o' Ho. cbn [track_run] in Hg.
  destruct (track_lifecycle b k started_at l o) as (r0 & l0 & E). rewrite E in Hg.
  inversion_clear Hg. inversion_clear Hr.
  destruct (recovery_step b k started_at Hk l o r0 l0) as (C1 & C2 & C3 & _ & C5 & _); [done..|].
  apply (recovery_run b k started_at Hk l0 os); try done. by rewrite C3.
Qed.

(** ** Examples *)

Module Demo.
Definition config : bzm_running_evidence_config_t :=
  {| required_chip_engine_writes := 4; minimum_valid_results := 1; allow_mapping_recovery := true;
     maximum_mapping_rejections := 3; maximum_local_rejections := 3; proof_timeout_ms := 1000;
     recovery_timeout_ms := 500 |}.

(** [results] verified results, and [lost] results that could not be attributed. *)
Definition counters (results lost : Z) : bzm_running_stats_t :=
  {| dispatch_batches := 1; dispatched_logical_engines := 1; dispatched_chip_engines := 4; dispatch_failures := 0;
     mapped_results := results; mapping_rejections := lost; mapping_rejection_streak := lost;
     mapping_recovery_pending := negb (lost =? 0); locally_valid_results := results; locally_rejected_results := 0;
     duplicate_results := 0; local_rejection_streak := 0; local_recovery_pending := false |}.

(** A proof at 100, then results that cannot be attributed. *)
Definition observations : list (bzm_running_stats_t * Z) :=
  [(counters 0 0, 50); (counters 1 0, 100); (counters 1 1, 200); (counters 1 2, 600); (counters 1 2, 700)].

Example verdicts :
  evidence_status <$> track_run zero_stats config 0 bzm_running_evidence_lifecycle_init observations =
    [BZM_RUNNING_EVIDENCE_PENDING; BZM_RUNNING_EVIDENCE_GOOD; BZM_RUNNING_EVIDENCE_GOOD;
     BZM_RUNNING_EVIDENCE_GOOD; BZM_RUNNING_EVIDENCE_BAD].
Proof. by vm_compute. Qed.

Lemma running_good_is_proved_witness :
  exists j p, (j <= 3)%nat /\ observations !! j = Some p /\ proof_observation zero_stats config 0 p.
Proof.
  destruct (track_run zero_stats config 0 bzm_running_evidence_lifecycle_init observations !! 3%nat) as [r|] eqn:E;
    [|by vm_compute in E].
  eapply (running_good_is_proved zero_stats config 0 observations 3 r); [by vm_compute|exact E|].
  vm_compute in E. by injection E as <-.
Defined.

Lemma running_recovery_bounded_witness :
  completed_once (proved false 100 (counters 1 0)) = true /\
  forall o', o' ∈ [(counters 1 2, 600)] -> snd o' - 200 < 500.
Proof.
  split; [reflexivity|].
  apply (running_recovery_bounded zero_stats config 0 (proved false 100 (counters 1 0)) (counters 1 1, 200)
    [(counters 1 2, 600)]).
  - by vm_compute.
  - reflexivity.
  - repeat constructor; by vm_compute.
  - by vm_compute.
  - repeat constructor; by vm_compute.
Defined.
End Demo.
