(* ===== verification/Bringup.v ===== *)
(** * The staged bring-up

    Models src/components/asic/bzm_bringup.c with its header and the register
    offsets of include/bzm_registers.h it uses: the discovery of the chain, the
    sensor and clock stages, the balanced ramp, the running check and the live
    frequency step, over the table of hardware operations.  A [NULL] entry of the
    table, or a [NULL] table, is [None]; an operation that fills a variable of the
    caller takes its old value and returns the new one with its answer.  A stage
    returns the report it leaves - whose outcome is also its return value - and the
    state; [reported] tells whether the caller passed a report at all, which the
    telemetry check depends on.  The state itself is always given.  The build
    option CONFIG_BZM_1002_SENSOR_TDM_GAP_COUNT is a parameter. *)

From S2P Require Import Prelude Float32 Frequency Topology Work Telemetry.
Open Scope Z_scope.
Open Scope io_scope.
Open Scope attempt_scope.

(** ** Data *)

Definition BZM_BRINGUP_ASIC_COUNT : Z := BZM_MAX_ASIC_COUNT.
Definition BZM_FIRST_ASIC_ID : Z := 0x0a.
Definition BZM_LAST_ASIC_ID : Z := 0x28.
Definition BZM_BRINGUP_CONTROL_ENGINE_ID : Z := 0x0fff.

Definition BZM_LOCAL_REG_RESULT_STATUS_CONTROL : Z := 0x00.
Definition BZM_LOCAL_REG_UART_TDM_CONTROL : Z := 0x07.
Definition BZM_LOCAL_REG_SLOW_CLOCK_DIVIDER : Z := 0x08.
Definition BZM_LOCAL_REG_TDM_DELAY : Z := 0x09.
Definition BZM_LOCAL_REG_UART_TX : Z := 0x0a.
Definition BZM_LOCAL_REG_ASIC_ID : Z := 0x0b.
Definition BZM_LOCAL_REG_PLL0_POSTDIV : Z := 0x10.
Definition BZM_LOCAL_REG_PLL0_FBDIV : Z := 0x11.
Definition BZM_LOCAL_REG_PLL0_ENABLE : Z := 0x12.
Definition BZM_LOCAL_REG_SENSOR_TDM_GAP_COUNT : Z := 0x2d.
Definition BZM_LOCAL_REG_DTS_RESET_POWERDOWN : Z := 0x2e.
Definition BZM_LOCAL_REG_DTS_CONFIG : Z := 0x2f.
Definition BZM_LOCAL_REG_TEMPERATURE_TUNE_CODE : Z := 0x30.
Definition BZM_LOCAL_REG_SENSOR_THRESHOLD_COUNT : Z := 0x3c.
Definition BZM_LOCAL_REG_SENSOR_CLOCK_DIVIDER : Z := 0x3d.
Definition BZM_LOCAL_REG_VSENSOR_RESET_POWERDOWN : Z := 0x3e.
Definition BZM_LOCAL_REG_VSENSOR_CONFIG : Z := 0x3f.
Definition BZM_LOCAL_REG_VSENSOR_CONTROL : Z := 0x40.
Definition BZM_LOCAL_REG_BANDGAP : Z := 0x45.
Definition BZM_LOCAL_REG_IO_PEPS_DRIVE_STRENGTH : Z := 0x51.
Definition BZM_LOCAL_REG_DLL0_CONTROL_5 : Z := 0x59.
Definition BZM_LOCAL_REG_DLL1_CONTROL_5 : Z := 0x61.
Definition BZM_TEMPERATURE_CODE_MASK : Z := 0x0fff.
Definition BZM_VOLTAGE_CODE_MASK : Z := 0x3fff.

Definition BZM_REFERENCE_SLOW_CLOCK_DIVIDER : Z := 2.
Definition BZM_REFERENCE_TDM_SLOT_BIT_COUNT : Z := 0x7f.
Definition BZM_REFERENCE_TDM_SLOT_COUNT : Z := 100.
Definition BZM_REFERENCE_TDM_DELAY : Z := 1.
Definition BZM_REFERENCE_SENSOR_DIVIDER : Z := 8.
Definition BZM_REFERENCE_THRESHOLD_COUNT : Z := 10.
Definition BZM_RESULT_REPORT_ENABLED : Z := 0.
Definition BZM_RESULT_REPORT_DISABLED : Z := 1.
Definition BZM_REFERENCE_THERMAL_TRIP_CODE_115C : Z := 2650.
Definition BZM_REFERENCE_VOLTAGE_SHUTDOWN_CODE_500MV : Z := 7561.
Definition BZM_REFERENCE_SENSOR_SETTLE_MS : Z := 10.
Definition BZM_TDM_TELEMETRY_FRAME_BIT_PERIODS : Z := 100.
Definition BZM_CHAIN_NOOP_ATTEMPTS : nat := 5.
Definition BZM_CHAIN_NOOP_RETRY_DELAY_MS : Z := 200.
Definition BZM_TELEMETRY_ACQUIRE_ATTEMPTS : nat := 5.
Definition BZM_TELEMETRY_RETRY_DELAY_MS : Z := 5.
Definition BZM_PLL_LOCK_MASK : Z := 0x05.
Definition BZM_PLL_ENABLE_VALUE : Z := 0x01.
Definition BZM_REFERENCE_BIRDS_IO_PEPS_DRIVE_STRENGTH : Z := 0x44464444.

Inductive bzm_bringup_outcome_t := BZM_BRINGUP_GOOD | BZM_BRINGUP_BAD | BZM_BRINGUP_BLOCKED.
#[export] Instance bzm_bringup_outcome_t_eq_dec : EqDecision bzm_bringup_outcome_t.
Proof. solve_decision. Defined.

Inductive bzm_bringup_reason_t :=
| BZM_BRINGUP_REASON_NONE | BZM_BRINGUP_REASON_INVALID_ARGUMENT | BZM_BRINGUP_REASON_PREREQUISITE
| BZM_BRINGUP_REASON_CAPABILITY_UNAVAILABLE | BZM_BRINGUP_REASON_IO | BZM_BRINGUP_REASON_CHAIN_MISSING
| BZM_BRINGUP_REASON_CHAIN_ID_MISMATCH | BZM_BRINGUP_REASON_CHAIN_EXTRA_ASIC
| BZM_BRINGUP_REASON_REGISTER_READBACK | BZM_BRINGUP_REASON_TELEMETRY_MISSING
| BZM_BRINGUP_REASON_TELEMETRY_PRECONFIG | BZM_BRINGUP_REASON_TELEMETRY_STALE
| BZM_BRINGUP_REASON_TELEMETRY_UNSAFE | BZM_BRINGUP_REASON_PLL_UNLOCKED | BZM_BRINGUP_REASON_TOPOLOGY
| BZM_BRINGUP_REASON_BALANCED_PAIR_UNAVAILABLE | BZM_BRINGUP_REASON_BALANCED_PAIR_COMMIT
| BZM_BRINGUP_REASON_ACTIVATION_BARRIER | BZM_BRINGUP_REASON_BALANCED_BATCH.
#[export] Instance bzm_bringup_reason_t_eq_dec : EqDecision bzm_bringup_reason_t.
Proof. solve_decision. Defined.

Inductive bzm_bringup_probe_result_t :=
| BZM_BRINGUP_PROBE_RESPONSE | BZM_BRINGUP_PROBE_NO_RESPONSE | BZM_BRINGUP_PROBE_IO_ERROR.
#[export] Instance bzm_bringup_probe_result_t_eq_dec : EqDecision bzm_bringup_probe_result_t.
Proof. solve_decision. Defined.
Definition probe_value (p : bzm_bringup_probe_result_t) : Z :=
  match p with
  | BZM_BRINGUP_PROBE_RESPONSE => 0
  | BZM_BRINGUP_PROBE_NO_RESPONSE => 1
  | BZM_BRINGUP_PROBE_IO_ERROR => 2
  end.

Record bzm_bringup_report_t := mk_bringup_report {
  outcome : bzm_bringup_outcome_t;
  reason : bzm_bringup_reason_t;
  asic_id : Z;
  pll_index : Z;
  register_offset : Z;
  expected : Z;
  actual : Z;
  completed_items : Z;
}.
#[export] Instance bzm_bringup_report_t_eta : Eta bzm_bringup_report_t :=
  fun r => mk_bringup_report (outcome r) (reason r) (asic_id r) (pll_index r) (register_offset r)
    (expected r) (actual r) (completed_items r).

Record bzm_bringup_state_t := mk_bringup_state {
  chain_verified : bool;
  sensors_verified : bool;
  clocks_verified : bool;
  balanced_ramp_verified : bool;
  running_verified : bool;
  sensors_configured_us : Z;
  clocks_configured_us : Z;
  clock_mhz : f32;
  domain_clock_mhz : list (list f32);
}.
#[export] Instance bzm_bringup_state_t_eta : Eta bzm_bringup_state_t :=
  fun s => mk_bringup_state (chain_verified s) (sensors_verified s) (clocks_verified s)
    (balanced_ramp_verified s) (running_verified s) (sensors_configured_us s) (clocks_configured_us s)
    (clock_mhz s) (domain_clock_mhz s).

Record bzm_bringup_sensor_profile_t := mk_sensor_profile {
  slow_clock_divider : Z;
  tdm_slot_bit_count : Z;
  tdm_slot_count : Z;
  tdm_delay : Z;
  sensor_clock_divider : Z;
  tdm_gap_count : Z;
  thermal_threshold_count : Z;
  voltage_threshold_count : Z;
  thermal_trip_code : Z;
  voltage_ch0_shutdown_code : Z;
  voltage_ch1_shutdown_code : Z;
  settle_delay_ms : Z;
}.

Record bzm_bringup_pll_profile_t := mk_pll_profile {
  target_mhz : Z;
  reference_mhz : Z;
  reference_divider : Z;
  post1_divider : Z;
  post2_divider : Z;
  feedback_divider : Z;
  postdiv_register : Z;
  lock_attempts : Z;
  lock_poll_delay_ms : Z;
}.

Record bzm_bringup_telemetry_policy_t := mk_telemetry_policy {
  bounds : bzm_telemetry_bounds_t;
  max_age_us : Z;
  ch2_confirm_samples : Z;
}.

Record bzm_bringup_ops_t (W : Type) := mk_bringup_ops {
  op_probe_noop : option (Z -> io W bzm_bringup_probe_result_t);
  op_write_u32 : option (Z -> Z -> Z -> Z -> io W bool);
  op_read_u32 : option (Z -> Z -> Z -> Z -> io W (bool * Z));
  op_delay_ms : option (Z -> io W unit);
  op_now_us : option (io W Z);
  op_telemetry_snapshot : option (bzm_telemetry_store_t -> io W (bool * bzm_telemetry_store_t));
  op_balanced_batch_begin : option (Z -> io W bool);
  op_balanced_pair_commit : option (Z -> bzm_engine_pair_t -> io W bool);
  op_balanced_batch_end : option (Z -> io W bool);
  op_activation_barrier : option (Z -> Z -> io W bool);
}.
Arguments mk_bringup_ops {W}.
Arguments op_probe_noop {W}.
Arguments op_write_u32 {W}.
Arguments op_read_u32 {W}.
Arguments op_delay_ms {W}.
Arguments op_now_us {W}.
Arguments op_telemetry_snapshot {W}.
Arguments op_balanced_batch_begin {W}.
Arguments op_balanced_pair_commit {W}.
Arguments op_balanced_batch_end {W}.
Arguments op_activation_barrier {W}.

(** ** Reports, state and profiles *)

Definition set_report (o : bzm_bringup_outcome_t) (why : bzm_bringup_reason_t)
    (asic pll offset want got completed : Z) : bzm_bringup_report_t :=
  {| outcome := o; reason := why; asic_id := asic; pll_index := pll; register_offset := offset;
     expected := want; actual := got; completed_items := completed |}.

Definition clear_after_chain (s : bzm_bringup_state_t) : bzm_bringup_state_t :=
  s <| chain_verified := false; sensors_verified := false; clocks_verified := false;
       balanced_ramp_verified := false; running_verified := false;
       sensors_configured_us := 0; clocks_configured_us := 0 |>.

Definition clear_after_sensors (s : bzm_bringup_state_t) : bzm_bringup_state_t :=
  s <| sensors_verified := false; clocks_verified := false; balanced_ramp_verified := false;
       running_verified := false; sensors_configured_us := 0; clocks_configured_us := 0 |>.

Definition clear_after_clocks (s : bzm_bringup_state_t) : bzm_bringup_state_t :=
  s <| clocks_verified := false; balanced_ramp_verified := false; running_verified := false;
       clocks_configured_us := 0 |>.

Definition bzm_bringup_init : bzm_bringup_state_t :=
  {| chain_verified := false; sensors_verified := false; clocks_verified := false;
     balanced_ramp_verified := false; running_verified := false; sensors_configured_us := 0;
     clocks_configured_us := 0; clock_mhz := S754_zero false;
     domain_clock_mhz := replicate 4 (replicate 2 (S754_zero false)) |}.

Definition bzm_bringup_reference_sensor_profile (gap_count : Z) : bzm_bringup_sensor_profile_t :=
  {| slow_clock_divider := BZM_REFERENCE_SLOW_CLOCK_DIVIDER;
     tdm_slot_bit_count := BZM_REFERENCE_TDM_SLOT_BIT_COUNT;
     tdm_slot_count := BZM_REFERENCE_TDM_SLOT_COUNT;
     tdm_delay := BZM_REFERENCE_TDM_DELAY;
     sensor_clock_divider := BZM_REFERENCE_SENSOR_DIVIDER;
     tdm_gap_count := gap_count;
     thermal_threshold_count := BZM_REFERENCE_THRESHOLD_COUNT;
     voltage_threshold_count := BZM_REFERENCE_THRESHOLD_COUNT;
     thermal_trip_code := BZM_REFERENCE_THERMAL_TRIP_CODE_115C;
     voltage_ch0_shutdown_code := BZM_REFERENCE_VOLTAGE_SHUTDOWN_CODE_500MV;
     voltage_ch1_shutdown_code := BZM_REFERENCE_VOLTAGE_SHUTDOWN_CODE_500MV;
     settle_delay_ms := BZM_REFERENCE_SENSOR_SETTLE_MS |}.

Definition bzm_bringup_pll_800_profile : bzm_bringup_pll_profile_t :=
  {| target_mhz := 800; reference_mhz := 50; reference_divider := 2; post1_divider := 1;
     post2_divider := 1; feedback_divider := 128; postdiv_register := 0x1242; lock_attempts := 30;
     lock_poll_delay_ms := 100 |}.

(** The TDM control word of a slot width and a slot count, enabled. *)
Definition tdm_control (slot_bit_count slot_count : Z) : Z :=
  Z.lor (Z.lor (Z.shiftl slot_bit_count 9) (Z.shiftl slot_count 1)) 1.
Definition bzm_bringup_reference_tdm_control : Z :=
  tdm_control BZM_REFERENCE_TDM_SLOT_BIT_COUNT BZM_REFERENCE_TDM_SLOT_COUNT.
(** [control & ~1U] *)
Definition tdm_disabled (control : Z) : Z := Z.land control 0xfffffffe.

Definition bzm_bringup_outcome_name (o : bzm_bringup_outcome_t) : string :=
  match o with
  | BZM_BRINGUP_GOOD => "GOOD"
  | BZM_BRINGUP_BAD => "BAD"
  | BZM_BRINGUP_BLOCKED => "BLOCKED"
  end.

Definition bzm_bringup_reason_name (r : bzm_bringup_reason_t) : string :=
  match r with
  | BZM_BRINGUP_REASON_NONE => "none"
  | BZM_BRINGUP_REASON_INVALID_ARGUMENT => "invalid_argument"
  | BZM_BRINGUP_REASON_PREREQUISITE => "prerequisite"
  | BZM_BRINGUP_REASON_CAPABILITY_UNAVAILABLE => "capability_unavailable"
  | BZM_BRINGUP_REASON_IO => "io"
  | BZM_BRINGUP_REASON_CHAIN_MISSING => "chain_missing"
  | BZM_BRINGUP_REASON_CHAIN_ID_MISMATCH => "chain_id_mismatch"
  | BZM_BRINGUP_REASON_CHAIN_EXTRA_ASIC => "chain_extra_asic"
  | BZM_BRINGUP_REASON_REGISTER_READBACK => "register_readback"
  | BZM_BRINGUP_REASON_TELEMETRY_MISSING => "telemetry_missing"
  | BZM_BRINGUP_REASON_TELEMETRY_PRECONFIG => "telemetry_preconfig"
  | BZM_BRINGUP_REASON_TELEMETRY_STALE => "telemetry_stale"
  | BZM_BRINGUP_REASON_TELEMETRY_UNSAFE => "telemetry_unsafe"
  | BZM_BRINGUP_REASON_PLL_UNLOCKED => "pll_unlocked"
  | BZM_BRINGUP_REASON_TOPOLOGY => "topology"
  | BZM_BRINGUP_REASON_BALANCED_PAIR_UNAVAILABLE => "balanced_pair_unavailable"
  | BZM_BRINGUP_REASON_BALANCED_PAIR_COMMIT => "balanced_pair_commit"
  | BZM_BRINGUP_REASON_ACTIVATION_BARRIER => "activation_barrier"
  | BZM_BRINGUP_REASON_BALANCED_BATCH => "balanced_batch"
  end.

(** ** Validity of the arguments *)

Definition telemetry_policy_is_valid (p : bzm_bringup_telemetry_policy_t) : bool :=
  let b := bounds p in
  negb (max_age_us p =? 0) && negb (ch2_confirm_samples p =? 0) &&
  (ch2_confirm_samples p <=? BZM_CH2_CONFIRM_MAX_SAMPLES) &&
  is_finite (temperature_min_c b) && is_finite (temperature_max_c b) &&
  is_finite (ch0_min_mv b) && is_finite (ch0_max_mv b) &&
  is_finite (ch1_min_mv b) && is_finite (ch1_max_mv b) &&
  is_finite (ch2_abs_max_mv b) && is_finite (max_stack_spread_mv b) &&
  fle (temperature_min_c b) (temperature_max_c b) && fle (ch0_min_mv b) (ch0_max_mv b) &&
  fle (ch1_min_mv b) (ch1_max_mv b) && fle (f32_of_Z 0) (ch2_abs_max_mv b) &&
  fle (f32_of_Z 0) (max_stack_spread_mv b).

Definition sensor_profile_is_valid (p : bzm_bringup_sensor_profile_t) : bool :=
  ((slow_clock_divider p =? 2) || (slow_clock_divider p =? 4) || (slow_clock_divider p =? 8) ||
   (slow_clock_divider p =? 16)) &&
  (BZM_TDM_TELEMETRY_FRAME_BIT_PERIODS <=? tdm_slot_bit_count p) &&
  (BZM_LAST_ASIC_ID <? tdm_slot_count p) && (tdm_delay p <=? 3) &&
  (2 <=? sensor_clock_divider p) && (sensor_clock_divider p <=? 16) && (tdm_gap_count p <=? 63) &&
  (thermal_trip_code p <=? BZM_TEMPERATURE_CODE_MASK) &&
  (voltage_ch0_shutdown_code p <=? BZM_VOLTAGE_CODE_MASK) &&
  (voltage_ch1_shutdown_code p <=? BZM_VOLTAGE_CODE_MASK).

Definition pll_profile_is_exact_800 (p : bzm_bringup_pll_profile_t) : bool :=
  (target_mhz p =? 800) && (reference_mhz p =? 50) && (reference_divider p =? 2) &&
  (post1_divider p =? 1) && (post2_divider p =? 1) && (feedback_divider p =? 128) &&
  (postdiv_register p =? 0x1242) && negb (lock_attempts p =? 0).

(** A pointer that is set, to a value that passes the test. *)
Definition given {A} (test : A -> bool) (x : option A) : option A :=
  match x with Some a => if test a then Some a else None | None => None end.

Definition pll_register (pll pll0_register : Z) : Z :=
  if pll =? 0 then pll0_register else u8 (pll0_register + 0x0a).

(** ** Domain clocks *)

Definition domain_clock (clocks : list (list f32)) (d : nat * nat) : f32 :=
  nth (snd d) (nth (fst d) clocks []) (S754_zero false).

Definition set_domain_clock (s : bzm_bringup_state_t) (d : nat * nat) (mhz : f32) : bzm_bringup_state_t :=
  let row := nth (fst d) (domain_clock_mhz s) [] in
  s <| domain_clock_mhz := <[fst d := <[snd d := mhz]> row]> (domain_clock_mhz s) |>.

Definition set_all_domain_clocks (s : bzm_bringup_state_t) (mhz : f32) : bzm_bringup_state_t :=
  s <| domain_clock_mhz := replicate 4 (replicate 2 mhz); clock_mhz := mhz |>.

(** The eight ASIC/PLL domains in loop order. *)
Definition domains : list (nat * nat) := a ← seq 0 4; p ← seq 0 2; [(a, p)].

Definition average_domain_clocks (s : bzm_bringup_state_t) : f32 :=
  fdiv (foldl (fun total d => fadd total (domain_clock (domain_clock_mhz s) d)) (f32_of_Z 0) domains)
    (f32_of_Z (BZM_BRINGUP_ASIC_COUNT * 2)).

(** ** Access to the registers *)

(** The ASICs of the chain with their positions, as the stages loop over them. *)
Definition chain : list (Z * Z) := zip (seqZ 0 BZM_BRINGUP_ASIC_COUNT) bzm_asic_wire_ids.
Definition plls : list Z := [0; 1].

Section stages.
Context {W : Type}.

Abbreviation attempt := (Prelude.attempt bzm_bringup_report_t W).
Abbreviation result := (bzm_bringup_report_t * bzm_bringup_state_t)%type.

(** The operations every stage on the registers has checked. *)
Record register_link := mk_register_link {
  write_u32 : Z -> Z -> Z -> Z -> io W bool;
  read_u32 : Z -> Z -> Z -> Z -> io W (bool * Z);
}.

Definition registers_of (o : bzm_bringup_ops_t W) : option register_link :=
  match op_write_u32 o, op_read_u32 o with
  | Some w, Some r => Some (mk_register_link w r)
  | _, _ => None
  end.

Definition basic_ops_are_valid (ops : option (bzm_bringup_ops_t W))
    : option (bzm_bringup_ops_t W * register_link) :=
  match ops with
  | None => None
  | Some o => match registers_of o with None => None | Some l => Some (o, l) end
  end.

(** [if (ops->delay_ms != NULL) ops->delay_ms(...)] *)
Definition delay_if (o : bzm_bringup_ops_t W) (ms : Z) : io W unit :=
  match op_delay_ms o with Some delay => delay ms | None => io_ret tt end.

Definition bad := set_report BZM_BRINGUP_BAD.

(** A write of [value] to [address]; the failure is reported of [about]. *)
Definition write_register (l : register_link) (address about pll offset value completed : Z) : attempt unit :=
  requires (write_u32 l address BZM_BRINGUP_CONTROL_ENGINE_ID offset value)
    (bad BZM_BRINGUP_REASON_IO about pll offset value 0 completed).

(** A read that must give [want]; anything else is reported for the reason [why]. *)
Definition read_register (l : register_link) (why : bzm_bringup_reason_t)
    (asic pll offset want completed : Z) : attempt unit :=
  let* (ok, got) := performs (read_u32 l asic BZM_BRINGUP_CONTROL_ENGINE_ID offset 0) in
  if negb ok then fails (bad BZM_BRINGUP_REASON_IO asic pll offset want 0 completed)
  else if negb (got =? want) then fails (bad why asic pll offset want got completed)
  else succeeds tt.

Definition write_and_verify_registers (l : register_link) (asic : Z) (registers : list (Z * Z))
    (completed : Z) : attempt unit :=
  let* _ := for_each registers (fun '(offset, value) => write_register l asic asic 0 offset value completed) in
  for_each registers (fun '(offset, value) =>
    read_register l BZM_BRINGUP_REASON_REGISTER_READBACK asic 0 offset value completed).

(** The end of a stage: its report with the state it leaves, or what follows. *)
Definition concludes {A} (s : bzm_bringup_state_t) (m : attempt A) (k : A -> io W result) : io W result :=
  io_bind m (fun r => match r with inl report => io_ret (report, s) | inr a => k a end).

(** ** Discovery of the chain *)

Fixpoint probe_attempts (o : bzm_bringup_ops_t W) (probe : Z -> io W bzm_bringup_probe_result_t)
    (attempts : nat) : io W bzm_bringup_probe_result_t :=
  match attempts with
  | O => io_ret BZM_BRINGUP_PROBE_NO_RESPONSE
  | S attempts =>
      let! answer := probe BZM_BROADCAST_ASIC in
      if negb (bool_decide (answer = BZM_BRINGUP_PROBE_NO_RESPONSE)) then io_ret answer
      else match attempts with
           | O => io_ret answer
           | S _ =>
               let! _ := delay_if o BZM_CHAIN_NOOP_RETRY_DELAY_MS in
               probe_attempts o probe attempts
           end
  end.

(** One iteration: the unassigned ASIC answers, takes the identifier and reads it back. *)
Definition assign_asic (o : bzm_bringup_ops_t W) (l : register_link)
    (probe : Z -> io W bzm_bringup_probe_result_t) (position : Z * Z) : attempt unit :=
  let '(index, id) := position in
  let* answer := performs (probe_attempts o probe BZM_CHAIN_NOOP_ATTEMPTS) in
  if negb (bool_decide (answer = BZM_BRINGUP_PROBE_RESPONSE)) then
    fails (bad (if bool_decide (answer = BZM_BRINGUP_PROBE_NO_RESPONSE)
                then BZM_BRINGUP_REASON_CHAIN_MISSING else BZM_BRINGUP_REASON_IO)
             id 0 BZM_LOCAL_REG_ASIC_ID (probe_value BZM_BRINGUP_PROBE_RESPONSE) (probe_value answer) index)
  else
    let programmed_id := Z.lor id (if index =? 0 then 0 else Z.shiftl 1 8) in
    let* _ := write_register l BZM_BROADCAST_ASIC id 0 BZM_LOCAL_REG_ASIC_ID programmed_id index in
    let* _ := performs (delay_if o 200) in
    read_register l BZM_BRINGUP_REASON_CHAIN_ID_MISMATCH id 0 BZM_LOCAL_REG_ASIC_ID
      (Z.lor id (Z.shiftl 1 8)) index.

Definition bzm_bringup_stage_chain4 (s : bzm_bringup_state_t) (ops : option (bzm_bringup_ops_t W))
    : io W result :=
  let invalid := bad BZM_BRINGUP_REASON_INVALID_ARGUMENT 0 0 0 0 0 0 in
  match basic_ops_are_valid ops with
  | None => io_ret (invalid, s)
  | Some (o, l) =>
      match op_probe_noop o with
      | None => io_ret (invalid, s)
      | Some probe =>
          let s := clear_after_chain s in
          concludes s (for_each chain (assign_asic o l probe)) (fun _ =>
            let! extra_probe := probe BZM_BROADCAST_ASIC in
            let extra why := bad why BZM_BROADCAST_ASIC 0 BZM_LOCAL_REG_ASIC_ID
              (probe_value BZM_BRINGUP_PROBE_NO_RESPONSE) (probe_value extra_probe) BZM_BRINGUP_ASIC_COUNT in
            match extra_probe with
            | BZM_BRINGUP_PROBE_RESPONSE => io_ret (extra BZM_BRINGUP_REASON_CHAIN_EXTRA_ASIC, s)
            | BZM_BRINGUP_PROBE_IO_ERROR => io_ret (extra BZM_BRINGUP_REASON_IO, s)
            | BZM_BRINGUP_PROBE_NO_RESPONSE =>
                io_ret (set_report BZM_BRINGUP_GOOD BZM_BRINGUP_REASON_NONE BZM_LAST_ASIC_ID 0
                          BZM_LOCAL_REG_ASIC_ID BZM_BRINGUP_ASIC_COUNT BZM_BRINGUP_ASIC_COUNT
                          BZM_BRINGUP_ASIC_COUNT,
                        s <| chain_verified := true |>)
            end)
      end
  end.

(** ** Telemetry evidence *)

(** [None] is GOOD; the index counts the ASICs before. *)
Fixpoint verify_telemetry_snapshot (positions : list (Z * Z)) (store : bzm_telemetry_store_t)
    (now_us configured_after_us : Z) (policy : bzm_bringup_telemetry_policy_t)
    (require_clock_locks : bool) : option bzm_bringup_report_t :=
  match positions with
  | [] => None
  | (index, id) :: positions =>
      match bzm_telemetry_store_get store id with
      | None => Some (bad BZM_BRINGUP_REASON_TELEMETRY_MISSING id 0 0 1 0 index)
      | Some sample =>
          let ts := sample_timestamp_us sample in
          if negb (received sample) then Some (bad BZM_BRINGUP_REASON_TELEMETRY_MISSING id 0 0 1 0 index)
          else if ts <? configured_after_us then
            Some (bad BZM_BRINGUP_REASON_TELEMETRY_PRECONFIG id 0 0 (u32 configured_after_us) (u32 ts) index)
          else if negb (bzm_telemetry_sample_is_fresh sample now_us (max_age_us policy)) then
            let age_us := if ts <=? now_us then now_us - ts else UINT64_MAX in
            Some (bad BZM_BRINGUP_REASON_TELEMETRY_STALE id 0 0 (u32 (max_age_us policy)) (u32 age_us) index)
          else if negb (bzm_telemetry_sample_is_safe_except_ch2 sample now_us (max_age_us policy)
                          (bounds policy) require_clock_locks) then
            Some (bad BZM_BRINGUP_REASON_TELEMETRY_UNSAFE id 0 0 1 0 index)
          else verify_telemetry_snapshot positions store now_us configured_after_us policy require_clock_locks
      end
  end.

Definition all_post_configuration (store : bzm_telemetry_store_t) (configured_after_us : Z) : bool :=
  forallb (fun id => match bzm_telemetry_store_get store id with
                     | None => false
                     | Some sample => received sample && negb (sample_timestamp_us sample <? configured_after_us)
                     end) bzm_asic_wire_ids.

(** Up to five snapshots, until every ASIC has sent a sample since the configuration. *)
Fixpoint acquire (o : bzm_bringup_ops_t W)
    (snapshot : bzm_telemetry_store_t -> io W (bool * bzm_telemetry_store_t)) (configured_after_us : Z)
    (attempts : nat) (store : bzm_telemetry_store_t) : attempt bzm_telemetry_store_t :=
  match attempts with
  | O => succeeds store
  | S attempts =>
      let* (ok, store) := performs (snapshot store) in
      if negb ok then fails (bad BZM_BRINGUP_REASON_IO 0 0 0 0 0 0)
      else if all_post_configuration store configured_after_us then succeeds store
      else match attempts with
           | O => succeeds store
           | S _ =>
               let* _ := performs (delay_if o BZM_TELEMETRY_RETRY_DELAY_MS) in
               acquire o snapshot configured_after_us attempts store
           end
  end.

(** A loss of the combined lock bit, in a sample that is safe otherwise. *)
Definition unlock_confirmable (store : bzm_telemetry_store_t) (now_us : Z)
    (policy : bzm_bringup_telemetry_policy_t) (id : Z) : bool :=
  match bzm_telemetry_store_get store id with
  | None => false
  | Some sample =>
      negb (pll_locked sample) && negb (bzm_telemetry_sample_has_immediate_trip sample) &&
      bzm_telemetry_sample_is_safe_except_ch2 sample now_us (max_age_us policy) (bounds policy) false
  end.

(** What one look at the store decides: to pass, to refuse, or to look again. *)
Inductive judgement :=
| Passed
| Refused (report : bzm_bringup_report_t)
| Undecided (observed : observation bzm_telemetry_confirmation_t).

Definition confirmation_report (policy : bzm_bringup_telemetry_policy_t)
    (observed : observation bzm_telemetry_confirmation_t) (o : bzm_bringup_outcome_t)
    (why : bzm_bringup_reason_t) : bzm_bringup_report_t :=
  set_report o why (culprit_asic_id observed) 0 0 (ch2_confirm_samples policy)
    (observed_consecutive_samples observed) 0.

Definition judge (reported : bool) (policy : bzm_bringup_telemetry_policy_t) (configured_after_us : Z)
    (require_clock_locks : bool) (store : bzm_telemetry_store_t) (now_us : Z)
    (confirmation : bzm_telemetry_confirmation_t) : judgement :=
  let confirmable report :=
    reported && bool_decide (reason report = BZM_BRINGUP_REASON_TELEMETRY_UNSAFE) &&
    require_clock_locks && unlock_confirmable store now_us policy (asic_id report) in
  let observed :=
    bzm_telemetry_confirmation_observe confirmation store now_us (max_age_us policy) (bounds policy)
      require_clock_locks (ch2_confirm_samples policy) in
  let concluded :=
    match verdict observed with
    | BZM_CH2_CONFIRMATION_GOOD => Passed
    | BZM_CH2_CONFIRMATION_CONTINUOUS | BZM_CH2_CONFIRMATION_INVALID =>
        Refused (confirmation_report policy observed BZM_BRINGUP_BAD BZM_BRINGUP_REASON_TELEMETRY_UNSAFE)
    | BZM_CH2_CONFIRMATION_PENDING | BZM_CH2_CONFIRMATION_NO_NEW_SAMPLE => Undecided observed
    end in
  match verify_telemetry_snapshot chain store now_us configured_after_us policy require_clock_locks with
  | None => concluded
  | Some report => if confirmable report then concluded else Refused report
  end.

(** [remaining] is [attempt_limit - attempt]. *)
Fixpoint confirm (reported : bool) (o : bzm_bringup_ops_t W) (now : io W Z)
    (snapshot : bzm_telemetry_store_t -> io W (bool * bzm_telemetry_store_t))
    (policy : bzm_bringup_telemetry_policy_t) (configured_after_us : Z) (require_clock_locks : bool)
    (remaining : nat) (store : bzm_telemetry_store_t) (confirmation : bzm_telemetry_confirmation_t)
    : attempt unit :=
  let* now_us := performs now in
  match judge reported policy configured_after_us require_clock_locks store now_us confirmation with
  | Passed => succeeds tt
  | Refused report => fails report
  | Undecided observed =>
      let evidence := confirmation_report policy observed in
      match op_delay_ms o, remaining with
      | None, _ => fails (evidence BZM_BRINGUP_BLOCKED BZM_BRINGUP_REASON_CAPABILITY_UNAVAILABLE)
      | Some _, O => fails (evidence BZM_BRINGUP_BAD BZM_BRINGUP_REASON_TELEMETRY_UNSAFE)
      | Some delay, S remaining =>
          let* _ := performs (delay BZM_TELEMETRY_RETRY_DELAY_MS) in
          let* (ok, store) := performs (snapshot store) in
          if negb ok then fails (evidence BZM_BRINGUP_BAD BZM_BRINGUP_REASON_IO)
          else confirm reported o now snapshot policy configured_after_us require_clock_locks
                 remaining store (counters observed)
      end
  end.

Definition verify_telemetry (reported : bool) (o : bzm_bringup_ops_t W)
    (policy : bzm_bringup_telemetry_policy_t) (configured_after_us : Z) (require_clock_locks : bool)
    : attempt unit :=
  match op_telemetry_snapshot o, op_now_us o with
  | Some snapshot, Some now =>
      let* store := acquire o snapshot configured_after_us BZM_TELEMETRY_ACQUIRE_ATTEMPTS
                      (replicate 4 (zero_sample 0)) in
      confirm reported o now snapshot policy configured_after_us require_clock_locks
        (Z.to_nat (u16 (ch2_confirm_samples policy * BZM_BRINGUP_ASIC_COUNT))) store
        bzm_telemetry_confirmation_init
  | _, _ => fails (set_report BZM_BRINGUP_BLOCKED BZM_BRINGUP_REASON_CAPABILITY_UNAVAILABLE 0 0 0 0 0 0)
  end.

(** ** Sensors *)

Definition sensor_registers (p : bzm_bringup_sensor_profile_t) (bandgap : Z) : list (Z * Z) :=
  [(BZM_LOCAL_REG_UART_TDM_CONTROL, tdm_disabled (tdm_control (tdm_slot_bit_count p) (tdm_slot_count p)));
   (BZM_LOCAL_REG_UART_TX, 0x0f);
   (BZM_LOCAL_REG_SLOW_CLOCK_DIVIDER, slow_clock_divider p);
   (BZM_LOCAL_REG_TDM_DELAY, tdm_delay p);
   (BZM_LOCAL_REG_SENSOR_CLOCK_DIVIDER, Z.lor (Z.shiftl (sensor_clock_divider p) 5) (sensor_clock_divider p));
   (BZM_LOCAL_REG_DTS_RESET_POWERDOWN, Z.shiftl 1 8);
   (BZM_LOCAL_REG_SENSOR_TDM_GAP_COUNT, tdm_gap_count p);
   (BZM_LOCAL_REG_DTS_CONFIG, 0);
   (BZM_LOCAL_REG_SENSOR_THRESHOLD_COUNT,
    Z.lor (Z.shiftl (thermal_threshold_count p) 16) (voltage_threshold_count p));
   (BZM_LOCAL_REG_TEMPERATURE_TUNE_CODE, Z.lor 0x8001 (Z.shiftl (thermal_trip_code p) 1));
   (BZM_LOCAL_REG_BANDGAP, Z.lor (Z.land bandgap 0xfffffff0) 0x03);
   (BZM_LOCAL_REG_VSENSOR_RESET_POWERDOWN, Z.shiftl 1 8);
   (BZM_LOCAL_REG_VSENSOR_CONFIG, Z.lor (Z.shiftl 8 28) (Z.shiftl 1 24));
   (BZM_LOCAL_REG_VSENSOR_CONTROL,
    Z.lor (Z.lor (Z.shiftl (voltage_ch1_shutdown_code p) 16) (Z.shiftl (voltage_ch0_shutdown_code p) 1)) 1)].

Definition drive_strength : list (Z * Z) :=
  [(BZM_LOCAL_REG_IO_PEPS_DRIVE_STRENGTH, BZM_REFERENCE_BIRDS_IO_PEPS_DRIVE_STRENGTH)].

Definition configure_sensors (l : register_link) (p : bzm_bringup_sensor_profile_t) (position : Z * Z)
    : attempt unit :=
  let '(index, id) := position in
  let* (ok, bandgap) := performs (read_u32 l id BZM_BRINGUP_CONTROL_ENGINE_ID BZM_LOCAL_REG_BANDGAP 0) in
  if negb ok then fails (bad BZM_BRINGUP_REASON_IO id 0 BZM_LOCAL_REG_BANDGAP 0 0 index)
  else write_and_verify_registers l id (sensor_registers p bandgap) index.

(** The reports of a missing prerequisite and of a missing capability. *)
Definition blocked_prerequisite : bzm_bringup_report_t :=
  set_report BZM_BRINGUP_BLOCKED BZM_BRINGUP_REASON_PREREQUISITE 0 0 0 1 0 0.
Definition blocked_capability : bzm_bringup_report_t :=
  set_report BZM_BRINGUP_BLOCKED BZM_BRINGUP_REASON_CAPABILITY_UNAVAILABLE 0 0 0 0 0 0.

Definition bzm_bringup_stage_sensors (reported : bool) (s : bzm_bringup_state_t)
    (ops : option (bzm_bringup_ops_t W)) (profile : option bzm_bringup_sensor_profile_t)
    (telemetry_policy : option bzm_bringup_telemetry_policy_t) : io W result :=
  match basic_ops_are_valid ops, given sensor_profile_is_valid profile,
        given telemetry_policy_is_valid telemetry_policy with
  | Some (o, l), Some p, Some policy =>
      if negb (chain_verified s) then io_ret (blocked_prerequisite, s)
      else
        match op_now_us o, op_telemetry_snapshot o with
        | Some now, Some _ =>
            let s := clear_after_sensors s in
            let control := tdm_control (tdm_slot_bit_count p) (tdm_slot_count p) in
            concludes s
              (let* _ := for_each chain (configure_sensors l p) in
               let* _ := write_and_verify_registers l BZM_FIRST_ASIC_ID drive_strength 0 in
               write_register l BZM_ALL_ASICS BZM_ALL_ASICS 0 BZM_LOCAL_REG_UART_TDM_CONTROL control 0)
              (fun _ =>
                let! now_us := now in
                let s := s <| sensors_configured_us := now_us |> in
                let! _ := delay_if o (settle_delay_ms p) in
                concludes s (verify_telemetry reported o policy now_us false) (fun _ =>
                  io_ret (set_report BZM_BRINGUP_GOOD BZM_BRINGUP_REASON_NONE BZM_LAST_ASIC_ID 0 0
                            BZM_BRINGUP_ASIC_COUNT BZM_BRINGUP_ASIC_COUNT BZM_BRINGUP_ASIC_COUNT,
                          s <| sensors_verified := true |>)))
        | _, _ => io_ret (blocked_capability, s)
        end
  | _, _, _ => io_ret (bad BZM_BRINGUP_REASON_INVALID_ARGUMENT 0 0 0 0 0 0, s)
  end.

(** ** Clocks *)

Definition program_dividers (l : register_link) (address about pll feedback postdiv completed : Z) : attempt unit :=
  let feedback_register := pll_register pll BZM_LOCAL_REG_PLL0_FBDIV in
  let failure := bad BZM_BRINGUP_REASON_IO about pll feedback_register feedback 0 completed in
  let* _ := requires (write_u32 l address BZM_BRINGUP_CONTROL_ENGINE_ID feedback_register feedback) failure in
  requires (write_u32 l address BZM_BRINGUP_CONTROL_ENGINE_ID
              (pll_register pll BZM_LOCAL_REG_PLL0_POSTDIV) postdiv) failure.

Definition verify_dividers (l : register_link) (asic pll feedback postdiv completed : Z) : attempt unit :=
  for_each [(pll_register pll BZM_LOCAL_REG_PLL0_FBDIV, feedback);
            (pll_register pll BZM_LOCAL_REG_PLL0_POSTDIV, postdiv)]
    (fun '(offset, value) =>
       read_register l BZM_BRINGUP_REASON_REGISTER_READBACK asic pll offset value completed).

(** One look at a lock: whether it is there, and the register's value. *)
Definition poll_lock (l : register_link) (asic pll old completed : Z) : attempt (bool * Z) :=
  let enable_register := pll_register pll BZM_LOCAL_REG_PLL0_ENABLE in
  let* (ok, value) := performs (read_u32 l asic BZM_BRINGUP_CONTROL_ENGINE_ID enable_register old) in
  if negb ok then fails (bad BZM_BRINGUP_REASON_IO asic pll enable_register BZM_PLL_LOCK_MASK 0 completed)
  else succeeds (all_bits value BZM_PLL_LOCK_MASK, value).

Fixpoint wait_for_locks (o : bzm_bringup_ops_t W) (l : register_link) (asic poll_delay_ms completed : Z)
    (attempts : nat) (pll0 pll1 : bool * Z) : attempt ((bool * Z) * (bool * Z)) :=
  match attempts with
  | O => succeeds (pll0, pll1)
  | S attempts =>
      if fst pll0 && fst pll1 then succeeds (pll0, pll1)
      else
        let* pll0 := poll_lock l asic 0 (snd pll0) completed in
        let* pll1 := poll_lock l asic 1 (snd pll1) completed in
        let* _ := performs (if negb (fst pll0 && fst pll1) then delay_if o poll_delay_ms else io_ret tt) in
        wait_for_locks o l asic poll_delay_ms completed attempts pll0 pll1
  end.

Definition require_lock (asic pll completed : Z) (seen : bool * Z) : attempt unit :=
  if negb (fst seen) then
    fails (bad BZM_BRINGUP_REASON_PLL_UNLOCKED asic pll (pll_register pll BZM_LOCAL_REG_PLL0_ENABLE)
             BZM_PLL_LOCK_MASK (Z.land (snd seen) BZM_PLL_LOCK_MASK) completed)
  else succeeds tt.

Definition dll_disabled : list (Z * Z) :=
  [(BZM_LOCAL_REG_DLL0_CONTROL_5, 0); (BZM_LOCAL_REG_DLL1_CONTROL_5, 0)].

Definition sensor_controls (gap_count : Z) : list (Z * Z) :=
  [(BZM_LOCAL_REG_UART_TDM_CONTROL, tdm_disabled bzm_bringup_reference_tdm_control);
   (BZM_LOCAL_REG_SLOW_CLOCK_DIVIDER, BZM_REFERENCE_SLOW_CLOCK_DIVIDER);
   (BZM_LOCAL_REG_TDM_DELAY, BZM_REFERENCE_TDM_DELAY);
   (BZM_LOCAL_REG_UART_TX, 0x0f);
   (BZM_LOCAL_REG_SENSOR_TDM_GAP_COUNT, gap_count);
   (BZM_LOCAL_REG_SENSOR_CLOCK_DIVIDER,
    Z.lor (Z.shiftl BZM_REFERENCE_SENSOR_DIVIDER 5) BZM_REFERENCE_SENSOR_DIVIDER)].

(** Both PLLs of an ASIC off, their dividers, and on again. *)
Definition program_plls (o : bzm_bringup_ops_t W) (l : register_link) (p : bzm_bringup_pll_profile_t)
    (id index : Z) : attempt unit :=
  let enable value := for_each plls (fun pll =>
    write_register l id id pll (pll_register pll BZM_LOCAL_REG_PLL0_ENABLE) value index) in
  let* _ := enable 0 in
  let* _ := for_each plls (fun pll =>
    program_dividers l id id pll (feedback_divider p) (postdiv_register p) index) in
  let* _ := performs (delay_if o 1) in
  enable BZM_PLL_ENABLE_VALUE.

Definition verify_plls (o : bzm_bringup_ops_t W) (l : register_link) (p : bzm_bringup_pll_profile_t)
    (id index : Z) : attempt unit :=
  let* _ := for_each plls (fun pll =>
    verify_dividers l id pll (feedback_divider p) (postdiv_register p) index) in
  let* (pll0, pll1) := wait_for_locks o l id (lock_poll_delay_ms p) index (Z.to_nat (lock_attempts p))
                         (false, 0) (false, 0) in
  let* _ := require_lock id 0 index pll0 in
  require_lock id 1 index pll1.

Definition configure_clocks (gap_count : Z) (o : bzm_bringup_ops_t W) (l : register_link)
    (p : bzm_bringup_pll_profile_t) (position : Z * Z) : attempt unit :=
  let '(index, id) := position in
  let* _ := program_plls o l p id index in
  let* _ := verify_plls o l p id index in
  let* _ := write_and_verify_registers l id dll_disabled index in
  for_each (sensor_controls gap_count) (fun '(offset, value) =>
    read_register l BZM_BRINGUP_REASON_REGISTER_READBACK id 0 offset value index).

(** The reference TDM control, written to all ASICs. *)
Definition broadcast_tdm (l : register_link) (control : Z) : attempt unit :=
  write_register l BZM_ALL_ASICS BZM_ALL_ASICS 0 BZM_LOCAL_REG_UART_TDM_CONTROL control 0.

Definition bzm_bringup_stage_clocks (gap_count : Z) (reported : bool) (s : bzm_bringup_state_t)
    (ops : option (bzm_bringup_ops_t W)) (profile : option bzm_bringup_pll_profile_t)
    (telemetry_policy : option bzm_bringup_telemetry_policy_t) : io W result :=
  match basic_ops_are_valid ops, given pll_profile_is_exact_800 profile,
        given telemetry_policy_is_valid telemetry_policy with
  | Some (o, l), Some p, Some policy =>
      if negb (sensors_verified s) then io_ret (blocked_prerequisite, s)
      else
        match op_now_us o, op_telemetry_snapshot o with
        | Some now, Some _ =>
            let s := clear_after_clocks s in
            let control := bzm_bringup_reference_tdm_control in
            concludes s
              (let* _ := broadcast_tdm l (tdm_disabled control) in
               let* _ := for_each chain (fun '(index, id) =>
                 read_register l BZM_BRINGUP_REASON_REGISTER_READBACK id 0 BZM_LOCAL_REG_UART_TDM_CONTROL
                   (tdm_disabled control) index) in
               let* _ := for_each chain (configure_clocks gap_count o l p) in
               broadcast_tdm l control)
              (fun _ =>
                let! now_us := now in
                let s := s <| clocks_configured_us := now_us |> in
                concludes s (verify_telemetry reported o policy now_us true) (fun _ =>
                  io_ret (set_report BZM_BRINGUP_GOOD BZM_BRINGUP_REASON_NONE BZM_LAST_ASIC_ID 1 0 800 800
                            BZM_BRINGUP_ASIC_COUNT,
                          set_all_domain_clocks (s <| clocks_verified := true |>) BZM_FREQUENCY_POWER_ON_MHZ)))
        | _, _ => io_ret (blocked_capability, s)
        end
  | _, _, _ =>
      io_ret (bad BZM_BRINGUP_REASON_INVALID_ARGUMENT 0 0 0 800
                (match profile with Some p => target_mhz p | None => 0 end) 0, s)
  end.

(** ** Live frequency *)

Definition live_asic_id (asic : nat) : Z :=
  if Z.of_nat asic <? BZM_BRINGUP_ASIC_COUNT then byte_at bzm_asic_wire_ids asic else BZM_ALL_ASICS.

(** [(uint32_t)lroundf(mhz)]; of a value that is not finite, which the C library
    leaves unspecified, 0. *)
Definition rounded_mhz (mhz : f32) : Z := u32 (fround mhz).

Definition live_frequency_report (o : bzm_bringup_outcome_t) (why : bzm_bringup_reason_t)
    (d : nat * nat) (offset want got completed : Z) : bzm_bringup_report_t :=
  set_report o why (live_asic_id (fst d)) (Z.of_nat (snd d)) offset want got completed.

(** Up to thirty looks at the lock of one PLL, then the failure. *)
Fixpoint wait_for_lock (o : bzm_bringup_ops_t W) (l : register_link) (asic pll completed : Z)
    (attempts : nat) (value : Z) : attempt unit :=
  match attempts with
  | O => require_lock asic pll completed (false, value)
  | S attempts =>
      let* (locked, value) := poll_lock l asic pll value completed in
      if locked : bool then succeeds tt
      else
        let* _ := performs (delay_if o 100) in
        wait_for_lock o l asic pll completed attempts value
  end.

Definition verify_live_frequency_domain (o : bzm_bringup_ops_t W) (l : register_link) (d : nat * nat)
    (target : bzm_frequency_target_t) (completed : Z) : attempt unit :=
  let asic := live_asic_id (fst d) in
  let pll := Z.of_nat (snd d) in
  let* _ := verify_dividers l asic pll (target_feedback_divider target) (target_postdiv_register target)
              completed in
  wait_for_lock o l asic pll completed 30 0.

Definition program_live_frequency_domain (o : bzm_bringup_ops_t W) (l : register_link) (d : nat * nat)
    (target : bzm_frequency_target_t) (completed : Z) : attempt unit :=
  let asic := live_asic_id (fst d) in
  let* _ := program_dividers l asic asic (Z.of_nat (snd d)) (target_feedback_divider target)
              (target_postdiv_register target) completed in
  let* _ := performs (delay_if o 1) in
  verify_live_frequency_domain o l d target completed.

Definition program_live_broadcast_shortcut (o : bzm_bringup_ops_t W) (l : register_link)
    (target : bzm_frequency_target_t) : attempt unit :=
  let* _ := for_each plls (fun pll =>
    let* _ := program_dividers l BZM_ALL_ASICS BZM_ALL_ASICS pll (target_feedback_divider target)
                (target_postdiv_register target) pll in
    performs (delay_if o 1)) in
  for_each (zip (seqZ 0 8) domains) (fun '(completed, d) =>
    verify_live_frequency_domain o l d target completed).

(** What one iteration of the checks finds: the resolved target, whether the domain
    changes, and the shortcut's target. *)
Definition check_domain (s : bzm_bringup_state_t) (wanted : list (list f32)) (allow_initial_jump : bool)
    (d : nat * nat) (shortcut : f32) : bzm_bringup_report_t + bzm_frequency_target_t * bool * f32 :=
  let current := domain_clock (domain_clock_mhz s) d in
  let want := domain_clock wanted d in
  let eps := f32_lit 1 1000 in
  let refuse a b := inl (live_frequency_report BZM_BRINGUP_BLOCKED BZM_BRINGUP_REASON_INVALID_ARGUMENT d 0
                           (rounded_mhz a) (rounded_mhz b) 0) in
  let malformed := refuse current (if is_finite want then want else f32_of_Z 0) in
  if negb (bzm_frequency_request_is_valid current) then malformed
  else
    match bzm_frequency_resolve_target want with
    | None => malformed
    | Some target =>
        if fle eps (fabs (fsub (actual_mhz target) want)) then malformed
        else
          let delta := fabs (fsub (actual_mhz target) current) in
          let changed := fle eps delta in
          if allow_initial_jump then
            if fle eps (fabs (fsub current BZM_FREQUENCY_POWER_ON_MHZ)) ||
               flt (actual_mhz target) BZM_FREQUENCY_POWER_ON_MHZ ||
               flt BZM_FREQUENCY_INITIAL_MAX_MHZ (actual_mhz target)
            then
              inl (live_frequency_report BZM_BRINGUP_BLOCKED BZM_BRINGUP_REASON_INVALID_ARGUMENT d 0
                     (u32 (ftrunc BZM_FREQUENCY_POWER_ON_MHZ)) (rounded_mhz want) 0)
            else if bool_decide (d = (0, 0)%nat) then inr (target, changed, actual_mhz target)
            else if fle eps (fabs (fsub shortcut (actual_mhz target))) then refuse shortcut want
            else inr (target, changed, shortcut)
          else if changed && flt (fadd BZM_FREQUENCY_RAMP_STEP_MHZ eps) delta then refuse current want
          else inr (target, changed, shortcut)
    end.

Fixpoint check_domains (s : bzm_bringup_state_t) (wanted : list (list f32)) (allow_initial_jump : bool)
    (ds : list (nat * nat)) (shortcut : f32)
    : bzm_bringup_report_t + list (nat * nat * bzm_frequency_target_t * bool) * f32 :=
  match ds with
  | [] => inr ([], shortcut)
  | d :: ds =>
      match check_domain s wanted allow_initial_jump d shortcut with
      | inl report => inl report
      | inr (target, changed, shortcut) =>
          match check_domains s wanted allow_initial_jump ds shortcut with
          | inl report => inl report
          | inr (plan, shortcut) => inr ((d, target, changed) :: plan, shortcut)
          end
      end
  end.

(** The domains that change, one after the other; the state keeps those that were verified. *)
Fixpoint program_domains (o : bzm_bringup_ops_t W) (l : register_link)
    (plan : list (nat * nat * bzm_frequency_target_t * bool)) (completed : Z) (s : bzm_bringup_state_t)
    : io W (option bzm_bringup_report_t * bzm_bringup_state_t) :=
  match plan with
  | [] => io_ret (None, s)
  | (d, target, changed) :: plan =>
      if changed : bool then
        let! r := program_live_frequency_domain o l d target completed in
        match r with
        | inl report => io_ret (Some report, s)
        | inr _ => program_domains o l plan (u16 (completed + 1)) (set_domain_clock s d (actual_mhz target))
        end
      else program_domains o l plan (u16 (completed + 1)) s
  end.

Definition first_target (plan : list (nat * nat * bzm_frequency_target_t * bool)) : bzm_frequency_target_t :=
  match plan with
  | (_, target, _) :: _ => target
  | [] => mk_frequency_target (S754_zero false) (S754_zero false) 0 0
  end.

(** The end of a successful step. *)
Definition frequency_applied (o : bzm_bringup_ops_t W) (s : bzm_bringup_state_t) : io W result :=
  let! now_us := match op_now_us o with Some now => now | None => io_ret 0 end in
  let mhz := rounded_mhz (clock_mhz s) in
  io_ret (live_frequency_report BZM_BRINGUP_GOOD BZM_BRINGUP_REASON_NONE (3, 1)%nat 0 mhz mhz
            (BZM_BRINGUP_ASIC_COUNT * 2),
          s <| clocks_configured_us := now_us |>).

Definition live_frequency_domains_step_once (s : bzm_bringup_state_t) (ops : option (bzm_bringup_ops_t W))
    (wanted : option (list (list f32))) (allow_initial_jump : bool) : io W result :=
  match basic_ops_are_valid ops, wanted, clocks_verified s && running_verified s with
  | Some (o, l), Some wanted, true =>
      match check_domains s wanted allow_initial_jump domains (f32_of_Z 0) with
      | inl report => io_ret (report, s)
      | inr (plan, shortcut) =>
          if allow_initial_jump && flt BZM_FREQUENCY_POWER_ON_MHZ shortcut then
            concludes s (program_live_broadcast_shortcut o l (first_target plan)) (fun _ =>
              frequency_applied o (set_all_domain_clocks s shortcut))
          else
            let! (failure, s) := program_domains o l plan 0 s in
            let s := s <| clock_mhz := average_domain_clocks s |> in
            match failure with
            | Some report => io_ret (report, s)
            | None => frequency_applied o s
            end
      end
  | _, _, _ =>
      io_ret (live_frequency_report BZM_BRINGUP_BLOCKED BZM_BRINGUP_REASON_INVALID_ARGUMENT
                (4, 0)%nat 0 0 0 0, s)
  end.

Definition transient (report : bzm_bringup_report_t) : bool :=
  bool_decide (outcome report = BZM_BRINGUP_BAD) &&
  (bool_decide (reason report = BZM_BRINGUP_REASON_IO) ||
   bool_decide (reason report = BZM_BRINGUP_REASON_REGISTER_READBACK)).

(** [retries] is the number of attempts after this one. *)
Fixpoint frequency_attempts (ops : option (bzm_bringup_ops_t W)) (wanted : option (list (list f32)))
    (allow_initial_jump : bool) (retries : nat) (s : bzm_bringup_state_t) : io W result :=
  let! (report, s) := live_frequency_domains_step_once s ops wanted allow_initial_jump in
  match retries with
  | O => io_ret (report, s)
  | S retries =>
      if negb (transient report) then io_ret (report, s)
      else
        let! _ := match ops with Some o => delay_if o 10 | None => io_ret tt end in
        frequency_attempts ops wanted allow_initial_jump retries s
  end.

Definition bzm_bringup_live_frequency_domains_step (s : bzm_bringup_state_t)
    (ops : option (bzm_bringup_ops_t W)) (wanted : option (list (list f32))) (allow_initial_jump : bool)
    : io W result :=
  frequency_attempts ops wanted allow_initial_jump 2 s.

(** ** The balanced ramp *)

(** The first loop of [topology_is_exact]: the physical identifiers seen and the
    engines counted per stack.  A stack is one of the two by its type. *)
Fixpoint engines_exact (indices : list Z) (physical_seen : list bool) (bottoms tops : Z) : option (Z * Z) :=
  match indices with
  | [] => Some (bottoms, tops)
  | index :: indices =>
      match bzm_topology_engine_at index with
      | None => None
      | Some e =>
          let id := Z.to_nat (physical_id e) in
          if negb (topology_index e =? index) || (BZM_TOPOLOGY_COLUMNS * 64 <=? physical_id e) ||
             nth id physical_seen false || negb (bzm_topology_coordinate_is_valid (row e) (column e))
          then None
          else
            let bottom := bool_decide (stack e = BZM_ENGINE_STACK_BOTTOM) in
            engines_exact indices (<[id := true]> physical_seen)
              (if bottom then u16 (bottoms + 1) else bottoms) (if bottom then tops else u16 (tops + 1))
      end
  end.

Definition pair_exact (index : Z) : bool :=
  match bzm_topology_balanced_pair_at index with
  | None => false
  | Some p =>
      (pair_index p =? index) && bool_decide (stack (bottom p) = BZM_ENGINE_STACK_BOTTOM) &&
      bool_decide (stack (top p) = BZM_ENGINE_STACK_TOP) && (stack_index (bottom p) =? index) &&
      (stack_index (top p) =? index) && negb (physical_id (bottom p) =? physical_id (top p))
  end.

Definition topology_is_exact : bool :=
  match engines_exact (seqZ 0 BZM_TOPOLOGY_ENGINE_COUNT)
          (replicate (Z.to_nat (BZM_TOPOLOGY_COLUMNS * 64)) false) 0 0 with
  | None => false
  | Some (bottoms, tops) =>
      (bottoms =? BZM_TOPOLOGY_STACK_ENGINE_COUNT) && (tops =? BZM_TOPOLOGY_STACK_ENGINE_COUNT) &&
      forallb pair_exact (seqZ 0 BZM_TOPOLOGY_PAIR_COUNT) &&
      (BZM_TOPOLOGY_ENGINE_COUNT =? 236) && (BZM_TOPOLOGY_PAIR_COUNT =? 118)
  end.

(** The four callbacks of the ramp. *)
Record ramp_hooks := mk_ramp_hooks {
  batch_begin : Z -> io W bool;
  pair_commit : Z -> bzm_engine_pair_t -> io W bool;
  batch_end : Z -> io W bool;
  activation_barrier : Z -> Z -> io W bool;
}.

Definition hooks_of (o : bzm_bringup_ops_t W) : option ramp_hooks :=
  match op_balanced_batch_begin o, op_balanced_pair_commit o, op_balanced_batch_end o,
        op_activation_barrier o with
  | Some b, Some c, Some e, Some a => Some (mk_ramp_hooks b c e a)
  | _, _, _, _ => None
  end.

(** The commits of one pair on the ASICs left; the number of pairs completed so far. *)
Fixpoint commit_pair (h : ramp_hooks) (p : bzm_engine_pair_t) (index : Z) (ids : list Z) (completed : Z)
    : attempt Z :=
  match ids with
  | [] => succeeds completed
  | id :: ids =>
      let* _ := requires (pair_commit h id p)
                  (bad BZM_BRINGUP_REASON_BALANCED_PAIR_COMMIT id 0 0 index 0 completed) in
      commit_pair h p index ids (u16 (completed + 1))
  end.

(** A failure of the telemetry check carries the number of completed pairs. *)
Definition with_completed {A} (completed : Z) (m : attempt A) : attempt A :=
  io_bind m (fun r => io_ret (match r with
                              | inl report => inl (report <| completed_items := completed |>)
                              | inr a => inr a
                              end)).

Definition ramp_pair (reported : bool) (o : bzm_bringup_ops_t W) (h : ramp_hooks) (now : io W Z)
    (policy : bzm_bringup_telemetry_policy_t) (index completed : Z) : attempt Z :=
  match bzm_topology_balanced_pair_at index with
  | None => fails (bad BZM_BRINGUP_REASON_TOPOLOGY 0 0 0 index 0 completed)
  | Some p =>
      let* _ := requires (batch_begin h index) (bad BZM_BRINGUP_REASON_BALANCED_BATCH 0 0 0 1 0 completed) in
      let* completed := commit_pair h p index bzm_asic_wire_ids completed in
      let* _ := requires (batch_end h index) (bad BZM_BRINGUP_REASON_BALANCED_BATCH 0 0 0 1 0 completed) in
      let* committed_after_us := performs now in
      let* _ := with_completed completed (verify_telemetry reported o policy committed_after_us true) in
      succeeds completed
  end.

Fixpoint ramp_pairs (reported : bool) (o : bzm_bringup_ops_t W) (h : ramp_hooks) (now : io W Z)
    (policy : bzm_bringup_telemetry_policy_t) (indices : list Z) (completed : Z) : attempt Z :=
  match indices with
  | [] => succeeds completed
  | index :: indices =>
      let* completed := ramp_pair reported o h now policy index completed in
      ramp_pairs reported o h now policy indices completed
  end.

Definition result_reporting (l : register_link) (value : Z) (completed : Z -> Z) : attempt unit :=
  for_each chain (fun '(index, id) =>
    write_and_verify_registers l id [(BZM_LOCAL_REG_RESULT_STATUS_CONTROL, value)] (completed index)).

Definition bzm_bringup_stage_balanced_ramp (reported : bool) (s : bzm_bringup_state_t)
    (ops : option (bzm_bringup_ops_t W)) (telemetry_policy : option bzm_bringup_telemetry_policy_t)
    : io W result :=
  let invalid := bad BZM_BRINGUP_REASON_INVALID_ARGUMENT 0 0 0 0 0 0 in
  match ops with
  | None => io_ret (invalid, s)
  | Some o =>
      let s := s <| balanced_ramp_verified := false; running_verified := false |> in
      if negb (clocks_verified s) then io_ret (blocked_prerequisite, s)
      else if negb topology_is_exact then
        io_ret (bad BZM_BRINGUP_REASON_TOPOLOGY 0 0 0 BZM_TOPOLOGY_ENGINE_COUNT 0 0, s)
      else
        match hooks_of o with
        | None =>
            io_ret (set_report BZM_BRINGUP_BLOCKED BZM_BRINGUP_REASON_BALANCED_PAIR_UNAVAILABLE 0 0 0 1 0 0, s)
        | Some h =>
            match given telemetry_policy_is_valid telemetry_policy with
            | None => io_ret (invalid, s)
            | Some policy =>
                match registers_of o, op_now_us o, op_telemetry_snapshot o with
                | Some l, Some now, Some _ =>
                    let total := BZM_TOPOLOGY_PAIR_COUNT * BZM_BRINGUP_ASIC_COUNT in
                    concludes s
                      (let* _ := result_reporting l BZM_RESULT_REPORT_DISABLED (fun _ => 0) in
                       let* completed := ramp_pairs reported o h now policy
                                           (seqZ 0 BZM_TOPOLOGY_PAIR_COUNT) 0 in
                       let* _ := requires (activation_barrier h BZM_BRINGUP_ASIC_COUNT BZM_TOPOLOGY_PAIR_COUNT)
                                   (bad BZM_BRINGUP_REASON_ACTIVATION_BARRIER 0 0 0 total completed completed) in
                       succeeds completed)
                      (fun completed =>
                        io_ret (set_report BZM_BRINGUP_GOOD BZM_BRINGUP_REASON_NONE BZM_LAST_ASIC_ID 0 0
                                  total completed completed,
                                s <| balanced_ramp_verified := true |>))
                | _, _, _ => io_ret (blocked_capability, s)
                end
            end
        end
  end.

(** ** The running check *)

Definition bzm_bringup_check_running (reported : bool) (s : bzm_bringup_state_t)
    (ops : option (bzm_bringup_ops_t W)) (telemetry_policy : option bzm_bringup_telemetry_policy_t)
    : io W result :=
  match ops, given telemetry_policy_is_valid telemetry_policy with
  | Some o, Some policy =>
      let s := s <| running_verified := false |> in
      if negb (balanced_ramp_verified s) then io_ret (blocked_prerequisite, s)
      else if negb topology_is_exact then
        io_ret (bad BZM_BRINGUP_REASON_TOPOLOGY 0 0 0 BZM_TOPOLOGY_ENGINE_COUNT 0 0, s)
      else
        match registers_of o, op_now_us o, op_telemetry_snapshot o with
        | Some l, Some now, Some _ =>
            concludes s
              (let* _ := result_reporting l BZM_RESULT_REPORT_ENABLED (fun index => index) in
               let* now_us := performs now in
               verify_telemetry reported o policy now_us true)
              (fun _ =>
                io_ret (set_report BZM_BRINGUP_GOOD BZM_BRINGUP_REASON_NONE BZM_LAST_ASIC_ID 0 0 1 1
                          BZM_BRINGUP_ASIC_COUNT,
                        s <| running_verified := true |>))
        | _, _, _ => io_ret (blocked_capability, s)
        end
  | _, _ => io_ret (bad BZM_BRINGUP_REASON_INVALID_ARGUMENT 0 0 0 0 0 0, s)
  end.
End stages.

Lemma topology_exact : topology_is_exact = true.
Proof. by vm_compute. Qed.
