(* ===== verification/BringupEvidence.v ===== *)
(** * What the bring-up stages prove

    The stages of [Bringup] over operations that log their outcome: the flags of
    the state stand for registers that were read back and not written since, a GOOD
    stage for telemetry taken after it, and the ramp for the whole activation
    script of [BalancedRamp]. *)

From S2P Require Import Prelude Trace Float32 Frequency Topology Work Telemetry BalancedRamp Bringup.
Open Scope Z_scope.
Open Scope io_scope.
Open Scope attempt_scope.

(** ** The log *)

Inductive bringup_event :=
| EvProbe (answer : bzm_bringup_probe_result_t)
| EvWrite (address engine offset value : Z) (ok : bool)
| EvRead (asic engine offset value : Z) (ok : bool)
| EvNow (now_us : Z)
| EvSnapshot (store : bzm_telemetry_store_t) (ok : bool)
| EvBatchBegin (index : Z) (ok : bool)
| EvCommit (asic : Z) (pair : bzm_engine_pair_t) (ok : bool)
| EvBatchEnd (index : Z) (ok : bool)
| EvBarrier (asic_count pairs_per_asic : Z) (ok : bool).

Definition traced_ops {W} (o : bzm_bringup_ops_t W) : bzm_bringup_ops_t (W * list bringup_event) :=
  {| op_probe_noop := option_map (fun f a => traced (f a) EvProbe) (op_probe_noop o);
     op_write_u32 := option_map (fun f a e off v => traced (f a e off v) (EvWrite a e off v)) (op_write_u32 o);
     op_read_u32 := option_map (fun f a e off old =>
       traced (f a e off old) (fun r => EvRead a e off (snd r) (fst r))) (op_read_u32 o);
     op_delay_ms := option_map (fun f ms => lifted (f ms)) (op_delay_ms o);
     op_now_us := option_map (fun f => traced f EvNow) (op_now_us o);
     op_telemetry_snapshot := option_map (fun f st =>
       traced (f st) (fun r => EvSnapshot (snd r) (fst r))) (op_telemetry_snapshot o);
     op_balanced_batch_begin := option_map (fun f i => traced (f i) (EvBatchBegin i)) (op_balanced_batch_begin o);
     op_balanced_pair_commit := option_map (fun f a p => traced (f a p) (EvCommit a p)) (op_balanced_pair_commit o);
     op_balanced_batch_end := option_map (fun f i => traced (f i) (EvBatchEnd i)) (op_balanced_batch_end o);
     op_activation_barrier := option_map (fun f n k => traced (f n k) (EvBarrier n k)) (op_activation_barrier o) |}.

(** ** Register evidence *)

Lemma lists_disjoint (l1 l2 : list Z) :
  forallb (fun x => negb (existsb (Z.eqb x) l2)) l1 = true -> forall x, x ∈ l1 -> x ∈ l2 -> False.
Proof.
  rewrite forallb_forall. intros H x H1%list_elem_of_In%H H2%list_elem_of_In. apply negb_true_iff in H1.
  rewrite (proj2 (existsb_exists _ _)) in H1; [done|]. exists x. by rewrite Z.eqb_refl.
Qed.

(** Outside the ramp's callbacks, every write goes to an address and offset in [P]. *)
Definition writes_in (P : Z -> Z -> Prop) (e : bringup_event) : Prop :=
  match e with
  | EvWrite address _ offset _ _ => P address offset
  | EvBatchBegin _ _ | EvCommit _ _ _ | EvBatchEnd _ _ | EvBarrier _ _ _ => False
  | _ => True
  end.

(** A write that reaches the register of an ASIC: addressed to it, or to all. *)
Definition reaches (id offset address written : Z) : Prop :=
  written = offset /\ (address = id \/ address = BZM_ALL_ASICS).
Definition untouched (id offset : Z) (e : bringup_event) : Prop :=
  match e with EvWrite address _ written _ _ => ~ reaches id offset address written | _ => True end.

(** The register was read back as [value] and not written since. *)
Definition proved (log : list bringup_event) (id offset value : Z) : Prop :=
  exists l1 l2, log = l1 ++ EvRead id BZM_BRINGUP_CONTROL_ENGINE_ID offset value true :: l2 /\
    Forall (untouched id offset) l2.

Lemma writes_in_mono (P Q : Z -> Z -> Prop) e : writes_in P e -> (forall a o, P a o -> Q a o) -> writes_in Q e.
Proof. destruct e; cbn; auto. Qed.

Lemma writes_mono (P Q : Z -> Z -> Prop) es :
  Forall (writes_in P) es -> (forall a o, P a o -> Q a o) -> Forall (writes_in Q) es.
Proof. intros H HPQ. eapply Forall_impl; [exact H|]. intros e He. by eapply writes_in_mono. Qed.

Lemma proved_later e1 e2 id offset v : proved e2 id offset v -> proved (e1 ++ e2) id offset v.
Proof. intros (l1 & l2 & -> & H). exists (e1 ++ l1), l2. by rewrite app_assoc. Qed.

Lemma writes_untouched (P : Z -> Z -> Prop) id offset es :
  Forall (writes_in P) es -> (forall a o, P a o -> ~ reaches id offset a o) -> Forall (untouched id offset) es.
Proof. intros H HP. eapply Forall_impl; [exact H|]. intros [] He; cbn in *; auto. Qed.

Lemma proved_untouched e1 e2 id offset v :
  proved e1 id offset v -> Forall (untouched id offset) e2 -> proved (e1 ++ e2) id offset v.
Proof.
  intros (l1 & l2 & -> & H) Hf. exists l1, (l2 ++ e2). rewrite <- app_assoc. split; [done|].
  by apply Forall_app.
Qed.

Lemma proved_kept e1 e2 id offset v (P : Z -> Z -> Prop) :
  proved e1 id offset v -> Forall (writes_in P) e2 ->
  (forall a o, P a o -> ~ reaches id offset a o) -> proved (e1 ++ e2) id offset v.
Proof. intros H Hf HP. apply proved_untouched; [done|]. by eapply writes_untouched. Qed.

Lemma proved_quiet e id offset v :
  EvRead id BZM_BRINGUP_CONTROL_ENGINE_ID offset v true ∈ e -> Forall (writes_in (fun _ _ => False)) e ->
  proved e id offset v.
Proof.
  intros (l1 & l2 & ->)%list_elem_of_split Hf. exists l1, l2. split; [done|].
  apply Forall_app in Hf as [_ Hf]. apply Forall_cons in Hf as [_ Hf]. eapply writes_untouched; [exact Hf|done].
Qed.

(** The evidence about one ASIC that an iteration leaves survives the iterations on
    the others. *)
Definition durable (K : Z -> list bringup_event -> Prop) : Prop :=
  (forall id e1 e2, K id e2 -> K id (e1 ++ e2)) /\
  (forall id e1 e2, K id e1 -> Forall (writes_in (fun a _ => a <> id /\ a <> BZM_ALL_ASICS)) e2 -> K id (e1 ++ e2)).

Lemma durable_proved offset v : durable (fun id e => proved e id offset v).
Proof.
  split; intros id e1 e2 H; [by apply proved_later|]. intros Hf. eapply proved_kept; [done..|].
  intros a o [H1 H2] [_ [?|?]]; done.
Qed.

Lemma durable_and K1 K2 : durable K1 -> durable K2 -> durable (fun id e => K1 id e /\ K2 id e).
Proof. intros [A1 B1] [A2 B2]. split; intros id e1 e2 [H1 H2]; [auto|intros; split; auto]. Qed.

Lemma durable_ex {A} (K : A -> Z -> list bringup_event -> Prop) :
  (forall x, durable (K x)) -> durable (fun id e => exists x, K x id e).
Proof.
  intros H. split; intros id e1 e2 [x Hx]; [exists x; by apply (proj1 (H x))|].
  intros Hf. exists x. by apply (proj2 (H x)).
Qed.

Lemma durable_all {A} (K : A -> Z -> list bringup_event -> Prop) :
  (forall x, durable (K x)) -> durable (fun id e => forall x, K x id e).
Proof. intros H. split; intros id e1 e2 Hx; [|intros Hf]; intros x; [by apply (proj1 (H x))|by apply (proj2 (H x))]. Qed.

Lemma durable_when (Q : Prop) K : durable K -> durable (fun id e => Q -> K id e).
Proof. intros [A B]. split; intros id e1 e2 H; [auto|]. intros Hf HQ. auto. Qed.

Lemma durable_const (Q : Prop) : durable (fun _ _ => Q).
Proof. split; auto. Qed.

Lemma durable_mono (K1 K2 : Z -> list bringup_event -> Prop) :
  (forall id e, K1 id e <-> K2 id e) -> durable K1 -> durable K2.
Proof. intros H [A B]. split; intros id e1 e2; rewrite <- !H; auto. Qed.

Create HintDb durable.
#[local] Hint Resolve durable_proved durable_and durable_ex durable_all durable_when durable_const : durable.

Lemma durable_each (K : Z -> list bringup_event -> Prop) (xs : list (Z * Z)) es :
  durable K -> NoDup (snd <$> xs) -> BZM_ALL_ASICS ∉ snd <$> xs -> BZM_BROADCAST_ASIC ∉ snd <$> xs ->
  Forall2 (fun x e => Forall (writes_in (fun a _ => a = snd x \/ a = BZM_BROADCAST_ASIC)) e /\ K (snd x) e) xs es ->
  forall id, id ∈ snd <$> xs -> K id (concat es).
Proof.
  intros [HK1 HK2] Hd Ha Hb H. induction H as [|x e xs es [Hx Hk] Hf IH]; [by intros id ?%elem_of_nil|].
  rewrite fmap_cons, NoDup_cons in Hd. rewrite fmap_cons, not_elem_of_cons in Ha, Hb.
  destruct Hd as [Hn Hd], Ha as [Ha1 Ha], Hb as [Hb1 Hb].
  intros id. rewrite fmap_cons, elem_of_cons. cbn [concat]. intros [->|Hi]; [|by apply HK1, IH].
  apply HK2; [done|]. clear IH Hk Hx Hd. induction Hf as [|y e' ys es' [Hy _] Hf IH]; [constructor|].
  rewrite fmap_cons, not_elem_of_cons in Hn, Ha, Hb. destruct Hn as [Hn1 Hn], Ha as [Ha2 Ha], Hb as [Hb2 Hb].
  cbn [concat]. apply Forall_app. split; [|by apply IH]. eapply writes_mono; [exact Hy|].
  intros a o [->| ->]; split; congruence || done.
Qed.

Lemma chain_ids : (snd <$> chain) = bzm_asic_wire_ids.
Proof. done. Qed.
Lemma chain_ids_nodup : NoDup (snd <$> chain).
Proof. by apply (bool_decide_unpack _). Qed.
Lemma chain_ids_addressed : (BZM_ALL_ASICS ∉ snd <$> chain) /\ (BZM_BROADCAST_ASIC ∉ snd <$> chain).
Proof. by split; apply (bool_decide_unpack _). Qed.

(** A loop over the chain whose iterations write to their own ASIC, or to the
    unassigned one. *)
Lemma durable_chain (K : Z -> list bringup_event -> Prop) es :
  durable K ->
  Forall2 (fun x e => Forall (writes_in (fun a _ => a = snd x \/ a = BZM_BROADCAST_ASIC)) e /\ K (snd x) e)
    chain es ->
  forall id, id ∈ bzm_asic_wire_ids -> K id (concat es).
Proof. intros. destruct chain_ids_addressed. eapply durable_each; eauto using chain_ids_nodup. Qed.

(** ** The register operations *)

(** No write at all. *)
Abbreviation quiet := (writes_in (fun _ _ => False)).

Lemma quiet_writes (P : Z -> Z -> Prop) e : quiet e -> writes_in P e.
Proof. by destruct e. Qed.

(** A stage that does not end GOOD reports so. *)
Definition refused (report : bzm_bringup_report_t) : Prop := outcome report <> BZM_BRINGUP_GOOD.

Abbreviation leaves P good := (ends (writes_in P) refused good).

Section registers.
Context {W : Type} (w : Z -> Z -> Z -> Z -> io W bool) (r : Z -> Z -> Z -> Z -> io W (bool * Z)).

Definition traced_link : register_link :=
  mk_register_link (fun a e off v => traced (w a e off v) (EvWrite a e off v))
    (fun a e off old => traced (r a e off old) (fun x => EvRead a e off (snd x) (fst x))).
Abbreviation l := traced_link.

Lemma requires_write_emits address offset value report (P : Z -> Z -> Prop) :
  refused report -> P address offset ->
  emits (requires (write_u32 l address BZM_BRINGUP_CONTROL_ENGINE_ID offset value) report)
    (leaves P (fun _ _ => True)).
Proof.
  intros Hr HP. apply ends_requires; [done|]. apply emits_traced. intros ok. split; [by repeat constructor|done].
Qed.

Lemma write_register_emits address about pll offset value completed (P : Z -> Z -> Prop) :
  P address offset ->
  emits (write_register l address about pll offset value completed) (leaves P (fun _ _ => True)).
Proof. by apply requires_write_emits. Qed.

Lemma read_emits asic offset old :
  emits (performs (read_u32 l asic BZM_BRINGUP_CONTROL_ENGINE_ID offset old))
    (leaves (fun _ _ => False) (fun x e => e = [EvRead asic BZM_BRINGUP_CONTROL_ENGINE_ID offset (snd x) (fst x)])).
Proof. apply ends_performs, emits_traced. intros x. split; [by repeat constructor|done]. Qed.

Lemma read_register_emits why asic pll offset want completed :
  emits (read_register l why asic pll offset want completed)
    (leaves (fun _ _ => False)
      (fun _ e => e = [EvRead asic BZM_BRINGUP_CONTROL_ENGINE_ID offset want true])).
Proof.
  eapply ends_bind; [apply read_emits|]. intros [[] got] e1 _ ->; cbn; [|by apply ends_fails].
  destruct (Z.eqb_spec got want) as [->|]; cbn; [by apply ends_succeeds|by apply ends_fails].
Qed.

(** The readback of a list of registers. *)
Lemma read_registers_emits why asic pll (registers : list (Z * Z)) completed :
  emits (for_each registers (fun '(offset, value) => read_register l why asic pll offset value completed))
    (ends quiet refused (fun _ e => Forall quiet e /\
       forall offset v, (offset, v) ∈ registers -> proved e asic offset v)).
Proof.
  eapply (ends_mono _ quiet quiet); [|done|].
  { apply (ends_for_each registers _ _ _
      (fun x e => e = [EvRead asic BZM_BRINGUP_CONTROL_ENGINE_ID (fst x) (snd x) true])).
    intros [offset v] _. apply read_register_emits. }
  intros [] e (es & -> & Hes).
  assert (Hq : Forall quiet (concat es)).
  { clear -Hes. induction Hes as [|x e xs es -> _ IH]; [constructor|]. by constructor. }
  split; [done|]. intros offset v Hin. apply proved_quiet; [|done].
  apply list_elem_of_lookup in Hin as [i Hi].
  destruct (Forall2_lookup_l _ _ _ _ _ Hes Hi) as (ei & Hei & ->).
  apply list_elem_of_In, in_concat. eexists. split; apply list_elem_of_In; [by eapply list_elem_of_lookup_2|left].
Qed.

Lemma write_and_verify_emits asic (registers : list (Z * Z)) completed :
  emits (write_and_verify_registers l asic registers completed)
    (leaves (fun a o => a = asic /\ o ∈ registers.*1)
      (fun _ e => forall offset v, (offset, v) ∈ registers -> proved e asic offset v)).
Proof.
  eapply ends_bind.
  { apply (ends_for_each registers _ _ _ (fun _ _ => True)). intros [offset v] Hin.
    apply write_register_emits. split; [done|]. apply list_elem_of_fmap. by exists (offset, v). }
  intros [] e1 _ _. eapply ends_mono; [apply read_registers_emits|apply quiet_writes|].
  intros [] e2 [_ H] offset v Hin. by apply proved_later, H.
Qed.
End registers.

(** ** Telemetry evidence *)

(** The stores examined, with the times of their examination. *)
Fixpoint examined (store : bzm_telemetry_store_t) (log : list bringup_event)
    : list (bzm_telemetry_store_t * Z) :=
  match log with
  | [] => []
  | EvSnapshot store _ :: log => examined store log
  | EvNow now_us :: log => (store, now_us) :: examined store log
  | _ :: log => examined store log
  end.
Fixpoint current_store (store : bzm_telemetry_store_t) (log : list bringup_event) : bzm_telemetry_store_t :=
  match log with
  | [] => store
  | EvSnapshot store _ :: log => current_store store log
  | _ :: log => current_store store log
  end.
Definition snapshots (log : list bringup_event) : list bzm_telemetry_store_t :=
  omap (fun e => match e with EvSnapshot store _ => Some store | _ => None end) log.

(** A sample changes only together with its timestamp. *)
Definition coherent (log : list bringup_event) : Prop :=
  forall st1 st2 i, st1 ∈ snapshots log -> st2 ∈ snapshots log -> (i < 4)%nat ->
    sample_timestamp_us (sample_at st1 i) = sample_timestamp_us (sample_at st2 i) ->
    sample_at st1 i = sample_at st2 i.

Lemma examined_app st e1 e2 : examined st (e1 ++ e2) = examined st e1 ++ examined (current_store st e1) e2.
Proof. revert st. induction e1 as [|[] e1 IH]; intros st; cbn; rewrite ?IH; done. Qed.

Lemma current_store_app st e1 e2 : current_store st (e1 ++ e2) = current_store (current_store st e1) e2.
Proof. revert st. induction e1 as [|[] e1 IH]; intros st; cbn; rewrite ?IH; done. Qed.

Lemma coherent_app e1 e2 : coherent (e1 ++ e2) -> coherent e1 /\ coherent e2.
Proof.
  unfold coherent, snapshots. rewrite omap_app. intros H.
  split; intros st1 st2 i H1 H2; apply H; apply elem_of_app; auto.
Qed.

Section telemetry.
Context (policy : bzm_bringup_telemetry_policy_t) (locks : bool).
Abbreviation safe_at s now_us :=
  (bzm_telemetry_sample_is_safe s now_us (max_age_us policy) (bounds policy) locks).
Abbreviation history := (history (max_age_us policy) (bounds policy) locks).
Abbreviation classify := (classify (max_age_us policy) (bounds policy) locks).

(** What a GOOD telemetry check leaves behind, for a store that changes its samples
    coherently: when the check ended, the last sample of every ASIC had been sent
    since [after_us] and was safe in every respect. *)
Definition telemetry_safe (after_us : Z) (e : list bringup_event) : Prop :=
  coherent e -> exists store now_us,
    (forall start, last (examined start e) = Some (store, now_us)) /\
    forall i, (i < 4)%nat ->
      after_us <= sample_timestamp_us (sample_at store i) /\ safe_at (sample_at store i) now_us = true.

Lemma telemetry_safe_later after_us e1 e2 : telemetry_safe after_us e2 -> telemetry_safe after_us (e1 ++ e2).
Proof.
  intros H Hc. apply coherent_app in Hc as [_ Hc]. destruct (H Hc) as (store & now_us & Hl & Hs).
  exists store, now_us. split; [|done]. intros start. by rewrite examined_app, last_app, Hl.
Qed.

(** Safety depends on the time through freshness only. *)
Lemma safe_later s t now_us : safe_at s t = true ->
  bzm_telemetry_sample_is_fresh s now_us (max_age_us policy) = true -> safe_at s now_us = true.
Proof. unfold bzm_telemetry_sample_is_safe. rewrite !andb_true_iff. tauto. Qed.

Lemma safe_locked s t : locks = true -> safe_at s t = true -> pll_locked s = true.
Proof. unfold bzm_telemetry_sample_is_safe. intros ->. rewrite !andb_true_iff. cbn. tauto. Qed.

(** The newest class of a history is that of a sample of its newest time. *)
Lemma history_newest i obs x older :
  seen (history i obs) = x :: older ->
  exists st t, (st, t) ∈ obs /\ sample_timestamp_us (sample_at st i) = newest_us (history i obs) /\
    classify (sample_at st i) t = x.
Proof.
  revert x older. induction obs as [|[st t] obs IH] using rev_ind; intros x older; [done|].
  unfold Telemetry.history. rewrite foldl_app. cbn [foldl].
  change (foldl _ _ obs) with (history i obs). unfold see. cbn [fst snd].
  destruct (Z.eqb_spec (sample_timestamp_us (sample_at st i)) (newest_us (history i obs))).
  - intros (st' & t' & Hin & Ht & Hc)%IH. exists st', t'. split; [apply elem_of_app; by left|done].
  - cbn. intros [= <- _]. exists st, t. split; [apply elem_of_app; right; left|done].
Qed.

Lemma history_time i obs st t :
  newest_us (history i (obs ++ [(st, t)])) = sample_timestamp_us (sample_at st i).
Proof.
  unfold Telemetry.history. rewrite foldl_app. cbn [foldl]. unfold see at 1. cbn [fst snd].
  case_match eqn:E; [|done]. by apply Z.eqb_eq in E.
Qed.

Lemma store_get_wire store i : (i < 4)%nat -> bzm_telemetry_store_get store (wire_id i) = store !! i.
Proof. intros Hi. do 4 (destruct i as [|i]; [done|]). lia. Qed.

Lemma store_get_sample store id s : bzm_telemetry_store_get store id = Some s ->
  exists i, (i < 4)%nat /\ sample_at store i = s.
Proof.
  unfold bzm_telemetry_store_get. destruct (bzm_topology_asic_index id) as [i|] eqn:E; [|done].
  intros H. exists i. split; [by eapply asic_index_lt|]. by apply nth_lookup_Some.
Qed.

(** One pass over the store. *)
Lemma snapshot_refused positions store now_us after_us report :
  verify_telemetry_snapshot positions store now_us after_us policy locks = Some report -> refused report.
Proof.
  induction positions as [|[index id] positions IH]; cbn [verify_telemetry_snapshot]; [done|].
  destruct (bzm_telemetry_store_get store id); [|by intros [= <-]]. repeat case_match; try (by intros [= <-]). done.
Qed.

Lemma snapshot_accepted positions store now_us after_us :
  verify_telemetry_snapshot positions store now_us after_us policy locks = None ->
  forall p, p ∈ positions -> exists s, bzm_telemetry_store_get store (snd p) = Some s /\
    after_us <= sample_timestamp_us s /\ bzm_telemetry_sample_is_fresh s now_us (max_age_us policy) = true.
Proof.
  induction positions as [|[index id] positions IH]; cbn [verify_telemetry_snapshot]; [by intros _ p ?%elem_of_nil|].
  destruct (bzm_telemetry_store_get store id) as [s|] eqn:E; [|done].
  destruct (received s); cbn [negb]; [|done].
  destruct (Z.ltb_spec (sample_timestamp_us s) after_us); [done|].
  destruct (bzm_telemetry_sample_is_fresh s now_us (max_age_us policy)) eqn:Ef; cbn [negb]; [|done].
  destruct (bzm_telemetry_sample_is_safe_except_ch2 _ _ _ _ _); cbn [negb]; [|done].
  intros Hv p [->|Hp]%elem_of_cons; [by exists s|by apply IH].
Qed.

(** The stores of a run of examinations, the last of which was let pass. *)
Definition examined_well (after_us : Z) (known : list bzm_telemetry_store_t)
    (obs : list (bzm_telemetry_store_t * Z)) (store : bzm_telemetry_store_t) (now_us : Z) : Prop :=
  (forall st t, (st, t) ∈ obs ++ [(store, now_us)] -> st ∈ known) /\
  (forall i, (i < 4)%nat -> exists older, seen (history i (obs ++ [(store, now_us)])) = Safe :: older) /\
  match verify_telemetry_snapshot chain store now_us after_us policy locks with
  | None => True
  | Some report => locks = true /\ unlock_confirmable store now_us policy (asic_id report) = true
  end.

Lemma examined_well_safe after_us known obs store now_us :
  (forall st1 st2 i, st1 ∈ known -> st2 ∈ known -> (i < 4)%nat ->
     sample_timestamp_us (sample_at st1 i) = sample_timestamp_us (sample_at st2 i) ->
     sample_at st1 i = sample_at st2 i) ->
  examined_well after_us known obs store now_us ->
  forall i, (i < 4)%nat ->
    after_us <= sample_timestamp_us (sample_at store i) /\ safe_at (sample_at store i) now_us = true.
Proof.
  intros Hc (Hk & Hs & Hv).
  assert (Hold : forall i, (i < 4)%nat -> exists t, safe_at (sample_at store i) t = true).
  { intros i Hi. destruct (Hs i Hi) as [older Hh]. apply history_newest in Hh as (st & t & Hin & Ht & Hcl).
    rewrite history_time in Ht. exists t.
    rewrite <- (Hc st store i); [|by eapply Hk|eapply Hk, elem_of_app; right; by left|done|done].
    revert Hcl. unfold Telemetry.classify. repeat case_match; done. }
  destruct (verify_telemetry_snapshot chain store now_us after_us policy locks) as [report|] eqn:E.
  - exfalso. destruct Hv as [Hl Hu]. unfold unlock_confirmable in Hu.
    destruct (bzm_telemetry_store_get store (asic_id report)) as [s|] eqn:Eg; [|done].
    destruct (store_get_sample _ _ _ Eg) as (i & Hi & <-). destruct (Hold i Hi) as [t Hsafe].
    rewrite (safe_locked _ _ Hl Hsafe) in Hu. done.
  - intros i Hi. destruct (snapshot_accepted _ _ _ _ E (Z.of_nat i, wire_id i)) as (s & Hg & Ha & Hf).
    { do 4 (destruct i as [|i]; [by apply (bool_decide_unpack _)|]). lia. }
    cbn [snd] in Hg. rewrite store_get_wire in Hg by done. assert (sample_at store i = s) as <- by (by apply nth_lookup_Some).
    split; [done|]. destruct (Hold i Hi) as [t Hsafe]. by eapply safe_later.
Qed.

(** The logged operations outside the register link. *)
Lemma performs_now {W} (now : io W Z) :
  emits (performs (X := bzm_bringup_report_t) (traced now EvNow))
    (leaves (fun _ _ => False) (fun t e => e = [EvNow t])).
Proof. apply ends_performs, emits_traced. intros t. split; [by repeat constructor|done]. Qed.

Lemma performs_snapshot {W} (m : io W (bool * bzm_telemetry_store_t)) :
  emits (performs (X := bzm_bringup_report_t) (traced m (fun r => EvSnapshot (snd r) (fst r))))
    (leaves (fun _ _ => False) (fun x e => e = [EvSnapshot (snd x) (fst x)])).
Proof. apply ends_performs, emits_traced. intros x. split; [by repeat constructor|done]. Qed.

Lemma performs_delay {W} (m : io W unit) :
  emits (E := bringup_event) (performs (X := bzm_bringup_report_t) (lifted m))
    (leaves (fun _ _ => False) (fun _ e => e = [])).
Proof. apply ends_performs, emits_lifted. intros x. split; [constructor|done]. Qed.

Lemma delay_if_emits {W} (o : bzm_bringup_ops_t W) ms : emits (delay_if (traced_ops o) ms) (fun _ e => e = []).
Proof.
  unfold delay_if. cbn. destruct (op_delay_ms o); cbn; [by apply emits_lifted|by apply emits_ret].
Qed.

Lemma performs_delay_if {W} (o : bzm_bringup_ops_t W) ms :
  emits (performs (X := bzm_bringup_report_t) (delay_if (traced_ops o) ms))
    (leaves (fun _ _ => False) (fun _ e => e = [])).
Proof. apply ends_performs. eapply emits_mono; [apply delay_if_emits|]. intros a e ->. by split. Qed.

Section confirmation.
Context {W : Type} (o : bzm_bringup_ops_t W) (now : io W Z)
  (snapshot : bzm_telemetry_store_t -> io W (bool * bzm_telemetry_store_t)).
Context (reported : bool) (after_us : Z) (Hsamples : 0 <= ch2_confirm_samples policy).

Abbreviation traced_now := (traced now EvNow).
Abbreviation traced_snapshot := (fun st => traced (snapshot st) (fun r => EvSnapshot (snd r) (fst r))).

Lemma examined_well_known after known known' obs store now_us :
  (forall st, st ∈ known -> st ∈ known') -> examined_well after known obs store now_us ->
  examined_well after known' obs store now_us.
Proof. intros Hk (H1 & H2 & H3). split; [|done]. intros st t Hin. eapply Hk, H1, Hin. Qed.

(** One observation: GOOD ends the confirmation, and PENDING or NO_NEW_SAMPLE goes on
    with counters that implement the histories. *)
Lemma observe_good c obs store now_us :
  implements (ch2_confirm_samples policy) c (fun i => history i obs) -> history_ok (fun i => history i obs) ->
  let seen_now := bzm_telemetry_confirmation_observe c store now_us (max_age_us policy) (bounds policy) locks
                    (ch2_confirm_samples policy) in
  verdict seen_now <> BZM_CH2_CONFIRMATION_INVALID ->
  implements (ch2_confirm_samples policy) (counters seen_now) (fun i => history i (obs ++ [(store, now_us)])) /\
  history_ok (fun i => history i (obs ++ [(store, now_us)])) /\
  (verdict seen_now = BZM_CH2_CONFIRMATION_GOOD ->
     forall i, (i < 4)%nat -> exists older, seen (history i (obs ++ [(store, now_us)])) = Safe :: older).
Proof.
  cbn zeta. intros Hc Hok Hv.
  destruct (observe_spec (max_age_us policy) (bounds policy) locks (ch2_confirm_samples policy) c store now_us _
              Hsamples Hc Hok Hv) as (Hr & Hi & Hcon & Hne).
  assert (Eh : forall i, history i (obs ++ [(store, now_us)]) =
                see (max_age_us policy) (bounds policy) locks i (history i obs) (store, now_us)).
  { intros i. unfold Telemetry.history. by rewrite foldl_app. }
  split; [eapply implements_ext; [|exact Hi]; intros i _; by rewrite Eh|].
  split; [intros i Hi4 Hs; destruct (Hne i Hi4); by rewrite <- Eh|].
  intros Hg i Hi4. rewrite Eh. apply (streak_zero (ch2_confirm_samples policy)); [done|by apply Hne|].
  by apply (proj1 (proj2 Hcon)).
Qed.

(** A look that passes, and one that leaves the matter open. *)
Lemma judge_spec c obs store now_us :
  implements (ch2_confirm_samples policy) c (fun i => history i obs) -> history_ok (fun i => history i obs) ->
  match judge reported policy after_us locks store now_us c with
  | Passed => forall known, (forall st t, (st, t) ∈ obs ++ [(store, now_us)] -> st ∈ known) ->
      examined_well after_us known obs store now_us
  | Refused report => refused report
  | Undecided observed =>
      implements (ch2_confirm_samples policy) (counters observed) (fun i => history i (obs ++ [(store, now_us)])) /\
      history_ok (fun i => history i (obs ++ [(store, now_us)]))
  end.
Proof.
  intros Hc Hok. pose proof (observe_good c obs store now_us Hc Hok) as Hs. cbn zeta in Hs. unfold judge.
  set (observed := bzm_telemetry_confirmation_observe _ _ _ _ _ _ _) in *.
  pose proof (snapshot_refused chain store now_us after_us) as Hr.
  unfold examined_well.
  destruct (verify_telemetry_snapshot chain store now_us after_us policy locks) as [report|];
    [destruct (_ && _) eqn:E; [prop_bool|by apply Hr]|].
  all: destruct (verdict observed) eqn:Ev; try done; try (by split; apply Hs).
  all: intros known Hk; split; [done|split; [by apply Hs|done]].
Qed.

Lemma confirm_emits remaining store c obs :
  implements (ch2_confirm_samples policy) c (fun i => history i obs) -> history_ok (fun i => history i obs) ->
  emits (confirm reported (traced_ops o) traced_now traced_snapshot policy after_us locks remaining store c)
    (leaves (fun _ _ => False) (fun _ e => exists before last_store now_us,
       examined store e = before ++ [(last_store, now_us)] /\
       examined_well after_us (store :: snapshots e ++ obs.*1) (obs ++ before) last_store now_us)).
Proof.
  revert store c obs. induction remaining as [|n IH]; intros store c obs Hc Hok; cbn [confirm];
    (eapply ends_bind; [apply performs_now|]; intros now_us e1 _ ->);
    pose proof (judge_spec c obs store now_us Hc Hok) as Hj;
    destruct (judge reported policy after_us locks store now_us c) as [|report|observed];
    try (by apply ends_fails); cbn [traced_ops op_delay_ms].
  1,3: apply ends_succeeds; exists [], store, now_us; split; [done|]; rewrite (app_nil_r obs); apply Hj;
    intros st t [Hin|[= -> ->]%list_elem_of_singleton]%elem_of_app; [|by left];
    right; apply elem_of_app; right; apply list_elem_of_fmap; by exists (st, t).
  1: destruct (op_delay_ms o); by apply ends_fails.
  destruct (op_delay_ms o) as [delay|]; cbn [option_map]; [|by apply ends_fails]. destruct Hj as [Hc' Hok'].
  eapply ends_bind; [apply performs_delay|]. intros [] e2 _ ->.
  eapply ends_bind; [apply performs_snapshot|]. intros [[] store'] e3 _ ->; cbn [negb fst snd]; [|by apply ends_fails].
  eapply ends_mono; [apply (IH store' _ (obs ++ [(store, now_us)]) Hc' Hok')|done|].
  intros [] e (before & last_store & now' & He & Hw). exists ((store, now_us) :: before), last_store, now'.
  cbn [app examined snapshots omap list_omap]. rewrite He. split; [done|]. rewrite <- app_assoc in Hw.
  eapply examined_well_known; [|exact Hw]. intros st. rewrite fmap_app. cbn.
  rewrite !elem_of_cons, !elem_of_app. cbn. rewrite list_elem_of_singleton. tauto.
Qed.

(** The first acquisition examines nothing and ends with a snapshot. *)
Lemma acquire_emits attempts store :
  emits (acquire (traced_ops o) traced_snapshot after_us (S attempts) store)
    (leaves (fun _ _ => False) (fun st e => st ∈ snapshots e /\
       forall start, examined start e = [] /\ current_store start e = st)).
Proof.
  revert store. induction attempts as [|n IH]; intros store; cbn [acquire];
    (eapply ends_bind; [apply performs_snapshot|]; intros [[] st] e1 _ ->; cbn [negb fst snd]; [|by apply ends_fails]);
    (destruct (all_post_configuration st after_us); [apply ends_succeeds; split; [left|done]|]).
  { apply ends_succeeds. split; [left|done]. }
  eapply ends_bind; [apply performs_delay_if|]. intros [] e2 _ ->. eapply ends_mono; [apply IH|done|]. intros st' e [H1 H2]. split; [by right|].
  intros start. apply H2.
Qed.
End confirmation.

Lemma verify_telemetry_emits {W} (o : bzm_bringup_ops_t W) reported after_us :
  0 <= ch2_confirm_samples policy ->
  emits (verify_telemetry reported (traced_ops o) policy after_us locks)
    (leaves (fun _ _ => False) (fun _ e => telemetry_safe after_us e)).
Proof.
  intros Hs. unfold verify_telemetry. cbn [traced_ops op_telemetry_snapshot op_now_us].
  destruct (op_telemetry_snapshot o) as [snapshot|], (op_now_us o) as [now|]; cbn [option_map]; try by apply ends_fails.
  eapply ends_bind; [apply acquire_emits|]. intros store e1 _ [Hin Hcur].
  eapply ends_mono; [apply (confirm_emits o now snapshot reported after_us Hs _ store _ []); [apply implements_init|by intros i]|done|].
  intros [] e2 (before & last_store & now_us & He & Hw) Hc. exists last_store, now_us. split.
  - intros start. destruct (Hcur start) as [Hx Hy]. rewrite examined_app, Hx, Hy, He, app_nil_l. by rewrite last_snoc.
  - eapply examined_well_safe; [|exact Hw]. cbn. rewrite app_nil_r.
    intros st1 st2 i H1 H2. apply Hc; unfold snapshots; rewrite omap_app; apply elem_of_app.
    + apply elem_of_cons in H1 as [->|H1]; auto.
    + apply elem_of_cons in H2 as [->|H2]; auto.
Qed.
End telemetry.

(** ** The stages *)

Lemma given_some {A} (test : A -> bool) x a : given test x = Some a -> x = Some a /\ test a = true.
Proof. unfold given. destruct x as [b|]; [|done]. destruct (test b) eqn:E; [|done]. by intros [= <-]. Qed.

Lemma policy_samples p : telemetry_policy_is_valid p = true -> 0 <= ch2_confirm_samples p -> 0 < ch2_confirm_samples p <= 10.
Proof.
  unfold telemetry_policy_is_valid. intros H H0. cbn zeta in H. rewrite !andb_true_iff in H.
  destruct H as (((((((((((((((_ & H1) & H2) & _) & _) & _) & _) & _) & _) & _) & _) & _) & _) & _) & _) & _).
  apply negb_true_iff, Z.eqb_neq in H1. apply Z.leb_le in H2. unfold BZM_CH2_CONFIRM_MAX_SAMPLES in H2. lia.
Qed.

Lemma proved_kept_at e1 e2 id offset v (offsets : list Z) :
  proved e1 id offset v -> Forall (writes_in (fun _ o => o ∈ offsets)) e2 -> offset ∉ offsets ->
  proved (e1 ++ e2) id offset v.
Proof. intros H Hf Hn. eapply proved_kept; [exact H|exact Hf|]. intros a o Ho [-> _]. done. Qed.

Lemma proved_kept_quiet e1 e2 id offset v :
  proved e1 id offset v -> Forall quiet e2 -> proved (e1 ++ e2) id offset v.
Proof. intros H Hf. eapply proved_kept; [exact H|exact Hf|done]. Qed.

Section stages.
Context {W : Type} (o : bzm_bringup_ops_t W).
Abbreviation world := (W * list bringup_event)%type.
Abbreviation result := (bzm_bringup_report_t * bzm_bringup_state_t)%type.

(** A call that changes nothing, and one that runs the stage: it leaves a fallen state,
    or a GOOD report with its evidence. *)
Definition idle (s : bzm_bringup_state_t) : result -> list bringup_event -> Prop :=
  fun '(report, s') e => s' = s /\ e = [] /\ refused report.
Definition staged (F : bringup_event -> Prop) (fallen : bzm_bringup_state_t -> Prop)
    (good : bzm_bringup_state_t -> list bringup_event -> Prop) : result -> list bringup_event -> Prop :=
  fun '(report, s') e => Forall F e /\
    ((refused report /\ fallen s') \/ (outcome report = BZM_BRINGUP_GOOD /\ good s' e)).
Definition called s F fallen good (x : result) (e : list bringup_event) : Prop :=
  idle s x e \/ staged F fallen good x e.

Lemma called_idle s F fallen good report :
  refused report -> emits (W := W) (io_ret (report, s)) (called s F fallen good).
Proof. intros H. apply emits_ret. left. by split. Qed.

Lemma called_staged s F fallen good (m : io world result) :
  emits m (staged F fallen good) -> emits m (called s F fallen good).
Proof. intros H. eapply emits_mono; [exact H|]. by right. Qed.

Lemma staged_good F (fallen : bzm_bringup_state_t -> Prop) (good : bzm_bringup_state_t -> list bringup_event -> Prop) report s :
  outcome report = BZM_BRINGUP_GOOD -> good s [] -> emits (W := W) (io_ret (report, s)) (staged F fallen good).
Proof. intros H1 H2. apply emits_ret. split; [constructor|]. by right. Qed.

Lemma staged_fallen F (fallen : bzm_bringup_state_t -> Prop) good report s :
  refused report -> fallen s -> emits (W := W) (io_ret (report, s)) (staged F fallen good).
Proof. intros H1 H2. apply emits_ret. split; [constructor|]. by left. Qed.

Lemma staged_concludes {A} F (fallen : bzm_bringup_state_t -> Prop) good s
    (m : attempt bzm_bringup_report_t world A) k g :
  emits m (ends F refused g) -> fallen s ->
  (forall a e1, g a e1 -> emits (k a) (staged F fallen (fun s' e2 => good s' (e1 ++ e2)))) ->
  emits (concludes s m k) (staged F fallen good).
Proof.
  intros Hm Hs Hk. apply emits_bind. eapply emits_mono; [exact Hm|]. intros [report|a] e1 [F1 G1].
  - apply emits_ret. rewrite app_nil_r. split; [done|]. by left.
  - eapply emits_mono; [by apply Hk|]. intros [report s'] e2 [F2 H2]. split; [by apply Forall_app|done].
Qed.

Lemma staged_io {A} F (fallen : bzm_bringup_state_t -> Prop) good (m : io world A) (k : A -> io world result) g :
  emits m (fun a e => Forall F e /\ g a e) ->
  (forall a e1, g a e1 -> emits (k a) (staged F fallen (fun s' e2 => good s' (e1 ++ e2)))) ->
  emits (io_bind m k) (staged F fallen good).
Proof.
  intros Hm Hk. apply emits_bind. eapply emits_mono; [exact Hm|]. intros a e1 [F1 G1].
  eapply emits_mono; [by apply Hk|]. intros [report s'] e2 [F2 H2]. split; [by apply Forall_app|done].
Qed.

Lemma staged_now F (fallen : bzm_bringup_state_t -> Prop) good now (k : Z -> io world result) :
  (forall t, F (EvNow t)) ->
  (forall t, emits (k t) (staged F fallen (fun s' e2 => good s' ([EvNow t] ++ e2)))) ->
  emits (io_bind (traced now EvNow) k) (staged F fallen good).
Proof.
  intros HF Hk. eapply (staged_io _ _ _ _ _ (fun t e => e = [EvNow t])).
  - apply emits_traced. intros t. split; [by repeat constructor|done].
  - by intros t e1 ->.
Qed.

Lemma staged_delay F (fallen : bzm_bringup_state_t -> Prop) good ms (k : unit -> io world result) :
  emits (k tt) (staged F fallen good) ->
  emits (io_bind (delay_if (traced_ops o) ms) k) (staged F fallen good).
Proof.
  intros Hk. eapply (staged_io _ _ _ _ _ (fun _ e => e = [])).
  - eapply emits_mono; [apply delay_if_emits|]. intros a e ->. by split.
  - by intros [] e1 ->.
Qed.

Lemma basic_ops_of_traced o' l : basic_ops_are_valid (Some (traced_ops o)) = Some (o', l) ->
  o' = traced_ops o /\ exists w r, l = traced_link w r.
Proof.
  unfold basic_ops_are_valid, registers_of. cbn.
  destruct (op_write_u32 o), (op_read_u32 o); intros [= <- <-]. split; [done|]. by do 2 eexists.
Qed.

(** *** The chain *)

(** Discovery writes the identifier register of the unassigned ASIC only. *)
Definition discovers (address offset : Z) : Prop := address = BZM_BROADCAST_ASIC /\ offset = BZM_LOCAL_REG_ASIC_ID.
Definition chain_evidence (log : list bringup_event) : Prop :=
  forall id, id ∈ bzm_asic_wire_ids -> proved log id BZM_LOCAL_REG_ASIC_ID (Z.lor id 256).

Lemma probe_attempts_emits f attempts :
  emits (probe_attempts (traced_ops o) (fun a => traced (f a) EvProbe) attempts) (fun _ e => Forall quiet e).
Proof.
  induction attempts as [|n IH]; cbn [probe_attempts]; [apply emits_ret; constructor|].
  repeat symbolic_step; try by repeat constructor.
  eapply emits_mono; [apply delay_if_emits|]. intros ? ? ->. eapply emits_mono; [apply IH|].
  intros ? e He. by constructor.
Qed.

Lemma assign_asic_emits w r f x :
  emits (assign_asic (traced_ops o) (traced_link w r) (fun a => traced (f a) EvProbe) x)
    (leaves discovers (fun _ e => proved e (snd x) BZM_LOCAL_REG_ASIC_ID (Z.lor (snd x) 256))).
Proof.
  destruct x as [index id]. unfold assign_asic.
  eapply (ends_bind _ _ _ _ (fun _ _ => True)).
  { apply ends_performs. eapply emits_mono; [apply probe_attempts_emits|]. intros a e He. split; [|done].
    by eapply Forall_impl; [exact He|apply quiet_writes]. }
  intros answer e1 _ _. case_match; [by apply ends_fails|].
  eapply ends_bind; [by apply (write_register_emits w r _ _ _ _ _ _ discovers)|]. intros [] e2 _ _.
  eapply ends_bind; [eapply ends_mono; [apply performs_delay_if|apply quiet_writes|done]|]. intros [] e3 _ ->.
  eapply ends_mono; [apply read_register_emits|apply quiet_writes|]. intros [] e ->.
  do 3 apply proved_later. apply proved_quiet; [left|by repeat constructor].
Qed.

(** What a call leaves: its writes, and its flags with their evidence. *)
Lemma chain4_emits s :
  emits (bzm_bringup_stage_chain4 s (Some (traced_ops o)))
    (called s (writes_in discovers) (fun s' => s' = clear_after_chain s)
       (fun s' e => s' = (clear_after_chain s) <| chain_verified := true |> /\ chain_evidence e)).
Proof.
  unfold bzm_bringup_stage_chain4.
  destruct (basic_ops_are_valid _) as [[o' l]|] eqn:E; [|by apply called_idle].
  apply basic_ops_of_traced in E as (-> & w & r & ->). cbn [traced_ops op_probe_noop].
  destruct (op_probe_noop o) as [f|]; cbn [option_map]; [|by apply called_idle].
  apply called_staged. eapply staged_concludes.
  { apply (ends_for_each chain _ _ _ (fun x e => Forall (writes_in discovers) e /\
      proved e (snd x) BZM_LOCAL_REG_ASIC_ID (Z.lor (snd x) 256))).
    intros x _. apply ends_framed, assign_asic_emits. }
  { done. }
  intros [] e1 (es & -> & Hes). eapply (staged_io _ _ _ _ _ (fun _ e => Forall quiet e)).
  { apply emits_traced. intros a. by split; repeat constructor. }
  intros answer e2 He2. destruct answer; try by apply staged_fallen.
  apply staged_good; [done|]. split; [done|]. rewrite app_nil_r. intros id Hid.
  apply proved_kept_quiet; [|done]. revert id Hid. apply (durable_chain (fun id e => proved e id _ (Z.lor id 256))).
  { split; intros id e1 e3; [apply proved_later|]. intros H Hf. eapply proved_kept; [exact H|exact Hf|].
    by intros a b [H1 H2] [_ [?|?]]. }
  eapply Forall2_impl; [exact Hes|]. intros x e [H1 H2]. split; [|done].
  eapply writes_mono; [exact H1|]. intros a b [-> _]. by right.
Qed.

(** *** The sensors *)

(** The registers of the table, in its order; TDM is enabled again at the end. *)
Definition table_offsets : list Z := (sensor_registers (bzm_bringup_reference_sensor_profile 0) 0).*1.
Definition sensor_offsets : list Z := BZM_LOCAL_REG_IO_PEPS_DRIVE_STRENGTH :: table_offsets.
Definition sensor_writes (_ offset : Z) : Prop := offset ∈ sensor_offsets.

Definition sensor_table_proved (p : bzm_bringup_sensor_profile_t) (id : Z) (e : list bringup_event) : Prop :=
  exists bandgap, forall offset v, (offset, v) ∈ sensor_registers p bandgap ->
    offset <> BZM_LOCAL_REG_UART_TDM_CONTROL -> proved e id offset v.
Definition sensors_evidence (p : bzm_bringup_sensor_profile_t) (e : list bringup_event) : Prop :=
  (forall id, id ∈ bzm_asic_wire_ids -> sensor_table_proved p id e) /\
  proved e BZM_FIRST_ASIC_ID BZM_LOCAL_REG_IO_PEPS_DRIVE_STRENGTH BZM_REFERENCE_BIRDS_IO_PEPS_DRIVE_STRENGTH.

Lemma sensor_table_offsets p bandgap : (sensor_registers p bandgap).*1 = table_offsets.
Proof. done. Qed.

Lemma sensor_table_offset p bandgap offset v : (offset, v) ∈ sensor_registers p bandgap -> offset ∈ table_offsets.
Proof. intros H. rewrite <- (sensor_table_offsets p bandgap). apply list_elem_of_fmap. by exists (offset, v). Qed.

Lemma sensor_table_kept p id e1 e2 (offsets : list Z) :
  sensor_table_proved p id e1 -> Forall (writes_in (fun _ o => o ∈ offsets)) e2 ->
  (forall offset, offset ∈ table_offsets -> offset <> BZM_LOCAL_REG_UART_TDM_CONTROL -> offset ∉ offsets) ->
  sensor_table_proved p id (e1 ++ e2).
Proof.
  intros [bandgap H] Hf Hd. exists bandgap. intros offset v Hin Hn. eapply proved_kept_at; [by apply H|exact Hf|].
  apply Hd; [by eapply sensor_table_offset|done].
Qed.

Lemma sensor_table_durable p : durable (sensor_table_proved p).
Proof. unfold sensor_table_proved. auto 10 with durable. Qed.

Lemma configure_sensors_emits (w : Z -> Z -> Z -> Z -> io W bool) r p x :
  emits (configure_sensors (traced_link w r) p x)
    (leaves (fun a offset => a = snd x /\ offset ∈ table_offsets) (fun _ e => sensor_table_proved p (snd x) e)).
Proof.
  destruct x as [index id]. unfold configure_sensors.
  eapply ends_bind; [eapply ends_mono; [apply read_emits|apply quiet_writes|intros a e He; exact He]|].
  intros [[] bandgap] e1 _ _; cbn [negb]; [|by apply ends_fails].
  eapply ends_mono; [apply write_and_verify_emits|intros e He; exact He|].
  intros [] e2 H. exists bandgap. intros offset v Hin _. by apply proved_later, H.
Qed.

(** The configuration of all ASICs, up to the broadcast that starts TDM. *)
Lemma sensors_configured_emits (w : Z -> Z -> Z -> Z -> io W bool) r p control :
  emits (W := W) (E := bringup_event)
        (let* _ := for_each chain (configure_sensors (traced_link w r) p) in
         let* _ := write_and_verify_registers (traced_link w r) BZM_FIRST_ASIC_ID drive_strength 0 in
         write_register (traced_link w r) BZM_ALL_ASICS BZM_ALL_ASICS 0 BZM_LOCAL_REG_UART_TDM_CONTROL control 0)%attempt
    (leaves sensor_writes (fun _ e => sensors_evidence p e)).
Proof.
  eapply ends_bind.
  { apply (ends_for_each chain _ _ _ (fun x e =>
      Forall (writes_in (fun a offset => a = snd x /\ offset ∈ table_offsets)) e /\ sensor_table_proved p (snd x) e)).
    intros x _. eapply ends_mono; [apply ends_framed, configure_sensors_emits| |auto].
    intros e He. eapply writes_in_mono; [exact He|]. intros a b [_ ?]. by right. }
  intros [] e1 _ (es & -> & Hes). eapply ends_bind.
  { eapply ends_mono; [apply ends_framed, write_and_verify_emits| |intros a e He; exact He].
    intros e He. eapply writes_in_mono; [exact He|]. intros a b [_ ->%list_elem_of_singleton]. by left. }
  intros [] e2 _ [F2 H2]. eapply ends_mono; [apply ends_framed, (write_register_emits w r _ _ _ _ _ _ (fun _ b => b ∈ [BZM_LOCAL_REG_UART_TDM_CONTROL])); by left| |].
  { intros e He. eapply writes_in_mono; [exact He|]. intros a b ->%list_elem_of_singleton. right; left. }
  intros [] e3 [F3 _]. split.
  - intros id Hid. rewrite app_assoc. eapply sensor_table_kept; [eapply sensor_table_kept| |].
    + revert id Hid. apply durable_chain; [apply sensor_table_durable|].
      eapply Forall2_impl; [exact Hes|]. intros x e [Hf Hp]. split; [|done]. eapply writes_mono; [exact Hf|].
      intros a b [-> _]. by left.
    + eapply writes_mono; [exact F2|]. intros a b [_ Hb]. exact Hb.
    + intros offset Hin _ Hd. by eapply lists_disjoint; [|exact Hin|exact Hd].
    + exact F3.
    + intros offset _ Hn ->%list_elem_of_singleton. done.
  - apply proved_later. eapply proved_kept_at; [apply H2; by left|exact F3|by apply (bool_decide_unpack _)].
Qed.

Definition sensors_fallen (s s' : bzm_bringup_state_t) : Prop :=
  exists t, s' = (clear_after_sensors s) <| sensors_configured_us := t |>.

Lemma sensors_emits reported s profile policy :
  (forall p, policy = Some p -> 0 <= ch2_confirm_samples p) ->
  emits (bzm_bringup_stage_sensors reported s (Some (traced_ops o)) profile policy)
    (called s (writes_in sensor_writes) (sensors_fallen s)
       (fun s' e => chain_verified s = true /\ exists t p pol,
          s' = (clear_after_sensors s) <| sensors_configured_us := t |> <| sensors_verified := true |> /\
          profile = Some p /\ sensor_profile_is_valid p = true /\ sensors_evidence p e /\
          policy = Some pol /\ telemetry_safe pol false t e)).
Proof.
  intros Hsamples. unfold bzm_bringup_stage_sensors.
  destruct (basic_ops_are_valid _) as [[o' l]|] eqn:E; [|by apply called_idle].
  apply basic_ops_of_traced in E as (-> & w & r & ->).
  destruct (given _ profile) as [p|] eqn:Ep; [|by apply called_idle]. apply given_some in Ep as [-> Hp].
  destruct (given _ policy) as [pol|] eqn:Epol; [|by apply called_idle]. apply given_some in Epol as [-> Hpol].
  destruct (chain_verified s) eqn:Hchain; cbn [negb]; [|by apply called_idle].
  cbn [traced_ops op_now_us op_telemetry_snapshot].
  destruct (op_now_us o) as [now|]; cbn [option_map]; [|by apply called_idle].
  destruct (op_telemetry_snapshot o) as [snapshot|]; cbn [option_map]; [|by apply called_idle].
  apply called_staged. eapply staged_concludes; [apply sensors_configured_emits|by exists 0|].
  intros [] e1 H1. apply staged_now; [done|]. intros t. apply staged_delay.
  eapply staged_concludes.
  { eapply ends_mono; [apply ends_framed, (verify_telemetry_emits pol false o reported t); by apply Hsamples|apply quiet_writes|intros a e He; exact He]. }
  { by exists t. }
  intros [] e2 [F2 H2]. apply staged_good; [done|]. split; [done|]. exists t, p, pol. rewrite app_nil_r.
  split_and!; try done.
  - destruct H1 as [H1 H1']. assert (F : Forall quiet ([EvNow t] ++ e2)) by (by constructor). split.
    + intros id Hid. eapply (sensor_table_kept _ _ _ _ []); [by apply H1| |intros ? _ _ ?%elem_of_nil; done].
      eapply writes_mono; [exact F|done].
    + by apply proved_kept_quiet.
  - by do 2 apply telemetry_safe_later.
Qed.

(** *** The clocks *)

Definition pll_offsets : list Z :=
  [BZM_LOCAL_REG_PLL0_FBDIV; BZM_LOCAL_REG_PLL0_POSTDIV; BZM_LOCAL_REG_PLL0_ENABLE; 0x1b; 0x1a; 0x1c].
Definition clock_offsets : list Z := BZM_LOCAL_REG_UART_TDM_CONTROL :: dll_disabled.*1 ++ pll_offsets.
Definition clock_writes (_ offset : Z) : Prop := offset ∈ clock_offsets.

(** A PLL of an ASIC runs with these dividers: both were read back, then the lock was
    seen, and none of the three registers was written since. *)
Definition pll_registers (pll : Z) : list Z :=
  pll_register pll <$> [BZM_LOCAL_REG_PLL0_FBDIV; BZM_LOCAL_REG_PLL0_POSTDIV; BZM_LOCAL_REG_PLL0_ENABLE].
Definition pll_running (pll feedback postdiv id : Z) (e : list bringup_event) : Prop :=
  exists before after v, e = before ++ after /\
    proved before id (pll_register pll BZM_LOCAL_REG_PLL0_FBDIV) feedback /\
    proved before id (pll_register pll BZM_LOCAL_REG_PLL0_POSTDIV) postdiv /\
    all_bits v BZM_PLL_LOCK_MASK = true /\ proved after id (pll_register pll BZM_LOCAL_REG_PLL0_ENABLE) v /\
    Forall (untouched id (pll_register pll BZM_LOCAL_REG_PLL0_FBDIV)) after /\
    Forall (untouched id (pll_register pll BZM_LOCAL_REG_PLL0_POSTDIV)) after.
Definition dll_off (id : Z) (e : list bringup_event) : Prop :=
  forall offset v, (offset, v) ∈ dll_disabled -> proved e id offset v.
Definition clocks_evidence (id : Z) (e : list bringup_event) : Prop :=
  (pll_running 0 128 0x1242 id e /\ pll_running 1 128 0x1242 id e) /\ dll_off id e.

Lemma pll_running_later pll feedback postdiv id e1 e2 :
  pll_running pll feedback postdiv id e2 -> pll_running pll feedback postdiv id (e1 ++ e2).
Proof.
  intros (b & a & v & -> & H1 & H2 & H). exists (e1 ++ b), a, v. rewrite app_assoc.
  split_and!; try (by apply proved_later); done || apply H.
Qed.

Lemma pll_running_untouched pll feedback postdiv id e1 e2 :
  pll_running pll feedback postdiv id e1 ->
  (forall offset, offset ∈ pll_registers pll -> Forall (untouched id offset) e2) ->
  pll_running pll feedback postdiv id (e1 ++ e2).
Proof.
  intros (b & a & v & -> & H1 & H2 & Hv & H3 & F1 & F2) Hf. exists b, (a ++ e2), v. rewrite <- app_assoc.
  split_and!; try done; [apply proved_untouched; [done|]|apply Forall_app; split; [done|]..];
    apply Hf; [by do 2 right; left|by left|by right; left].
Qed.

Lemma pll_running_durable pll feedback postdiv : durable (pll_running pll feedback postdiv).
Proof.
  split; intros id e1 e2 H; [by apply pll_running_later|]. intros Hf. apply pll_running_untouched; [done|].
  intros offset _. eapply writes_untouched; [exact Hf|]. by intros a b [? ?] [_ [?|?]].
Qed.

Lemma clocks_durable : durable clocks_evidence.
Proof. unfold clocks_evidence, dll_off. auto 10 using pll_running_durable with durable. Qed.

Lemma pll_running_kept pll feedback postdiv id e1 e2 (P : Z -> Z -> Prop) :
  pll_running pll feedback postdiv id e1 -> Forall (writes_in P) e2 ->
  (forall offset a o, offset ∈ pll_offsets -> P a o -> ~ reaches id offset a o) -> pll = 0 \/ pll = 1 ->
  pll_running pll feedback postdiv id (e1 ++ e2).
Proof.
  intros H Hf Hd Hp. apply pll_running_untouched; [done|]. intros offset Ho.
  eapply writes_untouched; [exact Hf|]. intros a b. apply Hd. revert offset Ho. apply Forall_forall.
  destruct Hp as [-> | ->]; by apply (bool_decide_unpack _).
Qed.

(** Registers read back, then a lock seen, with no write in between. *)
Lemma pll_running_read pll feedback postdiv id e1 e2 v :
  proved e1 id (pll_register pll BZM_LOCAL_REG_PLL0_FBDIV) feedback ->
  proved e1 id (pll_register pll BZM_LOCAL_REG_PLL0_POSTDIV) postdiv ->
  all_bits v BZM_PLL_LOCK_MASK = true -> proved e2 id (pll_register pll BZM_LOCAL_REG_PLL0_ENABLE) v ->
  Forall quiet e2 -> pll_running pll feedback postdiv id (e1 ++ e2).
Proof.
  intros. exists e1, e2, v. split_and!; try done; (eapply writes_untouched; [done|]); done.
Qed.

(** The dividers of a PLL of one ASIC, written and read back. *)
Definition divider_offset (pll offset : Z) : Prop :=
  offset = pll_register pll BZM_LOCAL_REG_PLL0_FBDIV \/ offset = pll_register pll BZM_LOCAL_REG_PLL0_POSTDIV.

Lemma program_dividers_emits (w : Z -> Z -> Z -> Z -> io W bool) r address about pll feedback postdiv completed :
  emits (program_dividers (traced_link w r) address about pll feedback postdiv completed)
    (leaves (fun a offset => a = address /\ divider_offset pll offset) (fun _ _ => True)).
Proof.
  unfold program_dividers. eapply ends_bind; [apply requires_write_emits; [done|split; [done|by left]]|].
  intros [] e1 _ _. apply requires_write_emits; [done|split; [done|by right]].
Qed.

Lemma verify_dividers_emits (w : Z -> Z -> Z -> Z -> io W bool) r asic pll feedback postdiv completed :
  emits (verify_dividers (traced_link w r) asic pll feedback postdiv completed)
    (ends quiet refused (fun _ e => Forall quiet e /\
       proved e asic (pll_register pll BZM_LOCAL_REG_PLL0_FBDIV) feedback /\
       proved e asic (pll_register pll BZM_LOCAL_REG_PLL0_POSTDIV) postdiv)).
Proof.
  eapply ends_mono; [apply read_registers_emits|done|]. intros [] e [Hq H].
  split; [done|split; apply H; [left|right; left]].
Qed.

Definition lock_seen (asic pll : Z) (q : bool * Z) (e : list bringup_event) : Prop :=
  fst q = true -> exists v, all_bits v BZM_PLL_LOCK_MASK = true /\
    proved e asic (pll_register pll BZM_LOCAL_REG_PLL0_ENABLE) v.

Lemma lock_seen_later asic pll q e1 e2 : lock_seen asic pll q e2 -> lock_seen asic pll q (e1 ++ e2).
Proof. intros H Hq. destruct (H Hq) as (v & ? & ?). exists v. split; [done|by apply proved_later]. Qed.

Lemma poll_lock_emits (w : Z -> Z -> Z -> Z -> io W bool) r asic pll old completed :
  emits (poll_lock (traced_link w r) asic pll old completed)
    (ends quiet refused (fun q e => Forall quiet e /\ lock_seen asic pll q e)).
Proof.
  unfold poll_lock. eapply ends_bind; [apply read_emits|]. intros [[] value] e1 _ ->; cbn [negb]; [|by apply ends_fails].
  apply ends_succeeds. split; [by repeat constructor|]. intros Hv. exists value. split; [done|].
  apply proved_quiet; [left|by repeat constructor].
Qed.

Lemma wait_for_locks_emits (w : Z -> Z -> Z -> Z -> io W bool) r asic delay completed attempts pll0 pll1 :
  emits (wait_for_locks (traced_ops o) (traced_link w r) asic delay completed attempts pll0 pll1)
    (ends quiet refused (fun q e => (q = (pll0, pll1) /\ e = []) \/
       (lock_seen asic 0 (fst q) e /\ lock_seen asic 1 (snd q) e))).
Proof.
  revert pll0 pll1. induction attempts as [|n IH]; intros pll0 pll1; cbn [wait_for_locks]; [apply ends_succeeds; by left|].
  case_match; [apply ends_succeeds; by left|].
  eapply ends_bind; [apply poll_lock_emits|]. intros q0 e1 _ [_ H0].
  eapply ends_bind; [apply poll_lock_emits|]. intros q1 e2 _ [Q1 H1].
  eapply (ends_bind _ _ _ _ (fun _ e => e = [])).
  { case_match; [apply performs_delay_if|]. apply ends_performs, emits_ret. by split. }
  intros [] e3 _ ->. eapply ends_mono; [apply IH|done|]. intros q e [[-> ->]|[G0 G1]]; right.
  - rewrite !app_nil_r. split; [|by apply lock_seen_later]. intros Hq. destruct (H0 Hq) as (v & ? & ?).
    exists v. split; [done|]. by apply proved_kept_quiet.
  - split; by do 3 apply lock_seen_later.
Qed.

Lemma require_lock_emits asic pll completed q :
  emits (W := W) (E := bringup_event) (require_lock asic pll completed q)
    (ends quiet refused (fun _ e => fst q = true /\ e = [])).
Proof.
  unfold require_lock. destruct (fst q); cbn [negb]; [by apply ends_succeeds|by apply ends_fails].
Qed.

(** A write of an iteration to its own ASIC. *)
Definition own_clock_writes (id a offset : Z) : Prop := a = id /\ offset ∈ clock_offsets.

Lemma divider_offset_clock pll offset : pll = 0 \/ pll = 1 -> divider_offset pll offset -> offset ∈ clock_offsets.
Proof. intros [-> | ->] [-> | ->]; by apply (bool_decide_unpack _). Qed.

Lemma pll_cases pll : pll ∈ plls -> pll = 0 \/ pll = 1.
Proof. intros [-> |[-> |?%elem_of_nil]%elem_of_cons]%elem_of_cons; auto. done. Qed.

Lemma program_plls_emits (w : Z -> Z -> Z -> Z -> io W bool) r p id index :
  emits (program_plls (traced_ops o) (traced_link w r) p id index) (leaves (own_clock_writes id) (fun _ _ => True)).
Proof.
  assert (Henable : forall value, emits (for_each plls (fun pll =>
      write_register (traced_link w r) id id pll (pll_register pll BZM_LOCAL_REG_PLL0_ENABLE) value index))
      (leaves (own_clock_writes id) (fun _ _ => True))).
  { intros value. eapply ends_mono; [apply (ends_for_each plls _ _ _ (fun _ _ => True))|done|done].
    intros pll Hpll. apply write_register_emits. split; [done|].
    destruct (pll_cases pll Hpll) as [-> | ->]; by apply (bool_decide_unpack _). }
  unfold program_plls. eapply ends_bind; [apply Henable|]. intros [] e1 _ _. eapply ends_bind.
  { apply (ends_for_each plls _ _ _ (fun _ _ => True)). intros pll Hpll.
    eapply ends_mono; [apply program_dividers_emits| |done]. intros e He. eapply writes_in_mono; [exact He|].
    intros a b [-> Hb]. split; [done|]. eapply divider_offset_clock; [by apply pll_cases|done]. }
  intros [] e2 _ _. eapply ends_bind; [eapply ends_mono; [apply performs_delay_if|apply quiet_writes|done]|].
  intros [] e3 _ _. apply Henable.
Qed.

Lemma verify_plls_emits (w : Z -> Z -> Z -> Z -> io W bool) r p id index :
  emits (verify_plls (traced_ops o) (traced_link w r) p id index)
    (ends quiet refused (fun _ e =>
       pll_running 0 (feedback_divider p) (postdiv_register p) id e /\
       pll_running 1 (feedback_divider p) (postdiv_register p) id e)).
Proof.
  unfold verify_plls. eapply ends_bind.
  { apply (ends_for_each plls _ _ _ (fun pll e => Forall quiet e /\
      proved e id (pll_register pll BZM_LOCAL_REG_PLL0_FBDIV) (feedback_divider p) /\
      proved e id (pll_register pll BZM_LOCAL_REG_PLL0_POSTDIV) (postdiv_register p))).
    intros pll _. apply verify_dividers_emits. }
  intros [] e1 _ (es & -> & Hes).
  apply Forall2_cons_inv_l in Hes as (ea & es' & (_ & A1 & A2) & Hes & ->).
  apply Forall2_cons_inv_l in Hes as (eb & es'' & (Qb & B1 & B2) & ->%Forall2_nil_inv_l & ->).
  cbn [concat]. rewrite app_nil_r. eapply ends_bind; [apply ends_framed, wait_for_locks_emits|].
  intros [q0 q1] e2 _ [Q2 H2].
  eapply ends_bind; [apply require_lock_emits|]. intros [] e3 _ [H0 ->].
  eapply ends_mono; [apply require_lock_emits|done|]. intros [] e4 [H1 ->]. rewrite !app_nil_r.
  destruct H2 as [[[= -> ->] _]|[L0 L1]]; [done|]. cbn [fst snd] in L0, L1.
  destruct (L0 H0) as (v0 & ? & ?), (L1 H1) as (v1 & ? & ?). split.
  - by apply (pll_running_read 0 _ _ id _ _ v0); [apply proved_kept_quiet..| | |].
  - by apply (pll_running_read 1 _ _ id _ _ v1); [apply proved_later..| | |].
Qed.

Lemma exact_profile_dividers p : pll_profile_is_exact_800 p = true ->
  feedback_divider p = 128 /\ postdiv_register p = 0x1242.
Proof.
  unfold pll_profile_is_exact_800. rewrite !andb_true_iff, !Z.eqb_eq. tauto.
Qed.

Lemma configure_clocks_emits (w : Z -> Z -> Z -> Z -> io W bool) r gap p x :
  pll_profile_is_exact_800 p = true ->
  emits (configure_clocks gap (traced_ops o) (traced_link w r) p x)
    (leaves (own_clock_writes (snd x)) (fun _ e => clocks_evidence (snd x) e)).
Proof.
  intros [Efb Epd]%exact_profile_dividers. destruct x as [index id]. unfold configure_clocks. cbn [snd].
  eapply ends_bind; [apply program_plls_emits|]. intros [] e1 _ _.
  eapply ends_bind; [eapply ends_mono; [apply verify_plls_emits|apply quiet_writes|intros a e He; exact He]|].
  rewrite Efb, Epd. intros [] e2 _ [H0 H1]. eapply ends_bind.
  { eapply ends_mono; [apply ends_framed, write_and_verify_emits| |intros a e He; exact He].
    intros e He. eapply writes_in_mono; [exact He|]. intros a b [-> Hb]. split; [done|].
    unfold clock_offsets. rewrite elem_of_cons, elem_of_app. auto. }
  intros [] e3 _ [F3 H3]. eapply ends_mono; [apply ends_framed, read_registers_emits|apply quiet_writes|].
  intros [] e4 [Q4 _]. split.
  - assert (Hk : forall pll, pll = 0 \/ pll = 1 -> pll_running pll 128 0x1242 id e2 ->
      pll_running pll 128 0x1242 id (e1 ++ e2 ++ e3 ++ e4)).
    { intros pll Hpll Hr. apply (proj1 (pll_running_durable pll 128 0x1242)).
      eapply pll_running_kept; [exact Hr|apply Forall_app; split; [exact F3|by eapply Forall_impl; [exact Q4|apply quiet_writes]]| |done].
      intros offset a b Hin [_ Hb] [-> _]. by eapply lists_disjoint; [|exact Hin|exact Hb]. }
    split; apply Hk; auto.
  - intros offset v Hin. do 2 apply proved_later. apply proved_kept_quiet; [by apply H3|done].
Qed.

(** A loop that reads one register of every ASIC. *)
Lemma read_chain_emits (w : Z -> Z -> Z -> Z -> io W bool) r why offset want :
  emits (for_each chain (fun '(index, id) => read_register (traced_link w r) why id 0 offset want index))
    (ends quiet refused (fun _ _ => True)).
Proof.
  eapply ends_mono; [apply (ends_for_each chain _ _ _ (fun _ _ => True))|done|done].
  intros [index id] _. by eapply ends_mono; [apply read_register_emits| |].
Qed.

Definition tdm_writes (_ offset : Z) : Prop := offset ∈ [BZM_LOCAL_REG_UART_TDM_CONTROL].

Lemma broadcast_tdm_emits (w : Z -> Z -> Z -> Z -> io W bool) r control :
  emits (broadcast_tdm (traced_link w r) control) (leaves tdm_writes (fun _ _ => True)).
Proof. apply write_register_emits. by left. Qed.

Lemma tdm_clock_writes e : writes_in tdm_writes e -> writes_in clock_writes e.
Proof. intros H. eapply writes_in_mono; [exact H|]. intros a b ->%list_elem_of_singleton. by left. Qed.

Lemma clocks_configured_emits (w : Z -> Z -> Z -> Z -> io W bool) r gap p control :
  pll_profile_is_exact_800 p = true ->
  emits (W := W) (E := bringup_event)
    (let* _ := broadcast_tdm (traced_link w r) (tdm_disabled control) in
     let* _ := for_each chain (fun '(index, id) =>
       read_register (traced_link w r) BZM_BRINGUP_REASON_REGISTER_READBACK id 0 BZM_LOCAL_REG_UART_TDM_CONTROL
         (tdm_disabled control) index) in
     let* _ := for_each chain (configure_clocks gap (traced_ops o) (traced_link w r) p) in
     broadcast_tdm (traced_link w r) control)%attempt
    (leaves clock_writes (fun _ e => forall id, id ∈ bzm_asic_wire_ids -> clocks_evidence id e)).
Proof.
  intros Hp. eapply ends_bind; [eapply ends_mono; [apply broadcast_tdm_emits|apply tdm_clock_writes|done]|].
  intros [] e1 _ _. eapply ends_bind; [eapply ends_mono; [apply read_chain_emits|apply quiet_writes|done]|].
  intros [] e2 _ _. eapply ends_bind.
  { apply (ends_for_each chain _ _ _ (fun x e =>
      Forall (writes_in (own_clock_writes (snd x))) e /\ clocks_evidence (snd x) e)).
    intros x _. eapply ends_mono; [by apply ends_framed, configure_clocks_emits| |auto].
    intros e He. eapply writes_in_mono; [exact He|]. by intros a b [_ ?]. }
  intros [] e3 _ (es & -> & Hes). eapply ends_mono; [apply ends_framed, broadcast_tdm_emits|apply tdm_clock_writes|].
  intros [] e4 [F4 _] id Hid. do 2 apply (proj1 clocks_durable).
  assert (H : clocks_evidence id (concat es)).
  { revert id Hid. apply durable_chain; [apply clocks_durable|]. eapply Forall2_impl; [exact Hes|].
    intros x e [Hf Hc]. split; [|done]. eapply writes_mono; [exact Hf|]. intros a b [-> _]. by left. }
  destruct H as [[H0 H1] H2]. split; [split|].
  1,2: eapply pll_running_kept; [done|exact F4| |auto]; intros offset a b Hin Hb [-> _];
    by eapply lists_disjoint; [|exact Hin|exact Hb].
  intros offset v Hin. eapply proved_kept_at; [by apply H2|exact F4|]. intros Hb.
  assert (Hd : offset ∈ dll_disabled.*1) by (apply list_elem_of_fmap; by exists (offset, v)).
  by eapply lists_disjoint; [|exact Hd|exact Hb].
Qed.

Definition clocks_fallen (s s' : bzm_bringup_state_t) : Prop :=
  exists t, s' = (clear_after_clocks s) <| clocks_configured_us := t |>.

Lemma clocks_emits gap reported s profile policy :
  (forall p, policy = Some p -> 0 <= ch2_confirm_samples p) ->
  emits (bzm_bringup_stage_clocks gap reported s (Some (traced_ops o)) profile policy)
    (called s (writes_in clock_writes) (clocks_fallen s)
       (fun s' e => sensors_verified s = true /\ exists t pol,
          s' = set_all_domain_clocks ((clear_after_clocks s) <| clocks_configured_us := t |> <| clocks_verified := true |>)
                 BZM_FREQUENCY_POWER_ON_MHZ /\
          (forall id, id ∈ bzm_asic_wire_ids -> clocks_evidence id e) /\
          policy = Some pol /\ telemetry_safe pol true t e)).
Proof.
  intros Hsamples. unfold bzm_bringup_stage_clocks.
  destruct (basic_ops_are_valid _) as [[o' l]|] eqn:E; [|by apply called_idle].
  apply basic_ops_of_traced in E as (-> & w & r & ->).
  destruct (given _ profile) as [p|] eqn:Ep; [|by apply called_idle]. apply given_some in Ep as [-> Hp].
  destruct (given _ policy) as [pol|] eqn:Epol; [|by apply called_idle]. apply given_some in Epol as [-> Hpol].
  destruct (sensors_verified s) eqn:Hsensors; cbn [negb]; [|by apply called_idle].
  cbn [traced_ops op_now_us op_telemetry_snapshot].
  destruct (op_now_us o) as [now|]; cbn [option_map]; [|by apply called_idle].
  destruct (op_telemetry_snapshot o) as [snapshot|]; cbn [option_map]; [|by apply called_idle].
  apply called_staged. eapply staged_concludes; [by apply clocks_configured_emits|by exists 0|].
  intros [] e1 H1. apply staged_now; [done|]. intros t. eapply staged_concludes.
  { eapply ends_mono; [apply ends_framed, (verify_telemetry_emits pol true o reported t); by apply Hsamples|apply quiet_writes|intros a e He; exact He]. }
  { by exists t. }
  intros [] e2 [F2 H2]. apply staged_good; [done|]. split; [done|]. exists t, pol. rewrite app_nil_r.
  split_and!; try done; [|by do 2 apply telemetry_safe_later].
  intros id Hid. destruct clocks_durable as [_ Hk]. apply Hk; [by apply H1|].
  eapply Forall_impl; [|intros e He; apply quiet_writes, He]. by constructor.
Qed.

(** *** Result reporting and the running check *)

Definition reporting_writes (_ offset : Z) : Prop := offset = BZM_LOCAL_REG_RESULT_STATUS_CONTROL.
Definition reporting_evidence (value : Z) (e : list bringup_event) : Prop :=
  forall id, id ∈ bzm_asic_wire_ids -> proved e id BZM_LOCAL_REG_RESULT_STATUS_CONTROL value.

Lemma result_reporting_emits (w : Z -> Z -> Z -> Z -> io W bool) r value completed :
  emits (result_reporting (traced_link w r) value completed)
    (leaves reporting_writes (fun _ e => reporting_evidence value e)).
Proof.
  eapply ends_mono; [apply (ends_for_each chain _ _ _ (fun x e =>
    Forall (writes_in (fun a b => a = snd x /\ b ∈ [BZM_LOCAL_REG_RESULT_STATUS_CONTROL])) e /\
    proved e (snd x) BZM_LOCAL_REG_RESULT_STATUS_CONTROL value))|done|].
  { intros [index id] _. eapply ends_mono; [apply ends_framed, write_and_verify_emits| |].
    - intros e He. eapply writes_in_mono; [exact He|]. by intros a b [_ ->%list_elem_of_singleton].
    - intros [] e [Hf H]. split; [exact Hf|]. apply H. left. }
  intros [] e (es & -> & Hes) id Hid. revert id Hid.
  apply (durable_chain (fun id e => proved e id _ value)); [apply durable_proved|].
  eapply Forall2_impl; [exact Hes|]. intros x e [Hf H]. split; [|done]. eapply writes_mono; [exact Hf|].
  intros a b [-> _]. by left.
Qed.

Lemma reporting_kept value e1 e2 : reporting_evidence value e1 -> Forall quiet e2 -> reporting_evidence value (e1 ++ e2).
Proof. intros H Hq id Hid. apply proved_kept_quiet; [by apply H|done]. Qed.

Lemma registers_of_traced l : registers_of (traced_ops o) = Some l -> exists w r, l = traced_link w r.
Proof.
  unfold registers_of. cbn. destruct (op_write_u32 o), (op_read_u32 o); intros [= <-]. by do 2 eexists.
Qed.

Lemma running_emits reported s policy :
  (forall p, policy = Some p -> 0 <= ch2_confirm_samples p) ->
  emits (bzm_bringup_check_running reported s (Some (traced_ops o)) policy)
    (called s (writes_in reporting_writes) (fun s' => s' = s <| running_verified := false |>)
       (fun s' e => balanced_ramp_verified s = true /\ s' = s <| running_verified := true |> /\
          reporting_evidence BZM_RESULT_REPORT_ENABLED e /\
          exists pol t, policy = Some pol /\ telemetry_safe pol true t e)).
Proof.
  intros Hsamples. unfold bzm_bringup_check_running. rewrite topology_exact.
  destruct (given _ policy) as [pol|] eqn:Epol; [|by apply called_idle]. apply given_some in Epol as [-> Hpol].
  apply called_staged. cbn [balanced_ramp_verified set_field].
  destruct (balanced_ramp_verified s) eqn:Hramp; cbn [negb]; [|by apply staged_fallen].
  cbn [negb].
  destruct (registers_of (traced_ops o)) as [l|] eqn:E; [|by apply staged_fallen].
  destruct (registers_of_traced l E) as (w & r & ->). cbn [traced_ops op_now_us op_telemetry_snapshot].
  destruct (op_now_us o) as [now|]; cbn [option_map]; [|by apply staged_fallen].
  destruct (op_telemetry_snapshot o) as [snapshot|]; cbn [option_map]; [|by apply staged_fallen].
  eapply staged_concludes; [|done|].
  { eapply ends_bind; [apply result_reporting_emits|]. intros [] e1 _ H1.
    eapply ends_bind; [eapply ends_mono; [apply performs_now|apply quiet_writes|intros a e He; exact He]|].
    intros t e2 _ ->. eapply ends_mono; [apply ends_framed, (verify_telemetry_emits pol true o reported t); by apply Hsamples
      |apply quiet_writes|].
    intros [] e3 [Q3 H3]. instantiate (1 := fun _ e => reporting_evidence BZM_RESULT_REPORT_ENABLED e /\
      exists t, telemetry_safe pol true t e). split; [|exists t; by do 2 apply telemetry_safe_later].
    apply reporting_kept; [done|]. by constructor. }
  intros [] e1 [H1 [t Ht]]. apply staged_good; [done|]. rewrite app_nil_r. split_and!; try done. by exists pol, t.
Qed.

(** *** The ramp *)

Definition ramp_frame (e : bringup_event) : Prop :=
  match e with EvWrite _ _ offset _ _ => offset = BZM_LOCAL_REG_RESULT_STATUS_CONTROL | _ => True end.

(** The calls of the activation, as operations of [BalancedRamp]. *)
Definition ramp_call (e : bringup_event) : option ramp_op :=
  match e with
  | EvCommit asic p _ => Some (Commit asic (pair_index p))
  | EvBarrier n k _ => Some (Barrier n k)
  | _ => None
  end.
Definition ramp_calls (e : list bringup_event) : list ramp_op := omap ramp_call e.

(** One pair: bracketed commits on all four ASICs, then the proof of telemetry taken
    after them. *)
Definition pair_segment (pol : bzm_bringup_telemetry_policy_t) (index : Z) (e : list bringup_event) : Prop :=
  exists p t tele, bzm_topology_balanced_pair_at index = Some p /\
    e = EvBatchBegin index true :: ((fun id => EvCommit id p true) <$> bzm_asic_wire_ids) ++
        EvBatchEnd index true :: EvNow t :: tele /\
    Forall quiet tele /\ telemetry_safe pol true t tele.

Lemma quiet_calls e : Forall quiet e -> ramp_calls e = [].
Proof. induction 1 as [|[] e He _ IH]; cbn; done. Qed.

Lemma quiet_ramp_frame e : Forall quiet e -> Forall ramp_frame e.
Proof. intros H. eapply Forall_impl; [exact H|]. by intros [] He. Qed.

Lemma reporting_ramp_frame e : writes_in reporting_writes e -> ramp_frame e.
Proof. by destruct e. Qed.

Lemma reporting_calls e : Forall (writes_in reporting_writes) e -> ramp_calls e = [].
Proof. induction 1 as [|[] e He _ IH]; cbn; done. Qed.

Lemma ramp_calls_app e1 e2 : ramp_calls (e1 ++ e2) = ramp_calls e1 ++ ramp_calls e2.
Proof. apply omap_app. Qed.

Lemma pair_index_at index p : bzm_topology_balanced_pair_at index = Some p -> pair_index p = index.
Proof. unfold bzm_topology_balanced_pair_at. repeat case_match; try done. by intros [= <-]. Qed.

Lemma segment_calls pol index e : pair_segment pol index e -> ramp_calls e = pair_commits index.
Proof.
  intros (p & t & tele & Hp & -> & Hq & _). cbn. change (omap ramp_call tele) with (ramp_calls tele).
  by rewrite quiet_calls, (pair_index_at _ _ Hp) by done.
Qed.

Section ramp.
Context (begin_ : Z -> io W bool) (commit : Z -> bzm_engine_pair_t -> io W bool) (end_ : Z -> io W bool)
  (barrier : Z -> Z -> io W bool).
Definition traced_hooks : ramp_hooks :=
  mk_ramp_hooks (fun i => traced (begin_ i) (EvBatchBegin i)) (fun a p => traced (commit a p) (EvCommit a p))
    (fun i => traced (end_ i) (EvBatchEnd i)) (fun n k => traced (barrier n k) (EvBarrier n k)).
Context (pol : bzm_bringup_telemetry_policy_t) (reported : bool) (now : io W Z).
Context (Hsamples : 0 <= ch2_confirm_samples pol).

(** Part of a stretch of calls, or the whole of it. *)
Definition ramp_ends {A} (calls : list ramp_op) (good : A -> list bringup_event -> Prop)
    (res : bzm_bringup_report_t + A) (e : list bringup_event) : Prop :=
  Forall ramp_frame e /\
  match res with
  | inl report => refused report /\ ramp_calls e `prefix_of` calls
  | inr a => good a e /\ ramp_calls e = calls
  end.

Lemma ramp_bind {A B} (m : attempt bzm_bringup_report_t world A) (k : A -> attempt bzm_bringup_report_t world B)
    calls1 calls2 g h :
  emits m (ramp_ends calls1 g) ->
  (forall a e1, g a e1 -> emits (k a) (ramp_ends calls2 (fun b e2 => h b (e1 ++ e2)))) ->
  emits (attempt_bind m k) (ramp_ends (calls1 ++ calls2) h).
Proof.
  intros Hm Hk. apply emits_attempt. eapply emits_mono; [exact Hm|]. intros [report|a] e1 (F1 & H1 & C1).
  - split; [done|]. split; [done|]. by apply prefix_app_r.
  - eapply emits_mono; [by apply Hk|]. intros [report|b] e2 (F2 & H2 & C2); (split; [by apply Forall_app|]);
      rewrite ramp_calls_app, C1; (split; [done|]); [by apply prefix_app|by rewrite C2].
Qed.

Lemma ramp_requires (m : io W bool) ev report call :
  refused report -> (forall ok, ramp_frame (ev ok)) -> (forall ok, ramp_calls [ev ok] = call) ->
  emits (requires (traced m ev) report) (ramp_ends call (fun _ e => e = [ev true])).
Proof.
  intros Hr Hf Hc. apply emits_requires, emits_traced. intros [].
  - split; [by constructor|]. by split.
  - split; [by constructor|]. split; [done|]. by rewrite Hc.
Qed.

Lemma ramp_quiet {A} (m : attempt bzm_bringup_report_t world A) g :
  emits m (ends quiet refused g) -> emits m (ramp_ends [] (fun a e => Forall quiet e /\ g a e)).
Proof.
  intros H. eapply emits_mono; [exact H|]. intros [report|a] e [Hq Hg].
  - split; [by apply quiet_ramp_frame|]. split; [done|]. by rewrite quiet_calls.
  - split; [by apply quiet_ramp_frame|]. split; [done|by apply quiet_calls].
Qed.

Lemma pair_commits_emits p index ids completed :
  emits (commit_pair traced_hooks p index ids completed)
    (ramp_ends ((fun id => Commit id (pair_index p)) <$> ids)
       (fun _ e => e = (fun id => EvCommit id p true) <$> ids)).
Proof.
  revert completed. induction ids as [|id ids IH]; intros completed; cbn [commit_pair].
  { apply emits_succeeds. by split. }
  apply (ramp_bind _ _ [Commit id (pair_index p)] _ (fun _ e => e = [EvCommit id p true])).
  - by apply (ramp_requires (commit id p) (EvCommit id p)).
  - intros a e1 ->. eapply emits_mono; [apply IH|]. intros [report|c] e (F & H & C); [by split_and!|].
    split; [done|]. split; [by rewrite H|done].
Qed.

Lemma ramp_pair_emits index completed :
  emits (ramp_pair reported (traced_ops o) traced_hooks (traced now EvNow) pol index completed)
    (ramp_ends (pair_commits index) (fun _ e => pair_segment pol index e)).
Proof.
  unfold ramp_pair. destruct (bzm_topology_balanced_pair_at index) as [p|] eqn:Hp.
  2:{ apply emits_fails. split; [constructor|]. split; [done|apply prefix_nil]. }
  apply (ramp_bind _ _ [] (pair_commits index) (fun _ e => e = [EvBatchBegin index true])).
  { by apply (ramp_requires (begin_ index) (EvBatchBegin index)). }
  intros a e1 ->. rewrite <- (app_nil_r (pair_commits index)).
  eapply ramp_bind.
  { eapply emits_mono; [apply (pair_commits_emits p index bzm_asic_wire_ids completed)|].
    intros x e H. rewrite (pair_index_at _ _ Hp) in H. exact H. }
  intros completed' e2 ->. apply (ramp_bind _ _ [] [] (fun _ e => e = [EvBatchEnd index true])).
  { by apply (ramp_requires (end_ index) (EvBatchEnd index)). }
  intros b e3 ->. eapply (ramp_bind _ _ [] []); [apply ramp_quiet, performs_now|].
  intros t e4 [_ ->]. eapply (ramp_bind _ _ [] []).
  { apply emits_bind. eapply emits_mono; [apply ramp_quiet, (verify_telemetry_emits pol true o reported t Hsamples)|].
    intros [report|u] e (F & H); apply emits_ret; rewrite app_nil_r; (split; [exact F|exact H]). }
  intros [] e5 [Q5 H5]. apply emits_succeeds. split; [constructor|]. split; [|done].
  exists p, t, e5. rewrite app_nil_r. by split_and!.
Qed.

Lemma ramp_pairs_emits indices completed :
  emits (ramp_pairs reported (traced_ops o) traced_hooks (traced now EvNow) pol indices completed)
    (ramp_ends (concat (pair_commits <$> indices))
       (fun _ e => exists segments, e = concat segments /\ Forall2 (pair_segment pol) indices segments)).
Proof.
  revert completed. induction indices as [|index indices IH]; intros completed; cbn [ramp_pairs].
  { apply emits_succeeds. split; [constructor|]. split; [|done]. exists []. by split. }
  rewrite fmap_cons. cbn [concat]. eapply ramp_bind; [apply ramp_pair_emits|]. intros c e1 H1.
  eapply emits_mono; [apply IH|]. intros [report|c'] e (F & H & C); [by split|].
  split; [done|]. split; [|done]. destruct H as (segments & -> & Hs). exists (e1 :: segments). split; [done|by constructor].
Qed.
(** The whole activation: reporting off, the pairs in order, the barrier. *)
Definition ramp_evidence (e : list bringup_event) : Prop :=
  exists prelude segments, e = prelude ++ concat segments ++ [EvBarrier 4 118 true] /\
    Forall (writes_in reporting_writes) prelude /\ reporting_evidence BZM_RESULT_REPORT_DISABLED prelude /\
    Forall2 (pair_segment pol) (seqZ 0 118) segments.

Lemma activation_emits (w : Z -> Z -> Z -> Z -> io W bool) r report :
  (forall completed, refused (report completed)) ->
  emits (let* _ := result_reporting (traced_link w r) BZM_RESULT_REPORT_DISABLED (fun _ => 0) in
         let* completed := ramp_pairs reported (traced_ops o) traced_hooks (traced now EvNow) pol
                             (seqZ 0 BZM_TOPOLOGY_PAIR_COUNT) 0 in
         let* _ := requires (activation_barrier traced_hooks BZM_BRINGUP_ASIC_COUNT BZM_TOPOLOGY_PAIR_COUNT)
                     (report completed) in
         succeeds completed)%attempt
    (ramp_ends ramp_script (fun _ e => ramp_evidence e)).
Proof.
  intros Hr. apply (ramp_bind _ _ [] ramp_script
    (fun _ e => Forall (writes_in reporting_writes) e /\ reporting_evidence BZM_RESULT_REPORT_DISABLED e)).
  { eapply emits_mono; [apply ends_framed, result_reporting_emits|].
    intros [x|[]] e [F H]; (split; [by eapply Forall_impl; [exact F|apply reporting_ramp_frame]|]);
      rewrite reporting_calls by done; done. }
  intros [] e1 [F1 H1]. change ramp_script with (ramp_commits 118 ++ [Barrier 4 118]).
  eapply ramp_bind; [apply ramp_pairs_emits|]. intros completed e2 (segments & -> & Hs).
  rewrite <- (app_nil_r [Barrier 4 118]).
  apply (ramp_bind _ _ [Barrier 4 118] [] (fun _ e => e = [EvBarrier 4 118 true])).
  { by apply (ramp_requires (barrier 4 118) (EvBarrier 4 118)). }
  intros [] e3 ->. apply emits_succeeds. split; [constructor|]. split; [|done].
  exists e1, segments. rewrite app_nil_r. by split_and!.
Qed.
End ramp.

Lemma hooks_of_traced h : hooks_of (traced_ops o) = Some h ->
  exists b c e a, h = traced_hooks b c e a.
Proof.
  unfold hooks_of. cbn. repeat case_match; try done. intros [= <-].
  repeat match goal with H : option_map _ ?x = Some _ |- _ => destruct x; cbn in H; [|done]; injection H as <- end.
  by do 4 eexists.
Qed.

Definition ramp_fallen (s : bzm_bringup_state_t) : bzm_bringup_state_t :=
  s <| balanced_ramp_verified := false; running_verified := false |>.

(** What the ramp stage leaves: its activation calls are a prefix of the script, and
    all of it when the stage is GOOD. *)
Definition ramped (s : bzm_bringup_state_t) (policy : option bzm_bringup_telemetry_policy_t)
    (x : result) (e : list bringup_event) : Prop :=
  Forall ramp_frame e /\
  ((refused (fst x) /\ snd x = ramp_fallen s /\ ramp_calls e `prefix_of` ramp_script) \/
   (outcome (fst x) = BZM_BRINGUP_GOOD /\ clocks_verified s = true /\ ramp_calls e = ramp_script /\
    snd x = (ramp_fallen s) <| balanced_ramp_verified := true |> /\
    exists pol, policy = Some pol /\ ramp_evidence pol e)).

Lemma ramped_fallen s policy report :
  refused report -> emits (W := W) (io_ret (report, ramp_fallen s)) (ramped s policy).
Proof. intros H. apply emits_ret. split; [constructor|]. left. split; [done|split; [done|apply prefix_nil]]. Qed.

Lemma ramp_emits reported s policy :
  (forall p, policy = Some p -> 0 <= ch2_confirm_samples p) ->
  emits (bzm_bringup_stage_balanced_ramp reported s (Some (traced_ops o)) policy) (ramped s policy).
Proof.
  intros Hsamples. unfold bzm_bringup_stage_balanced_ramp. rewrite topology_exact. cbn [clocks_verified set_field].
  fold (ramp_fallen s).
  destruct (clocks_verified s) eqn:Hclocks; cbn [negb]; [|by apply ramped_fallen].
  cbn [negb].
  destruct (hooks_of (traced_ops o)) as [h|] eqn:Eh; [|by apply ramped_fallen].
  destruct (hooks_of_traced h Eh) as (b & c & e & a & ->).
  destruct (given _ policy) as [pol|] eqn:Epol; [|by apply ramped_fallen]. apply given_some in Epol as [-> Hpol].
  destruct (registers_of (traced_ops o)) as [l|] eqn:El; [|by apply ramped_fallen].
  destruct (registers_of_traced l El) as (w & r & ->). cbn [traced_ops op_now_us op_telemetry_snapshot].
  destruct (op_now_us o) as [now|]; cbn [option_map]; [|by apply ramped_fallen].
  destruct (op_telemetry_snapshot o) as [snapshot|]; cbn [option_map]; [|by apply ramped_fallen].
  apply emits_bind. eapply emits_mono; [apply (activation_emits b c e a pol reported now); [by apply Hsamples|done]|].
  intros [report|completed] evs (F & H & C); apply emits_ret; rewrite app_nil_r; (split; [exact F|]); [by left|right].
  split_and!; try done. by exists pol.
Qed.
End stages.
