(* ===== verification/LiveFrequency.v ===== *)
(** * The live frequency step

    [bzm_bringup_live_frequency_domains_step] over operations that log their
    outcome: what the stored clock of an ASIC/PLL domain stands for after a step with
    its retries, in the stepwise mode and in the broadcast shortcut. *)

From S2P Require Import Prelude Trace Float32 Frequency Topology Work Telemetry BalancedRamp Bringup BringupEvidence.
Open Scope Z_scope.
Open Scope io_scope.
Open Scope attempt_scope.

(** ** Clocks *)

Definition shaped (clocks : list (list f32)) : Prop :=
  length clocks = 4%nat /\ Forall (fun row => length row = 2%nat) clocks.

Abbreviation clock s d := (domain_clock (domain_clock_mhz s) d).

Lemma domains_range d : d ∈ domains -> (fst d < 4)%nat /\ (snd d < 2)%nat.
Proof. revert d. apply Forall_forall. repeat constructor. Qed.

Lemma shaped_row clocks a : shaped clocks -> (a < 4)%nat -> length (nth a clocks []) = 2%nat.
Proof.
  intros [Hl Hr] Ha. rewrite Forall_forall in Hr. apply Hr. destruct (lookup_lt_is_Some_2 clocks a) as [row E]; [lia|].
  rewrite (nth_lookup_Some _ _ _ _ E). by eapply list_elem_of_lookup_2.
Qed.

Lemma shaped_set s d mhz : shaped (domain_clock_mhz s) -> d ∈ domains ->
  shaped (domain_clock_mhz (set_domain_clock s d mhz)).
Proof.
  intros H Hd%domains_range. pose proof (shaped_row _ (fst d) H (proj1 Hd)) as Hrow. destruct H as [Hl Hr].
  unfold set_domain_clock, shaped. cbn [domain_clock_mhz set_field]. rewrite length_insert. split; [done|].
  apply Forall_insert; [done|]. by rewrite length_insert.
Qed.

Lemma shaped_all mhz : shaped (replicate 4 (replicate 2 mhz)).
Proof. split; [done|repeat constructor]. Qed.

Lemma clock_set s d mhz d' : shaped (domain_clock_mhz s) -> d ∈ domains ->
  clock (set_domain_clock s d mhz) d' = if decide (d = d') then mhz else clock s d'.
Proof.
  intros H Hd%domains_range. pose proof (shaped_row _ (fst d) H (proj1 Hd)) as Hrow. destruct H as [Hl _].
  unfold domain_clock, set_domain_clock. cbn [domain_clock_mhz set_field].
  destruct d as [a p], d' as [a' p']. cbn [fst snd] in *. rewrite !nth_lookup in *.
  destruct Hd as [Ha' Hp'].
  destruct (decide (a = a')) as [<-|Ha]; [|rewrite list_lookup_insert_ne by done; by rewrite decide_False by congruence].
  rewrite list_lookup_insert_eq by (by rewrite Hl). cbn [default from_option id].
  destruct (decide (p = p')) as [<-|Hp].
  - rewrite list_lookup_insert_eq by (by rewrite Hrow). by rewrite decide_True.
  - rewrite list_lookup_insert_ne by done. by rewrite decide_False by congruence.
Qed.

Lemma clock_all s mhz d : d ∈ domains -> clock (set_all_domain_clocks s mhz) d = mhz.
Proof. revert d. apply Forall_forall. unfold domains. by repeat constructor. Qed.

(** The test of the step for two frequencies being the same. *)
Definition near (x y : f32) : Prop := fle (f32_lit 1 1000) (fabs (fsub x y)) = false.

Lemma near_refl x : near x x.
Proof.
  unfold near, fsub, SFsub. destruct x as [[]|[]| |s m e]; try reflexivity.
  replace (_ - _)%Z with 0 by lia. by vm_compute.
Qed.

Lemma round_magnitude_sign s m e : fabs (binary_round 24 128 s m e) = fabs (binary_round 24 128 false m e).
Proof. unfold binary_round, binary_round_aux. repeat case_match; done. Qed.

Lemma normalize_magnitude m e z : fabs (binary_normalize 24 128 (- m) e z) = fabs (binary_normalize 24 128 m e z).
Proof.
  destruct m as [|m|m]; [done|..]; unfold binary_normalize, Z.opp;
    by rewrite (round_magnitude_sign true).
Qed.

Lemma fsub_magnitude x y : fabs (fsub x y) = fabs (fsub y x).
Proof.
  unfold fsub, SFsub. destruct x as [sx|sx| |sx mx ex], y as [sy|sy| |sy my ey]; try (by destruct sx, sy); try done.
  rewrite (Z.min_comm ey ex). rewrite <- normalize_magnitude. do 2 f_equal. lia.
Qed.

Lemma near_sym x y : near x y -> near y x.
Proof. unfold near. by rewrite fsub_magnitude. Qed.

(** What a step leaves of the state but for the clocks. *)
Definition same_flags (s s' : bzm_bringup_state_t) : Prop :=
  chain_verified s' = chain_verified s /\ sensors_verified s' = sensors_verified s /\
  clocks_verified s' = clocks_verified s /\ balanced_ramp_verified s' = balanced_ramp_verified s /\
  running_verified s' = running_verified s.

Lemma same_flags_trans s1 s2 s3 : same_flags s1 s2 -> same_flags s2 s3 -> same_flags s1 s3.
Proof. intros (?&?&?&?&?) (?&?&?&?&?). repeat split; congruence. Qed.

(** ** One domain *)

Abbreviation domain_id d := (live_asic_id (fst d)).
Abbreviation domain_pll d := (Z.of_nat (snd d)).

(** The PLL of a domain runs at a target: its dividers were read back, then the lock. *)
Definition tuned (d : nat * nat) (t : bzm_frequency_target_t) (e : list bringup_event) : Prop :=
  pll_running (domain_pll d) (target_feedback_divider t) (target_postdiv_register t) (domain_id d) e.

(** The writes to one domain, and to any. *)
Definition domain_writes (d : nat * nat) (address offset : Z) : Prop :=
  address = domain_id d /\ divider_offset (domain_pll d) offset.
Definition divider_offsets : list Z :=
  pll ← plls; pll_register pll <$> [BZM_LOCAL_REG_PLL0_FBDIV; BZM_LOCAL_REG_PLL0_POSTDIV].
Definition live_writes (_ offset : Z) : Prop := offset ∈ divider_offsets.

Definition clear_of (d : nat * nat) (e : list bringup_event) : Prop :=
  forall offset, offset ∈ pll_registers (domain_pll d) -> Forall (untouched (domain_id d) offset) e.

Lemma domains_apart d d' : d ∈ domains -> d' ∈ domains -> d <> d' ->
  forall offset a b, offset ∈ pll_registers (domain_pll d) -> domain_writes d' a b -> ~ reaches (domain_id d) offset a b.
Proof.
  assert (H : Forall (fun d => Forall (fun d' => d = d' \/
    (domain_id d' <> BZM_ALL_ASICS /\ (domain_id d' <> domain_id d \/
       Forall (fun b => b ∉ pll_registers (domain_pll d))
         [pll_register (domain_pll d') BZM_LOCAL_REG_PLL0_FBDIV; pll_register (domain_pll d') BZM_LOCAL_REG_PLL0_POSTDIV])))
    domains) domains) by (apply (bool_decide_unpack _); by vm_compute).
  rewrite Forall_forall in H. intros Hd Hd' Hne offset a b Ho [-> Hb] [-> Ha]. specialize (H d Hd).
  rewrite Forall_forall in H. destruct (H d' Hd') as [?|[H1 H2]]; [done|]. destruct Ha as [Ha|?]; [|done].
  destruct H2 as [?|H2]; [done|]. rewrite Forall_forall in H2. apply (H2 offset); [|done].
  destruct Hb as [-> | ->]; [by left|by right; left].
Qed.

Lemma domain_writes_live d a offset : d ∈ domains -> domain_writes d a offset -> live_writes a offset.
Proof.
  intros [_ Hd]%domains_range [_ Ho]. unfold live_writes. destruct (snd d) as [|[|?]]; [..|lia];
    destruct Ho as [-> | ->]; by apply (bool_decide_unpack _).
Qed.

Section live.
Context {W : Type} (o : bzm_bringup_ops_t W).
Abbreviation world := (W * list bringup_event)%type.
Abbreviation result := (bzm_bringup_report_t * bzm_bringup_state_t)%type.

Section link.
Context (w : Z -> Z -> Z -> Z -> io W bool) (r : Z -> Z -> Z -> Z -> io W (bool * Z)).
Abbreviation l := (traced_link w r).

Lemma wait_for_lock_emits asic pll completed attempts value :
  emits (wait_for_lock (traced_ops o) l asic pll completed attempts value)
    (ends quiet refused (fun _ e => Forall quiet e /\ exists v, all_bits v BZM_PLL_LOCK_MASK = true /\
       proved e asic (pll_register pll BZM_LOCAL_REG_PLL0_ENABLE) v)).
Proof.
  revert value. induction attempts as [|n IH]; intros value; cbn [wait_for_lock]; [by apply ends_fails|].
  eapply ends_bind; [apply poll_lock_emits|]. intros [[] v] e1 _ [Q1 H1].
  { apply ends_succeeds. rewrite app_nil_r. split; [done|by apply H1]. }
  eapply ends_bind; [apply performs_delay_if|]. intros [] e2 _ ->. eapply ends_mono; [apply IH|done|].
  intros [] e [Q (v' & Hv & Hp)]. split; [by apply Forall_app|]. exists v'. split; [done|by do 2 apply proved_later].
Qed.

Lemma verify_domain_emits d t completed :
  emits (verify_live_frequency_domain (traced_ops o) l d t completed)
    (ends quiet refused (fun _ e => Forall quiet e /\ tuned d t e)).
Proof.
  unfold verify_live_frequency_domain. eapply ends_bind; [apply verify_dividers_emits|].
  intros [] e1 _ (Q1 & H1 & H2). eapply ends_mono; [apply wait_for_lock_emits|done|].
  intros [] e2 (Q2 & v & Hv & H3). split; [by apply Forall_app|]. by eapply pll_running_read.
Qed.

Lemma program_domain_emits d t completed :
  emits (program_live_frequency_domain (traced_ops o) l d t completed)
    (leaves (domain_writes d) (fun _ e => tuned d t e)).
Proof.
  unfold program_live_frequency_domain. eapply ends_bind; [apply program_dividers_emits|]. intros [] e1 _ _.
  eapply ends_bind; [eapply ends_mono; [apply performs_delay_if|apply quiet_writes|done]|]. intros [] e2 _ _.
  eapply ends_mono; [apply verify_domain_emits|apply quiet_writes|]. intros [] e3 [_ H].
  by do 2 apply pll_running_later.
Qed.

(** The shortcut: one broadcast, then every domain is looked at. *)
Lemma shortcut_emits t :
  emits (program_live_broadcast_shortcut (traced_ops o) l t)
    (leaves live_writes (fun _ e => forall d, d ∈ domains -> tuned d t e)).
Proof.
  unfold program_live_broadcast_shortcut. eapply ends_bind.
  { apply (ends_for_each plls _ _ _ (fun _ _ => True)). intros pll Hpll. eapply ends_bind.
    { eapply ends_mono; [apply program_dividers_emits| |done]. intros e He. eapply writes_in_mono; [exact He|].
      intros a b [_ Hb]. apply (domain_writes_live (0%nat, Z.to_nat pll) (domain_id (0%nat, Z.to_nat pll)) b).
      - destruct (pll_cases pll Hpll) as [-> | ->]; by apply (bool_decide_unpack _).
      - split; [done|]. by destruct (pll_cases pll Hpll) as [-> | ->]. }
    intros [] e1 _ _. by eapply ends_mono; [apply performs_delay_if|apply quiet_writes|]. }
  intros [] e1 _ _. eapply ends_mono.
  { apply (ends_for_each (zip (seqZ 0 8) domains) _ _ _ (fun x e => Forall quiet e /\ tuned (snd x) t e)).
    intros [n d] _. apply verify_domain_emits. }
  { apply quiet_writes. }
  intros [] e2 (es & -> & Hes) d Hd. apply pll_running_later.
  assert (Hz : d ∈ snd <$> zip (seqZ 0 8) domains) by (change (d ∈ domains); done).
  clear Hd. revert Hz. induction Hes as [|x e xs es [Qx Hx] Hes IH]; [by intros ?%elem_of_nil|].
  rewrite fmap_cons, elem_of_cons. cbn [concat]. intros [->|Hin]; [|by apply pll_running_later, IH].
  apply pll_running_untouched; [done|]. intros offset _. apply (writes_untouched (fun _ _ => False)); [|by intros a b []].
  clear -Hes. induction Hes as [|y e ys es [Qy _] _ IH]; [constructor|]. by apply Forall_app.
Qed.
End link.

(** *** The checks *)

Section step.
Context (wanted : list (list f32)) (jump : bool).

(** The ramp may move a domain by one step of it at a time. *)
Definition within_step (x y : f32) : Prop :=
  flt (fadd BZM_FREQUENCY_RAMP_STEP_MHZ (f32_lit 1 1000)) (fabs (fsub x y)) = false.

Definition entry_checked (s : bzm_bringup_state_t) (x : nat * nat * bzm_frequency_target_t * bool) : Prop :=
  let '(d, t, changed) := x in
  bzm_frequency_resolve_target (domain_clock wanted d) = Some t /\
  changed = fle (f32_lit 1 1000) (fabs (fsub (actual_mhz t) (clock s d))) /\
  (jump = false -> changed = true -> within_step (actual_mhz t) (clock s d)).

Lemma check_domain_spec s d shortcut :
  match check_domain s wanted jump d shortcut with
  | inl report => refused report
  | inr (t, changed, shortcut') => entry_checked s (d, t, changed) /\
      (if jump then if decide (d = (0, 0)%nat) then shortcut' = actual_mhz t
                   else shortcut' = shortcut /\ near shortcut (actual_mhz t)
      else shortcut' = shortcut)
  end.
Proof.
  unfold check_domain. cbn zeta. destruct (bzm_frequency_request_is_valid (clock s d)); cbn [negb]; [|done].
  destruct (bzm_frequency_resolve_target (domain_clock wanted d)) as [t|] eqn:Et; [|done].
  destruct (fle _ (fabs (fsub (actual_mhz t) (domain_clock wanted d)))); [done|].
  unfold entry_checked, within_step, near. destruct jump.
  - destruct (_ || _ || _); [done|]. rewrite <- decide_bool_decide. destruct (decide (d = (0, 0)%nat)); [by split_and!|].
    destruct (fle _ (fabs (fsub shortcut _))) eqn:E; [done|]. by split_and!.
  - destruct (_ && _) eqn:E; [done|]. split_and!; try done. intros _ Hc. by rewrite Hc in E.
Qed.

Lemma check_domains_spec s ds shortcut :
  (0, 0)%nat ∉ ds ->
  match check_domains s wanted jump ds shortcut with
  | inl report => refused report
  | inr (plan, shortcut') => plan.*1.*1 = ds /\ Forall (entry_checked s) plan /\ shortcut' = shortcut /\
      (jump = true -> forall d t c, (d, t, c) ∈ plan -> near shortcut (actual_mhz t))
  end.
Proof.
  induction ds as [|d ds IH]; intros H0; cbn [check_domains].
  { split_and!; try done. by intros _ d t c ?%elem_of_nil. }
  apply not_elem_of_cons in H0 as [Hd H0]. pose proof (check_domain_spec s d shortcut) as H.
  destruct (check_domain s wanted jump d shortcut) as [report|[[t c] sc]]; [done|]. destruct H as [He Hs].
  assert (sc = shortcut /\ (jump = true -> near shortcut (actual_mhz t))) as [-> Hn].
  { destruct jump; [|done]. rewrite decide_False in Hs by done. by destruct Hs. }
  specialize (IH H0). destruct (check_domains s wanted jump ds shortcut) as [report|[plan sc]]; [done|].
  destruct IH as (<- & Hp & -> & Hsc). cbn. split_and!; [done|by constructor|done|].
  intros Hj d' t' c' [[= -> -> ->]|Hin]%elem_of_cons; [by apply Hn|by eapply Hsc].
Qed.

(** Whether the step takes the shortcut; it depends on the request alone. *)
Definition shortcut_taken : bool :=
  jump && match bzm_frequency_resolve_target (domain_clock wanted (0, 0)%nat) with
          | Some t => flt BZM_FREQUENCY_POWER_ON_MHZ (actual_mhz t)
          | None => false
          end.

Lemma check_all_spec s :
  match check_domains s wanted jump domains (f32_of_Z 0) with
  | inl report => refused report
  | inr (plan, shortcut) => plan.*1.*1 = domains /\ Forall (entry_checked s) plan /\
      jump && flt BZM_FREQUENCY_POWER_ON_MHZ shortcut = shortcut_taken /\
      (jump = true -> bzm_frequency_resolve_target (domain_clock wanted (0, 0)%nat) = Some (first_target plan) /\
         shortcut = actual_mhz (first_target plan) /\
         forall d t c, (d, t, c) ∈ plan -> near (actual_mhz (first_target plan)) (actual_mhz t))
  end.
Proof.
  change domains with ((0, 0)%nat :: tail domains). cbn [check_domains].
  pose proof (check_domain_spec s (0, 0)%nat (f32_of_Z 0)) as H.
  destruct (check_domain _ _ _ _ _) as [report|[[t c] sc]]; [done|]. destruct H as [He Hs].
  pose proof (check_domains_spec s (tail domains) sc) as Hr.
  destruct (check_domains _ _ _ _ _) as [report|[plan sc']]; [apply Hr; by apply (bool_decide_unpack _)|].
  destruct Hr as (Hp & Hf & -> & Hn); [by apply (bool_decide_unpack _)|]. unfold shortcut_taken.
  rewrite (proj1 He). split_and!; [cbn; by rewrite Hp|by constructor| |].
  - by destruct jump; [rewrite decide_True in Hs by done; subst sc|].
  - intros Hj. rewrite Hj in Hs. rewrite decide_True in Hs by done. subst sc. cbn [first_target].
    split; [done|]. split; [done|]. intros d' t' c' [[= -> -> ->]|Hin]%elem_of_cons; [apply near_refl|by eapply Hn].
Qed.

(** *** The domains, one after the other *)

Definition planned (plan : list (nat * nat * bzm_frequency_target_t * bool)) (a offset : Z) : Prop :=
  exists d t, (d, t, true) ∈ plan /\ domain_writes d a offset.

(** What the loop makes of one domain. *)
Definition programmed (plan : list (nat * nat * bzm_frequency_target_t * bool)) (s s' : bzm_bringup_state_t)
    (finished : bool) (e : list bringup_event) (d : nat * nat) : Prop :=
  (clock s' d = clock s d /\ (finished = true -> forall t, (d, t, true) ∉ plan)) \/
  (exists t, (d, t, true) ∈ plan /\ clock s' d = actual_mhz t /\ tuned d t e).

Definition finishes (failure : option bzm_bringup_report_t) : bool := bool_decide (failure = None).

Lemma planned_apart plan d : d ∈ domains -> Forall (fun x => fst (fst x) ∈ domains) plan ->
  (forall t, (d, t, true) ∉ plan) -> forall e, Forall (writes_in (planned plan)) e -> clear_of d e.
Proof.
  intros Hd Hp Hn e He offset Ho. eapply writes_untouched; [exact He|]. intros a b (d' & t & Hin & Hw).
  assert (Hd' : d' ∈ domains) by (rewrite Forall_forall in Hp; by apply (Hp _ Hin)).
  apply (domains_apart d d'); try done. intros <-. by apply (Hn t).
Qed.

Lemma program_domains_emits (w : Z -> Z -> Z -> Z -> io W bool) r plan completed s :
  shaped (domain_clock_mhz s) -> NoDup (plan.*1.*1) -> Forall (fun x => fst (fst x) ∈ domains) plan ->
  emits (program_domains (traced_ops o) (traced_link w r) plan completed s) (fun x e =>
    (forall report, fst x = Some report -> refused report) /\
    Forall (writes_in (planned plan)) e /\ same_flags s (snd x) /\ shaped (domain_clock_mhz (snd x)) /\
    forall d, d ∈ domains -> programmed plan s (snd x) (finishes (fst x)) e d).
Proof.
  revert completed s. induction plan as [|[[d t] changed] plan IH]; intros completed s Hs Hd Hp; cbn [program_domains].
  { apply emits_ret. split_and!; try done. intros d Hin. left. split; [done|]. by intros _ t ?%elem_of_nil. }
  rewrite !fmap_cons, NoDup_cons in Hd. destruct Hd as [Hn Hd]. apply Forall_cons in Hp as [Hd0 Hp]. cbn [fst] in Hd0, Hn.
  assert (Hfresh : forall t' c, (d, t', c) ∉ plan).
  { intros t' c Hin. apply Hn. apply list_elem_of_fmap. exists (d, t'). split; [done|].
    apply list_elem_of_fmap. by exists (d, t', c). }
  destruct changed.
  - apply emits_bind. eapply emits_mono; [apply program_domain_emits|]. intros [report|[]] e1 [F1 G1].
    { apply emits_ret. rewrite app_nil_r. split_and!; try done; [by intros ? [= <-]| |].
      - eapply writes_mono; [exact F1|]. intros a b Hw. exists d, t. split; [by left|done].
      - intros d' _. by left. }
    eapply emits_mono; [apply IH; [by apply shaped_set|done|done]|].
    intros [failure s'] e2 (Hr & F2 & Hf & Hs' & Hc). cbn [fst snd] in *. split_and!; try done.
    + apply Forall_app. split; [eapply writes_mono; [exact F1|]; intros a b Hw; exists d, t; split; [by left|done]|].
      eapply writes_mono; [exact F2|]. intros a b (d' & t' & Hin & Hw). exists d', t'. split; [by right|done].
    + intros d' Hd'. destruct (decide (d = d')) as [<-|Hne].
      * right. exists t. split; [by left|]. destruct (Hc d Hd0) as [[Hc' _]|(t' & Hin & _)]; [|by destruct (Hfresh t' true)].
        rewrite Hc', clock_set, decide_True by done. split; [done|].
        apply pll_running_untouched; [done|]. by eapply planned_apart.
      * destruct (Hc d' Hd') as [[Hc' Hf']|(t' & Hin & Hc' & Ht)]; [left|right].
        -- rewrite Hc', clock_set, decide_False by done. split; [done|].
           intros HN t' [[= ? _]|Hin]%elem_of_cons; [congruence|]. by apply (Hf' HN t').
        -- exists t'. split_and!; [by right|done|by apply pll_running_later].
  - eapply emits_mono; [by apply IH|]. intros [failure s'] e (Hr & F2 & Hf & Hs' & Hc). split_and!; try done.
    + eapply writes_mono; [exact F2|]. intros a b (d' & t' & Hin & Hw). exists d', t'. split; [by right|done].
    + intros d' Hd'. destruct (Hc d' Hd') as [[Hc' Hf']|(t' & Hin & Hc' & Ht)]; [left|right].
      * split; [done|]. intros HN t' [[= ? _]|Hin]%elem_of_cons. by apply (Hf' HN t').
      * exists t'. split_and!; [by right|done|done].
Qed.

(** *** A step *)

(** A domain moved to the target of its request. *)
Definition retuned (old new : f32) (d : nat * nat) (e : list bringup_event) : Prop :=
  exists t, bzm_frequency_resolve_target (domain_clock wanted d) = Some t /\ new = actual_mhz t /\
    tuned d t e /\ (jump = false -> within_step new old).
(** All domains moved to the target of the first. *)
Definition jumped (new : f32) (d : nat * nat) (e : list bringup_event) : Prop :=
  exists t, bzm_frequency_resolve_target (domain_clock wanted (0, 0)%nat) = Some t /\ new = actual_mhz t /\ tuned d t e.

(** A domain is where its request wants it. *)
Definition settled (s : bzm_bringup_state_t) (d : nat * nat) : Prop :=
  exists t, bzm_frequency_resolve_target (domain_clock wanted d) = Some t /\ near (actual_mhz t) (clock s d).
(** A GOOD step leaves every domain at its request. *)
Definition arrived (report : bzm_bringup_report_t) (s' : bzm_bringup_state_t) : Prop :=
  outcome report = BZM_BRINGUP_GOOD -> forall d, d ∈ domains -> settled s' d.

(** All of them at once, or none. *)
Definition together (report : bzm_bringup_report_t) (s s' : bzm_bringup_state_t) (e : list bringup_event) : Prop :=
  (refused report /\ s' = s) \/
  (outcome report = BZM_BRINGUP_GOOD /\ forall d, d ∈ domains -> jumped (clock s' d) d e).

(** A domain keeps its clock, and then is left alone if it was where it should be; or it
    moves to where it should be. *)
Definition stepwise (s s' : bzm_bringup_state_t) (e : list bringup_event) : Prop :=
  forall d, d ∈ domains ->
    (clock s' d = clock s d /\ (settled s d -> clear_of d e)) \/
    (~ settled s d /\ retuned (clock s d) (clock s' d) d e).

Lemma stepwise_nothing s : stepwise s s [].
Proof. intros d _. left. split; [done|]. intros _ offset _. constructor. Qed.

Lemma stepwise_trans s1 s2 s3 e e' : stepwise s1 s2 e -> stepwise s2 s3 e' -> stepwise s1 s3 (e ++ e').
Proof.
  intros Hk Ha d Hd. unfold stepwise, settled in *.
  destruct (Ha d Hd) as [[-> Hc]|[Hn Hr]], (Hk d Hd) as [[E Hc0]|(Hn0 & t & Ht & E & Htu & Hb)].
  - left. split; [done|]. rewrite E in Hc. intros Hs offset Ho. apply Forall_app. split; [by apply Hc0|by apply Hc].
  - right. split; [done|]. exists t. split_and!; try done. apply pll_running_untouched; [done|]. apply Hc.
    exists t. rewrite E. split; [done|apply near_refl].
  - right. rewrite <- E. split; [done|]. destruct Hr as (t & ? & ? & ? & ?). exists t. split_and!; try done.
    by apply pll_running_later.
  - destruct Hn. exists t. rewrite E. split; [done|apply near_refl].
Qed.

(** An attempt whose checks pass, outside the shortcut. *)
Lemma stepwise_of_programmed plan s s' finished e :
  plan.*1.*1 = domains -> Forall (entry_checked s) plan -> Forall (writes_in (planned plan)) e ->
  (forall d, d ∈ domains -> programmed plan s s' finished e d) ->
  stepwise s s' e /\
  (finished = true -> forall d, d ∈ domains -> settled s' d).
Proof.
  intros Hds Hf Hw Hp. rewrite Forall_forall in Hf.
  assert (Hdom : Forall (fun x => fst (fst x) ∈ domains) plan).
  { apply Forall_forall. intros x Hx. rewrite <- Hds. by do 2 apply list_elem_of_fmap_2. }
  assert (Hin : forall d, d ∈ domains -> exists t c, (d, t, c) ∈ plan).
  { intros d. rewrite <- Hds. intros ([d' t] & -> & ([[? ?] c] & [= <- <-] & H)%list_elem_of_fmap)%list_elem_of_fmap.
    by exists t, c. }
  assert (Hset : forall d, settled s d -> forall t, (d, t, true) ∉ plan).
  { intros d (t & Ht & E) t' H. destruct (Hf _ H) as (Ht' & Hc & _). rewrite Ht in Ht'. injection Ht' as <-.
    unfold near in E. by rewrite E in Hc. }
  split.
  - intros d Hd. destruct (Hp d Hd) as [[E _]|(t & Ht & E & Htu)].
    + left. split; [done|]. intros H. eapply planned_apart; eauto.
    + right. split; [intros H; by apply (Hset d H t)|]. destruct (Hf _ Ht) as (Hr & _ & Hb). exists t.
      split_and!; try done. intros Hj. rewrite E. by apply Hb.
  - intros Hfin d Hd. destruct (Hin d Hd) as (t & c & H). destruct (Hf _ H) as (Hr & Hc & _). exists t.
    split; [done|]. destruct (Hp d Hd) as [[E Hn]|(t' & Ht' & E & _)]; rewrite E.
    + destruct c; [by destruct (Hn Hfin t)|done].
    + destruct (Hf _ Ht') as (Hr' & _). rewrite Hr in Hr'. injection Hr' as ->. apply near_refl.
Qed.

(** What an attempt, and a step, leaves besides. *)
Definition stepped (s s' : bzm_bringup_state_t) (e : list bringup_event) : Prop :=
  Forall (writes_in live_writes) e /\ same_flags s s' /\ shaped (domain_clock_mhz s').

Definition once_ends (s : bzm_bringup_state_t) : result -> list bringup_event -> Prop := fun '(report, s') e =>
  stepped s s' e /\ arrived report s' /\
  if shortcut_taken then together report s s' e else stepwise s s' e.

Lemma once_nothing s report : shaped (domain_clock_mhz s) -> refused report -> once_ends s (report, s) [].
Proof.
  intros Hs Hr. split; [by split_and!|]. split; [by intros ?|].
  destruct shortcut_taken; [by left|apply stepwise_nothing].
Qed.

Lemma frequency_applied_emits (s0 s : bzm_bringup_state_t) (post : result -> list bringup_event -> Prop) :
  (forall report t e, outcome report = BZM_BRINGUP_GOOD -> Forall quiet e ->
     post (report, s <| clocks_configured_us := t |>) e) ->
  emits (frequency_applied (traced_ops o) s) post.
Proof.
  intros H. unfold frequency_applied. apply emits_bind. cbn [traced_ops op_now_us].
  destruct (op_now_us o) as [now|]; cbn [option_map]; [apply emits_traced; intros t|];
    repeat apply emits_ret; apply H; done || by repeat constructor.
Qed.

Lemma once_emits s : shaped (domain_clock_mhz s) ->
  emits (live_frequency_domains_step_once s (Some (traced_ops o)) (Some wanted) jump) (once_ends s).
Proof.
  intros Hs. unfold live_frequency_domains_step_once.
  destruct (basic_ops_are_valid _) as [[o' l]|] eqn:E; [|by apply emits_ret, once_nothing].
  apply basic_ops_of_traced in E as (-> & w & r & ->).
  destruct (clocks_verified s && running_verified s); [|by apply emits_ret, once_nothing].
  pose proof (check_all_spec s) as Hc.
  destruct (check_domains s wanted jump domains (f32_of_Z 0)) as [report|[plan sc]];
    [by apply emits_ret, once_nothing|]. destruct Hc as (Hds & Hf & -> & Hj). unfold once_ends.
  destruct shortcut_taken eqn:Esc.
  - assert (Ej : jump = true) by (unfold shortcut_taken in Esc; by destruct jump).
    destruct (Hj Ej) as (Ht & -> & Hn). apply emits_bind.
    eapply emits_mono; [apply shortcut_emits|]. intros [report|[]] e1 [F1 G1].
    { apply emits_ret. rewrite app_nil_r. split; [by split_and!|]. split; [by intros ?|by left]. }
    apply frequency_applied_emits; [done|]. intros report t e2 Hg Q2.
    split; [split; [|split; [done|apply shaped_all]]|].
    { apply Forall_app. split; [done|by eapply Forall_impl; [exact Q2|apply quiet_writes]]. }
    assert (Hall : forall d, d ∈ domains ->
      clock ((set_all_domain_clocks s (actual_mhz (first_target plan))) <| clocks_configured_us := t |>) d =
      actual_mhz (first_target plan)) by apply clock_all.
    split; [|right].
    + intros _ d Hd. unfold settled. rewrite Hall by done.
      assert (Hin : d ∈ plan.*1.*1) by (by rewrite Hds).
      apply list_elem_of_fmap in Hin as ([d' t'] & -> & ([[? ?] c] & [= <- <-] & Hin)%list_elem_of_fmap).
      exists t'. rewrite Forall_forall in Hf. split; [by apply (Hf _ Hin)|]. apply near_sym. by eapply Hn.
    + split; [done|]. intros d Hd. rewrite Hall by done. exists (first_target plan). split_and!; try done.
      apply pll_running_untouched; [by apply G1|]. intros offset _. by apply (writes_untouched (fun _ _ => False)).
  - assert (Hnd : NoDup plan.*1.*1) by (rewrite Hds; by apply (bool_decide_unpack _)).
    assert (Hdom : Forall (fun x => fst (fst x) ∈ domains) plan).
    { apply Forall_forall. intros x Hx. rewrite <- Hds. by do 2 apply list_elem_of_fmap_2. }
    assert (Hlive : forall e, Forall (writes_in (planned plan)) e -> Forall (writes_in live_writes) e).
    { intros e He. eapply writes_mono; [exact He|]. intros a b (d & t & Hin & Hw).
      rewrite Forall_forall in Hdom. by eapply domain_writes_live; [apply (Hdom _ Hin)|]. }
    apply emits_bind. eapply emits_mono; [by apply program_domains_emits|].
    intros [failure s'] e1 (Hr & F1 & Hfl & Hs' & Hp). cbn [fst snd] in *.
    destruct (stepwise_of_programmed plan s s' _ e1 Hds Hf F1 Hp) as [Ha Hg].
    destruct failure as [report|].
    + apply emits_ret. rewrite app_nil_r. split; [by split_and!; [apply Hlive|..]|].
      split; [intros Hgood; by destruct (Hr report)|done].
    + apply frequency_applied_emits; [done|]. intros report t e2 _ Q2. cbn [domain_clock_mhz set_field].
      split; [split; [|done]; apply Forall_app; split; [by apply Hlive|by eapply Forall_impl; [exact Q2|apply quiet_writes]]|].
      split; [by intros _; apply Hg|]. intros d Hd. destruct (Ha d Hd) as [[E Hc]|[Hn (t' & ? & ? & ? & ?)]]; [left|right].
      * split; [done|]. intros Hst offset Ho. apply Forall_app. split; [by apply Hc|].
        by apply (writes_untouched (fun _ _ => False)).
      * split; [done|]. exists t'. split_and!; try done. apply pll_running_untouched; [done|]. intros offset _.
        by apply (writes_untouched (fun _ _ => False)).
Qed.

Lemma once_ends_trans s1 s2 report1 report s3 e1 e2 :
  transient report1 = true -> once_ends s1 (report1, s2) e1 -> once_ends s2 (report, s3) e2 ->
  once_ends s1 (report, s3) (e1 ++ e2).
Proof.
  intros Ht ((F1 & Hf1 & _) & _ & H1) ((F2 & Hf2 & Hs) & Ha & H2).
  split; [split; [by apply Forall_app|split; [by eapply same_flags_trans|done]]|]. split; [done|].
  destruct shortcut_taken; [|by eapply stepwise_trans].
  destruct H1 as [[_ ->]|[Hg _]]; [|unfold transient in Ht; by rewrite Hg in Ht].
  destruct H2 as [H2|[Hg H2]]; [by left|right]. split; [done|]. intros d Hd.
  destruct (H2 d Hd) as (t & ? & ? & ?). exists t. split_and!; try done. by apply pll_running_later.
Qed.

Lemma frequency_attempts_emits retries s : shaped (domain_clock_mhz s) ->
  emits (frequency_attempts (Some (traced_ops o)) (Some wanted) jump retries s) (once_ends s).
Proof.
  revert s. induction retries as [|n IH]; intros s Hs; cbn [frequency_attempts]; apply emits_bind;
    (eapply emits_mono; [by apply once_emits|]); intros [report s1] e1 H1.
  { apply emits_ret. by rewrite app_nil_r. }
  destruct (transient report) eqn:Et; cbn [negb]; [|apply emits_ret; by rewrite app_nil_r].
  apply emits_bind. eapply emits_mono; [apply delay_if_emits|]. intros [] e ->.
  eapply emits_mono; [apply IH, H1|]. intros [report' s2] e2 H2. by eapply once_ends_trans.
Qed.
End step.
End live.

Lemma live_frequency_emits {W} (o : bzm_bringup_ops_t W) (wanted : list (list f32)) (jump : bool)
    (s : bzm_bringup_state_t) (Hs : shaped (domain_clock_mhz s)) :
  emits (bzm_bringup_live_frequency_domains_step s (Some (traced_ops o)) (Some wanted) jump)
    (fun '(report, s') e =>
       Forall (writes_in live_writes) e /\ same_flags s s' /\ shaped (domain_clock_mhz s') /\
       (outcome report = BZM_BRINGUP_GOOD -> forall d, d ∈ domains -> settled wanted s' d) /\
       if shortcut_taken wanted jump then together wanted report s s' e else stepwise wanted jump s s' e).
Proof.
  eapply emits_mono; [by apply (frequency_attempts_emits o wanted jump 2 s)|].
  intros [report s'] e ((H1 & H2 & H3) & H4 & H5). by split_and!.
Qed.
