(* ===== verification/BringupRun.v ===== *)
(** * Runs of the bring-up

    Sequences of calls of the bring-up interface, in any order and with any arguments,
    against any hardware: the flags of the state are backed by evidence in the log at
    every point, and the state keeps its form. *)

From S2P Require Import Prelude Trace Float32 Frequency Topology Work Telemetry BalancedRamp Bringup.
From S2P Require Import BringupEvidence LiveFrequency.
From stdpp Require Import gmap.
Open Scope Z_scope.
Open Scope io_scope.

Inductive bringup_call :=
| CallInit
| CallChain4
| CallSensors (reported : bool) (profile : option bzm_bringup_sensor_profile_t)
    (policy : option bzm_bringup_telemetry_policy_t)
| CallClocks (reported : bool) (profile : option bzm_bringup_pll_profile_t)
    (policy : option bzm_bringup_telemetry_policy_t)
| CallRamp (reported : bool) (policy : option bzm_bringup_telemetry_policy_t)
| CallRunning (reported : bool) (policy : option bzm_bringup_telemetry_policy_t)
| CallLive (wanted : list (list f32)) (jump : bool).

(** Whether the stored clocks are those of the hardware: a clock stage that ends GOOD makes
    them so, and a live step that does not end GOOD may leave a domain behind. *)
Definition clocks_known (c : bringup_call) (report : bzm_bringup_report_t) (known : bool) : bool :=
  let good := bool_decide (outcome report = BZM_BRINGUP_GOOD) in
  match c with
  | CallClocks _ _ _ => known || good
  | CallLive _ _ => known && good
  | _ => known
  end.

(** The policy's sample count is a [uint8_t]. *)
Definition policy_of (c : bringup_call) : option bzm_bringup_telemetry_policy_t :=
  match c with
  | CallSensors _ _ p | CallClocks _ _ p | CallRamp _ p | CallRunning _ p => p
  | _ => None
  end.
Definition call_typed (c : bringup_call) : Prop := forall p, policy_of c = Some p -> is_u8 (ch2_confirm_samples p).

Section run.
Context {W : Type} (gap_count : Z) (o : bzm_bringup_ops_t W).

Definition perform (c : bringup_call) (s : bzm_bringup_state_t) : io W (bzm_bringup_report_t * bzm_bringup_state_t) :=
  match c with
  | CallInit => io_ret (blocked_prerequisite, bzm_bringup_init)
  | CallChain4 => bzm_bringup_stage_chain4 s (Some o)
  | CallSensors reported profile policy => bzm_bringup_stage_sensors reported s (Some o) profile policy
  | CallClocks reported profile policy => bzm_bringup_stage_clocks gap_count reported s (Some o) profile policy
  | CallRamp reported policy => bzm_bringup_stage_balanced_ramp reported s (Some o) policy
  | CallRunning reported policy => bzm_bringup_check_running reported s (Some o) policy
  | CallLive wanted jump => bzm_bringup_live_frequency_domains_step s (Some o) (Some wanted) jump
  end.

Fixpoint run (cs : list bringup_call) (s : bzm_bringup_state_t) (known : bool) : io W (bzm_bringup_state_t * bool) :=
  match cs with
  | [] => io_ret (s, known)
  | c :: cs =>
      let! (report, s) := perform c s in
      run cs s (clocks_known c report known)
  end.
End run.

(** ** The invariant *)

(** A frequency the PLLs can be set to. *)
Definition producible (mhz : f32) : Prop :=
  exists f t, bzm_frequency_resolve_target f = Some t /\ mhz = actual_mhz t.

Record well_formed (s : bzm_bringup_state_t) : Prop := {
  wf_shape : shaped (domain_clock_mhz s);
  wf_sensors : sensors_verified s = true -> chain_verified s = true;
  wf_clocks : clocks_verified s = true -> sensors_verified s = true;
  wf_ramp : balanced_ramp_verified s = true -> clocks_verified s = true;
  wf_running : running_verified s = true -> balanced_ramp_verified s = true;
  wf_producible : clocks_verified s = true -> forall d, d ∈ domains -> producible (clock s d);
}.

(** What may follow the ramp: writes that enable reporting or step the clocks, and no call of
    the activation. *)
Definition after_ramp (_ offset : Z) : Prop := offset ∈ BZM_LOCAL_REG_RESULT_STATUS_CONTROL :: divider_offsets.

(** The whole activation, with its evidence; since then no pair was touched. *)
Definition activated (log : list bringup_event) : Prop :=
  exists policy before ramp after, log = before ++ ramp ++ after /\ ramp_calls ramp = ramp_script /\
    ramp_evidence policy ramp /\ Forall (writes_in after_ramp) after.

Record evidenced (s : bzm_bringup_state_t) (known : bool) (log : list bringup_event) : Prop := {
  ev_chain : chain_verified s = true -> chain_evidence log;
  ev_sensors : sensors_verified s = true -> exists p, sensor_profile_is_valid p = true /\ sensors_evidence p log;
  ev_dll : clocks_verified s = true -> forall id, id ∈ bzm_asic_wire_ids -> dll_off id log;
  ev_tuned : clocks_verified s = true -> known = true -> forall d, d ∈ domains ->
    exists f t, bzm_frequency_resolve_target f = Some t /\ clock s d = actual_mhz t /\ tuned d t log;
  ev_ramp : balanced_ramp_verified s = true -> activated log;
  ev_reporting : running_verified s = true -> reporting_evidence BZM_RESULT_REPORT_ENABLED log;
}.

(** *** Evidence outlives writes to other registers *)

(** The frame of an event: its register write, if it is one, is to one of the offsets. *)
Definition offsets_in (offsets : list Z) (e : bringup_event) : Prop :=
  match e with EvWrite _ _ offset _ _ => offset ∈ offsets | _ => True end.

Lemma offsets_untouched offsets id offset e :
  Forall (offsets_in offsets) e -> offset ∉ offsets -> Forall (untouched id offset) e.
Proof.
  intros H Hn. eapply Forall_impl; [exact H|]. intros [] He; cbn in *; try done. intros [-> _]. done.
Qed.

Lemma proved_besides offsets e1 e2 id offset v :
  Forall (offsets_in offsets) e2 -> offset ∉ offsets -> proved e1 id offset v -> proved (e1 ++ e2) id offset v.
Proof. intros H Hn Hp. apply proved_untouched; [done|]. by eapply offsets_untouched. Qed.

Lemma writes_offsets (P : Z -> Z -> Prop) offsets e :
  (forall a o, P a o -> o ∈ offsets) -> Forall (writes_in P) e -> Forall (offsets_in offsets) e.
Proof. intros HP H. eapply Forall_impl; [exact H|]. intros [] He; cbn in *; eauto. Qed.

Lemma chain_besides offsets e1 e2 : Forall (offsets_in offsets) e2 -> BZM_LOCAL_REG_ASIC_ID ∉ offsets ->
  chain_evidence e1 -> chain_evidence (e1 ++ e2).
Proof. intros H Hn Hc id Hid. eapply proved_besides; [done..|by apply Hc]. Qed.

Lemma sensors_besides offsets p e1 e2 : Forall (offsets_in offsets) e2 ->
  forallb (fun x => negb (existsb (Z.eqb x) offsets))
    (filter (fun x => x <> BZM_LOCAL_REG_UART_TDM_CONTROL) sensor_offsets) = true ->
  sensors_evidence p e1 -> sensors_evidence p (e1 ++ e2).
Proof.
  intros H Hd [H1 H2]. pose proof (lists_disjoint _ _ Hd) as Hx.
  assert (Hout : forall offset, offset ∈ sensor_offsets -> offset <> BZM_LOCAL_REG_UART_TDM_CONTROL -> offset ∉ offsets).
  { intros offset Hin Hne Ho. apply (Hx offset); [|done]. by apply list_elem_of_filter. }
  split.
  - intros id Hid. destruct (H1 id Hid) as [bandgap Hb]. exists bandgap. intros offset v Hin Hne.
    eapply proved_besides; [exact H| |by apply Hb]. apply Hout; [right; by eapply sensor_table_offset|done].
  - eapply proved_besides; [exact H| |done]. apply Hout; [by left|done].
Qed.

Lemma dll_besides offsets id e1 e2 : Forall (offsets_in offsets) e2 ->
  forallb (fun x => negb (existsb (Z.eqb x) offsets)) dll_disabled.*1 = true ->
  dll_off id e1 -> dll_off id (e1 ++ e2).
Proof.
  intros H Hd Ho offset v Hin. eapply proved_besides; [exact H| |by apply Ho]. intros Hb.
  apply (lists_disjoint _ _ Hd offset); [|done]. apply list_elem_of_fmap. by exists (offset, v).
Qed.

Lemma tuned_besides offsets d t e1 e2 : d ∈ domains -> Forall (offsets_in offsets) e2 ->
  forallb (fun x => negb (existsb (Z.eqb x) offsets)) (pll_registers 0 ++ pll_registers 1) = true ->
  tuned d t e1 -> tuned d t (e1 ++ e2).
Proof.
  intros Hdom H Hd Ht. apply pll_running_untouched; [done|]. intros offset Hin.
  eapply offsets_untouched; [exact H|]. intros Ho. apply (lists_disjoint _ _ Hd offset); [|done].
  apply domains_range in Hdom as [_ Hp]. apply elem_of_app.
  destruct (snd d) as [|[|n]]; [by left|by right|lia].
Qed.

Lemma reporting_besides offsets v e1 e2 : Forall (offsets_in offsets) e2 ->
  BZM_LOCAL_REG_RESULT_STATUS_CONTROL ∉ offsets -> reporting_evidence v e1 -> reporting_evidence v (e1 ++ e2).
Proof. intros H Hn Hc id Hid. eapply proved_besides; [done..|by apply Hc]. Qed.

Lemma activated_after P e1 e2 :
  (forall a offset, P a offset -> after_ramp a offset) -> Forall (writes_in P) e2 -> activated e1 -> activated (e1 ++ e2).
Proof.
  intros HP He (policy & before & ramp & after & -> & Hc & Hr & Ha). exists policy, before, ramp, (after ++ e2).
  split_and!; [by rewrite <- !app_assoc|done..|]. apply Forall_app. split; [done|].
  eapply Forall_impl; [exact He|]. intros [] H; cbn in *; eauto.
Qed.

(** ** Every call keeps the invariant *)

Definition keeps (c : bringup_call) (s : bzm_bringup_state_t) (x : bzm_bringup_report_t * bzm_bringup_state_t)
    (e : list bringup_event) : Prop :=
  forall known log, evidenced s known log ->
    well_formed (snd x) /\ evidenced (snd x) (clocks_known c (fst x) known) (log ++ e).

Lemma known_same c report known s log :
  refused report -> evidenced s known log -> evidenced s (clocks_known c report known) log.
Proof.
  intros Hr [? ? ? Ht ? ?]. split; try done. intros Hc Hk. apply Ht; [done|]. revert Hk. unfold clocks_known.
  rewrite (bool_decide_eq_false_2 _ Hr). destruct c, known; done.
Qed.

(** A stage in the sense of [called]. *)
Lemma called_keeps c s F fallen good x e : well_formed s ->
  called s F fallen good x e -> 
  (forall s', fallen s' -> Forall F e -> forall known log, evidenced s known log ->
     well_formed s' /\ evidenced s' known (log ++ e)) ->
  (forall report s', good s' e -> Forall F e -> outcome report = BZM_BRINGUP_GOOD ->
     keeps c s (report, s') e) ->
  keeps c s x e.
Proof.
  intros Hw. destruct x as [report s']. intros [(-> & -> & Hr)|[F1 [[Hr Hf]|[Hg G]]]] HF HG.
  - intros known log He. rewrite app_nil_r. split; [done|]. by apply known_same.
  - intros known log He. destruct (HF s' Hf F1 known log He). split; [done|by apply known_same].
  - by apply HG.
Qed.

Section keeps.
Context {W : Type} (gap_count : Z) (o : bzm_bringup_ops_t W).
Abbreviation ops := (traced_ops o).

Lemma chain_keeps s : well_formed s -> emits (perform gap_count ops CallChain4 s) (keeps CallChain4 s).
Proof.
  intros Hw. eapply emits_mono; [apply chain4_emits|]. intros x e Hx. eapply called_keeps; [done|exact Hx| |].
  - intros s' -> _ known log _. split; [|by split]. by split; [apply Hw|done..].
  - intros report s' [-> Hc] _ _ known log _. split; [by split; [apply Hw|done..]|]. split; try done.
    intros _ id Hid. by apply proved_later, Hc.
Qed.

Lemma sensors_later p e1 e2 : sensors_evidence p e2 -> sensors_evidence p (e1 ++ e2).
Proof.
  intros [H1 H2]. split; [|by apply proved_later]. intros id Hid. destruct (H1 id Hid) as [b Hb]. exists b.
  intros. by apply proved_later, Hb.
Qed.

Lemma sensors_keep reported s profile policy (c := CallSensors reported profile policy) :
  call_typed c -> well_formed s -> emits (perform gap_count ops c s) (keeps c s).
Proof.
  intros Ht Hw. eapply emits_mono; [apply sensors_emits; intros p Hp; by apply (Ht p)|].
  intros x e Hx.
  assert (Hchain : forall known log, Forall (writes_in sensor_writes) e -> evidenced s known log ->
    chain_verified s = true -> chain_evidence (log ++ e)).
  { intros known log F He Hc. eapply (chain_besides sensor_offsets); [|by apply (bool_decide_unpack _)|by eapply ev_chain].
    by eapply writes_offsets; [|exact F]. }
  eapply called_keeps; [done|exact Hx| |].
  - intros s' [t ->] F known log He. split; [by split; [apply Hw|done..]|]. split; try done. cbn. eauto.
  - intros report s' (Hc & t & p & pol & -> & _ & Hp & Hs & _) F _ known log He. split; [by split; [apply Hw|done..]|].
    split; try done; cbn; [by eapply Hchain|]. intros _. exists p. split; [done|by apply sensors_later].
Qed.

(** The evidence of the sensors and before, kept by later stages. *)
Lemma earlier_kept offsets s known log e :
  Forall (offsets_in offsets) e -> BZM_LOCAL_REG_ASIC_ID ∉ offsets ->
  forallb (fun x => negb (existsb (Z.eqb x) offsets))
    (filter (fun x => x <> BZM_LOCAL_REG_UART_TDM_CONTROL) sensor_offsets) = true ->
  evidenced s known log ->
  (chain_verified s = true -> chain_evidence (log ++ e)) /\
  (sensors_verified s = true -> exists p, sensor_profile_is_valid p = true /\ sensors_evidence p (log ++ e)).
Proof.
  intros F H1 H2 [Hc Hs _ _ _ _]. split; [intros H; by eapply chain_besides; [..|apply Hc]|].
  intros H. destruct (Hs H) as (p & Hp & He). exists p. split; [done|by eapply sensors_besides].
Qed.

(** The clock stage's profile is the target of a request of 800 MHz. *)
Lemma power_on_target : exists t, bzm_frequency_resolve_target BZM_FREQUENCY_POWER_ON_MHZ = Some t /\
  actual_mhz t = BZM_FREQUENCY_POWER_ON_MHZ /\ target_feedback_divider t = 128 /\ target_postdiv_register t = 0x1242.
Proof. eexists. split; [by vm_compute|]. by vm_compute. Qed.

Lemma domain_id_wire d : d ∈ domains -> domain_id d ∈ bzm_asic_wire_ids.
Proof. revert d. apply Forall_forall, (bool_decide_unpack _). by vm_compute. Qed.

Lemma clocks_tuned d e : d ∈ domains -> (forall id, id ∈ bzm_asic_wire_ids -> clocks_evidence id e) ->
  exists f t, bzm_frequency_resolve_target f = Some t /\ BZM_FREQUENCY_POWER_ON_MHZ = actual_mhz t /\ tuned d t e.
Proof.
  intros Hd H. destruct power_on_target as (t & Ht & Ha & Hf & Hp). exists BZM_FREQUENCY_POWER_ON_MHZ, t.
  split_and!; try done. unfold tuned. rewrite Hf, Hp. destruct (H _ (domain_id_wire d Hd)) as [[H0 H1] _].
  apply domains_range in Hd as [_ Hd]. destruct (snd d) as [|[|n]]; [done|done|lia].
Qed.

Lemma clocks_keep reported s profile policy (c := CallClocks reported profile policy) :
  call_typed c -> well_formed s -> emits (perform gap_count ops c s) (keeps c s).
Proof.
  intros Ht Hw. eapply emits_mono; [apply clocks_emits; intros p Hp; by apply (Ht p)|].
  intros x e Hx.
  assert (Hkeep : forall known log, Forall (writes_in clock_writes) e -> evidenced s known log ->
    (chain_verified s = true -> chain_evidence (log ++ e)) /\
    (sensors_verified s = true -> exists p, sensor_profile_is_valid p = true /\ sensors_evidence p (log ++ e))).
  { intros known log F He. eapply (earlier_kept clock_offsets); try done; [|by apply (bool_decide_unpack _)].
    by eapply writes_offsets; [|exact F]. }
  eapply called_keeps; [done|exact Hx| |].
  - intros s' [t ->] F known log He. destruct (Hkeep known log F He). destruct Hw. by split.
  - intros report s' (Hs & t & pol & -> & Hc & _) F _ known log He. destruct (Hkeep known log F He), Hw. split.
    + split; try done; [apply shaped_all|]. intros _ d Hd. cbn [snd]. rewrite clock_all by done.
      destruct (clocks_tuned d e Hd Hc) as (f & t' & ? & ? & _). by exists f, t'.
    + split; try done.
      * intros _ id Hid offset v Hin. by apply proved_later, (proj2 (Hc id Hid)).
      * intros _ _ d Hd. cbn [snd]. rewrite clock_all by done. destruct (clocks_tuned d e Hd Hc) as (f & t' & ? & ? & ?).
        exists f, t'. split_and!; try done. by apply pll_running_later.
Qed.

(** Calls that write the reporting register alone keep all the evidence of the clocks and before. *)
Lemma reporting_keeps s s' known log e : Forall (offsets_in [BZM_LOCAL_REG_RESULT_STATUS_CONTROL]) e ->
  evidenced s known log ->
  chain_verified s' = chain_verified s -> sensors_verified s' = sensors_verified s ->
  clocks_verified s' = clocks_verified s -> domain_clock_mhz s' = domain_clock_mhz s ->
  (balanced_ramp_verified s' = true -> activated (log ++ e)) ->
  (running_verified s' = true -> reporting_evidence BZM_RESULT_REPORT_ENABLED e) ->
  evidenced s' known (log ++ e).
Proof.
  intros F He E1 E2 E3 E4 Ha Hr. destruct (earlier_kept _ s known log e F) as [Hc Hs];
    [by apply (bool_decide_unpack _)|done|done|]. destruct He as [_ _ Hd Ht _ _]. split; rewrite ?E1, ?E2, ?E3, ?E4; try done.
  - intros H id Hid. by eapply dll_besides; [exact F| |apply Hd].
  - intros H Hk d Hin. destruct (Ht H Hk d Hin) as (f & t & ? & ? & ?). exists f, t. split_and!; try done.
    by eapply tuned_besides.
  - intros H id Hid. by apply proved_later, Hr.
Qed.

Lemma ramp_keeps reported s policy (c := CallRamp reported policy) :
  call_typed c -> well_formed s -> emits (perform gap_count ops c s) (keeps c s).
Proof.
  intros Ht Hw. eapply emits_mono; [apply ramp_emits; intros p Hp; by apply (Ht p)|].
  intros [report s'] e (F & H) known log He. cbn [fst snd] in *.
  assert (F' : Forall (offsets_in [BZM_LOCAL_REG_RESULT_STATUS_CONTROL]) e).
  { eapply Forall_impl; [exact F|]. intros [] Hx; try done. by apply list_elem_of_singleton. }
  destruct H as [(_ & -> & _)|(_ & Hc & Hcalls & -> & pol & _ & Hramp)]; (split; [destruct Hw; by split|]);
    eapply reporting_keeps; try done.
  intros _. exists pol, log, e, []. by rewrite app_nil_r.
Qed.

Lemma running_keeps reported s policy (c := CallRunning reported policy) :
  call_typed c -> well_formed s -> emits (perform gap_count ops c s) (keeps c s).
Proof.
  intros Ht Hw. eapply emits_mono; [apply running_emits; intros p Hp; by apply (Ht p)|].
  intros x e Hx.
  assert (F' : Forall (writes_in reporting_writes) e -> Forall (offsets_in [BZM_LOCAL_REG_RESULT_STATUS_CONTROL]) e).
  { apply writes_offsets. intros a b ->. by apply list_elem_of_singleton. }
  assert (Ha : forall known log, evidenced s known log -> Forall (writes_in reporting_writes) e ->
    balanced_ramp_verified s = true -> activated (log ++ e)).
  { intros known log He F Hb. eapply activated_after; [|exact F|by eapply ev_ramp].
    intros a offset Ho. unfold after_ramp. rewrite Ho. by left. }
  eapply called_keeps; [done|exact Hx| |].
  - intros s' -> F known log He. split; [destruct Hw; by split|].
    apply (reporting_keeps s); [by apply F'|done..|by apply (Ha known)|done].
  - intros report s' (Hramp & -> & Hr & _) F Hg known log He. split; [destruct Hw; by split|].
    apply (reporting_keeps s); eauto.
Qed.

Lemma domain_tuned (wanted : list (list f32)) d t e : bzm_frequency_resolve_target (domain_clock wanted d) = Some t -> tuned d t e ->
  exists f t', bzm_frequency_resolve_target f = Some t' /\ actual_mhz t = actual_mhz t' /\ tuned d t' e.
Proof. intros. by exists (domain_clock wanted d), t. Qed.

(** One domain of a live step: its stored clock can be produced, and is the hardware's
    when it was before and the step ended GOOD. *)
Lemma live_domain wanted jump report s s' e d : d ∈ domains ->
  (outcome report = BZM_BRINGUP_GOOD -> forall d, d ∈ domains -> settled wanted s' d) ->
  (if shortcut_taken wanted jump then together wanted report s s' e else stepwise wanted jump s s' e) ->
  (producible (clock s d) -> producible (clock s' d)) /\
  (outcome report = BZM_BRINGUP_GOOD -> forall log,
    (exists f t, bzm_frequency_resolve_target f = Some t /\ clock s d = actual_mhz t /\ tuned d t log) ->
    exists f t, bzm_frequency_resolve_target f = Some t /\ clock s' d = actual_mhz t /\ tuned d t (log ++ e)).
Proof.
  intros Hd Hg H. destruct (shortcut_taken wanted jump).
  - destruct H as [[Hr ->]|[Hgood Hj]]; [by split; [|intros ?]|]. destruct (Hj d Hd) as (t & Ht & E & Htu). rewrite E.
    split; [intros _; by exists (domain_clock wanted (0, 0)%nat), t|]. intros _ log _.
    exists (domain_clock wanted (0, 0)%nat), t. split_and!; try done. by apply pll_running_later.
  - destruct (H d Hd) as [[E Hc]|[_ (t & Ht & E & Htu & _)]]; rewrite E.
    + split; [done|]. intros Hgood log (f & t & Hf & Et & Htu). exists f, t. split_and!; try done.
      apply pll_running_untouched; [done|]. apply Hc. destruct (Hg Hgood d Hd) as (t' & ? & Hn).
      exists t'. split; [done|]. by rewrite <- E.
    + split; [intros _; by exists (domain_clock wanted d), t|]. intros _ log _.
      exists (domain_clock wanted d), t. split_and!; try done. by apply pll_running_later.
Qed.

Lemma live_keeps wanted jump s (c := CallLive wanted jump) :
  well_formed s -> emits (perform gap_count ops c s) (keeps c s).
Proof.
  intros Hw. eapply emits_mono; [apply live_frequency_emits; apply Hw|].
  intros [report s'] e (F & (E1 & E2 & E3 & E4 & E5) & Hs & Hg & H) known log He. cbn [fst snd] in *.
  assert (F' : Forall (offsets_in divider_offsets) e) by (by eapply writes_offsets; [|exact F]).
  pose proof (fun d Hd => live_domain wanted jump report s s' e d Hd Hg H) as Hdom.
  split.
  - destruct Hw. split; rewrite ?E1, ?E2, ?E3, ?E4, ?E5; try done.
    intros Hc d Hd. apply (Hdom d Hd). auto.
  - destruct (earlier_kept _ s known log e F') as [Hc Hse]; [by apply (bool_decide_unpack _)|done|done|].
    destruct He as [_ _ Hdl Ht Ha Hr]. split; rewrite ?E1, ?E2, ?E3, ?E4, ?E5; try done.
    + intros Hv id Hid. eapply dll_besides; [exact F'|done|by apply Hdl].
    + intros Hv [Hk Hgood]%andb_true_iff d Hd. apply bool_decide_eq_true in Hgood.
      apply (Hdom d Hd); [done|]. by apply Ht.
    + intros Hv. eapply activated_after; [|exact F|by apply Ha]. intros a offset Ho. by right.
    + intros Hv. eapply reporting_besides; [exact F'|by apply (bool_decide_unpack _)|by apply Hr].
Qed.

Lemma init_well_formed : well_formed bzm_bringup_init.
Proof. split; try done. apply shaped_all. Qed.

Lemma init_evidenced known log : evidenced bzm_bringup_init known log.
Proof. by split. Qed.

Lemma call_keeps c s : call_typed c -> well_formed s -> emits (perform gap_count ops c s) (keeps c s).
Proof.
  intros Ht Hw. destruct c.
  - apply emits_ret. intros known log _. split; [apply init_well_formed|apply init_evidenced].
  - by apply chain_keeps.
  - by apply sensors_keep.
  - by apply clocks_keep.
  - by apply ramp_keeps.
  - by apply running_keeps.
  - by apply live_keeps.
Qed.

Lemma run_keeps cs s known log : Forall call_typed cs -> well_formed s -> evidenced s known log ->
  emits (run gap_count ops cs s known) (fun x e => well_formed (fst x) /\ evidenced (fst x) (snd x) (log ++ e)).
Proof.
  intros Ht. revert s known log. induction Ht as [|c cs Hc Ht IH]; intros s known log Hw He; cbn [run].
  { apply emits_ret. by rewrite app_nil_r. }
  apply emits_bind. eapply emits_mono; [by apply call_keeps|]. intros [report s'] e1 Hk.
  destruct (Hk known log He) as [Hw' He'].
  eapply emits_mono; [by apply IH|]. intros x e2. by rewrite app_assoc.
Qed.
End keeps.

(** ** The theorems *)

(** C14: whatever the order and the arguments of the calls and whatever the hardware does,
    each of the five flags of the bring-up state has its evidence in the log: the chain, that
    each ASIC's identifier was read back; the sensors, that the sensor table of a valid profile,
    and the drive strength, were; the clocks, that the delay lines were read back off, and,
    unless a live step has failed since, that each domain's stored clock is that of dividers
    read back before a lock that was seen; running, that reporting was read back enabled; none
    of these registers was written since.  The balanced ramp: the log holds the calls of the
    whole activation script, with reporting read back off first and safe telemetry after each
    pair, and after it no call of the activation and no writes but those of reporting and
    of the clocks' dividers. *)
Theorem bringup_flags_evidenced {W} (gap_count : Z) (o : bzm_bringup_ops_t W) (cs : list bringup_call)
    (known : bool) (Ht : Forall call_typed cs) :
  emits (run gap_count (traced_ops o) cs bzm_bringup_init known) (fun '(s, known) log =>
    (chain_verified s = true -> chain_evidence log) /\
    (sensors_verified s = true -> exists p, sensor_profile_is_valid p = true /\ sensors_evidence p log) /\
    (clocks_verified s = true -> forall id, id ∈ bzm_asic_wire_ids -> dll_off id log) /\
    (clocks_verified s = true -> known = true -> forall d, d ∈ domains ->
       exists f t, bzm_frequency_resolve_target f = Some t /\ clock s d = actual_mhz t /\ tuned d t log) /\
    (balanced_ramp_verified s = true -> activated log) /\
    (running_verified s = true -> reporting_evidence BZM_RESULT_REPORT_ENABLED log)).
Proof.
  eapply emits_mono; [by apply (run_keeps gap_count o cs _ known []); [|apply init_well_formed|apply init_evidenced]|].
  intros [s k] e [_ [? ? ? ? ? ?]]. by split_and!.
Qed.

(** C18: every call keeps the form of the bring-up state: the clocks are four rows of two,
    a stage's flag implies those of the stages before it, and the clocks of a verified
    clock stage are frequencies the PLLs can be set to. *)
Theorem bringup_state_well_formed {W} (gap_count : Z) (o : bzm_bringup_ops_t W) (cs : list bringup_call)
    (known : bool) (Ht : Forall call_typed cs) :
  emits (run gap_count (traced_ops o) cs bzm_bringup_init known) (fun '(s, _) _ => well_formed s).
Proof.
  eapply emits_mono; [by apply (run_keeps gap_count o cs _ known []); [|apply init_well_formed|apply init_evidenced]|].
  by intros [s k] e [? _].
Qed.

(** C15: the balanced ramp implements the activation script: its commits and its barrier are
    a prefix of the script whatever fails, and the whole of it when the stage is GOOD.
    Then reporting was read back disabled on every ASIC first, every pair was committed
    inside its batch brackets in topology order, and after each pair safe telemetry with
    locked clocks, sent since the pair, was seen before the next. *)
Theorem balanced_ramp_follows_script {W} (o : bzm_bringup_ops_t W) (reported : bool) (s : bzm_bringup_state_t)
    (policy : bzm_bringup_telemetry_policy_t) (Ht : is_u8 (ch2_confirm_samples policy)) :
  emits (bzm_bringup_stage_balanced_ramp reported s (Some (traced_ops o)) (Some policy)) (fun '(report, s') e =>
    Forall ramp_frame e /\ ramp_calls e `prefix_of` ramp_script /\
    (balanced_ramp_verified s' = true <-> outcome report = BZM_BRINGUP_GOOD) /\
    (outcome report = BZM_BRINGUP_GOOD -> clocks_verified s = true /\ ramp_calls e = ramp_script /\
       ramp_evidence policy e)).
Proof.
  eapply emits_mono; [apply ramp_emits; intros p [= <-]; by apply Ht|].
  intros [report s'] e (F & H). cbn [fst snd] in H.
  destruct H as [(Hr & -> & Hp)|(Hg & Hc & Hs & -> & pol & [= <-] & He)].
  - by split_and!.
  - rewrite Hs. by split_and!.
Qed.

(** A clock stage that ends GOOD has, on every ASIC, read back dividers 128 and 0x1242
    on both PLLs and then seen both locks, read back both delay lines off, and afterwards
    seen safe telemetry with locked clocks sent since the configuration; all eight stored
    clocks are 800 MHz.  A stage that does not end GOOD either was refused before it began, having
    touched neither the hardware nor the state, or verifies no clocks, no ramp and no mining. *)
Theorem clock_stage_locks_plls {W} (gap_count : Z) (o : bzm_bringup_ops_t W) (reported : bool)
    (s : bzm_bringup_state_t) (profile : bzm_bringup_pll_profile_t) (policy : bzm_bringup_telemetry_policy_t)
    (Ht : is_u8 (ch2_confirm_samples policy)) :
  emits (bzm_bringup_stage_clocks gap_count reported s (Some (traced_ops o)) (Some profile) (Some policy))
    (fun '(report, s') e =>
       (outcome report = BZM_BRINGUP_GOOD -> sensors_verified s = true /\ clocks_verified s' = true /\
          (forall id, id ∈ bzm_asic_wire_ids -> clocks_evidence id e) /\
          telemetry_safe policy true (clocks_configured_us s') e /\
          forall d, d ∈ domains -> clock s' d = BZM_FREQUENCY_POWER_ON_MHZ) /\
       (outcome report <> BZM_BRINGUP_GOOD ->
          (e = [] /\ s' = s) \/
          (clocks_verified s' = false /\ balanced_ramp_verified s' = false /\ running_verified s' = false))).
Proof.
  eapply emits_mono; [apply clocks_emits; intros p [= <-]; by apply Ht|].
  intros [report s'] e [(-> & -> & Hr)|[_ [[Hr [t ->]]|[Hg (Hs & t & pol & -> & Hc & [= <-] & Hsafe)]]]].
  - split; [done|]. by left.
  - split; [done|]. by right.
  - split; [|by intros ?]. intros _. split_and!; try done. apply clock_all.
Qed.

(** C16: a live frequency step writes divider registers only and keeps every flag.  Outside
    the broadcast shortcut each of the eight ASIC/PLL domains either keeps its stored
    clock - and none of its three PLL registers is written if it was already where the
    request wants it - or moves to the frequency its request resolves to, by at most one
    ramp step unless the initial jump is allowed, with both dividers and then the lock read
    back and not written since, whatever the retries.  In the shortcut all domains move
    together or the state is unchanged.  A GOOD step leaves every domain at its request. *)
Theorem live_frequency_verified {W} (o : bzm_bringup_ops_t W) (wanted : list (list f32)) (jump : bool)
    (s : bzm_bringup_state_t) (Hs : shaped (domain_clock_mhz s)) :
  emits (bzm_bringup_live_frequency_domains_step s (Some (traced_ops o)) (Some wanted) jump)
    (fun '(report, s') e =>
       Forall (writes_in live_writes) e /\ same_flags s s' /\ shaped (domain_clock_mhz s') /\
       (outcome report = BZM_BRINGUP_GOOD -> forall d, d ∈ domains -> settled wanted s' d) /\
       if shortcut_taken wanted jump then together wanted report s s' e else stepwise wanted jump s s' e).
Proof. by apply live_frequency_emits. Qed.

(** ** A board *)

Module Demo.
(** Registers per ASIC, the identifiers assigned so far, and the time. *)
Record board := mk_board { regs : gmap (Z * Z) Z; assigned : Z; clock_us : Z }.

Definition set_reg (offset value : Z) (m : gmap (Z * Z) Z) (asic : Z) : gmap (Z * Z) Z := <[(asic, offset) := value]> m.
Definition later (b : board) : board := mk_board (regs b) (assigned b) (clock_us b + 10).

Definition probe (address : Z) : io board bzm_bringup_probe_result_t := fun b =>
  (if assigned b <? 4 then BZM_BRINGUP_PROBE_RESPONSE else BZM_BRINGUP_PROBE_NO_RESPONSE, b).
Definition write (address engine offset value : Z) : io board bool := fun b =>
  (true,
   if address =? BZM_BROADCAST_ASIC then
     mk_board (set_reg offset (Z.lor value 256) (regs b) (Z.land value 255)) (assigned b + 1) (clock_us b)
   else if address =? BZM_ALL_ASICS then
     mk_board (foldl (set_reg offset value) (regs b) bzm_asic_wire_ids) (assigned b) (clock_us b)
   else mk_board (set_reg offset value (regs b) address) (assigned b) (clock_us b)).
(** A PLL locks as soon as it is on. *)
Definition read (asic engine offset old : Z) : io board (bool * Z) := fun b =>
  let v := default 0 (regs b !! (asic, offset)) in
  (true, if ((offset =? 0x12) || (offset =? 0x1c)) && Z.testbit v 0 then Z.lor v 4 else v, b).
Definition now : io board Z := fun b => (clock_us b, later b).
(** Every ASIC sends the same safe sample at every snapshot. *)
Definition samples : Z -> bzm_telemetry_store_t := Eval vm_compute in fun ts => Telemetry.Demo.store ts 0x82.
Definition snapshot (old : bzm_telemetry_store_t) : io board (bool * bzm_telemetry_store_t) := fun b =>
  (true, samples (clock_us b), later b).
Definition ops : bzm_bringup_ops_t board :=
  {| op_probe_noop := Some probe; op_write_u32 := Some write; op_read_u32 := Some read;
     op_delay_ms := Some (fun _ => io_ret tt); op_now_us := Some now; op_telemetry_snapshot := Some snapshot;
     op_balanced_batch_begin := Some (fun _ => io_ret true);
     op_balanced_pair_commit := Some (fun _ _ => io_ret true);
     op_balanced_batch_end := Some (fun _ => io_ret true);
     op_activation_barrier := Some (fun _ _ => io_ret true) |}.

Definition policy : bzm_bringup_telemetry_policy_t :=
  {| bounds := Telemetry.Demo.bounds; max_age_us := 1000; ch2_confirm_samples := 3 |}.
Definition sensors : bringup_call := CallSensors true (Some (bzm_bringup_reference_sensor_profile 10)) (Some policy).
Definition clocks : bringup_call := CallClocks true (Some bzm_bringup_pll_800_profile) (Some policy).
Definition wanted : list (list f32) := replicate 4 (replicate 2 (f32_of_Z 825)).
Definition bringup : list bringup_call :=
  [CallChain4; sensors; clocks; CallRamp true (Some policy); CallRunning true (Some policy); CallLive wanted false].

Definition blank : board := mk_board ∅ 0 100.

Lemma bringup_typed : Forall call_typed bringup.
Proof. repeat (apply Forall_cons; split; [intros p [= <-]; by vm_compute|]). constructor. Qed.
Lemma policy_typed : is_u8 (ch2_confirm_samples policy).
Proof. by vm_compute. Qed.

(** A run from a board, and what a specification says of it. *)
Definition run_on {A} (m : io (board * list bringup_event) A) (b : board) : A * (board * list bringup_event) := m (b, []).
Lemma emits_at {A} (m : io (board * list bringup_event) A) post b : emits m post ->
  post (fst (run_on m b)) (snd (snd (run_on m b))).
Proof. intros H. unfold run_on. destruct (H b []) as (a & w & e & E & Hp). by rewrite E. Qed.

(** The calls on a board that works, and what they leave. *)
Abbreviation finished := (run_on (run 10 (traced_ops ops) bringup bzm_bringup_init false) blank).
Lemma finished_good : running_verified (fst (fst finished)) = true /\ domain_clock_mhz (fst (fst finished)) = wanted.
Proof. by vm_compute. Qed.

Lemma bringup_flags_evidenced_witness : reporting_evidence BZM_RESULT_REPORT_ENABLED (snd (snd finished)).
Proof.
  pose proof (emits_at _ _ blank (bringup_flags_evidenced 10 ops bringup false bringup_typed)) as H.
  pose proof finished_good as [Hr _]. destruct finished as [[s known] [w log]]. by apply H.
Defined.

Lemma bringup_state_well_formed_witness : well_formed (fst (fst finished)).
Proof.
  pose proof (emits_at _ _ blank (bringup_state_well_formed 10 ops bringup false bringup_typed)) as H.
  destruct finished as [[s known] [w log]]. exact H.
Defined.

(** The stages on the state the ones before them left. *)
Definition sensed : bzm_bringup_state_t := bzm_bringup_init <| chain_verified := true; sensors_verified := true |>.
Definition clocked : bzm_bringup_state_t := set_all_domain_clocks (sensed <| clocks_verified := true |>) (f32_of_Z 800).
Definition configured : board := fst (snd (run 10 (traced_ops ops) [CallChain4; sensors] bzm_bringup_init false (blank, []))).

Abbreviation clocks_run := (run_on (bzm_bringup_stage_clocks 10 true sensed (Some (traced_ops ops))
  (Some bzm_bringup_pll_800_profile) (Some policy)) configured).
Lemma clocks_good : outcome (fst (fst clocks_run)) = BZM_BRINGUP_GOOD.
Proof. by vm_compute. Qed.
Lemma clock_stage_locks_plls_witness : is_u8 (ch2_confirm_samples policy) /\
  forall id, id ∈ bzm_asic_wire_ids -> clocks_evidence id (snd (snd clocks_run)).
Proof.
  split; [exact policy_typed|].
  pose proof (emits_at _ _ configured 
    (clock_stage_locks_plls 10 ops true sensed bzm_bringup_pll_800_profile policy policy_typed)) as H.
  pose proof clocks_good as Hg. destruct clocks_run as [[report s] [w log]]. by apply H.
Defined.

Abbreviation ramp_run := (run_on (bzm_bringup_stage_balanced_ramp true clocked (Some (traced_ops ops)) (Some policy)) blank).
Lemma ramp_good : outcome (fst (fst ramp_run)) = BZM_BRINGUP_GOOD.
Proof. by vm_compute. Qed.
Lemma balanced_ramp_follows_script_witness : is_u8 (ch2_confirm_samples policy) /\
  ramp_calls (snd (snd ramp_run)) = ramp_script.
Proof.
  split; [exact policy_typed|].
  pose proof (emits_at _ _ blank (balanced_ramp_follows_script ops true clocked policy policy_typed)) as H.
  pose proof ramp_good as Hg. destruct ramp_run as [[report s] [w log]]. by apply H.
Defined.

Definition running : bzm_bringup_state_t := clocked <| balanced_ramp_verified := true; running_verified := true |>.
Definition locked : board := fst (snd clocks_run).
Abbreviation live_run :=
  (run_on (bzm_bringup_live_frequency_domains_step running (Some (traced_ops ops)) (Some wanted) false) locked).
Lemma live_good : outcome (fst (fst live_run)) = BZM_BRINGUP_GOOD.
Proof. by vm_compute. Qed.
Lemma live_frequency_verified_witness : shaped (domain_clock_mhz running) /\
  forall d, d ∈ domains -> settled wanted (snd (fst live_run)) d.
Proof.
  split; [apply shaped_all|].
  pose proof (emits_at _ _ locked (live_frequency_verified ops wanted false running (shaped_all _))) as H.
  pose proof live_good as Hg. destruct live_run as [[report s] [w log]]. by apply H.
Defined.
End Demo.
