(* ===== verification/Swd.v ===== *)
(** * The two-wire debug link to the bridge processor

    Models the lower half of src/components/asic/bzm_bridge_swd.c: the serial wire
    bus driven over two GPIO pins, the register transfers of the debug port, and the
    word accesses of its memory port.  The GPIO, ROM and FreeRTOS calls are a record of
    operations over the world [V]; the file's three static flags, which remember what the
    pins are set to, are threaded beside it.  A register's acknowledgement is an
    out-parameter that no caller asks for and is left out, as are the log lines; an
    out-parameter written on success only is the result.

    [swd_link] is what the flash programming of SwdFlash.v uses; [swd_wire_link]
    implements it.  The last part states what the transfers put on the bus, against a
    reference of the packets of the debug interface and any target. *)

From Stdlib Require Import Ring.
From S2P Require Import Prelude Trace.
Open Scope Z_scope.
Open Scope io_scope.
Open Scope attempt_scope.

(** ** Constants *)

Definition SWD_SWCLK_PIN : Z := 1.
Definition SWD_SWDIO_PIN : Z := 2.
Definition SWD_HALF_PERIOD_US : Z := 5.
Definition SWD_IDLE_LOW_BITS : nat := 8.
Definition SWD_ACK_OK : Z := 1.
Definition SWD_ACK_WAIT : Z := 2.
Definition SWD_ACK_NONE : Z := 7.
Definition SWD_DP_TARGETSEL_REQ : Z := 0x99.
Definition RP2040_TARGETSEL_CORE0 : Z := 0x01002927.
Definition RP2040_TARGETSEL_CORE1 : Z := 0x11002927.
Definition SWD_DP_ABORT_ADDR : Z := 0x00.
Definition SWD_DP_DPIDR_ADDR : Z := 0x00.
Definition SWD_DP_CTRL_STAT_ADDR : Z := 0x04.
Definition SWD_DP_SELECT_ADDR : Z := 0x08.
Definition SWD_DP_RDBUFF_ADDR : Z := 0x0C.
Definition SWD_DP_ABORT_CLEAR_ALL : Z :=
  Z.lor (Z.lor (Z.lor (Z.shiftl 1 4) (Z.shiftl 1 3)) (Z.shiftl 1 2)) (Z.shiftl 1 1).
Definition SWD_DP_POWERUP_REQ : Z := Z.lor (Z.shiftl 1 28) (Z.shiftl 1 30).
Definition SWD_DP_POWERUP_ACK : Z := Z.lor (Z.shiftl 1 29) (Z.shiftl 1 31).
Definition SWD_APSEL_MEM_AP : Z := 0.
Definition SWD_MEM_AP_REG_CSW : Z := 0x00.
Definition SWD_MEM_AP_REG_TAR : Z := 0x04.
Definition SWD_MEM_AP_REG_DRW : Z := 0x0C.
Definition SWD_MEM_AP_CSW_AHB_DEFAULT : Z :=
  Z.lor (Z.lor (Z.shiftl 1 25) (Z.shiftl 1 29)) (Z.shiftl 1 31).
Definition SWD_MEM_AP_CSW_WORD : Z := Z.lor (Z.lor SWD_MEM_AP_CSW_AHB_DEFAULT 0) 2.
Definition SWD_MAX_RETRIES : nat := 16.
Definition SWD_POWERUP_POLL_LIMIT : nat := 32.

(** ** The interface *)

(** The operations of the link, each a failure or its result. *)
Record swd_link (V : Type) := mk_link {
  link_configure : attempt esp_err_t V unit;
  link_claim : io V unit;
  link_release : io V unit;
  link_attach : Z -> attempt esp_err_t V unit;
  link_read : Z -> attempt esp_err_t V Z;
  link_write : Z -> Z -> attempt esp_err_t V unit;
  link_cooperate : io V unit;
}.
Arguments mk_link {V}.
Arguments link_configure {V}.
Arguments link_claim {V}.
Arguments link_release {V}.
Arguments link_attach {V}.
Arguments link_read {V}.
Arguments link_write {V}.
Arguments link_cooperate {V}.

(** [ESP_RETURN_ON_ERROR] *)
Definition return_on_error {V} (m : io V esp_err_t) : attempt esp_err_t V unit :=
  io_bind m (fun err => if bool_decide (err = ESP_OK) then succeeds tt else fails err).

(** A [for] loop that leaves with the first answer of its body, or with an error. *)
Fixpoint poll_each {V A} (indices : list nat) (body : nat -> attempt esp_err_t V (option A)) (late : esp_err_t)
    : attempt esp_err_t V A :=
  match indices with
  | [] => fails late
  | i :: indices =>
      let* answer := body i in
      match answer with
      | Some a => succeeds a
      | None => poll_each indices body late
      end
  end.

(** A [for] loop whose body cannot fail. *)
Fixpoint io_each {V A} (xs : list A) (body : A -> io V unit) : io V unit :=
  match xs with
  | [] => io_ret tt
  | x :: xs => let! _ := body x in io_each xs body
  end.

(** *** Its law: an error is not [ESP_OK] *)

Definition sound {V A} (m : attempt esp_err_t V A) : Prop := yields m (fun r => r <> inl ESP_OK).

Class LinkErrors {V} (l : swd_link V) : Prop := {
  configure_sound : sound (link_configure l);
  attach_sound targetsel : sound (link_attach l targetsel);
  read_sound address : sound (link_read l address);
  write_sound address value : sound (link_write l address value);
}.

Section sound.
Context {V : Type}.

Lemma sound_succeeds {A} (a : A) : sound (V := V) (succeeds a).
Proof. by apply yields_ret. Qed.
Lemma sound_fails {A} err : err <> ESP_OK -> sound (V := V) (A := A) (fails err).
Proof. intros H. apply yields_ret. congruence. Qed.
Lemma sound_bind {A B} (m : attempt esp_err_t V A) (k : A -> attempt esp_err_t V B) :
  sound m -> (forall a, sound (k a)) -> sound (attempt_bind m k).
Proof.
  intros Hm Hk. eapply yields_bind; [exact Hm|]. intros [err|a] Hr; [|apply Hk].
  apply sound_fails. congruence.
Qed.
Lemma sound_performs {A} (m : io V A) : sound (performs m).
Proof. apply (yields_bind _ _ (fun _ => True)); [done|]. intros a _. apply sound_succeeds. Qed.
Lemma sound_return_on_error (m : io V esp_err_t) : sound (return_on_error m).
Proof.
  apply (yields_bind _ _ (fun _ => True)); [done|]. intros err _.
  case_bool_decide; [apply sound_succeeds|by apply sound_fails].
Qed.
Lemma sound_poll {A} indices (body : nat -> attempt esp_err_t V (option A)) late :
  late <> ESP_OK -> (forall i, sound (body i)) -> sound (poll_each indices body late).
Proof.
  intros Hl Hb. induction indices as [|i indices IH]; [by apply sound_fails|].
  apply sound_bind; [apply Hb|]. intros [a|]; [apply sound_succeeds|exact IH].
Qed.
Lemma sound_for_each {A} (xs : list A) (body : A -> attempt esp_err_t V unit) :
  (forall x, sound (body x)) -> sound (for_each xs body).
Proof.
  intros Hb. induction xs as [|x xs IH]; [apply sound_succeeds|]. apply sound_bind; [apply Hb|done].
Qed.
End sound.

Create HintDb sound.
#[export] Hint Resolve sound_succeeds sound_performs sound_return_on_error
  configure_sound attach_sound read_sound write_sound : sound.
#[export] Hint Extern 2 (sound (fails _)) => apply sound_fails; discriminate : sound.

(** Walk through a body, one operation at a time. *)
Ltac sound_step :=
  lazymatch goal with
  | |- forall _, _ => intros ?
  | |- sound (attempt_bind _ _) => apply sound_bind
  | |- sound (poll_each _ _ _) => apply sound_poll; [discriminate|]
  | |- sound (for_each _ _) => apply sound_for_each
  | |- sound (if ?c then _ else _) => destruct c
  | |- sound (match ?x with _ => _ end) => destruct x
  | |- sound _ => solve [auto with sound]
  end.
Ltac sound_solve := repeat sound_step.

(** ** The pins *)

Inductive gpio_mode_t := GPIO_MODE_OUTPUT | GPIO_MODE_INPUT_OUTPUT.
#[export] Instance gpio_mode_t_eq_dec : EqDecision gpio_mode_t.
Proof. solve_decision. Defined.

Record gpio_config_t := mk_gpio_config {
  pin_bit_mask : Z;
  mode : gpio_mode_t;
  pull_up_en : bool;
  pull_down_en : bool;
  interrupts : bool;
}.

(** The calls of ESP-IDF that this file makes. *)
Record gpio_ops (V : Type) := mk_gpio {
  gpio_config : gpio_config_t -> io V esp_err_t;
  gpio_ll_set_level : Z -> bool -> io V unit;
  gpio_ll_output_enable : Z -> io V unit;
  gpio_ll_output_disable : Z -> io V unit;
  gpio_ll_get_level : Z -> io V bool;
  esp_rom_delay_us : Z -> io V unit;
  vTaskDelay : Z -> io V unit;
}.
Arguments mk_gpio {V}.
Arguments gpio_config {V}.
Arguments gpio_ll_set_level {V}.
Arguments gpio_ll_output_enable {V}.
Arguments gpio_ll_output_disable {V}.
Arguments gpio_ll_get_level {V}.
Arguments esp_rom_delay_us {V}.
Arguments vTaskDelay {V}.

(** The static flags. *)
Record swd_pins := mk_pins {
  s_swclk_is_output : bool;
  s_swdio_is_output : bool;
  s_turn_is_write : bool;
}.
#[export] Instance swd_pins_eta : Eta swd_pins := fun s =>
  mk_pins (s_swclk_is_output s) (s_swdio_is_output s) (s_turn_is_write s).

Section wire.
Context {V : Type} (g : gpio_ops V).

Abbreviation world := (swd_pins * V)%type.
Abbreviation attempt := (Prelude.attempt esp_err_t world).

Definition hal {A} (m : io V A) : io world A := fun '(s, v) => let '(a, v) := m v in (a, (s, v)).
Definition pins : io world swd_pins := fun '(s, v) => (s, (s, v)).
Definition set_pins (f : swd_pins -> swd_pins) : io world unit := fun '(s, v) => (tt, (f s, v)).
Definition when (c : bool) (m : io world unit) : io world unit := if c then m else io_ret tt.

Definition swd_cooperate : io world unit := hal (vTaskDelay g 1).
Definition swd_delay : io world unit := hal (esp_rom_delay_us g SWD_HALF_PERIOD_US).

Definition swd_set_swclk_output (level : bool) : io world unit :=
  let! _ := hal (gpio_ll_set_level g SWD_SWCLK_PIN level) in
  let! s := pins in
  when (negb (s_swclk_is_output s))
    (let! _ := hal (gpio_ll_output_enable g SWD_SWCLK_PIN) in
     set_pins (fun s => s <| s_swclk_is_output := true |>)).

Definition swd_set_swclk_input : io world unit :=
  let! s := pins in
  when (s_swclk_is_output s)
    (let! _ := hal (gpio_ll_output_disable g SWD_SWCLK_PIN) in
     set_pins (fun s => s <| s_swclk_is_output := false |>)).

Definition swd_set_swdio_level (level : bool) : io world unit := hal (gpio_ll_set_level g SWD_SWDIO_PIN level).

Definition swd_set_swdio_output (enabled : bool) : io world unit :=
  let! s := pins in
  if enabled then
    when (negb (s_swdio_is_output s))
      (let! _ := hal (gpio_ll_output_enable g SWD_SWDIO_PIN) in
       set_pins (fun s => s <| s_swdio_is_output := true |>))
  else
    when (s_swdio_is_output s)
      (let! _ := hal (gpio_ll_output_disable g SWD_SWDIO_PIN) in
       set_pins (fun s => s <| s_swdio_is_output := false |>)).

Definition swd_get_swdio : io world bool := hal (gpio_ll_get_level g SWD_SWDIO_PIN).

Definition swd_clock_low : io world unit := let! _ := swd_set_swclk_output false in swd_delay.
Definition swd_clock_high : io world unit := let! _ := swd_set_swclk_output true in swd_delay.

Definition swd_turn (write_mode : bool) : io world unit :=
  let! _ := swd_set_swdio_level true in
  let! _ := swd_set_swdio_output false in
  let! _ := swd_clock_low in
  let! _ := swd_clock_high in
  let! _ := when write_mode
    (let! _ := hal (gpio_ll_output_enable g SWD_SWDIO_PIN) in
     set_pins (fun s => s <| s_swdio_is_output := true |>)) in
  set_pins (fun s => s <| s_turn_is_write := write_mode |>).

Definition turn_if_reading : io world unit :=
  let! s := pins in when (negb (s_turn_is_write s)) (swd_turn true).
Definition turn_if_writing : io world unit :=
  let! s := pins in when (s_turn_is_write s) (swd_turn false).

Definition write_bit (level : bool) : io world unit :=
  let! _ := swd_set_swdio_level level in
  let! _ := swd_clock_low in
  swd_clock_high.

Definition swd_write_bits (value : Z) (bit_count : nat) : io world unit :=
  let! _ := turn_if_reading in
  io_each (seq 0 bit_count) (fun i => write_bit (has_bits (Z.shiftr value (Z.of_nat i)) 1)).

Fixpoint read_bits_from (bit_count : nat) (value input_bit : Z) : io world Z :=
  match bit_count with
  | O => io_ret value
  | S bit_count =>
      let! level := swd_get_swdio in
      let! _ := swd_clock_low in
      let! _ := swd_clock_high in
      read_bits_from bit_count (if level then Z.lor value input_bit else value) (u32 (Z.shiftl input_bit 1))
  end.

Definition swd_read_bits (bit_count : nat) : io world Z :=
  let! _ := turn_if_writing in
  read_bits_from bit_count 0 1.

Definition swd_even_parity32 (value : Z) : Z :=
  let value := Z.lxor value (Z.shiftr value 16) in
  let value := Z.lxor value (Z.shiftr value 8) in
  let value := Z.lxor value (Z.shiftr value 4) in
  let value := Z.land value 0x0F in
  Z.land (Z.shiftr 0x6996 value) 1.

Definition swd_write_sequence (bytes : list Z) (bit_count : nat) : io world unit :=
  let! _ := turn_if_reading in
  io_each (seq 0 bit_count) (fun i =>
    write_bit (has_bits (Z.shiftr (byte_at bytes (i / 8)) (Z.of_nat (i mod 8))) 1)).

Definition swd_claim_pins : io world unit :=
  let! _ := swd_set_swclk_output true in
  let! _ := swd_set_swdio_level true in
  let! _ := swd_set_swdio_output true in
  set_pins (fun s => s <| s_turn_is_write := true |>).

Definition swd_release_pins : io world unit :=
  let! _ := swd_set_swclk_input in
  let! _ := swd_set_swdio_output false in
  set_pins (fun s => s <| s_turn_is_write := false |>).

Definition swd_idle_cycles (cycles : nat) : io world unit := swd_write_bits 0 cycles.

Definition swd_make_request (ap read : bool) (addr : Z) : Z :=
  let a2 := Z.land (Z.shiftr addr 2) 1 in
  let a3 := Z.land (Z.shiftr addr 3) 1 in
  let parity := Z.lxor (Z.lxor (Z.lxor (Z.b2z ap) (Z.b2z read)) a2) a3 in
  u8 (Z.lor (Z.lor (Z.lor (Z.lor (Z.lor 0x81 (Z.shiftl (Z.b2z ap) 1)) (Z.shiftl (Z.b2z read) 2))
    (Z.shiftl a2 3)) (Z.shiftl a3 4)) (Z.shiftl parity 5)).

Definition jtag_to_dormant : list Z := [0xff; 0x75; 0x77; 0x77; 0x67].
Definition dormant_to_swd : list Z :=
  [0xff; 0x92; 0xf3; 0x09; 0x62; 0x95; 0x2d; 0x85; 0x86; 0xe9; 0xaf; 0xdd; 0xe3; 0xa2;
   0x0e; 0xbc; 0x19; 0xa0; 0xf1; 0xff; 0xff; 0xff; 0xff; 0xff; 0xff; 0xff; 0xff; 0x00].

Definition swd_switch_jtag_to_dormant : io world unit :=
  let! _ := swd_set_swdio_level true in swd_write_sequence jtag_to_dormant 40.
Definition swd_switch_dormant_to_swd : io world unit :=
  let! _ := swd_set_swdio_level true in swd_write_sequence dormant_to_swd 224.

(** ** Register transfers *)

Definition swd_write_targetsel (targetsel : Z) : io world unit :=
  let! _ := swd_write_bits SWD_DP_TARGETSEL_REQ 8 in
  let! _ := swd_read_bits 3 in
  let! _ := swd_write_bits targetsel 32 in
  swd_write_bits (swd_even_parity32 targetsel) 1.

(** The data phase of a read: the word, unless its parity is wrong. *)
Definition read_data : attempt Z :=
  let* data := performs (swd_read_bits 32) in
  let* parity_bit := performs (swd_read_bits 1) in
  let* _ := performs (swd_write_bits 0 1) in
  if negb (u8 parity_bit =? swd_even_parity32 data) then fails ESP_ERR_INVALID_CRC else succeeds data.

Definition swd_read_dpidr : attempt Z :=
  let request := swd_make_request false true SWD_DP_DPIDR_ADDR in
  let* _ := performs (swd_write_bits request 8) in
  let* ack := performs (swd_read_bits 3) in
  if negb (u8 ack =? SWD_ACK_OK) then
    let* _ := performs (swd_write_bits 0 32) in
    fails ESP_ERR_INVALID_RESPONSE
  else read_data.

Definition swd_read_reg (ap : bool) (addr : Z) : attempt Z :=
  let request := swd_make_request ap true addr in
  let* _ := performs (swd_write_bits request 8) in
  let* ack := performs (swd_read_bits 3) in
  if negb (u8 ack =? SWD_ACK_OK) then
    let* _ := performs (swd_write_bits 0 1) in
    fails ESP_ERR_INVALID_RESPONSE
  else
    let* data := read_data in
    let* _ := performs (when ap (swd_idle_cycles SWD_IDLE_LOW_BITS)) in
    succeeds data.

(** The acknowledgement of a write: a target that asks to wait gets the request again. *)
Fixpoint write_acknowledge (request : Z) (retries : nat) (ack : Z) : io world Z :=
  match retries with
  | O => io_ret ack
  | S retries =>
      let! ack := swd_read_bits 3 in
      if u8 ack =? SWD_ACK_WAIT then
        let! _ := swd_write_bits 0 1 in
        let! _ := swd_idle_cycles SWD_IDLE_LOW_BITS in
        let! _ := swd_write_bits request 8 in
        write_acknowledge request retries (u8 ack)
      else io_ret (u8 ack)
  end.

Definition swd_write_reg (ap : bool) (addr value : Z) : attempt unit :=
  let request := swd_make_request ap false addr in
  let* _ := performs (swd_write_bits request 8) in
  let* ack := performs (write_acknowledge request SWD_MAX_RETRIES SWD_ACK_NONE) in
  if negb (ack =? SWD_ACK_OK) then
    let* _ := performs (swd_write_bits 0 1) in
    fails ESP_ERR_INVALID_RESPONSE
  else
    let* _ := performs (swd_write_bits value 32) in
    let* _ := performs (swd_write_bits (swd_even_parity32 value) 1) in
    let* _ := performs (swd_write_bits 0 1) in
    performs (when ap (swd_idle_cycles SWD_IDLE_LOW_BITS)).

Definition swd_read_dp (addr : Z) : attempt Z := swd_read_reg false addr.
Definition swd_write_dp (addr value : Z) : attempt unit := swd_write_reg false addr value.

(** ** The memory port *)

Definition swd_select_ap_bank (ap_sel ap_reg_addr : Z) : attempt unit :=
  swd_write_dp SWD_DP_SELECT_ADDR (Z.lor (u32 (Z.shiftl ap_sel 24)) (Z.land ap_reg_addr 0xF0)).

Definition swd_read_ap (ap_sel ap_reg_addr : Z) : attempt Z :=
  let* _ := swd_select_ap_bank ap_sel ap_reg_addr in
  let* _ := swd_read_reg true ap_reg_addr in
  swd_read_dp SWD_DP_RDBUFF_ADDR.

Definition swd_write_ap (ap_sel ap_reg_addr value : Z) : attempt unit :=
  let* _ := swd_select_ap_bank ap_sel ap_reg_addr in
  swd_write_reg true ap_reg_addr value.

Definition swd_power_up_debug : attempt unit :=
  let* _ := swd_write_dp SWD_DP_ABORT_ADDR SWD_DP_ABORT_CLEAR_ALL in
  let* _ := swd_write_dp SWD_DP_SELECT_ADDR 0 in
  let* _ := swd_write_dp SWD_DP_CTRL_STAT_ADDR SWD_DP_POWERUP_REQ in
  poll_each (seq 0 SWD_POWERUP_POLL_LIMIT) (fun _ =>
    let* ctrl_stat := swd_read_dp SWD_DP_CTRL_STAT_ADDR in
    if all_bits ctrl_stat SWD_DP_POWERUP_ACK then succeeds (Some tt)
    else let* _ := performs swd_cooperate in succeeds None) ESP_ERR_TIMEOUT.

Definition swd_setup_mem_ap : attempt unit := swd_write_ap SWD_APSEL_MEM_AP SWD_MEM_AP_REG_CSW SWD_MEM_AP_CSW_WORD.

Definition swd_mem_read_word32 (address : Z) : attempt Z :=
  let* _ := swd_setup_mem_ap in
  let* _ := swd_write_ap SWD_APSEL_MEM_AP SWD_MEM_AP_REG_TAR address in
  swd_read_ap SWD_APSEL_MEM_AP SWD_MEM_AP_REG_DRW.

Definition swd_mem_write_word32 (address value : Z) : attempt unit :=
  let* _ := swd_setup_mem_ap in
  let* _ := swd_write_ap SWD_APSEL_MEM_AP SWD_MEM_AP_REG_TAR address in
  swd_write_ap SWD_APSEL_MEM_AP SWD_MEM_AP_REG_DRW value.

Definition swd_attach_target (targetsel : Z) : attempt unit :=
  let* _ := performs swd_switch_jtag_to_dormant in
  let* _ := performs swd_switch_dormant_to_swd in
  let* _ := performs (swd_write_targetsel targetsel) in
  let* _ := swd_read_dpidr in
  swd_power_up_debug.

Definition swclk_config : gpio_config_t :=
  {| pin_bit_mask := Z.shiftl 1 SWD_SWCLK_PIN; mode := GPIO_MODE_OUTPUT; pull_up_en := false;
     pull_down_en := false; interrupts := false |}.
Definition swdio_config : gpio_config_t :=
  {| pin_bit_mask := Z.shiftl 1 SWD_SWDIO_PIN; mode := GPIO_MODE_INPUT_OUTPUT; pull_up_en := true;
     pull_down_en := false; interrupts := false |}.

Definition swd_configure_pins : attempt unit :=
  let* _ := return_on_error (hal (gpio_config g swclk_config)) in
  let* _ := return_on_error (hal (gpio_config g swdio_config)) in
  performs swd_release_pins.

Definition swd_wire_link : swd_link world :=
  {| link_configure := swd_configure_pins; link_claim := swd_claim_pins; link_release := swd_release_pins;
     link_attach := swd_attach_target; link_read := swd_mem_read_word32; link_write := swd_mem_write_word32;
     link_cooperate := swd_cooperate |}.

(** *** The link keeps its law *)

Lemma read_data_sound : sound read_data.
Proof. unfold read_data. sound_solve. Qed.
Hint Resolve read_data_sound : sound.
Lemma swd_read_reg_sound ap addr : sound (swd_read_reg ap addr).
Proof. unfold swd_read_reg. sound_solve. Qed.
Lemma swd_write_reg_sound ap addr value : sound (swd_write_reg ap addr value).
Proof. unfold swd_write_reg. sound_solve. Qed.
Hint Resolve swd_read_reg_sound swd_write_reg_sound : sound.
Lemma swd_write_ap_sound sel addr value : sound (swd_write_ap sel addr value).
Proof. unfold swd_write_ap, swd_select_ap_bank, swd_write_dp. sound_solve. Qed.
Hint Resolve swd_write_ap_sound : sound.

#[export] Instance swd_wire_link_errors : LinkErrors swd_wire_link.
Proof.
  split; cbn [link_configure link_attach link_read link_write swd_wire_link].
  - unfold swd_configure_pins. sound_solve.
  - intros targetsel.
    unfold swd_attach_target, swd_read_dpidr, swd_power_up_debug, swd_read_dp, swd_write_dp. sound_solve.
  - intros address. unfold swd_mem_read_word32, swd_setup_mem_ap, swd_read_ap, swd_select_ap_bank, swd_read_dp, swd_write_dp.
    sound_solve.
  - intros address value. unfold swd_mem_write_word32, swd_setup_mem_ap. sound_solve.
Qed.
End wire.

(** ** What reaches the bus

    The wires as the target sees them: it samples the data line on the rising edge of the
    clock.  A cycle is a level that the host drives, or one in which the line is the
    target's, whose level then depends in any way on the cycles so far. *)

Module Bus.
Inductive cycle := Driven (level : bool) | Released.
#[export] Instance cycle_eq_dec : EqDecision cycle.
Proof. solve_decision. Defined.

Record wire := mk_wire {
  clk : bool;
  clk_out : bool;
  dio : bool;
  dio_out : bool;
  cycles : list cycle;
}.
#[export] Instance wire_eta : Eta wire := fun w => mk_wire (clk w) (clk_out w) (dio w) (dio_out w) (cycles w).

Definition updates (f : wire -> wire) : io wire unit := fun w => (tt, f w).
Definition set_clock (level : bool) (w : wire) : wire :=
  if level && negb (clk w) && clk_out w
  then w <| clk := level; cycles := cycles w ++ [if dio_out w then Driven (dio w) else Released] |>
  else w <| clk := level |>.

(** Two pins with a target behind them; configuring a pin enables its output. *)
Definition wire_gpio (target : list cycle -> bool) : gpio_ops wire :=
  {| gpio_config := fun c w =>
       (ESP_OK, if pin_bit_mask c =? 2 then w <| clk_out := true |> else w <| dio_out := true |>);
     gpio_ll_set_level := fun pin level =>
       updates (fun w => if pin =? SWD_SWCLK_PIN then set_clock level w else w <| dio := level |>);
     gpio_ll_output_enable := fun pin =>
       updates (fun w => if pin =? SWD_SWCLK_PIN then w <| clk_out := true |> else w <| dio_out := true |>);
     gpio_ll_output_disable := fun pin =>
       updates (fun w => if pin =? SWD_SWCLK_PIN then w <| clk_out := false |> else w <| dio_out := false |>);
     gpio_ll_get_level := fun _ w => (if dio_out w then dio w else target (cycles w), w);
     esp_rom_delay_us := fun _ => io_ret tt;
     vTaskDelay := fun _ => io_ret tt |}.

(** *** Packets *)

Definition bits (value : Z) (n : nat) : list bool := map (fun i => Z.testbit value (Z.of_nat i)) (seq 0 n).
Definition parity_of (levels : list bool) : bool := foldr xorb false levels.
Definition word_of (levels : list bool) : Z := foldr (fun b acc => Z.b2z b + 2 * acc) 0 levels.
Definition drives (levels : list bool) : list cycle := map Driven levels.
Definition hears (n : nat) : list cycle := replicate n Released.

(** Start, port, direction, address bits 2 and 3, parity, stop, park. *)
Definition request_packet (ap read : bool) (addr : Z) : list cycle :=
  let a2 := Z.testbit addr 2 in
  let a3 := Z.testbit addr 3 in
  drives [true; ap; read; a2; a3; parity_of [ap; read; a2; a3]; false; true].
(** A word, least significant bit first, then its even parity. *)
Definition data_packet (value : Z) : list cycle := drives (bits value 32 ++ [parity_of (bits value 32)]).
Definition idle_packet (ap : bool) : list cycle := drives (replicate (if ap then 9 else 1) false).
(** The data line turns around before and after the three bits of the target. *)
Definition write_packet (ap : bool) (addr value : Z) : list cycle :=
  request_packet ap false addr ++ hears 5 ++ data_packet value ++ idle_packet ap.
Definition read_packet (ap : bool) (addr : Z) : list cycle :=
  request_packet ap true addr ++ hears 38 ++ idle_packet ap.

(** What the target puts on the line in [n] cycles that are its own. *)
Definition sampled (target : list cycle -> bool) (cs : list cycle) (n : nat) : list bool :=
  map (fun i => target (cs ++ hears i)) (seq 0 n).
(** The acknowledgement that follows a request. *)
Definition ack_after (target : list cycle -> bool) (cs : list cycle) : Z :=
  word_of (sampled target (cs ++ hears 1) 3).

(** *** The pins and the wires agree *)

Section transfers.
Context (target : list cycle -> bool).
Abbreviation g := (wire_gpio target).
Abbreviation world := (swd_pins * wire)%type.

(** Between two bits the clock is high, and the flags say who has the data line. *)
Definition on_bus (driving level : bool) (cs : list cycle) : world :=
  (mk_pins true driving driving, mk_wire true true level driving cs).
Definition opening (driving : bool) : list cycle := hears (if driving then 0 else 1).

(** [transfers m d d' cs a cs']: after the cycles [cs], [m] yields [a] and adds [cs']. *)
Definition transfers {A} (m : io world A) (d d' : bool) (cs : list cycle) (a : A) (cs' : list cycle) : Prop :=
  forall l, exists l', m (on_bus d l cs) = (a, on_bus d' l' (cs ++ cs')).

Lemma transfers_ret {A} (a : A) d cs : transfers (io_ret a) d d cs a [].
Proof. intros l. exists l. by rewrite app_nil_r. Qed.

Lemma transfers_bind {A B} (m : io world A) (k : A -> io world B) d d1 d2 cs a b c1 c2 :
  transfers m d d1 cs a c1 -> transfers (k a) d1 d2 (cs ++ c1) b c2 ->
  transfers (io_bind m k) d d2 cs b (c1 ++ c2).
Proof.
  intros Hm Hk l. destruct (Hm l) as [l1 E1]. destruct (Hk l1) as [l2 E2]. exists l2.
  unfold io_bind. by rewrite E1, E2, app_assoc.
Qed.

Lemma transfers_eq {A} (m : io world A) d d' cs a c1 c2 :
  transfers m d d' cs a c1 -> c1 = c2 -> transfers m d d' cs a c2.
Proof. by intros H <-. Qed.

Lemma transfers_attempt {A B} (m : attempt esp_err_t world A) (k : A -> attempt esp_err_t world B)
    d d1 d2 cs a r c1 c2 :
  transfers m d d1 cs (inr a) c1 -> transfers (k a) d1 d2 (cs ++ c1) r c2 ->
  transfers (attempt_bind m k) d d2 cs r (c1 ++ c2).
Proof. intros Hm Hk. unfold attempt_bind. by apply (transfers_bind _ _ _ _ _ _ _ _ _ _ Hm). Qed.

Lemma transfers_fails {A B} (m : attempt esp_err_t world A) (k : A -> attempt esp_err_t world B) d d' cs x c :
  transfers m d d' cs (inl x) c -> transfers (attempt_bind m k) d d' cs (inl x) c.
Proof. intros Hm l. destruct (Hm l) as [l' E]. exists l'. unfold attempt_bind, io_bind. by rewrite E. Qed.

Lemma transfers_performs {A B} (m : io world A) (k : A -> attempt esp_err_t world B) d d1 d2 cs a r c1 c2 :
  transfers m d d1 cs a c1 -> transfers (k a) d1 d2 (cs ++ c1) r c2 ->
  transfers (attempt_bind (performs m) k) d d2 cs r (c1 ++ c2).
Proof.
  intros Hm Hk. apply (transfers_attempt _ _ _ _ _ _ _ _ _ _) with (2 := Hk).
  eapply transfers_eq; [eapply transfers_bind; [exact Hm|apply transfers_ret]|by rewrite app_nil_r].
Qed.

Lemma transfers_turn d w cs : transfers (swd_turn g w) d w cs tt (hears 1).
Proof. intros l. exists true. by destruct d, w. Qed.

Lemma transfers_turn_to_write d cs : transfers (turn_if_reading g) d true cs tt (opening d).
Proof.
  destruct d; [|by apply transfers_turn]. intros l. exists l. unfold opening. cbn. by rewrite app_nil_r.
Qed.

Lemma transfers_write_bit level cs : transfers (write_bit g level) true true cs tt [Driven level].
Proof. intros l. by exists level. Qed.

Lemma transfers_each {A} (xs : list A) (f : A -> bool) cs :
  transfers (io_each xs (fun x => write_bit g (f x))) true true cs tt (drives (map f xs)).
Proof.
  revert cs. induction xs as [|x xs IH]; intros cs; [apply transfers_ret|]. cbn.
  apply (transfers_bind _ _ _ _ _ _ _ _ [Driven (f x)] _ (transfers_write_bit (f x) cs)). apply IH.
Qed.

Lemma has_low_bit value i : has_bits (Z.shiftr value (Z.of_nat i)) 1 = Z.testbit value (Z.of_nat i).
Proof.
  unfold has_bits. rewrite (Z.land_ones _ 1), Z.testbit_odd, Zmod_odd by lia. by destruct (Z.odd _).
Qed.

Lemma transfers_write_bits value n d cs :
  transfers (swd_write_bits g value n) d true cs tt (opening d ++ drives (bits value n)).
Proof.
  eapply transfers_bind; [apply transfers_turn_to_write|].
  eapply transfers_eq; [apply transfers_each|]. unfold drives, bits. f_equal. apply map_ext, has_low_bit.
Qed.

Lemma word_of_range levels : 0 <= word_of levels < 2 ^ Z.of_nat (length levels).
Proof.
  induction levels as [|b levels IH]; [done|]. cbn [word_of foldr length].
  rewrite Nat2Z.inj_succ, Z.pow_succ_r by lia. unfold word_of in IH. destruct b; cbn [Z.b2z]; lia.
Qed.

Lemma word_of_snoc levels b : word_of (levels ++ [b]) = word_of levels + 2 ^ Z.of_nat (length levels) * Z.b2z b.
Proof.
  induction levels as [|x levels IH]; cbn [word_of foldr app length]; [destruct b; reflexivity|].
  unfold word_of in IH. rewrite IH, Nat2Z.inj_succ, Z.pow_succ_r by lia. lia.
Qed.

Lemma hears_app m n : hears m ++ hears n = hears (m + n).
Proof. symmetry. apply replicate_add. Qed.

Lemma sampled_snoc cs n : sampled target cs (S n) = sampled target cs n ++ [target (cs ++ hears n)].
Proof. unfold sampled. by rewrite seq_S, map_app. Qed.

Lemma read_cycle {A} (k : bool -> io world A) l cs :
  io_bind (swd_get_swdio g) (fun level => io_bind (swd_clock_low g) (fun _ => io_bind (swd_clock_high g) (fun _ => k level)))
    (on_bus false l cs) = k (target cs) (on_bus false l (cs ++ hears 1)).
Proof. reflexivity. Qed.

(** The bit under construction: after the last one it has left the word. *)
Definition input_bit (k : nat) : Z := u32 (2 ^ Z.of_nat k).

Lemma input_bit_next k : (k < 32)%nat -> u32 (Z.shiftl (input_bit k) 1) = input_bit (S k).
Proof.
  intros Hk. unfold input_bit. rewrite (u32_small (2 ^ Z.of_nat k)).
  - by rewrite Z.shiftl_mul_pow2, Z.mul_comm, Nat2Z.inj_succ, Z.pow_succ_r by lia.
  - split; [lia|]. change 4294967296 with (2 ^ 32). apply Z.pow_lt_mono_r; lia.
Qed.

Lemma input_bit_set levels b : (length levels < 32)%nat ->
  (if b : bool then Z.lor (word_of levels) (input_bit (length levels)) else word_of levels) = word_of (levels ++ [b]).
Proof.
  intros Hk. rewrite word_of_snoc. pose proof (word_of_range levels).
  destruct b; cbn [Z.b2z]; [|lia]. unfold input_bit. rewrite u32_small.
  - rewrite <- (lor_shiftl_add (word_of levels) 1) by lia. by rewrite Z.shiftl_mul_pow2, Z.mul_1_l by lia.
  - split; [lia|]. change 4294967296 with (2 ^ 32). apply Z.pow_lt_mono_r; lia.
Qed.

Lemma length_sampled cs n : length (sampled target cs n) = n.
Proof. unfold sampled. by rewrite length_map, length_seq. Qed.

Lemma transfers_read_from n k cs : (k + n <= 32)%nat ->
  transfers (read_bits_from g n (word_of (sampled target cs k)) (input_bit k)) false false (cs ++ hears k)
    (word_of (sampled target cs (k + n))) (hears n).
Proof.
  revert k. induction n as [|n IH]; intros k Hk; [rewrite Nat.add_0_r; apply transfers_ret|].
  intros l. destruct (IH (S k) ltac:(lia) l) as [l' E]. exists l'. cbn [read_bits_from]. rewrite read_cycle.
  rewrite input_bit_next by lia.
  pose proof (input_bit_set (sampled target cs k) (target (cs ++ hears k))) as Hset.
  rewrite length_sampled in Hset. rewrite Hset by lia. rewrite <- sampled_snoc.
  rewrite <- app_assoc, hears_app, Nat.add_1_r, E, Nat.add_succ_comm.
  by rewrite <- !app_assoc, !hears_app, Nat.add_succ_comm.
Qed.

Definition closing (driving : bool) : list cycle := opening (negb driving).

Lemma transfers_turn_to_read d cs : transfers (turn_if_writing g) d false cs tt (closing d).
Proof.
  destruct d; [by apply transfers_turn|]. intros l. exists l. unfold closing. cbn. by rewrite app_nil_r.
Qed.

Lemma transfers_read_bits n d cs : (n <= 32)%nat ->
  transfers (swd_read_bits g n) d false cs (word_of (sampled target (cs ++ closing d) n)) (closing d ++ hears n).
Proof.
  intros Hn. eapply transfers_bind; [apply transfers_turn_to_read|].
  pose proof (transfers_read_from n 0 (cs ++ closing d) ltac:(lia)) as H. by rewrite app_nil_r in H.
Qed.

(** *** The encodings of the code are the packets *)

Lemma swd_make_request_packet ap read addr :
  drives (bits (swd_make_request ap read addr) 8) = request_packet ap read addr.
Proof.
  assert (Hbit : forall i, 0 <= i -> Z.land (Z.shiftr addr i) 1 = Z.b2z (Z.testbit addr i)).
  { intros i Hi. rewrite (Z.land_ones _ 1), Z.testbit_odd, Zmod_odd by lia. by destruct (Z.odd _). }
  unfold swd_make_request, request_packet. rewrite !Hbit by lia.
  by destruct ap, read, (Z.testbit addr 2), (Z.testbit addr 3).
Qed.

Lemma nibble_parity v : 0 <= v < 16 ->
  Z.land (Z.shiftr 0x6996 v) 1 = Z.b2z (parity_of (bits v 4)).
Proof.
  intros Hv. apply Z.eqb_eq.
  by apply (forall_below_spec 16 (fun v => Z.land (Z.shiftr 0x6996 v) 1 =? Z.b2z (parity_of (bits v 4)))).
Qed.

Lemma fold_bit v n i : 0 <= n -> 0 <= i ->
  Z.testbit (Z.lxor v (Z.shiftr v n)) i = xorb (Z.testbit v i) (Z.testbit v (i + n)).
Proof. intros. by rewrite Z.lxor_spec, Z.shiftr_spec. Qed.

Lemma swd_even_parity32_parity value : swd_even_parity32 value = Z.b2z (parity_of (bits value 32)).
Proof.
  unfold swd_even_parity32.
  set (v1 := Z.lxor value _). set (v2 := Z.lxor v1 _). set (v3 := Z.lxor v2 _).
  rewrite nibble_parity by (change 15 with (Z.ones 4); rewrite Z.land_ones by lia; apply Z.mod_pos_bound; lia).
  assert (H : forall i, 0 <= i < 4 ->
    Z.testbit (Z.land v3 15) i = parity_of (map (fun k => Z.testbit value (i + k)) [0; 4; 8; 12; 16; 20; 24; 28])).
  { intros i Hi. change 15 with (Z.ones 4). rewrite Z.land_ones, Z.mod_pow2_bits_low by lia.
    unfold v3, v2, v1. rewrite !fold_bit by lia. unfold parity_of. cbn [map foldr]. rewrite <- !Z.add_assoc, Z.add_0_r.
    change (8 + 16) with 24. change (4 + 16) with 20. change (4 + 8) with 12. change (4 + 24) with 28. ring. }
  f_equal. change (bits (Z.land v3 15) 4) with (map (Z.testbit (Z.land v3 15)) [0; 1; 2; 3]).
  change (bits value 32) with (map (Z.testbit value)
    [0; 1; 2; 3; 4; 5; 6; 7; 8; 9; 10; 11; 12; 13; 14; 15; 16; 17; 18; 19; 20; 21; 22; 23; 24; 25; 26; 27; 28; 29; 30; 31]).
  clear -H. revert H. generalize (Z.land v3 15). intros v H. cbn [map]. rewrite !H by lia.
  cbn [map].
  repeat match goal with |- context [?a + ?b] => let c := eval vm_compute in (a + b) in change (a + b) with c end.
  generalize (Z.testbit value). intros f. unfold parity_of. cbn [foldr]. ring.
Qed.

Lemma bits_zero n : bits 0 n = replicate n false.
Proof.
  unfold bits. generalize 0%nat. induction n as [|n IH]; intros k; [done|]. cbn [seq map replicate].
  by rewrite Z.bits_0, IH.
Qed.

Lemma bits_b2z b : bits (Z.b2z b) 1 = [b].
Proof. by destruct b. Qed.

(** *** Transfers *)

Lemma transfers_request ap read addr d cs :
  transfers (swd_write_bits g (swd_make_request ap read addr) 8) d true cs tt (opening d ++ request_packet ap read addr).
Proof. rewrite <- swd_make_request_packet. apply transfers_write_bits. Qed.

Lemma transfers_zeros n d cs : transfers (swd_write_bits g 0 n) d true cs tt (opening d ++ drives (replicate n false)).
Proof. rewrite <- bits_zero. apply transfers_write_bits. Qed.

Lemma transfers_parity value cs :
  transfers (swd_write_bits g (swd_even_parity32 value) 1) true true cs tt (drives [parity_of (bits value 32)]).
Proof. rewrite swd_even_parity32_parity, <- bits_b2z. apply transfers_write_bits. Qed.

Lemma transfers_idle ap cs :
  transfers (when ap (swd_idle_cycles g SWD_IDLE_LOW_BITS)) true true cs tt (drives (replicate (if ap then 8 else 0) false)).
Proof. destruct ap; [apply transfers_zeros|apply transfers_ret]. Qed.

Lemma transfers_ack cs : transfers (swd_read_bits g 3) true false cs (ack_after target cs) (hears 4).
Proof. apply (transfers_read_bits 3 true). lia. Qed.

Lemma u8_word levels : (length levels <= 8)%nat -> u8 (word_of levels) = word_of levels.
Proof.
  intros Hl. apply u8_small. pose proof (word_of_range levels).
  assert (2 ^ Z.of_nat (length levels) <= 2 ^ 8) by (apply Z.pow_le_mono_r; lia). lia.
Qed.

Lemma u8_ack cs : u8 (ack_after target cs) = ack_after target cs.
Proof. apply u8_word. rewrite length_sampled. lia. Qed.

(** What a target that asks to wait is sent: the rest of the transfer, then the request again. *)
Definition wait_round (ap : bool) (addr : Z) : list cycle :=
  hears 5 ++ drives (replicate 9 false) ++ request_packet ap false addr.
Definition wait_rounds (ap : bool) (addr : Z) (n : nat) : list cycle := concat (replicate n (wait_round ap addr)).
(** After the request and [n] rounds. *)
Definition asked (ap : bool) (addr : Z) (cs : list cycle) (n : nat) : list cycle :=
  cs ++ request_packet ap false addr ++ wait_rounds ap addr n.

Lemma transfers_write_acknowledge ap addr waits retries old cs : (waits < retries)%nat ->
  (forall n, (n < waits)%nat -> ack_after target (cs ++ wait_rounds ap addr n) = SWD_ACK_WAIT) ->
  ack_after target (cs ++ wait_rounds ap addr waits) <> SWD_ACK_WAIT ->
  transfers (write_acknowledge g (swd_make_request ap false addr) retries old) true false cs
    (ack_after target (cs ++ wait_rounds ap addr waits)) (wait_rounds ap addr waits ++ hears 4).
Proof.
  revert retries old cs. induction waits as [|waits IH]; intros retries old cs Hr Hw Ha;
    (destruct retries as [|retries]; [lia|]); cbn [write_acknowledge].
  - unfold wait_rounds in *. cbn [replicate concat] in *. rewrite app_nil_r in *.
    apply (transfers_eq _ _ _ _ _ (hears 4 ++ [])); [|apply app_nil_r].
    eapply transfers_bind; [apply transfers_ack|]. rewrite u8_ack, (proj2 (Z.eqb_neq _ _) Ha). apply transfers_ret.
  - assert (Hstep : forall n, cs ++ wait_rounds ap addr (S n) = (cs ++ wait_round ap addr) ++ wait_rounds ap addr n).
    { intros n. unfold wait_rounds. cbn [replicate concat]. by rewrite app_assoc. }
    specialize (IH retries SWD_ACK_WAIT (cs ++ wait_round ap addr) ltac:(lia)).
    rewrite Hstep in Ha. rewrite Hstep.
    assert (H0 : ack_after target cs = SWD_ACK_WAIT).
    { specialize (Hw 0%nat ltac:(lia)). unfold wait_rounds in Hw. cbn [replicate concat] in Hw. by rewrite app_nil_r in Hw. }
    eapply transfers_eq.
    { eapply transfers_bind; [apply transfers_ack|]. rewrite u8_ack, H0. cbn [Z.eqb Pos.eqb SWD_ACK_WAIT].
      eapply transfers_bind; [apply transfers_zeros|].
      eapply transfers_bind; [apply transfers_zeros|].
      eapply transfers_bind; [apply transfers_request|].
      replace (_ ++ _) with (cs ++ wait_round ap addr).
      - apply IH; [|done]. intros n Hn. rewrite <- Hstep. apply Hw. lia.
      - unfold wait_round. cbn [opening hears drives replicate map app]. by rewrite <- !app_assoc. }
    unfold wait_rounds, wait_round. cbn [opening hears drives replicate map app concat]. by rewrite <- ?app_assoc.
Qed.

(** A transfer after the cycles [cs]; the acknowledgement that decides it. *)
Definition write_reply (ap : bool) (addr : Z) (driving : bool) (cs : list cycle) (n : nat) : Z :=
  ack_after target (asked ap addr (cs ++ opening driving) n).
Definition written_cycles (ap : bool) (addr value : Z) (driving : bool) (waits : nat) (ok : bool) : list cycle :=
  opening driving ++ request_packet ap false addr ++ wait_rounds ap addr waits ++ hears 5 ++
  (if ok then data_packet value ++ idle_packet ap else drives [false]).

(** A write that the target puts off fewer than sixteen times. *)
Lemma transfers_write_reg ap addr value waits d cs : (waits < SWD_MAX_RETRIES)%nat ->
  (forall n, (n < waits)%nat -> write_reply ap addr d cs n = SWD_ACK_WAIT) ->
  write_reply ap addr d cs waits <> SWD_ACK_WAIT ->
  let ok := write_reply ap addr d cs waits =? SWD_ACK_OK in
  transfers (swd_write_reg g ap addr value) d true cs
    (if ok then inr tt else inl ESP_ERR_INVALID_RESPONSE) (written_cycles ap addr value d waits ok).
Proof.
  unfold write_reply, asked, written_cycles. intros Hn Hw Ha. cbv zeta.
  assert (Happ : forall n, (cs ++ opening d) ++ request_packet ap false addr ++ wait_rounds ap addr n =
    (cs ++ opening d ++ request_packet ap false addr) ++ wait_rounds ap addr n) by (intros; by rewrite <- !app_assoc).
  setoid_rewrite Happ in Hw. rewrite Happ in *. clear Happ.
  set (reply := ack_after _ _) in *. destruct (reply =? SWD_ACK_OK) eqn:Eok; eapply transfers_eq.
  - eapply transfers_performs; [apply transfers_request|].
    eapply transfers_performs; [by apply transfers_write_acknowledge|]. fold reply. rewrite Eok. cbn [negb].
    eapply transfers_performs; [apply transfers_write_bits|].
    eapply transfers_performs; [apply transfers_parity|].
    eapply transfers_performs; [apply transfers_zeros|].
    eapply transfers_bind; [apply transfers_idle|apply transfers_ret].
  - destruct ap; unfold data_packet, idle_packet, drives; rewrite ?map_app, <- ?app_assoc; reflexivity.
  - eapply transfers_performs; [apply transfers_request|].
    eapply transfers_performs; [by apply transfers_write_acknowledge|]. fold reply. rewrite Eok. cbn [negb].
    eapply transfers_performs; [apply transfers_zeros|]. apply transfers_ret.
  - rewrite <- ?app_assoc; reflexivity.
Qed.

Lemma bits_word levels : bits (word_of levels) (length levels) = levels.
Proof.
  induction levels as [|b levels IH]; [done|]. unfold bits in *. cbn [length seq map].
  assert (Hw : word_of (b :: levels) = Z.b2z b + 2 * word_of levels) by done. f_equal.
  - rewrite Hw, Z.add_comm. destruct b; cbn [Z.b2z]; [apply Z.testbit_odd_0|rewrite Z.add_0_r; apply Z.testbit_even_0].
  - rewrite <- IH at 2. rewrite <- seq_shift, map_map. apply map_ext_in. intros i _. rewrite Hw, Nat2Z.inj_succ, Z.add_comm.
    destruct b; cbn [Z.b2z]; [apply Z.testbit_odd_succ; lia|]. rewrite Z.add_0_r. apply Z.testbit_even_succ. lia.
Qed.

Lemma parity_snoc levels b : parity_of (levels ++ [b]) = xorb (parity_of levels) b.
Proof.
  induction levels as [|x levels IH]; cbn [parity_of foldr app]; [by destruct b|].
  unfold parity_of in IH. by rewrite IH, xorb_assoc.
Qed.

(** The levels of the data phase of a read, a word and its parity, and their outcome. *)
Definition read_outcome (levels : list bool) : esp_err_t + Z :=
  if parity_of levels then inl ESP_ERR_INVALID_CRC else inr (word_of (take 32 levels)).

Lemma sampled_one cs : word_of (sampled target cs 1) = Z.b2z (target cs).
Proof. unfold sampled. cbn [seq map hears replicate]. rewrite app_nil_r. by destruct (target cs). Qed.

Lemma transfers_read_data cs :
  transfers (read_data g) false true cs (read_outcome (sampled target cs 33)) (hears 34 ++ drives [false]).
Proof.
  assert (Hlen : length (sampled target cs 32) = 32%nat) by apply length_sampled.
  unfold read_outcome. rewrite sampled_snoc, parity_snoc, take_app_length' by done.
  apply (transfers_eq _ _ _ _ _ (hears 32 ++ hears 1 ++ (hears 1 ++ drives [false]) ++ [])); [|reflexivity].
  eapply transfers_performs; [eapply transfers_eq; [apply transfers_read_bits; lia|reflexivity]|].
  eapply transfers_performs; [eapply transfers_eq; [apply transfers_read_bits; lia|reflexivity]|].
  eapply transfers_performs; [eapply transfers_eq; [apply transfers_zeros|reflexivity]|].
  rewrite swd_even_parity32_parity. change (closing false) with (@nil cycle). rewrite !app_nil_r. cbn [app].
  pose proof (bits_word (sampled target cs 32)) as Hbits. rewrite Hlen in Hbits. rewrite Hbits.
  rewrite u8_word by (rewrite length_sampled; lia). rewrite sampled_one.
  destruct (target (cs ++ hears 32)), (parity_of (sampled target cs 32)); apply transfers_ret.
Qed.

(** The acknowledgement of a read and the levels that follow it. *)
Definition read_position (ap : bool) (addr : Z) (driving : bool) (cs : list cycle) : list cycle :=
  cs ++ opening driving ++ request_packet ap true addr.
Definition read_reply (ap : bool) (addr : Z) (driving : bool) (cs : list cycle) : esp_err_t + Z :=
  if ack_after target (read_position ap addr driving cs) =? SWD_ACK_OK
  then read_outcome (sampled target (read_position ap addr driving cs ++ hears 4) 33)
  else inl ESP_ERR_INVALID_RESPONSE.

Lemma transfers_read_reg ap addr d cs v :
  read_reply ap addr d cs = inr v ->
  transfers (swd_read_reg g ap addr) d true cs (inr v) (opening d ++ read_packet ap addr).
Proof.
  unfold read_reply. intros Hv. destruct (_ =? SWD_ACK_OK) eqn:Eok in Hv; [|done]. eapply transfers_eq.
  - eapply transfers_performs; [apply transfers_request|].
    eapply transfers_performs; [apply transfers_ack|]. rewrite u8_ack. fold (read_position ap addr d cs).
    rewrite Eok. cbn [negb].
    eapply transfers_attempt; [rewrite <- Hv; apply transfers_read_data|].
    eapply transfers_performs; [apply transfers_idle|apply transfers_ret].
  - destruct ap; unfold read_packet, idle_packet, drives; rewrite <- ?app_assoc; reflexivity.
Qed.

(** An answer that is not OK, or whose parity is wrong, is an error. *)
Lemma transfers_read_reg_fails ap addr d cs err :
  read_reply ap addr d cs = inl err ->
  exists cs', transfers (swd_read_reg g ap addr) d true cs (inl err) cs'.
Proof.
  unfold read_reply. intros Hv. destruct (_ =? SWD_ACK_OK) eqn:Eok in Hv; eexists.
  - eapply transfers_performs; [apply transfers_request|].
    eapply transfers_performs; [apply transfers_ack|]. rewrite u8_ack. fold (read_position ap addr d cs).
    rewrite Eok. cbn [negb].
    apply transfers_fails. rewrite <- Hv. apply transfers_read_data.
  - simplify_eq. eapply transfers_performs; [apply transfers_request|].
    eapply transfers_performs; [apply transfers_ack|]. rewrite u8_ack. fold (read_position ap addr d cs).
    rewrite Eok. cbn [negb].
    eapply transfers_performs; [apply transfers_zeros|]. apply transfers_ret.
Qed.

(** Every register transfer against any target.  A write that the target puts off fewer
    than sixteen times succeeds exactly when the acknowledgement after that is OK, and only
    then is the word driven; a read succeeds exactly when it is acknowledged with OK and the
    parity of its levels is even, and yields the word of those levels. *)
Theorem swd_register_transfers (ap : bool) (addr value : Z) (waits : nat) (driving : bool) (cs : list cycle) :
  (waits < SWD_MAX_RETRIES)%nat ->
  (forall n, (n < waits)%nat -> write_reply ap addr driving cs n = SWD_ACK_WAIT) ->
  write_reply ap addr driving cs waits <> SWD_ACK_WAIT ->
  let ok := write_reply ap addr driving cs waits =? SWD_ACK_OK in
  transfers (swd_write_reg g ap addr value) driving true cs
    (if ok then inr tt else inl ESP_ERR_INVALID_RESPONSE) (written_cycles ap addr value driving waits ok) /\
  exists cs', transfers (swd_read_reg g ap addr) driving true cs (read_reply ap addr driving cs) cs'.
Proof.
  intros Hn Hw Ha. split; [by apply transfers_write_reg|].
  destruct (read_reply ap addr driving cs) as [err|v] eqn:E; [by apply transfers_read_reg_fails|].
  eexists. by apply transfers_read_reg.
Qed.

(** *** The memory port over a target that answers at once *)

(** The target acknowledges every request, whose last bit is the driven park bit. *)
Definition prompt : Prop := forall cs, ack_after target (cs ++ [Driven true]) = SWD_ACK_OK.

Lemma request_parks ap read addr : exists cs, request_packet ap read addr = cs ++ [Driven true].
Proof. by eexists [_; _; _; _; _; _; _]. Qed.

Lemma prompt_reply ap read addr cs : prompt -> ack_after target (cs ++ request_packet ap read addr) = SWD_ACK_OK.
Proof. intros Hp. destruct (request_parks ap read addr) as [cs' ->]. rewrite app_assoc. apply Hp. Qed.

Lemma prompt_write ap addr value d cs : prompt ->
  transfers (swd_write_reg g ap addr value) d true cs (inr tt) (opening d ++ write_packet ap addr value).
Proof.
  intros Hp. assert (Hr : write_reply ap addr d cs 0 = SWD_ACK_OK).
  { unfold write_reply, asked, wait_rounds. cbn [replicate concat]. rewrite app_nil_r. by apply prompt_reply. }
  eapply transfers_eq.
  - pose proof (transfers_write_reg ap addr value 0 d cs ltac:(unfold SWD_MAX_RETRIES; lia) ltac:(lia)) as H.
    rewrite Hr in H. by apply H.
  - unfold written_cycles, wait_rounds, write_packet. cbn [replicate concat app Z.eqb Pos.eqb SWD_ACK_OK]. done.
Qed.

(** The word that a read transfers, when its parity holds. *)
Definition answered (ap : bool) (addr : Z) (cs : list cycle) : esp_err_t + Z :=
  read_outcome (sampled target (cs ++ request_packet ap true addr ++ hears 4) 33).

Lemma prompt_read ap addr d cs v : prompt -> answered ap addr (cs ++ opening d) = inr v ->
  transfers (swd_read_reg g ap addr) d true cs (inr v) (opening d ++ read_packet ap addr).
Proof.
  intros Hp Hv. apply transfers_read_reg. unfold read_reply, read_position. rewrite (app_assoc cs), prompt_reply by done.
  unfold answered in Hv. by rewrite <- !app_assoc in *.
Qed.

Definition selects : list cycle := write_packet false SWD_DP_SELECT_ADDR 0.
(** An access writes the control word, then the address, then the data register. *)
Definition access_packets (address : Z) : list cycle :=
  selects ++ write_packet true SWD_MEM_AP_REG_CSW SWD_MEM_AP_CSW_WORD ++
  selects ++ write_packet true SWD_MEM_AP_REG_TAR address ++ selects.

Lemma prompt_write_ap addr value d cs : prompt -> Z.land addr 0xF0 = 0 ->
  transfers (swd_write_ap g SWD_APSEL_MEM_AP addr value) d true cs (inr tt)
    (opening d ++ selects ++ write_packet true addr value).
Proof.
  intros Hp Ha. unfold swd_write_ap, swd_select_ap_bank, swd_write_dp. rewrite Ha. rewrite app_assoc.
  eapply transfers_attempt; [by apply prompt_write|]. by apply (prompt_write true addr value true).
Qed.

Lemma prompt_access {A} address (k : attempt esp_err_t world A) d cs r cs' : prompt ->
  transfers k true true (cs ++ opening d ++ access_packets address) r cs' ->
  transfers (attempt_bind (swd_setup_mem_ap g) (fun _ =>
    attempt_bind (swd_write_ap g SWD_APSEL_MEM_AP SWD_MEM_AP_REG_TAR address) (fun _ =>
      attempt_bind (swd_select_ap_bank g SWD_APSEL_MEM_AP SWD_MEM_AP_REG_DRW) (fun _ => k)))) d true cs r
    (opening d ++ access_packets address ++ cs').
Proof.
  intros Hp Hk. unfold access_packets in *. eapply transfers_eq.
  - eapply transfers_attempt; [by apply prompt_write_ap|].
    eapply transfers_attempt; [by apply prompt_write_ap|].
    eapply transfers_attempt; [by apply (prompt_write false SWD_DP_SELECT_ADDR 0)|].
    cbn [opening hears replicate app] in *. fold selects. by rewrite <- !app_assoc in *.
  - cbn [opening hears replicate app]. by rewrite <- !app_assoc.
Qed.

(** Over any target that acknowledges at once, a word write puts exactly the packets of its
    six register writes on the bus, the word last; a word read puts those of its accesses
    on the bus and yields the word of the final transfer, whose parity it has checked. *)
Theorem swd_memory_packets (address value : Z) (driving : bool) (cs : list cycle) :
  prompt ->
  transfers (swd_mem_write_word32 g address value) driving true cs (inr tt)
    (opening driving ++ access_packets address ++ write_packet true SWD_MEM_AP_REG_DRW value) /\
  (forall posted word,
    let at_data := cs ++ opening driving ++ access_packets address in
    answered true SWD_MEM_AP_REG_DRW at_data = inr posted ->
    answered false SWD_DP_RDBUFF_ADDR (at_data ++ read_packet true SWD_MEM_AP_REG_DRW) = inr word ->
    transfers (swd_mem_read_word32 g address) driving true cs (inr word)
      (opening driving ++ access_packets address ++
       read_packet true SWD_MEM_AP_REG_DRW ++ read_packet false SWD_DP_RDBUFF_ADDR)).
Proof.
  intros Hp. split; [|intros posted word at_data Hposted Hword].
  - by apply prompt_access, (prompt_write true SWD_MEM_AP_REG_DRW value true).
  - apply prompt_access; [done|].
    eapply transfers_attempt; [apply (prompt_read true SWD_MEM_AP_REG_DRW true _ posted Hp); by rewrite app_nil_r|].
    apply (prompt_read false SWD_DP_RDBUFF_ADDR true _ word Hp). by rewrite app_nil_r.
Qed.
End transfers.

(** A target that answers every read with one word. *)
Fixpoint own_cycles (rev_cycles : list cycle) : nat :=
  match rev_cycles with
  | Released :: cs => S (own_cycles cs)
  | _ => O
  end.
Definition answers_with (word : Z) (cs : list cycle) : bool :=
  let n := own_cycles (rev cs) in
  (n =? 1)%nat || ((4 <=? n)%nat && (n <? 36)%nat && Z.testbit word (Z.of_nat n - 4)) ||
  ((n =? 36)%nat && parity_of (bits word 32)).

Lemma answers_with_prompt word : prompt (answers_with word).
Proof.
  intros cs. unfold ack_after, sampled, answers_with. cbn [seq map hears replicate].
  rewrite !rev_app_distr. reflexivity.
Qed.

Example swd_register_transfers_witness :
  transfers (swd_write_reg (wire_gpio (answers_with 0)) true SWD_MEM_AP_REG_TAR 0x20030000) true true [] (inr tt)
    (written_cycles true SWD_MEM_AP_REG_TAR 0x20030000 true 0 true) /\
  exists cs', transfers (swd_read_reg (wire_gpio (answers_with 0)) true SWD_MEM_AP_REG_TAR) true true []
    (read_reply (answers_with 0) true SWD_MEM_AP_REG_TAR true []) cs'.
Proof.
  apply (swd_register_transfers (answers_with 0) true SWD_MEM_AP_REG_TAR 0x20030000 0 true []); [vm_compute; lia|lia|].
  vm_compute. discriminate.
Defined.

Example swd_memory_packets_witness :
  transfers (swd_mem_write_word32 (wire_gpio (answers_with 0x20041ff8)) 0x20030000 0x1234)
    false true [] (inr tt)
    (opening false ++ access_packets 0x20030000 ++ write_packet true SWD_MEM_AP_REG_DRW 0x1234) /\
  transfers (swd_mem_read_word32 (wire_gpio (answers_with 0x20041ff8)) 0x10000100)
    false true [] (inr 0x20041ff8)
    (opening false ++ access_packets 0x10000100 ++
     read_packet true SWD_MEM_AP_REG_DRW ++ read_packet false SWD_DP_RDBUFF_ADDR).
Proof.
  split.
  - apply swd_memory_packets, answers_with_prompt.
  - destruct (swd_memory_packets (answers_with 0x20041ff8) 0x10000100 0 false [] (answers_with_prompt _)) as [_ Hread].
    apply (Hread 0x20041ff8); vm_compute; reflexivity.
Defined.
End Bus.
