(* ===== verification/SwdFlash.v ===== *)
(** * Programming the flash of the bridge processor

    Models the upper half of src/components/asic/bzm_bridge_swd.c: block transfers, the
    debug registers of a halted core, the runs of the flash stub, and the programming of an
    image, over any [swd_link].  Sizes and offsets are [Z]; the stub's bytes are those of
    rp2040_flash_stub_bin.h.  A read whose error the code ignores leaves the old value.  The
    log lines, and the percentages that only they use, are left out. *)

From S2P Require Import Prelude Trace Swd.
Open Scope Z_scope.
Open Scope io_scope.
Open Scope attempt_scope.

(** ** Constants and data *)

Definition BZM_BRIDGE_FLASH_CAPACITY : Z := 2 * 1024 * 1024.
Definition BZM_BRIDGE_FLASH_PAGE_SIZE : Z := 256.
Definition BZM_BRIDGE_FLASH_CHUNK_SIZE : Z := 16 * 1024.
Definition SWD_FLASH_SECTOR_SIZE : Z := 4096.

Definition SWD_AIRCR_ADDR : Z := 0xE000ED0C.
Definition SWD_DHCSR_ADDR : Z := 0xE000EDF0.
Definition SWD_DCRSR_ADDR : Z := 0xE000EDF4.
Definition SWD_DCRDR_ADDR : Z := 0xE000EDF8.
Definition SWD_AIRCR_VECTKEY : Z := 0x05FA0000.
Definition SWD_AIRCR_SYSRESETREQ : Z := Z.shiftl 1 2.
Definition SWD_DHCSR_DBGKEY : Z := 0xA05F0000.
Definition SWD_DHCSR_C_DEBUGEN : Z := Z.shiftl 1 0.
Definition SWD_DHCSR_C_HALT : Z := Z.shiftl 1 1.
Definition SWD_DHCSR_S_REGRDY : Z := Z.shiftl 1 16.
Definition SWD_DHCSR_S_HALT : Z := Z.shiftl 1 17.
Definition SWD_DCRSR_REGWNR : Z := Z.shiftl 1 16.
Definition SWD_CORE_REG_R0 : Z := 0.
Definition SWD_CORE_REG_PC : Z := 15.
Definition SWD_CORE_REG_XPSR : Z := 16.
Definition SWD_CORE_REG_MSP : Z := 17.
Definition SWD_RP2040_XIP_BASE : Z := 0x10000000.
Definition SWD_RP2040_STUB_BASE : Z := 0x20030000.
Definition SWD_RP2040_STUB_STACK_TOP : Z := 0x20042000.
Definition SWD_RP2040_STUB_DATA_BASE : Z := 0x20032000.
Definition SWD_RP2040_STUB_CTX_ADDR : Z := 0x2003FF00.
Definition SWD_STUB_OP_ERASE : Z := 1.
Definition SWD_STUB_OP_PROGRAM : Z := 2.
Definition SWD_STUB_STATUS_IDLE : Z := 0.
Definition SWD_STUB_STATUS_OK : Z := 2.
Definition SWD_STUB_STAGE_IDLE : Z := 0.
Definition SWD_STUB_STAGE_DONE : Z := 3.
Definition SWD_REG_POLL_LIMIT : nat := 128.
Definition SWD_RUN_POLL_LIMIT : nat := 2000.

Definition RP2040_FLASH_STUB_BIN : list Z :=
  [0xf0; 0xb5; 0x04; 0x00; 0x85; 0xb0; 0x2c; 0x48; 0x00; 0xf0; 0x66; 0xf8; 0x07; 0x00; 0x2b; 0x48;
   0x00; 0xf0; 0x62; 0xf8; 0x01; 0x90; 0x2a; 0x48; 0x00; 0xf0; 0x5e; 0xf8; 0x02; 0x90; 0x29; 0x48;
   0x00; 0xf0; 0x5a; 0xf8; 0x03; 0x90; 0x28; 0x48; 0x00; 0xf0; 0x56; 0xf8; 0x06; 0x00; 0x27; 0x48;
   0x00; 0xf0; 0x52; 0xf8; 0x05; 0x00; 0x72; 0xb6; 0x01; 0x23; 0x63; 0x60; 0x00; 0x23; 0xa3; 0x60;
   0xe3; 0x60; 0x9f; 0x42; 0x0c; 0xd0; 0x01; 0x9b; 0x00; 0x2b; 0x09; 0xd0; 0x02; 0x9b; 0x00; 0x2b;
   0x06; 0xd0; 0x03; 0x9b; 0x00; 0x2b; 0x03; 0xd0; 0x00; 0x2e; 0x01; 0xd0; 0x00; 0x28; 0x03; 0xd1;
   0x1b; 0x4b; 0x63; 0x60; 0x00; 0xbe; 0xfe; 0xe7; 0xb8; 0x47; 0x01; 0x9b; 0x98; 0x47; 0x23; 0x68;
   0x01; 0x2b; 0x0f; 0xd1; 0x80; 0x22; 0xa3; 0x60; 0x61; 0x69; 0x20; 0x69; 0x02; 0x9f; 0xd7; 0x33;
   0x52; 0x02; 0xb8; 0x47; 0xb0; 0x47; 0xa8; 0x47; 0x02; 0x23; 0x63; 0x60; 0x01; 0x33; 0xa3; 0x60;
   0x00; 0xbe; 0xfe; 0xe7; 0x02; 0x2b; 0x08; 0xd1; 0xa3; 0x60; 0x62; 0x69; 0x03; 0x9b; 0xa1; 0x69;
   0x20; 0x69; 0x98; 0x47; 0x63; 0x69; 0xe3; 0x60; 0xec; 0xe7; 0x0a; 0x4b; 0x63; 0x60; 0xb0; 0x47;
   0xa8; 0x47; 0x00; 0xbe; 0xfe; 0xe7; 0xc0; 0x46; 0x49; 0x46; 0x00; 0x00; 0x45; 0x58; 0x00; 0x00;
   0x52; 0x45; 0x00; 0x00; 0x52; 0x50; 0x00; 0x00; 0x46; 0x43; 0x00; 0x00; 0x43; 0x58; 0x00; 0x00;
   0x02; 0xe0; 0x00; 0x00; 0x01; 0xe0; 0x00; 0x00; 0x18; 0x23; 0x10; 0xb5; 0x1a; 0x88; 0x04; 0x3b;
   0x01; 0x00; 0x18; 0x88; 0x80; 0xb2; 0x90; 0x47; 0x10; 0xbd].
Definition RP2040_FLASH_STUB_BIN_SIZE : Z := Z.of_nat (length RP2040_FLASH_STUB_BIN).

Record swd_flash_stub_ctx_t := mk_stub_ctx {
  op : Z;
  status : Z;
  stage : Z;
  progress : Z;
  flash_offset : Z;
  count : Z;
  data_addr : Z;
}.

(** The struct as it lies in memory, and the offsets of the members that are read back. *)
Definition ctx_bytes (c : swd_flash_stub_ctx_t) : list Z :=
  concat (map (le_bytes_of 4) [op c; status c; stage c; progress c; flash_offset c; count c; data_addr c]).
Definition sizeof_ctx : Z := 28.
Definition offsetof_status : Z := 4.
Definition offsetof_stage : Z := 8.
Definition offsetof_progress : Z := 12.
Definition offsetof_count : Z := 20.

Inductive bzm_bridge_flash_phase_t :=
| BZM_BRIDGE_FLASH_PREPARING | BZM_BRIDGE_FLASH_ERASING | BZM_BRIDGE_FLASH_PROGRAMMING
| BZM_BRIDGE_FLASH_VERIFYING | BZM_BRIDGE_FLASH_RESETTING.
#[export] Instance bzm_bridge_flash_phase_t_eq_dec : EqDecision bzm_bridge_flash_phase_t.
Proof. solve_decision. Defined.

Inductive bzm_bridge_stub_poll_result_t :=
| BZM_BRIDGE_STUB_POLL_WAIT | BZM_BRIDGE_STUB_POLL_COMPLETE | BZM_BRIDGE_STUB_POLL_FAILED.
#[export] Instance bzm_bridge_stub_poll_result_t_eq_dec : EqDecision bzm_bridge_stub_poll_result_t.
Proof. solve_decision. Defined.

Record bzm_bridge_flash_chunk_t := mk_chunk {
  source_length : Z;
  program_length : Z;
}.

(** A progress callback takes the phase, the bytes completed and their total. *)
Definition bzm_bridge_flash_progress_fn (V : Type) : Type := bzm_bridge_flash_phase_t -> Z -> Z -> io V unit.

Definition bzm_bridge_flash_stub_poll_result (observed_running halted : bool) (status stage : Z)
    : bzm_bridge_stub_poll_result_t :=
  if negb halted then BZM_BRIDGE_STUB_POLL_WAIT
  else if (status =? SWD_STUB_STATUS_OK) && (stage =? SWD_STUB_STAGE_DONE) then BZM_BRIDGE_STUB_POLL_COMPLETE
  else if negb observed_running && (status =? SWD_STUB_STATUS_IDLE) then BZM_BRIDGE_STUB_POLL_WAIT
  else BZM_BRIDGE_STUB_POLL_FAILED.

Definition bzm_bridge_flash_next_chunk (image_size offset : Z) : option bzm_bridge_flash_chunk_t :=
  if (image_size =? 0) || (image_size <=? offset) || negb (offset mod BZM_BRIDGE_FLASH_PAGE_SIZE =? 0) then None
  else
    let remaining := image_size - offset in
    let length := if remaining <? BZM_BRIDGE_FLASH_CHUNK_SIZE then remaining else BZM_BRIDGE_FLASH_CHUNK_SIZE in
    let length := if BZM_BRIDGE_FLASH_PAGE_SIZE <=? length then length - length mod BZM_BRIDGE_FLASH_PAGE_SIZE
                  else length in
    if length =? 0 then None
    else Some (mk_chunk length (if length <? BZM_BRIDGE_FLASH_PAGE_SIZE then BZM_BRIDGE_FLASH_PAGE_SIZE else length)).

(** ** Memory blocks *)

(** The offsets of a loop over words. *)
Definition word_offsets (len : Z) : list Z := map (Z.mul 4) (seqZ 0 ((len + 3) / 4)).
(** The bytes of the word at [offset] that lie inside the block. *)
Definition word_lanes (offset len : Z) : list Z := filter (fun i => offset + i < len) [0; 1; 2; 3].

Definition block_byte (data : list Z) (offset : Z) : Z := byte_at data (Z.to_nat offset).
Definition block_word (data : list Z) (offset len : Z) : Z :=
  foldl (fun word i => Z.lor word (u32 (Z.shiftl (block_byte data (offset + i)) (8 * i)))) 0 (word_lanes offset len).
Definition word_byte (word i : Z) : Z := u8 (Z.land (Z.shiftr word (8 * i)) 0xFF).
Definition block_matches (expected : list Z) (offset len actual_word : Z) : bool :=
  forallb (fun i => word_byte actual_word i =? block_byte expected (offset + i)) (word_lanes offset len).

Section flash.
Context {V : Type} (l : swd_link V).

Abbreviation attempt := (Prelude.attempt esp_err_t V).

(** Every eighth word the other tasks get a turn. *)
Definition cooperate_after (offset : Z) : attempt unit :=
  performs (if Z.land (offset / 4) 0x7 =? 0x7 then link_cooperate l else io_ret tt).

Definition swd_mem_write_block (address : Z) (data : option (list Z)) (len : Z) : attempt unit :=
  match data with
  | None => if negb (len =? 0) then fails ESP_ERR_INVALID_ARG else succeeds tt
  | Some data =>
      for_each (word_offsets len) (fun offset =>
        let* _ := link_write l (u32 (address + u32 offset)) (block_word data offset len) in
        cooperate_after offset)
  end.

Definition swd_mem_verify_block (address : Z) (expected : option (list Z)) (len : Z) : attempt unit :=
  match expected with
  | None => if negb (len =? 0) then fails ESP_ERR_INVALID_ARG else succeeds tt
  | Some expected =>
      for_each (word_offsets len) (fun offset =>
        let* actual_word := link_read l (u32 (address + u32 offset)) in
        if negb (block_matches expected offset len actual_word) then fails ESP_ERR_INVALID_CRC
        else cooperate_after offset)
  end.

(** ** The core *)

Definition cooperate_polling (i : nat) (mask : Z) : attempt unit :=
  performs (if Z.land (Z.of_nat i) mask =? mask then link_cooperate l else io_ret tt).

Definition swd_halt_attached_core : attempt Z :=
  let* _ := link_write l SWD_DHCSR_ADDR (Z.lor (Z.lor SWD_DHCSR_DBGKEY SWD_DHCSR_C_DEBUGEN) SWD_DHCSR_C_HALT) in
  poll_each (seq 0 SWD_REG_POLL_LIMIT) (fun i =>
    let* dhcsr := link_read l SWD_DHCSR_ADDR in
    if has_bits dhcsr SWD_DHCSR_S_HALT then succeeds (Some dhcsr)
    else let* _ := cooperate_polling i 0x7 in succeeds None) ESP_ERR_TIMEOUT.

Definition swd_write_core_reg (regsel value : Z) : attempt unit :=
  let* _ := link_write l SWD_DCRDR_ADDR value in
  let* _ := link_write l SWD_DCRSR_ADDR (Z.lor SWD_DCRSR_REGWNR regsel) in
  poll_each (seq 0 SWD_REG_POLL_LIMIT) (fun i =>
    let* dhcsr := link_read l SWD_DHCSR_ADDR in
    if has_bits dhcsr SWD_DHCSR_S_REGRDY then succeeds (Some tt)
    else let* _ := cooperate_polling i 0x7 in succeeds None) ESP_ERR_TIMEOUT.

Definition swd_read_core_reg (regsel : Z) : attempt Z :=
  let* _ := link_write l SWD_DCRSR_ADDR regsel in
  poll_each (seq 0 SWD_REG_POLL_LIMIT) (fun i =>
    let* dhcsr := link_read l SWD_DHCSR_ADDR in
    if has_bits dhcsr SWD_DHCSR_S_REGRDY then
      let* value := link_read l SWD_DCRDR_ADDR in succeeds (Some value)
    else let* _ := cooperate_polling i 0x7 in succeeds None) ESP_ERR_TIMEOUT.

Definition swd_reset_system_attached : attempt unit :=
  link_write l SWD_AIRCR_ADDR (Z.lor SWD_AIRCR_VECTKEY SWD_AIRCR_SYSRESETREQ).

Definition swd_halt_core (targetsel : Z) : attempt unit :=
  let* _ := performs (link_claim l) in
  let* halted := performs (let* _ := link_attach l targetsel in swd_halt_attached_core) in
  let* _ := performs (link_release l) in
  match halted with
  | inl err => fails err
  | inr dhcsr => if negb (has_bits dhcsr SWD_DHCSR_S_HALT) then fails ESP_ERR_INVALID_STATE else succeeds tt
  end.

(** ** The stub *)

Definition ignored {A} (m : attempt A) (old : A) : io V A :=
  let! r := m in io_ret (match r with inl _ => old | inr a => a end).

(** The polls of a run; [ran] is whether the core was seen running, [stage] what was last read. *)
Fixpoint poll_stub (ctx_addr : Z) (indices : list nat) (ran : bool) (stage : Z) : attempt (option Z) :=
  match indices with
  | [] => succeeds None
  | i :: indices =>
      let* dhcsr := link_read l SWD_DHCSR_ADDR in
      if negb (has_bits dhcsr SWD_DHCSR_S_HALT) then
        let* stage := performs
          (if Z.land (Z.of_nat i) 0xF =? 0xF then
             let! stage := ignored (link_read l (u32 (ctx_addr + offsetof_stage))) stage in
             let! _ := ignored (link_read l (u32 (ctx_addr + offsetof_progress))) 0 in
             io_ret stage
           else io_ret stage) in
        let* _ := cooperate_polling i 0x1F in
        poll_stub ctx_addr indices true stage
      else
        let* stub_status := link_read l (u32 (ctx_addr + offsetof_status)) in
        let* stage := performs (ignored (link_read l (u32 (ctx_addr + offsetof_stage))) stage) in
        let* _ := performs (ignored (link_read l (u32 (ctx_addr + offsetof_progress))) 0) in
        match bzm_bridge_flash_stub_poll_result ran true stub_status stage with
        | BZM_BRIDGE_STUB_POLL_WAIT =>
            let* _ := cooperate_polling i 0x1F in
            poll_stub ctx_addr indices ran stage
        | BZM_BRIDGE_STUB_POLL_COMPLETE => succeeds (Some stub_status)
        | BZM_BRIDGE_STUB_POLL_FAILED => fails ESP_FAIL
        end
  end.

(** What is read for the log of a time-out. *)
Definition stub_timeout (ctx_addr : Z) : io V unit :=
  let! _ := ignored swd_halt_attached_core 0 in
  let! _ := ignored (swd_read_core_reg SWD_CORE_REG_PC) 0 in
  let! _ := ignored (swd_read_core_reg SWD_CORE_REG_R0) 0 in
  let! _ := ignored (link_read l (u32 (ctx_addr + offsetof_status))) 0 in
  let! _ := ignored (link_read l (u32 (ctx_addr + offsetof_stage))) 0 in
  let! _ := ignored (link_read l (u32 (ctx_addr + offsetof_progress))) 0 in
  io_ret tt.

Definition swd_run_stub_attached (ctx_addr : Z) : attempt Z :=
  let* _ := performs (ignored (link_read l (u32 (ctx_addr + offsetof_count))) 0) in
  let* _ := swd_write_core_reg SWD_CORE_REG_R0 ctx_addr in
  let* _ := swd_write_core_reg SWD_CORE_REG_MSP SWD_RP2040_STUB_STACK_TOP in
  let* _ := swd_write_core_reg SWD_CORE_REG_PC (Z.lor SWD_RP2040_STUB_BASE 1) in
  let* _ := swd_write_core_reg SWD_CORE_REG_XPSR 0x01000000 in
  let* _ := link_write l SWD_DHCSR_ADDR (Z.lor SWD_DHCSR_DBGKEY SWD_DHCSR_C_DEBUGEN) in
  let* answer := poll_stub ctx_addr (seq 0 SWD_RUN_POLL_LIMIT) false SWD_STUB_STAGE_IDLE in
  match answer with
  | Some stub_status => succeeds stub_status
  | None => let* _ := performs (stub_timeout ctx_addr) in fails ESP_ERR_TIMEOUT
  end.

Definition flash_ctx (op flash_offset count data_address : Z) : swd_flash_stub_ctx_t :=
  {| op := op; status := SWD_STUB_STATUS_IDLE; stage := SWD_STUB_STAGE_IDLE; progress := 0;
     flash_offset := flash_offset; count := count; data_addr := data_address |}.

Definition swd_run_flash_operation (op flash_offset count data_address : Z) : attempt unit :=
  let ctx := flash_ctx op flash_offset count data_address in
  let* _ := swd_mem_write_block SWD_RP2040_STUB_CTX_ADDR (Some (ctx_bytes ctx)) sizeof_ctx in
  let* stub_status := swd_run_stub_attached SWD_RP2040_STUB_CTX_ADDR in
  if stub_status =? SWD_STUB_STATUS_OK then succeeds tt else fails ESP_FAIL.

(** ** An image *)

Section image.
Context (image : list Z) (progress : option (bzm_bridge_flash_progress_fn V)).

Definition image_size : Z := Z.of_nat (length image).
Definition report_progress (phase : bzm_bridge_flash_phase_t) (completed : Z) : io V unit :=
  match progress with Some p => p phase completed image_size | None => io_ret tt end.

Definition erase_length : Z :=
  Z.land (u32 (image_size + SWD_FLASH_SECTOR_SIZE - 1)) (Z.lxor UINT32_MAX (SWD_FLASH_SECTOR_SIZE - 1)).

(** The bytes that are programmed for a chunk: a short one is filled up with 0xff. *)
Definition chunk_source (offset : Z) (chunk : bzm_bridge_flash_chunk_t) : list Z :=
  let source := drop (Z.to_nat offset) image in
  if negb (program_length chunk =? source_length chunk)
  then take (Z.to_nat (source_length chunk)) source ++
       replicate (Z.to_nat (BZM_BRIDGE_FLASH_PAGE_SIZE - source_length chunk)) 0xff
  else source.

(** The loops yield the offset at which they stop. *)
Fixpoint program_image (fuel : nat) (offset : Z) : attempt Z :=
  match fuel with
  | O => succeeds offset
  | S fuel =>
      if offset <? image_size then
        match bzm_bridge_flash_next_chunk image_size offset with
        | None => fails ESP_ERR_INVALID_SIZE
        | Some chunk =>
            let* _ := swd_mem_write_block SWD_RP2040_STUB_DATA_BASE (Some (chunk_source offset chunk))
                        (program_length chunk) in
            let* _ := swd_run_flash_operation SWD_STUB_OP_PROGRAM (u32 offset) (u32 (program_length chunk))
                        SWD_RP2040_STUB_DATA_BASE in
            let offset := offset + source_length chunk in
            let* _ := performs (report_progress BZM_BRIDGE_FLASH_PROGRAMMING offset) in
            program_image fuel offset
        end
      else succeeds offset
  end.

Fixpoint verify_image (fuel : nat) (offset : Z) : attempt Z :=
  match fuel with
  | O => succeeds offset
  | S fuel =>
      if offset <? image_size then
        let length := image_size - offset in
        let length := if BZM_BRIDGE_FLASH_CHUNK_SIZE <? length then BZM_BRIDGE_FLASH_CHUNK_SIZE else length in
        let* _ := swd_mem_verify_block (u32 (SWD_RP2040_XIP_BASE + u32 offset))
                    (Some (drop (Z.to_nat offset) image)) length in
        let offset := offset + length in
        let* _ := performs (report_progress BZM_BRIDGE_FLASH_VERIFYING offset) in
        verify_image fuel offset
      else succeeds offset
  end.

(** Enough for one chunk per page. *)
Definition chunk_fuel : nat := S (Z.to_nat (image_size / BZM_BRIDGE_FLASH_PAGE_SIZE)).

(** [if (err == ESP_OK) err = ...;] *)
Definition unless_failed {A B} (err : esp_err_t + A) (m : attempt B) : attempt B :=
  match err with inl e => fails e | inr _ => m end.

(** With core 0 attached: the error that is left when the pins are released. *)
Definition flash_attached : attempt unit :=
  let! err :=
    let* _ := link_attach l RP2040_TARGETSEL_CORE0 in
    let* _ := swd_halt_attached_core in
    swd_mem_write_block SWD_RP2040_STUB_BASE (Some RP2040_FLASH_STUB_BIN) RP2040_FLASH_STUB_BIN_SIZE in
  let! err := unless_failed err
    (let* _ := performs (report_progress BZM_BRIDGE_FLASH_ERASING 0) in
     swd_run_flash_operation SWD_STUB_OP_ERASE 0 (u32 erase_length) 0) in
  let! _ := report_progress BZM_BRIDGE_FLASH_PROGRAMMING 0 in
  let! err := unless_failed err (program_image chunk_fuel 0) in
  let! _ := report_progress BZM_BRIDGE_FLASH_VERIFYING 0 in
  let! err := unless_failed err (verify_image chunk_fuel 0) in
  unless_failed err
    (let* _ := performs (report_progress BZM_BRIDGE_FLASH_RESETTING image_size) in
     swd_reset_system_attached).

Definition flash_image : attempt unit :=
  let* _ := performs (report_progress BZM_BRIDGE_FLASH_PREPARING 0) in
  let* _ := link_configure l in
  let* _ := swd_halt_core RP2040_TARGETSEL_CORE1 in
  let* _ := performs (link_claim l) in
  let* err := performs flash_attached in
  let* _ := performs (link_release l) in
  unless_failed err (succeeds tt).
End image.

Definition bzm_bridge_swd_flash (image : option (list Z)) (progress : option (bzm_bridge_flash_progress_fn V))
    : io V esp_err_t :=
  match image with
  | None => io_ret ESP_ERR_INVALID_ARG
  | Some image =>
      if (image_size image =? 0) || (BZM_BRIDGE_FLASH_CAPACITY <? image_size image) then io_ret ESP_ERR_INVALID_ARG
      else
        let! r := flash_image image progress in
        io_ret (match r with inl err => err | inr _ => ESP_OK end)
  end.
End flash.

(** ** What the link and the callback leave alone

    A preorder on the world that every operation of the link and the callback respects is
    respected by the programming of an image. *)

Section respects.
Context {V : Type} (R : V -> V -> Prop) `{!PreOrder R}.

Definition respects {A} (m : io V A) : Prop := forall v, R v (snd (m v)).

Class LinkRespects (l : swd_link V) : Prop := {
  configure_respects : respects (link_configure l);
  claim_respects : respects (link_claim l);
  release_respects : respects (link_release l);
  attach_respects targetsel : respects (link_attach l targetsel);
  read_respects address : respects (link_read l address);
  write_respects address value : respects (link_write l address value);
  cooperate_respects : respects (link_cooperate l);
}.

Lemma respects_ret {A} (a : A) : respects (io_ret a).
Proof. intros v. reflexivity. Qed.
Lemma respects_bind {A B} (m : io V A) (k : A -> io V B) :
  respects m -> (forall a, respects (k a)) -> respects (io_bind m k).
Proof.
  intros Hm Hk v. unfold io_bind. specialize (Hm v). destruct (m v) as [a v']. etransitivity; [exact Hm|apply Hk].
Qed.
Lemma respects_attempt {A B} (m : Prelude.attempt esp_err_t V A) (k : A -> Prelude.attempt esp_err_t V B) :
  respects m -> (forall a, respects (k a)) -> respects (attempt_bind m k).
Proof. intros Hm Hk. apply respects_bind; [done|]. intros [e|a]; [apply respects_ret|apply Hk]. Qed.
Lemma respects_poll {A} indices (body : nat -> Prelude.attempt esp_err_t V (option A)) late :
  (forall i, respects (body i)) -> respects (poll_each indices body late).
Proof.
  intros Hb. induction indices as [|i indices IH]; [apply respects_ret|]. apply respects_attempt; [apply Hb|].
  intros [a|]; [apply respects_ret|exact IH].
Qed.
Lemma respects_for_each {A} (xs : list A) (body : A -> Prelude.attempt esp_err_t V unit) :
  (forall x, respects (body x)) -> respects (for_each xs body).
Proof. intros Hb. induction xs as [|x xs IH]; [apply respects_ret|]. by apply respects_attempt. Qed.
End respects.

Create HintDb respects.
#[export] Hint Resolve respects_ret configure_respects claim_respects release_respects attach_respects
  read_respects write_respects cooperate_respects : respects.

Ltac respects_step :=
  lazymatch goal with
  | |- forall _, _ => intros ?
  | |- respects _ (attempt_bind _ _) => apply respects_attempt; [exact _| |]
  | |- respects _ (io_bind _ _) => apply respects_bind; [exact _| |]
  | |- respects _ (performs _) => apply respects_bind; [exact _| |intros ?; by apply respects_ret]
  | |- respects _ (ignored _ _) => apply respects_bind; [exact _| |intros ?; by apply respects_ret]
  | |- respects _ (poll_each _ _ _) => apply respects_poll; [exact _|]
  | |- respects _ (for_each _ _) => apply respects_for_each; [exact _|]
  | |- respects _ (succeeds _) => by apply respects_ret
  | |- respects _ (fails _) => by apply respects_ret
  | |- respects _ (unless_failed ?r _) => destruct r; cbn [unless_failed]
  | |- respects _ (if ?c then _ else _) => destruct c
  | |- respects _ (match ?x with _ => _ end) => destruct x
  | |- respects _ _ => solve [eauto with respects typeclass_instances]
  end.
Ltac respects_solve := repeat respects_step.

Section frame.
Context {V : Type} (R : V -> V -> Prop) `{!PreOrder R} (l : swd_link V) `{!LinkRespects R l}.

Lemma respects_write_block address data len : respects R (swd_mem_write_block l address data len).
Proof. unfold swd_mem_write_block, cooperate_after. respects_solve. Qed.
Lemma respects_verify_block address data len : respects R (swd_mem_verify_block l address data len).
Proof. unfold swd_mem_verify_block, cooperate_after. respects_solve. Qed.
Lemma respects_halt : respects R (swd_halt_attached_core l).
Proof. unfold swd_halt_attached_core, cooperate_polling. respects_solve. Qed.
Lemma respects_write_core_reg sel value : respects R (swd_write_core_reg l sel value).
Proof. unfold swd_write_core_reg, cooperate_polling. respects_solve. Qed.
Lemma respects_read_core_reg sel : respects R (swd_read_core_reg l sel).
Proof. unfold swd_read_core_reg, cooperate_polling. respects_solve. Qed.
Hint Resolve respects_write_block respects_verify_block respects_halt respects_write_core_reg respects_read_core_reg : respects.
Lemma respects_poll_stub ctx indices ran stage : respects R (poll_stub l ctx indices ran stage).
Proof.
  revert ran stage. induction indices as [|i indices IH]; intros ran stage; cbn [poll_stub]; [by apply respects_ret|].
  unfold cooperate_polling. respects_solve.
Qed.
Hint Resolve respects_poll_stub : respects.
Lemma respects_operation o offset count address : respects R (swd_run_flash_operation l o offset count address).
Proof. unfold swd_run_flash_operation, swd_run_stub_attached, stub_timeout. respects_solve. Qed.
Hint Resolve respects_operation : respects.
Lemma respects_halt_core targetsel : respects R (swd_halt_core l targetsel).
Proof. unfold swd_halt_core. respects_solve. Qed.
Hint Resolve respects_halt_core : respects.

Context (image : list Z) (progress : option (bzm_bridge_flash_progress_fn V)).
Context (Hprogress : forall p phase completed total, progress = Some p -> respects R (p phase completed total)).

Lemma respects_report phase completed : respects R (report_progress image progress phase completed).
Proof. unfold report_progress. destruct progress as [p|] eqn:E; [by apply Hprogress|by apply respects_ret]. Qed.
Hint Resolve respects_report : respects.
Lemma respects_program fuel offset : respects R (program_image l image progress fuel offset).
Proof. revert offset. induction fuel as [|fuel IH]; intros offset; cbn [program_image]; respects_solve. Qed.
Lemma respects_verify fuel offset : respects R (verify_image l image progress fuel offset).
Proof. revert offset. induction fuel as [|fuel IH]; intros offset; cbn [verify_image]; respects_solve. Qed.
Hint Resolve respects_program respects_verify : respects.

Lemma respects_flash : respects R (bzm_bridge_swd_flash l (Some image) progress).
Proof. unfold bzm_bridge_swd_flash, flash_image, flash_attached, swd_reset_system_attached. respects_solve. Qed.
End frame.

(** ** A traced link

    The link leaves a log of what it was asked and what it answered.  A client may share
    the log: its own events are notes of a type [N]. *)

Inductive swd_event (N : Type) :=
| EvConfigure (r : esp_err_t + unit)
| EvClaim
| EvRelease
| EvAttach (targetsel : Z) (r : esp_err_t + unit)
| EvRead (address : Z) (r : esp_err_t + Z)
| EvWrite (address value : Z) (r : esp_err_t + unit)
| EvNote (note : N).
Arguments EvConfigure {N}.
Arguments EvClaim {N}.
Arguments EvRelease {N}.
Arguments EvAttach {N}.
Arguments EvRead {N}.
Arguments EvWrite {N}.
Arguments EvNote {N}.

Definition RESET_VALUE : Z := Z.lor SWD_AIRCR_VECTKEY SWD_AIRCR_SYSRESETREQ.

(** Accesses to the target other than its reset. *)
Definition quiet {N} (e : swd_event N) : Prop :=
  match e with
  | EvWrite address _ _ => address <> SWD_AIRCR_ADDR
  | EvRead _ _ | EvAttach _ _ => True
  | EvConfigure _ | EvClaim | EvRelease | EvNote _ => False
  end.
Definition resets {N} (e : swd_event N) : Prop :=
  match e with EvWrite address _ _ => address = SWD_AIRCR_ADDR | _ => False end.

(** The target is accessed only between a claim of the pins and their release, and a log of the
    link alone ends released. *)
Fixpoint bracketed {N} (claimed : bool) (events : list (swd_event N)) : bool :=
  match events with
  | [] => negb claimed
  | EvConfigure _ :: events => negb claimed && bracketed claimed events
  | EvClaim :: events => negb claimed && bracketed true events
  | EvRelease :: events => claimed && bracketed false events
  | EvNote _ :: _ => false
  | _ :: events => claimed && bracketed claimed events
  end.

(** The [k]th word of the image was read back from the flash. *)
Definition word_proved {N} (image : list Z) (k : Z) (e : swd_event N) : Prop :=
  exists word, e = EvRead (SWD_RP2040_XIP_BASE + 4 * k) (inr word) /\
    forall i, 0 <= i < 4 -> 4 * k + i < image_size image -> word_byte word i = block_byte image (4 * k + i).
Definition image_proved {N} (image : list Z) (events : list (swd_event N)) : Prop :=
  Forall2 (word_proved image) (seqZ 0 ((image_size image + 3) / 4)) events.

Section traced.
Context {W N : Type} (lk : swd_link W).

Definition traced_link : swd_link (W * list (swd_event N)) :=
  {| link_configure := traced (link_configure lk) EvConfigure;
     link_claim := traced (link_claim lk) (fun _ => EvClaim);
     link_release := traced (link_release lk) (fun _ => EvRelease);
     link_attach := fun targetsel => traced (link_attach lk targetsel) (EvAttach targetsel);
     link_read := fun address => traced (link_read lk address) (EvRead address);
     link_write := fun address value => traced (link_write lk address value) (EvWrite address value);
     link_cooperate := lifted (link_cooperate lk) |}.
Definition lifted_progress (p : bzm_bridge_flash_progress_fn W) : bzm_bridge_flash_progress_fn (W * list (swd_event N)) :=
  fun phase completed total => lifted (p phase completed total).

Context `{!LinkErrors lk}.
Abbreviation tl := traced_link.
Abbreviation world := (W * list (swd_event N))%type.
Abbreviation failed := (fun err => err <> ESP_OK).

(** [quietly m good]: [m] leaves only quiet events, and ends with an error or with [good]. *)
Definition quietly {A} (m : attempt esp_err_t world A) (good : A -> list (swd_event N) -> Prop) : Prop :=
  emits m (ends quiet failed good).
Definition hush {A} (m : attempt esp_err_t world A) : Prop := quietly m (fun _ _ => True).
Definition hush_io {A} (m : io world A) : Prop := emits m (fun _ e => Forall quiet e).

Lemma quietly_read address : quietly (link_read tl address) (fun v e => e = [EvRead address (inr v)]).
Proof.
  eapply emits_traced_yields; [apply read_sound|]. intros [err|v] Hr; (split; [by apply Forall_singleton|by try congruence]).
Qed.
Lemma quietly_write address value : address <> SWD_AIRCR_ADDR -> hush (link_write tl address value).
Proof.
  intros Ha. eapply emits_traced_yields; [apply write_sound|]. intros [err|v] Hr; (split; [by apply Forall_singleton|by try congruence]).
Qed.
Lemma quietly_attach targetsel : hush (link_attach tl targetsel).
Proof.
  eapply emits_traced_yields; [apply attach_sound|]. intros [err|v] Hr; (split; [by apply Forall_singleton|by try congruence]).
Qed.
Lemma hush_read address : hush (link_read tl address).
Proof. eapply ends_mono; [apply quietly_read|done|done]. Qed.

Lemma hush_succeeds {A} (a : A) : hush (succeeds a).
Proof. by apply ends_succeeds. Qed.
Lemma hush_fails {A} err : err <> ESP_OK -> hush (A := A) (fails err).
Proof. intros He. by apply ends_fails. Qed.
Lemma hush_bind {A B} (m : attempt esp_err_t world A) (k : A -> attempt esp_err_t world B) :
  hush m -> (forall a, hush (k a)) -> hush (attempt_bind m k).
Proof. intros Hm Hk. eapply ends_bind; [exact Hm|]. intros a e _ _. apply Hk. Qed.
Lemma hush_performs {A} (m : io world A) : hush_io m -> hush (performs m).
Proof. intros Hm. apply ends_performs. eapply emits_mono; [exact Hm|]. auto. Qed.
Lemma hush_poll {A} indices (body : nat -> attempt esp_err_t world (option A)) late :
  late <> ESP_OK -> (forall i, hush (body i)) -> hush (poll_each indices body late).
Proof.
  intros Hl Hb. induction indices as [|i indices IH]; [by apply hush_fails|].
  apply hush_bind; [apply Hb|]. intros [a|]; [apply hush_succeeds|exact IH].
Qed.
Lemma hush_for_each {A} (xs : list A) (body : A -> attempt esp_err_t world unit) :
  (forall x, hush (body x)) -> hush (for_each xs body).
Proof. intros Hb. induction xs as [|x xs IH]; [apply hush_succeeds|]. by apply hush_bind. Qed.

Lemma hush_io_ret {A} (a : A) : hush_io (io_ret a).
Proof. by apply emits_ret. Qed.
Lemma hush_io_bind {A B} (m : io world A) (k : A -> io world B) :
  hush_io m -> (forall a, hush_io (k a)) -> hush_io (io_bind m k).
Proof.
  intros Hm Hk. apply emits_bind. eapply emits_mono; [exact Hm|]. intros a e He.
  eapply emits_mono; [apply Hk|]. intros b e' He'. by apply Forall_app.
Qed.
Lemma hush_io_lifted {A} (m : io W A) : hush_io (lifted m).
Proof. by apply emits_lifted. Qed.
Lemma hush_io_cooperate : hush_io (link_cooperate tl).
Proof. apply hush_io_lifted. Qed.
Lemma hush_io_ignored {A} (m : attempt esp_err_t world A) old : hush m -> hush_io (ignored m old).
Proof.
  intros Hm. apply hush_io_bind; [|intros; apply hush_io_ret].
  eapply emits_mono; [exact Hm|]. by intros r e [He _].
Qed.
End traced.

Create HintDb hush.
#[export] Hint Resolve hush_succeeds hush_read quietly_attach hush_io_ret hush_io_lifted hush_io_cooperate : hush.
#[export] Hint Extern 2 (hush (fails _)) => apply hush_fails; discriminate : hush.
#[export] Hint Extern 2 (hush (link_write _ _ _)) => apply quietly_write; [exact _|vm_compute; discriminate] : hush.

Ltac hush_step :=
  lazymatch goal with
  | |- forall _, _ => intros ?
  | |- hush (attempt_bind _ _) => apply hush_bind
  | |- hush (poll_each _ _ _) => apply hush_poll; [discriminate|]
  | |- hush (for_each _ _) => apply hush_for_each
  | |- hush (performs _) => apply hush_performs
  | |- hush (if ?c then _ else _) => destruct c
  | |- hush (match ?x with _ => _ end) => destruct x
  | |- hush _ => solve [auto with hush]
  | |- hush_io (io_bind _ _) => apply hush_io_bind
  | |- hush_io (ignored _ _) => apply hush_io_ignored
  | |- hush_io (if ?c then _ else _) => destruct c
  | |- hush_io _ => solve [auto with hush]
  end.
Ltac hush_solve := repeat hush_step.

(** ** Programming over a traced link *)

Section programming.
Context {W N : Type} (lk : swd_link W) `{!LinkErrors lk}.
Abbreviation tl := (traced_link (N := N) lk).

Lemma hush_cooperate_after offset : hush (cooperate_after tl offset).
Proof. unfold cooperate_after. hush_solve. Qed.
Lemma hush_cooperate_polling i mask : hush (cooperate_polling tl i mask).
Proof. unfold cooperate_polling. hush_solve. Qed.
Hint Resolve hush_cooperate_after hush_cooperate_polling : hush.

Lemma hush_halt : hush (swd_halt_attached_core tl).
Proof. unfold swd_halt_attached_core. hush_solve. Qed.
Lemma hush_write_core_reg regsel value : hush (swd_write_core_reg tl regsel value).
Proof. unfold swd_write_core_reg. hush_solve. Qed.
Lemma hush_read_core_reg regsel : hush (swd_read_core_reg tl regsel).
Proof. unfold swd_read_core_reg. hush_solve. Qed.
Hint Resolve hush_halt hush_write_core_reg hush_read_core_reg : hush.

Lemma hush_poll_stub ctx_addr indices ran stage : hush (poll_stub tl ctx_addr indices ran stage).
Proof.
  revert ran stage. induction indices as [|i indices IH]; intros ran stage; cbn [poll_stub]; [by apply hush_succeeds|].
  assert (forall b s, hush (poll_stub tl ctx_addr indices b s)) by done. hush_solve.
Qed.
Hint Resolve hush_poll_stub : hush.

Lemma hush_run_stub ctx_addr : hush (swd_run_stub_attached tl ctx_addr).
Proof. unfold swd_run_stub_attached, stub_timeout. hush_solve. Qed.
Hint Resolve hush_run_stub : hush.

(** A block below the system registers. *)
Lemma hush_write_block address data len :
  0 <= address -> 0 <= len -> address + len < SWD_AIRCR_ADDR -> hush (swd_mem_write_block tl address data len).
Proof.
  intros Ha Hl Hs. unfold swd_mem_write_block. destruct data as [data|]; [|hush_solve]. unfold quietly.
  eapply ends_mono; [apply (ends_for_each _ _ quiet _ (fun _ _ => True))|done|done].
  intros offset Hin. apply list_elem_of_fmap in Hin as (k & -> & Hk%elem_of_seqZ).
  pose proof (Z.div_mod (len + 3) 4 ltac:(lia)). pose proof (Z.mod_pos_bound (len + 3) 4 ltac:(lia)).
  unfold SWD_AIRCR_ADDR in Hs. apply hush_bind; [|auto with hush].
  apply quietly_write; [done|]. rewrite (u32_small (4 * k)), u32_small by lia. unfold SWD_AIRCR_ADDR. lia.
Qed.

Lemma hush_flash_operation o flash_offset count data_address : hush (swd_run_flash_operation tl o flash_offset count data_address).
Proof.
  unfold swd_run_flash_operation. apply hush_bind; [apply hush_write_block; by vm_compute|]; hush_solve.
Qed.
Hint Resolve hush_flash_operation : hush.

(** *** Verification *)

Definition reads_as (address : Z) (expected : list Z) (len offset : Z) (e : swd_event N) : Prop :=
  exists word, e = EvRead (u32 (address + u32 offset)) (inr word) /\ block_matches expected offset len word = true.

Lemma Forall2_singletons {A B} (P : A -> B -> Prop) xs (es : list (list B)) :
  Forall2 (fun x e => exists b, e = [b] /\ P x b) xs es -> Forall2 P xs (concat es).
Proof. induction 1 as [|x e xs es (b & -> & Hb) _ IH]; [constructor|]. by constructor. Qed.

Lemma silent_cooperate offset : emits (cooperate_after tl offset) (fun r e => r = inr tt /\ e = []).
Proof.
  apply emits_performs. destruct (_ =? _); [|by apply emits_ret]. by apply emits_lifted; intros [].
Qed.

Lemma quietly_verify_block address expected len :
  quietly (swd_mem_verify_block tl address (Some expected) len) (fun _ e =>
    Forall2 (reads_as address expected len) (word_offsets len) e).
Proof.
  eapply ends_mono; [apply (ends_for_each _ _ _ _ (fun x e => exists b, e = [b] /\ reads_as address expected len x b))|done|].
  - intros offset _. eapply ends_bind; [by apply quietly_read|]. intros word e _ ->.
    destruct (negb _) eqn:Em; [by apply ends_fails|]. prop_bool.
    eapply emits_mono; [apply silent_cooperate|]. intros ? ? [-> ->]. split; [done|].
    eexists. rewrite app_nil_r. split; [done|]. by exists word.
  - intros [] e (es & -> & Hes). by apply Forall2_singletons.
Qed.

Section image.
Context (image : list Z) (progress : option (bzm_bridge_flash_progress_fn W)).
Abbreviation size := (image_size image).
Abbreviation p := (option_map (lifted_progress (N := N)) progress).

Lemma silent_report phase completed : emits (report_progress image p phase completed) (fun _ e => e = []).
Proof. unfold report_progress. destruct progress; cbn [option_map]; [by apply emits_lifted|by apply emits_ret]. Qed.
Lemma hush_report phase completed : hush_io (report_progress image p phase completed).
Proof. eapply emits_mono; [apply silent_report|]. by intros ? ? ->. Qed.

Lemma Forall2_impl_in {A B} (P Q : A -> B -> Prop) xs ys :
  (forall x y, x ∈ xs -> P x y -> Q x y) -> Forall2 P xs ys -> Forall2 Q xs ys.
Proof.
  intros H HP. induction HP as [|x y xs ys Hxy _ IH]; constructor; [apply H; [by left|done]|].
  apply IH. intros. apply H; [by right|done].
Qed.

Lemma block_byte_drop data a o : 0 <= a -> 0 <= o -> block_byte (drop (Z.to_nat a) data) o = block_byte data (a + o).
Proof. intros Ha Ho. unfold block_byte, byte_at. rewrite nth_skipn. f_equal. lia. Qed.

(** The words of a part of the image prove the words of the image. *)
Lemma reads_prove k n events :
  0 <= k -> 0 <= n -> 4 * k + n <= size -> size <= BZM_BRIDGE_FLASH_CAPACITY -> n mod 4 = 0 \/ 4 * k + n = size ->
  Forall2 (reads_as (u32 (SWD_RP2040_XIP_BASE + u32 (4 * k))) (drop (Z.to_nat (4 * k)) image) n) (word_offsets n) events ->
  Forall2 (word_proved image) (seqZ k ((n + 3) / 4)) events.
Proof.
  intros Hk Hn Hs Hc Hend. unfold BZM_BRIDGE_FLASH_CAPACITY in Hc. unfold word_offsets.
  replace (seqZ k ((n + 3) / 4)) with (map (Z.add k) (seqZ 0 ((n + 3) / 4))) by (rewrite fmap_add_seqZ; f_equal; lia).
  rewrite !Forall2_fmap_l. apply Forall2_impl_in. intros j e Hj%elem_of_seqZ (word & -> & Hm).
  pose proof (Z.div_mod (n + 3) 4 ltac:(lia)). pose proof (Z.mod_pos_bound (n + 3) 4 ltac:(lia)).
  exists word. split.
  - unfold SWD_RP2040_XIP_BASE. rewrite (u32_small (4 * k)), (u32_small (4 * j)), (u32_small (_ + 4 * k)), u32_small by lia.
    f_equal. lia.
  - intros i Hi Hsz. unfold block_matches in Hm. rewrite forallb_forall in Hm.
    specialize (Hm i). rewrite block_byte_drop in Hm by lia. replace (4 * (k + j) + i) with (4 * k + (4 * j + i)) by lia.
    apply Z.eqb_eq, Hm, list_elem_of_In, list_elem_of_filter. split.
    + destruct Hend as [Hend|Hend]; [|lia]. pose proof (Z.div_mod n 4 ltac:(lia)). lia.
    + change [0; 1; 2; 3] with (seqZ 0 4). apply elem_of_seqZ. lia.
Qed.

Lemma quietly_report phase completed :
  quietly (performs (report_progress image p phase completed)) (fun _ e => e = []).
Proof. apply ends_performs. eapply emits_mono; [apply silent_report|]. by intros ? ? ->. Qed.

(** The words of a part are followed by those of the next one. *)
Lemma words_after offset n : offset mod 4 = 0 -> 0 <= offset -> 0 <= n -> offset + n <= size ->
  seqZ ((offset + 3) / 4) ((size + 3) / 4 - (offset + 3) / 4) =
  seqZ (offset / 4) ((n + 3) / 4) ++ seqZ ((offset + n + 3) / 4) ((size + 3) / 4 - (offset + n + 3) / 4).
Proof.
  intros Hmod Ho Hn Hle. pose proof (Z.div_mod offset 4 ltac:(lia)) as Hk. rewrite Hmod, Z.add_0_r in Hk.
  set (k := offset / 4) in *. rewrite Hk.
  replace (4 * k + n + 3) with (k * 4 + (n + 3)) by lia. replace (4 * k + 3) with (k * 4 + 3) by lia.
  rewrite !Z.div_add_l by lia. change (3 / 4) with 0. rewrite Z.add_0_r.
  assert (k * 4 + (n + 3) <= size + 3) as Hm by lia. apply (Z.div_le_mono _ _ 4) in Hm; [|lia].
  rewrite Z.div_add_l in Hm by lia. assert (0 <= (n + 3) / 4) by (apply Z.div_pos; lia).
  rewrite <- seqZ_app by lia. f_equal. lia.
Qed.

Lemma quietly_verify fuel offset :
  0 <= offset <= size -> size <= BZM_BRIDGE_FLASH_CAPACITY -> offset mod 4 = 0 \/ offset = size ->
  size - offset <= 256 * Z.of_nat fuel ->
  quietly (verify_image tl image p fuel offset) (fun final e =>
    final = size /\ Forall2 (word_proved image) (seqZ ((offset + 3) / 4) ((size + 3) / 4 - (offset + 3) / 4)) e).
Proof.
  intros Ho Hc Hmod Hfuel. revert offset Ho Hmod Hfuel. induction fuel as [|fuel IH]; intros offset Ho Hmod Hfuel.
  { apply ends_succeeds. assert (offset = size) as -> by lia. split; [done|]. rewrite Z.sub_diag. constructor. }
  cbn [verify_image]. destruct (offset <? size) eqn:Elt.
  2: { apply ends_succeeds. assert (offset = size) as -> by lia. split; [done|]. rewrite Z.sub_diag. constructor. }
  apply Z.ltb_lt in Elt. destruct Hmod as [Hmod|]; [|lia]. set (n := if _ <? _ then _ else _).
  assert (Hn : 256 <= n < size - offset /\ n mod 4 = 0 \/ n = size - offset).
  { subst n. unfold BZM_BRIDGE_FLASH_CHUNK_SIZE. destruct (_ <? _) eqn:E; [left|by right]. split; [lia|done]. }
  assert (Hmod' : (offset + n) mod 4 = 0 \/ offset + n = size).
  { destruct Hn as [[_ Hn]|Hn]; [left|right; lia]. by rewrite Z.add_mod, Hmod, Hn. }
  assert (Hk : offset = 4 * (offset / 4)) by (pose proof (Z.div_mod offset 4 ltac:(lia)); lia).
  rewrite (words_after offset n) by lia.
  eapply ends_bind; [apply quietly_verify_block|]. intros [] e1 _ H1.
  eapply ends_bind; [apply quietly_report|]. intros [] e2 _ ->.
  eapply ends_mono; [apply IH; [lia|done|lia]|done|]. intros final e3 [-> H3]. split; [done|].
  apply Forall2_app; [|done]. rewrite Hk in H1. apply reads_prove; [lia|lia|lia|done| |done].
  destruct Hn as [[_ Hn]|Hn]; [by left|right; lia].
Qed.

Lemma next_chunk_bounds total offset chunk : bzm_bridge_flash_next_chunk total offset = Some chunk -> 0 <= offset ->
  0 < source_length chunk <= total - offset /\ source_length chunk <= program_length chunk <= BZM_BRIDGE_FLASH_CHUNK_SIZE.
Proof.
  unfold bzm_bridge_flash_next_chunk, BZM_BRIDGE_FLASH_CHUNK_SIZE, BZM_BRIDGE_FLASH_PAGE_SIZE. intros H Ho.
  pose proof (Z.mod_pos_bound (if total - offset <? 16 * 1024 then total - offset else 16 * 1024) 256 ltac:(lia)) as Hm.
  repeat guard_step; simplify_eq; cbn [source_length program_length] in *; prop_bool; lia.
Qed.

Lemma hush_program fuel offset : 0 <= offset -> hush (program_image tl image p fuel offset).
Proof.
  revert offset. induction fuel as [|fuel IH]; intros offset Ho; cbn [program_image]; [by apply hush_succeeds|].
  destruct (_ <? _); [|by apply hush_succeeds]. destruct (bzm_bridge_flash_next_chunk _ _) as [chunk|] eqn:Ec; [|by apply hush_fails].
  apply next_chunk_bounds in Ec; [|done]. unfold BZM_BRIDGE_FLASH_CHUNK_SIZE in Ec.
  apply hush_bind; [apply hush_write_block; unfold SWD_RP2040_STUB_DATA_BASE, SWD_AIRCR_ADDR; lia|]. intros _.
  apply hush_bind; [auto with hush|]. intros _.
  apply hush_bind; [apply hush_performs, hush_report|]. intros _. apply IH. lia.
Qed.

(** The accesses of an attached core: a failure without a reset, or a proof of the image and then the reset. *)
Definition attached_log (r : esp_err_t + unit) (e : list (swd_event N)) : Prop :=
  (exists err, r = inl err /\ err <> ESP_OK /\ Forall quiet e) \/
  (r <> inl ESP_OK /\ exists before proof, e = before ++ proof ++ [EvWrite SWD_AIRCR_ADDR RESET_VALUE r] /\
     Forall quiet before /\ image_proved image proof).

Definition no_false_error {A} (r : esp_err_t + A) : Prop := r <> inl ESP_OK.

Lemma quietly_unless {A B} (r : esp_err_t + A) (m : attempt esp_err_t (W * list (swd_event N)) B) good :
  no_false_error r -> quietly m good -> quietly (unless_failed r m) good.
Proof. intros Hr Hm. destruct r as [err|a]; [|done]. apply ends_fails. unfold no_false_error in Hr. congruence. Qed.

Lemma quietly_runs {A B} (m : attempt esp_err_t (W * list (swd_event N)) A) good (k : esp_err_t + A -> io _ B) post :
  quietly m good ->
  (forall r e1, Forall quiet e1 -> no_false_error r -> (forall a, r = inr a -> good a e1) ->
    emits (k r) (fun b e2 => post b (e1 ++ e2))) ->
  emits (io_bind m k) post.
Proof.
  intros Hm Hk. apply emits_bind. eapply emits_mono; [exact Hm|]. intros r e1 [Hq Hr].
  apply Hk; [done|unfold no_false_error; destruct r; congruence|by intros a ->].
Qed.

Lemma silent_runs {A B} (m : io (W * list (swd_event N)) A) (k : A -> io _ B) post :
  emits m (fun _ e => e = []) -> (forall a, emits (k a) post) -> emits (io_bind m k) post.
Proof. intros Hm Hk. apply emits_bind. eapply emits_mono; [exact Hm|]. by intros a e ->. Qed.

Lemma emits_flash_attached : 0 < size <= BZM_BRIDGE_FLASH_CAPACITY ->
  emits (flash_attached tl image p) attached_log.
Proof.
  intros Hs. unfold flash_attached.
  eapply quietly_runs.
  { apply hush_bind; [auto with hush|]. intros _. apply hush_bind; [auto with hush|]. intros _.
    apply hush_write_block; by vm_compute. }
  intros r1 e1 Q1 F1 _. eapply quietly_runs.
  { apply quietly_unless; [done|]. apply hush_bind; [apply hush_performs, hush_report|]. intros _. auto with hush. }
  intros r2 e2 Q2 F2 _. apply silent_runs; [apply silent_report|]. intros _.
  eapply quietly_runs; [apply quietly_unless; [done|by apply hush_program]|].
  intros r3 e3 Q3 F3 _. apply silent_runs; [apply silent_report|]. intros _. eapply quietly_runs.
  { apply quietly_unless; [done|]. apply quietly_verify; [lia|lia|by left|]. unfold chunk_fuel, BZM_BRIDGE_FLASH_PAGE_SIZE.
    pose proof (Z.div_mod size 256 ltac:(lia)). pose proof (Z.mod_pos_bound size 256 ltac:(lia)).
    assert (0 <= size / 256) by (apply Z.div_pos; lia). lia. }
  intros r4 e4 Q4 F4 G4. destruct r4 as [err|final]; cbn [unless_failed].
  { apply emits_fails. left. exists err. split_and!; [done|unfold no_false_error in F4; congruence|].
    rewrite !Forall_app. repeat split; [done..|constructor]. }
  destruct (G4 final eq_refl) as [_ Hproof]. apply emits_attempt, emits_performs.
  eapply emits_mono; [apply silent_report|]. intros _ e ->.
  eapply emits_traced_yields; [apply write_sound|]. intros r Hr. right. split; [done|].
  exists (e1 ++ e2 ++ e3), e4. rewrite <- !app_assoc. split_and!; [done|by rewrite !Forall_app|].
  unfold image_proved. change ((0 + 3) / 4) with 0 in Hproof. by rewrite Z.sub_0_r in Hproof.
Qed.

Lemma bracketed_quiet (e rest : list (swd_event N)) : Forall quiet e -> bracketed true (e ++ rest) = bracketed true rest.
Proof. induction 1 as [|x e Hx _ IH]; [done|]. by destruct x. Qed.
Lemma quiet_not_resets (e : list (swd_event N)) : Forall quiet e -> Forall (fun x => ~ resets x) e.
Proof. intros H. eapply Forall_impl; [exact H|]. intros [] He; cbn in *; tauto. Qed.
Lemma image_proved_quiet (e : list (swd_event N)) : image_proved image e -> Forall quiet e.
Proof.
  unfold image_proved. generalize (seqZ 0 ((size + 3) / 4)). intros ks.
  induction 1 as [|k x ks e (w & -> & _) _ IH]; constructor; done.
Qed.

(** Core 1 is halted between a claim and a release, with no reset. *)
Lemma emits_halt_core targetsel : emits (swd_halt_core tl targetsel) (fun r e =>
  no_false_error r /\ exists inner, e = EvClaim :: inner ++ [EvRelease] /\ Forall quiet inner).
Proof.
  unfold swd_halt_core. apply emits_attempt, emits_performs, emits_traced. intros [].
  apply emits_attempt, emits_performs. eapply emits_mono.
  { apply (hush_bind (W := W)); [auto with hush|]. intros _. auto with hush. }
  intros r e [Hq Hr]. apply emits_attempt, emits_performs, emits_traced. intros [].
  destruct r as [err|dhcsr]; [|destruct (negb _)]; (apply emits_ret; split;
    [unfold no_false_error; congruence|]; exists e; by rewrite app_nil_r).
Qed.

(** The log of a programming: brackets, and either no reset or one that ends a proof of the image. *)
Definition flash_log (r : esp_err_t + unit) (e : list (swd_event N)) : Prop :=
  bracketed false e = true /\ no_false_error r /\
  ((exists err, r = inl err) /\ Forall (fun x => ~ resets x) e \/
   exists before proof, e = before ++ proof ++ [EvWrite SWD_AIRCR_ADDR RESET_VALUE r; EvRelease] /\
     Forall (fun x => ~ resets x) before /\ image_proved image proof).

Lemma emits_flash_image : 0 < size <= BZM_BRIDGE_FLASH_CAPACITY -> emits (flash_image tl image p) flash_log.
Proof.
  intros Hs. unfold flash_image. apply emits_attempt, emits_performs.
  eapply emits_mono; [apply silent_report|]. intros _ e0 ->.
  apply emits_attempt. eapply emits_traced_yields; [apply configure_sound|]. intros [err|[]] Hr.
  { split_and!; [done|done|]. left. split; [by exists err|]. apply Forall_singleton; cbn; tauto. }
  apply emits_attempt. eapply emits_mono; [apply emits_halt_core|]. intros r1 e1 (F1 & inner & -> & Q1).
  assert (Hb1 : forall rest, bracketed false (EvConfigure (inr tt) :: EvClaim :: (inner ++ [EvRelease]) ++ rest) = bracketed false rest).
  { intros rest. cbn. rewrite <- app_assoc, bracketed_quiet by done. done. }
  assert (Hn1 : Forall (fun x => ~ resets x) (EvConfigure (inr tt) :: EvClaim :: inner ++ [EvRelease])).
  { do 2 (constructor; [cbn; tauto|]). apply Forall_app. split; [by apply quiet_not_resets|apply Forall_singleton; cbn; tauto]. }
  destruct r1 as [err|[]].
  { cbn [app]. split_and!; [by rewrite <- (app_nil_r (inner ++ _)), Hb1|done|]. left. by split; [exists err|]. }
  apply emits_attempt, emits_performs, emits_traced. intros [].
  apply emits_attempt, emits_performs. eapply emits_mono; [by apply emits_flash_attached|]. intros r2 e2 H2.
  apply emits_attempt, emits_performs, emits_traced. intros [].
  destruct H2 as [(err & -> & Herr & Q2)|(F2 & before & proof & -> & Q2 & Hp)].
  - apply emits_fails. cbn [app]. split_and!; [|by unfold no_false_error; congruence|].
    + rewrite Hb1. cbn. by rewrite bracketed_quiet.
    + left. split; [by exists err|]. apply (Forall_app _ (EvConfigure (inr tt) :: EvClaim :: inner ++ [EvRelease])).
      split; [done|].
      constructor; [cbn; tauto|]. apply Forall_app. split; [by apply quiet_not_resets|apply Forall_singleton; cbn; tauto].
  - replace (unless_failed r2 (succeeds tt)) with (io_ret (W := W * list (swd_event N)) r2) by (by destruct r2 as [|[]]).
    apply emits_ret. cbn [app]. split_and!; [|done|].
    + rewrite Hb1. cbn. rewrite <- !app_assoc, !bracketed_quiet by (done || by apply image_proved_quiet). done.
    + right. exists ((EvConfigure (inr tt) :: EvClaim :: inner ++ [EvRelease]) ++ EvClaim :: before), proof.
      split_and!; [|apply Forall_app; split; [done|]|done].
      * cbn [app]. by rewrite <- !app_assoc.
      * constructor; [cbn; tauto|]. by apply quiet_not_resets.
Qed.
End image.

Lemma found_after {A} (P : A -> Prop) xs (y : A) zs before after :
  Forall (fun x => ~ P x) xs -> P y -> xs ++ zs = before ++ y :: after ->
  exists before' : list A, before = xs ++ before' /\ zs = before' ++ y :: after.
Proof.
  intros Hx Hy. revert before. induction Hx as [|x xs Hx _ IH]; intros before E; [by exists before|].
  destruct before as [|b before]; [by injection E as -> E|]. injection E as -> E. destruct (IH before E) as (before' & -> & ->).
  by exists before'.
Qed.

(** C26: Whatever the link answers, the target is accessed only between a claim of the pins and
    their release, which no outcome leaves out; a reset of the processor is written only after
    every word of the image has been read back from the flash, in order and equal; and ESP_OK
    means that this happened and that the reset was written. *)
Theorem swd_flash_proves_image (image : option (list Z)) (progress : option (bzm_bridge_flash_progress_fn W)) :
  emits (bzm_bridge_swd_flash tl image (option_map lifted_progress progress)) (fun err e =>
    bracketed false e = true /\
    (err = ESP_OK -> exists bytes before proof, image = Some bytes /\ image_proved bytes proof /\
       e = before ++ proof ++ [EvWrite SWD_AIRCR_ADDR RESET_VALUE (inr tt); EvRelease]) /\
    (forall value r before after, e = before ++ EvWrite SWD_AIRCR_ADDR value r :: after ->
       exists bytes earlier proof, image = Some bytes /\ image_proved bytes proof /\
         before = earlier ++ proof /\ value = RESET_VALUE /\ after = [EvRelease])).
Proof.
  assert (Hnil : forall value r (before after : list (swd_event N)), [] <> before ++ EvWrite SWD_AIRCR_ADDR value r :: after)
    by (intros ? ? [] ?; done).
  destruct image as [bytes|]; cbn [bzm_bridge_swd_flash].
  2: { apply emits_ret. split_and!; [done|done|]. intros ? ? ? ? H. by apply Hnil in H. }
  destruct (_ || _) eqn:Eg.
  { apply emits_ret. split_and!; [done|done|]. intros ? ? ? ? H. by apply Hnil in H. }
  prop_bool. apply Z.eqb_neq in H. apply Z.ltb_ge in H0. unfold image_size in *.
  apply emits_bind. eapply emits_mono; [apply emits_flash_image; unfold image_size; lia|].
  intros r e (Hb & Hr & Hlog). apply emits_ret. rewrite app_nil_r. split; [done|].
  destruct Hlog as [((err & ->) & Hn)|(before & proof & -> & Hn & Hp)].
  - split; [intros ->; by destruct Hr|]. intros value r before after ->.
    apply Forall_app in Hn as [_ Hn]. inversion Hn as [|? ? Hx _]. by destruct Hx.
  - split.
    + intros Hok. exists bytes, before, proof. destruct r as [err|[]]; [by subst err; destruct Hr|done].
    + intros value r' b a E. apply (found_after resets) in E as (b1 & -> & E); [|done|done].
      apply (found_after resets) in E as (b2 & -> & E);
        [|by apply quiet_not_resets, (image_proved_quiet bytes)|done].
      exists bytes, before, proof. destruct b2 as [|x [|y [|z b2]]]; simplify_eq/=. by rewrite app_nil_r.
Qed.
End programming.

(** An image of the smallest kind over the two-wire link, with a target that answers every read with zero. *)
Example swd_flash_proves_image_witness :
  emits (bzm_bridge_swd_flash (traced_link (N := unit) (swd_wire_link (Bus.wire_gpio (Bus.answers_with 0)))) (Some [1; 2; 3]) None)
    (fun err e => bracketed false e = true /\
      (err = ESP_OK -> exists bytes before proof, Some [1; 2; 3] = Some bytes /\ image_proved bytes proof /\
         e = before ++ proof ++ [EvWrite SWD_AIRCR_ADDR RESET_VALUE (inr tt); EvRelease]) /\
      (forall value r before after, e = before ++ EvWrite SWD_AIRCR_ADDR value r :: after ->
         exists bytes earlier proof, Some [1; 2; 3] = Some bytes /\ image_proved bytes proof /\
           before = earlier ++ proof /\ value = RESET_VALUE /\ after = [EvRelease])).
Proof.
  apply (swd_flash_proves_image (swd_wire_link (Bus.wire_gpio (Bus.answers_with 0))) (Some [1; 2; 3]) None).
Defined.
