(* ===== verification/FlashStub.v ===== *)
(** * The flash stub, and the delivery of an image

    Models src/components/asic/rp2040_flash_stub.c, the program that SwdFlash.v uploads and
    runs, and composes both ends: an RP2040 behind the debug link, whose core runs the stub
    when it is resumed at the uploaded binary, receives an image.  The functions of its boot
    ROM are parameters, with what their documentation promises of the flash as the laws of
    [FlashRom]; a table look-up that fails yields [None].  The memory of the processor is a
    function from word addresses; every path of the stub ends at a breakpoint, so its run is
    a function of the state. *)

From S2P Require Import Prelude Swd SwdFlash.
Open Scope Z_scope.
Open Scope io_scope.
Open Scope attempt_scope.

Definition FLASH_BLOCK_SIZE : Z := Z.shiftl 1 16.
Definition FLASH_BLOCK_ERASE_CMD : Z := 0xd8.
Definition FLASH_STUB_OP_ERASE : Z := 1.
Definition FLASH_STUB_OP_PROGRAM : Z := 2.
Definition FLASH_STUB_STATUS_BUSY : Z := 1.
Definition FLASH_STUB_STATUS_OK : Z := 2.
Definition FLASH_STUB_STATUS_ERR_BAD_OP : Z := 0xE001.
Definition FLASH_STUB_STATUS_ERR_LOOKUP : Z := 0xE002.
Definition FLASH_STUB_STAGE_IDLE : Z := 0.
Definition FLASH_STUB_STAGE_ERASE : Z := 1.
Definition FLASH_STUB_STAGE_PROGRAM : Z := 2.
Definition FLASH_STUB_STAGE_DONE : Z := 3.

(** The functions of the boot ROM over the state [F] of the flash; programming takes the
    bytes that its pointer and its length denote. *)
Record rom_functions (F : Type) := mk_rom {
  connect_internal_flash : option (F -> F);
  flash_exit_xip : option (F -> F);
  flash_range_erase : option (Z -> Z -> Z -> Z -> F -> F);
  flash_range_program : option (Z -> list Z -> F -> F);
  flash_flush_cache : option (F -> F);
  flash_enter_cmd_xip : option (F -> F);
}.
Arguments mk_rom {F}.
Arguments connect_internal_flash {F}.
Arguments flash_exit_xip {F}.
Arguments flash_range_erase {F}.
Arguments flash_range_program {F}.
Arguments flash_flush_cache {F}.
Arguments flash_enter_cmd_xip {F}.

(** The memory of the processor, and its flash. *)
Record machine (F : Type) := mk_machine {
  ram : Z -> Z;
  flash : F;
}.
Arguments mk_machine {F}.
Arguments ram {F}.
Arguments flash {F}.

Definition store (address value : Z) (memory : Z -> Z) : Z -> Z :=
  fun a => if a =? address then value else memory a.
Definition ram_byte (memory : Z -> Z) (address : Z) : Z := word_byte (memory (4 * (address / 4))) (address mod 4).
Definition ram_bytes (memory : Z -> Z) (address count : Z) : list Z :=
  map (fun i => ram_byte memory (address + i)) (seqZ 0 count).

Section stub.
Context {F : Type} (rom : rom_functions F).
Abbreviation machine := (machine F).

Definition stores (address value : Z) : io machine unit := fun m => (tt, mk_machine (store address value (ram m)) (flash m)).
Definition loads (address : Z) : io machine Z := fun m => (ram m address, m).
Definition rom_call (f : F -> F) : io machine unit := fun m => (tt, mk_machine (ram m) (f (flash m))).
Definition points_to (address count : Z) : io machine (list Z) := fun m => (ram_bytes (ram m) address count, m).

(** The members of the context at [ctx]. *)
Definition ctx_op (ctx : Z) : Z := ctx.
Definition ctx_status (ctx : Z) : Z := ctx + 4.
Definition ctx_stage (ctx : Z) : Z := ctx + 8.
Definition ctx_progress (ctx : Z) : Z := ctx + 12.
Definition ctx_flash_offset (ctx : Z) : Z := ctx + 16.
Definition ctx_count (ctx : Z) : Z := ctx + 20.
Definition ctx_data_addr (ctx : Z) : Z := ctx + 24.

(** From the entry to the breakpoint. *)
Definition rp2040_flash_stub_entry (ctx : Z) : io machine unit :=
  let! _ := stores (ctx_status ctx) FLASH_STUB_STATUS_BUSY in
  let! _ := stores (ctx_stage ctx) FLASH_STUB_STAGE_IDLE in
  let! _ := stores (ctx_progress ctx) 0 in
  match connect_internal_flash rom, flash_exit_xip rom, flash_range_erase rom, flash_range_program rom,
        flash_flush_cache rom, flash_enter_cmd_xip rom with
  | Some connect, Some exit_xip, Some range_erase, Some range_program, Some flush_cache, Some enter_cmd_xip =>
      let! _ := rom_call connect in
      let! _ := rom_call exit_xip in
      let! op := loads (ctx_op ctx) in
      let! known :=
        if op =? FLASH_STUB_OP_ERASE then
          let! _ := stores (ctx_stage ctx) FLASH_STUB_STAGE_ERASE in
          let! offset := loads (ctx_flash_offset ctx) in
          let! count := loads (ctx_count ctx) in
          let! _ := rom_call (range_erase offset count FLASH_BLOCK_SIZE FLASH_BLOCK_ERASE_CMD) in
          io_ret true
        else if op =? FLASH_STUB_OP_PROGRAM then
          let! _ := stores (ctx_stage ctx) FLASH_STUB_STAGE_PROGRAM in
          let! offset := loads (ctx_flash_offset ctx) in
          let! data_addr := loads (ctx_data_addr ctx) in
          let! count := loads (ctx_count ctx) in
          let! data := points_to data_addr count in
          let! _ := rom_call (range_program offset data) in
          let! count := loads (ctx_count ctx) in
          let! _ := stores (ctx_progress ctx) count in
          io_ret true
        else io_ret false in
      if known : bool then
        let! _ := rom_call flush_cache in
        let! _ := rom_call enter_cmd_xip in
        let! _ := stores (ctx_status ctx) FLASH_STUB_STATUS_OK in
        stores (ctx_stage ctx) FLASH_STUB_STAGE_DONE
      else
        let! _ := stores (ctx_status ctx) FLASH_STUB_STATUS_ERR_BAD_OP in
        let! _ := rom_call flush_cache in
        rom_call enter_cmd_xip
  | _, _, _, _, _, _ => stores (ctx_status ctx) FLASH_STUB_STATUS_ERR_LOOKUP
  end.
End stub.

(** What the documentation promises of the ROM: erasing whole sectors leaves ones, programming
    whole pages clears bits, nothing else changes a byte. *)
Class FlashRom {F} (rom : rom_functions F) := {
  flash_byte : F -> Z -> Z;
  flash_byte_u8 f a : is_u8 (flash_byte f a);
  rom_connect : exists g, connect_internal_flash rom = Some g /\ forall f a, flash_byte (g f) a = flash_byte f a;
  rom_exit_xip : exists g, flash_exit_xip rom = Some g /\ forall f a, flash_byte (g f) a = flash_byte f a;
  rom_flush : exists g, flash_flush_cache rom = Some g /\ forall f a, flash_byte (g f) a = flash_byte f a;
  rom_enter_xip : exists g, flash_enter_cmd_xip rom = Some g /\ forall f a, flash_byte (g f) a = flash_byte f a;
  rom_erase : exists g, flash_range_erase rom = Some g /\ forall offset count f a,
    offset mod SWD_FLASH_SECTOR_SIZE = 0 -> count mod SWD_FLASH_SECTOR_SIZE = 0 ->
    flash_byte (g offset count FLASH_BLOCK_SIZE FLASH_BLOCK_ERASE_CMD f) a =
      if (offset <=? a) && (a <? offset + count) then 0xff else flash_byte f a;
  rom_program : exists g, flash_range_program rom = Some g /\ forall offset data f a,
    offset mod BZM_BRIDGE_FLASH_PAGE_SIZE = 0 -> Z.of_nat (length data) mod BZM_BRIDGE_FLASH_PAGE_SIZE = 0 ->
    flash_byte (g offset data f) a =
      if (offset <=? a) && (a <? offset + Z.of_nat (length data))
      then Z.land (flash_byte f a) (block_byte data (a - offset)) else flash_byte f a;
}.

(** ** The processor behind the link

    The memory accesses of its debug port as the ARM and RP2040 manuals give them.  A core that
    is resumed at the uploaded binary with a context runs the stub; the polls see it halted
    again after [latency] of them. *)

Module Target.
Section target.
Context {F : Type} (rom : rom_functions F) `{!FlashRom rom} (latency : nat).

Record target := mk_target {
  memory : machine F;
  r0 : Z;
  msp : Z;
  pc : Z;
  xpsr : Z;
  dcrdr : Z;
  attached : bool;
  halted : bool;
  busy : nat;
  reset_count : nat;
}.
#[export] Instance target_eta : Eta target := fun t =>
  mk_target (memory t) (r0 t) (msp t) (pc t) (xpsr t) (dcrdr t) (attached t) (halted t) (busy t) (reset_count t).

Definition set_core_reg (sel value : Z) (t : target) : target :=
  if sel =? SWD_CORE_REG_R0 then t <| r0 := value |>
  else if sel =? SWD_CORE_REG_PC then t <| pc := value |>
  else if sel =? SWD_CORE_REG_XPSR then t <| xpsr := value |>
  else if sel =? SWD_CORE_REG_MSP then t <| msp := value |> else t.
Definition core_reg (sel : Z) (t : target) : Z :=
  if sel =? SWD_CORE_REG_R0 then r0 t
  else if sel =? SWD_CORE_REG_PC then pc t
  else if sel =? SWD_CORE_REG_XPSR then xpsr t
  else if sel =? SWD_CORE_REG_MSP then msp t else 0.

(** The binary of the stub is at its base. *)
Definition stub_loaded (memory : Z -> Z) : bool :=
  forallb (fun offset => memory (SWD_RP2040_STUB_BASE + offset) =?
      block_word RP2040_FLASH_STUB_BIN offset RP2040_FLASH_STUB_BIN_SIZE)
    (word_offsets RP2040_FLASH_STUB_BIN_SIZE).

(** A resumed core runs the stub if it is set up for it; anything else hangs. *)
Definition resume (t : target) : target :=
  if stub_loaded (ram (memory t)) && (pc t =? Z.lor SWD_RP2040_STUB_BASE 1) &&
     (msp t =? SWD_RP2040_STUB_STACK_TOP) && has_bits (xpsr t) 0x01000000
  then t <| memory := snd (rp2040_flash_stub_entry rom (r0 t) (memory t)); halted := true; busy := latency |>
  else t <| halted := false |>.

Definition flash_word (f : F) (address : Z) : Z :=
  read_le32 (map (fun i => flash_byte f (address + i)) [0; 1; 2; 3]) 0.

Definition mem_read (address : Z) : attempt esp_err_t target Z := fun t =>
  if negb (attached t) then (inl ESP_ERR_INVALID_RESPONSE, t)
  else if address =? SWD_DHCSR_ADDR then
    match busy t with
    | S n => (inr SWD_DHCSR_S_REGRDY, t <| busy := n |>)
    | O => (inr (Z.lor SWD_DHCSR_S_REGRDY (if halted t then SWD_DHCSR_S_HALT else 0)), t)
    end
  else if address =? SWD_DCRDR_ADDR then (inr (dcrdr t), t)
  else if (SWD_RP2040_XIP_BASE <=? address) && (address <? SWD_RP2040_XIP_BASE + BZM_BRIDGE_FLASH_CAPACITY)
  then (inr (flash_word (flash (memory t)) (address - SWD_RP2040_XIP_BASE)), t)
  else (inr (ram (memory t) address), t).

Definition mem_write (address value : Z) : attempt esp_err_t target unit := fun t =>
  if negb (attached t) then (inl ESP_ERR_INVALID_RESPONSE, t)
  else if address =? SWD_DHCSR_ADDR then
    (inr tt, if has_bits value SWD_DHCSR_C_HALT then t <| halted := true; busy := O |> else resume t)
  else if address =? SWD_DCRDR_ADDR then (inr tt, t <| dcrdr := value |>)
  else if address =? SWD_DCRSR_ADDR then
    (inr tt, if has_bits value SWD_DCRSR_REGWNR then set_core_reg (value mod 0x10000) (dcrdr t) t
             else t <| dcrdr := core_reg value t |>)
  else if address =? SWD_AIRCR_ADDR then
    (inr tt, if value =? RESET_VALUE then t <| reset_count := S (reset_count t) |> else t)
  else (inr tt, t <| memory := mk_machine (store address value (ram (memory t))) (flash (memory t)) |>).

Definition link : swd_link target :=
  {| link_configure := succeeds tt;
     link_claim := io_ret tt;
     link_release := fun t => (tt, t <| attached := false |>);
     link_attach := fun _ t => (inr tt, t <| attached := true |>);
     link_read := mem_read;
     link_write := mem_write;
     link_cooperate := io_ret tt |}.

(** *** Accesses *)

Definition ready (t : target) : Prop := attached t = true /\ halted t = true /\ busy t = O.
Definition with_ram (m : Z -> Z) (t : target) : target := t <| memory := mk_machine m (flash (memory t)) |>.
Abbreviation ram_of t := (ram (memory t)).
Abbreviation flash_of t := (flash (memory t)).

Lemma attempt_runs {V A B} (m : attempt esp_err_t V A) (k : A -> attempt esp_err_t V B) t a t1 :
  m t = (inr a, t1) -> attempt_bind m k t = k a t1.
Proof. intros E. unfold attempt_bind, io_bind. by rewrite E. Qed.
Lemma performs_runs {V A B} (m : io V A) (k : A -> attempt esp_err_t V B) t a t1 :
  m t = (a, t1) -> attempt_bind (performs m) k t = k a t1.
Proof. intros E. apply attempt_runs. unfold performs, io_bind. by rewrite E. Qed.
Lemma ignored_runs {V A} (m : attempt esp_err_t V A) old t a t1 : m t = (inr a, t1) -> ignored m old t = (a, t1).
Proof. intros E. unfold ignored, io_bind. by rewrite E. Qed.

Lemma mem_write_ram address value t : attached t = true -> address < SWD_AIRCR_ADDR ->
  mem_write address value t = (inr tt, with_ram (store address value (ram_of t)) t).
Proof.
  unfold SWD_AIRCR_ADDR. intros Ha Hl. unfold mem_write. rewrite Ha. cbn [negb].
  unfold SWD_DHCSR_ADDR, SWD_DCRDR_ADDR, SWD_DCRSR_ADDR, SWD_AIRCR_ADDR.
  by rewrite !(proj2 (Z.eqb_neq address _)) by lia.
Qed.

Lemma mem_read_ram address t : attached t = true -> SWD_RP2040_STUB_BASE <= address < SWD_AIRCR_ADDR ->
  mem_read address t = (inr (ram_of t address), t).
Proof.
  unfold SWD_RP2040_STUB_BASE, SWD_AIRCR_ADDR. intros Ha Hl. unfold mem_read. rewrite Ha. cbn [negb].
  unfold SWD_DHCSR_ADDR, SWD_DCRDR_ADDR, SWD_RP2040_XIP_BASE, BZM_BRIDGE_FLASH_CAPACITY.
  rewrite !(proj2 (Z.eqb_neq address _)) by lia. by rewrite (proj2 (Z.ltb_ge address _)), andb_false_r by lia.
Qed.

Lemma mem_read_halted t : ready t -> mem_read SWD_DHCSR_ADDR t = (inr 0x30000, t).
Proof. intros (Ha & Hh & Hb). unfold mem_read. by rewrite Ha, Hh, Hb. Qed.

(** *** Blocks *)

Definition block_stored (m : Z -> Z) (address : Z) (data : list Z) (len : Z) (offsets : list Z) : Z -> Z :=
  foldl (fun m offset => store (address + offset) (block_word data offset len) m) m offsets.

Lemma block_stored_at m address data len offsets a :
  block_stored m address data len offsets a =
  if bool_decide (a - address ∈ offsets) then block_word data (a - address) len else m a.
Proof.
  revert m. induction offsets as [|o offsets IH]; intros m; [done|]. cbn [block_stored foldl].
  unfold block_stored in IH. rewrite IH. unfold store.
  destruct (decide (a - address ∈ offsets)) as [Hin|Hin].
  - by rewrite !bool_decide_true by (by try right).
  - rewrite (bool_decide_false (a - address ∈ offsets)) by done.
    destruct (a =? address + o) eqn:E; [apply Z.eqb_eq in E as ->|apply Z.eqb_neq in E].
    + replace (address + o - address) with o by lia. by rewrite bool_decide_true by left.
    + rewrite bool_decide_false; [done|]. intros [?|?]%elem_of_cons; [lia|done].
Qed.

Lemma word_offsets_range len o : o ∈ word_offsets len -> 0 <= o < len /\ o mod 4 = 0.
Proof.
  intros (k & -> & Hk%elem_of_seqZ)%list_elem_of_fmap.
  pose proof (Z.div_mod (len + 3) 4 ltac:(lia)). pose proof (Z.mod_pos_bound (len + 3) 4 ltac:(lia)).
  split; [lia|]. by rewrite Z.mul_comm, Z.mod_mul.
Qed.

Lemma word_offsets_in len o : 0 <= o < len -> o mod 4 = 0 -> o ∈ word_offsets len.
Proof.
  intros Ho Hm. apply list_elem_of_fmap. exists (o / 4). pose proof (Z.div_mod o 4 ltac:(lia)). split; [lia|].
  apply elem_of_seqZ. split; [apply Z.div_pos; lia|]. apply Z.div_lt_upper_bound; [lia|].
  pose proof (Z.div_mod (len + 3) 4 ltac:(lia)). pose proof (Z.mod_pos_bound (len + 3) 4 ltac:(lia)). lia.
Qed.

Lemma stores_offsets address data len offsets t :
  attached t = true -> 0 <= address -> address + len < SWD_AIRCR_ADDR ->
  (forall o, o ∈ offsets -> 0 <= o < len) ->
  for_each offsets (fun offset =>
    let* _ := link_write link (u32 (address + u32 offset)) (block_word data offset len) in
    cooperate_after link offset) t =
  (inr tt, with_ram (block_stored (ram_of t) address data len offsets) t).
Proof.
  unfold SWD_AIRCR_ADDR. intros Ha H0 Hl. revert t Ha. induction offsets as [|o offsets IH]; intros t Ha Ho; [by destruct t as [[]]|].
  pose proof (Ho o ltac:(by left)) as Hr. cbn [for_each]. erewrite attempt_runs.
  2: { rewrite !u32_small by (rewrite ?u32_small; lia). erewrite attempt_runs; [|apply mem_write_ram; [done|unfold SWD_AIRCR_ADDR; lia]].
       unfold cooperate_after. destruct (_ =? _); done. }
  rewrite IH; [done|done|]. intros. apply Ho. by right.
Qed.

Lemma writes_block address data len t :
  attached t = true -> 0 <= address -> address + len < SWD_AIRCR_ADDR ->
  swd_mem_write_block link address (Some data) len t =
  (inr tt, with_ram (block_stored (ram_of t) address data len (word_offsets len)) t).
Proof. intros Ha H0 Hl. apply stores_offsets; [done..|]. intros o Ho. by apply word_offsets_range in Ho as [? _]. Qed.

Lemma filter_lanes o len : o + 4 <= len -> word_lanes o len = [0; 1; 2; 3].
Proof. intros H. apply filter_all. repeat constructor; lia. Qed.

(** A word of four bytes gives them back. *)
Lemma block_word_quad data o len : bytes_ok data -> 0 <= o -> o + 4 <= len ->
  exists b0 b1 b2 b3, is_u8 b0 /\ is_u8 b1 /\ is_u8 b2 /\ is_u8 b3 /\
    map (fun i => block_byte data (o + i)) [0; 1; 2; 3] = [b0; b1; b2; b3] /\
    block_word data o len = Z.lor (Z.lor (Z.lor b0 (Z.shiftl b1 8)) (Z.shiftl b2 16)) (Z.shiftl b3 24).
Proof.
  intros Hd Ho Hl. assert (Hb : forall i, is_u8 (block_byte data i)).
  { intros i. unfold block_byte, byte_at. destruct (nth_in_or_default (Z.to_nat i) data 0) as [Hin| ->]; [|by split].
    apply list_elem_of_In in Hin. unfold bytes_ok in Hd. rewrite Forall_forall in Hd. by apply Hd. }
  do 4 eexists. split_and!; [apply Hb..|reflexivity|].
  unfold block_word. rewrite filter_lanes by done. cbn [foldl]. rewrite Z.lor_0_l.
  pose proof (Hb (o + 0)) as H0. pose proof (Hb (o + 1)) as H1. pose proof (Hb (o + 2)) as H2. pose proof (Hb (o + 3)) as H3.
  unfold in_width in H0, H1, H2, H3. change (2 ^ 8) with 256 in *.
  rewrite !Z.shiftl_mul_pow2, !u32_small by lia.
  change (2 ^ (8 * 0)) with 1. by rewrite Z.mul_1_r.
Qed.

Lemma word_byte_block data o len i : bytes_ok data -> 0 <= o -> o + 4 <= len -> 0 <= i < 4 ->
  word_byte (block_word data o len) i = block_byte data (o + i).
Proof.
  intros Hd Ho Hl Hi. destruct (block_word_quad data o len Hd Ho Hl) as (b0 & b1 & b2 & b3 & H0 & H1 & H2 & H3 & Hm & E).
  destruct (read_le32_quad b0 b1 b2 b3 _ H0 H1 H2 H3 E) as (_ & E0 & E1 & E2 & E3). cbn [map] in Hm. simplify_eq.
  unfold word_byte. rewrite (Z.land_ones _ 8) by lia. change (wrap 8) with u8.
  assert (Hu : forall z, u8 (z mod 2 ^ 8) = u8 z) by (intros; apply wrap_wrap). rewrite Hu.
  assert (i = 0 \/ i = 1 \/ i = 2 \/ i = 3) as [-> | [-> | [-> | ->]]] by lia;
    [change (8 * 0) with 0; by rewrite Z.shiftr_0_r|change (8 * 1) with 8|change (8 * 2) with 16|change (8 * 3) with 24]; done.
Qed.

Lemma stored_word m address data len o : o ∈ word_offsets len ->
  block_stored m address data len (word_offsets len) (address + o) = block_word data o len.
Proof. intros Ho. rewrite block_stored_at. replace (address + o - address) with o by lia. by rewrite bool_decide_true. Qed.

Lemma stored_outside m address data len a : a < address \/ address + len <= a ->
  block_stored m address data len (word_offsets len) a = m a.
Proof.
  intros Ha. rewrite block_stored_at, bool_decide_false; [done|]. intros H%word_offsets_range. lia.
Qed.

Lemma ram_bytes_stored m m' address data len i :
  bytes_ok data -> 0 <= address -> address mod 4 = 0 -> len mod 4 = 0 -> 0 <= i < len ->
  (forall a, address <= a < address + len -> m' a = block_stored m address data len (word_offsets len) a) ->
  block_byte (ram_bytes m' address len) i = block_byte data i.
Proof.
  intros Hd H0 Ha Hl Hi Hm. unfold ram_bytes. unfold block_byte at 1, byte_at.
  rewrite <- (Z2Nat.id i) at 2 by lia.
  rewrite nth_lookup, list_lookup_fmap, lookup_seqZ_lt by lia. cbn [option_map fmap default]. unfold default. cbn.
  rewrite Z.add_0_l, Z2Nat.id by lia. unfold ram_byte.
  pose proof (Z.div_mod address 4 ltac:(lia)) as Ea. rewrite Ha in Ea. pose proof (Z.div_mod i 4 ltac:(lia)) as Ei.
  pose proof (Z.mod_pos_bound i 4 ltac:(lia)) as Hi4. pose proof (Z.div_mod len 4 ltac:(lia)) as El.
  assert (Hdiv : 4 * ((address + i) / 4) = address + 4 * (i / 4)).
  { replace (address + i) with (address / 4 * 4 + i) by lia. rewrite Z.div_add_l by lia. lia. }
  assert (Hmod : (address + i) mod 4 = i mod 4).
  { replace (address + i) with (i + address / 4 * 4) by lia. by apply Z.mod_add. }
  rewrite Hdiv, Hmod, Hm by lia. rewrite stored_word.
  2: { apply word_offsets_in; [lia|]. by rewrite Z.mul_comm, Z.mod_mul. }
  rewrite word_byte_block by (done || lia). f_equal. lia.
Qed.

Lemma length_ram_bytes m address len : 0 <= len -> Z.of_nat (length (ram_bytes m address len)) = len.
Proof. intros Hl. unfold ram_bytes. rewrite length_fmap, length_seqZ. lia. Qed.

(** *** The context *)

Lemma le_word v : is_u32 v -> exists b0 b1 b2 b3, le_bytes_of 4 v = [b0; b1; b2; b3] /\
  Z.lor (Z.lor (Z.lor b0 (Z.shiftl b1 8)) (Z.shiftl b2 16)) (Z.shiftl b3 24) = v.
Proof.
  intros Hv. pose proof (le_bytes_of_ok 4 v) as Hok. pose proof (le_bytes_value_of 4 v Hv) as E.
  cbn [le_bytes_of] in *. do 4 eexists. split; [done|]. inversion Hok as [|? ? H0 Hok1]; subst.
  inversion Hok1 as [|? ? H1 Hok2]; subst. inversion Hok2 as [|? ? H2 Hok3]; subst. inversion Hok3 as [|? ? H3 _]; subst.
  rewrite le32_sum by done. cbn [le_bytes_value fold_right] in E. lia.
Qed.

Definition ctx_fields (c : swd_flash_stub_ctx_t) : list Z :=
  [op c; status c; stage c; progress c; SwdFlash.flash_offset c; SwdFlash.count c; SwdFlash.data_addr c].

Lemma ctx_bytes_ok c : bytes_ok (ctx_bytes c).
Proof.
  unfold ctx_bytes, bytes_ok. cbn [map concat]. rewrite !Forall_app. repeat split; try apply le_bytes_of_ok. constructor.
Qed.

Lemma ctx_word c k v : ctx_fields c !! k = Some v -> is_u32 v ->
  block_word (ctx_bytes c) (4 * Z.of_nat k) sizeof_ctx = v.
Proof.
  intros Hk Hv. assert (k < 7)%nat by (by apply lookup_lt_Some in Hk). unfold sizeof_ctx.
  destruct (block_word_quad (ctx_bytes c) (4 * Z.of_nat k) 28 (ctx_bytes_ok c) ltac:(lia) ltac:(lia))
    as (b0 & b1 & b2 & b3 & _ & _ & _ & _ & Hm & ->).
  destruct (le_word v Hv) as (c0 & c1 & c2 & c3 & El & Ev).
  assert (Hb : map (fun i => block_byte (ctx_bytes c) (4 * Z.of_nat k + i)) [0; 1; 2; 3] = le_bytes_of 4 v).
  { do 7 (destruct k as [|k]; [injection Hk as <-; reflexivity|]). lia. }
  rewrite Hm, El in Hb. by injection Hb as -> -> -> ->.
Qed.

(** *** A run of the stub *)

Abbreviation CTX := SWD_RP2040_STUB_CTX_ADDR.

Lemma store_eq a v m : store a v m a = v.
Proof. unfold store. by rewrite Z.eqb_refl. Qed.
Lemma store_ne a b v m : b <> a -> store a v m b = m b.
Proof. intros H. unfold store. by rewrite (proj2 (Z.eqb_neq b a)). Qed.

(** What both operations leave behind: success in the context, the rest of the memory as it was. *)
Definition stub_done (m m' : machine F) : Prop :=
  ram m' (CTX + 4) = SWD_STUB_STATUS_OK /\ ram m' (CTX + 8) = SWD_STUB_STAGE_DONE /\
  forall a, a < CTX \/ CTX + 28 <= a -> ram m' a = ram m a.

Ltac run_stub :=
  unfold rp2040_flash_stub_entry;
  repeat match goal with H : _ rom = Some _ |- _ => rewrite H end;
  unfold io_bind, stores, loads, rom_call, points_to, ctx_op, ctx_status, ctx_stage, ctx_progress, ctx_flash_offset,
    ctx_count, ctx_data_addr; cbn [fst snd ram flash].

Ltac store_other := repeat (rewrite store_ne by (unfold SWD_RP2040_STUB_CTX_ADDR in *; lia)).

Lemma stub_erases m offset count :
  ram m CTX = SWD_STUB_OP_ERASE -> ram m (CTX + 16) = offset -> ram m (CTX + 20) = count ->
  offset mod SWD_FLASH_SECTOR_SIZE = 0 -> count mod SWD_FLASH_SECTOR_SIZE = 0 ->
  exists m', rp2040_flash_stub_entry rom CTX m = (tt, m') /\ stub_done m m' /\
    forall a, flash_byte (flash m') a =
      if (offset <=? a) && (a <? offset + count) then 0xff else flash_byte (flash m) a.
Proof.
  intros Hop Hoff Hcount Ho Hc.
  destruct rom_connect as (connect & E1 & H1), rom_exit_xip as (exit & E2 & H2), rom_flush as (flush & E3 & H3),
    rom_enter_xip as (enter & E4 & H4), rom_erase as (erase & E5 & H5), rom_program as (program & E6 & H6).
  run_stub. store_other. rewrite Hop. cbn [Z.eqb Pos.eqb SWD_STUB_OP_ERASE FLASH_STUB_OP_ERASE fst snd ram flash].
  store_other. rewrite Hoff, Hcount. eexists. split; [reflexivity|]. split.
  - split_and!; cbn [ram]; [|by rewrite store_eq|].
    + by rewrite store_ne, store_eq by (unfold SWD_RP2040_STUB_CTX_ADDR; lia).
    + intros a Ha. store_other. done.
  - intros a. cbn [flash]. rewrite H4, H3, H5, H2, H1 by done. done.
Qed.

Lemma stub_programs m offset count address :
  ram m CTX = SWD_STUB_OP_PROGRAM -> ram m (CTX + 16) = offset -> ram m (CTX + 20) = count ->
  ram m (CTX + 24) = address -> 0 <= address -> 0 <= count -> address + count <= CTX ->
  offset mod BZM_BRIDGE_FLASH_PAGE_SIZE = 0 -> count mod BZM_BRIDGE_FLASH_PAGE_SIZE = 0 ->
  exists m' data, rp2040_flash_stub_entry rom CTX m = (tt, m') /\ stub_done m m' /\
    (exists memory, data = ram_bytes memory address count /\ forall a, a < CTX -> memory a = ram m a) /\
    forall a, flash_byte (flash m') a =
      if (offset <=? a) && (a <? offset + count)
      then Z.land (flash_byte (flash m) a) (block_byte data (a - offset)) else flash_byte (flash m) a.
Proof.
  intros Hop Hoff Hcount Haddr Ha0 Hc0 Hend Ho Hc.
  destruct rom_connect as (connect & E1 & H1), rom_exit_xip as (exit & E2 & H2), rom_flush as (flush & E3 & H3),
    rom_enter_xip as (enter & E4 & H4), rom_erase as (erase & E5 & H5), rom_program as (program & E6 & H6).
  run_stub. store_other. rewrite Hop.
  cbn [Z.eqb Pos.eqb SWD_STUB_OP_PROGRAM FLASH_STUB_OP_ERASE FLASH_STUB_OP_PROGRAM fst snd ram flash].
  store_other. rewrite Hoff, Hcount, Haddr. set (data := ram_bytes _ address count). eexists _, data. split; [reflexivity|]. split; [|split].
  - split_and!; cbn [ram]; [|by rewrite store_eq|].
    + by rewrite store_ne, store_eq by (unfold SWD_RP2040_STUB_CTX_ADDR; lia).
    + intros a Ha. store_other. done.
  - eexists. split; [reflexivity|]. intros a Ha. store_other. done.
  - intros a. cbn [flash]. rewrite H4, H3, H6, H2, H1 by (subst data; rewrite ?length_ram_bytes by done; done).
    by replace (Z.of_nat (length data)) with count by (symmetry; by apply length_ram_bytes).
Qed.

(** *** A run over the link *)

Lemma poll_first {V A} i indices (body : nat -> attempt esp_err_t V (option A)) late t a t' :
  body i t = (inr (Some a), t') -> poll_each (i :: indices) body late t = (inr a, t').
Proof. intros E. cbn [poll_each]. by rewrite (attempt_runs _ _ _ _ _ E). Qed.

Lemma halts t : attached t = true ->
  swd_halt_attached_core link t = (inr 0x30000, t <| halted := true; busy := O |>).
Proof.
  intros Ha. unfold swd_halt_attached_core. erewrite attempt_runs.
  2: { cbn [link_write link]. unfold mem_write. rewrite Ha. reflexivity. }
  apply poll_first. erewrite attempt_runs; [|by apply mem_read_halted]. reflexivity.
Qed.

Lemma writes_core_reg sel value t :
  ready t -> has_bits (Z.lor SWD_DCRSR_REGWNR sel) SWD_DCRSR_REGWNR = true ->
  let t' := set_core_reg (Z.lor SWD_DCRSR_REGWNR sel mod 0x10000) value (t <| dcrdr := value |>) in
  ready t' -> swd_write_core_reg link sel value t = (inr tt, t').
Proof.
  intros (Ha & Hh & Hb) Hs t' Ht'. unfold swd_write_core_reg. erewrite attempt_runs.
  2: { cbn [link_write link]. unfold mem_write. rewrite Ha. reflexivity. }
  erewrite attempt_runs.
  2: { cbn [link_write link]. unfold mem_write. cbn [attached set_field]. rewrite Ha.
       cbn [negb SWD_DCRSR_ADDR SWD_DHCSR_ADDR SWD_DCRDR_ADDR Z.eqb Pos.eqb]. rewrite Hs. reflexivity. }
  apply poll_first. erewrite attempt_runs; [|by apply mem_read_halted]. reflexivity.
Qed.

(** The polls of a run that takes fewer of them than there are. *)
Lemma polls t indices ran stage :
  attached t = true -> halted t = true -> (busy t < length indices)%nat ->
  ram_of t (CTX + 4) = SWD_STUB_STATUS_OK -> ram_of t (CTX + 8) = SWD_STUB_STAGE_DONE ->
  poll_stub link CTX indices ran stage t = (inr (Some SWD_STUB_STATUS_OK), t <| busy := O |>).
Proof.
  intros Ha Hh Hb Hstatus Hstage. revert t ran stage Ha Hh Hb Hstatus Hstage.
  induction indices as [|i indices IH]; intros t ran stage Ha Hh Hb Hstatus Hstage; [cbn in Hb; lia|]. cbn [poll_stub].
  assert (Hread : forall o t', attached t' = true -> ram_of t' = ram_of t -> o = 4 \/ o = 8 \/ o = 12 ->
    link_read link (u32 (CTX + o)) t' = (inr (ram_of t (CTX + o)), t')).
  { intros o t' Ha' <- Ho. cbn [link_read link]. rewrite u32_small by (unfold SWD_RP2040_STUB_CTX_ADDR; lia).
    apply mem_read_ram; [done|]. unfold SWD_RP2040_STUB_CTX_ADDR, SWD_RP2040_STUB_BASE, SWD_AIRCR_ADDR. lia. }
  destruct (busy t) as [|n] eqn:Eb.
  - erewrite attempt_runs; [|by apply mem_read_halted]. cbn [negb has_bits].
    change (negb (has_bits 0x30000 SWD_DHCSR_S_HALT)) with false. cbn [negb].
    erewrite attempt_runs; [|apply Hread; auto].
    erewrite performs_runs; [|eapply ignored_runs; apply Hread; auto].
    erewrite performs_runs; [|eapply ignored_runs; apply Hread; auto].
    unfold offsetof_status, offsetof_stage. rewrite Hstatus, Hstage. cbn. unfold succeeds, io_ret. do 2 f_equal.
    destruct t; cbn in *; by subst.
  - erewrite attempt_runs.
    2: { cbn [link_read link]. unfold mem_read. rewrite Ha, Eb. reflexivity. }
    change (negb (has_bits SWD_DHCSR_S_REGRDY SWD_DHCSR_S_HALT)) with true. cbn iota.
    set (t1 := t <| busy := n |>).
    assert (Hstep : forall s', exists s1, (if Z.land (Z.of_nat i) 15 =? 15 then
        io_bind (ignored (link_read link (u32 (CTX + offsetof_stage))) s') (fun stage =>
          io_bind (ignored (link_read link (u32 (CTX + offsetof_progress))) 0) (fun _ => io_ret stage))
      else io_ret s') t1 = (s1, t1)).
    { intros s'. destruct (_ =? _); [|by eexists]. exists (ram_of t (CTX + 8)). cbv beta delta [io_bind].
      rewrite (ignored_runs _ s' _ _ _ (Hread offsetof_stage t1 Ha eq_refl (or_intror (or_introl eq_refl)))).
      by rewrite (ignored_runs _ 0 _ _ _ (Hread offsetof_progress t1 Ha eq_refl (or_intror (or_intror eq_refl)))). }
    destruct (Hstep stage) as (s1 & E). erewrite performs_runs; [|exact E].
    assert (Ec : cooperate_polling link i 0x1F t1 = (inr tt, t1)) by (unfold cooperate_polling; by destruct (Z.land (Z.of_nat i) 31 =? 31)).
    rewrite (attempt_runs _ _ _ _ _ Ec).
    rewrite IH; [reflexivity|done..| |done|done]. cbn in *. lia.
Qed.

(** The processor after a run with its memory as [m] says. *)
Definition after_run (m : machine F) (t : target) : target :=
  mk_target m CTX SWD_RP2040_STUB_STACK_TOP (Z.lor SWD_RP2040_STUB_BASE 1) 0x01000000 0x01000000 true true O (reset_count t).

Lemma after_run_ready m t : ready (after_run m t).
Proof. done. Qed.

Lemma sets_core_regs {A} (k : attempt esp_err_t target A) t : ready t ->
  attempt_bind (swd_write_core_reg link SWD_CORE_REG_R0 CTX) (fun _ =>
    attempt_bind (swd_write_core_reg link SWD_CORE_REG_MSP SWD_RP2040_STUB_STACK_TOP) (fun _ =>
      attempt_bind (swd_write_core_reg link SWD_CORE_REG_PC (Z.lor SWD_RP2040_STUB_BASE 1)) (fun _ =>
        attempt_bind (swd_write_core_reg link SWD_CORE_REG_XPSR 0x01000000) (fun _ => k)))) t =
  k (after_run (memory t) t).
Proof.
  intros (Ha & Hh & Hb). destruct t. cbn [attached halted busy] in *. subst.
  do 4 (erewrite attempt_runs; [|apply writes_core_reg; [done|reflexivity|done]]). reflexivity.
Qed.

Lemma runs_stub t m' :
  (latency < SWD_RUN_POLL_LIMIT)%nat -> ready t -> stub_loaded (ram_of t) = true ->
  rp2040_flash_stub_entry rom CTX (memory t) = (tt, m') -> stub_done (memory t) m' ->
  swd_run_stub_attached link CTX t = (inr SWD_STUB_STATUS_OK, after_run m' t).
Proof.
  intros Hlat Hr Hload Hrun (Hstatus & Hstage & _). unfold swd_run_stub_attached.
  erewrite performs_runs.
  2: { eapply ignored_runs. cbn [link_read link]. apply mem_read_ram; [apply Hr|by vm_compute]. }
  rewrite sets_core_regs by done.
  assert (Hresume : link_write link SWD_DHCSR_ADDR (Z.lor SWD_DHCSR_DBGKEY SWD_DHCSR_C_DEBUGEN) (after_run (memory t) t) =
    (inr tt, (after_run m' t) <| busy := latency |>)).
  { cbn [link_write link]. unfold mem_write, after_run, resume. cbn [attached memory pc msp xpsr r0]. rewrite Hload, Hrun. reflexivity. }
  rewrite (attempt_runs _ _ _ _ _ Hresume). erewrite attempt_runs; [|apply polls; [done|done| |done|done]].
  - reflexivity.
  - rewrite length_seq. exact Hlat.
Qed.

(** *** Flash operations *)

Definition keeps_ram (t t' : target) : Prop := forall a, a < CTX \/ CTX + 28 <= a -> ram_of t' a = ram_of t a.

Lemma stub_loaded_keeps_below (m m' : Z -> Z) :
  stub_loaded m = true -> (forall a, a < SWD_RP2040_STUB_DATA_BASE -> m' a = m a) -> stub_loaded m' = true.
Proof.
  unfold stub_loaded. rewrite !forallb_forall. intros H Hm o Ho. rewrite Hm; [by apply H|].
  apply list_elem_of_In, word_offsets_range in Ho as [Ho _].
  assert (SWD_RP2040_STUB_BASE + RP2040_FLASH_STUB_BIN_SIZE < SWD_RP2040_STUB_DATA_BASE) by by vm_compute. lia.
Qed.
Lemma stub_loaded_keeps (m m' : Z -> Z) :
  stub_loaded m = true -> (forall a, a < CTX -> m' a = m a) -> stub_loaded m' = true.
Proof.
  intros H Hm. apply (stub_loaded_keeps_below m); [done|]. intros a Ha. apply Hm.
  unfold SWD_RP2040_STUB_DATA_BASE, SWD_RP2040_STUB_CTX_ADDR in *. lia.
Qed.

(** The context of an operation, uploaded, then the stub run on it. *)
Lemma runs_operation o offset count address t m' :
  (latency < SWD_RUN_POLL_LIMIT)%nat -> ready t -> stub_loaded (ram_of t) = true ->
  let c := flash_ctx o offset count address in
  let m := mk_machine (block_stored (ram_of t) CTX (ctx_bytes c) sizeof_ctx (word_offsets sizeof_ctx)) (flash_of t) in
  rp2040_flash_stub_entry rom CTX m = (tt, m') -> stub_done m m' ->
  swd_run_flash_operation link o offset count address t = (inr tt, after_run m' t) /\ keeps_ram t (after_run m' t).
Proof.
  intros Hlat Hr Hload c m Hrun Hdone.
  assert (Hout : forall a, a < CTX \/ CTX + 28 <= a -> ram m a = ram_of t a).
  { intros a Ha. apply stored_outside. unfold sizeof_ctx. lia. }
  split.
  - unfold swd_run_flash_operation. erewrite attempt_runs; [|apply writes_block; [apply Hr|by vm_compute|by vm_compute]].
    erewrite attempt_runs; [|apply (runs_stub _ m')]; [reflexivity|done|exact Hr| |exact Hrun|exact Hdone].
    apply (stub_loaded_keeps (ram_of t)); [done|]. intros a Ha. apply Hout. lia.
  - intros a Ha. cbn [after_run memory]. destruct Hdone as (_ & _ & Hk). rewrite Hk by done. by apply Hout.
Qed.


(** A halted core with the stub in place. *)
Definition armed (t : target) : Prop := ready t /\ stub_loaded (ram_of t) = true.

Lemma after_run_armed t m : armed t -> keeps_ram t (after_run m t) -> armed (after_run m t).
Proof.
  intros [_ Hl] Hk. split; [done|]. apply (stub_loaded_keeps (ram_of t)); [done|]. intros a Ha. apply Hk. lia.
Qed.

Lemma ctx_in_ram t o offset count address k v :
  let c := flash_ctx o offset count address in
  ctx_fields c !! k = Some v -> is_u32 v ->
  block_stored (ram_of t) CTX (ctx_bytes c) sizeof_ctx (word_offsets sizeof_ctx) (CTX + 4 * Z.of_nat k) = v.
Proof.
  intros c Hk Hv. assert (k < 7)%nat by (by apply lookup_lt_Some in Hk). rewrite stored_word.
  - by apply ctx_word.
  - apply word_offsets_in; [unfold sizeof_ctx; lia|]. by rewrite Z.mul_comm, Z.mod_mul.
Qed.

Lemma erases t count : (latency < SWD_RUN_POLL_LIMIT)%nat -> armed t -> is_u32 count -> count mod SWD_FLASH_SECTOR_SIZE = 0 ->
  exists t', swd_run_flash_operation link SWD_STUB_OP_ERASE 0 count 0 t = (inr tt, t') /\ armed t' /\
    reset_count t' = reset_count t /\
    forall a, flash_byte (flash_of t') a = if (0 <=? a) && (a <? count) then 0xff else flash_byte (flash_of t) a.
Proof.
  intros Hlat [Hr Hl] Hu Hm. pose proof (ctx_in_ram t SWD_STUB_OP_ERASE 0 count 0) as Hctx. cbv zeta in Hctx.
  set (m := mk_machine (block_stored (ram_of t) CTX (ctx_bytes (flash_ctx SWD_STUB_OP_ERASE 0 count 0)) sizeof_ctx
    (word_offsets sizeof_ctx)) (flash_of t)).
  destruct (stub_erases m 0 count) as (m' & Hrun & Hdone & Hf); [by apply (Hctx O)|by apply (Hctx 4%nat)|by apply (Hctx 5%nat)|done|done|].
  destruct (runs_operation SWD_STUB_OP_ERASE 0 count 0 t m' Hlat Hr Hl Hrun Hdone) as [E Hk].
  exists (after_run m' t). split_and!; [done|by apply after_run_armed|done|]. exact Hf.
Qed.

(** A block uploaded and programmed. *)
Lemma programs t offset count data : (latency < SWD_RUN_POLL_LIMIT)%nat -> armed t ->
  is_u32 offset -> offset mod BZM_BRIDGE_FLASH_PAGE_SIZE = 0 -> count mod BZM_BRIDGE_FLASH_PAGE_SIZE = 0 ->
  0 <= count <= BZM_BRIDGE_FLASH_CHUNK_SIZE -> bytes_ok data ->
  exists t1 t', swd_mem_write_block link SWD_RP2040_STUB_DATA_BASE (Some data) count t = (inr tt, t1) /\
    swd_run_flash_operation link SWD_STUB_OP_PROGRAM offset count SWD_RP2040_STUB_DATA_BASE t1 = (inr tt, t') /\
    armed t' /\ reset_count t' = reset_count t /\
    forall a, flash_byte (flash_of t') a =
      if (offset <=? a) && (a <? offset + count)
      then Z.land (flash_byte (flash_of t) a) (block_byte data (a - offset)) else flash_byte (flash_of t) a.
Proof.
  intros Hlat [Hr Hl] Hu Ho Hc Hcount Hd. unfold BZM_BRIDGE_FLASH_CHUNK_SIZE in Hcount.
  set (base := SWD_RP2040_STUB_DATA_BASE). set (stored := block_stored (ram_of t) base data count (word_offsets count)).
  exists (with_ram stored t).
  assert (Hout : forall a, a < base \/ base + count <= a -> stored a = ram_of t a) by (intros; by apply stored_outside).
  assert (Hu' : is_u32 count) by (unfold in_width; change (2 ^ 32) with 4294967296; lia).
  assert (H4 : count mod 4 = 0).
  { unfold BZM_BRIDGE_FLASH_PAGE_SIZE in Hc. pose proof (Z.div_mod count 256 ltac:(lia)).
    replace count with (64 * (count / 256) * 4) by lia. apply Z.mod_mul. lia. }
  pose proof (ctx_in_ram (with_ram stored t) SWD_STUB_OP_PROGRAM offset count base) as Hctx. cbv zeta in Hctx.
  set (m := mk_machine (block_stored stored CTX (ctx_bytes (flash_ctx SWD_STUB_OP_PROGRAM offset count base)) sizeof_ctx
    (word_offsets sizeof_ctx)) (flash_of t)).
  assert (Hm : forall a, a < CTX -> ram m a = stored a) by (intros a Ha; apply stored_outside; by left).
  destruct (stub_programs m offset count base) as (m' & bytes & Hrun & Hdone & (memory & -> & Hmem) & Hf);
    [by apply (Hctx O)|by apply (Hctx 4%nat)|by apply (Hctx 5%nat)|by apply (Hctx 6%nat)|done|lia| |done|done|].
  { unfold base, SWD_RP2040_STUB_DATA_BASE, SWD_RP2040_STUB_CTX_ADDR. lia. }
  destruct (runs_operation SWD_STUB_OP_PROGRAM offset count base (with_ram stored t) m' Hlat Hr) as [E Hk]; [|done|done|].
  { apply (stub_loaded_keeps_below (ram_of t)); [done|]. intros a Ha. apply Hout. by left. }
  exists (after_run m' (with_ram stored t)). split_and!; [|done| |done|].
  - apply writes_block; [apply Hr|done|]. unfold base, SWD_RP2040_STUB_DATA_BASE, SWD_AIRCR_ADDR. lia.
  - split; [done|]. apply (stub_loaded_keeps_below (ram_of t)); [done|]. intros a Ha. rewrite Hk; [apply Hout; by left|left].
    unfold base, SWD_RP2040_STUB_DATA_BASE, SWD_RP2040_STUB_CTX_ADDR in *. lia.
  - intros a. change (flash_of (after_run m' (with_ram stored t))) with (flash m'). rewrite Hf.
    destruct (_ && _) eqn:Ea; [|done]. prop_bool. apply Z.leb_le in H. apply Z.ltb_lt in H0. f_equal.
    apply (ram_bytes_stored (ram_of t)); [done|done|done|done|lia|]. intros b Hb. rewrite Hmem, Hm; [done|..];
      unfold base, SWD_RP2040_STUB_DATA_BASE, SWD_RP2040_STUB_CTX_ADDR in *; lia.
Qed.

(** *** An image *)

Section image.
Context (image : list Z) (progress : option (bzm_bridge_flash_progress_fn target)).
Context (Hsize : 0 < image_size image <= BZM_BRIDGE_FLASH_CAPACITY) (Hbytes : bytes_ok image).
Context (Hlatency : (latency < SWD_RUN_POLL_LIMIT)%nat).
(** The callback leaves the processor alone. *)
Context (Hprogress : forall p phase completed total t, progress = Some p -> p phase completed total t = (tt, t)).
Abbreviation size := (image_size image).
Abbreviation erased := (erase_length image).

Lemma reports phase completed t : report_progress image progress phase completed t = (tt, t).
Proof. unfold report_progress. destruct progress as [p|] eqn:E; [by apply Hprogress|done]. Qed.

Lemma round_down x : is_u32 x -> Z.land x (Z.lxor UINT32_MAX (SWD_FLASH_SECTOR_SIZE - 1)) = 4096 * (x / 4096).
Proof.
  intros Hx. change (Z.lxor UINT32_MAX (SWD_FLASH_SECTOR_SIZE - 1)) with (Z.shiftl (Z.ones 20) 12).
  change 4096 with (2 ^ 12). rewrite <- Z.shiftr_div_pow2, Z.mul_comm, <- Z.shiftl_mul_pow2 by lia.
  apply Z.bits_inj'. intros i Hi. rewrite Z.land_spec, !Z.shiftl_spec by lia.
  destruct (Z.lt_ge_cases i 12) as [Hl|Hl].
  { rewrite (Z.testbit_neg_r (Z.ones 20)), (Z.testbit_neg_r (Z.shiftr x 12)) by lia. apply andb_false_r. }
  rewrite Z.shiftr_spec by lia. replace (i - 12 + 12) with i by lia.
  destruct (Z.lt_ge_cases i 32) as [Hh|Hh].
  - rewrite (Z.ones_spec_low 20) by lia. apply andb_true_r.
  - rewrite (Z.ones_spec_high 20) by lia. rewrite andb_false_r. symmetry.
    rewrite <- (Z.mod_small x (2 ^ 32)) by exact Hx. apply Z.mod_pow2_bits_high. lia.
Qed.

Lemma erase_length_range :
  is_u32 erased /\ erased mod SWD_FLASH_SECTOR_SIZE = 0 /\ size <= erased < size + SWD_FLASH_SECTOR_SIZE.
Proof.
  unfold BZM_BRIDGE_FLASH_CAPACITY in Hsize. unfold erase_length, SWD_FLASH_SECTOR_SIZE, in_width.
  change (2 ^ 32) with 4294967296. rewrite round_down by (apply u32_range). rewrite u32_small by lia.
  pose proof (Z.div_mod (size + 4096 - 1) 4096 ltac:(lia)). pose proof (Z.mod_pos_bound (size + 4096 - 1) 4096 ltac:(lia)).
  split_and!; [lia|lia| |lia|lia]. rewrite Z.mul_comm. by apply Z.mod_mul.
Qed.

Lemma next_chunk_shape offset : 0 <= offset < size -> offset mod BZM_BRIDGE_FLASH_PAGE_SIZE = 0 ->
  exists c, bzm_bridge_flash_next_chunk size offset = Some c /\
    0 < source_length c <= size - offset /\ program_length c mod BZM_BRIDGE_FLASH_PAGE_SIZE = 0 /\
    0 <= program_length c <= BZM_BRIDGE_FLASH_CHUNK_SIZE /\
    (program_length c = source_length c /\ 256 <= source_length c \/
     source_length c = size - offset /\ source_length c < 256 /\ program_length c = 256).
Proof.
  intros Ho Hm. unfold bzm_bridge_flash_next_chunk, BZM_BRIDGE_FLASH_PAGE_SIZE, BZM_BRIDGE_FLASH_CHUNK_SIZE in *.
  rewrite (proj2 (Z.eqb_neq size 0)), (proj2 (Z.leb_gt size offset)), Hm by lia. cbn [orb negb Z.eqb].
  set (n := if size - offset <? 16 * 1024 then _ else _).
  assert (Hn : 0 < n <= size - offset /\ n <= 16384 /\ (n = size - offset \/ 256 <= n)).
  { subst n. destruct (_ <? _) eqn:E; [apply Z.ltb_lt in E|apply Z.ltb_ge in E]; lia. }
  pose proof (Z.div_mod n 256 ltac:(lia)) as Ed. pose proof (Z.mod_pos_bound n 256 ltac:(lia)) as Eb.
  destruct (256 <=? n) eqn:E; [apply Z.leb_le in E|apply Z.leb_gt in E].
  - assert (1 <= n / 256) by (apply Z.div_le_lower_bound; lia).
    rewrite (proj2 (Z.eqb_neq (n - n mod 256) 0)) by lia. eexists. split; [done|]. cbn [source_length program_length].
    rewrite (proj2 (Z.ltb_ge (n - n mod 256) 256)) by lia. split_and!; [lia|lia| |lia|lia|left; lia].
    replace (n - n mod 256) with (n / 256 * 256) by lia. by apply Z.mod_mul.
  - rewrite (proj2 (Z.eqb_neq n 0)) by lia. eexists. split; [done|]. cbn [source_length program_length].
    rewrite (proj2 (Z.ltb_lt n 256)) by lia. split_and!; [lia|lia|done|lia|lia|right; lia].
Qed.

(** What a chunk puts where: the image, then ones. *)
Definition padded (a : Z) : Z := if a <? size then block_byte image a else 0xff.

Lemma chunk_source_ok offset c : bytes_ok (chunk_source image offset c).
Proof.
  unfold chunk_source, bytes_ok in *. destruct (negb _); [apply Forall_app; split; [by apply Forall_take, Forall_drop|]|by apply Forall_drop].
  apply Forall_replicate. by split.
Qed.

Lemma chunk_source_byte offset c i : 0 <= offset -> 0 < source_length c <= size - offset ->
  (program_length c = source_length c /\ 256 <= source_length c \/
   source_length c = size - offset /\ source_length c < 256 /\ program_length c = 256) ->
  0 <= i < program_length c -> block_byte (chunk_source image offset c) i = padded (offset + i).
Proof.
  intros Ho Hs Hshape Hi. unfold chunk_source, padded. destruct Hshape as [[E ?]|(E1 & E2 & E3)].
  - rewrite E, Z.eqb_refl. cbn [negb]. rewrite block_byte_drop by lia. by rewrite (proj2 (Z.ltb_lt _ _)) by lia.
  - rewrite (proj2 (Z.eqb_neq (program_length c) _)) by lia. cbn [negb].
    assert (Hlen : length (take (Z.to_nat (source_length c)) (drop (Z.to_nat offset) image)) = Z.to_nat (source_length c)).
    { rewrite length_take, length_drop. unfold image_size in *. lia. }
    unfold block_byte at 1, byte_at. destruct (offset + i <? size) eqn:E; [apply Z.ltb_lt in E|apply Z.ltb_ge in E].
    + rewrite app_nth1 by lia. rewrite nth_firstn, (proj2 (Nat.ltb_lt _ _)), nth_skipn by lia.
      unfold block_byte, byte_at. f_equal. lia.
    + rewrite app_nth2 by lia. rewrite Hlen, nth_lookup, lookup_replicate_2; [done|]. unfold BZM_BRIDGE_FLASH_PAGE_SIZE. lia.
Qed.

(** The flash up to [offset] holds the image, the rest of what was erased is ones. *)
Definition programmed (t0 : target) (offset : Z) (t : target) : Prop :=
  armed t /\ reset_count t = reset_count t0 /\
  (forall a, 0 <= a < offset -> flash_byte (flash_of t) a = padded a) /\
  (forall a, 0 <= a -> offset <= a < erased -> flash_byte (flash_of t) a = 0xff) /\
  (forall a, a < 0 \/ erased <= a -> flash_byte (flash_of t) a = flash_byte (flash_of t0) a).

Lemma padded_u8 a : is_u8 (padded a).
Proof.
  unfold padded. destruct (_ <? _); [|by split]. unfold block_byte, byte_at.
  destruct (nth_in_or_default (Z.to_nat a) image 0) as [Hin| ->]; [|by split].
  unfold bytes_ok in Hbytes. rewrite Forall_forall in Hbytes. by apply Hbytes, list_elem_of_In.
Qed.

(** One chunk moves the boundary to its end. *)
Lemma programs_chunk t0 t offset c : programmed t0 offset t -> 0 <= offset < size ->
  offset mod BZM_BRIDGE_FLASH_PAGE_SIZE = 0 ->
  bzm_bridge_flash_next_chunk size offset = Some c -> 0 < source_length c <= size - offset ->
  program_length c mod BZM_BRIDGE_FLASH_PAGE_SIZE = 0 -> 0 <= program_length c <= BZM_BRIDGE_FLASH_CHUNK_SIZE ->
  (program_length c = source_length c /\ 256 <= source_length c \/
   source_length c = size - offset /\ source_length c < 256 /\ program_length c = 256) ->
  exists t1 t2, swd_mem_write_block link SWD_RP2040_STUB_DATA_BASE (Some (chunk_source image offset c)) (program_length c) t = (inr tt, t1) /\
    swd_run_flash_operation link SWD_STUB_OP_PROGRAM (u32 offset) (u32 (program_length c)) SWD_RP2040_STUB_DATA_BASE t1 = (inr tt, t2) /\
    programmed t0 (offset + source_length c) t2.
Proof.
  intros (Harm & Hres & Hlow & Hhigh & Hout) Ho Hpage Hc Hsl Hpl Hplr Hshape.
  pose proof erase_length_range as (_ & Hemod & Her). pose proof Hsize as Hs.
  unfold BZM_BRIDGE_FLASH_CAPACITY, BZM_BRIDGE_FLASH_CHUNK_SIZE in *.
  rewrite (u32_small offset), (u32_small (program_length c)) by lia.
  destruct (programs t offset (program_length c) (chunk_source image offset c) Hlatency Harm)
    as (t1 & t2 & E1 & E2 & Harm2 & Hres2 & Hf);
    [unfold in_width; change (2 ^ 32) with 4294967296; lia|done|done|unfold BZM_BRIDGE_FLASH_CHUNK_SIZE; lia|apply chunk_source_ok|].
  exists t1, t2. split_and!; [done|done|]. split_and!; [done|congruence|..].
  - intros a Ha. rewrite Hf. destruct (_ && _) eqn:Ea; [prop_bool|].
    + apply Z.leb_le in H. apply Z.ltb_lt in H0. rewrite Hhigh, chunk_source_byte by lia.
      replace (offset + (a - offset)) with a by lia. rewrite Z.land_comm. change 255 with (Z.ones 8). rewrite Z.land_ones by lia.
      apply Z.mod_small, padded_u8.
    + apply Hlow. apply andb_false_iff in Ea as [Ea|Ea]; [apply Z.leb_gt in Ea|apply Z.ltb_ge in Ea]; lia.
  - intros a Ha0 Ha. rewrite Hf. destruct (_ && _) eqn:Ea; [prop_bool|apply Hhigh; lia].
    apply Z.leb_le in H. apply Z.ltb_lt in H0. rewrite Hhigh, chunk_source_byte by lia.
    replace (offset + (a - offset)) with a by lia. unfold padded. by rewrite (proj2 (Z.ltb_ge _ _)) by lia.
  - intros a Ha. rewrite Hf. destruct (_ && _) eqn:Ea; [prop_bool|by apply Hout].
    apply Z.leb_le in H. apply Z.ltb_lt in H0. exfalso. unfold BZM_BRIDGE_FLASH_PAGE_SIZE, SWD_FLASH_SECTOR_SIZE in *.
    pose proof (Z.div_mod offset 256 ltac:(lia)). pose proof (Z.div_mod erased 4096 ltac:(lia)). lia.
Qed.

Lemma programs_image fuel offset t0 t : programmed t0 offset t -> 0 <= offset <= size ->
  offset mod BZM_BRIDGE_FLASH_PAGE_SIZE = 0 \/ offset = size -> size - offset <= 256 * Z.of_nat fuel ->
  exists t', program_image link image progress fuel offset t = (inr size, t') /\ programmed t0 size t'.
Proof.
  revert offset t. induction fuel as [|fuel IH]; intros offset t Hp Ho Hm Hfuel.
  { assert (offset = size) as -> by lia. by exists t. }
  cbn [program_image]. destruct (offset <? size) eqn:E; [apply Z.ltb_lt in E|apply Z.ltb_ge in E].
  2: { assert (offset = size) as -> by lia. by exists t. }
  destruct Hm as [Hm|]; [|lia].
  destruct (next_chunk_shape offset ltac:(lia) Hm) as (c & Ec & Hsl & Hpl & Hplr & Hshape). rewrite Ec.
  destruct (programs_chunk t0 t offset c) as (t1 & t2 & E1 & E2 & Hp2); [done|lia|done..|].
  rewrite (attempt_runs _ _ _ _ _ E1), (attempt_runs _ _ _ _ _ E2), (performs_runs _ _ _ _ _ (reports _ _ t2)).
  apply IH; [done|lia| |lia]. destruct Hshape as [[H1 H2]|(H1 & _)]; [left|right; lia].
  unfold BZM_BRIDGE_FLASH_PAGE_SIZE in *. rewrite <- H1, Z.add_mod, Hm, Hpl by lia. done.
Qed.

(** *** Reading back *)

Lemma flash_word_byte f a i : 0 <= i < 4 -> word_byte (flash_word f a) i = flash_byte f (a + i).
Proof.
  intros Hi. unfold flash_word, read_le32, byte_at. cbn [map nth Nat.add].
  destruct (read_le32_quad _ _ _ _ _ (flash_byte_u8 f (a + 0)) (flash_byte_u8 f (a + 1)) (flash_byte_u8 f (a + 2))
    (flash_byte_u8 f (a + 3)) eq_refl) as (_ & E0 & E1 & E2 & E3).
  unfold word_byte. rewrite (Z.land_ones _ 8) by lia. change (wrap 8) with u8.
  assert (Hu : forall z, u8 (z mod 2 ^ 8) = u8 z) by (intros; apply wrap_wrap). rewrite Hu.
  assert (i = 0 \/ i = 1 \/ i = 2 \/ i = 3) as [-> | [-> | [-> | ->]]] by lia;
    [change (8 * 0) with 0; by rewrite Z.shiftr_0_r|change (8 * 1) with 8|change (8 * 2) with 16|change (8 * 3) with 24]; done.
Qed.

Lemma verifies_offsets k n offsets t : attached t = true ->
  (forall a, 0 <= a < size -> flash_byte (flash_of t) a = block_byte image a) ->
  0 <= k -> k + n <= size -> (forall o, o ∈ offsets -> 0 <= o < n) ->
  for_each offsets (fun offset =>
    let* actual_word := link_read link (u32 (u32 (SWD_RP2040_XIP_BASE + u32 k) + u32 offset)) in
    if negb (block_matches (drop (Z.to_nat k) image) offset n actual_word) then fails ESP_ERR_INVALID_CRC
    else cooperate_after link offset) t = (inr tt, t).
Proof.
  intros Ha Hf Hk Hn Ho. unfold BZM_BRIDGE_FLASH_CAPACITY in Hsize.
  induction offsets as [|o offsets IH]; [done|]. pose proof (Ho o ltac:(by left)) as Hr. cbn [for_each].
  assert (Hread : link_read link (u32 (u32 (SWD_RP2040_XIP_BASE + u32 k) + u32 o)) t =
    (inr (flash_word (flash_of t) (k + o)), t)).
  { unfold SWD_RP2040_XIP_BASE. rewrite (u32_small k), (u32_small o), (u32_small (_ + k)), u32_small by lia.
    cbn [link_read link]. unfold mem_read. rewrite Ha. cbn [negb].
    unfold SWD_DHCSR_ADDR, SWD_DCRDR_ADDR, SWD_RP2040_XIP_BASE, BZM_BRIDGE_FLASH_CAPACITY.
    rewrite !(proj2 (Z.eqb_neq _ _)), (proj2 (Z.leb_le _ _)), (proj2 (Z.ltb_lt _ _)) by lia. cbn [andb].
    do 3 f_equal. lia. }
  assert (Hmatch : block_matches (drop (Z.to_nat k) image) o n (flash_word (flash_of t) (k + o)) = true).
  { apply forallb_forall. intros i [Hi Hin]%list_elem_of_In%list_elem_of_filter.
    change [0; 1; 2; 3] with (seqZ 0 4) in Hin. apply elem_of_seqZ in Hin. apply Z.eqb_eq.
    rewrite flash_word_byte, block_byte_drop, Hf by lia. f_equal. lia. }
  erewrite attempt_runs.
  2: { rewrite (attempt_runs _ _ _ _ _ Hread), Hmatch. cbn [negb]. unfold cooperate_after. by destruct (_ =? _). }
  apply IH. intros. apply Ho. by right.
Qed.

Lemma verifies_image fuel offset t : attached t = true ->
  (forall a, 0 <= a < size -> flash_byte (flash_of t) a = block_byte image a) ->
  0 <= offset <= size -> size - offset <= 256 * Z.of_nat fuel ->
  verify_image link image progress fuel offset t = (inr size, t).
Proof.
  intros Ha Hf. revert offset. induction fuel as [|fuel IH]; intros offset Ho Hfuel.
  { by assert (offset = size) as -> by lia. }
  cbn [verify_image]. destruct (offset <? size) eqn:E; [apply Z.ltb_lt in E|apply Z.ltb_ge in E].
  2: { by assert (offset = size) as -> by lia. }
  set (n := if _ <? _ then _ else _).
  assert (Hn : 0 < n <= size - offset /\ (256 <= n \/ n = size - offset)).
  { subst n. unfold BZM_BRIDGE_FLASH_CHUNK_SIZE. destruct (_ <? _) eqn:En; [apply Z.ltb_lt in En|apply Z.ltb_ge in En]; lia. }
  erewrite attempt_runs.
  2: { apply (verifies_offsets offset n); [done|done|lia|lia|]. intros o Hin. by apply word_offsets_range in Hin as [? _]. }
  rewrite (performs_runs _ _ _ _ _ (reports _ _ t)). apply IH; lia.
Qed.

(** *** The whole programming *)

Lemma fuel_enough : size <= 256 * Z.of_nat (chunk_fuel image).
Proof.
  unfold chunk_fuel, BZM_BRIDGE_FLASH_PAGE_SIZE. pose proof (Z.div_mod size 256 ltac:(lia)).
  pose proof (Z.mod_pos_bound size 256 ltac:(lia)). assert (0 <= size / 256) by (apply Z.div_pos; lia). lia.
Qed.

Lemma halts_core targetsel t : swd_halt_core link targetsel t =
  (inr tt, t <| attached := false; halted := true; busy := O |>).
Proof.
  unfold swd_halt_core. erewrite performs_runs; [|reflexivity]. erewrite performs_runs.
  2: { erewrite attempt_runs; [|reflexivity]. by apply halts. }
  erewrite performs_runs; [|reflexivity]. reflexivity.
Qed.

Lemma uploads t : ready t -> exists t', swd_mem_write_block link SWD_RP2040_STUB_BASE (Some RP2040_FLASH_STUB_BIN)
    RP2040_FLASH_STUB_BIN_SIZE t = (inr tt, t') /\ armed t' /\ reset_count t' = reset_count t /\ flash_of t' = flash_of t.
Proof.
  intros Hr. eexists. split; [apply writes_block; [apply Hr|by vm_compute|by vm_compute]|]. split; [|done].
  split; [exact Hr|]. unfold stub_loaded. apply forallb_forall. intros o Ho%list_elem_of_In. apply Z.eqb_eq. by apply stored_word.
Qed.

Lemma delivers_attached t : exists t', flash_attached link image progress t = (inr tt, t') /\
  reset_count t' = S (reset_count t) /\ (forall a, 0 <= a < erased -> flash_byte (flash_of t') a = padded a) /\
  (forall a, a < 0 \/ erased <= a -> flash_byte (flash_of t') a = flash_byte (flash_of t) a).
Proof.
  set (t0 := t <| attached := true; halted := true; busy := O |>).
  pose proof erase_length_range as (Hu & Hm & Her). destruct (uploads t0) as (t1 & E1 & Harm1 & Hres1 & Hfl1); [done|].
  destruct (erases t1 erased Hlatency Harm1 Hu Hm) as (t2 & E2 & Harm2 & Hres2 & Hfl2).
  assert (Hp : programmed t0 0 t2).
  { split_and!; [done|congruence|lia|..].
    - intros a _ Ha. rewrite Hfl2, (proj2 (Z.leb_le _ _)), (proj2 (Z.ltb_lt _ _)) by lia. done.
    - intros a Ha. rewrite Hfl2. destruct (_ && _) eqn:Ea; [|by rewrite Hfl1]. prop_bool.
      apply Z.leb_le in H. apply Z.ltb_lt in H0. lia. }
  pose proof fuel_enough as Hfuel.
  destruct (programs_image (chunk_fuel image) 0 t0 t2 Hp) as (t3 & E3 & Harm3 & Hres3 & Hlow & Hhigh & Hout);
    [lia|by left|lia|].
  assert (Hall : forall a, 0 <= a < erased -> flash_byte (flash_of t3) a = padded a).
  { intros a Ha. destruct (Z.lt_ge_cases a size); [by apply Hlow; lia|]. rewrite Hhigh by lia.
    unfold padded. by rewrite (proj2 (Z.ltb_ge _ _)) by lia. }
  assert (E4 : verify_image link image progress (chunk_fuel image) 0 t3 = (inr size, t3)).
  { apply verifies_image; [apply Harm3| |lia|lia]. intros a Ha. rewrite Hlow by lia. unfold padded.
    by rewrite (proj2 (Z.ltb_lt _ _)) by lia. }
  assert (E5 : swd_reset_system_attached link t3 = (inr tt, t3 <| reset_count := S (reset_count t3) |>)).
  { unfold swd_reset_system_attached. cbn [link_write link]. unfold mem_write. by rewrite (proj1 (proj1 Harm3)). }
  exists (t3 <| reset_count := S (reset_count t3) |>). split_and!; [|change (S (reset_count t3) = S (reset_count t0)); by rewrite Hres3|exact Hall|exact Hout].
  unfold flash_attached, io_bind at 1.
  erewrite attempt_runs; [|reflexivity]. erewrite attempt_runs; [|by apply halts].
  change ((t <| attached := true |>) <| halted := true; busy := O |>) with t0. rewrite E1. cbn [unless_failed].
  unfold io_bind at 1. rewrite (performs_runs _ _ _ _ _ (reports _ _ t1)), u32_small by exact Hu. rewrite E2.
  unfold io_bind at 1. rewrite reports. unfold io_bind at 1. cbn [unless_failed]. rewrite E3.
  unfold io_bind at 1. rewrite reports. unfold io_bind at 1. cbn [unless_failed]. rewrite E4. cbn [unless_failed].
  by rewrite (performs_runs _ _ _ _ _ (reports _ _ t3)).
Qed.

(** C27: Over a processor whose boot ROM keeps its documentation and whose stub ends within the polls,
    whatever its memory, its flash and its registers hold, programming an image of at most the
    capacity succeeds: the flash then holds the image and ones up to the end of the last sector,
    is unchanged elsewhere, and the processor has been reset once. *)
Theorem flash_delivers_image t : exists t',
  bzm_bridge_swd_flash link (Some image) progress t = (ESP_OK, t') /\
  (forall a, 0 <= a < erased -> flash_byte (flash_of t') a = padded a) /\
  (forall a, a < 0 \/ erased <= a -> flash_byte (flash_of t') a = flash_byte (flash_of t) a) /\
  reset_count t' = S (reset_count t).
Proof.
  set (t0 := t <| attached := false; halted := true; busy := O |>).
  destruct (delivers_attached t0) as (t1 & E1 & Hres & Hall & Hout).
  exists (t1 <| attached := false |>). split_and!; [|exact Hall|exact Hout|exact Hres].
  cbn [bzm_bridge_swd_flash]. rewrite (proj2 (Z.eqb_neq _ _)), (proj2 (Z.ltb_ge _ _)) by lia. cbn [orb].
  unfold io_bind, flash_image. rewrite (performs_runs _ _ _ _ _ (reports _ _ t)).
  erewrite attempt_runs; [|reflexivity]. rewrite (attempt_runs _ _ _ _ _ (halts_core _ t)). fold t0.
  erewrite performs_runs; [|reflexivity]. rewrite (performs_runs _ _ _ _ _ E1).
  by erewrite performs_runs.
Qed.
End image.
End target.

(** *** A flash of plain bytes *)

Definition in_range (offset count a : Z) : bool := (offset <=? a) && (a <? offset + count).
Definition plain_rom : rom_functions (Z -> Z) :=
  {| connect_internal_flash := Some id;
     flash_exit_xip := Some id;
     flash_range_erase := Some (fun offset count _ _ f a => if in_range offset count a then 0xff else f a);
     flash_range_program := Some (fun offset data f a =>
       if in_range offset (Z.of_nat (length data)) a then Z.land (u8 (f a)) (block_byte data (a - offset)) else f a);
     flash_flush_cache := Some id;
     flash_enter_cmd_xip := Some id |}.

Lemma u8_land x y : u8 (Z.land (u8 x) y) = Z.land (u8 x) y.
Proof.
  assert (Hu : forall z, u8 z = Z.land z (Z.ones 8)) by (intros; by rewrite Z.land_ones).
  rewrite !Hu. rewrite <- !Z.land_assoc. f_equal. rewrite (Z.land_comm y), Z.land_assoc. by rewrite Z.land_diag.
Qed.

#[export] Instance plain_flash : FlashRom plain_rom.
Proof.
  refine {| flash_byte := fun (f : Z -> Z) a => u8 (f a) |}; [intros; apply u8_is_u8|..]; eexists; split; [reflexivity| |reflexivity| |reflexivity| |reflexivity| |reflexivity| |reflexivity|].
  1-4: done.
  - intros offset count f a _ _. unfold in_range. by destruct (_ && _).
  - intros offset data f a _ _. unfold in_range. destruct (_ && _); [apply u8_land|done].
Defined.

(** A processor that has just been powered, with garbage in its flash. *)
Definition powered : target := mk_target (mk_machine (fun _ => 0) (fun a => 7 * a)) 0 0 0 0 0 false false O O.

Example flash_delivers_image_witness :
  exists t', bzm_bridge_swd_flash (link plain_rom 37) (Some [0x10; 0xb5; 0x72]) None powered = (ESP_OK, t') /\
    (forall a, 0 <= a < erase_length [0x10; 0xb5; 0x72] ->
       flash_byte (flash (memory t')) a = padded [0x10; 0xb5; 0x72] a) /\
    (forall a, a < 0 \/ erase_length [0x10; 0xb5; 0x72] <= a ->
       flash_byte (flash (memory t')) a = flash_byte (flash (memory powered)) a) /\
    reset_count t' = 1%nat.
Proof.
  apply (flash_delivers_image plain_rom 37 [0x10; 0xb5; 0x72] None); [by split|by apply bytes_ok_eval| |done].
  vm_compute. lia.
Defined.

(** The same run, evaluated. *)
Example powered_run :
  let '(err, t') := bzm_bridge_swd_flash (link plain_rom 37) (Some [0x10; 0xb5; 0x72]) None powered in
  (err, map (flash_byte (flash (memory t'))) [0; 1; 2; 3; 4095; 4096]) = (ESP_OK, [0x10; 0xb5; 0x72; 0xff; 0xff; 0]).
Proof. vm_compute. reflexivity. Qed.
End Target.
