(* ===== verification/BridgeUpdate.v ===== *)
(** * The firmware update of the bridge

    Models src/components/asic/bzm_bridge_update.c and its header: the checks of an
    uploaded RP2040 image and of the manifest inside it, the run of an update over a
    table of operations, and the production updater with its maintenance hooks, its
    worker task and its published status.  A byte array that may be [NULL] is an
    [option]; the size that accompanies it is its length.  The programming of the flash
    and the bridge's commands are operations of the world; [esp_err_to_name] is a
    parameter.  The lock makes every access to the status one step, and while the
    worker runs every other operation leaves the status and the hooks alone, so the
    worker's own sequence is one step of the updater. *)

From S2P Require Import Prelude Trace Float32 Bridge Swd SwdFlash FlashStub.
Open Scope Z_scope.
Open Scope io_scope.

(** ** Data *)

Definition RP2040_FLASH_VECTOR_OFFSET : nat := 0x100.
Definition RP2040_SRAM_START : Z := 0x20000000.
Definition RP2040_SRAM_END : Z := 0x20042000.
Definition RP2040_XIP_START : Z := 0x10000100.
Definition RP2040_XIP_END : Z := 0x10200000.
Definition BZM_BRIDGE_IMAGE_MANIFEST_SIZE : nat := 96.
Definition BZM_BRIDGE_IMAGE_TARGET_BOARD_VERSION : Z := 1002.
Definition BZM_BRIDGE_IMAGE_MANIFEST_SCHEMA_VERSION : Z := 1.
Definition BZM_BRIDGE_IMAGE_FIRMWARE_KIND : Z := 1.
Definition BZM_BRIDGE_IMAGE_MANIFEST_CRC_OFFSET : nat := 92.
Definition BZM_BRIDGE_IMAGE_MANIFEST_VERSION_OFFSET : nat := 24.
Definition BZM_BRIDGE_IMAGE_MANIFEST_MAGIC : list Z :=
  [0x42; 0x5a; 0x4d; 0x2d; 0x42; 0x52; 0x49; 0x44; 0x47; 0x45; 0x2d; 0x46; 0x57; 0; 0; 0].

Inductive Asic := BM1397 | BM1366 | BM1368 | BM1370 | BZM | BM1373.
#[export] Instance Asic_eq_dec : EqDecision Asic.
Proof. solve_decision. Defined.

(** The fields of the board's configuration that are read here. *)
Record DeviceConfig := mk_device_config {
  bonanza_bridge : bool;
  family_asic_id : Asic;
}.

Inductive bzm_bridge_update_state_t :=
| BZM_BRIDGE_UPDATE_IDLE | BZM_BRIDGE_UPDATE_PREPARING | BZM_BRIDGE_UPDATE_ERASING
| BZM_BRIDGE_UPDATE_PROGRAMMING | BZM_BRIDGE_UPDATE_VERIFYING | BZM_BRIDGE_UPDATE_RESETTING
| BZM_BRIDGE_UPDATE_QUERYING | BZM_BRIDGE_UPDATE_COMPLETE | BZM_BRIDGE_UPDATE_FAILED.
#[export] Instance bzm_bridge_update_state_t_eq_dec : EqDecision bzm_bridge_update_state_t.
Proof. solve_decision. Defined.

Record bzm_bridge_image_manifest_t := mk_manifest {
  manifest_offset : nat;
  manifest_board : Z;
  manifest_major : Z;
  manifest_minor : Z;
  manifest_version : list Z;
}.

Record bzm_bridge_update_status_t := mk_update_status {
  update_state : bzm_bridge_update_state_t;
  progress_percent : Z;
  status_image_size : Z;
  update_running : bool;
  status_manifest_validated : bool;
  status_force_requested : bool;
  version_query_supported : bool;
  status_board : Z;
  image_protocol_major : Z;
  image_protocol_minor : Z;
  image_version : list Z;
  current_version : list Z;
  status_error : string;
}.
#[export] Instance bzm_bridge_update_status_t_eta : Eta bzm_bridge_update_status_t :=
  fun s => mk_update_status (update_state s) (progress_percent s) (status_image_size s) (update_running s)
    (status_manifest_validated s) (status_force_requested s) (version_query_supported s) (status_board s)
    (image_protocol_major s) (image_protocol_minor s) (image_version s) (current_version s) (status_error s).

(** ** The image *)

Definition manifest_crc32_bit (crc : Z) : Z :=
  Z.lxor (Z.shiftr crc 1) (Z.land 0xedb88320 (u32 (0 - Z.land crc 1))).
Definition manifest_crc32 (bytes : list Z) : Z :=
  Z.lxor UINT32_MAX
    (foldl (fun crc byte => Nat.iter 8 manifest_crc32_bit (Z.lxor crc byte)) UINT32_MAX bytes).

Definition bzm_bridge_update_enabled : bool := true.

Definition bzm_bridge_update_board_supported (config : option DeviceConfig) : bool :=
  match config with
  | Some c => bonanza_bridge c && bool_decide (family_asic_id c = BZM)
  | None => false
  end.

Definition bzm_bridge_update_supported (config : option DeviceConfig) : bool :=
  bzm_bridge_update_enabled && bzm_bridge_update_board_supported config.

Definition bzm_bridge_update_boot_recovery_allowed (config : option DeviceConfig) (bridge_error : esp_err_t) : bool :=
  negb (bool_decide (bridge_error = ESP_OK)) && bzm_bridge_update_supported config.

Definition bzm_bridge_update_validate_image (image : option (list Z)) : esp_err_t :=
  match image with
  | None => ESP_ERR_INVALID_ARG
  | Some image =>
      let size := Z.of_nat (length image) in
      if (length image <? RP2040_FLASH_VECTOR_OFFSET + 8)%nat || (BZM_BRIDGE_FLASH_CAPACITY <? size)
      then ESP_ERR_INVALID_SIZE
      else if negb (existsb (fun b => negb (b =? 0x00) && negb (b =? 0xff))
                      (take RP2040_FLASH_VECTOR_OFFSET image))
      then ESP_ERR_INVALID_RESPONSE
      else
        let stack_pointer := read_le32 image RP2040_FLASH_VECTOR_OFFSET in
        let reset_vector := read_le32 image (RP2040_FLASH_VECTOR_OFFSET + 4) in
        let reset_address := Z.land reset_vector 0xfffffffe in
        if negb (Z.land stack_pointer 3 =? 0) || (stack_pointer <? RP2040_SRAM_START) ||
           (RP2040_SRAM_END <? stack_pointer) || (Z.land reset_vector 1 =? 0) ||
           (reset_address <? RP2040_XIP_START) || (RP2040_XIP_END <=? reset_address) ||
           (0x10000000 + size <=? reset_address)
        then ESP_ERR_INVALID_RESPONSE
        else ESP_OK
  end.

(** ** The manifest *)

Definition zero_version : list Z := replicate (BZM_BRIDGE_VERSION_MAX_LENGTH + 1) 0.
Definition zero_manifest : bzm_bridge_image_manifest_t := mk_manifest 0 0 0 0 zero_version.

(** The search for the magic: [None] is a second one. *)
Fixpoint find_manifest (image : list Z) (indices : list nat) (found : option nat) : option (option nat) :=
  match indices with
  | [] => Some found
  | index :: indices =>
      if bool_decide (take 16 (drop index image) = BZM_BRIDGE_IMAGE_MANIFEST_MAGIC) then
        match found with
        | Some _ => None
        | None => find_manifest image indices (Some index)
        end
      else find_manifest image indices found
  end.

(** The checks of an encoded manifest, in their order. *)
Definition check_manifest (encoded : list Z) : esp_err_t :=
  let version_length := Z.to_nat (byte_at encoded (BZM_BRIDGE_IMAGE_MANIFEST_VERSION_OFFSET - 1)) in
  if negb (byte_at encoded 16 =? BZM_BRIDGE_IMAGE_MANIFEST_SCHEMA_VERSION) ||
     negb (byte_at encoded 17 =? Z.of_nat BZM_BRIDGE_IMAGE_MANIFEST_SIZE) ||
     negb (read_le16 encoded 18 =? BZM_BRIDGE_IMAGE_TARGET_BOARD_VERSION) ||
     negb (byte_at encoded 20 =? BZM_BRIDGE_IMAGE_FIRMWARE_KIND) ||
     negb (byte_at encoded 21 =? BZM_BRIDGE_PROTOCOL_MAJOR) ||
     (version_length =? 0)%nat || (BZM_BRIDGE_VERSION_MAX_LENGTH <? version_length)%nat
  then ESP_ERR_INVALID_RESPONSE
  else if existsb (fun b => (b <? 0x20) || (0x7e <? b))
            (take version_length (drop BZM_BRIDGE_IMAGE_MANIFEST_VERSION_OFFSET encoded))
  then ESP_ERR_INVALID_RESPONSE
  else if existsb (fun b => negb (b =? 0))
            (drop (BZM_BRIDGE_IMAGE_MANIFEST_VERSION_OFFSET + version_length)
               (take BZM_BRIDGE_IMAGE_MANIFEST_CRC_OFFSET encoded))
  then ESP_ERR_INVALID_RESPONSE
  else if negb (read_le32 encoded BZM_BRIDGE_IMAGE_MANIFEST_CRC_OFFSET =?
                manifest_crc32 (take BZM_BRIDGE_IMAGE_MANIFEST_CRC_OFFSET encoded))
  then ESP_ERR_INVALID_CRC
  else ESP_OK.

Definition decoded_manifest (offset : nat) (encoded : list Z) : bzm_bridge_image_manifest_t :=
  let version_length := Z.to_nat (byte_at encoded (BZM_BRIDGE_IMAGE_MANIFEST_VERSION_OFFSET - 1)) in
  {| manifest_offset := offset; manifest_board := read_le16 encoded 18;
     manifest_major := byte_at encoded 21; manifest_minor := byte_at encoded 22;
     manifest_version := take version_length (drop BZM_BRIDGE_IMAGE_MANIFEST_VERSION_OFFSET encoded) ++
       replicate (BZM_BRIDGE_VERSION_MAX_LENGTH + 1 - version_length) 0 |}.

(** The error, and the manifest the caller's variable holds afterwards. *)
Definition bzm_bridge_update_validate_manifest (image : option (list Z)) (old : bzm_bridge_image_manifest_t)
    : esp_err_t * bzm_bridge_image_manifest_t :=
  match image with
  | None => (ESP_ERR_INVALID_ARG, old)
  | Some image =>
      if (length image <? BZM_BRIDGE_IMAGE_MANIFEST_SIZE)%nat then (ESP_ERR_NOT_FOUND, zero_manifest)
      else
        match find_manifest image (seq 0 (length image - BZM_BRIDGE_IMAGE_MANIFEST_SIZE + 1)) None with
        | None => (ESP_ERR_INVALID_RESPONSE, zero_manifest)
        | Some None => (ESP_ERR_NOT_FOUND, zero_manifest)
        | Some (Some offset) =>
            let encoded := take BZM_BRIDGE_IMAGE_MANIFEST_SIZE (drop offset image) in
            match check_manifest encoded with
            | ESP_OK => (ESP_OK, decoded_manifest offset encoded)
            | err => (err, zero_manifest)
            end
        end
  end.

(** The error, whether the manifest was validated, and the manifest. *)
Definition bzm_bridge_update_validate_upload (image : option (list Z)) (force : bool)
    (old : bzm_bridge_image_manifest_t) : esp_err_t * bool * bzm_bridge_image_manifest_t :=
  match bzm_bridge_update_validate_image image with
  | ESP_OK =>
      match bzm_bridge_update_validate_manifest image old with
      | (ESP_OK, manifest) => (ESP_OK, true, manifest)
      | (err, manifest) => (if force then ESP_OK else err, false, manifest)
      end
  | err => (err, false, old)
  end.

(** [strcmp] compares what precedes the terminators. *)
Definition bzm_bridge_update_manifest_matches_info (manifest : option bzm_bridge_image_manifest_t)
    (info : option bzm_bridge_info_t) : bool :=
  match manifest, info with
  | Some m, Some i =>
      (protocol_major i =? manifest_major m) && (protocol_minor i =? manifest_minor m) &&
      bool_decide (c_string (info_version i) = c_string (manifest_version m))
  | _, _ => false
  end.

Definition bzm_bridge_update_state_name (s : bzm_bridge_update_state_t) : string :=
  match s with
  | BZM_BRIDGE_UPDATE_IDLE => "idle"
  | BZM_BRIDGE_UPDATE_PREPARING => "preparing"
  | BZM_BRIDGE_UPDATE_ERASING => "erasing"
  | BZM_BRIDGE_UPDATE_PROGRAMMING => "programming"
  | BZM_BRIDGE_UPDATE_VERIFYING => "verifying"
  | BZM_BRIDGE_UPDATE_RESETTING => "resetting"
  | BZM_BRIDGE_UPDATE_QUERYING => "querying"
  | BZM_BRIDGE_UPDATE_COMPLETE => "complete"
  | BZM_BRIDGE_UPDATE_FAILED => "failed"
  end.

(** ** A run over a table of operations *)

Definition percent_of (completed total : Z) : Z :=
  if total =? 0 then 0 else if total <=? completed then 100 else u8 (u32 (completed * 100) / total).

Definition state_of_phase (phase : bzm_bridge_flash_phase_t) : bzm_bridge_update_state_t :=
  match phase with
  | BZM_BRIDGE_FLASH_PREPARING => BZM_BRIDGE_UPDATE_PREPARING
  | BZM_BRIDGE_FLASH_ERASING => BZM_BRIDGE_UPDATE_ERASING
  | BZM_BRIDGE_FLASH_PROGRAMMING => BZM_BRIDGE_UPDATE_PROGRAMMING
  | BZM_BRIDGE_FLASH_VERIFYING => BZM_BRIDGE_UPDATE_VERIFYING
  | BZM_BRIDGE_FLASH_RESETTING => BZM_BRIDGE_UPDATE_RESETTING
  end.

Abbreviation progress_fn := bzm_bridge_flash_progress_fn.
Definition report_fn (W : Type) : Type := bzm_bridge_update_state_t -> Z -> io W unit.

Record bzm_bridge_update_ops_t (W : Type) := mk_update_ops {
  op_prepare : option (io W esp_err_t);
  op_flash : option (list Z -> progress_fn W -> io W esp_err_t);
  op_restore : option (io W esp_err_t);
  op_query_info : option (io W (esp_err_t * option bzm_bridge_info_t));
}.
Arguments mk_update_ops {W}.

Section run.
Context {W : Type}.

Definition report_to (report : option (report_fn W)) (state : bzm_bridge_update_state_t) (percent : Z) : io W unit :=
  match report with Some r => r state percent | None => io_ret tt end.

Definition bridge_flash_progress (report : option (report_fn W)) : progress_fn W := fun phase completed total =>
  report_to report (state_of_phase phase) (percent_of completed total).

(** The query that ends a run: an answer, none where the firmware cannot, or the error. *)
Definition query_installed (query_info : io W (esp_err_t * option bzm_bridge_info_t))
    : io W (esp_err_t * option bzm_bridge_info_t) :=
  let! (query_err, info) := query_info in
  if bool_decide (query_err = ESP_OK) then io_ret (ESP_OK, info)
  else if negb (bool_decide (query_err = ESP_ERR_NOT_SUPPORTED)) then io_ret (query_err, None)
  else io_ret (ESP_OK, None).

(** The error, and the information of the installed firmware when it could be queried. *)
Definition bzm_bridge_update_run (image : option (list Z)) (ops : option (bzm_bridge_update_ops_t W))
    (report : option (report_fn W)) : io W (esp_err_t * option bzm_bridge_info_t) :=
  match image, ops with
  | Some bytes, Some (mk_update_ops (Some prepare) (Some flash) (Some restore) (Some query_info)) =>
      match bzm_bridge_update_validate_image image with
      | ESP_OK =>
          let! _ := report_to report BZM_BRIDGE_UPDATE_PREPARING 0 in
          let! err := prepare in
          if negb (bool_decide (err = ESP_OK)) then io_ret (err, None)
          else
            let! err := flash bytes (bridge_flash_progress report) in
            let! restore_err := restore in
            let err := if bool_decide (err = ESP_OK) then restore_err else err in
            if negb (bool_decide (err = ESP_OK)) then io_ret (err, None)
            else
              let! _ := report_to report BZM_BRIDGE_UPDATE_QUERYING 100 in
              query_installed query_info
      | err => io_ret (err, None)
      end
  | _, _ => io_ret (ESP_ERR_INVALID_ARG, None)
  end.
End run.

(** ** The production updater *)

(** The file's statics, the flag of the system module that it sets, and the two flags of the
    worker's structure that change.  A maintenance hook is a function pointer with its
    context, and is named by a number. *)
Record updater_t := mk_updater {
  UPDATE_STATUS : bzm_bridge_update_status_t;
  MAINTENANCE_ACQUIRE : option nat;
  MAINTENANCE_RELEASE : option nat;
  mining_paused : bool;
  maintenance_entered : bool;
  supervisor_lease_entered : bool;
}.
#[export] Instance updater_t_eta : Eta updater_t := fun u =>
  mk_updater (UPDATE_STATUS u) (MAINTENANCE_ACQUIRE u) (MAINTENANCE_RELEASE u) (mining_paused u)
    (maintenance_entered u) (supervisor_lease_entered u).

(** The part of the worker's structure that is fixed when it is created. *)
Record production_update_t := mk_production {
  production_image : list Z;
  production_validated : bool;
  production_force : bool;
  production_manifest : bzm_bridge_image_manifest_t;
}.

Definition idle_status : bzm_bridge_update_status_t :=
  mk_update_status BZM_BRIDGE_UPDATE_IDLE 0 0 false false false false 0 0 0 [] [] "".

(** What the updater uses of the world [V]: the hooks, the bridge of Bridge.v, the debug link,
    time, and the memory that holds its statics. *)
Record update_services (V : Type) := mk_services {
  call_hook : nat -> io V bool;
  begin_maintenance : io V esp_err_t;
  end_maintenance : io V esp_err_t;
  set_fan_percent : f32 -> io V esp_err_t;
  get_info : io V (esp_err_t * option bzm_bridge_info_t);
  swd : swd_link V;
  delay_ms : Z -> io V unit;
  statics : io V updater_t;
  assign : (updater_t -> updater_t) -> io V unit;
}.
Arguments mk_services {V}.
Arguments call_hook {V}.
Arguments begin_maintenance {V}.
Arguments end_maintenance {V}.
Arguments set_fan_percent {V}.
Arguments get_info {V}.
Arguments swd {V}.
Arguments delay_ms {V}.
Arguments statics {V}.
Arguments assign {V}.

Section production.
Context (esp_err_to_name : esp_err_t -> string).
Context {V : Type} (s : update_services V).

(** An assignment to the status. *)
Definition update_status (f : bzm_bridge_update_status_t -> bzm_bridge_update_status_t) : io V unit :=
  assign s (fun u => u <| UPDATE_STATUS := f (UPDATE_STATUS u) |>).

(** The error text keeps 95 characters. *)
Definition error_text (error : string) : string := String.substring 0 95 error.

Definition set_status (state : bzm_bridge_update_state_t) (percent : Z) (error : option string) : io V unit :=
  update_status (fun st =>
    let st := st <| update_state := state; progress_percent := percent |> in
    match error with Some e => st <| status_error := error_text e |> | None => st end).

Definition production_report : report_fn V := fun state percent => set_status state percent None.

Definition BZM_bridge_update_set_maintenance_hooks (acquire release : option nat) : io V bool :=
  match acquire, release with
  | Some _, Some _ =>
      let! u := statics s in
      if update_running (UPDATE_STATUS u) then io_ret false
      else
        let! _ := assign s (fun u => u <| MAINTENANCE_ACQUIRE := acquire; MAINTENANCE_RELEASE := release |>) in
        io_ret true
  | _, _ => io_ret false
  end.

Definition production_prepare : io V esp_err_t :=
  let! _ := assign s (fun u => u <| mining_paused := true |>) in
  let! u := statics s in
  match MAINTENANCE_ACQUIRE u, MAINTENANCE_RELEASE u with
  | Some acquire, Some release =>
      let! acquired := call_hook s acquire in
      if negb acquired then io_ret ESP_ERR_INVALID_STATE
      else
        let! _ := assign s (fun u => u <| supervisor_lease_entered := true |>) in
        let! err := begin_maintenance s in
        if negb (bool_decide (err = ESP_OK)) then
          let! _ := call_hook s release in
          let! _ := assign s (fun u => u <| supervisor_lease_entered := false |>) in
          io_ret err
        else
          let! _ := assign s (fun u => u <| maintenance_entered := true |>) in
          io_ret ESP_OK
  | _, _ => io_ret ESP_ERR_INVALID_STATE
  end.

Definition production_flash (image : list Z) (progress : progress_fn V) : io V esp_err_t :=
  bzm_bridge_swd_flash (swd s) (Some image) (Some progress).

(** The two halves of the restoration. *)
Definition leave_maintenance : io V esp_err_t :=
  let! u := statics s in
  if maintenance_entered u then
    let! _ := delay_ms s 250 in
    let! err := end_maintenance s in
    let! _ := assign s (fun u => u <| maintenance_entered := false |>) in
    if bool_decide (err = ESP_OK) then
      let! _ := set_fan_percent s (f32_of_Z 1) in
      io_ret err
    else io_ret err
  else io_ret ESP_OK.

Definition leave_lease (err : esp_err_t) : io V esp_err_t :=
  let! u := statics s in
  if supervisor_lease_entered u then
    let! released := match MAINTENANCE_RELEASE u with Some release => call_hook s release | None => io_ret false end in
    let! _ := assign s (fun u => u <| supervisor_lease_entered := false |>) in
    io_ret (if negb released && bool_decide (err = ESP_OK) then ESP_FAIL else err)
  else io_ret err.

Definition production_restore : io V esp_err_t :=
  let! err := leave_maintenance in
  leave_lease err.

Definition production_query : io V (esp_err_t * option bzm_bridge_info_t) := get_info s.

Definition PRODUCTION_OPS : bzm_bridge_update_ops_t V :=
  mk_update_ops (Some production_prepare) (Some production_flash) (Some production_restore) (Some production_query).

(** The worker, from its creation to its end. *)
Definition update_task (update : production_update_t) : io V unit :=
  let! (err, installed_info) :=
    bzm_bridge_update_run (Some (production_image update)) (Some PRODUCTION_OPS) (Some production_report) in
  let queried := bool_decide (is_Some installed_info) in
  let err :=
    if bool_decide (err = ESP_OK) && production_validated update &&
       (negb queried ||
        negb (bzm_bridge_update_manifest_matches_info (Some (production_manifest update)) installed_info))
    then ESP_ERR_INVALID_RESPONSE else err in
  update_status (fun st =>
    let st := st <| update_running := false; version_query_supported := queried |> in
    let st := match installed_info with
              | Some info => st <| current_version := c_string (info_version info) |>
              | None => st
              end in
    if bool_decide (err = ESP_OK) then st <| update_state := BZM_BRIDGE_UPDATE_COMPLETE; progress_percent := 100 |>
    else st <| update_state := BZM_BRIDGE_UPDATE_FAILED; status_error := error_text (esp_err_to_name err) |>).

Definition BZM_bridge_update_is_running : io V bool :=
  let! u := statics s in io_ret (update_running (UPDATE_STATUS u)).

Definition BZM_bridge_update_get_status : io V bzm_bridge_update_status_t :=
  let! u := statics s in io_ret (UPDATE_STATUS u).

(** The status of an update that starts. *)
Definition starting_status (update : production_update_t) : bzm_bridge_update_status_t :=
  let st := idle_status <| update_state := BZM_BRIDGE_UPDATE_PREPARING; progress_percent := 0;
    status_image_size := Z.of_nat (length (production_image update)); update_running := true;
    status_manifest_validated := production_validated update; status_force_requested := production_force update |> in
  if production_validated update then
    let m := production_manifest update in
    st <| status_board := manifest_board m; image_protocol_major := manifest_major m;
          image_protocol_minor := manifest_minor m; image_version := c_string (manifest_version m) |>
  else st.

(** The error, and the worker when one was created; [allocated] and [created] are the answers
    of the allocation and of the task creation. *)
Definition BZM_bridge_update_start (config : option DeviceConfig) (image : option (list Z)) (force allocated created : bool)
    : io V (esp_err_t * option production_update_t) :=
  if negb bzm_bridge_update_enabled then io_ret (ESP_ERR_NOT_SUPPORTED, None)
  else
    match config, image with
    | Some config, Some bytes =>
        if negb (bzm_bridge_update_supported (Some config)) then io_ret (ESP_ERR_INVALID_ARG, None)
        else
          match bzm_bridge_update_validate_upload image force zero_manifest with
          | (ESP_OK, manifest_validated, manifest) =>
              if negb allocated then io_ret (ESP_ERR_NO_MEM, None)
              else
                let update := {| production_image := bytes; production_validated := manifest_validated;
                  production_force := force;
                  production_manifest := if manifest_validated then manifest else zero_manifest |} in
                let! u := statics s in
                if update_running (UPDATE_STATUS u) then io_ret (ESP_ERR_INVALID_STATE, None)
                else
                  let! _ := update_status (fun _ => starting_status update) in
                  if negb created then
                    let! _ := update_status (fun st =>
                      st <| update_running := false; update_state := BZM_BRIDGE_UPDATE_FAILED;
                            status_error := error_text "task creation failed" |>) in
                    io_ret (ESP_ERR_NO_MEM, None)
                  else
                    let! _ := assign s (fun u => u <| maintenance_entered := false; supervisor_lease_entered := false |>) in
                    io_ret (ESP_OK, Some update)
          | (err, _, _) => io_ret (err, None)
          end
    | _, _ => io_ret (ESP_ERR_INVALID_ARG, None)
    end.
End production.

(** ** The manifest is exact *)

(** The 96 bytes of a manifest, as the build of the bridge firmware writes them. *)
Definition manifest_body (minor : Z) (version : list Z) : list Z :=
  BZM_BRIDGE_IMAGE_MANIFEST_MAGIC ++
  [BZM_BRIDGE_IMAGE_MANIFEST_SCHEMA_VERSION; Z.of_nat BZM_BRIDGE_IMAGE_MANIFEST_SIZE] ++
  le_bytes_of 2 BZM_BRIDGE_IMAGE_TARGET_BOARD_VERSION ++
  [BZM_BRIDGE_IMAGE_FIRMWARE_KIND; BZM_BRIDGE_PROTOCOL_MAJOR; minor; Z.of_nat (length version)] ++
  version ++ replicate (68 - length version) 0.
Definition encode_manifest (minor : Z) (version : list Z) : list Z :=
  manifest_body minor version ++ le_bytes_of 4 (manifest_crc32 (manifest_body minor version)).

Definition printable (version : list Z) : Prop :=
  (0 < length version <= BZM_BRIDGE_VERSION_MAX_LENGTH)%nat /\ Forall (fun b => 0x20 <= b <= 0x7e) version.

Definition is_magic (image : list Z) (index : nat) : Prop :=
  take 16 (drop index image) = BZM_BRIDGE_IMAGE_MANIFEST_MAGIC.

#[export] Instance is_magic_dec image index : Decision (is_magic image index).
Proof. unfold is_magic. apply _. Defined.

Lemma find_manifest_spec image indices found :
  find_manifest image indices found =
  match found, filter (is_magic image) indices with
  | None, [] => Some None
  | None, [index] => Some (Some index)
  | Some index, [] => Some (Some index)
  | _, _ => None
  end.
Proof.
  revert found. induction indices as [|i indices IH]; intros found; cbn [find_manifest]; [by destruct found|].
  rewrite filter_cons. unfold is_magic at 2 5.
  case_bool_decide as Em; case_decide as Ed; try (by destruct Ed); [|by rewrite IH].
  destruct found as [j|]; [done|]. rewrite IH. by destruct (filter _ _) as [|? [|]].
Qed.

(** *** The checksum is a 32-bit value *)

Lemma u32_of_bits x : 0 <= x -> (forall i, 32 <= i -> Z.testbit x i = false) -> is_u32 x.
Proof.
  intros Hx Hb. assert (x mod 2 ^ 32 = x) as <-; [|by apply Z.mod_pos_bound].
  apply Z.bits_inj'. intros i Hi. destruct (Z.lt_ge_cases i 32); [by apply Z.mod_pow2_bits_low|].
  rewrite Hb by done. by apply Z.mod_pow2_bits_high.
Qed.

Lemma bits_of_u32 x i : is_u32 x -> 32 <= i -> Z.testbit x i = false.
Proof. intros Hx Hi. rewrite <- (Z.mod_small x (2 ^ 32)) by exact Hx. by apply Z.mod_pow2_bits_high. Qed.

Lemma u32_lxor x y : is_u32 x -> is_u32 y -> is_u32 (Z.lxor x y).
Proof.
  intros Hx Hy. apply u32_of_bits; [apply Z.lxor_nonneg; unfold in_width in *; lia|].
  intros i Hi. by rewrite Z.lxor_spec, !bits_of_u32.
Qed.

Lemma crc32_bit_u32 crc : is_u32 crc -> is_u32 (manifest_crc32_bit crc).
Proof.
  intros Hc. apply u32_lxor; apply u32_of_bits.
  - apply Z.shiftr_nonneg, Hc.
  - intros i Hi. rewrite Z.shiftr_spec by lia. apply bits_of_u32; [done|lia].
  - apply Z.land_nonneg. by left.
  - intros i Hi. rewrite Z.land_spec, (bits_of_u32 0xedb88320); [done|by split|done].
Qed.

Lemma manifest_crc32_u32 bytes : bytes_ok bytes -> is_u32 (manifest_crc32 bytes).
Proof.
  intros Hb. unfold manifest_crc32. apply u32_lxor; [by split|].
  assert (H : is_u32 UINT32_MAX) by by split. revert H. generalize UINT32_MAX.
  induction Hb as [|b bytes Hb1 _ IH]; intros crc Hc; [done|]. cbn [foldl]. apply IH.
  assert (H : is_u32 (Z.lxor crc b)).
  { apply u32_lxor; [done|]. unfold in_width in *. change (2 ^ 8) with 256 in *. change (2 ^ 32) with 4294967296. lia. }
  revert H. generalize (Z.lxor crc b) 8%nat. intros z n Hz. induction n as [|n IHn]; [done|]. by apply crc32_bit_u32.
Qed.

(** *** The fields of an encoding *)

Lemma byte_at_app a b i : byte_at (a ++ b) (length a + i) = byte_at b i.
Proof. apply app_nth2_plus. Qed.
Lemma read_le32_app a b i : read_le32 (a ++ b) (length a + i) = read_le32 b i.
Proof. unfold read_le32. rewrite <- !Nat.add_assoc. by rewrite !byte_at_app. Qed.

Lemma le32_encoded v rest : is_u32 v -> read_le32 (le_bytes_of 4 v ++ rest) 0 = v.
Proof.
  intros Hv. pose proof (le_bytes_of_ok 4 v) as Hok. pose proof (le_bytes_value_of 4 v Hv) as E.
  cbn [le_bytes_of] in *. inversion Hok as [|? ? H0 Hok1]; subst.
  inversion Hok1 as [|? ? H1 Hok2]; subst. inversion Hok2 as [|? ? H2 Hok3]; subst. inversion Hok3 as [|? ? H3 _]; subst.
  unfold read_le32, byte_at. cbn [nth app Nat.add]. rewrite le32_sum by done. cbn [le_bytes_value fold_right] in E. lia.
Qed.

(** A manifest cut into its parts. *)
Record manifest_parts (e magic header version filler crc : list Z) : Prop := {
  parts_whole : e = magic ++ header ++ version ++ filler ++ crc;
  parts_magic : length magic = 16%nat;
  parts_header : length header = 8%nat;
  parts_version : length version = Z.to_nat (byte_at e 23);
  parts_filler : length filler = (68 - Z.to_nat (byte_at e 23))%nat;
  parts_crc : length crc = 4%nat;
}.

Lemma cut_manifest e : length e = 96%nat -> (Z.to_nat (byte_at e 23) <= 68)%nat ->
  exists magic header version filler crc, manifest_parts e magic header version filler crc.
Proof.
  intros Hl Hn. set (n := Z.to_nat (byte_at e 23)) in *.
  exists (take 16 e), (take 8 (drop 16 e)), (take n (drop 24 e)), (take (68 - n) (drop (24 + n) e)), (drop 92 e).
  split; fold n; rewrite ?length_take, ?length_drop; try lia.
  rewrite <- (take_drop 16 e) at 1. f_equal. rewrite <- (take_drop 8 (drop 16 e)) at 1. rewrite drop_drop. f_equal.
  change (16 + 8)%nat with 24%nat. rewrite <- (take_drop n (drop 24 e)) at 1. rewrite drop_drop. f_equal.
  rewrite <- (take_drop (68 - n) (drop (24 + n) e)) at 1. rewrite drop_drop. do 2 f_equal. lia.
Qed.

Lemma existsb_false {A} (f : A -> bool) l : existsb f l = false -> Forall (fun x => f x = false) l.
Proof. induction l as [|x l IH]; cbn; [constructor|]. intros [Hx Hl]%orb_false_iff. constructor; auto. Qed.

Lemma take_drop_middle_app {A} (a b c : list A) n m : length a = n -> length b = m -> take m (drop n (a ++ b ++ c)) = b.
Proof. intros <- <-. by rewrite drop_app_length, take_app_length. Qed.

Lemma all_zero (l : list Z) : Forall (fun b => negb (b =? 0) = false) l -> l = replicate (length l) 0.
Proof.
  induction 1 as [|b l Hb _ IH]; [done|]. cbn. prop_bool. apply Z.eqb_eq in Hb as ->. by f_equal.
Qed.

Lemma le_bytes_of_value l : bytes_ok l -> le_bytes_of (length l) (le_bytes_value l) = l.
Proof.
  induction 1 as [|b l Hb _ IH]; [done|]. cbn [length le_bytes_of le_bytes_value fold_right].
  unfold in_width in Hb. change (2 ^ 8) with 256 in Hb. fold (le_bytes_value l).
  rewrite (Z.mul_comm 256), Z.mod_add, Z.mod_small, Z.div_add, Z.div_small, Z.add_0_l by lia. by rewrite IH.
Qed.

Lemma bytes_ok_app a b : bytes_ok (a ++ b) <-> bytes_ok a /\ bytes_ok b.
Proof. apply Forall_app. Qed.

Lemma le16_word a b v : is_u8 a -> is_u8 b -> Z.lor a (Z.shiftl b 8) = v -> [a; b] = le_bytes_of 2 v.
Proof.
  intros Ha Hb <-. rewrite le16_sum by done. symmetry. rewrite <- (le_bytes_of_value [a; b]) at 1 by (unfold bytes_ok; rewrite !Forall_cons; auto).
  cbn [length le_bytes_value fold_right]. f_equal. lia.
Qed.

Lemma le32_word a b c d v : is_u8 a -> is_u8 b -> is_u8 c -> is_u8 d ->
  read_le32 [a; b; c; d] 0 = v -> [a; b; c; d] = le_bytes_of 4 v.
Proof.
  intros Ha Hb Hc Hd <-. unfold read_le32, byte_at. cbn [nth Nat.add]. rewrite le32_sum by done. symmetry.
  rewrite <- (le_bytes_of_value [a; b; c; d]) at 1 by (unfold bytes_ok; rewrite !Forall_cons; auto).
  cbn [length le_bytes_value fold_right]. f_equal. lia.
Qed.

Lemma printable_bytes version : printable version -> bytes_ok version.
Proof.
  intros [_ H]. eapply Forall_impl; [exact H|]. cbn. unfold in_width. change (2 ^ 8) with 256. lia.
Qed.

(** What the checks accept is an encoding. *)
Lemma check_manifest_sound e : length e = 96%nat -> bytes_ok e -> take 16 e = BZM_BRIDGE_IMAGE_MANIFEST_MAGIC ->
  check_manifest e = ESP_OK ->
  exists minor version, is_u8 minor /\ printable version /\ e = encode_manifest minor version.
Proof.
  intros Hl Hb Hm Hc. unfold check_manifest in Hc.
  change (BZM_BRIDGE_IMAGE_MANIFEST_VERSION_OFFSET - 1)%nat with 23%nat in Hc.
  change BZM_BRIDGE_IMAGE_MANIFEST_VERSION_OFFSET with 24%nat in Hc. change BZM_BRIDGE_IMAGE_MANIFEST_CRC_OFFSET with 92%nat in Hc.
  set (n := Z.to_nat (byte_at e 23)) in Hc.
  repeat guard_step; try discriminate. clear Hc. prop_bool.
  repeat match goal with H : (_ =? _)%Z = true |- _ => apply Z.eqb_eq in H end.
  apply Nat.eqb_neq in H1. apply Nat.ltb_ge in H0. unfold BZM_BRIDGE_VERSION_MAX_LENGTH in H0.
  destruct (cut_manifest e Hl ltac:(lia)) as (g & h & v & z & c & [Ew Lg Lh Lv Lz Lc]). fold n in Lv, Lz.
  destruct h as [|h0 [|h1 [|h2 [|h3 [|h4 [|h5 [|h6 [|h7 [|]]]]]]]]]; try discriminate.
  destruct c as [|c0 [|c1 [|c2 [|c3 [|]]]]]; try discriminate.
  assert (Hat : forall i, byte_at e (16 + i) = byte_at ([h0; h1; h2; h3; h4; h5; h6; h7] ++ v ++ z ++ [c0; c1; c2; c3]) i).
  { intros i. rewrite Ew, <- Lg. apply byte_at_app. }
  assert (Eg : g = BZM_BRIDGE_IMAGE_MANIFEST_MAGIC) by (rewrite <- Hm, Ew; symmetry; by apply take_app_length').
  assert (Ebody : take 92 e = g ++ [h0; h1; h2; h3; h4; h5; h6; h7] ++ v ++ z).
  { rewrite Ew. rewrite !app_assoc. apply take_app_length'. rewrite !length_app, Lg, Lv, Lz. cbn. lia. }
  assert (Ev : take n (drop 24 e) = v).
  { rewrite Ew, app_assoc. apply take_drop_middle_app; [by rewrite length_app, Lg|done]. }
  assert (Ez : drop (24 + n) (take 92 e) = z).
  { rewrite Ebody, !app_assoc. apply drop_app_length'. rewrite !length_app, Lg, Lv. done. }
  assert (Ec : read_le32 e 92 = read_le32 [c0; c1; c2; c3] 0).
  { rewrite Ew, !app_assoc. replace 92%nat with (length (((g ++ [h0; h1; h2; h3; h4; h5; h6; h7]) ++ v) ++ z) + 0)%nat.
    - apply read_le32_app.
    - rewrite !length_app, Lg, Lv, Lz. cbn. lia. }
  rewrite Ev in E0. rewrite Ez in E1. rewrite Ec in E2.
  rewrite Ew, !bytes_ok_app in Hb. destruct Hb as (_ & Hbh & Hbv & _ & Hbc).
  unfold bytes_ok in Hbh, Hbc. rewrite !Forall_cons in Hbh. rewrite !Forall_cons in Hbc.
  pose proof (Hat 0%nat) as A0. pose proof (Hat 1%nat) as A1. pose proof (Hat 4%nat) as A4. pose proof (Hat 5%nat) as A5.
  pose proof (Hat 6%nat) as A6. pose proof (Hat 7%nat) as A7. pose proof (Hat 2%nat) as A2. pose proof (Hat 3%nat) as A3.
  cbn [Nat.add app byte_at nth] in A0, A1, A2, A3, A4, A5, A6, A7.
  unfold read_le16 in H4. change (18 + 1)%nat with 19%nat in H4. rewrite A2, A3 in H4.
  apply le16_word in H4; [|tauto..]. apply existsb_false in E0, E1. apply all_zero in E1.
  exists h6, v. split; [tauto|split].
  - split; [unfold BZM_BRIDGE_VERSION_MAX_LENGTH; lia|]. eapply Forall_impl; [exact E0|]. intros b Hx. cbn in Hx. prop_bool. lia.
  - apply le32_word in E2; [|tauto..]. unfold encode_manifest.
    assert (Hbody : manifest_body h6 v = take 92 e).
    { assert (E7 : Z.of_nat (length v) = h7).
      { rewrite Lv. unfold n. rewrite A7. destruct Hbh as (_ & _ & _ & _ & _ & _ & _ & [? _] & _). lia. }
      rewrite Ebody. unfold manifest_body. rewrite <- H4, E7, <- H, <- H5, <- H3, <- H2, A0, A1, A4, A5, <- Eg.
      rewrite E1 at 1. by rewrite Lz, Lv. }
    rewrite Hbody, <- E2. rewrite Ebody. rewrite Ew. by rewrite <- !app_assoc.
Qed.

Lemma length_body minor version : printable version -> length (manifest_body minor version) = 92%nat.
Proof.
  intros [Hv _]. unfold BZM_BRIDGE_VERSION_MAX_LENGTH in Hv. unfold manifest_body.
  rewrite !length_app, length_le_bytes_of, length_replicate. cbn [length BZM_BRIDGE_IMAGE_MANIFEST_MAGIC]. lia.
Qed.

Lemma length_encoded minor version : printable version -> length (encode_manifest minor version) = 96%nat.
Proof. intros Hv. unfold encode_manifest. by rewrite length_app, length_body, length_le_bytes_of. Qed.

Definition manifest_of (offset : nat) (minor : Z) (version : list Z) : bzm_bridge_image_manifest_t :=
  {| manifest_offset := offset; manifest_board := BZM_BRIDGE_IMAGE_TARGET_BOARD_VERSION;
     manifest_major := BZM_BRIDGE_PROTOCOL_MAJOR; manifest_minor := minor;
     manifest_version := version ++ replicate (64 - length version) 0 |}.

(** An encoding passes the checks and is decoded to what it encodes. *)
Lemma check_manifest_complete offset minor version : is_u8 minor -> printable version ->
  check_manifest (encode_manifest minor version) = ESP_OK /\
  decoded_manifest offset (encode_manifest minor version) = manifest_of offset minor version.
Proof.
  intros Hm Hv. pose proof Hv as [Hlen Hprint]. unfold BZM_BRIDGE_VERSION_MAX_LENGTH in Hlen.
  set (e := encode_manifest minor version).
  assert (E23 : byte_at e 23 = Z.of_nat (length version)) by reflexivity.
  assert (Ev : take (length version) (drop 24 e) = version).
  { change (drop 24 e) with ((version ++ replicate (68 - length version) 0) ++ le_bytes_of 4 (manifest_crc32 (manifest_body minor version))).
    rewrite <- app_assoc. apply take_app_length. }
  assert (Eb : take 92 e = manifest_body minor version).
  { apply take_app_length'. symmetry. by apply length_body. }
  assert (Ez : drop (24 + length version) (take 92 e) = replicate (68 - length version) 0).
  { rewrite Eb, <- drop_drop. change (drop 24 (manifest_body minor version)) with (version ++ replicate (68 - length version) 0).
    apply drop_app_length. }
  assert (Hcrc : is_u32 (manifest_crc32 (manifest_body minor version))).
  { apply manifest_crc32_u32. unfold manifest_body. rewrite !bytes_ok_app. split_and!; try apply le_bytes_of_ok;
      try (by apply bytes_ok_eval); [| by apply printable_bytes|by apply Forall_replicate].
    unfold bytes_ok. rewrite !Forall_cons. repeat split; try apply Hm; try lia; try done. }
  assert (Ec : read_le32 e 92 = manifest_crc32 (manifest_body minor version)).
  { replace 92%nat with (length (manifest_body minor version) + 0)%nat by (by rewrite length_body).
    unfold e, encode_manifest. by rewrite read_le32_app, <- (app_nil_r (le_bytes_of 4 _)), le32_encoded. }
  split.
  - unfold check_manifest. change (BZM_BRIDGE_IMAGE_MANIFEST_VERSION_OFFSET - 1)%nat with 23%nat.
    change BZM_BRIDGE_IMAGE_MANIFEST_VERSION_OFFSET with 24%nat. change BZM_BRIDGE_IMAGE_MANIFEST_CRC_OFFSET with 92%nat.
    rewrite E23, Nat2Z.id, Ev, Ez, Ec, Eb.
    assert (Hguard : forall n, (0 < n <= 63)%nat -> (n =? 0)%nat || (BZM_BRIDGE_VERSION_MAX_LENGTH <? n)%nat = false).
    { intros n Hn. unfold BZM_BRIDGE_VERSION_MAX_LENGTH. rewrite (proj2 (Nat.eqb_neq n 0)), (proj2 (Nat.ltb_ge 63 n)) by lia. done. }
    rewrite <- !orb_assoc, Hguard by lia. cbn [orb].
    change (byte_at e 16) with 1. change (byte_at e 17) with 96. change (byte_at e 20) with 1. change (byte_at e 21) with 1.
    change (read_le16 e 18) with 1002.
    assert (Hp : existsb (fun b => (b <? 0x20) || (0x7e <? b)) version = false).
    { clear -Hprint. induction Hprint as [|b l Hb _ IH]; [done|]. cbn. rewrite IH, orb_false_r.
      rewrite (proj2 (Z.ltb_ge b 32)), (proj2 (Z.ltb_ge 126 b)) by lia. done. }
    assert (Hz : forall n, existsb (fun b => negb (b =? 0)) (replicate n 0) = false) by (induction n; [done|cbn; done]).
    rewrite Hp, Hz, (Z.eqb_refl (manifest_crc32 _)). reflexivity.
  - unfold decoded_manifest, manifest_of. change (BZM_BRIDGE_IMAGE_MANIFEST_VERSION_OFFSET - 1)%nat with 23%nat.
    change BZM_BRIDGE_IMAGE_MANIFEST_VERSION_OFFSET with 24%nat. rewrite E23, Nat2Z.id, Ev. reflexivity.
Qed.

(** *** The search *)

Lemma singleton_of (l : list nat) x : NoDup l -> (forall y, y ∈ l <-> y = x) -> l = [x].
Proof.
  intros Hn Hx. destruct l as [|y [|z l]].
  - by destruct (not_elem_of_nil x); apply Hx.
  - f_equal. apply Hx. by left.
  - inversion Hn as [|? ? Hy _]; subst. destruct Hy. assert (y = x) as -> by (apply Hx; by left).
    assert (z = x) as -> by (apply Hx; right; by left). by left.
Qed.

(** The search finds the only place of the magic. *)
Lemma find_manifest_unique image k offset :
  find_manifest image (seq 0 k) None = Some (Some offset) <->
  (offset < k)%nat /\ is_magic image offset /\ forall i, (i < k)%nat -> is_magic image i -> i = offset.
Proof.
  rewrite find_manifest_spec.
  assert (Hin : forall y, y ∈ filter (is_magic image) (seq 0 k) <-> is_magic image y /\ (y < k)%nat).
  { intros y. rewrite list_elem_of_filter, elem_of_seq. split; intros [? ?]; (split; [done|lia]). }
  split.
  - destruct (filter _ _) as [|x [|]] eqn:E; try discriminate. intros [= ->].
    destruct (proj1 (Hin offset) ltac:(by left)) as [Hm Hk]. split_and!; [done|done|]. intros i Hi Hmi.
    assert (i ∈ [offset]) as ?%list_elem_of_singleton by by apply Hin. done.
  - intros (Hk & Hm & Hu). rewrite (singleton_of (filter _ _) offset); [done|apply NoDup_filter, NoDup_seq|].
    intros y. rewrite Hin. split; [intros [? ?]; by apply Hu|by intros ->].
Qed.

Lemma is_magic_app pre rest : take 16 rest = BZM_BRIDGE_IMAGE_MANIFEST_MAGIC -> is_magic (pre ++ rest) (length pre).
Proof. intros H. unfold is_magic. by rewrite drop_app_length. Qed.

(** C37: An image is accepted with a manifest exactly when it holds the encoding of that manifest at
    the only place of the magic that leaves room for one: the schema, the size, the board, the
    kind, the major protocol version, a printable version of 1 to 63 characters, zeros after
    it and the checksum are then all as the build writes them. *)
Theorem manifest_exact (image : list Z) (old m : bzm_bridge_image_manifest_t) :
  bytes_ok image ->
  bzm_bridge_update_validate_manifest (Some image) old = (ESP_OK, m) <->
  exists pre minor version post, image = pre ++ encode_manifest minor version ++ post /\
    is_u8 minor /\ printable version /\ m = manifest_of (length pre) minor version /\
    forall i, (i + 96 <= length image)%nat -> is_magic image i -> i = length pre.
Proof.
  intros Hb. unfold bzm_bridge_update_validate_manifest. change BZM_BRIDGE_IMAGE_MANIFEST_SIZE with 96%nat. split.
  - destruct (_ <? _)%nat eqn:El; [done|]. apply Nat.ltb_ge in El.
    destruct (find_manifest _ _ _) as [[offset|]|] eqn:Ef; [|done..].
    apply find_manifest_unique in Ef as (Hk & Hm & Hu). set (e := take 96 (drop offset image)).
    destruct (check_manifest e) eqn:Ec; try done. intros [= <-].
    assert (Hle : length e = 96%nat) by (unfold e; rewrite length_take, length_drop; lia).
    destruct (check_manifest_sound e) as (minor & version & Hmin & Hv & Ee); [done| | |done|].
    { by apply Forall_take, Forall_drop. }
    { unfold e. rewrite take_take. exact Hm. }
    assert (Hpre : length (take offset image) = offset) by (rewrite length_take; lia).
    exists (take offset image), minor, version, (drop 96 (drop offset image)). rewrite Hpre, <- Ee. split_and!;
      [by unfold e; rewrite !take_drop|apply Hmin..|done| |].
    + rewrite Ee. by apply check_manifest_complete.
    + intros i Hi. apply Hu. lia.
  - intros (pre & minor & version & post & -> & Hmin & Hv & -> & Hu).
    pose proof (length_encoded minor version Hv) as Hle. rewrite !length_app, Hle in *.
    rewrite (proj2 (Nat.ltb_ge _ _)) by lia.
    rewrite (proj2 (find_manifest_unique _ _ (length pre))).
    + rewrite drop_app_length, take_app_length' by done.
      destruct (check_manifest_complete (length pre) minor version Hmin Hv) as [-> ->]. done.
    + split_and!; [lia|by apply is_magic_app|]. intros i Hi. apply Hu. lia.
Qed.

Example manifest_exact_witness :
  let image := replicate 5 0xff ++ encode_manifest 2 [0x31; 0x2e; 0x34] ++ [7] in
  bytes_ok image /\
  bzm_bridge_update_validate_manifest (Some image) zero_manifest = (ESP_OK, manifest_of 5 2 [0x31; 0x2e; 0x34]).
Proof.
  intros image. assert (Hb : bytes_ok image) by (by apply bytes_ok_eval; vm_compute).
  split; [exact Hb|]. apply (manifest_exact image zero_manifest _ Hb).
  exists (replicate 5 0xff), 2, [0x31; 0x2e; 0x34], [7]. split; [reflexivity|]. split; [by split|]. split.
  { split; [unfold BZM_BRIDGE_VERSION_MAX_LENGTH; cbn; lia|by repeat constructor]. }
  split; [reflexivity|]. intros i Hi. apply find_manifest_unique with (k := 7%nat); [vm_compute; reflexivity|].
  change (length image) with 102%nat in Hi. lia.
Defined.

(** ** What an update does to the board

    The services of a board, its statics beside its world, leave a log that they share
    with the debug link. *)

Inductive update_note :=
| NoteHook (hook : nat) (r : bool)
| NoteBegin (r : esp_err_t)
| NoteEnd (r : esp_err_t)
| NoteInfo (r : esp_err_t * option bzm_bridge_info_t).

Record board (W : Type) := mk_board {
  board_hook : nat -> io W bool;
  board_begin : io W esp_err_t;
  board_end : io W esp_err_t;
  board_fan : f32 -> io W esp_err_t;
  board_info : io W (esp_err_t * option bzm_bridge_info_t);
  board_link : swd_link W;
  board_delay : Z -> io W unit;
}.
Arguments mk_board {W}.
Arguments board_hook {W}.
Arguments board_begin {W}.
Arguments board_end {W}.
Arguments board_fan {W}.
Arguments board_info {W}.
Arguments board_link {W}.
Arguments board_delay {W}.

(** An operation of the board in a world that also holds the statics. *)
Definition outer {W A} (m : io W A) : io (updater_t * W) A := fun '(u, w) => let '(a, w) := m w in (a, (u, w)).

Definition outer_link {W} (l : swd_link W) : swd_link (updater_t * W) :=
  {| link_configure := outer (link_configure l); link_claim := outer (link_claim l);
     link_release := outer (link_release l); link_attach := fun t => outer (link_attach l t);
     link_read := fun a => outer (link_read l a); link_write := fun a v => outer (link_write l a v);
     link_cooperate := outer (link_cooperate l) |}.

Definition plain_services {W} (b : board W) : update_services (updater_t * W) :=
  {| call_hook := fun h => outer (board_hook b h); begin_maintenance := outer (board_begin b);
     end_maintenance := outer (board_end b); set_fan_percent := fun p => outer (board_fan b p);
     get_info := outer (board_info b); swd := outer_link (board_link b);
     delay_ms := fun ms => outer (board_delay b ms);
     statics := fun '(u, w) => (u, (u, w)); assign := fun f '(u, w) => (tt, (f u, w)) |}.

Definition traced_services {W} (b : board W) : update_services ((updater_t * W) * list (swd_event update_note)) :=
  let s := plain_services b in
  {| call_hook := fun h => traced (call_hook s h) (fun r => EvNote (NoteHook h r));
     begin_maintenance := traced (begin_maintenance s) (fun r => EvNote (NoteBegin r));
     end_maintenance := traced (end_maintenance s) (fun r => EvNote (NoteEnd r));
     set_fan_percent := fun p => lifted (set_fan_percent s p);
     get_info := traced (get_info s) (fun r => EvNote (NoteInfo r));
     swd := traced_link (swd s);
     delay_ms := fun ms => lifted (delay_ms s ms);
     statics := lifted (statics s); assign := fun f => lifted (assign s f) |}.

(** The board is leased and in maintenance: no access to the debug link without both, the lease taken
    by the hook that acquires it and given back by the one that releases it, each taken
    once and given back, the maintenance first; the query comes after them. *)
Fixpoint guarded (acquire release : option nat) (leased maintained : bool) (events : list (swd_event update_note)) : bool :=
  match events with
  | [] => negb leased && negb maintained
  | EvNote (NoteHook hook r) :: events =>
      negb maintained && bool_decide (Some hook = if leased then release else acquire) &&
      guarded acquire release (negb leased && r) false events
  | EvNote (NoteBegin r) :: events =>
      leased && negb maintained && guarded acquire release true (bool_decide (r = ESP_OK)) events
  | EvNote (NoteEnd _) :: events => leased && maintained && guarded acquire release true false events
  | EvNote (NoteInfo _) :: events => negb leased && negb maintained && guarded acquire release false false events
  | _ :: events => leased && maintained && guarded acquire release true true events
  end.

(** By the hooks that the updater was given. *)
Definition guarded_by (u : updater_t) : list (swd_event update_note) -> bool :=
  guarded (MAINTENANCE_ACQUIRE u) (MAINTENANCE_RELEASE u) false false.

Section board.
Context {W : Type} (b : board W) `{!LinkErrors (board_link b)}.
Abbreviation event := (swd_event update_note).
Abbreviation world := ((updater_t * W) * list event)%type.
Abbreviation ts := (traced_services b).

(** [from u m post]: run with the statics [u], [m] ends with a result, statics and events that satisfy [post]. *)
Definition from {A} (u : updater_t) (m : io world A) (post : A -> updater_t -> list event -> Prop) : Prop :=
  forall w log, exists a u' w' e, m ((u, w), log) = (a, ((u', w'), log ++ e)) /\ post a u' e.

Lemma from_ret {A} u (a : A) (post : A -> updater_t -> list event -> Prop) : post a u [] -> from u (io_ret a) post.
Proof. intros H w log. exists a, u, w, []. by rewrite app_nil_r. Qed.
Lemma from_bind {A B} u (m : io world A) (k : A -> io world B) post :
  from u m (fun a u1 e1 => from u1 (k a) (fun r u2 e2 => post r u2 (e1 ++ e2))) -> from u (io_bind m k) post.
Proof.
  intros Hm w log. destruct (Hm w log) as (a & u1 & w1 & e1 & E1 & Hk).
  destruct (Hk w1 (log ++ e1)) as (r & u2 & w2 & e2 & E2 & Hr). exists r, u2, w2, (e1 ++ e2).
  unfold io_bind. rewrite E1. cbn. by rewrite app_assoc.
Qed.
Lemma from_mono {A} u (m : io world A) (p q : A -> updater_t -> list event -> Prop) :
  from u m p -> (forall a u' e, p a u' e -> q a u' e) -> from u m q.
Proof. intros Hm Hpq w log. destruct (Hm w log) as (a & u' & w' & e & E & H). exists a, u', w', e. auto. Qed.
Lemma from_statics u post : post u u [] -> from u (statics ts) post.
Proof. intros H w log. exists u, u, w, []. by rewrite app_nil_r. Qed.
Lemma from_assign u f post : post tt (f u) [] -> from u (assign ts f) post.
Proof. intros H w log. exists tt, (f u), w, []. by rewrite app_nil_r. Qed.
Lemma from_noted {A} u (m : io W A) ev (post : A -> updater_t -> list event -> Prop) :
  (forall a, post a u [ev a]) -> from u (traced (outer m) ev) post.
Proof. intros H w log. unfold traced, outer. destruct (m w) as [a w']. by exists a, u, w', [ev a]. Qed.
Lemma from_silent {A} u (m : io W A) (post : A -> updater_t -> list event -> Prop) :
  (forall a, post a u []) -> from u (lifted (outer m)) post.
Proof. intros H w log. unfold lifted, outer. destruct (m w) as [a w']. exists a, u, w', []. by rewrite app_nil_r. Qed.

#[export] Instance outer_errors : LinkErrors (outer_link (board_link b)).
Proof.
  assert (H : forall A (m : attempt esp_err_t W A), sound m -> sound (outer m : attempt esp_err_t (updater_t * W) A)).
  { intros A m Hm [u w]. specialize (Hm w). unfold outer. by destruct (m w). }
  split; intros; apply H; [apply configure_sound|apply attach_sound|apply read_sound|apply write_sound].
Qed.

(** Only the progress of the status changes while the flash is programmed. *)
Definition progressed (u u' : updater_t) : Prop :=
  exists state percent, u' = u <| UPDATE_STATUS := (UPDATE_STATUS u) <| update_state := state; progress_percent := percent |> |>.
Definition world_progressed (v v' : world) : Prop := progressed (fst (fst v)) (fst (fst v')).

Lemma progressed_refl u : progressed u u.
Proof. destruct u as [s]. destruct s as [s p]. by exists s, p. Qed.

#[export] Instance progressed_preorder : PreOrder world_progressed.
Proof.
  split.
  - intros [[u w] log]. apply progressed_refl.
  - intros [[u1 ?] ?] [[u2 ?] ?] [[u3 ?] ?] (s1 & p1 & E1) (s2 & p2 & E2). cbn in *. subst. by exists s2, p2.
Qed.

#[export] Instance traced_respects : LinkRespects world_progressed (swd ts).
Proof.
  assert (H : forall A (m : io W A) (ev : A -> event), respects world_progressed (traced (outer m) ev)).
  { intros A m ev [[u w] log]. unfold traced, outer. destruct (m w). apply progressed_refl. }
  assert (H' : forall A (m : io W A), respects world_progressed (lifted (E := event) (outer m))).
  { intros A m [[u w] log]. unfold lifted, outer. destruct (m w). apply progressed_refl. }
  split; intros; [apply H..|apply H'].
Qed.

(** What programming the flash leaves of the statics, and its log. *)
Lemma from_flash u image : from u (production_flash ts image (bridge_flash_progress (Some (production_report ts)))) (fun err u' e =>
  progressed u u' /\ bracketed false e = true /\
  (err = ESP_OK -> exists before proof, image_proved image proof /\
     e = before ++ proof ++ [EvWrite SWD_AIRCR_ADDR RESET_VALUE (inr tt); EvRelease])).
Proof.
  intros w log. unfold production_flash.
  set (progress := bridge_flash_progress (Some (production_report ts))).
  assert (Hr : respects world_progressed (bzm_bridge_swd_flash (swd ts) (Some image) (Some progress))).
  { apply respects_flash; [exact _..|]. intros p phase completed total [= <-] [[v w0] log0].
    by eexists _, _. }
  pose proof (swd_flash_proves_image (N := update_note) (outer_link (board_link b)) (Some image)
    (Some (bridge_flash_progress (Some (production_report (plain_services b)))))) as He.
  specialize (Hr ((u, w), log)).
  destruct (He (u, w) log) as (err & [u' w'] & e & E & Hb & Hok & _).
  change (bzm_bridge_swd_flash _ _ _) with (bzm_bridge_swd_flash (swd ts) (Some image) (Some progress)) in E.
  rewrite E in Hr. exists err, u', w', e. split; [done|]. split; [exact Hr|]. split; [done|].
  intros ->. destruct (Hok eq_refl) as (bytes & before & proof & [= <-] & Hp & He'). by exists before, proof.
Qed.

(** *** The stages of an update *)

Ltac from_step :=
  lazymatch goal with
  | |- from _ (io_ret _) _ => apply from_ret
  | |- from _ (io_bind _ _) _ => apply from_bind
  | |- from _ (statics _) _ => apply from_statics
  | |- from _ (assign _ _) _ => apply from_assign
  | |- from _ (update_status _ _) _ => apply from_assign
  | |- from _ (call_hook _ _) _ => apply from_noted; intros ?
  | |- from _ (begin_maintenance _) _ => apply from_noted; intros ?
  | |- from _ (end_maintenance _) _ => apply from_noted; intros ?
  | |- from _ (get_info _) _ => apply from_noted; intros ?
  | |- from _ (set_fan_percent _ _) _ => apply from_silent; intros ?
  | |- from _ (delay_ms _ _) _ => apply from_silent; intros ?
  | |- from _ (if ?c then _ else _) _ => let E := fresh "E" in destruct c eqn:E
  | |- from _ (match ?x with _ => _ end) _ => let E := fresh "E" in destruct x eqn:E
  end; cbn [fst snd].

Lemma guarded_bracketed acquire release c e rest :
  bracketed c e = true -> guarded acquire release true true (e ++ rest) = guarded acquire release true true rest.
Proof.
  revert c. induction e as [|x e IH]; intros c H; [done|].
  destruct x; cbn [bracketed] in H; try apply andb_true_iff in H as [_ H]; cbn [app guarded andb]; eauto; done.
Qed.

(** Neither the lease nor the maintenance is held. *)
Definition clear (u : updater_t) : Prop := maintenance_entered u = false /\ supervisor_lease_entered u = false.

Lemma from_prepare u : clear u -> from u (production_prepare ts) (fun err u' e =>
  (err <> ESP_OK /\ clear u' /\ guarded_by u e = true) \/
  (err = ESP_OK /\ exists acquire release, MAINTENANCE_ACQUIRE u = Some acquire /\ MAINTENANCE_RELEASE u = Some release /\
     u' = u <| mining_paused := true; supervisor_lease_entered := true; maintenance_entered := true |> /\
     e = [EvNote (NoteHook acquire true); EvNote (NoteBegin ESP_OK)])).
Proof.
  intros [Hm Hl]. unfold production_prepare. do 4 from_step.
  destruct (MAINTENANCE_ACQUIRE u) as [acquire|] eqn:Ea, (MAINTENANCE_RELEASE u) as [release|] eqn:Er;
    change (MAINTENANCE_ACQUIRE (_ <| mining_paused := true |>)) with (MAINTENANCE_ACQUIRE u); rewrite Ea;
    change (MAINTENANCE_RELEASE (_ <| mining_paused := true |>)) with (MAINTENANCE_RELEASE u); rewrite ?Er;
    try (apply from_ret; left; split_and!; done).
  do 2 from_step. destruct a; cbn [negb].
  2: { apply from_ret. left. split_and!; [done..|]. unfold guarded_by. rewrite Ea. cbn. by rewrite bool_decide_true. }
  do 4 from_step. case_bool_decide as Eb; cbn [negb].
  - subst a. do 3 from_step. right. split; [done|]. by exists acquire, release.
  - do 5 from_step. left. split_and!; [done|done|]. unfold guarded_by. rewrite Ea, Er. cbn.
    rewrite !(bool_decide_true (Some _ = Some _)) by done. by rewrite bool_decide_false.
Qed.

Lemma from_restore u release : MAINTENANCE_RELEASE u = Some release ->
  maintenance_entered u = true -> supervisor_lease_entered u = true ->
  from u (production_restore ts) (fun err u' e => clear u' /\ MAINTENANCE_RELEASE u' = Some release /\
    exists ended released, e = [EvNote (NoteEnd ended); EvNote (NoteHook release released)] /\
      (err = ESP_OK -> ended = ESP_OK /\ released = true)).
Proof.
  intros Hr Hm Hl. unfold production_restore, leave_maintenance. do 3 from_step. rewrite Hm. do 6 from_step.
  assert (Hlease : forall v err ended e0, MAINTENANCE_RELEASE v = Some release -> maintenance_entered v = false ->
    supervisor_lease_entered v = true -> (err = ESP_OK -> ended = ESP_OK) -> e0 = [EvNote (NoteEnd ended)] ->
    from v (leave_lease ts err) (fun err u' e => clear u' /\ MAINTENANCE_RELEASE u' = Some release /\
      exists ended released, e0 ++ e = [EvNote (NoteEnd ended); EvNote (NoteHook release released)] /\
        (err = ESP_OK -> ended = ESP_OK /\ released = true))).
  { intros v err ended e0 Hr' Hm' Hl' He ->. unfold leave_lease. do 2 from_step. rewrite Hl', Hr'. do 5 from_step.
    split_and!; [done|done|]. exists ended, a1. split; [done|]. destruct a1; cbn [negb andb]; [auto|].
    case_bool_decide; [done|]. by intros. }
  case_bool_decide as Ea; repeat from_step;
    (eapply from_mono; [by apply (Hlease _ _ a0 [EvNote (NoteEnd a0)])|]; intros err u' e H; exact H).
Qed.

(** The answers that the last query gives. *)
Definition queried (answer : esp_err_t * option bzm_bridge_info_t) : esp_err_t * option bzm_bridge_info_t :=
  if bool_decide (fst answer = ESP_OK) then (ESP_OK, snd answer)
  else if negb (bool_decide (fst answer = ESP_ERR_NOT_SUPPORTED)) then (fst answer, None) else (ESP_OK, None).

Lemma from_query u : from u (query_installed (production_query ts)) (fun r u' e =>
  u' = u /\ exists answer, e = [EvNote (NoteInfo answer)] /\ r = queried answer).
Proof.
  unfold query_installed, production_query, queried. apply from_bind, from_noted. intros [err info]. cbn [fst snd].
  repeat (case_bool_decide || cbn [negb]); (apply from_ret; split; [done|]; eexists; split; [reflexivity|]; cbn [fst snd];
    by repeat case_bool_decide).
Qed.

(** A complete run: the image proved and the processor reset, the maintenance and the lease given
    back, the query answered. *)
Definition delivered (image : list Z) (release : nat) (answer : esp_err_t * option bzm_bridge_info_t) (e : list event) : Prop :=
  exists before proof, image_proved image proof /\
    e = before ++ proof ++ [EvWrite SWD_AIRCR_ADDR RESET_VALUE (inr tt); EvRelease; EvNote (NoteEnd ESP_OK);
      EvNote (NoteHook release true); EvNote (NoteInfo answer)].

Lemma from_run u image : clear u ->
  from u (bzm_bridge_update_run (Some image) (Some (PRODUCTION_OPS ts)) (Some (production_report ts))) (fun r u' e =>
    clear u' /\ guarded_by u e = true /\
    (fst r = ESP_OK -> exists release answer, MAINTENANCE_RELEASE u = Some release /\ delivered image release answer e /\
       r = queried answer)).
Proof.
  intros Hu. cbn [bzm_bridge_update_run PRODUCTION_OPS].
  destruct (bzm_bridge_update_validate_image (Some image)); try (apply from_ret; by split_and!).
  from_step. unfold report_to at 1, production_report at 1, set_status. from_step.
  apply from_bind. eapply from_mono; [by apply from_prepare|]. intros err u1 e1 [(Herr & Hc & Hg)|(-> & acquire & release & Ha & Hr & -> & ->)].
  { rewrite bool_decide_false by done. cbn [negb]. apply from_ret. split_and!; [done|by rewrite app_nil_r|done]. }
  rewrite bool_decide_true by done. cbn [negb]. apply from_bind. eapply from_mono; [apply from_flash|].
  intros err u2 e2 ((state & percent & ->) & Hb & Hok). apply from_bind. eapply from_mono; [by apply (from_restore _ release)|].
  intros rerr u3 e3 (Hc & Hr3 & ended & released & -> & Hrest).
  assert (Hguard : forall rest, guarded_by u
    ([EvNote (NoteHook acquire true); EvNote (NoteBegin ESP_OK)] ++ e2 ++ [EvNote (NoteEnd ended); EvNote (NoteHook release released)] ++ rest) =
    guarded_by u rest).
  { intros rest. unfold guarded_by. change (MAINTENANCE_ACQUIRE u = Some acquire) in Ha.
    change (MAINTENANCE_RELEASE u = Some release) in Hr. rewrite Ha, Hr. cbn [app guarded negb andb].
    rewrite !(bool_decide_true (_ = _)) by done. rewrite (guarded_bracketed _ _ false) by done. cbn [app guarded negb andb].
    by rewrite bool_decide_true. }
  set (final := if bool_decide (err = ESP_OK) then rerr else err).
  destruct (decide (final = ESP_OK)) as [Hf|Hf].
  2: { rewrite bool_decide_false by done. cbn [negb]. apply from_ret. split_and!; [done| |done].
       specialize (Hguard []). by rewrite !app_nil_r in *. }
  rewrite bool_decide_true by done. cbn [negb]. subst final. case_bool_decide as Eo; [|done].
  destruct (Hrest Hf) as [-> ->]. destruct (Hok Eo) as (before & proof & Hp & ->).
  apply from_bind. unfold report_to, production_report, set_status. from_step.
  eapply from_mono; [apply from_query|]. intros r u4 e4 (-> & answer & -> & ->). split; [done|]. split.
  - rewrite app_nil_l. by rewrite Hguard.
  - intros _. exists release, answer. split; [done|]. split; [|done].
    exists ([EvNote (NoteHook acquire true); EvNote (NoteBegin ESP_OK)] ++ before), proof. split; [done|].
    by rewrite <- !app_assoc.
Qed.

(** C25: Whatever the board answers, an update leaves it as it found it: the debug link is used only with
    the supervisor's lease, granted by the hook that acquires it, and with the bridge's maintenance;
    on every path before the worker ends the maintenance is given back and then the lease, by the hook that
    releases it, and that hook is called only for a lease that was granted. The status COMPLETE means that every word of the image was read back from
    the flash and the processor was then reset, that both were given back without error, and, for an image with
    a manifest, that the firmware that then answered is the one the manifest names. *)
Theorem bridge_update_guarded (esp_err_to_name : esp_err_t -> string) (u : updater_t) (update : production_update_t) :
  clear u ->
  from u (update_task esp_err_to_name ts update) (fun _ u' e =>
    guarded_by u e = true /\ clear u' /\ update_running (UPDATE_STATUS u') = false /\
    (update_state (UPDATE_STATUS u') = BZM_BRIDGE_UPDATE_FAILED \/
     update_state (UPDATE_STATUS u') = BZM_BRIDGE_UPDATE_COMPLETE /\
     exists release answer, MAINTENANCE_RELEASE u = Some release /\ delivered (production_image update) release answer e /\
       (production_validated update = true ->
        bzm_bridge_update_manifest_matches_info (Some (production_manifest update)) (snd (queried answer)) = true))).
Proof.
  intros Hu. unfold update_task. apply from_bind. eapply from_mono; [by apply from_run|].
  intros [err info] u1 e (Hc & Hg & Hok). cbn [fst snd] in *. unfold update_status. apply from_assign. rewrite app_nil_r.
  split_and!; [done|apply Hc..| |].
  { by destruct info; case_bool_decide. }
  set (bad := bool_decide (err = ESP_OK) && _ && _).
  destruct bad eqn:Eb; [left; by destruct info|].
  destruct (decide (err = ESP_OK)) as [He|He].
  2: { left. rewrite bool_decide_false by done. by destruct info. }
  right. rewrite bool_decide_true by done. split; [by destruct info|].
  destruct (Hok He) as (release & answer & Hr & Hd & Hq). exists release, answer. split_and!; [done|done|].
  intros Hv. subst bad. rewrite bool_decide_true in Eb by done. rewrite Hv in Eb. cbn [andb] in Eb.
  apply orb_false_iff in Eb as [_ Eb]. apply negb_false_iff in Eb. by rewrite <- Hq.
Qed.
End board.

(** *** A board with the processor model of FlashStub.v *)

#[export] Existing Instance Target.plain_flash.

#[export] Instance target_errors : LinkErrors (Target.link Target.plain_rom 37).
Proof.
  split; intros; cbn [link_configure link_attach link_read link_write Target.link]; [done|done| |].
  - intros t. unfold Target.mem_read. repeat case_match; cbn; congruence.
  - intros t. unfold Target.mem_write. repeat case_match; cbn; congruence.
Qed.

Definition example_version : list Z := [0x31; 0x2e; 0x34].
Definition example_info : bzm_bridge_info_t :=
  {| info_schema_version := BZM_BRIDGE_INFO_SCHEMA_VERSION; protocol_major := BZM_BRIDGE_PROTOCOL_MAJOR;
     protocol_minor := 2; info_version := example_version |}.
Definition example_board : board Target.target :=
  {| board_hook := fun _ => io_ret true; board_begin := io_ret ESP_OK; board_end := io_ret ESP_OK;
     board_fan := fun _ => io_ret ESP_OK; board_info := io_ret (ESP_OK, Some example_info);
     board_link := Target.link Target.plain_rom 37; board_delay := fun _ => io_ret tt |}.

(** A boot block, a vector table, and a manifest. *)
Definition example_image : list Z :=
  replicate 256 0x5a ++ le_bytes_of 4 0x20042000 ++ le_bytes_of 4 0x10000105 ++
  encode_manifest 2 example_version.
Definition example_update : production_update_t :=
  {| production_image := example_image; production_validated := true; production_force := false;
     production_manifest := manifest_of 264 2 example_version |}.
Definition hooked : updater_t := mk_updater idle_status (Some 1%nat) (Some 2%nat) false false false.

Example bridge_update_guarded_witness :
  from hooked (update_task (fun _ => "error") (traced_services example_board) example_update) (fun _ u' e =>
    guarded_by hooked e = true /\ clear u' /\ update_running (UPDATE_STATUS u') = false /\
    (update_state (UPDATE_STATUS u') = BZM_BRIDGE_UPDATE_FAILED \/
     update_state (UPDATE_STATUS u') = BZM_BRIDGE_UPDATE_COMPLETE /\
     exists release answer, MAINTENANCE_RELEASE hooked = Some release /\ delivered example_image release answer e /\
       (true = true -> bzm_bridge_update_manifest_matches_info (Some (manifest_of 264 2 example_version))
                         (snd (queried answer)) = true))).
Proof. apply (bridge_update_guarded example_board (fun _ => "error") hooked example_update). by split. Defined.

(** The image is accepted with its manifest, and the run of the worker is evaluated: complete,
    with the version that the firmware told. *)
Example example_update_completes :
  bzm_bridge_update_validate_upload (Some example_image) false zero_manifest =
    (ESP_OK, true, manifest_of 264 2 example_version) /\
  let '(_, (u, _)) := update_task (fun _ => "error") (plain_services example_board) example_update (hooked, Target.powered) in
  (update_state (UPDATE_STATUS u), progress_percent (UPDATE_STATUS u), current_version (UPDATE_STATUS u)) =
  (BZM_BRIDGE_UPDATE_COMPLETE, 100, example_version).
Proof. split; vm_compute; reflexivity. Qed.
