(* ===== verification/Power.v ===== *)
(** * The core rail

    Models src/components/asic/bzm_power.c with its header - the regulator profile, the
    voltages that are allowed, the voltage curve and its steps, and the sequences that
    switch the rail over the board's operations, which are parameters - and
    bzm_tps546_verify.c, the comparison of the regulator's registers.  A [NULL] entry
    of the operation table is [None]; an out-parameter of a function that may reject is an
    [option].  The texts of the comparison are left out, what they name is kept. *)

From S2P Require Import Prelude Trace Float32 Frequency.
Open Scope Z_scope.
Open Scope io_scope.

(** ** Data *)

Definition BZM_TPS546_FIXED_VOUT_V : f32 := f32_lit 28 10.
Definition BZM_TPS546_MIN_VOUT_V : f32 := f32_lit 21 10.
Definition BZM_TPS546_MAX_VOUT_V : f32 := f32_lit 32 10.
Definition BZM_TPS546_VOUT_TOLERANCE_V : f32 := f32_lit 1 1000.
Definition BZM_TPS546_VOUT_READBACK_TOLERANCE_V : f32 := f32_lit 2 1000.
Definition BZM_TPS546_VOUT_OPERATING_TOLERANCE_V : f32 := f32_lit 15 100.
Definition BZM_TUNING_VOLTAGE_STEP_V : f32 := f32_lit 5 100.
Definition BZM_TUNING_MAX_VOLTAGE_STEPS : Z := 9.
Definition BZM_TUNING_BASE_VOLTAGE_MV : Z := 2800.
Definition BZM_TUNING_CALIBRATION_VOLTAGE_MV : Z := 50.
Definition BZM_TUNING_AMBIENT_OFFSET_MV : Z := 50.
Definition BZM_TUNING_CALIBRATION_FREQUENCY_MHZ : f32 := f32_of_Z 25.
Definition BZM_TUNING_LOW_FREQUENCY_MHZ : f32 := f32_of_Z 1000.
Definition BZM_TUNING_BALANCED_FREQUENCY_MHZ : f32 := f32_of_Z 1150.
Definition BZM_TUNING_HIGH_FREQUENCY_MHZ : f32 := f32_of_Z 1200.
Definition BZM_TUNING_HIGH_2_FREQUENCY_MHZ : f32 := f32_of_Z 1425.

Record bzm_tps546_profile_t := mk_tps546_profile {
  phase : Z;
  smbalert_mask : list Z;
  frequency_switch_khz : Z;
  sync_config : Z;
  stack_config : Z;
  interleave : Z;
  misc_options : Z;
  pin_detect_override : Z;
  compensation_config : list Z;
  power_stage_config : Z;
  telemetry_config : list Z;
  profile_vout_command : f32;
  vout_trim : Z;
  vout_max : f32;
  vout_margin_high : f32;
  vout_margin_low : f32;
  vout_transition_rate : Z;
  vout_scale_loop : f32;
  vout_min : f32;
  vin_on : f32;
  vin_off : f32;
  iout_cal_gain : Z;
  iout_cal_offset : Z;
  vout_ov_fault_limit : f32;
  vout_ov_fault_response : Z;
  vout_ov_warn_limit : f32;
  vout_uv_warn_limit : f32;
  vout_uv_fault_limit : f32;
  vout_uv_fault_response : Z;
  iout_oc_fault_limit : f32;
  iout_oc_fault_response : Z;
  iout_oc_warn_limit : f32;
  ot_fault_limit : Z;
  ot_fault_response : Z;
  ot_warn_limit : Z;
  vin_ov_fault_limit : f32;
  vin_ov_fault_response : Z;
  vin_uv_warn_limit : f32;
  ton_delay : Z;
  ton_rise : Z;
  ton_max_fault_limit : Z;
  ton_max_fault_response : Z;
  toff_delay : Z;
  toff_fall : Z;
}.

Definition BZM_TPS546_BIRDS_PROFILE : bzm_tps546_profile_t := {|
  phase := 0xff;
  smbalert_mask := [0x0200; 0x1800; 0xe800; 0x0000; 0x0000; 0x0100; 0x4200];
  frequency_switch_khz := 325;
  sync_config := 0x00;
  stack_config := 0x0000;
  interleave := 0x0010;
  misc_options := 0x0000;
  pin_detect_override := 0x0000;
  compensation_config := [0x13; 0x11; 0x8c; 0x1d; 0x06];
  power_stage_config := 0x70;
  telemetry_config := [0x03; 0x03; 0x03; 0x03; 0x03; 0x00];
  profile_vout_command := BZM_TPS546_FIXED_VOUT_V;
  vout_trim := 0x0000;
  vout_max := BZM_TPS546_MAX_VOUT_V;
  vout_margin_high := f32_lit 11 10;
  vout_margin_low := f32_lit 90 100;
  vout_transition_rate := 0xe010;
  vout_scale_loop := f32_lit 125 1000;
  vout_min := BZM_TPS546_MIN_VOUT_V;
  vin_on := f32_of_Z 11;
  vin_off := f32_lit 105 10;
  iout_cal_gain := 0xc880;
  iout_cal_offset := 0xe000;
  vout_ov_fault_limit := f32_lit 125 100;
  vout_ov_fault_response := 0xbd;
  vout_ov_warn_limit := f32_lit 116 100;
  vout_uv_warn_limit := f32_lit 90 100;
  vout_uv_fault_limit := f32_lit 75 100;
  vout_uv_fault_response := 0xbe;
  iout_oc_fault_limit := f32_of_Z 55;
  iout_oc_fault_response := 0xc0;
  iout_oc_warn_limit := f32_of_Z 50;
  ot_fault_limit := 145;
  ot_fault_response := 0xff;
  ot_warn_limit := 105;
  vin_ov_fault_limit := f32_of_Z 14;
  vin_ov_fault_response := 0xb7;
  vin_uv_warn_limit := f32_of_Z 11;
  ton_delay := 0;
  ton_rise := 3;
  ton_max_fault_limit := 0;
  ton_max_fault_response := 0x3b;
  toff_delay := 0;
  toff_fall := 0;
|}.

(** ** Voltages *)

Definition bzm_power_voltage_is_allowed (volts : f32) : bool :=
  is_finite volts &&
  (feq volts (f32_of_Z 0) || fle (fabs (fsub volts BZM_TPS546_FIXED_VOUT_V)) BZM_TPS546_VOUT_TOLERANCE_V).

Definition bzm_power_runtime_voltage_is_allowed (volts : f32) : bool :=
  is_finite volts && fle (vout_min BZM_TPS546_BIRDS_PROFILE) volts && fle volts (vout_max BZM_TPS546_BIRDS_PROFILE).

Definition bzm_power_resolve_user_voltage (millivolts : Z) : option f32 :=
  let requested_v := fdiv (f32_of_Z millivolts) (f32_of_Z 1000) in
  if negb (bzm_power_runtime_voltage_is_allowed requested_v) then None else Some requested_v.

(** The steps of a frequency above [origin], each of the calibration voltage. *)
Definition calibration_mv (frequency_mhz origin : f32) : f32 :=
  fmul (fdiv (fsub frequency_mhz origin) BZM_TUNING_CALIBRATION_FREQUENCY_MHZ) (f32_of_Z BZM_TUNING_CALIBRATION_VOLTAGE_MV).

Definition curve_mv (frequency_mhz : f32) : f32 :=
  let base := f32_of_Z BZM_TUNING_BASE_VOLTAGE_MV in
  if fle BZM_TUNING_HIGH_2_FREQUENCY_MHZ frequency_mhz then
    fadd base (fmul (calibration_mv frequency_mhz BZM_TUNING_HIGH_2_FREQUENCY_MHZ) (f32_lit 3 2))
  else if fle BZM_TUNING_HIGH_FREQUENCY_MHZ frequency_mhz then
    fadd base (fmul (calibration_mv frequency_mhz BZM_TUNING_HIGH_FREQUENCY_MHZ) (f32_lit 3 2))
  else if fle BZM_TUNING_BALANCED_FREQUENCY_MHZ frequency_mhz then
    fadd base (calibration_mv frequency_mhz BZM_TUNING_BALANCED_FREQUENCY_MHZ)
  else if fle BZM_TUNING_LOW_FREQUENCY_MHZ frequency_mhz then
    fadd base (calibration_mv frequency_mhz BZM_TUNING_LOW_FREQUENCY_MHZ)
  else fadd base (fdiv (calibration_mv frequency_mhz BZM_TUNING_LOW_FREQUENCY_MHZ) (f32_of_Z 2)).

Definition bzm_power_frequency_target_voltage (frequency_mhz : f32) : option f32 :=
  if negb (bzm_frequency_request_is_valid frequency_mhz) then None
  else
    let target_mv_truncated := u32 (ftrunc (curve_mv frequency_mhz)) in
    let resolved_v := fdiv (f32_of_Z (u32 (target_mv_truncated - BZM_TUNING_AMBIENT_OFFSET_MV))) (f32_of_Z 1000) in
    let resolved_v := fminf resolved_v (vout_max BZM_TPS546_BIRDS_PROFILE) in
    if negb (bzm_power_runtime_voltage_is_allowed resolved_v) then None else Some resolved_v.

Definition bzm_power_tuning_next_voltage (initial_voltage_v current_voltage_v : f32) : option f32 :=
  if negb (bzm_power_runtime_voltage_is_allowed initial_voltage_v) ||
     negb (bzm_power_runtime_voltage_is_allowed current_voltage_v) then None
  else
    let adaptive_limit_v := fminf (vout_max BZM_TPS546_BIRDS_PROFILE)
      (fadd initial_voltage_v (fmul BZM_TUNING_VOLTAGE_STEP_V (f32_of_Z BZM_TUNING_MAX_VOLTAGE_STEPS))) in
    if fle (fsub adaptive_limit_v BZM_TPS546_VOUT_READBACK_TOLERANCE_V) current_voltage_v then None
    else
      let candidate_v := fminf adaptive_limit_v (fadd current_voltage_v BZM_TUNING_VOLTAGE_STEP_V) in
      if negb (bzm_power_runtime_voltage_is_allowed candidate_v) then None else Some candidate_v.

(** ** The rail *)

Record bzm_power_ops_t (W : Type) := mk_power_ops {
  op_set_5v_enabled : option (bool -> io W esp_err_t);
  op_set_regulator_enabled : option (bool -> io W esp_err_t);
  op_set_vout : option (f32 -> io W esp_err_t);
  op_validate_power : option (f32 -> io W esp_err_t);
  op_delay_ms : option (Z -> io W unit);
}.
Arguments mk_power_ops {W}.
Arguments op_set_5v_enabled {W}.
Arguments op_set_regulator_enabled {W}.
Arguments op_set_vout {W}.
Arguments op_validate_power {W}.
Arguments op_delay_ms {W}.

(** The entries of a table without [NULL]. *)
Record power_calls (W : Type) := mk_power_calls {
  set_5v_enabled : bool -> io W esp_err_t;
  set_regulator_enabled : bool -> io W esp_err_t;
  set_vout : f32 -> io W esp_err_t;
  validate_power : f32 -> io W esp_err_t;
  rail_delay_ms : Z -> io W unit;
}.
Arguments mk_power_calls {W}.
Arguments set_5v_enabled {W}.
Arguments set_regulator_enabled {W}.
Arguments set_vout {W}.
Arguments validate_power {W}.
Arguments rail_delay_ms {W}.

Definition retain_first_error (candidate result : esp_err_t) : esp_err_t :=
  if bool_decide (result = ESP_OK) && negb (bool_decide (candidate = ESP_OK)) then candidate else result.

Section rail.
Context {W : Type}.

Definition valid_ops (ops : option (bzm_power_ops_t W)) : option (power_calls W) :=
  match ops with
  | Some (mk_power_ops (Some set_5v) (Some set_regulator) (Some set_vout) (Some validate) (Some delay)) =>
      Some (mk_power_calls set_5v set_regulator set_vout validate delay)
  | _ => None
  end.

Definition power_down (ops : power_calls W) : io W esp_err_t :=
  let! first := set_5v_enabled ops false in
  let! second := set_vout ops (f32_of_Z 0) in
  let! third := set_regulator_enabled ops false in
  io_ret (retain_first_error third (retain_first_error second (retain_first_error first ESP_OK))).

(** [if (err == ESP_OK) err = ...;] *)
Definition if_ok (err : esp_err_t) (m : io W esp_err_t) : io W esp_err_t :=
  if bool_decide (err = ESP_OK) then m else io_ret err.

(** The end of every sequence: an error switches everything off. *)
Definition or_power_down (ops : power_calls W) (err : esp_err_t) : io W esp_err_t :=
  if negb (bool_decide (err = ESP_OK)) then let! _ := power_down ops in io_ret err else io_ret err.

Definition rail_enabled (ops : power_calls W) (enabled : bool) : io W esp_err_t :=
  if negb enabled then power_down ops
  else
    let! err := set_5v_enabled ops false in
    let! err := if_ok err (set_regulator_enabled ops true) in
    let! err := if_ok err
      (let! _ := rail_delay_ms ops 100 in set_vout ops (profile_vout_command BZM_TPS546_BIRDS_PROFILE)) in
    let! err := if_ok err
      (let! _ := rail_delay_ms ops 100 in validate_power ops (profile_vout_command BZM_TPS546_BIRDS_PROFILE)) in
    or_power_down ops err.

Definition bzm_power_set_rail_enabled (ops : option (bzm_power_ops_t W)) (enabled : bool) : io W esp_err_t :=
  match valid_ops ops with
  | None => io_ret ESP_ERR_INVALID_ARG
  | Some ops => rail_enabled ops enabled
  end.

Definition bzm_power_set_runtime_voltage (ops : option (bzm_power_ops_t W)) (volts : f32) : io W esp_err_t :=
  match valid_ops ops with
  | None => io_ret ESP_ERR_INVALID_ARG
  | Some ops =>
      if negb (bzm_power_runtime_voltage_is_allowed volts) then io_ret ESP_ERR_INVALID_ARG
      else
        let! err := set_vout ops volts in
        let! err := if_ok err (let! _ := rail_delay_ms ops 100 in validate_power ops volts) in
        or_power_down ops err
  end.

Definition bzm_power_set_enabled (ops : option (bzm_power_ops_t W)) (enabled : bool) : io W esp_err_t :=
  match valid_ops ops with
  | None => io_ret ESP_ERR_INVALID_ARG
  | Some calls =>
      if negb enabled then bzm_power_set_rail_enabled ops false
      else
        let! err := bzm_power_set_rail_enabled ops true in
        if negb (bool_decide (err = ESP_OK)) then io_ret err
        else
          let! err := set_5v_enabled calls true in
          or_power_down calls err
  end.
End rail.

(** ** The regulator's registers *)

Record bzm_tps546_verify_field_t := mk_verify_field {
  field_name : option string;
  expected : option (list Z);
  observed : option (list Z);
}.

(** What the text of the comparison names. *)
Inductive verify_detail :=
| INVALID_ARGUMENT
| LENGTH_DIFFERS (name : string) (expected_len observed_len : nat)
| VALUE_DIFFERS (name : string) (expected observed : Z)
| BYTE_DIFFERS (name : string) (index : nat) (expected observed : Z)
| BZM_TPS546_VERIFY_GOOD_DETAIL.

Definition valid_field (f : bzm_tps546_verify_field_t) : option (string * list Z * list Z) :=
  match field_name f, expected f, observed f with
  | Some name, Some e, Some o =>
      if negb (String.eqb name EmptyString) && (0 <? length e)%nat && (0 <? length o)%nat then Some (name, e, o) else None
  | _, _, _ => None
  end.

(** The index of the first byte that differs, or the length. *)
Fixpoint byte_index (e o : list Z) : nat :=
  match e, o with
  | x :: e, y :: o => if x =? y then S (byte_index e o) else O
  | _, _ => O
  end.

Definition differing (name : string) (e o : list Z) (index : nat) : verify_detail :=
  match length e with
  | 1%nat => VALUE_DIFFERS name (byte_at e 0) (byte_at o 0)
  | 2%nat => VALUE_DIFFERS name (read_le16 e 0) (read_le16 o 0)
  | _ => BYTE_DIFFERS name index (byte_at e index) (byte_at o index)
  end.

Fixpoint verify_loop (fields : list bzm_tps546_verify_field_t) : esp_err_t * verify_detail :=
  match fields with
  | [] => (ESP_OK, BZM_TPS546_VERIFY_GOOD_DETAIL)
  | f :: fields =>
      match valid_field f with
      | None => (ESP_ERR_INVALID_ARG, INVALID_ARGUMENT)
      | Some (name, e, o) =>
          if negb (length e =? length o)%nat then (ESP_ERR_INVALID_SIZE, LENGTH_DIFFERS name (length e) (length o))
          else
            let index := byte_index e o in
            if (index =? length e)%nat then verify_loop fields else (ESP_FAIL, differing name e o index)
      end
  end.

Definition bzm_tps546_verify_fields (fields : option (list bzm_tps546_verify_field_t)) : esp_err_t * verify_detail :=
  match fields with
  | None | Some [] => (ESP_ERR_INVALID_ARG, INVALID_ARGUMENT)
  | Some fields => verify_loop fields
  end.

(** ** The sequences

    Every sequence over a complete table: either all its calls succeed, in their order, or the
    first that fails ends it, its error is returned, and the three calls that switch
    the board off follow, whatever each of them answers. *)

Inductive power_call :=
| Call5V (enabled : bool)
| CallRegulator (enabled : bool)
| CallVout (volts : f32)
| CallValidate (volts : f32)
| CallDelay (ms : Z).

Definition power_event : Type := power_call * esp_err_t.

Definition traced_power {W} (c : power_calls W) : bzm_power_ops_t (W * list power_event) :=
  mk_power_ops
    (Some (fun on => traced (set_5v_enabled c on) (fun r => (Call5V on, r))))
    (Some (fun on => traced (set_regulator_enabled c on) (fun r => (CallRegulator on, r))))
    (Some (fun v => traced (set_vout c v) (fun r => (CallVout v, r))))
    (Some (fun v => traced (validate_power c v) (fun r => (CallValidate v, r))))
    (Some (fun ms => traced (rail_delay_ms c ms) (fun _ => (CallDelay ms, ESP_OK)))).

Definition switch_off (results : list esp_err_t) : list power_event :=
  zip [Call5V false; CallVout (f32_of_Z 0); CallRegulator false] results.

Definition succeeded (script : list power_call) : list power_event := map (fun c => (c, ESP_OK)) script.

Definition all_or_off (script : list power_call) (err : esp_err_t) (e : list power_event) : Prop :=
  (err = ESP_OK /\ e = succeeded script) \/
  (err <> ESP_OK /\ exists before call after results, script = before ++ call :: after /\ length results = 3%nat /\
     e = succeeded before ++ (call, err) :: switch_off results).

Definition first_error (results : list esp_err_t) : esp_err_t :=
  default ESP_OK (head (filter (fun r => r <> ESP_OK) results)).

Definition fixed_vout : f32 := profile_vout_command BZM_TPS546_BIRDS_PROFILE.
Definition rail_script : list power_call :=
  [Call5V false; CallRegulator true; CallDelay 100; CallVout fixed_vout; CallDelay 100; CallValidate fixed_vout].
Definition voltage_script (volts : f32) : list power_call := [CallVout volts; CallDelay 100; CallValidate volts].

Section sequences.
Context {W : Type} (c : power_calls W).
Abbreviation ops := (Some (traced_power c)).
Abbreviation calls := (mk_power_calls (W := W * list power_event)
    (fun on => traced (set_5v_enabled c on) (fun r => (Call5V on, r)))
    (fun on => traced (set_regulator_enabled c on) (fun r => (CallRegulator on, r)))
    (fun v => traced (set_vout c v) (fun r => (CallVout v, r)))
    (fun v => traced (validate_power c v) (fun r => (CallValidate v, r)))
    (fun ms => traced (rail_delay_ms c ms) (fun _ => (CallDelay ms, ESP_OK)))).

Lemma emits_power_down : emits (power_down calls) (fun err e =>
  exists results, length results = 3%nat /\ e = switch_off results /\ err = first_error results).
Proof.
  unfold power_down. cbn [set_5v_enabled set_vout set_regulator_enabled]. do 7 symbolic_step.
  exists [a; a0; a1]. split_and!; [done..|]. unfold retain_first_error, first_error.
  repeat (rewrite ?filter_cons, ?filter_nil; case_decide || case_bool_decide || cbn [andb negb]; simplify_eq/=); done.
Qed.


(** The rest of a sequence: all of [script] succeeds, or an error reaches the final test,
    which switches everything off. *)
Definition proceeds (script : list power_call) (m : esp_err_t -> io (W * list power_event) esp_err_t) : Prop :=
  emits (m ESP_OK) (all_or_off script) /\
  (forall err, err <> ESP_OK -> emits (m err) (fun r e => r = err /\
     exists results, length results = 3%nat /\ e = switch_off results)).

Lemma proceeds_end : proceeds [] (or_power_down calls).
Proof.
  split; [apply emits_ret; by left|]. intros err He. unfold or_power_down. rewrite bool_decide_false by done. cbn [negb].
  apply emits_bind. eapply emits_mono; [apply emits_power_down|]. intros r e (results & Hr & -> & _).
  apply emits_ret. rewrite app_nil_r. eauto.
Qed.

Lemma emits_call (m : io W esp_err_t) call script k : proceeds script k ->
  emits (io_bind (traced m (fun r => (call, r))) k) (all_or_off (call :: script)).
Proof.
  intros [Hok Hbad]. apply emits_bind, emits_traced. intros a. destruct (decide (a = ESP_OK)) as [->|Ea].
  - eapply emits_mono; [exact Hok|]. intros err e [[-> ->]|(He & before & x & after & results & -> & Hr & ->)]; [by left|].
    right. split; [done|]. by exists (call :: before), x, after, results.
  - eapply emits_mono; [by apply Hbad|]. intros err e (-> & results & Hr & ->). right. split; [done|].
    by exists [], call, script, results.
Qed.

(** A call, and a delay before a call, in the middle of a sequence. *)
Lemma proceeds_call (m : io W esp_err_t) call script k : proceeds script k ->
  proceeds (call :: script) (fun err => io_bind (if_ok err (traced m (fun r => (call, r)))) k).
Proof.
  intros Hk. split; [by apply emits_call|]. intros err He. unfold if_ok. rewrite bool_decide_false by done.
  apply emits_bind, emits_ret. by apply Hk.
Qed.

Lemma proceeds_delay (m : io W esp_err_t) ms call script k : proceeds script k ->
  proceeds (CallDelay ms :: call :: script)
    (fun err => io_bind (if_ok err (io_bind (rail_delay_ms calls ms) (fun _ => traced m (fun r => (call, r))))) k).
Proof.
  intros [Hok Hbad]. split.
  - apply emits_bind. unfold if_ok. rewrite bool_decide_true by done.
    apply emits_bind, emits_traced. intros _. apply emits_traced. intros a.
    destruct (decide (a = ESP_OK)) as [->|Ea].
    + eapply emits_mono; [exact Hok|]. intros err e [[-> ->]|(He & before & x & after & results & -> & Hr & ->)]; [by left|].
      right. split; [done|]. by exists (CallDelay ms :: call :: before), x, after, results.
    + eapply emits_mono; [by apply Hbad|]. intros err e (-> & results & Hr & ->). right. split; [done|].
      by exists [CallDelay ms], call, script, results.
  - intros err He. unfold if_ok. rewrite bool_decide_false by done. apply emits_bind, emits_ret. by apply Hbad.
Qed.

Lemma emits_rail_enabled : emits (rail_enabled calls true) (all_or_off rail_script).
Proof. apply emits_call, proceeds_call, proceeds_delay, proceeds_delay, proceeds_end. Qed.

(** C35: Whatever the board answers, switching it on, switching on its rail alone, and setting
    the rail's voltage either do every call of their sequence, in order - 5 V off, regulator on,
    the voltage set and then found to be in range before 5 V is on - or return the error of
    the first call that failed, after which 5 V, the voltage and the regulator have each been
    switched off, whatever that answered; and switching off is those three calls. *)
Theorem power_sequences (volts : f32) : bzm_power_runtime_voltage_is_allowed volts = true ->
  emits (bzm_power_set_enabled ops true) (all_or_off (rail_script ++ [Call5V true])) /\
  emits (bzm_power_set_rail_enabled ops true) (all_or_off rail_script) /\
  emits (bzm_power_set_runtime_voltage ops volts) (all_or_off (voltage_script volts)) /\
  emits (bzm_power_set_enabled ops false) (fun err e =>
    exists results, length results = 3%nat /\ e = switch_off results /\ err = first_error results).
Proof.
  intros Hv. split_and!.
  - apply emits_bind. eapply emits_mono; [apply emits_rail_enabled|].
    intros err e [[-> ->]|(He & before & x & after & results & Hs & Hr & ->)].
    + eapply emits_mono; [apply (emits_call _ (Call5V true)), proceeds_end|].
      intros err e [[-> ->]|(He & before & x & after & results & Hs & Hr & ->)]; [by left|]. right. split; [done|].
      exists (rail_script ++ before), x, after, results. rewrite Hs. split_and!; [by rewrite <- app_assoc|done|].
      unfold succeeded. by rewrite map_app, <- app_assoc.
    + rewrite bool_decide_false by done. cbn [negb]. apply emits_ret. right. split; [done|].
      exists before, x, (after ++ [Call5V true]), results. rewrite Hs, app_nil_r. split_and!; [by rewrite <- app_assoc|done|done].
  - apply emits_rail_enabled.
  - cbn [bzm_power_set_runtime_voltage valid_ops traced_power]. rewrite Hv. cbn [negb].
    apply emits_call, proceeds_delay, proceeds_end.
  - apply emits_power_down.
Qed.
End sequences.

(** ** The voltages *)

(** The voltages of repeated steps. *)
Fixpoint tuning_voltages (fuel : nat) (initial current : f32) : list f32 :=
  match fuel with
  | O => []
  | S fuel =>
      match bzm_power_tuning_next_voltage initial current with
      | None => []
      | Some next => next :: tuning_voltages fuel initial next
      end
  end.

Fixpoint ascending (current : f32) (vs : list f32) : bool :=
  match vs with
  | [] => true
  | v :: vs => flt current v && bzm_power_runtime_voltage_is_allowed v && ascending v vs
  end.

Definition climbs (v : f32) : bool :=
  let vs := tuning_voltages 9 v v in
  let top := default v (last vs) in
  ascending v vs && bool_decide (bzm_power_tuning_next_voltage v top = None).

(** From every voltage that a user may set, stepping the voltage ends after at most nine
    steps: each is above the one before and inside the regulator's range, and after the last
    there is no further step. *)
Theorem tuning_voltage_climbs (millivolts : Z) : 2100 <= millivolts <= 3200 ->
  exists v, bzm_power_resolve_user_voltage millivolts = Some v /\
    let vs := tuning_voltages 9 v v in
    ascending v vs = true /\ bzm_power_tuning_next_voltage v (default v (last vs)) = None.
Proof.
  intros Hmv.
  assert (H : match bzm_power_resolve_user_voltage (2100 + (millivolts - 2100)) with
              | Some v => climbs v | None => false end = true).
  { apply (forall_below_spec 1101 (fun i => match bzm_power_resolve_user_voltage (2100 + i) with
      | Some v => climbs v | None => false end)); [vm_compute; reflexivity|lia]. }
  replace (2100 + (millivolts - 2100)) with millivolts in H by lia.
  destruct (bzm_power_resolve_user_voltage millivolts) as [v|]; [|done]. exists v. split; [done|].
  unfold climbs in H. prop_bool. by split.
Qed.

(** ** The comparison of registers *)

Definition field_good (f : bzm_tps546_verify_field_t) : Prop :=
  exists name bytes, field_name f = Some name /\ name <> EmptyString /\ expected f = Some bytes /\ observed f = Some bytes /\
    bytes <> [].

Lemma byte_index_full e o : length e = length o -> byte_index e o = length e <-> e = o.
Proof.
  revert o. induction e as [|x e IH]; intros [|y o] Hl; try done. injection Hl as Hl. cbn [byte_index length].
  destruct (Z.eqb_spec x y) as [->|Hn]; [|split; [done|congruence]]. split; [intros [= E]|intros [= ->]; f_equal; by apply IH].
  f_equal. by apply IH.
Qed.

Lemma valid_field_spec f name e o : valid_field f = Some (name, e, o) <->
  field_name f = Some name /\ name <> EmptyString /\ expected f = Some e /\ observed f = Some o /\ e <> [] /\ o <> [].
Proof.
  unfold valid_field. destruct (field_name f) as [n|], (expected f) as [e'|], (observed f) as [o'|];
    try (split; [done|intros (?&?&?&?&?&?); congruence]).
  destruct (String.eqb_spec n EmptyString), e', o'; cbn; split; intros H; simplify_eq; try done; try tauto;
    destruct H as (?&?&?&?&?&?); simplify_eq; done.
Qed.

(** A comparison succeeds exactly when there are fields and each was read back as expected. *)
Theorem verify_exact (fields : list bzm_tps546_verify_field_t) :
  fst (bzm_tps546_verify_fields (Some fields)) = ESP_OK <-> fields <> [] /\ Forall field_good fields.
Proof.
  assert (Hloop : fst (verify_loop fields) = ESP_OK <-> Forall field_good fields).
  { induction fields as [|f fields IH]; [by split|]. rewrite Forall_cons, <- IH. cbn [verify_loop].
    destruct (valid_field f) as [[[name e] o]|] eqn:E.
    - apply valid_field_spec in E as (En & Hne & Ee & Eo & He & Ho).
      assert (Hg : field_good f <-> e = o).
      { split; [intros (? & ? & ? & ? & ? & ? & ?); congruence|]. intros ->. by exists name, o. }
      rewrite Hg. destruct (Nat.eqb_spec (length e) (length o)) as [El|El]; cbn [negb].
      + pose proof (byte_index_full e o El). destruct (Nat.eqb_spec (byte_index e o) (length e)); cbn [fst]; [tauto|].
        split; [done|tauto].
      + cbn [fst]. split; [done|intros [-> _]; done].
    - cbn [fst]. split; [done|]. intros [(name & b & H1 & H2 & H3 & H4 & H5) _].
      assert (valid_field f = Some (name, b, b)) by (apply valid_field_spec; tauto). congruence. }
  destruct fields as [|f fields]; [cbn; split; [done|by intros []]|].
  cbn [bzm_tps546_verify_fields]. rewrite Hloop. split; [by split|tauto].
Qed.

(** ** A board that works, and one whose voltage is not in range *)

Module Demo.
Definition demo_power (in_range : bool) : power_calls unit :=
  {| set_5v_enabled := fun _ => io_ret ESP_OK; set_regulator_enabled := fun _ => io_ret ESP_OK;
     set_vout := fun _ => io_ret ESP_OK;
     validate_power := fun _ => io_ret (if in_range then ESP_OK else ESP_ERR_INVALID_RESPONSE);
     rail_delay_ms := fun _ => io_ret tt |}.

Example power_sequences_witness :
  bzm_power_runtime_voltage_is_allowed (f32_of_Z 3) = true /\
  emits (bzm_power_set_enabled (Some (traced_power (demo_power false))) true) (all_or_off (rail_script ++ [Call5V true])) /\
  emits (bzm_power_set_rail_enabled (Some (traced_power (demo_power false))) true) (all_or_off rail_script) /\
  emits (bzm_power_set_runtime_voltage (Some (traced_power (demo_power false))) (f32_of_Z 3))
    (all_or_off (voltage_script (f32_of_Z 3))) /\
  emits (bzm_power_set_enabled (Some (traced_power (demo_power false))) false) (fun err e =>
    exists results, length results = 3%nat /\ e = switch_off results /\ err = first_error results).
Proof. split; [vm_compute; reflexivity|]. apply (power_sequences (demo_power false) (f32_of_Z 3)). vm_compute. reflexivity. Defined.

Example power_out_of_range :
  (bzm_power_set_enabled (Some (traced_power (demo_power false))) true (tt, [])).2.2 =
  succeeded [Call5V false; CallRegulator true; CallDelay 100; CallVout fixed_vout; CallDelay 100] ++
  [(CallValidate fixed_vout, ESP_ERR_INVALID_RESPONSE); (Call5V false, ESP_OK); (CallVout (f32_of_Z 0), ESP_OK); (CallRegulator false, ESP_OK)].
Proof. vm_compute. reflexivity. Qed.

Example tuning_voltage_climbs_witness :
  2100 <= 2800 <= 3200 /\
  exists v, bzm_power_resolve_user_voltage 2800 = Some v /\
    let vs := tuning_voltages 9 v v in
    ascending v vs = true /\ bzm_power_tuning_next_voltage v (default v (last vs)) = None.
Proof. split; [lia|]. apply (tuning_voltage_climbs 2800). lia. Defined.
End Demo.
