(* ===== verification/ResultDedup.v ===== *)
(** * Deduplication of results

    Models src/components/asic/bzm_result_dedup.c with its header: the identity of a
    submission, its fingerprint, and the ring of the 256 fingerprints accepted last.
    The hash of src/components/stratum/utils.c is the vendor's SHA-256, applied twice,
    and is a parameter.  The pointers are not [NULL]: the only caller passes addresses. *)

From S2P Require Import Prelude JobStore Work Reactor.
Open Scope Z_scope.

(** ** Data *)

Definition BZM_RESULT_DEDUP_CAPACITY : nat := 256.
Definition ASIC_JOB_ID_LEN : nat := 32.
Definition ASIC_JOB_EXTRANONCE2_HEX_SIZE : nat := 65.

Record bzm_result_identity_t := mk_identity {
  entry_valid : bool;
  fingerprint : list Z;
}.

Record bzm_result_dedup_t := mk_dedup {
  dedup_entries : list bzm_result_identity_t;
  dedup_next : nat;
}.

Definition empty_slot : bzm_result_identity_t := mk_identity false (replicate 32 0).
Definition zero_dedup : bzm_result_dedup_t := mk_dedup (replicate BZM_RESULT_DEDUP_CAPACITY empty_slot) 0.

(** ** The identity *)

Definition source_code (source : mining_job_source_t) : Z :=
  match source with JOB_TYPE_V1 => 0 | JOB_TYPE_SV2_STANDARD => 1 | JOB_TYPE_SV2_EXTENDED => 2 end.

(** A string copied into [size] zeroed bytes. *)
Definition padded_string (s : list Z) (size : nat) : list Z := c_string s ++ replicate (size - length (c_string s)) 0.

Definition write_le64 (value : Z) : list Z := (fun i => u8 (Z.shiftr value (8 * i))) <$> seqZ 0 8.

Definition resolved_job (job : asic_job_t) (ntime : Z) : asic_job_t :=
  mk_asic_job (version job) (version_mask job) (prev_hash job) (merkle_root job) ntime (nbits job)
    (starting_nonce job) (pool_diff job) (pool_id job) (source_type job) (job_id job) (extranonce2 job).

Definition identity_bytes (job : asic_job_t) (work_generation : Z) (result : asic_result_t) : list Z :=
  asic_job_header (resolved_job job (final_ntime result)) (share_nonce result) (final_version result) ++
  write_le64 work_generation ++ [pool_id job; u8 (source_code (source_type job))] ++
  padded_string (job_id job) ASIC_JOB_ID_LEN ++ padded_string (extranonce2 job) ASIC_JOB_EXTRANONCE2_HEX_SIZE.

Definition terminated (job : asic_job_t) : bool :=
  negb (length (c_string (job_id job)) =? ASIC_JOB_ID_LEN)%nat &&
  negb (length (c_string (extranonce2 job)) =? ASIC_JOB_EXTRANONCE2_HEX_SIZE)%nat.

Section dedup.
Context (sha256_bin : list Z -> list Z).

Definition double_sha256_bin (data : list Z) : list Z := sha256_bin (sha256_bin data).

Definition entry_matches (print : list Z) (entry : bzm_result_identity_t) : bool :=
  entry_valid entry && bool_decide (fingerprint entry = print).

(** The slot at [next] is overwritten. *)
Definition remember (cache : bzm_result_dedup_t) (print : list Z) : bzm_result_dedup_t :=
  mk_dedup (<[dedup_next cache := mk_identity true print]> (dedup_entries cache))
    ((dedup_next cache + 1) mod BZM_RESULT_DEDUP_CAPACITY)%nat.

Definition bzm_result_is_duplicate (cache : bzm_result_dedup_t) (job : asic_job_t) (work_generation : Z)
    (result : asic_result_t) : bool * bzm_result_dedup_t :=
  if negb (terminated job) then (false, cache)
  else
    let print := double_sha256_bin (identity_bytes job work_generation result) in
    if existsb (entry_matches print) (dedup_entries cache) then (true, cache)
    else (false, remember cache print).
End dedup.

(** ** What identifies a submission *)

Record submission := mk_submission {
  sub_job : asic_job_t;
  sub_generation : Z;
  sub_result : asic_result_t;
}.

(** The fields that are submitted, and the session they belong to. *)
Record submission_key := mk_key {
  key_version : Z;
  key_prev_hash : list Z;
  key_merkle_root : list Z;
  key_ntime : Z;
  key_nbits : Z;
  key_nonce : Z;
  key_generation : Z;
  key_pool : Z;
  key_source : mining_job_source_t;
  key_job_id : list Z;
  key_extranonce2 : list Z;
}.
#[export] Instance mining_job_source_t_eq_dec : EqDecision mining_job_source_t.
Proof. solve_decision. Defined.
#[export] Instance submission_key_eq_dec : EqDecision submission_key.
Proof. solve_decision. Defined.

Definition key_of (s : submission) : submission_key :=
  let job := sub_job s in
  {| key_version := final_version (sub_result s); key_prev_hash := prev_hash job; key_merkle_root := merkle_root job;
     key_ntime := final_ntime (sub_result s); key_nbits := nbits job; key_nonce := share_nonce (sub_result s);
     key_generation := sub_generation s; key_pool := pool_id job; key_source := source_type job;
     key_job_id := c_string (job_id job); key_extranonce2 := c_string (extranonce2 job) |}.

(** The widths of the fields. *)
Record typed (s : submission) : Prop := {
  typed_version : is_u32 (final_version (sub_result s));
  typed_ntime : is_u32 (final_ntime (sub_result s));
  typed_nbits : is_u32 (nbits (sub_job s));
  typed_nonce : is_u32 (share_nonce (sub_result s));
  typed_generation : is_u64 (sub_generation s);
  typed_prev_hash : length (prev_hash (sub_job s)) = 32%nat;
  typed_merkle_root : length (merkle_root (sub_job s)) = 32%nat;
  typed_job_id : length (job_id (sub_job s)) = ASIC_JOB_ID_LEN;
  typed_extranonce2 : length (extranonce2 (sub_job s)) = ASIC_JOB_EXTRANONCE2_HEX_SIZE;
}.

Definition identity_of (s : submission) : list Z := identity_bytes (sub_job s) (sub_generation s) (sub_result s).

(** *** The identity determines the key *)

Lemma shifted_bytes n v : (fun i => u8 (Z.shiftr v (8 * i))) <$> seqZ 0 (Z.of_nat n) = le_bytes_of n v.
Proof.
  revert v. induction n as [|n IH]; intros v; [done|].
  rewrite Nat2Z.inj_succ, seqZ_cons, Z.pred_succ by lia. cbn [fmap list_fmap le_bytes_of].
  change (Z.succ 0) with (1 + 0). rewrite <- IH, <- (fmap_add_seqZ 1 0 (Z.of_nat n)).
  rewrite <- list_fmap_compose. f_equal. apply list_fmap_ext. intros k i Hk. apply lookup_seqZ in Hk as [-> Hk].
  cbn [compose]. f_equal.
  rewrite Z.mul_add_distr_l, <- Z.shiftr_shiftr, (Z.shiftr_div_pow2 v) by lia. done.
Qed.

Lemma le_bytes_of_inj n v w : 0 <= v < 256 ^ Z.of_nat n -> 0 <= w < 256 ^ Z.of_nat n ->
  le_bytes_of n v = le_bytes_of n w -> v = w.
Proof. intros Hv Hw E. by rewrite <- (le_bytes_value_of n v), <- (le_bytes_value_of n w), E. Qed.

Lemma write_le32_eq v : write_le32 v = le_bytes_of 4 v.
Proof. exact (shifted_bytes 4 v). Qed.
Lemma write_le64_eq v : write_le64 v = le_bytes_of 8 v.
Proof. exact (shifted_bytes 8 v). Qed.

Lemma c_string_clean s : Forall (fun b => b <> 0) (c_string s).
Proof.
  induction s as [|b s IH]; cbn [c_string]; [constructor|]. destruct (Z.eqb_spec b 0); [constructor|by constructor].
Qed.
Lemma c_string_length s : (length (c_string s) <= length s)%nat.
Proof. induction s as [|b s IH]; cbn [c_string length]; [lia|]. destruct (b =? 0); cbn [length]; lia. Qed.
Lemma c_string_padded s n : Forall (fun b => b <> 0) s -> c_string (s ++ replicate n 0) = s.
Proof.
  induction 1 as [|b s Hb _ IH]; [by destruct n|]. cbn [app c_string]. rewrite (proj2 (Z.eqb_neq b 0)) by done. by f_equal.
Qed.
Lemma padded_string_inj s t n : padded_string s n = padded_string t n -> c_string s = c_string t.
Proof.
  unfold padded_string. intros E. apply (f_equal c_string) in E. by rewrite !c_string_padded in E by apply c_string_clean.
Qed.
Lemma length_padded s n : (length s <= n)%nat -> length (padded_string s n) = n.
Proof. intros H. unfold padded_string. pose proof (c_string_length s). rewrite length_app, length_replicate. lia. Qed.

Lemma source_code_inj a b : u8 (source_code a) = u8 (source_code b) -> a = b.
Proof. by destruct a, b. Qed.

Lemma identity_determines_key s t : typed s -> typed t -> identity_of s = identity_of t -> key_of s = key_of t.
Proof.
  intros Hs Ht. unfold identity_of, identity_bytes, asic_job_header, resolved_job. cbn [prev_hash merkle_root ntime nbits].
  rewrite !write_le32_eq, !write_le64_eq, <- !app_assoc. intros E.
  repeat (apply app_inj_1 in E as [? E]; [|by rewrite ?length_le_bytes_of, ?(typed_prev_hash _ Hs), ?(typed_prev_hash _ Ht),
    ?(typed_merkle_root _ Hs), ?(typed_merkle_root _ Ht)]).
  match goal with H : [_; _] = [_; _] |- _ => injection H as Ep Es end.
  apply app_inj_1 in E as [Ej Ee]; [|by rewrite !length_padded by (rewrite ?typed_job_id; done)].
  apply padded_string_inj in Ej, Ee. apply source_code_inj in Es.
  unfold key_of. f_equal; try done; (eapply le_bytes_of_inj; [..|eassumption]).
  all: first [apply (typed_version _ Hs)|apply (typed_ntime _ Hs)|apply (typed_nbits _ Hs)|apply (typed_nonce _ Hs)|apply (typed_generation _ Hs)
    |apply (typed_version _ Ht)|apply (typed_ntime _ Ht)|apply (typed_nbits _ Ht)|apply (typed_nonce _ Ht)|apply (typed_generation _ Ht)].
Qed.

Lemma key_determines_identity s t : key_of s = key_of t -> identity_of s = identity_of t.
Proof.
  unfold key_of, identity_of, identity_bytes, asic_job_header, resolved_job, padded_string. cbn [prev_hash merkle_root ntime nbits].
  intros [= -> -> -> -> -> -> -> -> -> -> ->]. done.
Qed.

(** ** The ring *)

(** The slots from the oldest to the newest. *)
Definition unroll (c : bzm_result_dedup_t) : list bzm_result_identity_t :=
  drop (dedup_next c) (dedup_entries c) ++ take (dedup_next c) (dedup_entries c).

Definition ring_ok (c : bzm_result_dedup_t) : Prop :=
  length (dedup_entries c) = BZM_RESULT_DEDUP_CAPACITY /\ (dedup_next c < BZM_RESULT_DEDUP_CAPACITY)%nat.

Lemma remember_ok c print : ring_ok c -> ring_ok (remember c print).
Proof. intros [Hl Hn]. split; cbn [remember dedup_entries dedup_next]; [by rewrite length_insert|by apply Nat.mod_upper_bound]. Qed.

Lemma unroll_remember c print : ring_ok c -> unroll (remember c print) = tail (unroll c) ++ [mk_identity true print].
Proof.
  intros [Hl Hn]. destruct c as [entries next]. unfold remember, unroll. cbn [dedup_entries dedup_next] in *.
  destruct (lookup_lt_is_Some_2 entries next) as [x Hx]; [lia|].
  assert (Htail : tail (drop next entries ++ take next entries) = drop (S next) entries ++ take next entries).
  { by rewrite (drop_S _ _ _ Hx). }
  rewrite Htail. destruct (decide (S next = BZM_RESULT_DEDUP_CAPACITY)) as [E|E].
  - replace ((next + 1) mod BZM_RESULT_DEDUP_CAPACITY)%nat with O by (rewrite Nat.add_1_r, E; by rewrite Nat.Div0.mod_same).
    rewrite drop_0, take_0, app_nil_r, (drop_ge entries (S next)) by lia. cbn [app].
    rewrite insert_take_drop, (drop_ge entries (S next)) by lia. done.
  - rewrite Nat.mod_small by lia. rewrite Nat.add_1_r, drop_insert_lt by lia.
    rewrite (take_S_r _ _ (mk_identity true print)) by (rewrite list_lookup_insert_eq; [done|lia]).
    rewrite take_insert_ge by lia. by rewrite app_assoc.
Qed.

Lemma existsb_unroll c f : existsb f (dedup_entries c) = existsb f (unroll c).
Proof.
  unfold unroll. rewrite existsb_app, orb_comm, <- existsb_app. by rewrite take_drop.
Qed.

(** ** The contract

    Of the submissions accepted so far, oldest first, the last 256 are remembered; a submission is a
    duplicate when one of those has its key. *)

Definition recent (accepted : list submission) : list submission :=
  drop (length accepted - BZM_RESULT_DEDUP_CAPACITY) accepted.

Definition spec_step (accepted : list submission) (s : submission) : bool * list submission :=
  if negb (terminated (sub_job s)) then (false, accepted)
  else if bool_decide (key_of s ∈ map key_of (recent accepted)) then (true, accepted)
  else (false, accepted ++ [s]).

Fixpoint answers {C} (step : C -> submission -> bool * C) (c : C) (subs : list submission) : list bool :=
  match subs with
  | [] => []
  | s :: subs => let '(answer, c) := step c s in answer :: answers step c subs
  end.

Section contract.
Context (sha256_bin : list Z -> list Z).

Definition cache_step (c : bzm_result_dedup_t) (s : submission) : bool * bzm_result_dedup_t :=
  bzm_result_is_duplicate sha256_bin c (sub_job s) (sub_generation s) (sub_result s).

(** No two of the identities have one fingerprint. *)
Definition collision_free (subs : list submission) : Prop :=
  forall s t, s ∈ subs -> t ∈ subs ->
    double_sha256_bin sha256_bin (identity_of s) = double_sha256_bin sha256_bin (identity_of t) ->
    identity_of s = identity_of t.

Definition slot_of (s : submission) : bzm_result_identity_t :=
  mk_identity true (double_sha256_bin sha256_bin (identity_of s)).

Definition remembers (c : bzm_result_dedup_t) (accepted : list submission) : Prop :=
  ring_ok c /\ unroll c = drop (length accepted) (replicate BZM_RESULT_DEDUP_CAPACITY empty_slot ++ map slot_of accepted).

Lemma remembers_zero : remembers zero_dedup [].
Proof. split; [split; [done|unfold BZM_RESULT_DEDUP_CAPACITY; cbn; lia]|reflexivity]. Qed.

Lemma remembers_push c accepted s : remembers c accepted ->
  remembers (remember c (double_sha256_bin sha256_bin (identity_of s))) (accepted ++ [s]).
Proof.
  intros [Hr E]. split; [by apply remember_ok|]. rewrite unroll_remember, E by done.
  rewrite map_app, app_assoc. cbn [map]. rewrite length_app. cbn [length]. rewrite Nat.add_1_r.
  rewrite (drop_app_le (_ ++ _) [_]) by (rewrite length_app, length_replicate, length_map; unfold BZM_RESULT_DEDUP_CAPACITY; lia).
  rewrite <- (Nat.add_1_r (length accepted)), <- drop_drop. by destruct (drop (length accepted) _).
Qed.

(** A fingerprint is in the ring when a recent submission has it. *)
Lemma remembers_existsb c accepted print : remembers c accepted ->
  existsb (entry_matches print) (dedup_entries c) = true <->
  exists t, t ∈ recent accepted /\ double_sha256_bin sha256_bin (identity_of t) = print.
Proof.
  intros [_ E]. rewrite existsb_unroll, E. unfold recent.
  assert (Hempty : forall n, existsb (entry_matches print) (replicate n empty_slot) = false) by (induction n; done).
  assert (Hmap : forall l, existsb (entry_matches print) (map slot_of l) = true <->
    exists t, t ∈ l /\ double_sha256_bin sha256_bin (identity_of t) = print).
  { intros l. rewrite existsb_exists. split.
    - intros (x & Hx & Hm). apply list_elem_of_In, list_elem_of_fmap in Hx as (t & -> & Ht). exists t. split; [done|].
      unfold entry_matches in Hm. prop_bool. done.
    - intros (t & Ht & Hp). exists (slot_of t). split; [apply list_elem_of_In, list_elem_of_fmap; by exists t|].
      unfold entry_matches. cbn. by rewrite bool_decide_true. }
  destruct (Nat.le_ge_cases (length accepted) BZM_RESULT_DEDUP_CAPACITY) as [Hl|Hl].
  - rewrite drop_app_le, drop_replicate, existsb_app, Hempty, orb_false_l, Hmap by (rewrite length_replicate; lia).
    by replace (length accepted - BZM_RESULT_DEDUP_CAPACITY)%nat with O by lia.
  - rewrite drop_app_ge, length_replicate by (rewrite length_replicate; lia). by rewrite skipn_map, Hmap.
Qed.

Lemma recent_subset accepted t : t ∈ recent accepted -> t ∈ accepted.
Proof. apply subseteq_drop. Qed.

Lemma spec_simulates c accepted subs : remembers c accepted -> Forall typed (accepted ++ subs) ->
  collision_free (accepted ++ subs) -> answers cache_step c subs = answers spec_step accepted subs.
Proof.
  revert c accepted. induction subs as [|s subs IH]; intros c accepted Hr Ht Hc; [done|]. cbn [answers].
  assert (Hs : accepted ++ s :: subs = (accepted ++ [s]) ++ subs) by (by rewrite <- app_assoc).
  assert (Hsub : forall l, (forall x, x ∈ l -> x ∈ accepted ++ s :: subs) -> Forall typed l /\ collision_free l).
  { intros l Hl. split; [|intros x y Hx Hy; apply Hc; auto]. rewrite Forall_forall in Ht |- *. auto. }
  unfold cache_step at 1, spec_step at 1, bzm_result_is_duplicate. fold (identity_of s).
  destruct (terminated (sub_job s)); cbn [negb]; [|f_equal; apply IH; [done|..]; apply Hsub; set_solver].
  assert (Hiff : existsb (entry_matches (double_sha256_bin sha256_bin (identity_of s))) (dedup_entries c) =
    bool_decide (key_of s ∈ map key_of (recent accepted))).
  { apply eq_iff_eq_true. rewrite bool_decide_eq_true. rewrite (remembers_existsb c accepted) by done.
    rewrite (list_elem_of_fmap key_of). split; intros (t & H1 & H2).
    - exists t. split; [|done]. apply recent_subset in H1. symmetry. rewrite Forall_forall in Ht.
      apply identity_determines_key; [apply Ht; set_solver..|]. apply Hc; [set_solver..|done].
    - exists t. split; [done|]. by rewrite (key_determines_identity s t). }
  rewrite Hiff. case_bool_decide; f_equal; apply IH; try done; try (apply Hsub; set_solver).
  by apply remembers_push.
Qed.

(** C36: Unless SHA-256 collides on them, of any sequence of submissions exactly those are reported as
    duplicates whose submitted header, pool, session and job names are those of one of the
    last 256 accepted: the ring of fingerprints implements that memory. *)
Theorem dedup_exact (subs : list submission) :
  Forall typed subs -> collision_free subs -> answers cache_step zero_dedup subs = answers spec_step [] subs.
Proof. intros Ht Hc. apply spec_simulates; [apply remembers_zero|done..]. Qed.
End contract.

Module Demo.
Definition demo_job (name : Z) : asic_job_t :=
  mk_asic_job 0x20000000 0x1fffe000 (replicate 32 7) (replicate 32 9) 1700000000 0x17034219 0
    (Floats.SpecFloat.S754_zero false) 1 JOB_TYPE_V1 (name :: replicate 31 0) (replicate 65 0).
Definition demo_result (nonce : Z) : asic_result_t :=
  mk_asic_result (demo_job 0x61) (mk_job_context 3 0x20000000 true true) 5 nonce 1700000000 0x20002000 0x2000
    77 0 12 4 0 1.
Definition demo_submissions : list submission :=
  [mk_submission (demo_job 0x61) 3 (demo_result 11); mk_submission (demo_job 0x62) 3 (demo_result 11);
   mk_submission (demo_job 0x61) 3 (demo_result 11); mk_submission (demo_job 0x61) 4 (demo_result 11)].

(** A hash that gives back what it is given does not collide. *)
Example dedup_exact_witness :
  Forall typed demo_submissions /\ collision_free id demo_submissions /\
  answers (cache_step id) zero_dedup demo_submissions = answers spec_step [] demo_submissions.
Proof.
  assert (Ht : Forall typed demo_submissions).
  { repeat (apply Forall_cons; split); [..|constructor]; split; unfold in_width; cbn; try lia; done. }
  assert (Hc : collision_free id demo_submissions) by (intros s t _ _ H; exact H).
  split; [exact Ht|]. split; [exact Hc|]. apply (dedup_exact id demo_submissions Ht Hc).
Defined.

Example demo_answers : answers (cache_step id) zero_dedup demo_submissions = [false; false; true; false].
Proof. vm_compute. reflexivity. Qed.
End Demo.
