(* ===== verification/Vcore.v ===== *)
(** * The core voltage of the board

    Models the part of src/main/power/vcore.c that switches the rail: the operations of a
    Bonanza board that [Power] sequences, the functions that the board power calls, the
    setting of the voltage and the check for faults.  The pins, the register
    driver of the regulator (TPS546.c) and the bridge are operations over the world [V].  The
    configuration of the other regulators and the texts are left out. *)

From S2P Require Import Prelude Trace Float32 Power.
Open Scope Z_scope.
Open Scope io_scope.

(** ** Data *)

Definition OPERATION_ON : Z := 0x80.
Definition TPS546_STATUS_VOUT : Z := 0x8000.
Definition TPS546_STATUS_IOUT : Z := 0x4000.
Definition TPS546_STATUS_INPUT : Z := 0x2000.
Definition TPS546_STATUS_PGOOD : Z := 0x0800.
Definition TPS546_STATUS_OFF : Z := 0x0040.
Definition TPS546_STATUS_TEMP : Z := 0x0004.
Definition TPS546_STATUS_CML : Z := 0x0002.

(** The fields that are read for more than a log line. *)
Record TPS546_StatusSnapshot := mk_snapshot {
  snap_status_word : Z;
  snap_operation : Z;
  read_vout : f32;
  read_vin : f32;
  read_iout : f32;
  read_temp1 : Z;
  snap_vout_command : f32;
  vout_command_matches_active_config : bool;
}.

(** The part of [DEVICE_CONFIG] that decides. *)
Record device_config_t := mk_device_config {
  bonanza_bridge : bool;
  TPS546 : bool;
  DS4432U : bool;
  asic_enable : bool;
  asic_enable_active_high : bool;
  voltage_domains : Z;
}.

Record vcore_services (V : Type) := mk_vcore_services {
  gpio_set_asic_enable : bool -> io V esp_err_t;
  gpio_get_pgood : io V bool;
  TPS546_set_vout : f32 -> io V esp_err_t;
  TPS546_snapshot_status : io V (esp_err_t * TPS546_StatusSnapshot);
  TPS546_check_status : io V esp_err_t;
  DS4432U_set_voltage : f32 -> io V esp_err_t;
  vcore_set_5v : bool -> io V esp_err_t;
  vcore_get_asic_trip : io V (esp_err_t * bool);
  vcore_delay_ms : Z -> io V unit;
  power_fault : io V bool;
  set_hardware_fault : io V unit;
}.
Arguments mk_vcore_services {V}.
Arguments gpio_set_asic_enable {V}.
Arguments gpio_get_pgood {V}.
Arguments TPS546_set_vout {V}.
Arguments TPS546_snapshot_status {V}.
Arguments TPS546_check_status {V}.
Arguments DS4432U_set_voltage {V}.
Arguments vcore_set_5v {V}.
Arguments vcore_get_asic_trip {V}.
Arguments vcore_delay_ms {V}.
Arguments power_fault {V}.
Arguments set_hardware_fault {V}.

Section vcore.
Context {V : Type} (device : device_config_t) (services : vcore_services V).

(** ** The operations that the sequences of [Power] call *)

Definition bonanza_set_5v_enabled (enabled : bool) : io V esp_err_t := vcore_set_5v services enabled.

Definition bonanza_set_regulator_enabled (enabled : bool) : io V esp_err_t := gpio_set_asic_enable services enabled.

Definition bonanza_set_vout (volts : f32) : io V esp_err_t :=
  if negb (feq volts (f32_of_Z 0)) && negb (bzm_power_runtime_voltage_is_allowed volts) then io_ret ESP_ERR_INVALID_ARG
  else if TPS546 device then TPS546_set_vout services volts else io_ret ESP_ERR_INVALID_STATE.

Definition fault_bits : Z :=
  fold_right Z.lor 0 [TPS546_STATUS_VOUT; TPS546_STATUS_IOUT; TPS546_STATUS_INPUT; TPS546_STATUS_PGOOD;
    TPS546_STATUS_OFF; TPS546_STATUS_TEMP; TPS546_STATUS_CML].

(** The snapshot shows a regulator that holds [expected_vout]. *)
Definition snapshot_validates (expected_vout : f32) (s : TPS546_StatusSnapshot) : bool :=
  negb (has_bits (snap_status_word s) fault_bits || (Z.land (snap_operation s) 0x80 =? 0) ||
    negb (is_finite (snap_vout_command s)) ||
    flt BZM_TPS546_VOUT_READBACK_TOLERANCE_V (fabs (fsub (snap_vout_command s) expected_vout)) ||
    flt (read_vin s) (vin_off BZM_TPS546_BIRDS_PROFILE) ||
    flt (read_vout s) (fsub expected_vout BZM_TPS546_VOUT_OPERATING_TOLERANCE_V) ||
    flt (fadd expected_vout BZM_TPS546_VOUT_OPERATING_TOLERANCE_V) (read_vout s) ||
    (ot_fault_limit BZM_TPS546_BIRDS_PROFILE <=? read_temp1 s)).

Definition bonanza_validate_power (expected_vout : f32) : io V esp_err_t :=
  if negb (bzm_power_runtime_voltage_is_allowed expected_vout) then io_ret ESP_FAIL
  else
    let! pgood := gpio_get_pgood services in
    if negb pgood then io_ret ESP_FAIL
    else
      let! (err, s) := TPS546_snapshot_status services in
      if negb (bool_decide (err = ESP_OK)) then io_ret err
      else io_ret (if snapshot_validates expected_vout s then ESP_OK else ESP_FAIL).

Definition bonanza_power_delay (delay_ms : Z) : io V unit := vcore_delay_ms services delay_ms.

Definition BONANZA_POWER_OPS : option (bzm_power_ops_t V) :=
  Some (mk_power_ops (Some bonanza_set_5v_enabled) (Some bonanza_set_regulator_enabled) (Some bonanza_set_vout)
    (Some bonanza_validate_power) (Some bonanza_power_delay)).

(** ** The functions of the file *)

Definition bonanza_device : bool := bonanza_bridge device && TPS546 device.

Definition VCORE_bzm_set_rail_enabled (enabled : bool) : io V esp_err_t :=
  if negb bonanza_device then io_ret ESP_ERR_INVALID_STATE else bzm_power_set_rail_enabled BONANZA_POWER_OPS enabled.

Definition VCORE_bzm_set_runtime_voltage (volts : f32) : io V esp_err_t :=
  if negb bonanza_device then io_ret ESP_ERR_INVALID_STATE else bzm_power_set_runtime_voltage BONANZA_POWER_OPS volts.

Definition VCORE_bzm_force_regulator_off : io V esp_err_t :=
  if negb bonanza_device then io_ret ESP_ERR_INVALID_STATE
  else
    let! gpio_err := gpio_set_asic_enable services false in
    let! tps_err := TPS546_set_vout services (f32_of_Z 0) in
    io_ret (if negb (bool_decide (gpio_err = ESP_OK)) then gpio_err else tps_err).

(** The error, the snapshot and PGOOD. *)
Definition VCORE_bzm_snapshot : io V (esp_err_t * TPS546_StatusSnapshot * bool) :=
  let! pgood := gpio_get_pgood services in
  let! (err, s) := TPS546_snapshot_status services in
  io_ret (err, s, pgood).

Definition VCORE_set_voltage (core_voltage : f32) : io V esp_err_t :=
  let enable_power := negb (feq core_voltage (f32_of_Z 0)) in
  if bonanza_bridge device then
    if negb (bzm_power_voltage_is_allowed core_voltage) then io_ret ESP_ERR_INVALID_ARG
    else
      let! err := bzm_power_set_enabled BONANZA_POWER_OPS enable_power in
      if negb (bool_decide (err = ESP_OK)) && enable_power
      then let! _ := set_hardware_fault services in io_ret err
      else io_ret err
  else
    let! _ :=
      if asic_enable device then
        let! _ := gpio_set_asic_enable services (Bool.eqb enable_power (asic_enable_active_high device)) in
        if enable_power then vcore_delay_ms services 20 else io_ret tt
      else io_ret tt in
    let! err := if DS4432U device && enable_power then DS4432U_set_voltage services core_voltage else io_ret ESP_OK in
    if negb (bool_decide (err = ESP_OK)) then io_ret err
    else if TPS546 device then TPS546_set_vout services (fmul core_voltage (f32_of_Z (voltage_domains device)))
    else io_ret ESP_OK.

(** A fault of a Bonanza board is kept and switches the board off. *)
Definition fault_off (err : esp_err_t) : io V esp_err_t :=
  let! _ := set_hardware_fault services in
  let! _ := bzm_power_set_enabled BONANZA_POWER_OPS false in
  io_ret err.

Definition check_trip : io V esp_err_t :=
  if bonanza_bridge device then
    let! (err, tripped) := vcore_get_asic_trip services in
    if negb (bool_decide (err = ESP_OK)) then fault_off err
    else if (tripped : bool) then fault_off ESP_FAIL
    else io_ret ESP_OK
  else io_ret ESP_OK.

Definition VCORE_check_fault : io V esp_err_t :=
  let! err := check_trip in
  if negb (bool_decide (err = ESP_OK)) then io_ret err
  else if TPS546 device then
    let! err := TPS546_check_status services in
    if negb (bool_decide (err = ESP_OK)) then if bonanza_bridge device then fault_off err else io_ret err
    else
      let! faulted := if bonanza_bridge device then power_fault services else io_ret false in
      if (faulted : bool) then fault_off ESP_FAIL else io_ret ESP_OK
  else io_ret ESP_OK.
End vcore.
