(* ===== verification/BoardStages.v ===== *)
(** * The board: its state, its health and its stages

    Models the first half of src/main/power/bzm_board_power.c: the state behind [RUNTIME],
    the authorizers of dispatch and of driver operations, the evaluation of mining evidence and
    of health on the live board, the safe-off and the start-up stages.  What the
    file calls - clock, bridge, regulator (through [Vcore]), fan, driver, settings - are
    operations over a world [V]; [Bridge] and [Bringup] model those of the bridge and of
    the driver.  A driver operation that consults the operation authorizer
    says whether it was refused for a stop, which is all that it does to the state of the board.
    The lock is held throughout a function named [locked].  Values that are only
    published for display, the published health itself, and the formatted part of the
    texts are left out; a text is cut where its first number would be. *)

From S2P Require Import Prelude Trace Float32 Serial Work BalancedRamp Frequency Power Vcore Topology Validation Supervisor Bridge LeaseGuard Telemetry Transport RuntimeHealth RunningEvidence Bringup.
Open Scope string_scope.
Open Scope list_scope.
Open Scope Z_scope.
Open Scope io_scope.

(** ** Data *)

Definition BZM_HEALTH_PERIOD_MS : Z := 500.
Definition BZM_SAFE_OFF_TIMEOUT_MS : Z := 1500.
Definition BZM_SAFE_OFF_SAMPLE_MS : Z := 25.
Definition BZM_BOARD_WATCHDOG_MS : Z := 300000.
Definition BZM_FREQUENCY_TRANSITION_PROOF_TIMEOUT_MS : Z := 30000.

(** The build options. *)
Record board_config_t := mk_board_config {
  CONFIG_MIN_VALID_RESULTS : Z;
  CONFIG_MAX_MAPPING_REJECTIONS : Z;
  CONFIG_MAX_LOCAL_REJECTIONS : Z;
  CONFIG_PROOF_TIMEOUT_SECONDS : Z;
  CONFIG_RESULT_RECOVERY_TIMEOUT_MS : Z;
  CONFIG_PARSER_REALIGN_MAX_DISCARDS : Z;
  CONFIG_PARSER_REALIGN_CLEAN_WINDOWS : Z;
  CONFIG_PARSER_REALIGN_MAX_WINDOWS : Z;
  CONFIG_PARSER_REALIGN_MAX_EVENTS : Z;
  CONFIG_FAN_MIN_RPM : Z;
  CONFIG_SAFE_OFF_VCORE_MV : Z;
  CONFIG_TELEMETRY_MAX_AGE_MS : Z;
  CONFIG_SENSOR_TDM_GAP_COUNT : Z;
  CONFIG_TEMP_MIN_C : Z;
  CONFIG_TEMP_MAX_C : Z;
  CONFIG_STACK_MV_MIN : Z;
  CONFIG_STACK_MV_MAX : Z;
  CONFIG_INTERSTACK_DIFF_ABS_MAX_MV : Z;
  CONFIG_STACK_MAX_SPREAD_MV : Z;
  CONFIG_CH2_CONFIRM_SAMPLES : Z;
  CONFIG_PLL_LOCK_CONFIRM_SAMPLES : Z;
}.

(** [allocated] is [RUNTIME_STATE != NULL]; [ASIC_initalized] is the flag of the global state. *)
Record bzm_runtime_state_t := mk_runtime {
  allocated : bool;
  supervisor : bzm_supervisor_t;
  bridge_info : bzm_bridge_info_t;
  runtime_bridge_status : bzm_bridge_safety_status_t;
  bridge_rx_stats : bzm_bridge_rx_stats_t;
  active : bool;
  board_initialized : bool;
  bridge_info_valid : bool;
  bridge_status_valid : bool;
  bridge_rx_stats_valid : bool;
  mining_stack_ready : bool;
  replacement_generation : Z;
  replacement_started_ms : Z;
  replacement_pending : bool;
  pause_requested : bool;
  dispatch_enabled : bool;
  dispatch_deadline_ms : Z;
  execution_deadline_ms : Z;
  execution_cancelled : bool;
  parser_baseline_valid : bool;
  runtime_parser_baseline : bzm_serial_parser_stats_t;
  parser_realign_valid : bool;
  parser_realign : bzm_parser_realign_t;
  health : bzm_runtime_health_result_t;
  health_sampled_at_ms : Z;
  ch2_confirmation : bzm_ch2_confirmation_t;
  pll_lock_confirmation : bzm_pll_lock_confirmation_t;
  running_evidence_monitoring : bool;
  running_evidence_started_at_ms : Z;
  running_evidence_baseline : bzm_running_stats_t;
  running_evidence_lifecycle : bzm_running_evidence_lifecycle_t;
  running_evidence : bzm_running_evidence_result_t;
  running_evidence_frequency_transition : bool;
  frequency_target_mhz : f32;
  voltage_target_v : f32;
  frequency_target_generation : Z;
  frequency_ramp_active : bool;
  rail_command_v : f32;
  runtime_fan_rpm : Z;
  ASIC_initalized : bool;
}.
#[export] Instance bzm_runtime_state_t_eta : Eta bzm_runtime_state_t :=
  fun r => mk_runtime (allocated r) (supervisor r) (bridge_info r) (runtime_bridge_status r) (bridge_rx_stats r)
    (active r) (board_initialized r) (bridge_info_valid r) (bridge_status_valid r) (bridge_rx_stats_valid r)
    (mining_stack_ready r) (replacement_generation r) (replacement_started_ms r) (replacement_pending r)
    (pause_requested r) (dispatch_enabled r) (dispatch_deadline_ms r) (execution_deadline_ms r)
    (execution_cancelled r) (parser_baseline_valid r) (runtime_parser_baseline r) (parser_realign_valid r)
    (parser_realign r) (health r) (health_sampled_at_ms r) (ch2_confirmation r) (pll_lock_confirmation r)
    (running_evidence_monitoring r) (running_evidence_started_at_ms r) (running_evidence_baseline r)
    (running_evidence_lifecycle r) (running_evidence r) (running_evidence_frequency_transition r)
    (frequency_target_mhz r) (voltage_target_v r) (frequency_target_generation r) (frequency_ramp_active r)
    (rail_command_v r) (runtime_fan_rpm r) (ASIC_initalized r).

Definition bzm_runtime_health_status_is_bad (h : bzm_runtime_health_result_t) : bool :=
  match health_status h with BZM_RUNTIME_HEALTH_BAD => true | BZM_RUNTIME_HEALTH_GOOD => false end.

(** *** What the file calls

    A status command of the bridge always writes a status, the fault sentinel when it fails;
    the other readings leave the caller's variable when they do. *)

Record board_services (V : Type) := mk_board_services {
  esp_timer_get_time : io V Z;
  board_delay_ms : Z -> io V unit;
  stop_requested : io V bool;
  pools_unavailable : io V bool;
  nvs_asic_frequency : io V f32;
  nvs_asic_voltage : io V Z;
  call_get_info : io V (esp_err_t * option bzm_bridge_info_t);
  call_get_rx_stats : io V (esp_err_t * bzm_bridge_rx_stats_t);
  call_get_safety_status : io V (esp_err_t * bzm_bridge_safety_status_t);
  call_arm_safety : io V (esp_err_t * bzm_bridge_safety_status_t);
  call_safety_heartbeat : io V (esp_err_t * bzm_bridge_safety_status_t);
  call_clear_safety_fault : io V (esp_err_t * bzm_bridge_safety_status_t);
  call_disarm_safety : io V (esp_err_t * bzm_bridge_safety_status_t);
  call_set_asic_reset : bool -> io V esp_err_t;
  call_set_5v_enabled : bool -> io V esp_err_t;
  call_get_fan_rpm : io V (esp_err_t * option Z);
  call_bridge_is_initialized : io V bool;
  Thermal_set_fan_percent : f32 -> io V esp_err_t;
  vcore_device : device_config_t;
  vcore : vcore_services V;
  TPS546_verify_active_config : io V esp_err_t;
  staged_hold_reset : io V unit;
  staged_set_dispatch_authorizer : io V unit;
  staged_set_operation_authorizer : io V unit;
  staged_initialize : io V ((bzm_bringup_outcome_t * bzm_bringup_report_t) * bool);
  staged_chain4 : io V ((bzm_bringup_outcome_t * bzm_bringup_report_t) * bool);
  staged_sensors : bzm_bringup_sensor_profile_t -> bzm_bringup_telemetry_policy_t ->
    io V ((bzm_bringup_outcome_t * bzm_bringup_report_t) * bool);
  staged_clocks : bzm_bringup_pll_profile_t -> bzm_bringup_telemetry_policy_t ->
    io V ((bzm_bringup_outcome_t * bzm_bringup_report_t) * bool);
  staged_balanced_ramp : bzm_bringup_telemetry_policy_t ->
    io V ((bzm_bringup_outcome_t * bzm_bringup_report_t) * bool);
  staged_running : bzm_bringup_telemetry_policy_t ->
    io V ((bzm_bringup_outcome_t * bzm_bringup_report_t) * bool);
  staged_frequency_domains_step_live : list (list f32) -> bool ->
    io V (bzm_bringup_outcome_t * bool);
  staged_get_state : io V (option bzm_bringup_state_t);
  staged_poll : Z -> io V unit;
  staged_get_sensor_parser_baseline : io V (option bzm_serial_parser_stats_t);
  staged_get_parser_baseline : io V (option bzm_serial_parser_stats_t);
  staged_get_running_parser_baseline : io V (option bzm_serial_parser_stats_t);
  get_parser_stats : io V (option bzm_serial_parser_stats_t);
  get_telemetry_snapshot : io V (option bzm_telemetry_store_t);
  running_stats_snapshot : io V (option bzm_running_stats_t);
  work_replacement_snapshot : io V (option (Z * Z * bool));
  driver_state_init : io V bool;
  runtime_alloc : io V bool;
  create_io_task : io V bool;
  io_turns : io V nat;
}.
Arguments mk_board_services {V}.
Arguments esp_timer_get_time {V}.
Arguments board_delay_ms {V}.
Arguments stop_requested {V}.
Arguments pools_unavailable {V}.
Arguments nvs_asic_frequency {V}.
Arguments nvs_asic_voltage {V}.
Arguments call_get_info {V}.
Arguments call_get_rx_stats {V}.
Arguments call_get_safety_status {V}.
Arguments call_arm_safety {V}.
Arguments call_safety_heartbeat {V}.
Arguments call_clear_safety_fault {V}.
Arguments call_disarm_safety {V}.
Arguments call_set_asic_reset {V}.
Arguments call_set_5v_enabled {V}.
Arguments call_get_fan_rpm {V}.
Arguments call_bridge_is_initialized {V}.
Arguments Thermal_set_fan_percent {V}.
Arguments vcore_device {V}.
Arguments vcore {V}.
Arguments TPS546_verify_active_config {V}.
Arguments staged_hold_reset {V}.
Arguments staged_set_dispatch_authorizer {V}.
Arguments staged_set_operation_authorizer {V}.
Arguments staged_initialize {V}.
Arguments staged_chain4 {V}.
Arguments staged_sensors {V}.
Arguments staged_clocks {V}.
Arguments staged_balanced_ramp {V}.
Arguments staged_running {V}.
Arguments staged_frequency_domains_step_live {V}.
Arguments staged_get_state {V}.
Arguments staged_poll {V}.
Arguments staged_get_sensor_parser_baseline {V}.
Arguments staged_get_parser_baseline {V}.
Arguments staged_get_running_parser_baseline {V}.
Arguments get_parser_stats {V}.
Arguments get_telemetry_snapshot {V}.
Arguments running_stats_snapshot {V}.
Arguments work_replacement_snapshot {V}.
Arguments driver_state_init {V}.
Arguments runtime_alloc {V}.
Arguments create_io_task {V}.
Arguments io_turns {V}.

Section board.
Context {V : Type} (k : board_config_t) (b : board_services V).

(** The state of the board beside the world. *)
Abbreviation B := (bzm_runtime_state_t * V)%type.

Definition runtime : io B bzm_runtime_state_t := fun w => (fst w, w).
Definition modify (f : bzm_runtime_state_t -> bzm_runtime_state_t) : io B unit := fun '(r, v) => (tt, (f r, v)).
Definition device {A} (m : io V A) : io B A := fun '(r, v) => let '(a, v) := m v in (a, (r, v)).
Definition staged {A} (m : io V (A * bool)) : io B A :=
  let! (a, refused) := device m in
  let! _ := if (refused : bool) then modify (fun r => r <| execution_cancelled := true |>) else io_ret tt in
  io_ret a.
(** [a && b()] *)
Definition and_then {W} (a : bool) (m : io W bool) : io W bool := if a then m else io_ret false.

Definition acknowledged (m : io V esp_err_t) : io B bool := let! err := device m in io_ret (is_ok err).

Definition now_ms : io B Z := let! us := device (esp_timer_get_time b) in io_ret (u64 (us / 1000)).

(** ** Authorizers *)

Definition stop_or_no_pools : io B bool :=
  let! stop := device (stop_requested b) in
  if (stop : bool) then io_ret true else device (pools_unavailable b).

Definition close_dispatch_locked : io B unit :=
  modify (fun r => r <| dispatch_enabled := false; dispatch_deadline_ms := 0 |>).

Definition runtime_dispatch_authorizer : io B bool :=
  let! stop := stop_or_no_pools in
  let! r := runtime in
  if (stop : bool) || pause_requested r || negb (dispatch_enabled r) then io_ret false
  else
    let deadline := dispatch_deadline_ms r in
    if deadline =? 0 then io_ret false
    else let! now := now_ms in io_ret (now <? deadline).

Definition runtime_execution_authorizer : io B bool :=
  let! stop := stop_or_no_pools in
  if (stop : bool) then
    let! _ := modify (fun r => r <| execution_cancelled := true |>) in
    io_ret false
  else
    let! r := runtime in
    let! now := now_ms in
    io_ret (bzm_lease_guard_deadline_allows (execution_deadline_ms r) now).

Definition runtime_is_holding (r : bzm_runtime_state_t) : bool := active_owner (owner (supervisor r)).

Definition sync_dispatch_locked : io B unit :=
  let! current_ms := now_ms in
  let! r := runtime in
  if bzm_runtime_health_status_is_bad (health r) || negb (bzm_supervisor_dispatch_allowed (supervisor r) current_ms)
  then close_dispatch_locked
  else modify (fun r => r <| dispatch_deadline_ms := lease_deadline_ms (supervisor r); dispatch_enabled := true |>).

(** ** Mining evidence *)

Definition running_evidence_config : bzm_running_evidence_config_t :=
  {| required_chip_engine_writes := u32 (BZM_ENGINES_PER_ASIC * BZM_BRINGUP_ASIC_COUNT);
     minimum_valid_results := CONFIG_MIN_VALID_RESULTS k; allow_mapping_recovery := true;
     maximum_mapping_rejections := CONFIG_MAX_MAPPING_REJECTIONS k;
     maximum_local_rejections := CONFIG_MAX_LOCAL_REJECTIONS k;
     proof_timeout_ms := u32 (CONFIG_PROOF_TIMEOUT_SECONDS k * 1000);
     recovery_timeout_ms := CONFIG_RESULT_RECOVERY_TIMEOUT_MS k |}.

Definition pending_evidence : bzm_running_evidence_result_t :=
  result_with BZM_RUNNING_EVIDENCE_PENDING BZM_RUNNING_EVIDENCE_FAULT_NONE None 0.

Definition reset_running_evidence (r : bzm_runtime_state_t) : bzm_runtime_state_t :=
  r <| running_evidence_monitoring := false; running_evidence_started_at_ms := 0;
       running_evidence_baseline := zero_stats; running_evidence_frequency_transition := false;
       running_evidence_lifecycle := bzm_running_evidence_lifecycle_init; running_evidence := pending_evidence |>.

(** Whether the evidence proves that the work of a frequency transition was replaced. *)
Definition transition_proved (e : bzm_running_evidence_result_t) (c : bzm_running_evidence_config_t) : bool :=
  let o := observed e in
  bool_decide (evidence_status e = BZM_RUNNING_EVIDENCE_GOOD) && negb (dispatch_batches o =? 0) &&
  (required_chip_engine_writes c <=? dispatched_chip_engines o) && (minimum_valid_results c <=? mapped_results o) &&
  (minimum_valid_results c <=? locally_valid_results o) && negb (mapping_recovery_pending o) &&
  negb (local_recovery_pending o).

Definition set_running_stage (result : bzm_stage_result_t) (r : bzm_runtime_state_t) : bzm_runtime_state_t :=
  r <| supervisor := (supervisor r) <| report := set_stage BZM_STAGE_RUNNING result (report (supervisor r)) |> |>.

Definition evaluate_running_evidence_locked (current_ms : Z) : io B bzm_running_evidence_result_t :=
  let! r := runtime in
  if negb (running_evidence_monitoring r) then io_ret (running_evidence r)
  else
    let! current := device (running_stats_snapshot b) in
    match current with
    | None =>
        let e := result_with BZM_RUNNING_EVIDENCE_BAD BZM_RUNNING_EVIDENCE_FAULT_INVALID_CONFIGURATION None 0 in
        let! _ := modify (fun r => r <| running_evidence := e |>) in
        io_ret e
    | Some current =>
        let c := running_evidence_config in
        let c := if running_evidence_frequency_transition r
                 then c <| recovery_timeout_ms := BZM_FREQUENCY_TRANSITION_PROOF_TIMEOUT_MS |> else c in
        let '(e, l) :=
          bzm_running_evidence_track (Some (running_evidence_lifecycle r)) (Some (running_evidence_baseline r))
            (Some current) (Some c) (running_evidence_started_at_ms r) current_ms in
        let! _ := modify (fun r =>
          r <| running_evidence := e; running_evidence_lifecycle := default (running_evidence_lifecycle r) l;
               running_evidence_frequency_transition :=
                 running_evidence_frequency_transition r && negb (transition_proved e c) |>) in
        let! _ :=
          if decide (evidence_status e = BZM_RUNNING_EVIDENCE_BAD) then
            modify (set_running_stage
              (bzm_validation_result BZM_CHECK_BAD BZM_VALIDATION_CODE_STAGE_FAILED (Some EmptyString)))
          else io_ret tt in
        io_ret e
    end.

(** ** Health *)

Definition telemetry_policy : bzm_bringup_telemetry_policy_t :=
  {| bounds :=
       {| temperature_min_c := f32_of_Z (CONFIG_TEMP_MIN_C k); temperature_max_c := f32_of_Z (CONFIG_TEMP_MAX_C k);
          ch0_min_mv := f32_of_Z (CONFIG_STACK_MV_MIN k); ch0_max_mv := f32_of_Z (CONFIG_STACK_MV_MAX k);
          ch1_min_mv := f32_of_Z (CONFIG_STACK_MV_MIN k); ch1_max_mv := f32_of_Z (CONFIG_STACK_MV_MAX k);
          ch2_abs_max_mv := f32_of_Z (CONFIG_INTERSTACK_DIFF_ABS_MAX_MV k);
          max_stack_spread_mv := f32_of_Z (CONFIG_STACK_MAX_SPREAD_MV k) |};
     max_age_us := u64 (CONFIG_TELEMETRY_MAX_AGE_MS k * 1000);
     ch2_confirm_samples := CONFIG_CH2_CONFIRM_SAMPLES k |}.

Definition board_tps_bounds (r : bzm_runtime_state_t) : bzm_runtime_health_tps_bounds_t :=
  {| vin_min_v := vin_off BZM_TPS546_BIRDS_PROFILE; vin_max_v := vin_ov_fault_limit BZM_TPS546_BIRDS_PROFILE;
     expected_vout_command_v := rail_command_v r;
     vout_command_tolerance_v := BZM_TPS546_VOUT_READBACK_TOLERANCE_V;
     vout_min_v := fsub (rail_command_v r) BZM_TPS546_VOUT_OPERATING_TOLERANCE_V;
     vout_max_v := fadd (rail_command_v r) BZM_TPS546_VOUT_OPERATING_TOLERANCE_V;
     iout_min_a := f32_of_Z (-1); iout_max_a := iout_oc_warn_limit BZM_TPS546_BIRDS_PROFILE;
     tps_temperature_min_c := f32_of_Z (-40);
     tps_temperature_max_c := f32_of_Z (ot_warn_limit BZM_TPS546_BIRDS_PROFILE) |}.

Definition no_tps_sample : bzm_runtime_health_tps_sample_t :=
  mk_tps_sample false false 0 0 (f32_of_Z 0) false (f32_of_Z 0) (f32_of_Z 0) (f32_of_Z 0) (f32_of_Z 0).

(** The heartbeat: the status for the check, [None] when there is none. *)
Definition sample_bridge : io B (option bzm_bridge_safety_status_t) :=
  let! (err, status) := device (call_safety_heartbeat b) in
  if is_ok err && valid status then
    let! _ := modify (fun r => r <| runtime_bridge_status := status; bridge_status_valid := true |>) in
    io_ret (Some status)
  else
    let! _ := modify (fun r => r <| bridge_status_valid := false |>) in
    io_ret None.

Definition sample_fan : io B (option Z) :=
  let! (err, rpm) := device (call_get_fan_rpm b) in
  let rpm := default 0 rpm in
  if is_ok err then
    let! _ := modify (fun r => r <| runtime_fan_rpm := rpm |>) in
    io_ret (Some rpm)
  else io_ret None.

Definition sample_rx_stats : io B unit :=
  let! (err, stats) := device (call_get_rx_stats b) in
  let ok := is_ok err && stats_valid stats in
  modify (fun r => (r <| bridge_rx_stats_valid := ok |>) <| bridge_rx_stats := if ok then stats else bridge_rx_stats r |>).

Definition tps_sample_of (rail : f32) (s : TPS546_StatusSnapshot) (pgood : bool) : bzm_runtime_health_tps_sample_t :=
  {| available := true; RuntimeHealth.pgood := pgood; operation := snap_operation s; status_word := snap_status_word s;
     vout_command_v := snap_vout_command s;
     vout_command_matches_expected :=
       is_finite (snap_vout_command s) &&
       fle (fabs (fsub (snap_vout_command s) rail)) BZM_TPS546_VOUT_READBACK_TOLERANCE_V;
     vin_v := read_vin s; vout_v := read_vout s; iout_a := read_iout s;
     tps_temperature_c := f32_of_Z (read_temp1 s) |}.

Definition rail_snapshot : io B (esp_err_t * TPS546_StatusSnapshot * bool) := device (VCORE_bzm_snapshot (vcore b)).

Definition sample_power : io B bzm_runtime_health_tps_sample_t :=
  let! (err, s, pgood) := rail_snapshot in
  let! r := runtime in
  io_ret (if is_ok err then tps_sample_of (rail_command_v r) s pgood else no_tps_sample).

(** The realignment of the parser: its result, and the baseline that the check uses. *)
Definition observe_realign (current : bzm_serial_parser_stats_t) : io B (bzm_parser_realign_result_t * bzm_serial_parser_stats_t) :=
  let! r := runtime in
  let '(result, realign) :=
    bzm_parser_realign_observe (parser_realign r) (Some current) (CONFIG_PARSER_REALIGN_MAX_DISCARDS k)
      (CONFIG_PARSER_REALIGN_CLEAN_WINDOWS k) (CONFIG_PARSER_REALIGN_MAX_WINDOWS k)
      (CONFIG_PARSER_REALIGN_MAX_EVENTS k) in
  let! _ := modify (fun r => r <| parser_realign := realign |>) in
  let baseline := runtime_parser_baseline r in
  let suppressed :=
    mk_parser_stats (stats_emitted_frames baseline) (stats_discarded_bytes current)
      (stats_emitted_frames_at_last_discard baseline) (stats_unexpected_register_headers current)
      (stats_dropped_results baseline) (stats_rejected_result_frames baseline)
      (stats_unmatched_register_frames baseline) (stats_unsolicited_noop_frames baseline)
      (stats_invalid_noop_frames baseline) (stats_telemetry_decode_failures baseline)
      (buffered_bytes baseline) (queued_results baseline) (recent_discarded_bytes baseline) in
  let! _ :=
    if decide (result = BZM_PARSER_REALIGN_RECOVERED)
    then modify (fun r => r <| runtime_parser_baseline := default (runtime_parser_baseline r) (accepted realign) |>)
    else io_ret tt in
  io_ret (result,
    match result with
    | BZM_PARSER_REALIGN_PENDING | BZM_PARSER_REALIGN_RECOVERED => suppressed
    | _ => baseline
    end).

(** What a confirmation makes of a GOOD verdict. *)
Definition confirmed_health (h : bzm_runtime_health_result_t) (verdict : bzm_ch2_confirmation_result_t)
    (samples : Z) (f : bzm_runtime_health_fault_t) : bzm_runtime_health_result_t :=
  match verdict with
  | BZM_CH2_CONFIRMATION_CONTINUOUS | BZM_CH2_CONFIRMATION_INVALID => RuntimeHealth.bad f
  | _ => if negb (samples =? 0) then mk_health_result (health_status h) FAULT_NONE else h
  end.

Definition confirm_clocks (i : bzm_runtime_health_input_t) : io B unit :=
  let! r := runtime in
  let o := bzm_pll_lock_confirmation_observe (pll_lock_confirmation r) (telemetry_store i) (telemetry_now_us i)
    (telemetry_max_age_us i) (CONFIG_PLL_LOCK_CONFIRM_SAMPLES k) in
  modify (fun r => r <| pll_lock_confirmation := counters o;
    health := confirmed_health (health r) (verdict o) (observed_consecutive_samples o) FAULT_TELEMETRY_CLOCK_UNLOCKED |>).

Definition confirm_ch2 (i : bzm_runtime_health_input_t) : io B unit :=
  let! r := runtime in
  let o := bzm_ch2_confirmation_observe (ch2_confirmation r) (telemetry_store i) (RuntimeHealth.telemetry_bounds i)
    (CONFIG_CH2_CONFIRM_SAMPLES k) in
  modify (fun r => r <| ch2_confirmation := counters o;
    health := confirmed_health (health r) (verdict o) (observed_consecutive_samples o) FAULT_TELEMETRY_BOUNDS |>).

(** [if (RUNTIME.health.status == BZM_RUNTIME_HEALTH_GOOD && ...)] *)
Definition when_good (condition : bool) (m : io B unit) : io B unit :=
  let! r := runtime in
  if negb (bzm_runtime_health_status_is_bad (health r)) && condition then m else io_ret tt.

Definition when {A} (condition : bool) (m : io B A) (otherwise : A) : io B A :=
  if condition then m else io_ret otherwise.

(** The parser counters of a held board, when there are any. *)
Definition sample_parser : io B (option bzm_serial_parser_stats_t) :=
  let! _ := device (staged_poll b 25) in
  let! r := runtime in
  if parser_baseline_valid r then device (get_parser_stats b) else io_ret None.

Definition sample_runtime_health_locked : io B bzm_runtime_health_result_t :=
  let! r := runtime in
  let reached := reached_stage (report (supervisor r)) in
  let holding := runtime_is_holding r in
  let c := config (supervisor r) in
  let! started_us := device (esp_timer_get_time b) in
  let! status := when holding sample_bridge
    (if bridge_status_valid r then Some (runtime_bridge_status r) else None) in
  let! fan := when holding sample_fan None in
  let! _ := when holding sample_rx_stats tt in
  let! power := when (holding && (BZM_STAGE_POWER_RAIL <=? reached)) sample_power no_tps_sample in
  let! parser := when (holding && (BZM_STAGE_CHAIN_4 <=? reached)) sample_parser
    (if parser_baseline_valid r then Some zero_parser_stats else None) in
  let! (_, baseline) :=
    when (holding && (reached =? BZM_STAGE_RUNNING) && bool_decide (is_Some parser) && parser_realign_valid r)
      (observe_realign (default zero_parser_stats parser)) (BZM_PARSER_REALIGN_CLEAN, runtime_parser_baseline r) in
  let! telemetry := when (holding && (BZM_STAGE_SENSORS <=? reached)) (device (get_telemetry_snapshot b)) None in
  let! sampled_us := when (holding && (BZM_STAGE_SENSORS <=? reached)) (device (esp_timer_get_time b)) started_us in
  let i :=
    {| health_stage := reached; RuntimeHealth.holding := holding;
       bridge_status_available := bool_decide (is_Some status);
       RuntimeHealth.bridge_status := default (runtime_bridge_status r) status;
       require_independent_kill :=
         cfg_production_mode c && negb (cfg_board_managed_safety c) && (BZM_STAGE_POWER_RAIL <=? reached);
       fan_tach_available := bool_decide (is_Some fan); RuntimeHealth.fan_rpm := default 0 fan;
       fan_min_rpm := CONFIG_FAN_MIN_RPM k; require_fan_full := reached <? BZM_STAGE_RUNNING;
       RuntimeHealth.tps := power; tps_bounds := board_tps_bounds r;
       telemetry_available := bool_decide (is_Some telemetry);
       telemetry_store := default bzm_telemetry_store_init telemetry;
       RuntimeHealth.telemetry_bounds := bounds telemetry_policy;
       telemetry_now_us := u64 sampled_us; telemetry_max_age_us := max_age_us telemetry_policy;
       defer_ch2_bounds := true; defer_clock_locks := true;
       parser_stats_available := bool_decide (is_Some parser);
       RuntimeHealth.parser_baseline := baseline;
       parser_current := default zero_parser_stats parser |} in
  let! _ := modify (fun r => r <| health := bzm_runtime_health_evaluate (Some i) |>) in
  let! _ := when_good (holding && (BZM_STAGE_CLOCKS <=? reached) && telemetry_available i) (confirm_clocks i) in
  let! _ := when_good (holding && (BZM_STAGE_SENSORS <=? reached) && telemetry_available i) (confirm_ch2 i) in
  let! now := now_ms in
  let! _ := modify (fun r => r <| health_sampled_at_ms := now |>) in
  let! r := runtime in
  io_ret (health r).

(** ** The bridge's evidence *)

Definition bridge_status_runtime_good (s : bzm_bridge_safety_status_t) : bool :=
  valid s && (fault s =? BZM_BRIDGE_SAFETY_FAULT_NONE) && negb (trip_input_asserted s) &&
  ((runtime_verdict s =? BZM_BRIDGE_SAFETY_RUNTIME_GOOD_SAFE_OFF) ||
   (runtime_verdict s =? BZM_BRIDGE_SAFETY_RUNTIME_GOOD_CONTROLLED)).

Definition bridge_control_contract_compatible (s : bzm_bridge_safety_status_t) : bool :=
  bridge_status_runtime_good s && (Bridge.stage s =? BZM_BRIDGE_SAFETY_STAGE_TRIP_LATCH) &&
  all_bits (capabilities s) required_capabilities.

Definition bridge_has_independent_kill (s : bzm_bridge_safety_status_t) : bool :=
  bridge_status_runtime_good s && (Bridge.stage s =? BZM_BRIDGE_SAFETY_STAGE_TRIP_LATCH) &&
  (production_verdict s =? BZM_BRIDGE_SAFETY_PRODUCTION_GOOD) && all_bits (capabilities s) kill_capabilities &&
  all_bits (evidence s) kill_capabilities.

Definition refresh_bridge_evidence_locked : io B unit :=
  let! (err, info) := device (call_get_info b) in
  let! r := runtime in
  let info := default (bridge_info r) info in
  let info_valid := is_ok err && bzm_bridge_info_supports_raw_rx info in
  let! _ := modify (fun r => r <| bridge_info := info; bridge_info_valid := info_valid |>) in
  let! status_valid :=
    when info_valid
      (let! (err, status) := device (call_get_safety_status b) in
       let! _ := modify (fun r => r <| runtime_bridge_status := status |>) in
       io_ret (is_ok err && valid status)) false in
  let! _ := modify (fun r => r <| bridge_status_valid := status_valid |>) in
  let! stats_ok :=
    when info_valid
      (let! (err, stats) := device (call_get_rx_stats b) in
       let! _ := modify (fun r => r <| bridge_rx_stats := stats |>) in
       io_ret (is_ok err && stats_valid stats)) false in
  modify (fun r =>
    let c := config (supervisor r) in
    (r <| bridge_rx_stats_valid := stats_ok |>)
      <| supervisor := (supervisor r) <| config :=
           mk_supervisor_config (cfg_build_max_stage c) (cfg_implemented_max_stage c) (cfg_powered_stages_compiled c)
             (cfg_production_mode c) (status_valid && bridge_has_independent_kill (runtime_bridge_status r))
             (cfg_allow_esp_only_kill_in_lab c) (cfg_board_managed_safety c) (maximum_lease_ms c) |> |>).

(** ** The safe-off *)

(** The regulator is off and its output discharged. *)
Definition discharged (err : esp_err_t) (s : TPS546_StatusSnapshot) (pgood : bool) : bool :=
  is_ok err && negb pgood && (Z.land (snap_operation s) OPERATION_ON =? 0) &&
  fle (fmul (read_vout s) (f32_of_Z 1000)) (f32_of_Z (CONFIG_SAFE_OFF_VCORE_MV k)).

(** [for (waited = 0; waited <= BZM_SAFE_OFF_TIMEOUT_MS; waited += BZM_SAFE_OFF_SAMPLE_MS)] *)
Fixpoint wait_discharged (samples : nat) : io B bool :=
  match samples with
  | O => io_ret false
  | S samples =>
      let! (err, s, pgood) := rail_snapshot in
      if discharged err s pgood then io_ret true
      else
        let! _ := device (board_delay_ms b BZM_SAFE_OFF_SAMPLE_MS) in
        wait_discharged samples
  end.

Definition discharge_samples : nat := Z.to_nat (BZM_SAFE_OFF_TIMEOUT_MS / BZM_SAFE_OFF_SAMPLE_MS + 1).

Definition required_safe_evidence : Z :=
  Z.lor (Z.lor BZM_BRIDGE_SAFETY_EVIDENCE_OUTPUTS_SAFE BZM_BRIDGE_SAFETY_EVIDENCE_TRIP_CLEAR)
        BZM_BRIDGE_SAFETY_EVIDENCE_FAULT_CLEAR.

Definition bridge_safe_off (s : bzm_bridge_safety_status_t) : bool :=
  (Bridge.state s =? BZM_BRIDGE_SAFETY_STATE_SAFE_OFF) && (fault s =? BZM_BRIDGE_SAFETY_FAULT_NONE) &&
  (runtime_verdict s =? BZM_BRIDGE_SAFETY_RUNTIME_GOOD_SAFE_OFF) && (lease_remaining_ms s =? 0) &&
  negb (five_volt_enabled s) && asic_reset_asserted s && fan_full s && (fan_percent s =? 100) &&
  negb (trip_input_asserted s) && all_bits (evidence s) required_safe_evidence.

(** The status that the safe-off is judged by: whether the commands were acknowledged and
    whether the status is valid, after a retained fault was cleared. *)
Definition final_bridge_status (commands_ok electrical_safe : bool) : io B (bool * bool) :=
  let! (err, status) := device (call_get_safety_status b) in
  let status_valid := is_ok err && valid status in
  let! _ := modify (fun r => r <| runtime_bridge_status := status; bridge_status_valid := status_valid |>) in
  if electrical_safe && status_valid && negb (fault status =? BZM_BRIDGE_SAFETY_FAULT_NONE) &&
     bzm_bridge_safety_status_allows_fault_clear status
  then
    let! (err, cleared) := device (call_clear_safety_fault b) in
    let cleared_valid := is_ok err && valid cleared in
    let! _ := modify (fun r => r <| runtime_bridge_status := cleared; bridge_status_valid := cleared_valid |>) in
    io_ret (is_ok err && commands_ok, cleared_valid)
  else io_ret (commands_ok, status_valid).

Definition runtime_force_safe_off : io B bzm_stage_result_t :=
  let! _ := close_dispatch_locked in
  let! _ := modify (fun r => r <| running_evidence_monitoring := false; parser_baseline_valid := false;
                                  parser_realign_valid := false; ASIC_initalized := false |>) in
  let! _ := device (staged_hold_reset b) in
  let! _ := device (staged_set_dispatch_authorizer b) in
  let! _ := device (call_disarm_safety b) in
  let! reset_ok := acknowledged (call_set_asic_reset b false) in
  let! five_volt_ok := acknowledged (call_set_5v_enabled b false) in
  let! fan_ok := acknowledged (Thermal_set_fan_percent b (f32_of_Z 1)) in
  let! rail_ok := acknowledged (VCORE_bzm_set_rail_enabled (vcore_device b) (vcore b) false) in
  let! electrical_safe := wait_discharged discharge_samples in
  let! (commands_ok, status_valid) :=
    final_bridge_status (reset_ok && five_volt_ok && fan_ok && rail_ok) electrical_safe in
  let! r := runtime in
  let bridge_safe := status_valid && bridge_safe_off (runtime_bridge_status r) in
  if negb commands_ok || negb electrical_safe || negb bridge_safe then
    io_ret (bzm_validation_result BZM_CHECK_BAD BZM_VALIDATION_CODE_SAFE_OFF_FAILED (Some "safe-off failed: commands="))
  else
    io_ret (bzm_validation_result BZM_CHECK_GOOD BZM_VALIDATION_CODE_STAGE_OK
      (Some "reset asserted, 5 V and TPS off, fan full, PGOOD low, VCORE discharged, bridge safety readback coherent")).

(** ** The stages *)

Definition stage_failed (d : string) : bzm_stage_result_t :=
  bzm_validation_result BZM_CHECK_BAD BZM_VALIDATION_CODE_STAGE_FAILED (Some d).
Definition stage_ok (d : string) : bzm_stage_result_t :=
  bzm_validation_result BZM_CHECK_GOOD BZM_VALIDATION_CODE_STAGE_OK (Some d).

(** The outputs of a valid, good status of a bridge in control. *)
Definition controlled_outputs (s : bzm_bridge_safety_status_t) (five_volt reset : bool) : bool :=
  valid s && (Bridge.state s =? BZM_BRIDGE_SAFETY_STATE_CONTROLLED) && Bool.eqb (five_volt_enabled s) five_volt &&
  Bool.eqb (asic_reset_asserted s) reset && fan_full s && bridge_status_runtime_good s.

Definition leased (s : bzm_bridge_safety_status_t) : bool :=
  (Bridge.state s =? BZM_BRIDGE_SAFETY_STATE_CONTROLLED) && negb (lease_remaining_ms s =? 0).

(** A status command whose answer has to pass a check. *)
Definition checked_status (m : io V (esp_err_t * bzm_bridge_safety_status_t))
    (check : bzm_bridge_safety_status_t -> bool) : io B bool :=
  let! (err, status) := device m in io_ret (is_ok err && check status).

Definition keep_status (m : io V (esp_err_t * bzm_bridge_safety_status_t))
    (check : bzm_bridge_safety_status_t -> bool) : io B bool :=
  let! (err, status) := device m in
  if is_ok err && check status then
    let! _ := modify (fun r => r <| runtime_bridge_status := status; bridge_status_valid := true |>) in
    io_ret true
  else io_ret false.

Definition read_bridge_info : io B bool :=
  let! (err, info) := device (call_get_info b) in
  let! _ := modify (fun r => r <| bridge_info := default (bridge_info r) info |>) in
  let! r := runtime in
  let ok := is_ok err && bzm_bridge_info_supports_raw_rx (bridge_info r) in
  let! _ := modify (fun r => r <| bridge_info_valid := ok |>) in
  io_ret ok.

Definition read_rx_stats : io B bool :=
  let! (err, stats) := device (call_get_rx_stats b) in
  let ok := is_ok err && stats_valid stats in
  let! _ := modify (fun r => r <| bridge_rx_stats := stats; bridge_rx_stats_valid := ok |>) in
  io_ret ok.

Definition read_fan_rpm : io B bool :=
  let! (err, rpm) := device (call_get_fan_rpm b) in
  let! _ := modify (fun r => r <| runtime_fan_rpm := default (runtime_fan_rpm r) rpm |>) in
  let! r := runtime in
  io_ret (is_ok err && negb (runtime_fan_rpm r <? CONFIG_FAN_MIN_RPM k)).

Definition run_controls : io B bzm_stage_result_t :=
  let! info_ok := read_bridge_info in
  if negb info_ok then
    io_ret (bzm_validation_result BZM_CHECK_BLOCKED BZM_VALIDATION_CODE_NOT_IMPLEMENTED
      (Some "bridge protocol 1.0 raw RX and receive stats are required"))
  else
    let! stats_ok := read_rx_stats in
    if negb stats_ok then io_ret (stage_failed "bridge receive stats are unavailable or malformed")
    else
      let! compatible := checked_status (call_get_safety_status b) (fun s =>
        valid s && (Bridge.state s =? BZM_BRIDGE_SAFETY_STATE_SAFE_OFF) && bridge_control_contract_compatible s) in
      if negb compatible
      then io_ret (stage_failed "bridge is unsafe, incompatible, or lacks required lease/trip control paths")
      else
        let! armed := checked_status (call_arm_safety b) leased in
        let! beating := and_then armed (checked_status (call_safety_heartbeat b) (fun s =>
          leased s && bridge_status_runtime_good s)) in
        if negb beating then io_ret (stage_failed "bridge arm/heartbeat lease proof failed")
        else
          let! fan_set := acknowledged (Thermal_set_fan_percent b (f32_of_Z 1)) in
          let! fan_ok := and_then fan_set read_fan_rpm in
          if negb fan_ok then
            let! _ := device (call_disarm_safety b) in
            io_ret (stage_failed "fan full-speed command or fresh tach threshold failed")
          else
            let! disarmed := keep_status (call_disarm_safety b) (fun s =>
              valid s && (Bridge.state s =? BZM_BRIDGE_SAFETY_STATE_SAFE_OFF) && asic_reset_asserted s &&
              negb (five_volt_enabled s) && fan_full s) in
            if negb disarmed
            then io_ret (stage_failed "bridge did not return to coherent safe outputs after lease proof")
            else io_ret (stage_ok "protocol 1.0, safety status, lease heartbeat, trip-clear state and fan tach are GOOD").

(** The regulator holds the start-up voltage. *)
Definition rail_proved (err : esp_err_t) (s : TPS546_StatusSnapshot) (pgood : bool) : bool :=
  is_ok err && pgood && negb (Z.land (snap_operation s) OPERATION_ON =? 0) &&
  vout_command_matches_active_config s && is_finite (snap_vout_command s) &&
  negb (flt BZM_TPS546_VOUT_READBACK_TOLERANCE_V (fabs (fsub (snap_vout_command s) BZM_TPS546_FIXED_VOUT_V))) &&
  is_finite (read_vin s) && is_finite (read_vout s) && is_finite (read_iout s) &&
  negb (flt (read_vin s) (vin_off BZM_TPS546_BIRDS_PROFILE)) && negb (flt (read_vout s) (f32_lit 265 100)) &&
  negb (flt (f32_lit 295 100) (read_vout s)) && negb (flt (read_iout s) (f32_of_Z (-1))) &&
  negb (flt (iout_oc_warn_limit BZM_TPS546_BIRDS_PROFILE) (read_iout s)) &&
  negb (ot_warn_limit BZM_TPS546_BIRDS_PROFILE <? read_temp1 s) && (snap_status_word s =? 0).

Definition run_power_rail : io B bzm_stage_result_t :=
  let! armed := checked_status (call_arm_safety b) (fun s =>
    controlled_outputs s false true && negb (lease_remaining_ms s =? 0)) in
  if negb armed then io_ret (stage_failed "bridge lease could not be armed with reset asserted, 5 V off and fan full")
  else
    let! enabled := acknowledged (VCORE_bzm_set_rail_enabled (vcore_device b) (vcore b) true) in
    if negb enabled then io_ret (stage_failed "TPS rail enable or live power validation failed")
    else
      let! profile_ok := acknowledged (TPS546_verify_active_config b) in
      if negb profile_ok then io_ret (stage_failed "TPS profile readback mismatch: ")
      else
        let! (err, s, pgood) := rail_snapshot in
        if negb (rail_proved err s pgood) then io_ret (stage_failed "TPS stage-2 bad: PGOOD=")
        else
          let! coherent := keep_status (call_get_safety_status b) (fun s => controlled_outputs s false true) in
          if negb coherent
          then io_ret (stage_failed "bridge outputs changed unexpectedly while the TPS rail was validated")
          else
            io_ret (stage_ok
              "TPS command is locked at 2.8 V with PGOOD and fresh telemetry; reset remains asserted and bridge 5 V remains off").

Definition bringup_stage_result (stage_name : string) (o : bzm_bringup_outcome_t) (r : bzm_bringup_report_t)
    : bzm_stage_result_t :=
  let d := Some (stage_name ++ " " ++ bzm_bringup_outcome_name o ++ ": reason=" ++ bzm_bringup_reason_name (reason r))%string in
  match o with
  | BZM_BRINGUP_GOOD => bzm_validation_result BZM_CHECK_GOOD BZM_VALIDATION_CODE_STAGE_OK d
  | BZM_BRINGUP_BLOCKED =>
      bzm_validation_result BZM_CHECK_BLOCKED
        (if decide (reason r = BZM_BRINGUP_REASON_BALANCED_PAIR_UNAVAILABLE) then BZM_VALIDATION_CODE_NOT_IMPLEMENTED
         else BZM_VALIDATION_CODE_PREREQUISITE_FAILED) d
  | BZM_BRINGUP_BAD => bzm_validation_result BZM_CHECK_BAD BZM_VALIDATION_CODE_STAGE_FAILED d
  end.

Definition io_report : bzm_bringup_report_t := mk_bringup_report BZM_BRINGUP_BAD BZM_BRINGUP_REASON_IO 0 0 0 0 0 0.

(** A parser baseline that may be missing. *)
Definition take_parser_baseline (m : io V (option bzm_serial_parser_stats_t)) : io B bool :=
  let! stats := device m in
  let! _ := modify (fun r => r <| runtime_parser_baseline := default (runtime_parser_baseline r) stats;
                                  parser_baseline_valid := bool_decide (is_Some stats) |>) in
  io_ret (bool_decide (is_Some stats)).

Definition is_good_outcome (o : bzm_bringup_outcome_t) : bool := bool_decide (o = BZM_BRINGUP_GOOD).

(** The initialisation of the transport and the discovery of the chain. *)
Definition probe_chain : io B (bzm_bringup_outcome_t * bzm_bringup_report_t) :=
  let! (o, r) := staged (staged_initialize b) in
  if negb (is_good_outcome o) then io_ret (o, r)
  else
    let! _ := device (staged_set_dispatch_authorizer b) in
    let! baseline := take_parser_baseline (get_parser_stats b) in
    if negb baseline then io_ret (BZM_BRINGUP_BAD, io_report) else staged (staged_chain4 b).

Definition run_chain4 : io B bzm_stage_result_t :=
  let failed := stage_failed "chain power/reset precondition failed: expected leased 5 V on, reset asserted and fan full" in
  let! reset := acknowledged (call_set_asic_reset b false) in
  let! powered := and_then reset (acknowledged (call_set_5v_enabled b true)) in
  if negb powered then io_ret failed
  else
    let! (err, before) := device (call_get_safety_status b) in
    if negb (is_ok err && controlled_outputs before true true) then io_ret failed
    else
      let! (o, report) := probe_chain in
      let! (coherent, status) :=
        if is_good_outcome o then
          let! (err, status) := device (call_get_safety_status b) in
          io_ret (is_ok err && controlled_outputs status true false, status)
        else io_ret (true, before) in
      if negb coherent
      then io_ret (stage_failed "four-chip probe passed but bridge power/reset readback is incoherent")
      else
        let! _ := modify (fun r => r <| runtime_bridge_status := status; bridge_status_valid := valid status |>) in
        io_ret (bringup_stage_result "CHAIN_4" o report).

(** The end of a bring-up stage that has to leave a parser baseline. *)
Definition with_parser_baseline (stage_name missing : string) (o : bzm_bringup_outcome_t) (r : bzm_bringup_report_t)
    (m : io V (option bzm_serial_parser_stats_t)) : io B bzm_stage_result_t :=
  if negb (is_good_outcome o) then io_ret (bringup_stage_result stage_name o r)
  else
    let! baseline := take_parser_baseline m in
    io_ret (if negb baseline then stage_failed missing else bringup_stage_result stage_name o r).

Definition run_sensors : io B bzm_stage_result_t :=
  let! (o, r) :=
    staged (staged_sensors b (bzm_bringup_reference_sensor_profile (CONFIG_SENSOR_TDM_GAP_COUNT k)) telemetry_policy) in
  with_parser_baseline "SENSORS" "telemetry startup parser baseline is unavailable" o r
    (staged_get_sensor_parser_baseline b).

Definition run_clocks : io B bzm_stage_result_t :=
  let! (o, r) := staged (staged_clocks b bzm_bringup_pll_800_profile telemetry_policy) in
  io_ret (bringup_stage_result "CLOCKS" o r).

Definition run_balanced_ramp : io B bzm_stage_result_t :=
  let! (o, r) := staged (staged_balanced_ramp b telemetry_policy) in
  with_parser_baseline "BALANCED_RAMP" "engine activation parser baseline is unavailable" o r
    (staged_get_parser_baseline b).

Definition run_running : io B bzm_stage_result_t :=
  let! r := runtime in
  if negb (mining_stack_ready r) then
    io_ret (bzm_validation_result BZM_CHECK_BLOCKED BZM_VALIDATION_CODE_PREREQUISITE_FAILED
      (Some "network mining queue is not initialized yet"))
  else
    let! (o, report) := staged (staged_running b telemetry_policy) in
    if negb (is_good_outcome o) then io_ret (bringup_stage_result "RUNNING" o report)
    else
      let! baseline := take_parser_baseline (staged_get_running_parser_baseline b) in
      if negb baseline then io_ret (stage_failed "pre-mining quiet parser baseline is unavailable")
      else
        let! _ := modify (fun r => r <| parser_realign := bzm_parser_realign_init (Some (runtime_parser_baseline r)) |>) in
        let! r := runtime in
        let ready := bool_decide (is_Some (accepted (parser_realign r))) in
        let! _ := modify (fun r => r <| parser_realign_valid := ready |>) in
        if negb ready then io_ret (stage_failed "mining parser realignment baseline is unavailable")
        else
          let! stats := device (running_stats_snapshot b) in
          match stats with
          | None => io_ret (stage_failed "mining driver evidence baseline is unavailable")
          | Some stats =>
              let! _ := modify (fun r => r <| running_evidence_baseline := stats |>) in
              io_ret (bringup_stage_result "RUNNING" o report)
          end.

(** [None] for a number that is no stage. *)
Definition stage_runner (stage : Z) : option (io B bzm_stage_result_t) :=
  if stage =? BZM_STAGE_OFF_SAFE then Some runtime_force_safe_off
  else if stage =? BZM_STAGE_CONTROLS then Some run_controls
  else if stage =? BZM_STAGE_POWER_RAIL then Some run_power_rail
  else if stage =? BZM_STAGE_CHAIN_4 then Some run_chain4
  else if stage =? BZM_STAGE_SENSORS then Some run_sensors
  else if stage =? BZM_STAGE_CLOCKS then Some run_clocks
  else if stage =? BZM_STAGE_BALANCED_RAMP then Some run_balanced_ramp
  else if stage =? BZM_STAGE_RUNNING then Some run_running
  else None.

(** Refused by the authorizer [when], before or after the step. *)
Definition not_authorized (place : string) : io B bzm_stage_result_t :=
  let! r := runtime in
  io_ret (if execution_cancelled r
          then bzm_validation_result BZM_CHECK_BLOCKED BZM_VALIDATION_CODE_PREREQUISITE_FAILED
                 (Some ("startup cancelled " ++ place)%string)
          else bzm_validation_result BZM_CHECK_BAD BZM_VALIDATION_CODE_STAGE_FAILED
                 (Some ("startup watchdog expired " ++ place)%string)).

Definition powered_stage_authorized (stage : Z) : io B bool :=
  if BZM_STAGE_POWER_RAIL <=? stage then runtime_execution_authorizer else io_ret true.

Definition runtime_run_stage (stage : Z) : io B bzm_stage_result_t :=
  let! authorized := powered_stage_authorized stage in
  if negb authorized then not_authorized "before step entry"
  else
    match stage_runner stage with
    | None =>
        io_ret (bzm_validation_result BZM_CHECK_BLOCKED BZM_VALIDATION_CODE_INVALID_CONFIGURATION
          (Some "unknown Bonanza startup step"))
    | Some run =>
        let! result := run in
        let! authorized := powered_stage_authorized stage in
        if negb authorized then not_authorized "during step" else io_ret result
    end.
End board.
