(* ===== verification/BoardEvidence.v ===== *)
(** * What the stages of the board do to its hardware

    The services of a board leave a log of the commands and readings at its bridge,
    regulator, fan and driver.  A function of [BoardStages] is specified by the events that it
    adds and the state that it leaves, whatever the world answers ([brings]); most
    functions only watch ([calmly]).  The safe-off and each stage are then characterised by
    their events. *)

From S2P Require Import Prelude Trace Float32 Serial Work BalancedRamp Frequency Power Vcore Topology Validation Supervisor Bridge LeaseGuard Telemetry Transport RuntimeHealth RunningEvidence Bringup BoardStages.
Open Scope string_scope.
Open Scope list_scope.
Open Scope Z_scope.
Open Scope io_scope.

(** ** Events *)

Inductive bridge_query := GetStatus | Arm | Heartbeat | ClearFault | Disarm.

Inductive driver_step :=
| DriverInitialize | DriverChain4 | DriverSensors | DriverClocks | DriverBalancedRamp | DriverRunning
| DriverFrequency.

Inductive board_event :=
| BridgeInfo (err : esp_err_t) (info : option bzm_bridge_info_t)
| RxStats (err : esp_err_t) (stats : bzm_bridge_rx_stats_t)
| BridgeStatus (q : bridge_query) (err : esp_err_t) (s : bzm_bridge_safety_status_t)
| AsicReset (high : bool) (err : esp_err_t)
| FiveVolts (on : bool) (err : esp_err_t)
| Fan (share : f32) (err : esp_err_t)
| FanRpm (err : esp_err_t) (rpm : option Z)
| RegulatorEnable (on : bool) (err : esp_err_t)
| Vout (volts : f32) (err : esp_err_t)
| PowerGood (level : bool)
| RegulatorStatus (err : esp_err_t) (s : TPS546_StatusSnapshot)
| ProfileVerified (err : esp_err_t)
| HeldReset
| DriverStep (d : driver_step) (o : bzm_bringup_outcome_t).

Section traced_board.
Context {V : Type} (b : board_services V).

Abbreviation world := (V * list board_event)%type.

Definition traced_vcore (c : vcore_services V) : vcore_services world :=
  {| gpio_set_asic_enable := fun on => traced (gpio_set_asic_enable c on) (RegulatorEnable on);
     gpio_get_pgood := traced (gpio_get_pgood c) PowerGood;
     TPS546_set_vout := fun volts => traced (TPS546_set_vout c volts) (Vout volts);
     TPS546_snapshot_status := traced (TPS546_snapshot_status c) (fun r => RegulatorStatus r.1 r.2);
     TPS546_check_status := lifted (TPS546_check_status c);
     DS4432U_set_voltage := fun volts => lifted (DS4432U_set_voltage c volts);
     vcore_set_5v := fun on => traced (vcore_set_5v c on) (FiveVolts on);
     vcore_get_asic_trip := lifted (vcore_get_asic_trip c);
     vcore_delay_ms := fun ms => lifted (vcore_delay_ms c ms);
     power_fault := lifted (power_fault c);
     set_hardware_fault := lifted (set_hardware_fault c) |}.

Definition traced_status (m : io V (esp_err_t * bzm_bridge_safety_status_t)) (q : bridge_query)
    : io world (esp_err_t * bzm_bridge_safety_status_t) :=
  traced m (fun r => BridgeStatus q r.1 r.2).

Definition traced_driver (m : io V ((bzm_bringup_outcome_t * bzm_bringup_report_t) * bool)) (d : driver_step)
    : io world ((bzm_bringup_outcome_t * bzm_bringup_report_t) * bool) :=
  traced m (fun r => DriverStep d r.1.1).

Definition traced_services : board_services world :=
  {| esp_timer_get_time := lifted (esp_timer_get_time b);
     board_delay_ms := fun ms => lifted (board_delay_ms b ms);
     stop_requested := lifted (stop_requested b);
     pools_unavailable := lifted (pools_unavailable b);
     nvs_asic_frequency := lifted (nvs_asic_frequency b);
     nvs_asic_voltage := lifted (nvs_asic_voltage b);
     call_get_info := traced (call_get_info b) (fun r => BridgeInfo r.1 r.2);
     call_get_rx_stats := traced (call_get_rx_stats b) (fun r => RxStats r.1 r.2);
     call_get_safety_status := traced_status (call_get_safety_status b) GetStatus;
     call_arm_safety := traced_status (call_arm_safety b) Arm;
     call_safety_heartbeat := traced_status (call_safety_heartbeat b) Heartbeat;
     call_clear_safety_fault := traced_status (call_clear_safety_fault b) ClearFault;
     call_disarm_safety := traced_status (call_disarm_safety b) Disarm;
     call_set_asic_reset := fun high => traced (call_set_asic_reset b high) (AsicReset high);
     call_set_5v_enabled := fun on => traced (call_set_5v_enabled b on) (FiveVolts on);
     call_get_fan_rpm := traced (call_get_fan_rpm b) (fun r => FanRpm r.1 r.2);
     call_bridge_is_initialized := lifted (call_bridge_is_initialized b);
     Thermal_set_fan_percent := fun share => traced (Thermal_set_fan_percent b share) (Fan share);
     vcore_device := vcore_device b;
     vcore := traced_vcore (vcore b);
     TPS546_verify_active_config := traced (TPS546_verify_active_config b) ProfileVerified;
     staged_hold_reset := traced (staged_hold_reset b) (fun _ => HeldReset);
     staged_set_dispatch_authorizer := lifted (staged_set_dispatch_authorizer b);
     staged_set_operation_authorizer := lifted (staged_set_operation_authorizer b);
     staged_initialize := traced_driver (staged_initialize b) DriverInitialize;
     staged_chain4 := traced_driver (staged_chain4 b) DriverChain4;
     staged_sensors := fun profile policy => traced_driver (staged_sensors b profile policy) DriverSensors;
     staged_clocks := fun profile policy => traced_driver (staged_clocks b profile policy) DriverClocks;
     staged_balanced_ramp := fun policy => traced_driver (staged_balanced_ramp b policy) DriverBalancedRamp;
     staged_running := fun policy => traced_driver (staged_running b policy) DriverRunning;
     staged_frequency_domains_step_live := fun clocks jump =>
       traced (staged_frequency_domains_step_live b clocks jump) (fun r => DriverStep DriverFrequency r.1);
     staged_get_state := lifted (staged_get_state b);
     staged_poll := fun ms => lifted (staged_poll b ms);
     staged_get_sensor_parser_baseline := lifted (staged_get_sensor_parser_baseline b);
     staged_get_parser_baseline := lifted (staged_get_parser_baseline b);
     staged_get_running_parser_baseline := lifted (staged_get_running_parser_baseline b);
     get_parser_stats := lifted (get_parser_stats b);
     get_telemetry_snapshot := lifted (get_telemetry_snapshot b);
     running_stats_snapshot := lifted (running_stats_snapshot b);
     work_replacement_snapshot := lifted (work_replacement_snapshot b);
     driver_state_init := lifted (driver_state_init b);
     runtime_alloc := lifted (runtime_alloc b);
     create_io_task := lifted (create_io_task b);
     io_turns := lifted (io_turns b) |}.
End traced_board.

(** ** The events and the state that a function leaves *)

Section brings.
Context {V : Type}.

Abbreviation B := (bzm_runtime_state_t * (V * list board_event))%type.

Definition brings {A} (r : bzm_runtime_state_t) (m : io B A)
    (post : A -> bzm_runtime_state_t -> list board_event -> Prop) : Prop :=
  forall v hw, exists a r' v' e, m (r, (v, hw)) = (a, (r', (v', hw ++ e))) /\ post a r' e.

Lemma brings_mono {A} r (m : io B A) (p q : A -> bzm_runtime_state_t -> list board_event -> Prop) :
  brings r m p -> (forall a r' e, p a r' e -> q a r' e) -> brings r m q.
Proof. intros Hm Hpq v hw. destruct (Hm v hw) as (a & r' & v' & e & E & H). exists a, r', v', e. auto. Qed.

Lemma brings_ret {A} r (a : A) (post : A -> bzm_runtime_state_t -> list board_event -> Prop) :
  post a r [] -> brings r (io_ret a) post.
Proof. intros H v hw. exists a, r, v, []. by rewrite app_nil_r. Qed.

Lemma brings_bind {A C} r (m : io B A) (f : A -> io B C) (post : C -> bzm_runtime_state_t -> list board_event -> Prop) :
  brings r m (fun a r1 e1 => brings r1 (f a) (fun c r2 e2 => post c r2 (e1 ++ e2))) -> brings r (io_bind m f) post.
Proof.
  intros Hm v hw. destruct (Hm v hw) as (a & r1 & v1 & e1 & E1 & Hf).
  destruct (Hf v1 (hw ++ e1)) as (c & r2 & v2 & e2 & E2 & H). exists c, r2, v2, (e1 ++ e2).
  unfold io_bind. rewrite E1. cbn. by rewrite app_assoc.
Qed.

Lemma brings_runtime r (post : bzm_runtime_state_t -> bzm_runtime_state_t -> list board_event -> Prop) :
  post r r [] -> brings r runtime post.
Proof. intros H v hw. exists r, r, v, []. by rewrite app_nil_r. Qed.

Lemma brings_modify r f (post : unit -> bzm_runtime_state_t -> list board_event -> Prop) :
  post tt (f r) [] -> brings r (modify f) post.
Proof. intros H v hw. exists tt, (f r), v, []. by rewrite app_nil_r. Qed.

Lemma brings_device {A} r (m : io (V * list board_event) A) (post : A -> bzm_runtime_state_t -> list board_event -> Prop) :
  emits m (fun a e => post a r e) -> brings r (device m) post.
Proof.
  intros Hm v hw. destruct (Hm v hw) as (a & v' & e & E & H). exists a, r, v', e. unfold device. by rewrite E.
Qed.

Lemma brings_call {A} r (m : io V A) ev (post : A -> bzm_runtime_state_t -> list board_event -> Prop) :
  (forall a, post a r [ev a]) -> brings r (device (traced m ev)) post.
Proof. intros H. apply brings_device, emits_traced, H. Qed.

Lemma brings_quiet {A} r (m : io V A) (post : A -> bzm_runtime_state_t -> list board_event -> Prop) :
  (forall a, post a r []) -> brings r (device (lifted m)) post.
Proof. intros H. apply brings_device, emits_lifted, H. Qed.

(** ** Functions that only watch *)

(** Nothing that decides over the gate changes. *)
Record framed (r r' : bzm_runtime_state_t) : Prop := mk_framed {
  framed_allocated : allocated r' = allocated r;
  framed_supervisor : supervisor r' = supervisor r;
  framed_active : active r' = active r;
  framed_initialized : board_initialized r' = board_initialized r;
  framed_enabled : dispatch_enabled r' = dispatch_enabled r;
  framed_deadline : dispatch_deadline_ms r' = dispatch_deadline_ms r;
}.

#[export] Instance framed_preorder : PreOrder framed.
Proof.
  split; [by intros r|]. intros x y z [] []. split; congruence.
Qed.

(** Events of monitoring, and of tuning the rail. *)
Definition calm (ev : board_event) : Prop :=
  match ev with
  | BridgeInfo _ _ | RxStats _ _ | FanRpm _ _ | PowerGood _ | RegulatorStatus _ _
  | BridgeStatus (GetStatus | Heartbeat) _ _ => True
  | Vout volts _ => bzm_power_runtime_voltage_is_allowed volts = true
  | _ => False
  end.

(** Events that switch nothing on. *)
Definition idle (ev : board_event) : Prop :=
  match ev with
  | FiveVolts on _ | RegulatorEnable on _ | AsicReset on _ => on = false
  | DriverStep d _ => d = DriverFrequency
  | _ => True
  end.

(** Such events that leave the driver alone. *)
Definition still (ev : board_event) : Prop := match ev with DriverStep _ _ => False | _ => idle ev end.

(** Events of a running board: monitoring, and tuning of the rail and of the clocks. *)
Definition undisturbed (ev : board_event) : Prop :=
  match ev with DriverStep DriverFrequency _ => True | _ => calm ev end.

Lemma still_idle e : Forall still e -> Forall idle e.
Proof. intros H. eapply Forall_impl; [exact H|]. by intros [] He. Qed.

Lemma calm_still e : Forall calm e -> Forall still e.
Proof. intros H. eapply Forall_impl; [exact H|]. by intros [] He. Qed.

Lemma calm_idle e : Forall calm e -> Forall idle e.
Proof. intros H. by apply still_idle, calm_still. Qed.

Lemma calm_undisturbed e : Forall calm e -> Forall undisturbed e.
Proof. intros H. eapply Forall_impl; [exact H|]. by intros [] He. Qed.

Definition calmly {A} (m : io B A) : Prop :=
  forall r, brings r m (fun _ r' e => framed r r' /\ Forall calm e).

Lemma calmly_ret {A} (a : A) : calmly (io_ret a).
Proof. intros r. apply brings_ret. split; [reflexivity|constructor]. Qed.

Lemma calmly_bind {A C} (m : io B A) (f : A -> io B C) : calmly m -> (forall a, calmly (f a)) -> calmly (io_bind m f).
Proof.
  intros Hm Hf r. apply brings_bind. eapply brings_mono; [apply Hm|]. intros a r1 e1 [F1 C1].
  eapply brings_mono; [apply Hf|]. intros c r2 e2 [F2 C2]. split; [by etrans|]. by apply Forall_app.
Qed.

Lemma calmly_runtime : calmly runtime.
Proof. intros r. apply brings_runtime. split; [reflexivity|constructor]. Qed.

Lemma calmly_modify f : (forall r, framed r (f r)) -> calmly (modify f).
Proof. intros H r. apply brings_modify. split; [apply H|constructor]. Qed.

Lemma calmly_call {A} (m : io V A) ev : (forall a, calm (ev a)) -> calmly (device (traced m ev)).
Proof. intros H r. apply brings_call. intros a. split; [reflexivity|]. by repeat constructor. Qed.

Lemma calmly_quiet {A} (m : io V A) : calmly (device (lifted m)).
Proof. intros r. apply brings_quiet. intros a. split; [reflexivity|constructor]. Qed.

Lemma calmly_if {A} (c : bool) (m n : io B A) : calmly m -> calmly n -> calmly (if c then m else n).
Proof. by destruct c. Qed.

Lemma brings_staged_frequency (m : io V (bzm_bringup_outcome_t * bool)) r :
  brings r (staged (traced m (fun r => DriverStep DriverFrequency r.1)))
    (fun o r' e => framed r r' /\ health r' = health r /\ e = [DriverStep DriverFrequency o]).
Proof.
  unfold staged. apply brings_bind, brings_call. intros [o refused]. apply brings_bind. destruct refused.
  - apply brings_modify, brings_ret. by split.
  - by apply brings_ret, brings_ret.
Qed.
End brings.

(** One step of symbolic execution of a function that only watches. *)
Ltac calm_step :=
  lazymatch goal with
  | |- calmly (io_ret _) => apply calmly_ret
  | |- calmly (io_bind _ _) => apply calmly_bind; [|intros ?]
  | |- calmly runtime => apply calmly_runtime
  | |- calmly (modify _) => apply calmly_modify; intros ?; try (split; reflexivity)
  | |- calmly (device (traced _ _)) => apply calmly_call; intros ?; try done
  | |- calmly (device (lifted _)) => apply calmly_quiet
  | |- calmly (if ?c then _ else _) => destruct c
  | |- calmly (let '(_, _) := ?x in _) => destruct x
  | |- calmly (match ?x with _ => _ end) => destruct x
  end.

(** The traced services of a board, unfolded. *)
Ltac traced_calls :=
  cbn [traced_services traced_vcore esp_timer_get_time board_delay_ms
    stop_requested pools_unavailable nvs_asic_frequency nvs_asic_voltage call_get_info call_get_rx_stats
    call_get_safety_status call_arm_safety call_safety_heartbeat call_clear_safety_fault call_disarm_safety
    call_set_asic_reset call_set_5v_enabled call_get_fan_rpm call_bridge_is_initialized
    Thermal_set_fan_percent vcore_device vcore TPS546_verify_active_config staged_hold_reset
    staged_set_dispatch_authorizer staged_set_operation_authorizer staged_initialize staged_chain4
    staged_sensors staged_clocks staged_balanced_ramp staged_running staged_frequency_domains_step_live
    staged_get_state staged_poll staged_get_sensor_parser_baseline staged_get_parser_baseline
    staged_get_running_parser_baseline get_parser_stats get_telemetry_snapshot running_stats_snapshot
    work_replacement_snapshot driver_state_init runtime_alloc create_io_task io_turns gpio_set_asic_enable
    gpio_get_pgood TPS546_set_vout TPS546_snapshot_status TPS546_check_status DS4432U_set_voltage vcore_set_5v
    vcore_get_asic_trip vcore_delay_ms power_fault set_hardware_fault];
  unfold traced_status, traced_driver.

Section watching.
Context {V : Type} (k : board_config_t) (b : board_services V).

Abbreviation t := (traced_services b).

Lemma calmly_now_ms : calmly (now_ms t).
Proof. unfold now_ms. traced_calls. repeat calm_step. Qed.

Lemma calmly_rail_snapshot : calmly (rail_snapshot t).
Proof.
  intros r. apply brings_device. unfold VCORE_bzm_snapshot. traced_calls. repeat symbolic_step.
  split; [reflexivity|]. by repeat constructor.
Qed.

Lemma calmly_sample_bridge : calmly (sample_bridge t).
Proof. unfold sample_bridge. traced_calls. repeat calm_step. Qed.

Lemma calmly_sample_fan : calmly (sample_fan t).
Proof. unfold sample_fan. traced_calls. repeat calm_step. Qed.

Lemma calmly_sample_rx_stats : calmly (sample_rx_stats t).
Proof. unfold sample_rx_stats. traced_calls. repeat calm_step. Qed.

Lemma calmly_sample_power : calmly (sample_power t).
Proof. unfold sample_power. apply calmly_bind; [apply calmly_rail_snapshot|]. intros ?. repeat calm_step. Qed.

Lemma calmly_sample_parser : calmly (sample_parser t).
Proof. unfold sample_parser. traced_calls. repeat calm_step. Qed.

Lemma calmly_observe_realign current : calmly (V := V) (observe_realign k current).
Proof. unfold observe_realign. repeat calm_step. Qed.

Lemma calmly_when_good c (m : io (bzm_runtime_state_t * (V * list board_event)) unit) : calmly m -> calmly (when_good c m).
Proof. intros H. unfold when_good. repeat calm_step. done. Qed.

Lemma calmly_when {A} c (m : io (bzm_runtime_state_t * (V * list board_event)) A) (a : A) : calmly m -> calmly (when c m a).
Proof. intros H. unfold when. destruct c; [done|apply calmly_ret]. Qed.

Lemma calmly_sample_runtime_health : calmly (sample_runtime_health_locked k t).
Proof.
  unfold sample_runtime_health_locked, confirm_clocks, confirm_ch2. traced_calls.
  repeat first
    [ apply calmly_now_ms | apply calmly_sample_bridge | apply calmly_sample_fan | apply calmly_sample_rx_stats
    | apply calmly_sample_power | apply calmly_sample_parser | apply calmly_observe_realign
    | apply calmly_when | apply calmly_when_good | calm_step ].
Qed.
End watching.

Ltac brings_step :=
  lazymatch goal with
  | |- brings _ (io_ret _) _ => apply brings_ret
  | |- brings _ (io_bind _ _) _ => apply brings_bind
  | |- brings _ runtime _ => apply brings_runtime
  | |- brings _ (modify _) _ => apply brings_modify
  | |- brings _ (device (traced _ _)) _ => apply brings_call; intros ?
  | |- brings _ (device (lifted _)) _ => apply brings_quiet; intros ?
  | |- brings _ (if ?c then _ else _) _ => let E := fresh "E" in destruct c eqn:E
  | |- brings _ (let '(_, _) := ?x in _) _ => let E := fresh "E" in destruct x eqn:E
  | |- brings _ (match ?x with _ => _ end) _ => let E := fresh "E" in destruct x eqn:E
  end; cbn [fst snd].

(** ** The rail *)

Definition startup_vout : f32 := profile_vout_command BZM_TPS546_BIRDS_PROFILE.

(** The events of a rail that was switched on and seen in range. *)
Definition rail_on_events (s : TPS546_StatusSnapshot) : list board_event :=
  [FiveVolts false ESP_OK; RegulatorEnable true ESP_OK; Vout startup_vout ESP_OK; PowerGood true; RegulatorStatus ESP_OK s].

(** Events of the rail that switch nothing on. *)
Definition powerless (ev : board_event) : Prop :=
  match ev with
  | FiveVolts on _ | RegulatorEnable on _ => on = false
  | Vout _ _ | PowerGood _ | RegulatorStatus _ _ => True
  | _ => False
  end.

Lemma powerless_still e : Forall powerless e -> Forall still e.
Proof. intros H. eapply Forall_impl; [exact H|]. by intros []. Qed.

Lemma powerless_idle e : Forall powerless e -> Forall idle e.
Proof. intros H. by apply still_idle, powerless_still. Qed.

(** An attempt to switch the rail on: the regulator follows the acknowledged end of the 5 V. *)
Definition rail_attempt (e : list board_event) : Prop :=
  Forall still e \/
  exists err rest, e = FiveVolts false ESP_OK :: RegulatorEnable true err :: rest /\ Forall still rest.

Definition rail_off_events (acks : esp_err_t * esp_err_t * esp_err_t) : list board_event :=
  [FiveVolts false acks.1.1; Vout (f32_of_Z 0) acks.1.2; RegulatorEnable false acks.2].

Definition all_ok (acks : list esp_err_t) : bool := forallb is_ok acks.

Lemma is_ok_spec err : is_ok err = true <-> err = ESP_OK.
Proof. apply bool_decide_eq_true. Qed.

Lemma is_ok_retain candidate result : is_ok (retain_first_error candidate result) = is_ok candidate && is_ok result.
Proof.
  unfold retain_first_error, is_ok.
  destruct (bool_decide (result = ESP_OK)) eqn:E1, (bool_decide (candidate = ESP_OK)) eqn:E2; cbn; by rewrite ?E1, ?E2.
Qed.

Section rail.
Context {V : Type} (dev : device_config_t) (c : vcore_services V).
Context (Hdev : bonanza_device dev = true).

Lemma dev_TPS546 : TPS546 dev = true.
Proof using Hdev. unfold bonanza_device in Hdev. by prop_bool. Qed.

Lemma emits_set_vout (volts : f32) (post : esp_err_t -> list board_event -> Prop) :
  feq volts (f32_of_Z 0) || bzm_power_runtime_voltage_is_allowed volts = true ->
  (forall err, post err [Vout volts err]) -> emits (bonanza_set_vout dev (traced_vcore c) volts) post.
Proof using Hdev.
  intros Hv H. unfold bonanza_set_vout. rewrite <- negb_orb, Hv, dev_TPS546. cbn [negb traced_vcore TPS546_set_vout].
  by apply emits_traced.
Qed.

Lemma emits_validate_power (volts : f32) :
  emits (bonanza_validate_power (traced_vcore c) volts) (fun err e =>
    Forall powerless e /\ (err = ESP_OK -> exists s, e = [PowerGood true; RegulatorStatus ESP_OK s] /\
      snapshot_validates volts s = true)).
Proof.
  unfold bonanza_validate_power. cbn [traced_vcore gpio_get_pgood TPS546_snapshot_status].
  repeat symbolic_step; (split; [by repeat constructor|]); intros Ho; prop_bool; subst; try done.
  destruct (snapshot_validates volts t) eqn:Es; [|done]. by exists t.
Qed.

(** Switching off issues its three commands, whatever their answers. *)
Lemma emits_rail_power_down :
  emits (power_down (mk_power_calls (bonanza_set_5v_enabled (traced_vcore c)) (bonanza_set_regulator_enabled (traced_vcore c))
      (bonanza_set_vout dev (traced_vcore c)) (bonanza_validate_power (traced_vcore c)) (bonanza_power_delay (traced_vcore c))))
    (fun err e => exists acks, e = rail_off_events acks /\ is_ok err = all_ok [acks.1.1; acks.1.2; acks.2]).
Proof using Hdev.
  unfold power_down, bonanza_set_5v_enabled, bonanza_set_regulator_enabled.
  cbn [set_5v_enabled Power.set_vout set_regulator_enabled traced_vcore vcore_set_5v gpio_set_asic_enable].
  symbolic_step. symbolic_step. symbolic_step. apply emits_set_vout; [by vm_compute|]. intros err.
  repeat symbolic_step. exists (a, err, a0). split; [done|]. rewrite !is_ok_retain. cbn [all_ok forallb fst snd].
  by destruct (is_ok a), (is_ok err), (is_ok a0).
Qed.

Lemma emits_rail_off :
  emits (VCORE_bzm_set_rail_enabled dev (traced_vcore c) false)
    (fun err e => exists acks, e = rail_off_events acks /\ is_ok err = all_ok [acks.1.1; acks.1.2; acks.2]).
Proof using Hdev. unfold VCORE_bzm_set_rail_enabled. rewrite Hdev. apply emits_rail_power_down. Qed.

Abbreviation ops := (mk_power_calls (bonanza_set_5v_enabled (traced_vcore c)) (bonanza_set_regulator_enabled (traced_vcore c))
  (bonanza_set_vout dev (traced_vcore c)) (bonanza_validate_power (traced_vcore c)) (bonanza_power_delay (traced_vcore c))).

Lemma rail_off_powerless acks : Forall powerless (rail_off_events acks).
Proof. by repeat constructor. Qed.

Lemma emits_or_power_down err :
  emits (or_power_down ops err) (fun err' e => err' = err /\ Forall powerless e /\ (err = ESP_OK -> e = [])).
Proof using Hdev.
  unfold or_power_down. destruct (decide (err = ESP_OK)) as [->|He].
  - rewrite bool_decide_true by done. by apply emits_ret.
  - rewrite bool_decide_false by done. cbn [negb]. apply emits_bind. eapply emits_mono; [apply emits_rail_power_down|].
    intros a e (acks & -> & _). apply emits_ret. rewrite app_nil_r. split_and!; [done|apply rail_off_powerless|done].
Qed.

Lemma emits_if_ok err (m : io (V * list board_event) esp_err_t) (post : esp_err_t -> list board_event -> Prop) :
  (err = ESP_OK -> emits m post) -> (err <> ESP_OK -> post err []) -> emits (if_ok err m) post.
Proof.
  intros H1 H2. unfold if_ok. destruct (decide (err = ESP_OK)).
  - rewrite bool_decide_true by done. auto.
  - rewrite bool_decide_false by done. apply emits_ret. auto.
Qed.

(** The rest of a sequence after a call that failed. *)
Ltac sequence_failed :=
  repeat (apply emits_bind, emits_if_ok; [intros ?; congruence|intros _]);
  eapply emits_mono; [apply emits_or_power_down|].

Lemma emits_rail_on :
  emits (VCORE_bzm_set_rail_enabled dev (traced_vcore c) true) (fun err e =>
    rail_attempt e /\ (err = ESP_OK -> exists s, e = rail_on_events s /\ snapshot_validates startup_vout s = true)).
Proof using Hdev.
  unfold VCORE_bzm_set_rail_enabled. rewrite Hdev. cbn [negb bzm_power_set_rail_enabled valid_ops BONANZA_POWER_OPS].
  unfold rail_enabled. cbn [negb]. apply emits_bind. cbn [set_5v_enabled bonanza_set_5v_enabled traced_vcore vcore_set_5v].
  apply emits_traced. intros a1.
  apply emits_bind, emits_if_ok; [intros ->; apply emits_traced; intros a2|intros H1; sequence_failed].
  2: { intros ? e (-> & Hp%powerless_still & _). split; [left; by constructor|congruence]. }
  apply emits_bind, emits_if_ok; [intros ->|intros H2; sequence_failed].
  2: { intros ? e (-> & Hp%powerless_still & _). split; [right; by exists a2, e|congruence]. }
  apply emits_bind, emits_lifted. intros _. apply emits_set_vout; [by vm_compute|]. intros a3.
  apply emits_bind, emits_if_ok; [intros ->|intros H3; sequence_failed].
  2: { intros ? e (-> & Hp%powerless_still & _). split; [right; exists ESP_OK, (Vout startup_vout a3 :: e); split; [done|by constructor]|congruence]. }
  apply emits_bind, emits_lifted. intros _. eapply emits_mono; [apply emits_validate_power|]. intros a4 e4 [F4%powerless_still N4].
  eapply emits_mono; [apply emits_or_power_down|]. intros ? e5 (-> & F5%powerless_still & E5). split.
  - right. exists ESP_OK, (Vout startup_vout ESP_OK :: e4 ++ e5). split; [done|]. constructor; [done|]. by apply Forall_app.
  - intros ->. destruct (N4 eq_refl) as (s & -> & Hs). rewrite (E5 eq_refl). by exists s.
Qed.

(** Setting the voltage of a running board; when it fails, everything is switched off. *)
Lemma emits_runtime_voltage (volts : f32) :
  emits (VCORE_bzm_set_runtime_voltage dev (traced_vcore c) volts) (fun err e =>
    Forall powerless e /\ (err = ESP_OK -> Forall calm e)).
Proof using Hdev.
  unfold VCORE_bzm_set_runtime_voltage. rewrite Hdev. cbn [negb bzm_power_set_runtime_voltage valid_ops BONANZA_POWER_OPS].
  destruct (bzm_power_runtime_voltage_is_allowed volts) eqn:Ev; cbn [negb]; [|by apply emits_ret].
  apply emits_bind. apply emits_set_vout; [by rewrite Ev, orb_true_r|]. intros a1.
  apply emits_bind, emits_if_ok; [intros ->|intros H1; sequence_failed].
  2: { intros ? e (-> & Hp & _). split; [by constructor|congruence]. }
  apply emits_bind, emits_lifted. intros _. eapply emits_mono; [apply emits_validate_power|]. intros a2 e2 [F2 N2].
  eapply emits_mono; [apply emits_or_power_down|]. intros ? e3 (-> & F3 & E3). split.
  - constructor; [done|]. apply Forall_app. split; [|done]. by apply Forall_app.
  - intros ->. destruct (N2 eq_refl) as (s & -> & Hs). rewrite (E3 eq_refl). by repeat constructor.
Qed.

Lemma emits_regulator_off :
  emits (VCORE_bzm_force_regulator_off dev (traced_vcore c)) (fun err e => exists a1 a2,
    e = [RegulatorEnable false a1; Vout (f32_of_Z 0) a2] /\ is_ok err = is_ok a1 && is_ok a2).
Proof using Hdev.
  unfold VCORE_bzm_force_regulator_off. rewrite Hdev. cbn [negb traced_vcore gpio_set_asic_enable TPS546_set_vout].
  repeat symbolic_step. eexists _, _. split; [reflexivity|]. unfold is_ok.
  destruct (bool_decide (a = ESP_OK)) eqn:E; cbn; by rewrite ?E.
Qed.
End rail.

(** ** The safe-off *)

(** One look at the regulator. *)
Definition look : Type := esp_err_t * TPS546_StatusSnapshot * bool.
Definition look_events (l : look) : list board_event := [PowerGood l.2; RegulatorStatus l.1.1 l.1.2].
Definition look_discharged (k : board_config_t) (l : look) : bool := discharged k l.1.1 l.1.2 l.2.
(** The last look saw the rail discharged. *)
Definition looks_discharged (k : board_config_t) (looks : list look) : bool := from_option (look_discharged k) false (last looks).

(** The answers of the six commands that switch off. *)
Definition off_events (acks : esp_err_t * esp_err_t * esp_err_t) (rail : esp_err_t * esp_err_t * esp_err_t) : list board_event :=
  [AsicReset false acks.1.1; FiveVolts false acks.1.2; Fan (f32_of_Z 1) acks.2] ++ rail_off_events rail.

(** The status that a safe-off ends with. *)
Definition clear_events (cleared : option (esp_err_t * bzm_bridge_safety_status_t)) : list board_event :=
  match cleared with Some (err, s) => [BridgeStatus ClearFault err s] | None => [] end.
Definition judged (read : esp_err_t * bzm_bridge_safety_status_t) (cleared : option (esp_err_t * bzm_bridge_safety_status_t)) :=
  default read cleared.

Definition readable (read : esp_err_t * bzm_bridge_safety_status_t) : bool := is_ok read.1 && valid read.2.

(** A retained fault is cleared only after the rail was seen off and the outputs safe. *)
Definition may_clear (electrical_safe : bool) (read : esp_err_t * bzm_bridge_safety_status_t) : bool :=
  electrical_safe && readable read && negb (fault read.2 =? BZM_BRIDGE_SAFETY_FAULT_NONE) &&
  bzm_bridge_safety_status_allows_fault_clear read.2.

(** What a safe-off has done: it resets the driver, disarms the lease, gives every command that switches off,
    waits for the discharge, reads the bridge and clears a retained fault if it may; and it is
    GOOD exactly when all of this was confirmed. *)
Record safe_off_trace (k : board_config_t) (good : bool) (e : list board_event) : Prop := mk_safe_off_trace {
  safe_off_done : exists disarm acks rail looks read cleared,
    e = [HeldReset; BridgeStatus Disarm disarm.1 disarm.2] ++ off_events acks rail ++ concat (look_events <$> looks) ++
        [BridgeStatus GetStatus read.1 read.2] ++ clear_events cleared /\
    (length looks <= discharge_samples)%nat /\
    bool_decide (is_Some cleared) = may_clear (looks_discharged k looks) read /\
    good = all_ok [acks.1.1; acks.1.2; acks.2; rail.1.1; rail.1.2; rail.2] && looks_discharged k looks &&
           readable (judged read cleared) && bridge_safe_off (judged read cleared).2;
}.

(** The state after a safe-off. *)
Record shut_down (r r' : bzm_runtime_state_t) : Prop := mk_shut_down {
  shut_enabled : dispatch_enabled r' = false;
  shut_deadline : dispatch_deadline_ms r' = 0;
  shut_supervisor : supervisor r' = supervisor r;
  shut_allocated : allocated r' = allocated r;
  shut_active : active r' = active r;
  shut_initialized : board_initialized r' = board_initialized r;
  shut_flag : ASIC_initalized r' = false;
  shut_monitoring : running_evidence_monitoring r' = false;
}.

Lemma is_good_result s c d : is_good (bzm_validation_result s c d) = bool_decide (s = BZM_CHECK_GOOD).
Proof. done. Qed.

Section safe_off.
Context {V : Type} (k : board_config_t) (b : board_services V).
Context (Hdev : bonanza_device (vcore_device b) = true).

Abbreviation t := (traced_services b).

Lemma brings_rail_snapshot r (post : look -> bzm_runtime_state_t -> list board_event -> Prop) :
  (forall l, post l r (look_events l)) -> brings r (rail_snapshot t) post.
Proof.
  intros H. apply brings_device. unfold VCORE_bzm_snapshot. traced_calls. symbolic_step. symbolic_step.
  apply emits_bind, emits_traced. intros [err s]. repeat symbolic_step. apply (H (err, s, a)).
Qed.

Lemma brings_acknowledged (m : io V esp_err_t) ev r (post : bool -> bzm_runtime_state_t -> list board_event -> Prop) :
  (forall err, post (is_ok err) r [ev err]) -> brings r (acknowledged (traced m ev)) post.
Proof. intros H. unfold acknowledged. repeat brings_step. apply H. Qed.

Lemma brings_wait_discharged n r :
  brings r (wait_discharged k t n) (fun safe r' e => r' = r /\ exists looks,
    e = concat (look_events <$> looks) /\ (length looks <= n)%nat /\ safe = looks_discharged k looks).
Proof.
  revert r. induction n as [|n IH]; intros r; cbn [wait_discharged].
  { apply brings_ret. split; [done|]. by exists []. }
  apply brings_bind, brings_rail_snapshot. intros l. destruct l as [[err s] p].
  destruct (discharged k err s p) eqn:E.
  - apply brings_ret. split; [done|]. exists [(err, s, p)]. cbn [length]. split_and!; [done|lia|]. unfold looks_discharged. cbn. by rewrite <- E.
  - apply brings_bind. traced_calls. apply brings_quiet. intros _. eapply brings_mono; [apply IH|].
    intros safe r' e [-> (looks & -> & Hl & ->)]. split; [done|]. exists ((err, s, p) :: looks).
    split_and!; [done|cbn; lia|]. unfold looks_discharged. destruct looks; [by cbn; rewrite <- E|done].
Qed.

Lemma brings_final_status commands_ok electrical_safe r :
  brings r (final_bridge_status t commands_ok electrical_safe) (fun res r' e => exists read cleared,
    e = [BridgeStatus GetStatus read.1 read.2] ++ clear_events cleared /\
    bool_decide (is_Some cleared) = may_clear electrical_safe read /\
    res.1 = commands_ok && from_option (fun c => is_ok c.1) true cleared /\ res.2 = readable (judged read cleared) /\
    runtime_bridge_status r' = (judged read cleared).2 /\
    r' = r <| runtime_bridge_status := (judged read cleared).2; bridge_status_valid := readable (judged read cleared) |>).
Proof.
  unfold final_bridge_status. traced_calls. repeat brings_step; exists (e, b0).
  - exists (Some (e0, b1)). unfold may_clear, readable. cbn [fst snd judged default from_option]. rewrite E0.
    split_and!; try done. apply andb_comm.
  - exists None. unfold may_clear, readable. cbn [fst snd judged default from_option]. rewrite E0, andb_true_r.
    by split_and!.
Qed.

Lemma brings_rail_off r (post : bool -> bzm_runtime_state_t -> list board_event -> Prop) :
  (forall acks, post (all_ok [acks.1.1; acks.1.2; acks.2]) r (rail_off_events acks)) ->
  brings r (acknowledged (VCORE_bzm_set_rail_enabled (vcore_device b) (traced_vcore (vcore b)) false)) post.
Proof using Hdev.
  intros H. unfold acknowledged. apply brings_bind, brings_device. eapply emits_mono; [by apply emits_rail_off|].
  intros err e (acks & -> & ->). apply brings_ret. rewrite app_nil_r. apply H.
Qed.

Lemma safe_off_spec r :
  brings r (runtime_force_safe_off k t) (fun res r' e => safe_off_trace k (is_good res) e /\ shut_down r r').
Proof using Hdev.
  unfold runtime_force_safe_off, close_dispatch_locked. traced_calls. do 8 brings_step.
  apply brings_bind, brings_call. intros [derr ds].
  apply brings_bind, brings_acknowledged. intros a1. apply brings_bind, brings_acknowledged. intros a2.
  apply brings_bind, brings_acknowledged. intros a3. apply brings_bind, brings_rail_off. intros rail.
  apply brings_bind. eapply brings_mono; [apply brings_wait_discharged|]. intros safe r1 e1 [-> (looks & -> & Hl & ->)].
  apply brings_bind. eapply brings_mono; [apply brings_final_status|].
  intros [commands_ok status_valid] r2 e2 (read & cleared & -> & Hc & Hok & Hv & Hs & ->). cbn [fst snd] in Hok, Hv. subst.
  brings_step. brings_step. cbn zeta.
  match goal with |- brings _ (if ?c then _ else _) _ => destruct c eqn:E end; apply brings_ret.
  all: split; [|by split]; constructor; exists (derr, ds), (a1, a2, a3), rail, looks, read, cleared.
  all: cbn [fst snd]; split_and!; [by rewrite !app_nil_r|done|done|rewrite is_good_result].
  - rewrite bool_decide_false by done. symmetry. apply not_true_iff_false. intros H. prop_bool.
    revert E. cbn [all_ok forallb] in *. destruct cleared as [[cerr cs]|]; unfold readable in *; cbn in *; prop_bool.
    all: by repeat match goal with H : _ = true |- _ => rewrite H; clear H end.
  - rewrite bool_decide_true by done. apply orb_false_iff in E as [E E3]. apply orb_false_iff in E as [E1 E2]. prop_bool.
    cbn [all_ok forallb] in *. prop_bool. cbn in *.
    repeat match goal with H : _ = true |- _ => rewrite H; clear H end. done.
Qed.
End safe_off.

(** ** The stages *)

Definition driver_stage (d : driver_step) : Z :=
  match d with
  | DriverInitialize | DriverChain4 => BZM_STAGE_CHAIN_4
  | DriverSensors => BZM_STAGE_SENSORS
  | DriverClocks => BZM_STAGE_CLOCKS
  | DriverBalancedRamp => BZM_STAGE_BALANCED_RAMP
  | DriverRunning => BZM_STAGE_RUNNING
  | DriverFrequency => BZM_STAGE_COUNT
  end.

(** The start of the chain's stage: reset, 5 V, and the outputs seen under control. *)
Definition chain_opened (e : list board_event) : Prop :=
  exists s, e = [AsicReset false ESP_OK; FiveVolts true ESP_OK; BridgeStatus GetStatus ESP_OK s] /\
    controlled_outputs s true true = true.

(** Whether it is the turn of an event, in an attempt of stage [n] that has left [e] so far: each
    power switch and each step of the driver has its stage and its place there. *)
Definition turn (n : Z) (ev : board_event) (e : list board_event) : Prop :=
  match ev with
  | FiveVolts true _ => n = BZM_STAGE_CHAIN_4 /\ e = [AsicReset false ESP_OK]
  | RegulatorEnable true _ =>
      n = BZM_STAGE_POWER_RAIL /\
      exists s, e = [BridgeStatus Arm ESP_OK s; FiveVolts false ESP_OK] /\
        controlled_outputs s false true = true /\ lease_remaining_ms s <> 0
  | AsicReset true _ => False
  | DriverStep d _ =>
      n = driver_stage d /\
      match d with
      | DriverInitialize => chain_opened e
      | DriverChain4 => exists e0, e = e0 ++ [DriverStep DriverInitialize BZM_BRINGUP_GOOD] /\ chain_opened e0
      | _ => e = []
      end
  | _ => True
  end.

(** The events [e] that follow [before], each in its turn. *)
Fixpoint turns (n : Z) (before e : list board_event) : Prop :=
  match e with [] => True | ev :: e => turn n ev before /\ turns n (before ++ [ev]) e end.

Lemma turns_lookup n before e i ev : turns n before e -> e !! i = Some ev -> turn n ev (before ++ take i e).
Proof.
  revert before i. induction e as [|ev0 e IH]; intros before i H Hi; [done|]. destruct H as [H0 H]. destruct i as [|i].
  - injection Hi as ->. cbn. by rewrite app_nil_r.
  - cbn. rewrite cons_middle, app_assoc. by apply IH.
Qed.

Lemma turns_still n before e : Forall still e -> turns n before e.
Proof.
  intros H. revert before. induction H as [|ev e He _ IH]; intros before; [done|]. split; [|apply IH].
  destruct ev as [| | |[]|[]| | |[]| | | | | |]; by cbn in *.
Qed.

Definition controls_evidence (k : board_config_t) (e : list board_event) : Prop :=
  exists info stats s0 s1 s2 rpm s3,
    e = [BridgeInfo ESP_OK info; RxStats ESP_OK stats; BridgeStatus GetStatus ESP_OK s0; BridgeStatus Arm ESP_OK s1;
         BridgeStatus Heartbeat ESP_OK s2; Fan (f32_of_Z 1) ESP_OK; FanRpm ESP_OK rpm; BridgeStatus Disarm ESP_OK s3] /\
    (forall i, info = Some i -> bzm_bridge_info_supports_raw_rx i = true) /\ stats_valid stats = true /\
    Bridge.state s0 = BZM_BRIDGE_SAFETY_STATE_SAFE_OFF /\ bridge_control_contract_compatible s0 = true /\
    leased s1 = true /\ leased s2 = true /\ bridge_status_runtime_good s2 = true /\
    (forall n, rpm = Some n -> CONFIG_FAN_MIN_RPM k <= n) /\
    Bridge.state s3 = BZM_BRIDGE_SAFETY_STATE_SAFE_OFF /\ asic_reset_asserted s3 = true /\
    five_volt_enabled s3 = false /\ fan_full s3 = true.

Definition rail_evidence (e : list board_event) : Prop :=
  exists s0 s1 s2 s3,
    e = [BridgeStatus Arm ESP_OK s0] ++ rail_on_events s1 ++
        [ProfileVerified ESP_OK; PowerGood true; RegulatorStatus ESP_OK s2; BridgeStatus GetStatus ESP_OK s3] /\
    controlled_outputs s0 false true = true /\ lease_remaining_ms s0 <> 0 /\
    snapshot_validates startup_vout s1 = true /\ rail_proved ESP_OK s2 true = true /\
    controlled_outputs s3 false true = true.

Definition chain_evidence (e : list board_event) : Prop :=
  exists s0 s1,
    e = [AsicReset false ESP_OK; FiveVolts true ESP_OK; BridgeStatus GetStatus ESP_OK s0;
         DriverStep DriverInitialize BZM_BRINGUP_GOOD; DriverStep DriverChain4 BZM_BRINGUP_GOOD;
         BridgeStatus GetStatus ESP_OK s1] /\
    controlled_outputs s0 true true = true /\ controlled_outputs s1 true false = true.

(** What a GOOD stage has done and seen. *)
Definition stage_evidence (k : board_config_t) (n : Z) (e : list board_event) : Prop :=
  match n with
  | 1 => controls_evidence k e
  | 2 => rail_evidence e
  | 3 => chain_evidence e
  | 4 => e = [DriverStep DriverSensors BZM_BRINGUP_GOOD]
  | 5 => e = [DriverStep DriverClocks BZM_BRINGUP_GOOD]
  | 6 => e = [DriverStep DriverBalancedRamp BZM_BRINGUP_GOOD]
  | 7 => e = [DriverStep DriverRunning BZM_BRINGUP_GOOD]
  | _ => False
  end.

(** The outcome of running a stage after the first. *)
Record stage_ends (k : board_config_t) (n : Z) (r : bzm_runtime_state_t) (res : bzm_stage_result_t)
    (r' : bzm_runtime_state_t) (e : list board_event) : Prop := mk_stage_ends {
  ends_framed : framed r r';
  ends_turns : turns n [] e;
  ends_evidence : is_good res = true -> stage_evidence k n e;
}.

Lemma is_good_bringup name o r : is_good (bringup_stage_result name o r) = is_good_outcome o.
Proof. by destruct o. Qed.

(** The turns of a list of events that is written out. *)
Ltac written_turns := cbn [turns turn app]; repeat first [done | split | eexists].
Ltac failed_stage := split; [by split|written_turns|done].

(** The checks that a stage passed. *)
Ltac passed_checks :=
  cbn in *; prop_bool;
  repeat match goal with
  | H : is_ok _ = true |- _ => apply is_ok_spec in H
  | H : (_ =? _) = true |- _ => apply Z.eqb_eq in H
  | H : (_ <? _) = false |- _ => apply Z.ltb_ge in H
  | H : is_good_outcome _ = true |- _ => apply bool_decide_eq_true in H
  end; subst.

Section stages.
Context {V : Type} (k : board_config_t) (b : board_services V).
Context (Hdev : bonanza_device (vcore_device b) = true).

Abbreviation t := (traced_services b).

Lemma controls_spec r : brings r (run_controls k t) (stage_ends k BZM_STAGE_CONTROLS r).
Proof.
  unfold run_controls, read_bridge_info, read_rx_stats, checked_status, keep_status, acknowledged, and_then, read_fan_rpm.
  traced_calls. repeat brings_step.
  all: try failed_stage.
  passed_checks. split; [by split|written_turns|].
  intros _. eexists _, _, _, _, _, _, _. split; [reflexivity|]. split_and!; try done.
  - intros i ->. done.
  - intros n ->. done.
Qed.

Lemma brings_rail_on r (post : bool -> bzm_runtime_state_t -> list board_event -> Prop) :
  (forall ok e, rail_attempt e ->
     (ok = true -> exists s, e = rail_on_events s /\ snapshot_validates startup_vout s = true) -> post ok r e) ->
  brings r (acknowledged (VCORE_bzm_set_rail_enabled (vcore_device b) (traced_vcore (vcore b)) true)) post.
Proof using Hdev.
  intros H. unfold acknowledged. apply brings_bind, brings_device. eapply emits_mono; [by apply emits_rail_on|].
  intros err e [F N]. apply brings_ret. rewrite app_nil_r. apply H; [done|]. intros Hok%is_ok_spec. auto.
Qed.

Lemma rail_attempt_turns s e :
  controlled_outputs s false true = true -> lease_remaining_ms s <> 0 -> rail_attempt e ->
  turns BZM_STAGE_POWER_RAIL [] (BridgeStatus Arm ESP_OK s :: e).
Proof.
  intros Hs Hl [H|(err & rest & -> & H)].
  - split; [done|]. by apply turns_still.
  - split; [done|]. split; [done|]. split; [split; [done|by exists s]|]. by apply turns_still.
Qed.

Lemma power_rail_spec r : brings r (run_power_rail t) (stage_ends k BZM_STAGE_POWER_RAIL r).
Proof using Hdev.
  unfold run_power_rail, checked_status, keep_status. traced_calls.
  do 3 brings_step. destruct a as [aerr s0]. do 2 brings_step; [brings_step; failed_stage|]. passed_checks.
  apply brings_bind, brings_rail_on. intros enabled e1 A1 N1.
  assert (turns BZM_STAGE_POWER_RAIL [] (BridgeStatus Arm ESP_OK s0 :: e1)) as T1
    by (apply rail_attempt_turns; [done|by apply Z.eqb_neq|done]).
  brings_step; [brings_step|].
  { rewrite app_nil_r. by split; [split| |]. }
  prop_bool. destruct N1 as (s1 & -> & Hs1); [done|]. clear T1 A1.
  assert (forall rest, Forall still rest ->
    turns BZM_STAGE_POWER_RAIL [] ([BridgeStatus Arm ESP_OK s0] ++ rail_on_events s1 ++ rest)) as T.
  { intros rest Hr. apply rail_attempt_turns; [done|by apply Z.eqb_neq|]. right. eexists _, _. split; [reflexivity|].
    by repeat constructor. }
  assert (forall res r' rest, framed r r' -> is_good res = false -> Forall still rest ->
    stage_ends k BZM_STAGE_POWER_RAIL r res r' (BridgeStatus Arm ESP_OK s0 :: rail_on_events s1 ++ rest)) as Hbad.
  { intros res r' rest Hf Hn Hr. split; [done|by apply T|congruence]. }
  apply brings_bind, brings_acknowledged. intros perr.
  brings_step; [brings_step; apply Hbad; by repeat constructor|].
  apply brings_bind, brings_rail_snapshot. intros [[serr s2] pgood].
  brings_step; [brings_step; apply Hbad; by repeat constructor|].
  unfold look_events. do 3 brings_step. destruct a as [gerr s3].
  brings_step; repeat brings_step; try (apply Hbad; by repeat constructor).
  all: try (prop_bool; congruence).
  assert (rail_proved serr s2 pgood = true) as Hp by (by prop_bool).
  assert (serr = ESP_OK /\ pgood = true) as [-> ->].
  { unfold rail_proved in Hp. prop_bool. split; [by apply is_ok_spec|done]. }
  clear E1. passed_checks. split; [by split|by apply T; repeat constructor|].
  intros _. exists s0, s1, s2, s3. split_and!; try done. by apply Z.eqb_neq.
Qed.

Lemma brings_baseline (m : io V (option bzm_serial_parser_stats_t)) r
    (post : bool -> bzm_runtime_state_t -> list board_event -> Prop) :
  (forall ok r', framed r r' -> post ok r' []) -> brings r (take_parser_baseline (lifted m)) post.
Proof. intros H. unfold take_parser_baseline. repeat brings_step. apply H. by split. Qed.

Lemma brings_driver (m : io V ((bzm_bringup_outcome_t * bzm_bringup_report_t) * bool)) d r
    (post : bzm_bringup_outcome_t * bzm_bringup_report_t -> bzm_runtime_state_t -> list board_event -> Prop) :
  (forall o report r', framed r r' -> post (o, report) r' [DriverStep d o]) ->
  brings r (staged (traced m (fun r => DriverStep d r.1.1))) post.
Proof.
  intros H. unfold staged. repeat brings_step. all: subst; destruct p as [o report]; apply (H o report); by split.
Qed.

Lemma lone_turn n d o : n <> BZM_STAGE_CHAIN_4 -> n = driver_stage d -> turns n [] [DriverStep d o].
Proof. intros Hc Hn. split; [|done]. split; [done|]. by destruct d; subst. Qed.

(** A stage that consists of a step of the driver and, at most, taking a parser baseline. *)
Lemma driver_stage_ends n name d o report r r' :
  n <> BZM_STAGE_CHAIN_4 -> n = driver_stage d -> framed r r' ->
  (o = BZM_BRINGUP_GOOD -> stage_evidence k n [DriverStep d BZM_BRINGUP_GOOD]) ->
  stage_ends k n r (bringup_stage_result name o report) r' [DriverStep d o].
Proof.
  intros Hc Hn Hf He. split; [done|by apply lone_turn|].
  rewrite is_good_bringup. intros ->%bool_decide_eq_true. auto.
Qed.

Lemma failed_driver_stage n text d o r r' :
  n <> BZM_STAGE_CHAIN_4 -> n = driver_stage d -> framed r r' ->
  stage_ends k n r (stage_failed text) r' [DriverStep d o].
Proof. intros Hc Hn Hf. split; [done|by apply lone_turn|done]. Qed.

Lemma baseline_stage_ends n name missing d o report (m : io V (option bzm_serial_parser_stats_t)) r r1 :
  n <> BZM_STAGE_CHAIN_4 -> n = driver_stage d -> framed r r1 ->
  stage_evidence k n [DriverStep d BZM_BRINGUP_GOOD] ->
  brings r1 (with_parser_baseline name missing o report (lifted m)) (fun res r2 e =>
    stage_ends k n r res r2 ([DriverStep d o] ++ e)).
Proof.
  intros Hc Hn Hf He. unfold with_parser_baseline. brings_step.
  - brings_step. by apply driver_stage_ends.
  - apply brings_bind, brings_baseline. intros ok r2 Hf2. brings_step. assert (framed r r2) by (by etrans).
    destruct ok; [by apply driver_stage_ends|by apply failed_driver_stage].
Qed.

Lemma sensors_spec r : brings r (run_sensors k t) (stage_ends k BZM_STAGE_SENSORS r).
Proof.
  unfold run_sensors. traced_calls. apply brings_bind, brings_driver. intros o report r1 F1. by apply baseline_stage_ends.
Qed.

Lemma clocks_spec r : brings r (run_clocks k t) (stage_ends k BZM_STAGE_CLOCKS r).
Proof.
  unfold run_clocks. traced_calls. apply brings_bind, brings_driver. intros o report r1 F1. brings_step.
  by apply driver_stage_ends.
Qed.

Lemma balanced_ramp_spec r : brings r (run_balanced_ramp k t) (stage_ends k BZM_STAGE_BALANCED_RAMP r).
Proof.
  unfold run_balanced_ramp. traced_calls. apply brings_bind, brings_driver. intros o report r1 F1.
  by apply baseline_stage_ends.
Qed.

Lemma running_spec r : brings r (run_running k t) (stage_ends k BZM_STAGE_RUNNING r).
Proof.
  unfold run_running. traced_calls. do 2 brings_step. brings_step; [brings_step; failed_stage|].
  apply brings_bind, brings_driver. intros o report r1 F1. brings_step; [brings_step; by apply driver_stage_ends|].
  apply brings_bind, brings_baseline. intros ok r2 F2. assert (framed r r2) by (by etrans). clear F1 F2.
  brings_step; [brings_step; by apply failed_driver_stage|].
  repeat brings_step.
  all: first [apply driver_stage_ends|apply failed_driver_stage]; try done; (etrans; [done|by split]).
Qed.

(** The probing of the chain takes its second step only after the first. *)
Definition probed (e : list board_event) : Prop :=
  exists o, e = [DriverStep DriverInitialize o] \/
    e = [DriverStep DriverInitialize BZM_BRINGUP_GOOD; DriverStep DriverChain4 o].

Abbreviation good_probe := [DriverStep DriverInitialize BZM_BRINGUP_GOOD; DriverStep DriverChain4 BZM_BRINGUP_GOOD].

Lemma probe_chain_spec r :
  brings r (probe_chain t) (fun res r' e => framed r r' /\ probed e /\
    (res.1 = BZM_BRINGUP_GOOD -> e = good_probe)).
Proof.
  unfold probe_chain. traced_calls. apply brings_bind, brings_driver. intros o report r1 F1.
  destruct (is_good_outcome o) eqn:Eo; cbn [negb].
  - apply bool_decide_eq_true in Eo as ->. brings_step. brings_step. apply brings_bind, brings_baseline. intros ok r2 F2.
    brings_step.
    + brings_step. split_and!; [by etrans|eexists; by left|done].
    + apply brings_driver. intros o2 report2 r3 F3. split_and!; [by rewrite F1, F2|eexists; by right|].
      cbn. by intros ->.
  - brings_step. split_and!; [done|eexists; by left|]. cbn. intros ->. done.
Qed.

Lemma chain_turns s e rest :
  controlled_outputs s true true = true -> probed e -> Forall still rest ->
  turns BZM_STAGE_CHAIN_4 [] ([AsicReset false ESP_OK; FiveVolts true ESP_OK; BridgeStatus GetStatus ESP_OK s] ++ e ++ rest).
Proof.
  intros Hs He Hr. assert (chain_opened [AsicReset false ESP_OK; FiveVolts true ESP_OK; BridgeStatus GetStatus ESP_OK s]) as Ho by (by exists s).
  destruct He as (o & [->| ->]); cbn [turns app]; (split_and!; [..|by apply turns_still]); try done.
  split; [done|]. by exists [AsicReset false ESP_OK; FiveVolts true ESP_OK; BridgeStatus GetStatus ESP_OK s].
Qed.

Lemma chain4_spec r : brings r (run_chain4 t) (stage_ends k BZM_STAGE_CHAIN_4 r).
Proof.
  unfold run_chain4, and_then. traced_calls. apply brings_bind, brings_acknowledged. intros a1.
  destruct (is_ok a1) eqn:E1; [apply is_ok_spec in E1 as ->|apply brings_bind, brings_ret; cbn [negb]; brings_step; failed_stage].
  apply brings_bind, brings_acknowledged. intros a2. brings_step; [brings_step; failed_stage|].
  prop_bool. passed_checks.
  do 3 brings_step. destruct a as [err before]. brings_step; [brings_step; failed_stage|].
  prop_bool. passed_checks.
  apply brings_bind. eapply brings_mono; [apply probe_chain_spec|]. intros [o report] r1 e1 (F1 & N1 & G1). cbn [fst] in G1.
  assert (framed r r1) as F by done. clear F1.
  destruct (is_good_outcome o) eqn:Eo.
  - apply bool_decide_eq_true in Eo as ->. rewrite G1 by done. do 3 brings_step. destruct a as [serr s1].
    do 2 brings_step; [brings_step; split; [done|apply (chain_turns b0 good_probe [BridgeStatus GetStatus _ s1]); [done|eexists; by right|by repeat constructor]|done]|].
    repeat brings_step. prop_bool. passed_checks.
    split; [by rewrite F|apply (chain_turns b0 good_probe [BridgeStatus GetStatus _ s1]); [done|eexists; by right|by repeat constructor]|].
    intros _. by exists b0, s1.
  - do 2 brings_step. repeat brings_step; [done|].
    split; [by rewrite F|by apply (chain_turns b0 _ [])|rewrite is_good_bringup; by rewrite Eo].
Qed.

(** *** The authorizer around a stage *)

Lemma brings_authorizer {A} (f : bool -> io (bzm_runtime_state_t * (V * list board_event)) A) n r
    (post : A -> bzm_runtime_state_t -> list board_event -> Prop) :
  (forall ok r', framed r r' -> brings r' (f ok) post) -> brings r (io_bind (powered_stage_authorized t n) f) post.
Proof.
  intros H. apply brings_bind. unfold powered_stage_authorized, runtime_execution_authorizer, stop_or_no_pools, now_ms.
  traced_calls. repeat brings_step; (eapply brings_mono; [by apply H|done]).
Qed.

Lemma brings_not_authorized r place (post : bzm_stage_result_t -> bzm_runtime_state_t -> list board_event -> Prop) :
  (forall res, is_good res = false -> post res r []) -> brings (V := V) r (not_authorized place) post.
Proof. intros H. unfold not_authorized. repeat brings_step. apply H. by destruct (execution_cancelled r). Qed.

Lemma stage_ends_unframed n r r1 r2 res r3 e :
  framed r r1 -> stage_ends k n r1 res r2 e -> framed r2 r3 -> stage_ends k n r res r3 e.
Proof. intros F1 [F T G] F2. split; [by rewrite F1, F|done..]. Qed.

Lemma stage_ends_refused n r res res' r' e :
  stage_ends k n r res r' e -> is_good res' = false -> stage_ends k n r res' r' e.
Proof. intros [F T G] H. split; [done..|by rewrite H]. Qed.

Lemma stage_ends_quiet n r res r' : framed r r' -> is_good res = false -> stage_ends k n r res r' [].
Proof. intros F H. split; [done|done|by rewrite H]. Qed.

Lemma stage_runner_spec n run r :
  1 <= n -> stage_runner k t n = Some run -> brings r run (stage_ends k n r).
Proof using Hdev.
  intros Hn. unfold stage_runner.
  repeat match goal with
  | |- context [if ?c then _ else _] => let E := fresh "E" in destruct c eqn:E; [apply Z.eqb_eq in E; intros [= <-]|]
  end; [by subst; destruct (Hn eq_refl)|subst..|done].
  - apply controls_spec.
  - apply power_rail_spec.
  - apply chain4_spec.
  - apply sensors_spec.
  - apply clocks_spec.
  - apply balanced_ramp_spec.
  - apply running_spec.
Qed.

Lemma run_stage_spec n r : 1 <= n -> brings r (runtime_run_stage k t n) (stage_ends k n r).
Proof using Hdev.
  intros Hn. unfold runtime_run_stage. apply brings_authorizer. intros ok r1 F1. brings_step.
  { apply brings_not_authorized. intros res Hres. by apply stage_ends_quiet. }
  destruct (stage_runner k t n) as [run|] eqn:Er; [|by apply brings_ret, stage_ends_quiet].
  apply brings_bind. eapply brings_mono; [by eapply stage_runner_spec|]. intros res r2 e S.
  apply brings_authorizer. intros ok' r3 F3. brings_step.
  - apply brings_not_authorized. intros res' Hres. rewrite app_nil_r.
    eapply stage_ends_refused; [by eapply stage_ends_unframed|done].
  - brings_step. rewrite app_nil_r. by eapply stage_ends_unframed.
Qed.

Lemma run_safe_off_spec r :
  brings r (runtime_run_stage k t BZM_STAGE_OFF_SAFE) (fun res r' e => safe_off_trace k (is_good res) e /\ shut_down r r').
Proof using Hdev.
  unfold runtime_run_stage, powered_stage_authorized. cbn [Z.leb Z.compare BZM_STAGE_POWER_RAIL BZM_STAGE_OFF_SAFE].
  apply brings_bind, brings_ret. cbn [negb]. change (stage_runner k t BZM_STAGE_OFF_SAFE) with (Some (runtime_force_safe_off k t)).
  apply brings_bind. eapply brings_mono; [by apply safe_off_spec|]. intros res r' e H.
  apply brings_bind, brings_ret. cbn [negb]. apply brings_ret. by rewrite !app_nil_r.
Qed.
End stages.
