(* ===== verification/BoardPower.v ===== *)
(** * The operations of the Bonanza board

    Models the second half of src/main/power/bzm_board_power.c: start, stop, live tuning,
    maintenance and sampling of the board, its initialisation and its monitor task, over
    the supervisor that runs the stages of [BoardStages].  The supervisor that the
    code keeps in [RUNTIME] is threaded through its operations, which is the same since
    nothing that they call reads or writes it.  The lock makes a locked section one step; where an
    operation leaves the lock and takes it again, [others] runs the iterations of the
    monitor task that happen in between, as many as the world says.  The stages and
    safe-offs are recorded in a log, which nothing reads. *)

From S2P Require Import Prelude Trace Float32 Serial Work BalancedRamp PowerPolicy Frequency Power Vcore Topology Validation Supervisor Bridge LeaseGuard Telemetry Transport RuntimeHealth RunningEvidence Bringup BoardStages.
Open Scope string_scope.
Open Scope list_scope.
Open Scope Z_scope.
Open Scope io_scope.

Definition FAULT_MINING_STACK : Z := 0x1006.
Definition FAULT_RAIL_TRANSITION : Z := 0x1009.
Definition FAULT_PLL_TRANSITION : Z := 0x100a.
Definition FAULT_MONITOR_TASK : Z := 0x1002.

(** [RUNTIME] as it is allocated: all zero. *)
Definition zero_supervisor : bzm_supervisor_t :=
  mk_supervisor (mk_supervisor_config 0 0 false false false false false 0) zero_report BZM_SUPERVISOR_OWNER_NONE
    0 0 false false 0 EmptyString.

Definition zero_runtime : bzm_runtime_state_t :=
  {| allocated := true; supervisor := zero_supervisor; bridge_info := mk_info 0 0 0 [];
     runtime_bridge_status := mk_safety_status false 0 0 0 0 0 0 0 0 0 false false false 0 false;
     bridge_rx_stats := mk_rx_stats false 0 0 0; active := false; board_initialized := false;
     bridge_info_valid := false; bridge_status_valid := false; bridge_rx_stats_valid := false;
     mining_stack_ready := false; replacement_generation := 0; replacement_started_ms := 0;
     replacement_pending := false; pause_requested := false; dispatch_enabled := false;
     dispatch_deadline_ms := 0; execution_deadline_ms := 0; execution_cancelled := false;
     parser_baseline_valid := false; runtime_parser_baseline := zero_parser_stats; parser_realign_valid := false;
     parser_realign := bzm_parser_realign_init None; health := RuntimeHealth.good; health_sampled_at_ms := 0;
     ch2_confirmation := bzm_ch2_confirmation_init; pll_lock_confirmation := bzm_pll_lock_confirmation_init;
     running_evidence_monitoring := false; running_evidence_started_at_ms := 0;
     running_evidence_baseline := zero_stats; running_evidence_lifecycle := bzm_running_evidence_lifecycle_init;
     running_evidence := pending_evidence; running_evidence_frequency_transition := false;
     frequency_target_mhz := f32_of_Z 0; voltage_target_v := f32_of_Z 0; frequency_target_generation := 0;
     frequency_ramp_active := false; rail_command_v := f32_of_Z 0; runtime_fan_rpm := 0;
     ASIC_initalized := false |}.

Definition board_supervisor_config : bzm_supervisor_config_t :=
  {| cfg_build_max_stage := BZM_STAGE_RUNNING; cfg_implemented_max_stage := BZM_STAGE_RUNNING;
     cfg_powered_stages_compiled := true; cfg_production_mode := true; cfg_independent_kill_available := false;
     cfg_allow_esp_only_kill_in_lab := false; cfg_board_managed_safety := true;
     maximum_lease_ms := BZM_BOARD_WATCHDOG_MS |}.

Definition recoverable_overheat_fault (f : bzm_runtime_health_fault_t) : bool :=
  match f with FAULT_ASIC_OVERHEAT | FAULT_TPS_OVERHEAT => true | _ => false end.

(** The two floats differ by a thousandth or more. *)
Definition apart (x y : f32) : bool := fle (f32_lit 1 1000) (fabs (fsub x y)).

Section board.
Context {V : Type} (k : board_config_t) (b : board_services V).

Abbreviation B := (bzm_runtime_state_t * V)%type.
Abbreviation board_world := (B * list validation_event)%type.

Definition board {A} (m : io B A) : io board_world A := lifted m.
Definition set (f : bzm_runtime_state_t -> bzm_runtime_state_t) : io board_world unit := board (modify f).
Definition get : io board_world bzm_runtime_state_t := board runtime.
Definition clock : io board_world Z := board (now_ms b).

(** The operation table of the supervisor, recorded. *)
Definition board_run : Z -> io board_world bzm_stage_result_t := traced_run (runtime_run_stage k b).
Definition board_off : io board_world bzm_stage_result_t := traced_off (runtime_force_safe_off k b).

(** An operation of the supervisor in [RUNTIME]. *)
Definition supervise {A} (op : bzm_supervisor_t -> io board_world (A * bzm_supervisor_t)) : io board_world A :=
  let! r := get in
  let! (a, s) := op (supervisor r) in
  let! _ := set (fun r => r <| supervisor := s |>) in
  io_ret a.

Definition request_validation (target : Z) (arm hold : bool) (lease now : Z) : io board_world bool :=
  supervise (fun s => bzm_supervisor_request_validation board_run board_off s target arm hold lease now).

(** The request of OFF_SAFE at the present time. *)
Definition request_off_safe : io board_world bool :=
  let! now := clock in request_validation BZM_STAGE_OFF_SAFE false false 0 now.

Definition latch_fault (c : Z) (d : string) : io board_world unit :=
  let! _ := supervise (fun s => bzm_supervisor_latch_fault board_off s c (Some d)) in io_ret tt.

(** Close the gate, latch the fault and publish. *)
Definition fail_closed (c : Z) (d : string) : io board_world unit :=
  let! _ := board close_dispatch_locked in
  let! _ := latch_fault c d in
  board (sync_dispatch_locked b).

(** ** The monitor task *)

Definition heartbeat_good (err : esp_err_t) (s : bzm_bridge_safety_status_t) : bool :=
  is_ok err && bridge_status_runtime_good s && leased s.

Definition health_due (r : bzm_runtime_state_t) (current_ms : Z) : bool :=
  (health_sampled_at_ms r =? 0) || (BZM_HEALTH_PERIOD_MS <=? u64 (current_ms - health_sampled_at_ms r)).

(** One iteration of [board_io_task] after its delay. *)
Definition board_io_step : io B unit :=
  let! current_ms := now_ms b in
  let! r := runtime in
  if negb (runtime_is_holding r) then io_ret tt
  else
    let! _ := device (staged_poll b 1) in
    if bzm_runtime_health_status_is_bad (health r) || (lease_deadline_ms (supervisor r) <=? current_ms)
    then close_dispatch_locked
    else
      let! (err, status) := device (call_safety_heartbeat b) in
      let! _ :=
        modify (fun r =>
          if negb (heartbeat_good err status) then r <| health := RuntimeHealth.bad FAULT_BRIDGE_UNAVAILABLE |>
          else r <| runtime_bridge_status := status; bridge_status_valid := true |>) in
      let! r := runtime in
      let! _ :=
        if negb (bzm_runtime_health_status_is_bad (health r)) && health_due r current_ms
        then let! _ := sample_runtime_health_locked k b in io_ret tt
        else io_ret tt in
      let! r := runtime in
      if bzm_runtime_health_status_is_bad (health r) then close_dispatch_locked else io_ret tt.

Fixpoint repeat_io (n : nat) (m : io B unit) : io B unit :=
  match n with O => io_ret tt | S n => let! _ := m in repeat_io n m end.

Definition others : io board_world unit :=
  board (let! turns := device (io_turns b) in repeat_io turns board_io_step).

(** ** Initialisation *)

Definition configured_frequency (requested : f32) : f32 :=
  if bzm_frequency_request_is_valid requested
  then from_option actual_mhz BZM_FREQUENCY_POWER_ON_MHZ (bzm_frequency_resolve_target requested)
  else BZM_FREQUENCY_POWER_ON_MHZ.

Definition ramp_needed (frequency_mhz voltage_v : f32) : bool :=
  apart frequency_mhz BZM_FREQUENCY_POWER_ON_MHZ || apart voltage_v BZM_TPS546_FIXED_VOUT_V.

Definition init_runtime (frequency_mhz voltage_v : f32) (r : bzm_runtime_state_t) : bzm_runtime_state_t :=
  reset_running_evidence
    (r <| active := true; frequency_target_mhz := frequency_mhz; voltage_target_v := voltage_v;
          frequency_target_generation := 1; frequency_ramp_active := ramp_needed frequency_mhz voltage_v;
          rail_command_v := BZM_TPS546_FIXED_VOUT_V; ch2_confirmation := bzm_ch2_confirmation_init;
          pll_lock_confirmation := bzm_pll_lock_confirmation_init; dispatch_enabled := false;
          pause_requested := false; dispatch_deadline_ms := 0; execution_deadline_ms := 0;
          execution_cancelled := false |>).

Definition runtime_state_init : io board_world bool :=
  let! r := get in
  if allocated r then io_ret true
  else
    let! ok := board (device (runtime_alloc b)) in
    if negb ok then io_ret false
    else let! _ := set (fun _ => zero_runtime) in io_ret true.

(** The first safe-off, and the task that then watches the board. *)
Definition init_safe_off : io board_world esp_err_t :=
  let! _ := board (refresh_bridge_evidence_locked b) in
  let! safe := request_off_safe in
  let! _ := others in
  if negb safe then io_ret ESP_FAIL
  else
    let! created := board (device (create_io_task b)) in
    if negb created then
      let! _ := board close_dispatch_locked in
      let! _ := latch_fault FAULT_MONITOR_TASK "Bonanza safety monitor task could not start" in
      io_ret ESP_ERR_NO_MEM
    else io_ret ESP_OK.

(** For the global state of a Bonanza board. *)
Definition BZM_board_init : io board_world esp_err_t :=
  let! driver_ok := board (device (driver_state_init b)) in
  if negb driver_ok then io_ret ESP_ERR_NO_MEM
  else
    let! ok := runtime_state_init in
    if negb ok then io_ret ESP_ERR_NO_MEM
    else
      let! r := get in
      if board_initialized r then io_ret ESP_OK
      else
        let! requested := board (device (nvs_asic_frequency b)) in
        let! requested_mv := board (device (nvs_asic_voltage b)) in
        let voltage_v := default BZM_TPS546_FIXED_VOUT_V (bzm_power_resolve_user_voltage requested_mv) in
        let! _ := set (init_runtime (configured_frequency requested) voltage_v) in
        let! _ := board (device (staged_set_operation_authorizer b)) in
        match bzm_supervisor_init (Some board_supervisor_config) (validation_ops board_run board_off) with
        | None => io_ret ESP_ERR_INVALID_STATE
        | Some s =>
            let! _ := set (fun r => r <| supervisor := s; board_initialized := true |>) in
            init_safe_off
        end.

(** ** Live tuning *)

(** A locked section of an operation that goes on after it. *)
Definition locked {A} (m : io board_world A) : io board_world A :=
  let! a := m in let! _ := others in io_ret a.

Definition resolve_tuning (frequency : f32) (millivolts : Z) : option (f32 * f32) :=
  if bzm_frequency_request_is_valid frequency then
    match bzm_frequency_resolve_target frequency, bzm_power_resolve_user_voltage millivolts with
    | Some f, Some v => Some (actual_mhz f, v)
    | _, _ => None
    end
  else None.

Definition retarget (f v : f32) (r : bzm_runtime_state_t) : bzm_runtime_state_t :=
  if apart (frequency_target_mhz r) f || apart (voltage_target_v r) v then
    r <| frequency_target_mhz := f; voltage_target_v := v;
         frequency_target_generation := u32 (frequency_target_generation r + 1); frequency_ramp_active := true |>
  else r.

(** The board mines under a current lease, and nobody wants it to stop. *)
Definition mining_now (r : bzm_runtime_state_t) : io board_world bool :=
  and_then (board_initialized r && active r && negb (pause_requested r) &&
            bool_decide (Supervisor.owner (supervisor r) = BZM_SUPERVISOR_OWNER_MINING) &&
            bool_decide (Validation.state (Supervisor.report (supervisor r)) = BZM_VALIDATION_HOLDING) &&
            negb (Supervisor.fault_latched (supervisor r)))
    (let! now := clock in io_ret (bzm_supervisor_dispatch_allowed (supervisor r) now)).

(** Whether the board may be tuned, the targets and their generation. *)
Definition tuning_snapshot (t : power_target_t) : io board_world (bool * f32 * f32 * Z) :=
  let resolved := resolve_tuning (frequency_mhz t) (voltage_mv t) in
  let! _ := set (fun r => match resolved with Some (f, v) => retarget f v r | None => r end) in
  let! r := get in
  let! mining := mining_now r in
  let ready :=
    bool_decide (is_Some resolved) && bool_decide (evidence_status (running_evidence r) = BZM_RUNNING_EVIDENCE_GOOD) &&
    mining in
  let! _ := set (fun r => if decide (is_Some resolved) then r else r <| frequency_ramp_active := false |>) in
  io_ret (ready, frequency_target_mhz r, voltage_target_v r, frequency_target_generation r).

Definition tuning_set_active (is_active : bool) (generation : Z) : io board_world unit :=
  set (fun r => if frequency_target_generation r =? generation then r <| frequency_ramp_active := is_active |> else r).

Definition tuning_rail_command : io board_world f32 := let! r := get in io_ret (rail_command_v r).

(** [mining_now] for the tuning of [generation], without a stop. *)
Definition tuning_authorized (generation : Z) (r : bzm_runtime_state_t) : io board_world bool :=
  let! stop := board (device (stop_requested b)) in
  and_then (negb stop && (frequency_target_generation r =? generation)) (mining_now r).

Definition frequency_apply_voltage (target_v : f32) (generation : Z) : io board_world bool :=
  let! r := get in
  let! authorized := tuning_authorized generation r in
  if negb authorized then io_ret false
  else if fle (fabs (fsub (rail_command_v r) target_v)) BZM_TPS546_VOUT_READBACK_TOLERANCE_V then io_ret true
  else
    let! _ := set (fun r => r <| rail_command_v := target_v |>) in
    let! applied := board (acknowledged (VCORE_bzm_set_runtime_voltage (vcore_device b) (vcore b) target_v)) in
    let! r := get in
    if pause_requested r then io_ret false
    else if negb applied then
      let! _ := fail_closed FAULT_RAIL_TRANSITION "BZM runtime rail transition " in
      io_ret false
    else
      let! _ := set (fun r => r <| health_sampled_at_ms := 0 |>) in
      io_ret true.

Definition frequency_domains_all_at (s : bzm_bringup_state_t) (target : f32) : bool :=
  forallb (forallb (fun clock => negb (apart clock target))) (domain_clock_mhz s).

Definition frequency_transition_authorized_locked (generation : Z) (r : bzm_runtime_state_t) : io board_world bool :=
  let! authorized := tuning_authorized generation r in
  io_ret (authorized && running_evidence_monitoring r && frequency_ramp_active r).

(** The evidence is collected anew at the new clocks. *)
Definition restart_evidence (baseline : bzm_running_stats_t) (now : Z) (r : bzm_runtime_state_t) : bzm_runtime_state_t :=
  r <| pll_lock_confirmation := bzm_pll_lock_confirmation_init; health_sampled_at_ms := 0;
       running_evidence_baseline := baseline;
       running_evidence_lifecycle :=
         mk_lifecycle true (recovery_active bzm_running_evidence_lifecycle_init)
           (recovery_started_at_ms bzm_running_evidence_lifecycle_init)
           (last_locally_valid_results bzm_running_evidence_lifecycle_init);
       running_evidence_started_at_ms := now; running_evidence_frequency_transition := true;
       running_evidence := pending_evidence |>.

(** After the driver's step, under the lock. *)
Definition frequency_commit_locked (o : bzm_bringup_outcome_t) (baseline : option bzm_running_stats_t) (generation : Z)
    : io board_world bool :=
  let! r := get in
  let! authorized := frequency_transition_authorized_locked generation r in
  if negb authorized then io_ret false
  else if negb (is_good_outcome o) then
    let! _ := fail_closed FAULT_PLL_TRANSITION "live PLL transaction failed: " in
    io_ret false
  else
    match baseline with
    | None =>
        let! _ := fail_closed FAULT_PLL_TRANSITION "live PLL transition could not restart mining evidence" in
        io_ret false
    | Some baseline =>
        let! now := clock in
        let! _ := set (restart_evidence baseline now) in
        io_ret true
    end.

Definition frequency_apply_domains (clocks : list (list f32)) (allow_initial_jump : bool) (generation : Z)
    : io board_world bool :=
  let! o := board (staged (staged_frequency_domains_step_live b clocks allow_initial_jump)) in
  let! baseline := if is_good_outcome o then board (device (running_stats_snapshot b)) else io_ret None in
  let! _ := others in
  frequency_commit_locked o baseline generation.

(** One step of a clock towards the target. *)
Definition next_clock (target current : f32) : f32 :=
  if flt (fadd target (f32_lit 1 1000)) current then fmaxf target (fsub current BZM_FREQUENCY_RAMP_STEP_MHZ)
  else if flt current (fsub target (f32_lit 1 1000)) then fminf target (fadd current BZM_FREQUENCY_RAMP_STEP_MHZ)
  else current.

Definition clock_changes (target current : f32) : bool :=
  flt (fadd target (f32_lit 1 1000)) current || flt current (fsub target (f32_lit 1 1000)).

(** What follows a failed tuning step. *)
Definition tuning_failed (generation : Z) : io board_world bool :=
  let! _ := locked (tuning_set_active false generation) in
  board (device (stop_requested b)).

Definition step_voltage (target_v : f32) (generation : Z) : io board_world bool :=
  let! _ := locked (tuning_set_active true generation) in
  let! ok := locked (frequency_apply_voltage target_v generation) in
  if negb ok then tuning_failed generation else io_ret true.

Definition step_clocks (clocks : list (list f32)) (allow_initial_jump : bool) (generation : Z) : io board_world bool :=
  let! ok := locked (frequency_apply_domains clocks allow_initial_jump generation) in
  if negb ok then tuning_failed generation
  else
    let! replacement := board (device (work_replacement_snapshot b)) in
    match replacement with
    | None => io_ret false
    | Some (wanted, completed, pending) =>
        let! now := clock in
        let! _ := set (fun r => r <| replacement_generation := wanted; replacement_pending := pending;
                                     replacement_started_ms := now |>) in
        io_ret true
    end.

Definition tune_clocks (s : bzm_bringup_state_t) (target : f32) (generation : Z) : io board_world bool :=
  let! _ := locked (tuning_set_active true generation) in
  let initial := bzm_frequency_initial_mhz target in
  let above_power_on (f : f32) := flt (fadd BZM_FREQUENCY_POWER_ON_MHZ (f32_lit 1 1000)) f in
  if above_power_on target && frequency_domains_all_at s BZM_FREQUENCY_POWER_ON_MHZ && above_power_on initial
  then step_clocks (replicate 4 (replicate 2 initial)) true generation
  else if negb (existsb (existsb (clock_changes target)) (domain_clock_mhz s)) then
    let! _ := locked (tuning_set_active false generation) in
    io_ret true
  else step_clocks (map (map (next_clock target)) (domain_clock_mhz s)) false generation.

(** [Some result]: the work of the last step is still being replaced. *)
Definition await_replacement : io board_world (option bool) :=
  let! r := get in
  if negb (replacement_pending r) then io_ret None
  else
    let! replacement := board (device (work_replacement_snapshot b)) in
    match replacement with
    | None => io_ret (Some false)
    | Some (_, completed, pending) =>
        if (pending : bool) && (2 ^ 31 <=? u32 (completed - replacement_generation r)) then
          let! now := clock in
          io_ret (Some (u64 (now - replacement_started_ms r) <? BZM_FREQUENCY_TRANSITION_PROOF_TIMEOUT_MS))
        else
          let! _ := set (fun r => r <| replacement_pending := false |>) in
          io_ret None
    end.

(** One step of the verified board towards the targets: the rail is raised before the clocks and
    lowered after them. *)
Definition tune (s : bzm_bringup_state_t) (target target_v : f32) (generation : Z) : io board_world bool :=
  let! rail := locked tuning_rail_command in
  if flt (fadd rail BZM_TPS546_VOUT_READBACK_TOLERANCE_V) target_v then step_voltage target_v generation
  else if frequency_domains_all_at s target then
    if flt target_v (fsub rail BZM_TPS546_VOUT_READBACK_TOLERANCE_V) then step_voltage target_v generation
    else
      let! _ := locked (tuning_set_active false generation) in
      io_ret true
  else tune_clocks s target generation.

Definition BZM_board_apply (t : power_target_t) : io board_world bool :=
  let! (ready, target, target_v, generation) := locked (tuning_snapshot t) in
  if negb ready then io_ret true
  else
    let! waiting := await_replacement in
    match waiting with
    | Some result => io_ret result
    | None =>
        let! s := board (device (staged_get_state b)) in
        match s with
        | None => io_ret true
        | Some s => if negb (running_verified s) then io_ret true else tune s target target_v generation
        end
    end.

(** ** Start and stop *)

(** The end of a production start that did not reach mining. *)
Definition start_failed : io board_world bool :=
  let! r := get in
  let! _ :=
    if negb (Supervisor.fault_latched (supervisor r)) && negb (execution_cancelled r)
    then latch_fault FAULT_MINING_STACK "production mining task stack could not start" else io_ret tt in
  let! _ := board (sync_dispatch_locked b) in
  io_ret false.

(** The first health of a held board; a bad one ends the start. *)
Definition first_health (completed : bool) : io board_world bool :=
  let! r := get in
  if negb (completed && runtime_is_holding r) then io_ret completed
  else
    let! h := board (sample_runtime_health_locked k b) in
    if bzm_runtime_health_status_is_bad h then
      let! _ := board close_dispatch_locked in
      let! _ := latch_fault (RuntimeHealth.fault_code (health_fault h)) EmptyString in
      io_ret false
    else io_ret completed.

Definition start_production_mining_locked : io board_world bool :=
  let! r := get in
  if negb (board_initialized r) || negb (mining_stack_ready r) ||
     negb (bool_decide (Supervisor.owner (supervisor r) = BZM_SUPERVISOR_OWNER_NONE)) || Supervisor.fault_latched (supervisor r)
  then io_ret false
  else
    let! _ := board close_dispatch_locked in
    let! _ := set (fun r => (reset_running_evidence r) <| ch2_confirmation := bzm_ch2_confirmation_init;
                                                         pll_lock_confirmation := bzm_pll_lock_confirmation_init |>) in
    let lease_ms := maximum_lease_ms (Supervisor.config (supervisor r)) in
    let! started_ms := clock in
    match bzm_lease_guard_make_deadline started_ms lease_ms with
    | None => io_ret false
    | Some deadline =>
        let! _ := set (fun r => r <| execution_deadline_ms := deadline |>) in
        let! completed := request_validation BZM_STAGE_RUNNING true true lease_ms started_ms in
        let! _ := set (fun r => r <| execution_deadline_ms := 0 |>) in
        let! completed := first_health completed in
        let! r := get in
        if negb completed || negb (bool_decide (Supervisor.owner (supervisor r) = BZM_SUPERVISOR_OWNER_MINING))
        then start_failed
        else
          let! now := clock in
          let! _ := set (fun r => r <| running_evidence_started_at_ms := now; running_evidence_monitoring := true;
                                       ASIC_initalized := true |>) in
          let! _ := board (evaluate_running_evidence_locked k b now) in
          let! _ := board (sync_dispatch_locked b) in
          io_ret true
    end.

(** A latched fault is cleared on a fresh verified safe-off. *)
Definition recover_fault : io board_world unit :=
  let! r := get in
  if Supervisor.fault_latched (supervisor r) then
    let! safe := request_off_safe in
    if (safe : bool) then
      let! _ := supervise (fun s => io_ret (bzm_supervisor_clear_fault s)) in io_ret tt
    else io_ret tt
  else io_ret tt.

Definition start_targets (f v : f32) (r : bzm_runtime_state_t) : bzm_runtime_state_t :=
  r <| frequency_target_mhz := f; voltage_target_v := v;
       frequency_target_generation := u32 (frequency_target_generation r + 1);
       frequency_ramp_active := ramp_needed f v; rail_command_v := BZM_TPS546_FIXED_VOUT_V;
       health_sampled_at_ms := 0 |>.

(** The start of a board that is verified off. *)
Definition start_from_off : io board_world bool :=
  let! frequency := board (device (nvs_asic_frequency b)) in
  let! millivolts := board (device (nvs_asic_voltage b)) in
  match resolve_tuning frequency millivolts with
  | None => io_ret false
  | Some (f, v) =>
      let! _ := set (start_targets f v) in
      let! _ := set (fun r => r <| pause_requested := false |>) in
      let! started := start_production_mining_locked in
      let! _ :=
        if negb started
        then set (fun r => r <| pause_requested := true; frequency_ramp_active := false |>) else io_ret tt in
      io_ret started
  end.

Definition board_start : io board_world bool :=
  let! r := get in
  if negb (allocated r) then io_ret false
  else if negb (active r) then io_ret true
  else
    let! _ := set (fun r => r <| mining_stack_ready := true |>) in
    let! _ := recover_fault in
    let! _ := set (fun r => r <| health := RuntimeHealth.good; execution_cancelled := false;
                                 replacement_pending := false |>) in
    let! r := get in
    if negb (board_initialized r) || bzm_supervisor_owner_is_maintenance (Supervisor.owner (supervisor r)) ||
       Supervisor.fault_latched (supervisor r)
    then io_ret false
    else
      let! mining :=
        and_then (bool_decide (Supervisor.owner (supervisor r) = BZM_SUPERVISOR_OWNER_MINING))
          (let! now := clock in io_ret (bzm_supervisor_dispatch_allowed (supervisor r) now)) in
      if (mining : bool) then
        let! _ := set (fun r => r <| pause_requested := false |>) in
        io_ret true
      else if negb (bool_decide (Supervisor.owner (supervisor r) = BZM_SUPERVISOR_OWNER_NONE)) ||
              negb (bzm_supervisor_safe_off_verified (supervisor r))
      then io_ret false
      else start_from_off.

Definition BZM_board_start : io board_world power_start_result_t :=
  let! started := locked board_start in
  let! r := get in
  io_ret (if (started : bool) then POWER_START_OK
          else if negb (allocated r) then POWER_START_FAILED
          else if bzm_runtime_health_status_is_bad (health r) && recoverable_overheat_fault (health_fault (health r))
          then POWER_START_OVERHEAT else POWER_START_FAILED).

Definition off_verified (r : bzm_runtime_state_t) : bool := bzm_supervisor_safe_off_verified (supervisor r).

(** Whether the board is, or now has been brought, verified off. *)
Definition stop_safely : io board_world bool :=
  let! r := get in
  let unowned := bool_decide (Supervisor.owner (supervisor r) = BZM_SUPERVISOR_OWNER_NONE) in
  if off_verified r && unowned then io_ret true
  else
    let! safe :=
      if unowned then request_off_safe
      else supervise (fun s => bzm_supervisor_stop board_off s (Some "operator paused mining")) in
    let! r := get in
    io_ret (safe && off_verified r).

Definition BZM_board_stop : io board_world bool :=
  let! r := get in
  if negb (allocated r) then io_ret false
  else
    let! _ := set (fun r => r <| pause_requested := true |>) in
    if negb (active r) then io_ret true
    else if negb (board_initialized r) || bzm_supervisor_owner_is_maintenance (Supervisor.owner (supervisor r)) then io_ret false
    else
      let! _ := board close_dispatch_locked in
      let! _ := set (fun r => reset_running_evidence
        (r <| frequency_ramp_active := false;
              frequency_target_generation := u32 (frequency_target_generation r + 1) |>)) in
      let! safe := stop_safely in
      let! _ := set (fun r =>
        (r <| ASIC_initalized := false |>)
          <| rail_command_v := if (safe : bool) then BZM_TPS546_FIXED_VOUT_V else rail_command_v r |>) in
      let! _ := board (sync_dispatch_locked b) in
      io_ret safe.

(** ** Maintenance *)

(** The frame of every maintenance operation: close the gate, act, publish. *)
Definition with_closed_gate (m : io board_world bool) : io board_world bool :=
  let! _ := board close_dispatch_locked in
  let! ok := m in
  let! _ := board (sync_dispatch_locked b) in
  io_ret ok.

Definition request_pause : io board_world unit := set (fun r => r <| pause_requested := true |>).

Definition board_acquire_maintenance (o : bzm_supervisor_owner_t) : io board_world bool :=
  let! r := get in
  if negb (allocated r) then io_ret false
  else
    let! _ := request_pause in
    with_closed_gate
      (and_then (board_initialized r)
        (let! now := clock in
         supervise (fun s => bzm_supervisor_acquire_maintenance board_run board_off s o now))).

(** The regulator is switched off without the bridge, and seen discharged. *)
Definition regulator_off : io board_world bool :=
  let! _ := set (fun r => r <| ASIC_initalized := false |>) in
  let! off := board (acknowledged (VCORE_bzm_force_regulator_off (vcore_device b) (vcore b))) in
  if (off : bool) then board (wait_discharged k b discharge_samples) else io_ret false.

Definition board_acquire_bridge_recovery : io board_world bool :=
  let! r := get in
  if negb (allocated r) then io_ret false
  else
    let! _ := request_pause in
    with_closed_gate
      (let! blank :=
         and_then (board_initialized r && active r &&
                   bool_decide (Supervisor.owner (supervisor r) = BZM_SUPERVISOR_OWNER_NONE))
           (let! initialized := board (device (call_bridge_is_initialized b)) in io_ret (negb initialized)) in
       let! electrical_safe := and_then blank regulator_off in
       and_then (blank && electrical_safe)
         (supervise (fun s => io_ret (bzm_supervisor_acquire_bridge_recovery s)))).

Definition board_release_maintenance (o : bzm_supervisor_owner_t) : io board_world bool :=
  let! r := get in
  if negb (allocated r) then io_ret false
  else
    with_closed_gate
      (and_then (board_initialized r)
        (supervise (fun s => bzm_supervisor_release_maintenance board_off s o))).

Definition board_prepare_restart : io board_world bool :=
  let! r := get in
  if negb (allocated r) then io_ret false
  else
    let! _ := request_pause in
    if negb (active r) then io_ret true
    else
      with_closed_gate
        (and_then (board_initialized r) (supervise (fun s => bzm_supervisor_prepare_restart board_off s))).

Definition BZM_board_maintenance (o : power_owner_t) (acquire : bool) : io board_world bool :=
  let is_bridge := bool_decide (o = POWER_OWNER_BRIDGE) in
  let board_owner := if is_bridge then BZM_SUPERVISOR_OWNER_BRIDGE_UPDATE else BZM_SUPERVISOR_OWNER_ESP_OTA in
  if bool_decide (o = POWER_OWNER_RESTART) then
    if acquire then board_prepare_restart else board_release_maintenance BZM_SUPERVISOR_OWNER_ESP_RESTART
  else if negb acquire then board_release_maintenance board_owner
  else
    let! acquired := locked (board_acquire_maintenance board_owner) in
    if (acquired : bool) then io_ret true
    else and_then is_bridge board_acquire_bridge_recovery.

(** ** Sampling *)

Definition set_health (f : bzm_runtime_health_fault_t) : io board_world unit :=
  set (fun r => r <| health := RuntimeHealth.bad f |>).

(** The lease is renewed and the evidence judged while the board mines. *)
Definition watch_mining (current_ms : Z) : io board_world unit :=
  let! r := get in
  let! beat := supervise (fun s =>
    io_ret (bzm_supervisor_heartbeat s (maximum_lease_ms (Supervisor.config s)) current_ms)) in
  let! _ := if negb beat then set_health FAULT_BRIDGE_LEASE else io_ret tt in
  if running_evidence_monitoring r then
    let! e := board (evaluate_running_evidence_locked k b current_ms) in
    if decide (evidence_status e = BZM_RUNNING_EVIDENCE_BAD) then set_health FAULT_INVALID_INPUT else io_ret tt
  else io_ret tt.

Definition sampled_health (r : bzm_runtime_state_t) : power_health_t :=
  if bzm_runtime_health_status_is_bad (health r) then
    if recoverable_overheat_fault (health_fault (health r)) then POWER_HEALTH_OVERHEAT else POWER_HEALTH_FAULT
  else if Supervisor.fault_latched (supervisor r) then POWER_HEALTH_FAULT else POWER_HEALTH_OK.

Definition BZM_board_sample : io board_world power_sample_t :=
  let! r := get in
  if negb (allocated r) || negb (board_initialized r)
  then io_ret (mk_power_sample POWER_HEALTH_FAULT false (f32_of_Z 0) false false (f32_of_Z 0))
  else
    let! current_ms := clock in
    let! _ :=
      if decide (Supervisor.owner (supervisor r) = BZM_SUPERVISOR_OWNER_MINING) then watch_mining current_ms else io_ret tt in
    let! r := get in
    let h := sampled_health r in
    let! (err, s, _) := board (rail_snapshot b) in
    let! _ := board (sync_dispatch_locked b) in
    io_ret (mk_power_sample h (is_ok err) (f32_of_Z (read_temp1 s)) false false (f32_of_Z 0)).
End board.
