(* ===== verification/BoardGate.v ===== *)
(** * What the board has done when it dispatches, and when it is off

    The history of a board is the log of its hardware (the events of [BoardEvidence]) and the
    log of the stages and safe-offs that its supervisor ran.  The first half relates the two
    through any operation of the supervisor; the second shows that every
    operation of [BoardPower] keeps the relation, so that it holds of every board that
    they, the monitor task and a changing world can produce. *)

From S2P Require Import Prelude Trace Float32 Serial Work BalancedRamp PowerPolicy Frequency Power Vcore Topology Validation Supervisor Bridge LeaseGuard Telemetry Transport RuntimeHealth RunningEvidence Bringup BoardStages BoardEvidence BoardPower.
Open Scope string_scope.
Open Scope list_scope.
Open Scope Z_scope.
Open Scope io_scope.

(** ** Histories of the hardware *)

Section history.
Context (k : board_config_t).
Implicit Types (hw e : list board_event) (n m : nat).

(** The hardware was brought up to stage [n]: the safe-off and the stages up to [n] each left
    their evidence, in order, and since then nothing was switched on or off. *)
Fixpoint brought_up (n : nat) (hw : list board_event) : Prop :=
  exists before e rest, hw = before ++ e ++ rest /\ Forall undisturbed rest /\
    match n with
    | O => safe_off_trace k true e
    | S m => stage_evidence k (Z.of_nat n) e /\ brought_up m before
    end.

(** A verified safe-off, after which nothing was switched on. *)
Definition ended_off (hw : list board_event) : Prop :=
  exists before e rest, hw = before ++ e ++ rest /\ safe_off_trace k true e /\ Forall idle rest.

(** Whether an event switches power on or is a step of the driver. *)
Definition moving (ev : board_event) : bool :=
  match ev with FiveVolts on _ | RegulatorEnable on _ | AsicReset on _ => on | DriverStep _ _ => true | _ => false end.

(** What has to come before such an event: the stages up to some [m], since when nothing was
    switched, and then what an attempt of the next stage does before it. *)
Definition permitted (ev : board_event) (before : list board_event) : Prop :=
  moving ev = true -> exists m b e, before = b ++ e /\ brought_up m b /\ turn (Z.of_nat (S m)) ev e.

Definition disciplined (hw : list board_event) : Prop :=
  forall i ev, hw !! i = Some ev -> permitted ev (take i hw).

Lemma brought_up_undisturbed n hw e : brought_up n hw -> Forall undisturbed e -> brought_up n (hw ++ e).
Proof.
  destruct n; intros (before & e0 & rest & -> & Hc & H) He; exists before, e0, (rest ++ e);
    (split; [by rewrite !app_assoc|split; [by apply Forall_app|done]]).
Qed.

Lemma ended_off_idle hw e : ended_off hw -> Forall idle e -> ended_off (hw ++ e).
Proof.
  intros (before & e0 & rest & -> & Hs & Hc) He. exists before, e0, (rest ++ e).
  split_and!; [by rewrite !app_assoc|done|by apply Forall_app].
Qed.

Lemma disciplined_nil : disciplined [].
Proof. intros i ev. by rewrite lookup_nil. Qed.

Lemma disciplined_app hw e :
  disciplined hw -> (forall i ev, e !! i = Some ev -> permitted ev (hw ++ take i e)) -> disciplined (hw ++ e).
Proof.
  intros H He i ev Hi. destruct (decide (i < length hw)%nat).
  - rewrite take_app_le by lia. apply H. by rewrite lookup_app_l in Hi.
  - rewrite take_app_ge by lia. apply He. by rewrite lookup_app_r in Hi by lia.
Qed.

Lemma still_permitted ev before : still ev -> permitted ev before.
Proof. intros Hs Hm. destruct ev; cbn in *; (congruence || done). Qed.

Lemma disciplined_still hw e : disciplined hw -> Forall still e -> disciplined (hw ++ e).
Proof.
  intros H He. apply disciplined_app; [done|]. intros i ev Hi. apply still_permitted. by eapply Forall_lookup_1.
Qed.

(** A step of the clocks on a board that was brought up to mining. *)
Lemma disciplined_frequency hw o : disciplined hw -> brought_up 7 hw -> disciplined (hw ++ [DriverStep DriverFrequency o]).
Proof.
  intros H Hb. apply disciplined_app; [done|]. intros i ev Hi. apply list_lookup_singleton_Some in Hi as [-> <-].
  intros _. exists 7%nat, hw, []. by split_and!.
Qed.

Lemma safe_off_still good e : safe_off_trace k good e -> Forall still e.
Proof.
  intros [(disarm & acks & rail & looks & read & cleared & -> & _)]. unfold off_events, rail_off_events.
  rewrite !Forall_app. split_and!; try by repeat constructor.
  - apply Forall_concat, Forall_fmap, Forall_true. intros l. by repeat constructor.
  - destruct cleared as [[]|]; by repeat constructor.
Qed.

Lemma safe_off_idle good e : safe_off_trace k good e -> Forall idle e.
Proof. intros H. by eapply still_idle, safe_off_still. Qed.

(** A stage takes its turns. *)
Lemma disciplined_stage m hw e :
  disciplined hw -> brought_up m hw -> turns (Z.of_nat (S m)) [] e -> disciplined (hw ++ e).
Proof.
  intros H Hm Ht. apply disciplined_app; [done|]. intros i ev Hi _. exists m, hw, (take i e).
  split_and!; [done..|]. exact (turns_lookup _ [] _ _ _ Ht Hi).
Qed.
End history.

(** ** Triples *)

(** Run in a world that satisfies [P], [m] ends in one that, with its result, satisfies [Q]. *)
Definition hoare {W A} (P : W -> Prop) (m : io W A) (Q : A -> W -> Prop) : Prop := forall w, P w -> Q (m w).1 (m w).2.

Section hoare.
Context {W : Type}.
Implicit Types P : W -> Prop.

Lemma hoare_ret {A} P (a : A) (Q : A -> W -> Prop) : (forall w, P w -> Q a w) -> hoare P (io_ret a) Q.
Proof. intros H w Hw. by apply H. Qed.

Lemma hoare_bind {A C} P (m : io W A) (f : A -> io W C) (R : A -> W -> Prop) (Q : C -> W -> Prop) :
  hoare P m R -> (forall a, hoare (R a) (f a) Q) -> hoare P (io_bind m f) Q.
Proof. intros Hm Hf w Hw. unfold io_bind. specialize (Hm w Hw). destruct (m w) as [a w']. by apply Hf. Qed.

Lemma hoare_mono {A} P P' (m : io W A) (Q Q' : A -> W -> Prop) :
  hoare P m Q -> (forall w, P' w -> P w) -> (forall a w, Q a w -> Q' a w) -> hoare P' m Q'.
Proof. intros H HP HQ w Hw. by apply HQ, H, HP. Qed.

Lemma hoare_post {A} P (m : io W A) (Q Q' : A -> W -> Prop) :
  hoare P m Q -> (forall a w, Q a w -> Q' a w) -> hoare P m Q'.
Proof. intros H HQ. by eapply hoare_mono. Qed.

Lemma hoare_if {A} P (c : bool) (m n : io W A) (Q : A -> W -> Prop) :
  (c = true -> hoare P m Q) -> (c = false -> hoare P n Q) -> hoare P (if c then m else n) Q.
Proof. destruct c; auto. Qed.
End hoare.

(** ** The supervisor's log and the hardware *)

(** The log ends with GOOD stages up to [n]. *)
Fixpoint good_stages (n : nat) (log : list validation_event) : Prop :=
  exists before r, log = before ++ [Ran (Z.of_nat n) r] /\ is_good r = true /\
    match n with O => True | S m => good_stages m before end.

Lemma good_stages_last n log stage r :
  good_stages n (log ++ [Ran stage r]) ->
  stage = Z.of_nat n /\ is_good r = true /\ match n with O => True | S m => good_stages m log end.
Proof. destruct n; intros (before & r' & [-> E]%app_inj_tail & H); by injection E as -> ->. Qed.

Lemma good_stages_off n log r : ~ good_stages n (log ++ [SafeOff r]).
Proof. destruct n; by intros (before & r' & [-> E]%app_inj_tail & H). Qed.

Lemma good_stages_runs n before runs :
  runs.*1 = seqZ 0 (Z.of_nat n + 1) -> Forall run_good runs -> good_stages n (before ++ (ran <$> runs)).
Proof.
  revert runs. induction n as [|n IH]; intros runs Hr Hg.
  - destruct runs as [|[s r] [|]]; try done. cbn in Hr. injection Hr as ->. exists before, r.
    split_and!; [done| |done]. apply Forall_cons in Hg as [Hg _]. by apply is_good_spec.
  - replace (Z.of_nat (S n) + 1) with (Z.of_nat (S (S n))) in Hr by lia.
    rewrite seqZ_S in Hr. replace (Z.of_nat (S n)) with (Z.of_nat n + 1) in Hr by lia. destruct runs as [|[s r] runs _] using rev_ind; [by destruct (seqZ _ _)|].
    rewrite fmap_app in Hr. apply app_inj_tail in Hr as [Hr Hs]. cbn in Hs. apply Forall_app in Hg as [Hg Hl].
    exists (before ++ (ran <$> runs)), r. split_and!.
    + rewrite fmap_app, app_assoc. cbn. unfold ran. cbn. repeat f_equal. lia.
    + apply Forall_cons in Hl as [Hl _]. by apply is_good_spec.
    + by apply IH.
Qed.

Lemma energized_good_stages log n : energized_by log (Z.of_nat n) -> good_stages n log.
Proof. intros (before & runs & p & -> & Hg & Hr & _). by apply good_stages_runs. Qed.

Lemma ends_safe_ran log stage r : ~ ends_safe (log ++ [Ran stage r]).
Proof. by intros (before & o & [_ E]%app_inj_tail & _). Qed.

(** What the log of the supervisor says of the hardware at all times ... *)
Record recorded (k : board_config_t) (hw : list board_event) (log : list validation_event) : Prop := mk_recorded {
  recorded_discipline : disciplined k hw;
  recorded_safe : ends_safe log -> ended_off k hw;
}.

(** ... and unless a step of the power rail has just failed. *)
Definition proved (k : board_config_t) (hw : list board_event) (log : list validation_event) : Prop :=
  forall n, good_stages n log -> brought_up k n hw.

Lemma recorded_still k hw log e : recorded k hw log -> Forall still e -> recorded k (hw ++ e) log.
Proof. intros [Hd Hs] He. split; [by apply disciplined_still|]. intros H. apply ended_off_idle; [auto|by apply still_idle]. Qed.

Lemma recorded_frequency k hw log o :
  recorded k hw log -> brought_up k 7 hw -> recorded k (hw ++ [DriverStep DriverFrequency o]) log.
Proof. intros [Hd Hs] Hb. split; [by apply disciplined_frequency|]. intros H. apply ended_off_idle; [auto|by constructor]. Qed.

Lemma proved_undisturbed k hw log e : proved k hw log -> Forall undisturbed e -> proved k (hw ++ e) log.
Proof. intros H He n Hn. apply brought_up_undisturbed; auto. Qed.

Lemma recorded_off k hw log e r :
  recorded k hw log -> safe_off_trace k (is_good r) e -> recorded k (hw ++ e) (log ++ [SafeOff r]).
Proof.
  intros [Hd Hs] He. split; [apply disciplined_still; [done|by eapply safe_off_still]|].
  intros (before & o & [_ [= <-]]%app_inj_tail & Ho). rewrite Ho in He. exists hw, e, []. by rewrite app_nil_r.
Qed.

Lemma proved_off k hw log r : proved k hw (log ++ [SafeOff r]).
Proof. by intros n H%good_stages_off. Qed.

(** The first stage is a safe-off. *)
Lemma recorded_first k hw log e r :
  recorded k hw log -> safe_off_trace k (is_good r) e ->
  recorded k (hw ++ e) (log ++ [Ran 0 r]) /\ proved k (hw ++ e) (log ++ [Ran 0 r]).
Proof.
  intros [Hd Hs] He. split; [split; [apply disciplined_still; [done|by eapply safe_off_still]|by intros H%ends_safe_ran]|].
  intros n (Hn & Hr & _)%good_stages_last. destruct n as [|n]; [|lia]. rewrite Hr in He.
  exists hw, e, []. by rewrite app_nil_r.
Qed.

Lemma recorded_stage k m hw log s res s' e :
  recorded k hw log -> proved k hw log -> good_stages m log -> stage_ends k (Z.of_nat (S m)) s res s' e ->
  recorded k (hw ++ e) (log ++ [Ran (Z.of_nat (S m)) res]) /\ proved k (hw ++ e) (log ++ [Ran (Z.of_nat (S m)) res]).
Proof.
  intros [Hd Hs] Hp Hm [_ Ht He]. split.
  - split; [eapply disciplined_stage; by eauto|by intros H%ends_safe_ran].
  - intros n (Hn & Hr & Hn')%good_stages_last. assert (n = S m) as -> by lia.
    exists hw, e, []. rewrite app_nil_r. split_and!; [done|constructor|by apply He|by apply Hp].
Qed.

(** ** Operations of the supervisor

    With the gate closed they keep both records, whatever they run. *)

Record closed_as (r0 r : bzm_runtime_state_t) : Prop := mk_closed_as {
  closed_supervisor : supervisor r = supervisor r0;
  closed_initialized : board_initialized r = board_initialized r0;
  closed_gate : dispatch_enabled r = false;
}.

Lemma closed_framed r0 r r' : closed_as r0 r -> framed r r' -> closed_as r0 r'.
Proof. intros [] []. split; congruence. Qed.

Lemma closed_shut r0 r r' : closed_as r0 r -> shut_down r r' -> closed_as r0 r'.
Proof. intros [] []. split; congruence. Qed.

Section supervised.
Context {V : Type} (k : board_config_t) (b : board_services V).
Context (Hdev : bonanza_device (vcore_device b) = true).

Abbreviation t := (traced_services b).
Abbreviation world := ((bzm_runtime_state_t * (V * list board_event)) * list validation_event)%type.
Abbreviation trun := (board_run k t).
Abbreviation toff := (board_off k t).

Definition loose_world (r0 : bzm_runtime_state_t) (w : world) : Prop := closed_as r0 w.1.1 /\ recorded k w.1.2.2 w.2.
Definition proved_world (r0 : bzm_runtime_state_t) (w : world) : Prop := loose_world r0 w /\ proved k w.1.2.2 w.2.

Lemma off_keeps r0 : hoare (loose_world r0) toff (fun _ => proved_world r0).
Proof using Hdev.
  intros [[r [v hw]] log] [Hr Hh]. cbn in Hr, Hh. unfold board_off, traced_off.
  destruct (safe_off_spec k b Hdev r v hw) as (res & r' & v' & e & -> & Ht & Hs). cbn.
  split; [split; [by eapply closed_shut|by apply recorded_off]|by apply proved_off].
Qed.

(** Ready to run stage [n]. *)
Definition ready (r0 : bzm_runtime_state_t) (n : nat) (w : world) : Prop :=
  match n with O => loose_world r0 w | S m => proved_world r0 w /\ good_stages m w.2 end.

Lemma stage_run_keeps r0 n :
  hoare (ready r0 n) (trun (Z.of_nat n)) (fun res w => proved_world r0 w /\ (is_good res = true -> good_stages n w.2)).
Proof using Hdev.
  intros [[r [v hw]] log] Hw. unfold board_run, traced_run. destruct n as [|m]; cbn in Hw.
  - destruct Hw as [Hr Hh]. cbn in Hr, Hh. change (Z.of_nat 0) with BZM_STAGE_OFF_SAFE.
    destruct (run_safe_off_spec k b Hdev r v hw) as (res & r' & v' & e & -> & Ht & Hs). cbn.
    destruct (recorded_first _ _ _ _ _ Hh Ht). split; [split; [split; [by eapply closed_shut|done]|done]|].
    intros Hg. by exists log, res.
  - destruct Hw as [[[Hr Hh] Hp] Hm]. cbn in Hr, Hh, Hp, Hm.
    destruct (run_stage_spec k b Hdev (Z.of_nat (S m)) r ltac:(lia) v hw) as (res & r' & v' & e & -> & He).
    cbn -[Z.of_nat]. destruct (recorded_stage _ _ _ _ _ _ _ _ Hh Hp Hm He).
    split; [split; [split; [by eapply closed_framed, He|done]|done]|]. intros Hg. by exists log, res.
Qed.

Lemma proved_loose r0 w : proved_world r0 w -> loose_world r0 w.
Proof. by intros []. Qed.

Abbreviation ops := (validation_ops trun toff).

Lemma force_safe_off_keeps r0 rep : hoare (loose_world r0) (force_safe_off ops rep) (fun _ => proved_world r0).
Proof using Hdev.
  unfold force_safe_off, safe_off_result, validation_ops.
  eapply hoare_bind with (R := fun _ => proved_world r0).
  - eapply hoare_bind; [apply off_keeps|]. intros res. by apply hoare_ret.
  - intros res. apply hoare_if; intros _; by apply hoare_ret.
Qed.

Lemma stage_loop_keeps r0 n a rep :
  hoare (ready r0 a) (stage_loop trun ops (seqZ (Z.of_nat a) (Z.of_nat n)) rep)
    (fun _ w => ready r0 (a + n) w \/ proved_world r0 w).
Proof using Hdev.
  revert a rep. induction n as [|n IH]; intros a rep.
  - cbn. apply hoare_ret. rewrite Nat.add_0_r. by left.
  - rewrite seqZ_cons by lia. cbn [stage_loop]. eapply hoare_bind; [apply stage_run_keeps|]. intros res.
    apply hoare_if; rewrite is_good_normalize; intros Hg.
    + eapply hoare_bind; [eapply hoare_mono; [apply force_safe_off_keeps| |]|].
      * intros w [Hw _]. by apply proved_loose.
      * intros ? w Hw. exact Hw.
      * intros ?. apply hoare_ret. by right.
    + apply negb_false_iff in Hg. replace (Z.succ (Z.of_nat a)) with (Z.of_nat (S a)) by lia.
      replace (Z.pred (Z.of_nat (S n))) with (Z.of_nat n) by lia. replace (a + S n)%nat with (S a + n)%nat by lia.
      eapply hoare_mono; [apply IH| |done]. intros w [Hw Hs]. split; auto.
Qed.

Lemma execute_keeps r0 p : hoare (loose_world r0) (bzm_validation_execute (Some p) ops) (fun _ => proved_world r0).
Proof using Hdev.
  assert (forall rep, hoare (loose_world r0) (force_safe_off ops rep) (fun _ => proved_world r0)) as Hoff
    by apply force_safe_off_keeps.
  unfold bzm_validation_execute, validation_ops at 1. cbn [run_stage].
  apply hoare_if; intros Hp.
  { eapply hoare_bind; [apply Hoff|]. intros ?. by apply hoare_ret. }
  apply negb_false_iff, validate_policy_spec in Hp as [[Hp _] _].
  set (req := requested_stage p) in *. replace (req + 1) with (Z.of_nat (Z.to_nat (req + 1))) by lia.
  eapply hoare_bind; [apply (stage_loop_keeps r0 _ 0)|]. intros [complete rep].
  eapply hoare_mono with (P := proved_world r0) (Q := fun _ => proved_world r0); [| |done].
  - apply hoare_if; intros _; [by apply hoare_ret|]. apply hoare_if; intros _; [by apply hoare_ret|].
    eapply hoare_mono; [apply Hoff|apply proved_loose|done].
  - intros w [Hw|Hw]; [|done]. replace (0 + Z.to_nat (req + 1))%nat with (S (Z.to_nat req)) in Hw by lia. apply Hw.
Qed.

(** A supervisor that holds the hardware has proved it, if it had ([Q]). *)
Context (Q : Prop).

Definition keeping (r0 : bzm_runtime_state_t) (s : bzm_supervisor_t) (w : world) : Prop :=
  loose_world r0 w /\ (Q -> active_owner (owner s) = true -> proved_world r0 w).

Definition keeps_record (r0 : bzm_runtime_state_t) (s : bzm_supervisor_t) (m : io world (bool * bzm_supervisor_t)) : Prop :=
  hoare (keeping r0 s) m (fun res => keeping r0 res.2).

Lemma record_ret r0 s (ok : bool) s' :
  (active_owner (owner s') = true -> active_owner (owner s) = true) -> keeps_record r0 s (io_ret (ok, s')).
Proof. intros H. apply hoare_ret. intros w [Hl Ha]. split; auto. Qed.

Lemma keeps_passive r0 s (ok : bool) s' :
  active_owner (owner s') = false -> keeps_record r0 s (io_ret (ok, s')).
Proof. intros H. apply record_ret. congruence. Qed.

Lemma record_bind r0 s m (f : bool * bzm_supervisor_t -> io world (bool * bzm_supervisor_t)) :
  keeps_record r0 s m -> (forall res, keeps_record r0 res.2 (f res)) -> keeps_record r0 s (io_bind m f).
Proof. intros Hm Hf. by eapply hoare_bind. Qed.

Lemma latch_first_owner s c d : owner (latch_first s c d) = owner s.
Proof. unfold latch_first. by guard_goal. Qed.

Lemma stop_keeps r0 s reason preempt : keeps_record r0 s (stop_internal toff s reason preempt).
Proof using Hdev.
  unfold stop_internal, keeps_record. apply hoare_if; intros _; [by apply record_ret|].
  eapply hoare_bind; [eapply hoare_mono; [apply (off_keeps r0)|by intros w [H _]|intros ? w H; exact H]|]. intros o. cbn zeta.
  apply hoare_if; intros _; apply hoare_ret; intros w Hw; (split; [by apply proved_loose|done]).
Qed.

Lemma request_execute_keeps r0 s target arm hold lease now :
  keeps_record r0 s (request_execute trun toff s target arm hold lease now).
Proof using Hdev.
  unfold request_execute, keeps_record. cbn zeta.
  eapply hoare_bind; [eapply hoare_mono; [apply (execute_keeps r0)|by intros w [H _]|intros ? w H; exact H]|].
  intros [completed rep]. apply hoare_if; intros _; apply hoare_ret; intros w Hw; (split; [by apply proved_loose|done]).
Qed.

Lemma request_validation_keeps r0 s target arm hold lease now :
  keeps_record r0 s (bzm_supervisor_request_validation trun toff s target arm hold lease now).
Proof using Hdev.
  unfold bzm_supervisor_request_validation. apply hoare_if; intros _; [by apply record_ret|].
  apply hoare_if; intros _; [by apply record_ret|].
  apply hoare_if; intros _; [|apply hoare_if; intros _].
  1,2: cbn zeta; eapply hoare_bind; [eapply hoare_mono; [eapply (stop_keeps r0)|intros w H; exact H|intros ? w H; exact H]|];
    intros res; by apply record_ret.
  apply hoare_if; intros _; [|apply request_execute_keeps].
  eapply record_bind; [apply stop_keeps|]. intros [ok s']. apply hoare_if; intros _; [by apply record_ret|].
  apply request_execute_keeps.
Qed.

Lemma clear_fault_owner s : owner (bzm_supervisor_clear_fault s).2 = owner s.
Proof. unfold bzm_supervisor_clear_fault. by guard_goal. Qed.

Lemma apply_op_keeps r0 op s : keeps_record r0 s (apply_op trun toff op s).
Proof using Hdev.
  destruct op; cbn [apply_op].
  - apply request_validation_keeps.
  - apply stop_keeps.
  - unfold bzm_supervisor_tick. apply hoare_if; intros _; [by apply record_ret|].
    apply hoare_if; intros _; [apply stop_keeps|by apply record_ret].
  - unfold bzm_supervisor_heartbeat. guard_goal; by apply record_ret.
  - unfold bzm_supervisor_latch_fault. apply hoare_if; intros _; [by apply record_ret|]. cbn zeta.
    eapply hoare_bind; [eapply hoare_mono; [apply (stop_keeps r0)| |intros ? w H; exact H]|].
    + intros w H. by destruct (negb (Supervisor.fault_latched s)).
    + intros [ok s']. apply record_ret. by destruct ok.
  - destruct (bzm_supervisor_clear_fault s) as [ok s'] eqn:E. apply record_ret.
    pose proof (clear_fault_owner s) as H. rewrite E in H. cbn in H. by rewrite H.
  - unfold bzm_supervisor_acquire_maintenance. apply hoare_if; intros Hg; [by apply record_ret|].
    assert (active_owner owner = false) as Ho by (by prop_bool; apply maintenance_not_active).
    apply record_bind; [case_decide; [apply request_validation_keeps|apply stop_keeps]|]. intros [safe s'].
    apply hoare_if; intros _; [by apply record_ret|].
    destruct (if Supervisor.fault_latched s' then _ else _) as [cleared s2] eqn:E.
    apply hoare_if; intros _; [|by apply keeps_passive]. apply record_ret. cbn.
    destruct (Supervisor.fault_latched s'); [|by injection E as _ <-].
    pose proof (clear_fault_owner s') as H. rewrite E in H. cbn in H. by rewrite H.
  - unfold bzm_supervisor_acquire_bridge_recovery. guard_goal; by apply record_ret.
  - unfold bzm_supervisor_release_maintenance. apply hoare_if; intros _; [by apply record_ret|]. cbn zeta.
    apply record_bind; [apply stop_keeps|]. intros [ok s']. by apply keeps_passive.
  - unfold bzm_supervisor_prepare_restart. apply hoare_if; intros _; [by apply record_ret|].
    apply record_bind; [apply stop_keeps|]. intros [ok s']. apply hoare_if; intros _; [by apply record_ret|].
    by apply keeps_passive.
Qed.
End supervised.
