(* ===== verification/BoardSafety.v ===== *)
(** * The board in every reachable state

    Every operation of [BoardPower], every iteration of its monitor task and every change of
    the world keeps [gated]: the supervisor is consistent with its log, the log with the
    hardware ([BoardGate]), and the gate of dispatch with the supervisor. *)

From S2P Require Import Prelude Trace Float32 Serial Work BalancedRamp PowerPolicy Frequency Power Vcore Topology Validation Supervisor Bridge LeaseGuard Telemetry Transport RuntimeHealth RunningEvidence Bringup BoardStages BoardEvidence BoardPower BoardGate.
Open Scope string_scope.
Open Scope list_scope.
Open Scope Z_scope.
Open Scope io_scope.

(** ** The state between two operations *)

Section invariant.
Context {V : Type} (k : board_config_t).

Abbreviation HB := (bzm_runtime_state_t * (V * list board_event))%type.
Abbreviation world := (HB * list validation_event)%type.

Record passive (s : bzm_supervisor_t) : Prop := mk_passive {
  passive_initialized : Supervisor.initialized s = false;
  passive_owner : active_owner (owner s) = false;
}.

(** A step of the rail may just have failed. *)
Record rough (w : world) : Prop := mk_rough {
  rough_supervised : board_initialized w.1.1 = true -> supervisor_inv (supervisor w.1.1) w.2;
  rough_passive : board_initialized w.1.1 = false -> passive (supervisor w.1.1);
  rough_recorded : recorded k w.1.2.2 w.2;
}.

Record consistent (w : world) : Prop := mk_consistent {
  consistent_rough : rough w;
  consistent_proved : active_owner (owner (supervisor w.1.1)) = true -> proved k w.1.2.2 w.2;
}.

Definition shut (w : world) : Prop := consistent w /\ dispatch_enabled w.1.1 = false.

(** An open gate belongs to the mining lease. *)
Definition leased_gate (r : bzm_runtime_state_t) : Prop :=
  dispatch_enabled r = true ->
  owner (supervisor r) = BZM_SUPERVISOR_OWNER_MINING /\ dispatch_deadline_ms r = lease_deadline_ms (supervisor r).

Definition held (w : world) : Prop := consistent w /\ leased_gate w.1.1.

Definition gated (w : world) : Prop :=
  held w /\ (dispatch_enabled w.1.1 = true -> bzm_runtime_health_status_is_bad (health w.1.1) = false).

Lemma shut_gated w : shut w -> gated w.
Proof. intros [H E]. split; [split; [done|]|]; intros ?; congruence. Qed.

Lemma shut_consistent w : shut w -> consistent w.
Proof. by intros []. Qed.

Lemma gated_consistent w : gated w -> consistent w.
Proof. by intros [[]]. Qed.

(** *** What does not disturb it *)

(** Supervisors that hold the hardware alike. *)
Record alike (s s' : bzm_supervisor_t) : Prop := mk_alike {
  alike_owner : owner s' = owner s;
  alike_initialized : Supervisor.initialized s' = Supervisor.initialized s;
  alike_deadline : lease_deadline_ms s' = lease_deadline_ms s;
  alike_inv : forall log, supervisor_inv s log -> supervisor_inv s' log;
}.

#[export] Instance alike_refl : Reflexive alike.
Proof. by intros s. Qed.

Record sealed (r r' : bzm_runtime_state_t) : Prop := mk_sealed {
  sealed_supervisor : alike (supervisor r) (supervisor r');
  sealed_initialized : board_initialized r' = board_initialized r;
  sealed_enabled : dispatch_enabled r' = dispatch_enabled r;
  sealed_deadline : dispatch_deadline_ms r' = dispatch_deadline_ms r;
}.

Lemma framed_sealed r r' : framed r r' -> sealed r r'.
Proof. intros []. split; try done. by replace (supervisor r') with (supervisor r). Qed.

(** Assertions that survive sealed steps with calm events ... *)
Class Framing (J : world -> Prop) : Prop := {
  framing_step : forall r r' v v' hw e log,
    sealed r r' -> Forall calm e -> J ((r, (v, hw)), log) -> J ((r', (v', hw ++ e)), log);
}.
(** ... at least those that do not touch the health. *)
Class Stable (J : world -> Prop) : Prop := {
  stable_step : forall r r' v v' hw e log,
    sealed r r' -> health r' = health r -> Forall calm e -> J ((r, (v, hw)), log) -> J ((r', (v', hw ++ e)), log);
}.

(** ... and at least those that do not touch the state. *)
Class Quiet (J : world -> Prop) : Prop := {
  quiet_step : forall r v v' hw e log,
    Forall calm e -> J ((r, (v, hw)), log) -> J ((r, (v', hw ++ e)), log);
}.

Definition with_state (J : world -> Prop) (p : bzm_runtime_state_t -> Prop) (w : world) : Prop := J w /\ p w.1.1.

#[export] Instance stable_quiet J : Stable J -> Quiet J.
Proof. intros [H]. split. intros. by eapply H. Qed.

#[export] Instance with_state_quiet J p : Quiet J -> Quiet (with_state J p).
Proof. intros [H]. split. intros * He [Hj Hp]. split; eauto. Qed.

#[export] Instance framing_stable J : Framing J -> Stable J.
Proof. intros [H]. split. eauto. Qed.

Lemma rough_step r r' v v' hw e log :
  sealed r r' -> Forall still e -> rough ((r, (v, hw)), log) -> rough ((r', (v', hw ++ e)), log).
Proof.
  intros [[Ho Hi Hd Hs] Hb _ _] He [Hr Hp Hh]. split; cbn in *; rewrite ?Hb.
  - auto.
  - intros [Hi' Ho']%Hp. split; congruence.
  - by apply recorded_still.
Qed.

#[export] Instance rough_framing : Framing rough.
Proof. split. intros * Hs He. apply rough_step; [done|by apply calm_still]. Qed.

#[export] Instance consistent_framing : Framing consistent.
Proof.
  split. intros r r' v v' hw e log Hs He [Hr Hp]. split; [by eapply framing_step|]. cbn in *.
  rewrite (alike_owner _ _ (sealed_supervisor _ _ Hs)). intros Ha. by apply proved_undisturbed, calm_undisturbed; auto.
Qed.

#[export] Instance shut_framing : Framing shut.
Proof.
  split. intros r r' v v' hw e log Hs He [Hc Hd]. split; [by eapply framing_step|]. cbn in *.
  by rewrite (sealed_enabled _ _ Hs).
Qed.

#[export] Instance held_framing : Framing held.
Proof.
  split. intros r r' v v' hw e log Hs He [Hc Hg]. split; [by eapply framing_step|].
  destruct Hs as [[Ho _ Hl _] _ Hd Hdd]. unfold leased_gate in *. cbn in *. by rewrite Hd, Hdd, Ho, Hl.
Qed.

#[export] Instance gated_stable : Stable gated.
Proof.
  split. intros r r' v v' hw e log Hs Hh He [Hc Hg]. split; [by eapply framing_step|]. cbn in *.
  by rewrite Hh, (sealed_enabled _ _ Hs).
Qed.

Definition keeps (J : world -> Prop) {A} (m : io world A) : Prop := hoare J m (fun _ => J).

(** *** Steps *)

Section steps.
Context (J : world -> Prop).

Lemma keeps_ret {A} (a : A) : keeps J (io_ret a).
Proof. by apply hoare_ret. Qed.

Lemma keeps_bind {A C} (m : io world A) (f : A -> io world C) : keeps J m -> (forall a, keeps J (f a)) -> keeps J (io_bind m f).
Proof. intros Hm Hf. by eapply hoare_bind. Qed.

Lemma keeps_and_then (a : bool) m : keeps J m -> keeps J (and_then a m).
Proof. intros H. unfold and_then. by destruct a; [|apply keeps_ret]. Qed.

Lemma keeps_get : keeps J get.
Proof. by intros [[r v] log] H. Qed.

Lemma keeps_board_bind {A C} (m : io HB A) (f : A -> io HB C) :
  keeps J (board m) -> (forall a, keeps J (board (f a))) -> keeps J (board (io_bind m f)).
Proof.
  intros Hm Hf [w log] Hw. specialize (Hm (w, log) Hw). unfold board, lifted, io_bind in *.
  destruct (m w) as [a w1]. exact (Hf a (w1, log) Hm).
Qed.

Lemma keeps_board_ret {A} (a : A) : keeps J (board (io_ret a)).
Proof. by intros [w log] Hw. Qed.

Context `{!Quiet J}.

Lemma keeps_device {A} (m : io (V * list board_event) A) :
  emits m (fun _ e => Forall calm e) -> keeps J (board (device m)).
Proof using Type*.
  intros Hm [[r [v hw]] log] H. unfold board, lifted, device. destruct (Hm v hw) as (a & v' & e & -> & He). cbn.
  by eapply quiet_step.
Qed.

Lemma keeps_quiet {A} (m : io V A) : keeps J (board (device (lifted m))).
Proof using Type*. apply keeps_device, emits_lifted. by constructor. Qed.

Lemma keeps_call {A} (m : io V A) ev : (forall a, calm (ev a)) -> keeps J (board (device (traced m ev))).
Proof using Type*. intros H. apply keeps_device, emits_traced. by constructor. Qed.
End steps.

Section stable_steps.
Context (J : world -> Prop) `{!Stable J}.

Lemma keeps_set f : (forall r, sealed r (f r)) -> (forall r, health (f r) = health r) -> keeps J (set f).
Proof using Type*.
  intros Hs Hh [[r [v hw]] log] H. cbn. rewrite <- (app_nil_r hw). eapply stable_step; [apply Hs|apply Hh|constructor|].
  exact H.
Qed.

Lemma keeps_calmly `{!Framing J} {A} (m : io HB A) : calmly m -> keeps J (board m).
Proof using Type*.
  intros Hm [[r [v hw]] log] H. unfold board, lifted. destruct (Hm r v hw) as (a & r' & v' & e & -> & Hf & He). cbn.
  eapply framing_step; [by apply framed_sealed|done|done].
Qed.
End stable_steps.

Lemma keeps_set_health J `{!Framing J} f : (forall r, sealed r (f r)) -> keeps J (set f).
Proof.
  intros Hs [[r [v hw]] log] H. cbn. rewrite <- (app_nil_r hw). eapply framing_step; [apply Hs|constructor|exact H].
Qed.

(** The state that a [get] returns is the current one. *)
Lemma hoare_get {A} (P : world -> Prop) (f : bzm_runtime_state_t -> io world A) (Q : A -> world -> Prop) :
  (forall r, hoare (with_state P (eq r)) (f r) Q) -> hoare P (io_bind get f) Q.
Proof. intros H [[r x] log] Hw. exact (H r ((r, x), log) (conj Hw eq_refl)). Qed.

Lemma hoare_board_bind {A C} P (m : io HB A) (f : A -> io HB C) (R : A -> world -> Prop) (Q : C -> world -> Prop) :
  hoare P (board m) R -> (forall a, hoare (R a) (board (f a)) Q) -> hoare P (board (io_bind m f)) Q.
Proof.
  intros Hm Hf [w log] Hw. specialize (Hm (w, log) Hw). unfold board, lifted, io_bind in *.
  destruct (m w) as [a w1]. exact (Hf a (w1, log) Hm).
Qed.

Lemma hoare_board_runtime {A} (P : world -> Prop) (f : bzm_runtime_state_t -> io HB A) (Q : A -> world -> Prop) :
  (forall r, hoare (with_state P (eq r)) (board (f r)) Q) -> hoare P (board (io_bind runtime f)) Q.
Proof. intros H [[r x] log] Hw. exact (H r ((r, x), log) (conj Hw eq_refl)). Qed.

Lemma hoare_at {A} (P : world -> Prop) p (m : io world A) (Q : A -> world -> Prop) :
  hoare P m Q -> hoare (with_state P p) m Q.
Proof. intros H w [Hw _]. by apply H. Qed.

(** *** The gate *)

Lemma close_shuts : hoare consistent (board close_dispatch_locked) (fun _ => shut).
Proof. intros [[r [v hw]] log] [[Hs Hp Hh] Ha]. by repeat (split; try done). Qed.

Context (b : board_services V).
Context (Hdev : bonanza_device (vcore_device b) = true).

Abbreviation t := (traced_services b).

Lemma keeps_now J `{!Quiet J} : keeps J (board (now_ms t)).
Proof. unfold now_ms. traced_calls. apply keeps_board_bind; [by apply keeps_quiet|intros us; apply keeps_board_ret]. Qed.

Lemma keeps_clock J `{!Quiet J} : keeps J (clock t).
Proof. apply keeps_now, _. Qed.

Lemma dispatch_allowed_mining s now :
  bzm_supervisor_dispatch_allowed s now = true -> owner s = BZM_SUPERVISOR_OWNER_MINING.
Proof. unfold bzm_supervisor_dispatch_allowed. intros H. by prop_bool. Qed.

(** Publishing opens the gate only for a mining supervisor on a healthy board. *)
Lemma sync_gates : hoare consistent (board (sync_dispatch_locked t)) (fun _ => gated).
Proof.
  unfold sync_dispatch_locked. eapply hoare_board_bind; [apply (keeps_now consistent)|]. intros now.
  apply hoare_board_runtime. intros r0.
  destruct (bzm_runtime_health_status_is_bad (health r0) || _) eqn:E.
  - eapply hoare_mono; [apply close_shuts|by intros w []|intros ? w; apply shut_gated].
  - apply orb_false_iff in E as [E1 E2]. apply negb_false_iff in E2. pose proof (dispatch_allowed_mining _ _ E2) as Hm.
    intros [[r [v hw]] log] [[[Hs Hp Hh] Ha] Hr]. cbn in Hr. subst. by repeat (split; try done).
Qed.

Lemma sync_keeps : keeps gated (board (sync_dispatch_locked t)).
Proof. eapply hoare_mono; [apply sync_gates|apply gated_consistent|done]. Qed.

(** *** The supervisor *)

Abbreviation run_op := (apply_op (board_run k t) (board_off k t)).

Lemma apply_op_passive {W} (run : Z -> io W bzm_stage_result_t) (off : io W bzm_stage_result_t) op s w :
  Supervisor.initialized s = false -> (apply_op run off op s w).1.2 = s /\ (apply_op run off op s w).2 = w.
Proof.
  intros Hi. destruct op; cbn [apply_op];
    unfold bzm_supervisor_request_validation, bzm_supervisor_stop, stop_internal, bzm_supervisor_tick,
      bzm_supervisor_heartbeat, bzm_supervisor_latch_fault, bzm_supervisor_clear_fault,
      bzm_supervisor_acquire_maintenance, bzm_supervisor_acquire_bridge_recovery,
      bzm_supervisor_release_maintenance, bzm_supervisor_prepare_restart; by rewrite Hi.
Qed.

Lemma supervise_eq op r x log :
  supervise (run_op op) ((r, x), log) =
    let '((a, s), ((r1, x1), log1)) := run_op op (supervisor r) ((r, x), log) in
    (a, ((r1 <| supervisor := s |>, x1), log1)).
Proof.
  unfold supervise, get, set, board, lifted, runtime, modify, io_bind, io_ret. cbn.
  by destruct (run_op op (supervisor r) ((r, x), log)) as [[a s] [[r1 x1] log1]].
Qed.

(** With the gate closed an operation of the supervisor keeps the board consistent; a
    board on which a step of the rail has failed only if it ends with nobody holding it. *)
Lemma supervise_rough op (Q : Prop) :
  (forall s w, Supervisor.initialized s = true -> Q \/ active_owner (owner (run_op op s w).1.2) = false) ->
  hoare (fun w => rough w /\ (Q -> consistent w) /\ dispatch_enabled w.1.1 = false) (supervise (run_op op)) (fun _ => shut).
Proof using Hdev.
  intros HQ [[r [v hw]] log] ([Hs Hp Hh] & Hc & Hg). cbn in Hs, Hp, Hh, Hg. rewrite supervise_eq.
  destruct (board_initialized r) eqn:Hb.
  - destruct (apply_op_safe (runtime_run_stage k t) (runtime_force_safe_off k t) op (supervisor r) log (Hs eq_refl)
      (r, (v, hw))) as (ok & s' & w' & ev & E & Hi & _).
    pose proof (HQ (supervisor r) ((r, (v, hw)), log) (core_initialized _ (inv_core _ _ (Hs eq_refl)))) as Ho.
    pose proof (apply_op_keeps k b Hdev Q r op (supervisor r) ((r, (v, hw)), log)) as Hk.
    unfold board_run, board_off in *. rewrite E in *. destruct w' as [r' [v' hw']]. cbn in Ho.
    destruct Hk as [[Hf Hh'] Ha].
    { split; [by split|]. intros [_ Ha]%Hc H. split; [by split|by apply Ha]. }
    cbn in *. split; [|by apply closed_gate in Hf]. split; [split; cbn|cbn].
    + done.
    + rewrite (closed_initialized _ _ Hf), Hb. done.
    + done.
    + intros H. destruct Ho as [Ho|Ho]; [by apply Ha|congruence].
  - destruct (apply_op_passive (board_run k t) (board_off k t) op (supervisor r) ((r, (v, hw)), log)) as [E1 E2];
      [by apply Hp|].
    destruct (run_op op (supervisor r) _) as [[ok s'] w']. cbn in E1, E2. subst. cbn.
    destruct (Hp eq_refl) as [Hi Ho]. split; [|done]. split; [by split; cbn; try congruence|]. cbn. congruence.
Qed.

Lemma supervise_keeps op : keeps shut (supervise (run_op op)).
Proof using Hdev.
  eapply hoare_mono; [apply (supervise_rough op True)| |done]; [by left|]. by intros w [[]].
Qed.

Lemma latch_fault_shuts c d :
  c <> 0 -> hoare (fun w => rough w /\ dispatch_enabled w.1.1 = false) (latch_fault k t c d) (fun _ => shut).
Proof using Hdev.
  intros Hc. unfold latch_fault. eapply hoare_bind with (R := fun _ => shut); [|intros ?; apply keeps_ret].
  eapply hoare_mono; [apply (supervise_rough (LatchFault c (Some d)) False)| |done].
  - intros s w Hi. right. cbn [apply_op]. unfold bzm_supervisor_latch_fault. rewrite Hi, (proj2 (Z.eqb_neq c 0)) by done.
    cbn [negb orb]. unfold stop_internal. cbn zeta.
    match goal with |- context [negb (Supervisor.initialized ?s) || _] => replace (Supervisor.initialized s) with true by (by destruct (negb (Supervisor.fault_latched _))) end.
    cbn [negb orb andb]. unfold io_bind. destruct (board_off k t w) as [o w']. by destruct (is_good o); cbn; rewrite ?latch_first_owner.
  - by intros w [].
Qed.

Lemma latch_fault_keeps c d : keeps shut (latch_fault k t c d).
Proof using Hdev. unfold latch_fault. apply keeps_bind; [apply (supervise_keeps (LatchFault c (Some d)))|intros ?; apply keeps_ret]. Qed.

(** A failed operation of the hardware ends with the fault latched and the gate closed. *)
Lemma fail_closed_gates c d : c <> 0 -> hoare rough (fail_closed k t c d) (fun _ => gated).
Proof using Hdev.
  intros Hc. unfold fail_closed.
  eapply hoare_bind with (R := fun _ w => rough w /\ dispatch_enabled w.1.1 = false).
  { intros [[r [v hw]] log] [Hs Hp Hh]. by split. }
  intros ?. eapply hoare_bind; [by apply latch_fault_shuts|]. intros ?.
  eapply hoare_mono; [apply sync_gates|apply shut_consistent|done].
Qed.

(** *** Evidence, leases and the monitor task *)

Lemma set_running_stage_alike res r : alike (supervisor r) (supervisor (set_running_stage res r)).
Proof. split; try done. intros log [[] ? ? ? ? ?]. by split. Qed.

Lemma keeps_modify J `{!Stable J} f : (forall r, sealed r (f r)) -> (forall r, health (f r) = health r) -> keeps J (board (modify f)).
Proof. apply keeps_set, _. Qed.

Lemma keeps_runtime J : keeps J (board runtime).
Proof. by intros [[r x] log] H. Qed.

Lemma keeps_evidence J now : Stable J -> keeps J (board (evaluate_running_evidence_locked k t now)).
Proof.
  intros HJ. unfold evaluate_running_evidence_locked. traced_calls. apply keeps_board_bind; [apply keeps_runtime|]. intros r.
  destruct (negb (running_evidence_monitoring r)); [apply keeps_board_ret|].
  apply keeps_board_bind; [apply (keeps_quiet J)|]. intros [current|]; cbn zeta.
  - destruct (bzm_running_evidence_track _ _ _ _ _ _) as [e l].
    apply keeps_board_bind; [apply keeps_modify; [done|intros ?; by split|done]|]. intros ?.
    apply keeps_board_bind; [|intros ?; apply keeps_board_ret].
    case_decide; [|apply keeps_board_ret]. apply keeps_modify; [done| |done]. intros ?. split; try done. apply set_running_stage_alike.
  - apply keeps_board_bind; [apply keeps_modify; [done|intros ?; by split|done]|]. intros ?. apply keeps_board_ret.
Qed.

(** Renewing the lease. *)
Lemma heartbeat_keeps lease now :
  keeps consistent (supervise (V := V * list board_event) (fun s =>
    io_ret (bzm_supervisor_heartbeat s (lease s) now))).
Proof.
  intros [[r [v hw]] log] [[Hs Hp Hh] Ha]. cbn in *. unfold supervise, get, set, board, lifted, runtime, modify, io_bind, io_ret. cbn.
  assert (owner (bzm_supervisor_heartbeat (supervisor r) (lease (supervisor r)) now).2 = owner (supervisor r) /\
    Supervisor.initialized (bzm_supervisor_heartbeat (supervisor r) (lease (supervisor r)) now).2 = Supervisor.initialized (supervisor r))
    as [Ho Hi] by (unfold bzm_supervisor_heartbeat; by guard_goal).
  pose proof (heartbeat_inv (supervisor r) log (lease (supervisor r)) now) as Hinv.
  destruct (bzm_supervisor_heartbeat _ _ _) as [ok s']. cbn in *. split; [split; cbn|cbn; by rewrite Ho].
  - auto.
  - intros [Hi' Ho']%Hp. split; congruence.
  - done.
Qed.

(** The gate after a look at the health: still open only if the board is healthy. *)
Lemma held_healthy w : held w -> bzm_runtime_health_status_is_bad (health w.1.1) = false -> gated w.
Proof. by split. Qed.

Lemma close_gates : hoare held (board close_dispatch_locked) (fun _ => gated).
Proof. eapply hoare_mono; [apply close_shuts|by intros w []|intros ? w; apply shut_gated]. Qed.

Lemma held_of_gated w : gated w -> held w.
Proof. by intros []. Qed.

Lemma io_step_keeps : keeps gated (board (board_io_step k t)).
Proof.
  unfold board_io_step. traced_calls.
  eapply hoare_board_bind; [apply (keeps_now gated)|]. intros now.
  apply hoare_board_runtime. intros r0. destruct (negb (runtime_is_holding r0)); [by intros [w log] []|].
  eapply hoare_board_bind; [apply hoare_at, (keeps_quiet gated)|]. intros ?.
  destruct (_ || _) eqn:E0.
  { eapply hoare_mono; [apply close_gates|apply held_of_gated|done]. }
  eapply hoare_board_bind; [by apply (keeps_call gated)|]. intros [err status].
  eapply hoare_mono with (P := held) (Q := fun _ => gated); [|apply held_of_gated|done].
  eapply hoare_board_bind.
  { apply (keeps_set_health held). intros r. destruct (negb _); by split. }
  intros ?. eapply hoare_board_bind; [apply (keeps_runtime held)|]. intros r1.
  eapply hoare_board_bind with (R := fun _ => held).
  { destruct (_ && _); [|apply (keeps_board_ret held)].
    apply (keeps_board_bind held); [apply keeps_calmly, calmly_sample_runtime_health; apply _|]. intros ?. apply keeps_board_ret. }
  intros ?. apply hoare_board_runtime. intros r2. destruct (bzm_runtime_health_status_is_bad (health r2)) eqn:E.
  - apply hoare_at, close_gates.
  - intros [w log] [Hw ->]. by apply held_healthy.
Qed.

Lemma repeat_io_keeps n m : keeps gated (board m) -> keeps gated (board (repeat_io n m)).
Proof. intros Hm. induction n as [|n IH]; [apply keeps_board_ret|]. apply keeps_board_bind; [done|by intros ?]. Qed.

Lemma others_keeps : keeps gated (others k t).
Proof.
  unfold others. traced_calls. apply keeps_board_bind; [apply (keeps_quiet gated)|]. intros n. apply repeat_io_keeps, io_step_keeps.
Qed.

Lemma locked_keeps {A} (m : io world A) : keeps gated m -> keeps gated (locked k t m).
Proof. intros H. apply keeps_bind; [done|]. intros a. apply keeps_bind; [apply others_keeps|]. intros ?. apply keeps_ret. Qed.

(** *** Live tuning *)

Lemma keeps_mining_now J `{!Quiet J} r : keeps J (mining_now t r).
Proof. apply keeps_and_then, keeps_bind; [apply (keeps_clock J)|intros ?; apply keeps_ret]. Qed.

Lemma mining_now_spec J `{!Quiet J} r :
  hoare J (mining_now t r) (fun a w => J w /\ (a = true -> pause_requested r = false)).
Proof.
  unfold mining_now, and_then. destruct (_ && _) eqn:E; [|by apply hoare_ret].
  eapply hoare_bind; [apply (keeps_clock J)|]. intros now. apply hoare_ret. intros w Hw. split; [done|]. intros _. by prop_bool.
Qed.

Lemma tuning_authorized_spec J `{!Quiet J} g r :
  hoare J (tuning_authorized t g r) (fun a w => J w /\ (a = true -> pause_requested r = false)).
Proof.
  unfold tuning_authorized. traced_calls. eapply hoare_bind; [apply (keeps_quiet J)|]. intros stop.
  unfold and_then. destruct (_ && _); [by apply mining_now_spec|by apply hoare_ret].
Qed.

Lemma gated_rough w : gated w -> rough w.
Proof. by intros [[[]]]. Qed.

(** The voltage of a running board: unless it is acknowledged, only [rough] remains. *)
Lemma runtime_voltage_spec p v :
  hoare (with_state gated p) (board (acknowledged (VCORE_bzm_set_runtime_voltage (vcore_device t) (vcore t) v)))
    (fun ok w => with_state rough p w /\ (ok = true -> gated w)).
Proof using Hdev.
  intros [[r [x hw]] log] [Hw Hp]. unfold board, lifted, acknowledged, device, io_bind, io_ret. traced_calls.
  destruct (emits_runtime_voltage (vcore_device b) (vcore b) Hdev v x hw) as (err & x' & e & -> & He & Hok). cbn in *.
  split; [split; [|done]|].
  - eapply rough_step; [by apply framed_sealed|by apply powerless_still|by apply gated_rough].
  - intros Ho%is_ok_spec. eapply quiet_step; [by apply Hok|done].
Qed.

Lemma apply_voltage_keeps v g : keeps gated (frequency_apply_voltage k t v g).
Proof using Hdev.
  unfold frequency_apply_voltage. apply hoare_get. intros r.
  eapply hoare_bind; [apply tuning_authorized_spec, _|]. intros authorized.
  apply hoare_if; intros Ea; [by apply hoare_ret; intros w [[]]|]. apply negb_false_iff in Ea.
  apply hoare_if; intros _; [by apply hoare_ret; intros w [[]]|].
  eapply hoare_bind with (R := fun _ => with_state gated (fun r => pause_requested r = false)).
  { intros [[r' [x hw]] log] [[Hw Hr] Hp]. cbn in Hr. subst r'. split; [|by apply Hp]. by apply (keeps_set gated). }
  intros ?. eapply hoare_bind; [apply runtime_voltage_spec|]. intros ok. apply hoare_get. intros r'.
  apply hoare_if; intros Ep.
  { intros w [[[_ Hp] _] Hr]. cbn in Hr. congruence. }
  apply hoare_if; intros Eok.
  - eapply hoare_bind with (R := fun _ => gated); [|intros ?; apply keeps_ret].
    eapply hoare_mono; [by apply fail_closed_gates|by intros w [[[]]]|done].
  - apply negb_false_iff in Eok.
    eapply hoare_mono with (P := gated) (Q := fun _ => gated); [|by intros w [[]]; auto|done].
    apply keeps_bind; [by apply (keeps_set gated)|intros ?; apply keeps_ret].
Qed.

Ltac fold_keeps := lazymatch goal with |- hoare ?J ?m _ => change (keeps J m) end.

(** One step of an operation that keeps the gate. *)
Ltac keep_step :=
  lazymatch goal with
  | |- keeps _ (io_ret _) => apply keeps_ret
  | |- keeps _ (io_bind _ _) => apply keeps_bind; [|intros ?]
  | |- keeps _ get => apply keeps_get
  | |- keeps _ (set _) => apply keeps_set; [apply _|intros ?; try (split; done)|intros ?; try done]
  | |- keeps _ (clock _) => apply keeps_clock, _
  | |- keeps _ (board (device (lifted _))) => apply keeps_quiet, _
  | |- keeps _ (and_then _ _) => apply keeps_and_then
  | |- keeps _ (mining_now _ _) => apply keeps_mining_now, _
  | |- keeps gated (locked _ _ _) => apply locked_keeps
  | |- keeps gated (others _ _) => apply others_keeps
  | |- keeps gated (board (sync_dispatch_locked _)) => apply sync_keeps
  | |- keeps gated (frequency_apply_voltage _ _ _ _) => apply apply_voltage_keeps
  | |- keeps _ (if ?c then _ else _) => destruct c
  | |- keeps _ (let '(_, _) := ?x in _) => destruct x
  | |- keeps _ (match ?x with _ => _ end) => destruct x
  end.

Lemma retarget_sealed f v r : sealed r (retarget f v r).
Proof. unfold retarget. by destruct (_ || _). Qed.

Lemma retarget_health f v r : health (retarget f v r) = health r.
Proof. unfold retarget. by destruct (_ || _). Qed.

Lemma set_active_keeps on g : keeps gated (tuning_set_active on g).
Proof. unfold tuning_set_active. keep_step; by destruct (_ =? _). Qed.

Lemma commit_keeps o baseline g : keeps gated (frequency_commit_locked k t o baseline g).
Proof using Hdev.
  unfold frequency_commit_locked, frequency_transition_authorized_locked, tuning_authorized. traced_calls. repeat keep_step.
  all: eapply hoare_mono; [by apply fail_closed_gates|apply gated_rough|done].
Qed.

(** A board that was brought up to mining, where the clocks may change. *)
Definition mined (w : world) : Prop := brought_up k 7 w.1.2.2.
Definition working (w : world) : Prop := gated w /\ mined w.

#[local] Instance mined_framing : Framing mined.
Proof. split. intros * _ He H. by apply brought_up_undisturbed, calm_undisturbed. Qed.

Lemma keeps_working {A} (m : io world A) : keeps gated m -> keeps mined m -> keeps working m.
Proof. intros Hg Hm w [Hw Hb]. split; [by apply Hg|by apply Hm]. Qed.

Lemma working_quiet {A} (m : io V A) : keeps working (board (device (lifted m))).
Proof. apply keeps_working; apply keeps_quiet, _. Qed.

Lemma working_gated {A} (m : io world A) : keeps gated m -> hoare working m (fun _ => gated).
Proof. intros H w [Hw _]. by apply H. Qed.

(** The state does not matter for it. *)
Lemma mined_set f : keeps mined (set f).
Proof. by intros [[r x] log]. Qed.

Lemma mined_modify f : keeps mined (board (modify f)).
Proof. by intros [[r x] log]. Qed.

Lemma others_mined : keeps mined (others k t).
Proof.
  unfold others. traced_calls. apply keeps_board_bind; [apply keeps_quiet, _|]. intros n.
  induction n as [|n IH]; cbn [repeat_io]; [apply keeps_board_ret|]. apply keeps_board_bind; [|intros ?; apply IH].
  unfold board_io_step, close_dispatch_locked. traced_calls.
  repeat lazymatch goal with
  | |- keeps _ (board (io_bind _ _)) => apply keeps_board_bind; [|intros ?]
  | |- keeps _ (board (io_ret _)) => apply keeps_board_ret
  | |- keeps _ (board runtime) => apply keeps_runtime
  | |- keeps _ (board (modify _)) => apply mined_modify
  | |- keeps _ (board (now_ms _)) => apply keeps_now, _
  | |- keeps _ (board (device (lifted _))) => apply keeps_quiet, _
  | |- keeps _ (board (device (traced _ _))) => apply keeps_call; [apply _|done]
  | |- keeps _ (board (sample_runtime_health_locked _ _)) => apply keeps_calmly, calmly_sample_runtime_health; apply _
  | |- keeps _ (board (if ?c then _ else _)) => destruct c
  | |- keeps _ (board (let '(_, _) := ?x in _)) => destruct x
  end.
Qed.

Lemma locked_working {A} (m : io world A) : keeps working m -> keeps working (locked k t m).
Proof.
  intros H. apply keeps_bind; [done|]. intros a. apply keeps_bind; [|intros ?; apply keeps_ret].
  apply keeps_working; [apply others_keeps|apply others_mined].
Qed.

(** A board that mines was brought up. *)
Lemma mining_mined w :
  consistent w -> board_initialized w.1.1 = true -> owner (supervisor w.1.1) = BZM_SUPERVISOR_OWNER_MINING -> mined w.
Proof.
  intros [[Hs _ _] Ha] Hb Ho. assert (active_owner (owner (supervisor w.1.1)) = true) as Hact by (by rewrite Ho).
  destruct (inv_active _ _ (Hs Hb) Hact) as (_ & _ & _ & _ & [Hre _] & He). rewrite (Hre Ho) in He.
  apply (Ha Hact). by apply energized_good_stages.
Qed.

Lemma snapshot_works target : hoare gated (tuning_snapshot t target) (fun res w => gated w /\ (res.1.1.1 = true -> mined w)).
Proof.
  unfold tuning_snapshot. cbn zeta. eapply hoare_bind with (R := fun _ => gated).
  { apply (keeps_set gated); intros r; (destruct (resolve_tuning _ _) as [[]|]; [first [apply retarget_sealed|apply retarget_health]|done]). }
  intros ?. apply hoare_get. intros r.
  eapply hoare_bind with (R := fun mining w => gated w /\ (mining = true -> mined w)).
  { unfold mining_now, and_then. destruct (_ && _) eqn:E; [|by apply hoare_ret; intros w []].
    eapply hoare_bind with (R := fun _ => with_state gated (eq r)); [apply (keeps_clock (with_state gated (eq r)))|].
    intros now. apply hoare_ret. intros w [Hw Hr]. split; [done|]. intros _. prop_bool.
    apply mining_mined; [by apply gated_consistent|by rewrite <- Hr|by rewrite <- Hr]. }
  intros mining. eapply hoare_bind with (R := fun _ w => gated w /\ (mining = true -> mined w)).
  { intros w [Hw Hm]. split; [apply (keeps_set gated); [by intros ?; case_decide..|done]|]. intros H. apply mined_set, Hm, H. }
  intros ?. apply hoare_ret. intros w [Hw Hm]. split; [done|]. cbn. intros H. apply Hm. by prop_bool.
Qed.

(** The step of the clocks. *)
Lemma frequency_step_keeps clocks jump :
  hoare working (board (staged (staged_frequency_domains_step_live t clocks jump))) (fun _ => gated).
Proof.
  intros [[r [v hw]] log] [Hg Hm]. unfold mined in Hm. cbn in Hm. unfold board, lifted. traced_calls.
  destruct (brings_staged_frequency (staged_frequency_domains_step_live b clocks jump) r v hw)
    as (o & r' & v' & e & -> & Hf%framed_sealed & Hh & ->). cbn [fst snd].
  apply (stable_step r r' v v' hw []) in Hg; [|done..]. rewrite app_nil_r in Hg.
  destruct Hg as [[[[Hs Hp Hr] Ha] Hl] Hok]. cbn in *.
  split; [split; [split; [split|]|]|]; cbn; try done; [by apply recorded_frequency|].
  intros Hact%Ha. by apply proved_undisturbed; [|constructor].
Qed.

Lemma apply_domains_keeps clocks jump g : hoare working (frequency_apply_domains k t clocks jump g) (fun _ => gated).
Proof using Hdev.
  unfold frequency_apply_domains. eapply hoare_bind; [apply frequency_step_keeps|]. intros o. traced_calls. fold_keeps.
  repeat keep_step. apply commit_keeps.
Qed.

Lemma step_voltage_keeps v g : keeps gated (step_voltage k t v g).
Proof using Hdev.
  unfold step_voltage, tuning_failed. traced_calls.
  repeat lazymatch goal with
  | |- keeps _ (tuning_set_active _ _) => apply set_active_keeps
  | _ => keep_step
  end.
Qed.

Lemma step_clocks_keeps clocks jump g : hoare working (step_clocks k t clocks jump g) (fun _ => gated).
Proof using Hdev.
  unfold step_clocks, tuning_failed, locked. eapply hoare_bind with (R := fun _ => gated).
  { eapply hoare_bind; [apply apply_domains_keeps|]. intros ?. fold_keeps. repeat keep_step. }
  intros ok. fold_keeps. traced_calls.
  repeat lazymatch goal with
  | |- keeps _ (tuning_set_active _ _) => apply set_active_keeps
  | _ => keep_step
  end.
Qed.

Lemma working_set_active on g : keeps working (locked k t (tuning_set_active on g)).
Proof. apply locked_working, keeps_working; [apply set_active_keeps|apply mined_set]. Qed.

Lemma tune_clocks_keeps s target g : hoare working (tune_clocks k t s target g) (fun _ => gated).
Proof using Hdev.
  unfold tune_clocks. eapply hoare_bind; [apply working_set_active|]. intros ?. cbn zeta.
  apply hoare_if; intros _; [apply step_clocks_keeps|]. apply hoare_if; intros _; [|apply step_clocks_keeps].
  apply working_gated, keeps_bind; [apply locked_keeps, set_active_keeps|intros ?; apply keeps_ret].
Qed.

Lemma tune_keeps s target v g : hoare working (tune k t s target v g) (fun _ => gated).
Proof using Hdev.
  unfold tune, tuning_rail_command. eapply hoare_bind; [apply locked_working, keeps_bind; [apply keeps_get|intros ?; apply keeps_ret]|].
  intros rail. apply hoare_if; intros _; [apply working_gated, step_voltage_keeps|].
  apply hoare_if; intros _; [|apply tune_clocks_keeps].
  apply hoare_if; intros _; [apply working_gated, step_voltage_keeps|].
  apply working_gated, keeps_bind; [apply locked_keeps, set_active_keeps|intros ?; apply keeps_ret].
Qed.

Lemma await_works : keeps working (await_replacement t).
Proof.
  apply keeps_working; unfold await_replacement; traced_calls;
    repeat lazymatch goal with |- keeps mined (set _) => apply mined_set | _ => keep_step end.
Qed.

Lemma apply_keeps target : keeps gated (BZM_board_apply k t target).
Proof using Hdev.
  unfold BZM_board_apply. eapply hoare_bind with (R := fun res w => gated w /\ (res.1.1.1 = true -> mined w)).
  { unfold locked. eapply hoare_bind; [apply snapshot_works|]. intros res.
    eapply hoare_bind with (R := fun _ w => gated w /\ (res.1.1.1 = true -> mined w)); [|intros ?; by apply hoare_ret].
    intros w [Hw Hm]. split; [by apply others_keeps|]. intros H. apply others_mined, Hm, H. }
  intros [[[ready f] v] g]. cbn [fst]. apply hoare_if; intros Er; [by apply hoare_ret; intros w []|].
  apply negb_false_iff in Er. eapply hoare_mono with (P := working) (Q := fun _ => gated); [|intros w [Hw Hm]; split; auto|done].
  eapply hoare_bind; [apply await_works|]. intros [result|]; [by apply hoare_ret; intros w []|]. traced_calls.
  eapply hoare_bind; [apply working_quiet|]. intros [s|]; [|by apply hoare_ret; intros w []].
  apply hoare_if; intros _; [by apply hoare_ret; intros w []|apply tune_keeps].
Qed.

(** *** Start and stop *)

Lemma close_keeps_shut : keeps shut (board close_dispatch_locked).
Proof. eapply hoare_mono; [apply close_shuts|apply shut_consistent|done]. Qed.

Lemma request_keeps target arm hold lease now : keeps shut (request_validation k t target arm hold lease now).
Proof using Hdev. apply (supervise_keeps (RequestValidation target arm hold lease now)). Qed.

Lemma off_safe_keeps : keeps shut (request_off_safe k t).
Proof using Hdev. apply keeps_bind; [apply (keeps_clock shut)|intros ?; apply request_keeps]. Qed.

Lemma sync_ends {A} (a : A) : hoare shut (let! _ := board (sync_dispatch_locked t) in io_ret a) (fun _ => gated).
Proof.
  eapply hoare_bind; [eapply hoare_mono; [apply sync_gates|apply shut_consistent|intros ? w H; exact H]|].
  intros ?. by apply hoare_ret.
Qed.

Lemma sample_keeps J `{!Framing J} : keeps J (board (sample_runtime_health_locked k t)).
Proof. apply (keeps_calmly J), calmly_sample_runtime_health. Qed.

Ltac shut_step :=
  lazymatch goal with
  | |- keeps shut (board close_dispatch_locked) => apply close_keeps_shut
  | |- keeps shut (latch_fault _ _ _ _) => apply latch_fault_keeps
  | |- keeps shut (request_validation _ _ _ _ _ _ _) => apply request_keeps
  | |- keeps shut (request_off_safe _ _) => apply off_safe_keeps
  | |- keeps shut (board (sample_runtime_health_locked _ _)) => apply (sample_keeps shut)
  | |- keeps shut (board (evaluate_running_evidence_locked _ _ _)) => apply keeps_evidence, _
  | _ => keep_step
  end.

(** A part that keeps the gate closed, before one that may open it. *)
Lemma shut_then {A C} (m : io world A) (f : A -> io world C) (Q : C -> world -> Prop) :
  keeps shut m -> (forall a, hoare shut (f a) Q) -> hoare shut (io_bind m f) Q.
Proof. intros Hm Hf. by eapply hoare_bind. Qed.

Lemma first_health_keeps completed : keeps shut (first_health k t completed).
Proof using Hdev. unfold first_health. repeat shut_step. Qed.

Lemma start_failed_gates : hoare shut (start_failed k t) (fun _ => gated).
Proof using Hdev. unfold start_failed. do 2 (apply shut_then; [repeat shut_step|intros ?]). apply sync_ends. Qed.

Lemma shut_mono {A} (m : io world A) : hoare consistent m (fun _ => shut) -> hoare gated m (fun _ => shut).
Proof. intros H. eapply hoare_mono; [exact H|apply gated_consistent|done]. Qed.

Lemma hoare_shut_ret {A} (a : A) : hoare shut (io_ret a) (fun _ => gated).
Proof. apply hoare_ret. intros w. apply shut_gated. Qed.

Lemma start_mining_keeps : keeps gated (start_production_mining_locked k t).
Proof using Hdev.
  unfold start_production_mining_locked. apply keeps_bind; [apply keeps_get|]. intros r.
  apply hoare_if; intros _; [by apply hoare_ret|].
  eapply hoare_bind; [apply shut_mono, close_shuts|]. intros ?. apply shut_then; [shut_step|]. intros ?. cbn zeta.
  apply shut_then; [shut_step|]. intros started.
  destruct (bzm_lease_guard_make_deadline _ _) as [deadline|]; [|apply hoare_shut_ret].
  do 5 (apply shut_then; [first [apply first_health_keeps | shut_step]|intros ?]).
  apply hoare_if; intros _; [apply start_failed_gates|].
  do 3 (apply shut_then; [shut_step|intros ?]). apply sync_ends.
Qed.

(** A fault is latched only while the gate is closed. *)
Lemma gated_latched w : gated w -> Supervisor.fault_latched (supervisor w.1.1) = true -> shut w.
Proof.
  intros Hw Hl. split; [by apply gated_consistent|]. destruct Hw as [[[[Hs Hp _] Ha] Hg] Hh].
  destruct (dispatch_enabled w.1.1) eqn:Hd; [|done]. destruct (Hg Hd) as [Ho _].
  assert (active_owner (owner (supervisor w.1.1)) = true) as Hact by (by rewrite Ho).
  destruct (board_initialized w.1.1) eqn:Hb.
  - destruct (inv_active _ _ (Hs eq_refl) Hact) as (_ & _ & _ & Hf & _). congruence.
  - destruct (Hp eq_refl). congruence.
Qed.

Lemma recover_keeps : keeps gated (recover_fault k t).
Proof using Hdev.
  unfold recover_fault. apply hoare_get. intros r. destruct (Supervisor.fault_latched (supervisor r)) eqn:E.
  - eapply hoare_mono with (P := shut) (Q := fun _ => shut); [| |intros ? w; apply shut_gated].
    + fold_keeps. repeat shut_step. apply (supervise_keeps Supervisor.ClearFault).
    + intros w [Hw ->]. by apply gated_latched.
  - apply hoare_at, keeps_ret.
Qed.

(** A pause or the health GOOD does not open the gate. *)
Lemma set_good_keeps f :
  (forall r, sealed r (f r)) -> (forall r, bzm_runtime_health_status_is_bad (health (f r)) = false) -> keeps gated (set f).
Proof.
  intros Hs Hh [[r [v hw]] log] [H _]. split; [by apply (keeps_set_health held)|]. intros _. apply Hh.
Qed.

Lemma start_keeps : keeps gated (BZM_board_start k t).
Proof using Hdev.
  unfold BZM_board_start, board_start, start_from_off. traced_calls.
  repeat lazymatch goal with
  | |- keeps _ (recover_fault _ _) => apply recover_keeps
  | |- keeps _ (start_production_mining_locked _ _) => apply start_mining_keeps
  | |- keeps _ (set (fun r => r <| health := RuntimeHealth.good; execution_cancelled := false; replacement_pending := false |>)) =>
      by apply set_good_keeps
  | _ => keep_step
  end.
Qed.

Lemma stop_safely_keeps : keeps shut (stop_safely k t).
Proof using Hdev. unfold stop_safely. repeat shut_step. apply (supervise_keeps (Supervisor.Stop _)). Qed.

Lemma board_stop_keeps : keeps gated (BZM_board_stop k t).
Proof using Hdev.
  unfold BZM_board_stop. do 2 keep_step; [keep_step|]. keep_step; [keep_step|].
  do 2 (apply hoare_if; intros _; [by apply hoare_ret|]).
  eapply hoare_bind; [apply shut_mono, close_shuts|]. intros ?.
  do 3 (apply shut_then; [first [apply stop_safely_keeps | shut_step]|intros ?]). apply sync_ends.
Qed.

(** *** Maintenance *)

Lemma closed_gate_keeps m : keeps shut m -> keeps gated (with_closed_gate t m).
Proof.
  intros Hm. unfold with_closed_gate. eapply hoare_bind; [apply shut_mono, close_shuts|]. intros ?.
  apply shut_then; [done|]. intros ok. apply sync_ends.
Qed.

Lemma request_pause_keeps : keeps gated (request_pause (V := V * list board_event)).
Proof. unfold request_pause. keep_step. Qed.

Lemma calmly_wait_discharged n : calmly (wait_discharged k t n).
Proof.
  induction n as [|n IH]; cbn [wait_discharged]; [apply calmly_ret|].
  apply calmly_bind; [apply calmly_rail_snapshot|]. intros [[err s] p]. apply calmly_if; [apply calmly_ret|].
  apply calmly_bind; [traced_calls; apply calmly_quiet|by intros ?].
Qed.

(** Nobody holds the hardware. *)
Definition unowned (r : bzm_runtime_state_t) : Prop := active_owner (owner (supervisor r)) = false.

Lemma regulator_off_keeps : hoare (with_state shut unowned) (regulator_off k t) (fun _ => shut).
Proof using Hdev.
  unfold regulator_off. eapply hoare_bind with (R := fun _ => with_state shut unowned).
  { intros [[r [v hw]] log] [Hw Hu]. split; [|done]. by apply (keeps_set shut). }
  intros ?. eapply hoare_bind with (R := fun _ => shut); fold_keeps || idtac.
  - intros [[r [v hw]] log] [[[Hr Ha] Hg] Hu]. unfold board, lifted, acknowledged, device, io_bind, io_ret. traced_calls.
    destruct (emits_regulator_off (vcore_device b) (vcore b) Hdev v hw) as (err & v' & e & -> & a1 & a2 & -> & _). cbn in *.
    split; [split|done]; [|cbn; unfold unowned in Hu; congruence].
    eapply rough_step; [by apply framed_sealed|by repeat constructor|done].
  - intros off. apply hoare_if; intros _; [|by apply hoare_ret]. apply (keeps_calmly shut), calmly_wait_discharged.
Qed.

Lemma acquire_maintenance_keeps o : keeps gated (board_acquire_maintenance k t o).
Proof using Hdev.
  unfold board_acquire_maintenance. do 2 keep_step; [keep_step|]. apply keeps_bind; [apply request_pause_keeps|]. intros ?.
  apply closed_gate_keeps. do 2 shut_step; [shut_step|]. apply (supervise_keeps (AcquireMaintenance o _)).
Qed.

Lemma acquire_recovery_keeps : keeps gated (board_acquire_bridge_recovery k t).
Proof using Hdev.
  unfold board_acquire_bridge_recovery. apply hoare_get. intros r0. apply hoare_if; intros _; [by apply hoare_ret; intros w []|].
  eapply hoare_bind with (R := fun _ => with_state gated (fun r => supervisor r = supervisor r0)).
  { intros [[r [v hw]] log] [Hw Hr]. cbn in Hr. subst r0. split; [|done]. by apply request_pause_keeps. }
  intros ?. unfold with_closed_gate. eapply hoare_bind with (R := fun _ => with_state shut (fun r => supervisor r = supervisor r0)).
  { intros [[r [v hw]] log] [Hw Hr]. split; [|done]. apply close_shuts, gated_consistent, Hw. }
  intros ?. eapply hoare_bind with (R := fun _ => shut); [|intros ok; apply sync_ends].
  eapply hoare_bind with (R := fun blank w => shut w /\ (blank = true -> unowned w.1.1)).
  { unfold and_then. destruct (_ && _) eqn:E; [|by apply hoare_ret; intros w []]. traced_calls.
    eapply hoare_bind; [apply keeps_quiet, _|]. intros up. apply hoare_ret. intros w [Hw Hr]. split; [done|]. intros _.
    unfold unowned. rewrite Hr. prop_bool. by match goal with H : Supervisor.owner _ = _ |- _ => rewrite H end. }
  intros blank. eapply hoare_bind with (R := fun _ => shut).
  { unfold and_then. destruct blank; [|by apply hoare_ret; intros w []].
    eapply hoare_mono; [apply regulator_off_keeps| |done]. intros w [Hw Hu]. split; auto. }
  intros safe. fold_keeps. shut_step. apply (supervise_keeps AcquireBridgeRecovery).
Qed.

Lemma release_keeps o : keeps gated (board_release_maintenance k t o).
Proof using Hdev.
  unfold board_release_maintenance. do 2 keep_step; [keep_step|]. apply closed_gate_keeps. shut_step.
  apply (supervise_keeps (ReleaseMaintenance o)).
Qed.

Lemma prepare_restart_keeps : keeps gated (board_prepare_restart k t).
Proof using Hdev.
  unfold board_prepare_restart. do 2 keep_step; [keep_step|]. apply keeps_bind; [apply request_pause_keeps|]. intros ?.
  keep_step; [keep_step|]. apply closed_gate_keeps. shut_step. apply (supervise_keeps PrepareRestart).
Qed.

Lemma board_maintenance_keeps o acquire : keeps gated (BZM_board_maintenance k t o acquire).
Proof using Hdev.
  unfold BZM_board_maintenance. cbn zeta.
  repeat lazymatch goal with
  | |- keeps _ (board_prepare_restart _ _) => apply prepare_restart_keeps
  | |- keeps _ (board_release_maintenance _ _ _) => apply release_keeps
  | |- keeps _ (board_acquire_maintenance _ _ _) => apply acquire_maintenance_keeps
  | |- keeps _ (board_acquire_bridge_recovery _ _) => apply acquire_recovery_keeps
  | _ => keep_step
  end.
Qed.

(** *** Sampling *)

Lemma watch_mining_keeps now : keeps consistent (watch_mining k t now).
Proof.
  unfold watch_mining.
  repeat lazymatch goal with
  | |- keeps _ (supervise _) => apply heartbeat_keeps
  | |- keeps _ (board (evaluate_running_evidence_locked _ _ _)) => apply keeps_evidence, _
  | |- keeps _ (set_health _) => unfold set_health
  | |- keeps _ (set _) => apply (keeps_set_health consistent); by intros ?
  | _ => keep_step
  end.
Qed.

Lemma board_sample_keeps : keeps gated (BZM_board_sample k t).
Proof.
  unfold BZM_board_sample. do 2 keep_step; [keep_step|].
  apply keeps_bind; [apply (keeps_clock gated)|]. intros now.
  eapply hoare_mono with (P := consistent) (Q := fun _ => gated); [|apply gated_consistent|done].
  eapply hoare_bind with (R := fun _ => consistent).
  { fold_keeps. case_decide; [apply watch_mining_keeps|apply keeps_ret]. }
  intros ?. eapply hoare_bind; [apply (keeps_get consistent)|]. intros r. cbn zeta.
  eapply hoare_bind; [apply (keeps_calmly consistent), calmly_rail_snapshot|]. intros [[err s] p].
  eapply hoare_bind; [apply sync_gates|]. intros ?. by apply hoare_ret.
Qed.

(** *** Initialisation *)

Lemma refresh_keeps J `{!Framing J} : keeps J (board (refresh_bridge_evidence_locked t)).
Proof.
  unfold refresh_bridge_evidence_locked, when. traced_calls.
  repeat lazymatch goal with
  | |- keeps _ (board (io_bind _ _)) => apply keeps_board_bind; [|intros ?]
  | |- keeps _ (board (io_ret _)) => apply keeps_board_ret
  | |- keeps _ (board runtime) => apply keeps_runtime
  | |- keeps _ (board (modify _)) => apply (keeps_set_health J); intros ?; try done
  | |- keeps _ (board (device (traced _ _))) => apply (keeps_call J); try done
  | |- keeps _ (board (if ?c then _ else _)) => destruct c
  | |- keeps _ (board (let '(_, _) := ?x in _)) => destruct x
  | |- keeps _ (board (let _ := _ in _)) => cbn zeta
  end.
  split; try done. split; try done. intros log [[] ? ? ? ? ?]. by split.
Qed.

Lemma fresh_supervisor cfg (ops : option (bzm_validation_ops_t world)) s log :
  bzm_supervisor_init (Some cfg) ops = Some s -> supervisor_inv s log /\ active_owner (owner s) = false.
Proof.
  unfold bzm_supervisor_init. destruct ops as [[[|] [|]]|]; try done. guard_step; [done|]. intros [= <-]. by split.
Qed.

Lemma state_init_keeps : keeps gated (runtime_state_init t).
Proof.
  unfold runtime_state_init. traced_calls. apply keeps_bind; [apply keeps_get|]. intros r0.
  keep_step; [keep_step|]. keep_step; [keep_step|]. keep_step; [keep_step|]. apply keeps_bind; [|intros ?; keep_step].
  intros [[r [v hw]] log] [[[[Hs Hp Hh] Ha] _] _]. by repeat (split; try done).
Qed.

Lemma init_safe_off_gates : hoare shut (init_safe_off k t) (fun _ => gated).
Proof using Hdev.
  unfold init_safe_off. apply shut_then; [apply (refresh_keeps shut)|]. intros ?.
  eapply hoare_bind; [apply off_safe_keeps|]. intros safe.
  eapply hoare_mono with (P := gated) (Q := fun _ => gated); [|intros w; apply shut_gated|done]. fold_keeps.
  keep_step; [keep_step|]. keep_step; [keep_step|]. traced_calls. keep_step; [keep_step|]. keep_step; [|keep_step].
  eapply hoare_bind; [apply shut_mono, close_shuts|]. intros ?.
  eapply hoare_bind; [apply latch_fault_keeps|]. intros ?. apply hoare_shut_ret.
Qed.

Lemma board_init_keeps : keeps gated (BZM_board_init k t).
Proof using Hdev.
  unfold BZM_board_init. keep_step; [traced_calls; keep_step|]. keep_step; [keep_step|].
  apply keeps_bind; [apply state_init_keeps|]. intros ok. keep_step; [keep_step|].
  apply hoare_get. intros r0. apply hoare_if; intros Hi; [by apply hoare_ret; intros w []|]. traced_calls.
  do 2 (eapply hoare_bind; [apply keeps_quiet, _|]; intros ?). cbn zeta.
  eapply hoare_bind with (R := fun _ => shut).
  { intros [[r [v hw]] log] [[[[[Hs Hp Hh] Ha] _] _] Hr]. cbn in Hr. subst r0.
    destruct (Hp Hi) as [Hsi Hso]. cbn in *. split; [|done]. split; [split; cbn; [congruence|done|done]|]. cbn. congruence. }
  intros ?. apply shut_then; [keep_step|]. intros ?.
  destruct (bzm_supervisor_init _ _) as [s|] eqn:E; [|apply hoare_shut_ret].
  eapply hoare_bind; [|intros ?; apply init_safe_off_gates].
  intros [[r [v hw]] log] [[[Hs Hp Hh] Ha] Hg]. destruct (fresh_supervisor _ _ _ log E) as [Hi' Ho].
  split; [|done]. split; [split; cbn; try done|cbn; congruence].
Qed.


Lemma brings_stop_or_no_pools r v hw : exists stop v', stop_or_no_pools t (r, (v, hw)) = (stop, (r, (v', hw))).
Proof.
  unfold stop_or_no_pools, device, io_bind. traced_calls. unfold lifted. destruct (stop_requested b v) as [[] v1]; [by eexists _, _|].
  destruct (pools_unavailable b v1) as [[] v2]; by eexists _, _.
Qed.

(** ** Reachable boards *)

Inductive board_op :=
| BoardInit | BoardStart | BoardStop | BoardApply (target : power_target_t)
| BoardMaintenance (o : power_owner_t) (acquire : bool) | BoardSample
| MonitorTask.

Definition board_apply (op : board_op) (w : world) : world :=
  match op with
  | BoardInit => (BZM_board_init k t w).2
  | BoardStart => (BZM_board_start k t w).2
  | BoardStop => (BZM_board_stop k t w).2
  | BoardApply target => (BZM_board_apply k t target w).2
  | BoardMaintenance o acquire => (BZM_board_maintenance k t o acquire w).2
  | BoardSample => (BZM_board_sample k t w).2
  | MonitorTask => (board (board_io_step k t) w).2
  end.

(** Before its initialisation. *)
Inductive board_off_init : world -> Prop :=
| board_off_init_intro v : board_off_init ((zero_runtime <| allocated := false |>, (v, [])), []).

(** An operation, or a change of the world. *)
Inductive board_step : world -> world -> Prop :=
| board_step_op op w : board_step w (board_apply op w)
| board_step_world r v v' hw log : board_step ((r, (v, hw)), log) ((r, (v', hw)), log).

Definition board_reachable : world -> Prop := reachable board_off_init board_step.

Lemma board_apply_keeps op w : gated w -> gated (board_apply op w).
Proof using Hdev.
  intros H. destruct op; cbn [board_apply].
  - by apply board_init_keeps.
  - by apply start_keeps.
  - by apply board_stop_keeps.
  - by apply apply_keeps.
  - by apply board_maintenance_keeps.
  - by apply board_sample_keeps.
  - by apply io_step_keeps.
Qed.

Lemma reachable_gated w : board_reachable w -> gated w.
Proof using Hdev.
  apply reachable_invariant.
  - intros ? [v].
    assert (recorded k [] []) as Hr by (split; [apply disciplined_nil|by intros ([] & o & E & _)]).
    by repeat (split; try done).
  - intros x y Hx Hs. revert Hx. destruct Hs as [op w'|r v v' hw log]; intros Hx.
    + by apply board_apply_keeps.
    + rewrite <- (app_nil_r hw). by eapply quiet_step.
Qed.

(** What an open gate means. *)
Lemma gated_open w :
  gated w -> dispatch_enabled w.1.1 = true ->
  owner (supervisor w.1.1) = BZM_SUPERVISOR_OWNER_MINING /\ Supervisor.fault_latched (supervisor w.1.1) = false /\
  Validation.state (Supervisor.report (supervisor w.1.1)) = BZM_VALIDATION_HOLDING /\
  dispatch_deadline_ms w.1.1 = lease_deadline_ms (supervisor w.1.1) /\
  bzm_runtime_health_status_is_bad (health w.1.1) = false /\ brought_up k 7 w.1.2.2.
Proof.
  intros [[[[Hs Hp Hr] Ha] Hg] Hh] Hd. destruct (Hg Hd) as [Ho Hl].
  assert (active_owner (owner (supervisor w.1.1)) = true) as Hact by (by rewrite Ho).
  destruct (board_initialized w.1.1) eqn:Hb; [|destruct (Hp eq_refl); congruence].
  destruct (inv_active _ _ (Hs eq_refl) Hact) as (Hst & _ & _ & Hf & [Hre _] & He).
  rewrite (Hre Ho) in He. split_and!; try done; [by apply Hh|].
  apply (Ha Hact). by apply energized_good_stages.
Qed.

(** A board whose safe-off counts as verified is off. *)
Lemma gated_verified w :
  gated w -> off_verified w.1.1 = true -> ended_off k w.1.2.2 /\ dispatch_enabled w.1.1 = false.
Proof.
  intros Hw Hv. pose proof (gated_open w Hw) as Hopen. destruct Hw as [[[[Hs Hp Hr] Ha] Hg] Hh]. unfold off_verified in Hv.
  destruct (board_initialized w.1.1) eqn:Hb.
  - pose proof (verified_passive _ _ (Hs eq_refl) Hv) as Hpass. split.
    + apply (recorded_safe _ _ _ Hr), (inv_safe _ _ (Hs eq_refl)); [done|]. by apply safe_off_verified_state.
    + destruct (dispatch_enabled w.1.1); [|done]. destruct (Hopen eq_refl) as [Ho _]. by rewrite Ho in Hpass.
  - destruct (Hp eq_refl) as [Hi _]. unfold bzm_supervisor_safe_off_verified in Hv. by rewrite Hi in Hv.
Qed.

Lemma stop_safely_verified : hoare shut (stop_safely k t) (fun safe w => shut w /\ (safe = true -> off_verified w.1.1 = true)).
Proof using Hdev.
  unfold stop_safely. apply hoare_get. intros r. cbn zeta. apply hoare_if; intros E.
  { apply hoare_ret. intros w [Hw ->]. split; [done|]. intros _. by prop_bool. }
  eapply hoare_bind with (R := fun _ => shut).
  { apply hoare_at. fold_keeps. repeat shut_step. apply (supervise_keeps (Supervisor.Stop _)). }
  intros safe. apply hoare_get. intros r'. apply hoare_ret. intros w [Hw ->]. split; [done|]. intros H. by prop_bool.
Qed.

(** Publishing leaves a board that is off as it is. *)
Lemma sync_verified :
  hoare (fun w => shut w /\ off_verified w.1.1 = true) (board (sync_dispatch_locked t))
    (fun _ w => gated w /\ off_verified w.1.1 = true).
Proof.
  intros w [Hw Hv]. split; [by apply sync_gates, shut_consistent|]. destruct w as [[r [v hw]] log]. cbn in Hv.
  unfold board, lifted, sync_dispatch_locked, now_ms, device, runtime, close_dispatch_locked, modify, io_bind, io_ret.
  traced_calls. destruct (lifted _ _) as [us x]. destruct (_ || _); cbn; done.
Qed.

Lemma stop_verifies w :
  gated w -> active w.1.1 = true -> (BZM_board_stop k t w).1 = true ->
  gated (BZM_board_stop k t w).2 /\ off_verified (BZM_board_stop k t w).2.1.1 = true.
Proof using Hdev.
  enough (hoare (with_state gated (fun r => active r = true)) (BZM_board_stop k t)
    (fun ok w => ok = true -> gated w /\ off_verified w.1.1 = true)) as H.
  { intros Hw Ha. by apply H. }
  clear w.
  unfold BZM_board_stop. apply hoare_get. intros r0. apply hoare_if; intros _; [by apply hoare_ret|].
  eapply hoare_bind with (R := fun _ => with_state gated (fun _ => active r0 = true)).
  { intros [[r [v hw]] log] [[Hw Ha] Hr]. cbn in Hr. subst r0. split; [|done]. by apply (keeps_set gated). }
  intros ?. destruct (active r0) eqn:Ha; cbn [negb]; [|by intros w [_ H]].
  apply hoare_if; intros _; [by apply hoare_ret|].
  eapply hoare_bind; [apply hoare_at, shut_mono, close_shuts|]. intros ?.
  apply shut_then; [keep_step|]. intros ?. eapply hoare_bind; [apply stop_safely_verified|]. intros safe.
  eapply hoare_bind with (R := fun _ w => shut w /\ (safe = true -> off_verified w.1.1 = true)).
  { intros [[r [v hw]] log] [Hw Hs]. split; [by apply (keeps_set shut)|done]. }
  intros ?. eapply hoare_bind with (R := fun _ w => safe = true -> gated w /\ off_verified w.1.1 = true).
  { intros w [Hw Hs] Hsafe. apply sync_verified. auto. }
  intros ?. apply hoare_ret. auto.
Qed.

(** ** Properties *)

(** C1: Whenever the authorizer of dispatch says yes, on a board in any state that its
    operations, its monitor task and a changing world can reach: the supervisor holds
    the hardware for mining with no fault latched, nobody asked for a pause, the last
    health was GOOD, the lease has not run out at the time the authorizer read, and
    the log of the hardware shows a verified safe-off and then each of the seven stages
    with all its evidence, after which nothing was switched on or off. *)
Theorem board_dispatch_brought_up r v hw log :
  board_reachable ((r, (v, hw)), log) ->
  (runtime_dispatch_authorizer t (r, (v, hw))).1 = true ->
  owner (supervisor r) = BZM_SUPERVISOR_OWNER_MINING /\ Supervisor.fault_latched (supervisor r) = false /\
  Validation.state (Supervisor.report (supervisor r)) = BZM_VALIDATION_HOLDING /\ pause_requested r = false /\
  bzm_runtime_health_status_is_bad (health r) = false /\
  (now_ms t (stop_or_no_pools t (r, (v, hw))).2).1 < lease_deadline_ms (supervisor r) /\ brought_up k 7 hw.
Proof using Hdev.
  intros Hw%reachable_gated Hd.
  assert (dispatch_enabled r = true /\ pause_requested r = false /\
    (now_ms t (stop_or_no_pools t (r, (v, hw))).2).1 < dispatch_deadline_ms r) as (He & Hp & Hn).
  { revert Hd. unfold runtime_dispatch_authorizer. unfold io_bind at 1.
    destruct (brings_stop_or_no_pools r v hw) as (stop & v1 & ->). cbn [fst snd]. unfold io_bind, runtime, io_ret. cbn [fst snd].
    destruct (_ || _ || _) eqn:E; [done|]. destruct (_ =? 0); [done|]. destruct (now_ms t (r, (v1, hw))) as [now w]. cbn.
    intros Hn%Z.ltb_lt. prop_bool. done. }
  destruct (gated_open _ Hw He) as (Ho & Hf & Hst & Hl & Hh & Hb). cbn in *. rewrite Hl in Hn. done.
Qed.



(** C4: The safe-off of the board, from any state and whatever the world answers: it closes the
    gate, resets the driver, disarms the lease, issues every one of the six commands that
    switch off even when earlier ones fail, waits at most 61 looks for the discharge, reads the
    bridge, clears a retained fault only if the rail was seen off and the outputs safe, and
    reports GOOD exactly when all commands were acknowledged, the last look saw the
    output discharged and the last status was a valid one of safe outputs. *)
Theorem board_safe_off_exact r v hw :
  exists res r' v' e, runtime_force_safe_off k t (r, (v, hw)) = (res, (r', (v', hw ++ e))) /\
    safe_off_trace k (is_good res) e /\ shut_down r r'.
Proof using Hdev. apply (safe_off_spec k b Hdev). Qed.

End invariant.

(** ** A simulated board *)

Module Demo.
(** What the bridge drives, and whether the regulator is on. *)
Record sim := mk_sim { sim_five : bool; sim_reset : bool; sim_leased : bool; sim_rail : bool; sim_stop : bool }.
#[export] Instance sim_eta : Eta sim :=
  fun s => mk_sim (sim_five s) (sim_reset s) (sim_leased s) (sim_rail s) (sim_stop s).

Definition status (s : sim) : bzm_bridge_safety_status_t :=
  {| valid := true; Bridge.schema_version := BZM_BRIDGE_SAFETY_STATUS_SCHEMA_VERSION;
     Bridge.stage := BZM_BRIDGE_SAFETY_STAGE_TRIP_LATCH;
     Bridge.state := if sim_leased s then BZM_BRIDGE_SAFETY_STATE_CONTROLLED else BZM_BRIDGE_SAFETY_STATE_SAFE_OFF;
     fault := BZM_BRIDGE_SAFETY_FAULT_NONE;
     runtime_verdict := if sim_leased s then BZM_BRIDGE_SAFETY_RUNTIME_GOOD_CONTROLLED
                        else BZM_BRIDGE_SAFETY_RUNTIME_GOOD_SAFE_OFF;
     production_verdict := BZM_BRIDGE_SAFETY_PRODUCTION_GOOD; capabilities := required_capabilities;
     evidence := Z.lor (if negb (sim_five s) && sim_reset s then BZM_BRIDGE_SAFETY_EVIDENCE_OUTPUTS_SAFE else 0)
       (Z.lor (if sim_leased s then BZM_BRIDGE_SAFETY_EVIDENCE_LEASE_VALID else 0)
         (Z.lor BZM_BRIDGE_SAFETY_EVIDENCE_TRIP_CLEAR BZM_BRIDGE_SAFETY_EVIDENCE_FAULT_CLEAR));
     lease_remaining_ms := if sim_leased s then 900 else 0; five_volt_enabled := sim_five s;
     asic_reset_asserted := sim_reset s; fan_full := true; fan_percent := 100; trip_input_asserted := false |}.

Definition regulator (s : sim) : TPS546_StatusSnapshot :=
  {| snap_status_word := 0; snap_operation := if sim_rail s then OPERATION_ON else 0;
     read_vout := if sim_rail s then BZM_TPS546_FIXED_VOUT_V else f32_of_Z 0; read_vin := f32_of_Z 12;
     read_iout := f32_of_Z 10; read_temp1 := 50; snap_vout_command := BZM_TPS546_FIXED_VOUT_V;
     vout_command_matches_active_config := true |}.

Definition does (f : sim -> sim) : io sim esp_err_t := fun s => (ESP_OK, f s).
Definition answers (f : sim -> sim) : io sim (esp_err_t * bzm_bridge_safety_status_t) :=
  fun s => ((ESP_OK, status (f s)), f s).
Definition counters : bzm_serial_parser_stats_t := mk_parser_stats 10 0 0 0 0 0 0 0 0 0 0 0 [].
Definition steps (f : sim -> sim) : io sim ((bzm_bringup_outcome_t * bzm_bringup_report_t) * bool) :=
  fun s => (((BZM_BRINGUP_GOOD, mk_bringup_report BZM_BRINGUP_GOOD BZM_BRINGUP_REASON_NONE 0 0 0 0 0 0), false), f s).

Definition regulator_services : vcore_services sim :=
  {| gpio_set_asic_enable := fun on => does (fun s => s <| sim_rail := on |>);
     gpio_get_pgood := fun s => (sim_rail s, s); TPS546_set_vout := fun _ => does id;
     TPS546_snapshot_status := fun s => ((ESP_OK, regulator s), s); TPS546_check_status := does id;
     DS4432U_set_voltage := fun _ => does id; vcore_set_5v := fun on => does (fun s => s <| sim_five := on |>);
     vcore_get_asic_trip := io_ret (ESP_OK, false); vcore_delay_ms := fun _ => io_ret tt; power_fault := io_ret false;
     set_hardware_fault := io_ret tt |}.

Definition services : board_services sim :=
  {| esp_timer_get_time := io_ret 1000; board_delay_ms := fun _ => io_ret tt; stop_requested := fun s => (sim_stop s, s);
     pools_unavailable := io_ret false; nvs_asic_frequency := io_ret BZM_FREQUENCY_POWER_ON_MHZ; nvs_asic_voltage := io_ret 2800;
     call_get_info := io_ret (ESP_OK, Some (mk_info 1 1 0 []));
     call_get_rx_stats := io_ret (ESP_OK, mk_rx_stats true 1 0 0);
     call_get_safety_status := answers id; call_arm_safety := answers (fun s => s <| sim_leased := true |>);
     call_safety_heartbeat := answers id; call_clear_safety_fault := answers id;
     call_disarm_safety := answers (fun s => s <| sim_leased := false; sim_five := false; sim_reset := true |>);
     call_set_asic_reset := fun high => does (fun s => s <| sim_reset := negb high |>);
     call_set_5v_enabled := fun on => does (fun s => s <| sim_five := on |>);
     call_get_fan_rpm := io_ret (ESP_OK, Some 4000); call_bridge_is_initialized := io_ret true;
     Thermal_set_fan_percent := fun _ => does id;
     vcore_device := mk_device_config true true false false false 1; vcore := regulator_services;
     TPS546_verify_active_config := does id; staged_hold_reset := io_ret tt; staged_set_dispatch_authorizer := io_ret tt;
     staged_set_operation_authorizer := io_ret tt; staged_initialize := steps id;
     staged_chain4 := steps (fun s => s <| sim_reset := false |>); staged_sensors := fun _ _ => steps id;
     staged_clocks := fun _ _ => steps id; staged_balanced_ramp := fun _ => steps id; staged_running := fun _ => steps id;
     staged_frequency_domains_step_live := fun _ _ => io_ret (BZM_BRINGUP_GOOD, false);
     staged_get_state := io_ret None; staged_poll := fun _ => io_ret tt;
     staged_get_sensor_parser_baseline := io_ret (Some counters); staged_get_parser_baseline := io_ret (Some counters);
     staged_get_running_parser_baseline := io_ret (Some counters); get_parser_stats := io_ret (Some counters);
     get_telemetry_snapshot := io_ret (Some (Telemetry.Demo.store 900 0x82));
     running_stats_snapshot := io_ret (Some zero_stats); work_replacement_snapshot := io_ret (Some (0, 0, false));
     driver_state_init := io_ret true; runtime_alloc := io_ret true; create_io_task := io_ret true; io_turns := io_ret 2%nat |}.

Definition options : board_config_t :=
  mk_board_config 4 8 8 600 30000 64 3 16 4 1000 100 2000 2 (-20) 100 100 500 50 50 3 3.

Abbreviation sim_world := ((bzm_runtime_state_t * (sim * list board_event)) * list validation_event)%type.

Definition boot : sim_world := ((zero_runtime <| allocated := false |>, (mk_sim false true false false false, [])), []).
Definition initialised : sim_world := Eval vm_compute in board_apply options services BoardInit boot.
Definition mining : sim_world := Eval vm_compute in board_apply options services BoardStart initialised.

Lemma boot_reachable : board_reachable options services boot.
Proof. exists boot. split; [apply board_off_init_intro|apply rtc_refl]. Qed.

Lemma board_apply_reachable op w : board_reachable options services w -> board_reachable options services (board_apply options services op w).
Proof. intros (w0 & H0 & Hr). exists w0. split; [done|]. eapply rtc_r; [exact Hr|constructor]. Qed.

Lemma board_mining_reachable : board_reachable options services mining.
Proof.
  replace mining with (board_apply options services BoardStart (board_apply options services BoardInit boot)) by (by vm_compute).
  apply board_apply_reachable, board_apply_reachable, boot_reachable.
Qed.

(** The simulated board reaches mining; the log shows 5 V after the reset. *)
Lemma board_dispatch_brought_up_witness :
  (runtime_dispatch_authorizer (traced_services services) mining.1).1 = true /\ brought_up options 7 mining.1.2.2.
Proof.
  split; [by vm_compute|].
  apply (board_dispatch_brought_up options services eq_refl mining.1.1 mining.1.2.1 mining.1.2.2 mining.2);
    [exact board_mining_reachable|by vm_compute].
Defined.



(** On the running board the safe-off is GOOD. *)
Lemma board_safe_off_exact_witness :
  exists res r' v' e,
    runtime_force_safe_off options (traced_services services) mining.1 = (res, (r', (v', mining.1.2.2 ++ e))) /\
    is_good res = true /\ safe_off_trace options true e.
Proof.
  destruct (board_safe_off_exact options services eq_refl mining.1.1 mining.1.2.1 mining.1.2.2) as (res & r' & v' & e & E & He & _).
  assert (is_good (runtime_force_safe_off options (traced_services services) mining.1).1 = true) as Hg by (by vm_compute).
  exists res, r', v', e. split; [exact E|].
  change (is_good (runtime_force_safe_off options (traced_services services) (mining.1.1, (mining.1.2.1, mining.1.2.2))).1 = true) in Hg.
  rewrite E in Hg. cbn in Hg. rewrite Hg in He. by split.
Defined.
End Demo.
