(* ===== verification/BoardMaintenance.v ===== *)
(** * The board that is handed over

    Only a start switches anything on or lets the board mine: every other operation of
    [BoardPower], and its monitor task, is confined to events that switch nothing on, and
    to the flags that it finds.  Maintenance is granted only on hardware that is
    powered down: after a verified safe-off or, where the bridge cannot be reached, with the
    regulator acknowledged off and its output seen discharged. *)

From S2P Require Import Prelude Trace Float32 Serial Work BalancedRamp PowerPolicy Frequency Power Vcore Topology Validation Supervisor Bridge LeaseGuard Telemetry Transport RuntimeHealth RunningEvidence Bringup BoardStages BoardEvidence BoardPower BoardGate BoardSafety.
Open Scope string_scope.
Open Scope list_scope.
Open Scope Z_scope.
Open Scope io_scope.

(** ** Confinement *)

Section confined.
Context {V : Type} (k : board_config_t) (b : board_services V).
Context (Hdev : bonanza_device (vcore_device b) = true).

Abbreviation t := (traced_services b).
Abbreviation HB := (bzm_runtime_state_t * (V * list board_event))%type.
Abbreviation world := (HB * list validation_event)%type.

(** [free]: the operation may bring the board up. *)
Context (free : Prop).

Definition may (ev : board_event) : Prop := free \/ idle ev.

Definition mines (r : bzm_runtime_state_t) : Prop := owner (supervisor r) = BZM_SUPERVISOR_OWNER_MINING.

(** What an operation makes of the state [r0] and the hardware [hw0] that it finds. *)
Record confined (r0 : bzm_runtime_state_t) (hw0 : list board_event) (w : world) : Prop := mk_confined {
  confined_allocated : allocated w.1.1 = allocated r0;
  confined_active : active w.1.1 = active r0;
  confined_mining : mines w.1.1 -> mines r0 \/ free;
  confined_events : exists e, w.1.2.2 = hw0 ++ e /\ Forall may e;
}.

Context (r0 : bzm_runtime_state_t) (hw0 : list board_event).
Abbreviation C := (confined r0 hw0).

Lemma idle_may e : Forall idle e -> Forall may e.
Proof. intros H. eapply Forall_impl; [exact H|]. intros ev Hev. by right. Qed.

Lemma free_may e : free -> Forall may e.
Proof. intros H. apply Forall_true. by left. Qed.

(** Any part that adds such events and spares the flags and the owner. *)
Lemma confined_step r r' v v' hw e log log' :
  allocated r' = allocated r -> active r' = active r -> (mines r' -> mines r \/ free) -> Forall may e ->
  C ((r, (v, hw)), log) -> C ((r', (v', hw ++ e)), log').
Proof.
  intros Ha Hb Hm He [Ca Cb Cm (e0 & Ce & He0)]. cbn in *. split; cbn; [congruence|congruence| |].
  - intros [H|H]%Hm; auto.
  - exists (e0 ++ e). split; [by rewrite Ce, app_assoc|by apply Forall_app].
Qed.

#[export] Instance confined_quiet : Quiet C.
Proof. split. intros * He. apply confined_step; auto. by apply idle_may, calm_idle. Qed.

Lemma confined_set f :
  (forall r, allocated (f r) = allocated r) -> (forall r, active (f r) = active r) -> (forall r, mines (f r) -> mines r) ->
  keeps C (set f).
Proof.
  intros Ha Hb Hm [[r [v hw]] log] H. cbn. rewrite <- (app_nil_r hw). eapply confined_step; [..|exact H]; auto.
Qed.

Lemma confined_modify f :
  (forall r, allocated (f r) = allocated r) -> (forall r, active (f r) = active r) -> (forall r, mines (f r) -> mines r) ->
  keeps C (board (modify f)).
Proof. apply confined_set. Qed.

Lemma confined_calmly {A} (m : io HB A) : calmly m -> keeps C (board m).
Proof.
  intros Hm [[r [v hw]] log] H. unfold board, lifted. destruct (Hm r v hw) as (a & r' & v' & e & -> & [Fa Fs Fb _ _ _] & He). cbn.
  eapply confined_step; [..|exact H]; [done|done|unfold mines; rewrite Fs; auto|by apply idle_may, calm_idle].
Qed.

(** A call of the hardware that is confined itself. *)
Lemma confined_brings {A} (m : io HB A) :
  (forall r, brings r m (fun _ r' e => framed r r' /\ Forall may e)) -> keeps C (board m).
Proof.
  intros Hm [[r [v hw]] log] H. unfold board, lifted. destruct (Hm r v hw) as (a & r' & v' & e & -> & [Fa Fs Fb _ _ _] & He). cbn.
  eapply confined_step; [..|exact H]; [done|done|unfold mines; rewrite Fs; auto|done].
Qed.

(** *** The stages *)

Lemma confined_off : keeps C (board_off k t).
Proof using Hdev.
  intros [[r [v hw]] log] H. unfold board_off, traced_off.
  destruct (safe_off_spec k b Hdev r v hw) as (res & r' & v' & e & -> & Ht & []). cbn.
  eapply confined_step; [..|exact H]; [done|done|unfold mines; rewrite shut_supervisor; auto|].
  by apply idle_may, (safe_off_idle k (is_good res)).
Qed.

Lemma confined_run stage : 0 <= stage -> stage = BZM_STAGE_OFF_SAFE \/ free -> keeps C (board_run k t stage).
Proof using Hdev.
  intros Hs Hfree [[r [v hw]] log] H. unfold board_run, traced_run. destruct (decide (stage = BZM_STAGE_OFF_SAFE)) as [->|Hn].
  - destruct (run_safe_off_spec k b Hdev r v hw) as (res & r' & v' & e & -> & Ht & []). cbn.
    eapply confined_step; [..|exact H]; [done|done|unfold mines; rewrite shut_supervisor; auto|].
    by apply idle_may, (safe_off_idle k (is_good res)).
  - destruct Hfree as [|Hfree]; [done|]. unfold BZM_STAGE_OFF_SAFE in *.
    destruct (run_stage_spec k b Hdev stage r ltac:(lia) v hw) as (res & r' & v' & e & -> & [[Fa Fs Fb _ _ _] _ _]). cbn.
    eapply confined_step; [..|exact H]; [done|done|unfold mines; rewrite Fs; auto|by apply free_may].
Qed.

Abbreviation ops := (validation_ops (board_run k t) (board_off k t)).

Lemma confined_force rep : keeps C (force_safe_off ops rep).
Proof using Hdev.
  unfold force_safe_off, safe_off_result, validation_ops. apply keeps_bind.
  - apply keeps_bind; [apply confined_off|]. intros res. apply keeps_ret.
  - intros res. destruct (negb _); apply keeps_ret.
Qed.

Lemma confined_loop todo rep :
  Forall (fun stage => 0 <= stage /\ (stage = BZM_STAGE_OFF_SAFE \/ free)) todo ->
  keeps C (stage_loop (board_run k t) ops todo rep).
Proof using Hdev.
  intros H. revert rep. induction H as [|stage todo [Hs Hf] _ IH]; intros rep; cbn [stage_loop]; [apply keeps_ret|].
  apply keeps_bind; [by apply confined_run|]. intros res. destruct (negb _); [|apply IH].
  apply keeps_bind; [apply confined_force|]. intros ?. apply keeps_ret.
Qed.

Lemma confined_execute p :
  requested_stage p = BZM_STAGE_OFF_SAFE \/ free -> keeps C (bzm_validation_execute (Some p) ops).
Proof using Hdev.
  intros Hp. unfold bzm_validation_execute, validation_ops at 1. cbn [run_stage]. destruct (negb _).
  { apply keeps_bind; [apply confined_force|]. intros ?. apply keeps_ret. }
  cbn zeta. apply keeps_bind; [apply confined_loop|].
  - apply Forall_forall. intros stage Hin. rewrite list_elem_of_In in *. apply list_elem_of_In, elem_of_seqZ in Hin.
    destruct Hp as [Hp|Hp]; [|split; [lia|by right]]. rewrite Hp in Hin. unfold BZM_STAGE_OFF_SAFE in *. split; [lia|left; lia].
  - intros [complete rep']. destruct (negb complete); [apply keeps_ret|]. destruct (_ && _); [apply keeps_ret|apply confined_force].
Qed.

(** *** The supervisor *)

(** A step of the supervisor is confined, and does not begin to mine. *)
Definition confines (s : bzm_supervisor_t) (m : io world (bool * bzm_supervisor_t)) : Prop :=
  hoare C m (fun res w => C w /\ (owner res.2 = BZM_SUPERVISOR_OWNER_MINING -> owner s = BZM_SUPERVISOR_OWNER_MINING \/ free)).

Lemma confines_ret s (ok : bool) s' :
  (owner s' = BZM_SUPERVISOR_OWNER_MINING -> owner s = BZM_SUPERVISOR_OWNER_MINING \/ free) -> confines s (io_ret (ok, s')).
Proof. intros H. by apply hoare_ret. Qed.

Lemma confines_same s (ok : bool) s' : owner s' = owner s -> confines s (io_ret (ok, s')).
Proof. intros H. apply confines_ret. rewrite H. by left. Qed.

Lemma confines_bind s m (f : bool * bzm_supervisor_t -> io world (bool * bzm_supervisor_t)) :
  confines s m -> (forall res, confines res.2 (f res)) -> confines s (io_bind m f).
Proof.
  intros Hm Hf. eapply hoare_bind; [exact Hm|]. intros res w [Hw Ho]. destruct (Hf res w Hw) as [Hw' Ho'].
  split; [done|]. intros [H|H]%Ho'; auto.
Qed.

Lemma stop_confines s reason preempt : confines s (stop_internal (board_off k t) s reason preempt).
Proof using Hdev.
  unfold stop_internal. apply hoare_if; intros _; [by apply confines_same|].
  eapply hoare_bind; [apply confined_off|]. intros o. cbn zeta. apply hoare_if; intros _; apply confines_ret; cbn;
    rewrite ?latch_first_owner; done.
Qed.

Lemma request_failed_owner s : owner (request_failed s) = BZM_SUPERVISOR_OWNER_NONE.
Proof. unfold request_failed. destruct (_ && _); cbn; by case_decide; rewrite ?latch_first_owner. Qed.

Lemma request_completed_owner s target lease now :
  owner (request_completed s target lease now) = BZM_SUPERVISOR_OWNER_MINING -> target = BZM_STAGE_RUNNING.
Proof.
  unfold request_completed. case_decide; [|by destruct (Supervisor.fault_latched _)].
  destruct (Z.eqb_spec target BZM_STAGE_RUNNING); [done|]. by destruct (Supervisor.fault_latched _).
Qed.

Lemma execute_confines s target arm hold lease now :
  target = BZM_STAGE_OFF_SAFE \/ free -> confines s (request_execute (board_run k t) (board_off k t) s target arm hold lease now).
Proof using Hdev.
  intros Ht. unfold request_execute. cbn zeta. eapply hoare_bind; [by apply confined_execute|].
  intros [completed rep]. apply hoare_if; intros _; apply confines_ret; cbn [snd].
  - by rewrite request_failed_owner.
  - intros ->%request_completed_owner. destruct Ht as [Ht|Ht]; [done|by right].
Qed.

Lemma request_confines s target arm hold lease now :
  target = BZM_STAGE_OFF_SAFE \/ free ->
  confines s (bzm_supervisor_request_validation (board_run k t) (board_off k t) s target arm hold lease now).
Proof using Hdev.
  intros Ht. unfold bzm_supervisor_request_validation, bzm_supervisor_stop.
  do 2 (apply hoare_if; intros _; [by apply confines_same|]).
  do 2 (apply hoare_if; intros _; [cbn zeta; eapply confines_bind; [apply (stop_confines (block_report s target _))|];
    intros res; by apply confines_same|]).
  apply hoare_if; intros _; [|by apply execute_confines].
  eapply confines_bind; [apply stop_confines|]. intros [ok s']. apply hoare_if; intros _; [by apply confines_same|].
  by apply execute_confines.
Qed.

(** A request goes no further than the safe-off unless it may. *)
Definition confined_op (op : supervisor_op) : Prop :=
  match op with RequestValidation target _ _ _ _ => target = BZM_STAGE_OFF_SAFE \/ free | _ => True end.

Lemma apply_op_confines op s : confined_op op -> confines s (apply_op (board_run k t) (board_off k t) op s).
Proof using Hdev.
  intros Hop. destruct op; cbn [apply_op confined_op] in *.
  - by apply request_confines.
  - apply stop_confines.
  - unfold bzm_supervisor_tick. apply hoare_if; intros _; [by apply confines_same|].
    apply hoare_if; intros _; [apply stop_confines|by apply confines_same].
  - unfold bzm_supervisor_heartbeat. guard_goal; by apply confines_same.
  - unfold bzm_supervisor_latch_fault. apply hoare_if; intros _; [by apply confines_same|]. cbn zeta.
    eapply hoare_bind; [apply stop_confines|]. intros [ok s'] w [Hw Ho]. cbn in Ho |- *. split; [done|].
    destruct ok; cbn; intros [H|H]%Ho; auto; left; by destruct (Supervisor.fault_latched s).
  - destruct (bzm_supervisor_clear_fault s) as [ok s'] eqn:E. apply confines_same.
    pose proof (clear_fault_owner s) as H. by rewrite E in H.
  - unfold bzm_supervisor_acquire_maintenance. apply hoare_if; intros Hg; [by apply confines_same|].
    apply confines_bind; [case_decide; [apply request_confines; by left|apply stop_confines]|]. intros [safe s'].
    apply hoare_if; intros _; [by apply confines_same|].
    destruct (if Supervisor.fault_latched s' then _ else _) as [cleared s2] eqn:E.
    assert (Supervisor.owner s2 = Supervisor.owner s') as H2.
    { destruct (Supervisor.fault_latched s'); [|by injection E as _ <-].
      pose proof (clear_fault_owner s') as H. by rewrite E in H. }
    apply hoare_if; intros _; [by apply confines_same|]. apply confines_ret. cbn. intros ->. by prop_bool.
  - unfold bzm_supervisor_acquire_bridge_recovery. guard_goal; [by apply confines_same|by apply confines_ret].
  - unfold bzm_supervisor_release_maintenance. apply hoare_if; intros _; [by apply confines_same|]. cbn zeta.
    apply confines_bind; [apply stop_confines|]. intros [ok s']. by apply confines_ret.
  - unfold bzm_supervisor_prepare_restart. apply hoare_if; intros _; [by apply confines_same|].
    apply confines_bind; [apply stop_confines|]. intros [ok s']. apply hoare_if; intros _; [by apply confines_same|].
    by apply confines_ret.
Qed.

Lemma supervise_confined op : confined_op op -> keeps C (supervise (apply_op (board_run k t) (board_off k t) op)).
Proof using Hdev.
  intros Hop [[r [v hw]] log] H. rewrite supervise_eq. destruct (apply_op_confines op (supervisor r) Hop _ H) as [Hw Ho].
  destruct (apply_op _ _ op (supervisor r) _) as [[a s] [[r1 x1] log1]]. cbn in Hw, Ho.
  destruct H as [_ _ Hm _]. destruct Hw as [Ha Hb _ He]. cbn in *. split; [done|done| |done].
  intros [H|H]%Ho; auto.
Qed.

Lemma supervise_heartbeat_confined lease now :
  keeps C (supervise (V := V * list board_event) (fun s => io_ret (bzm_supervisor_heartbeat s (lease s) now))).
Proof.
  intros [[r [v hw]] log] H. unfold supervise, get, set, board, lifted, runtime, modify, io_bind, io_ret. cbn.
  assert (owner (bzm_supervisor_heartbeat (supervisor r) (lease (supervisor r)) now).2 = owner (supervisor r)) as Ho
    by (unfold bzm_supervisor_heartbeat; by guard_goal).
  destruct (bzm_supervisor_heartbeat _ _ _) as [ok s]. cbn in *. rewrite <- (app_nil_r hw).
  eapply confined_step; [..|exact H]; [done|done|unfold mines; cbn; rewrite Ho; by left|constructor].
Qed.

(** *** The operations *)

Ltac confine_step :=
  lazymatch goal with
  | |- keeps _ (io_ret _) => apply keeps_ret
  | |- keeps _ (io_bind _ _) => apply keeps_bind; [|intros ?]
  | |- keeps _ get => apply keeps_get
  | |- keeps _ (set _) => apply confined_set; intros ?; try done
  | |- keeps _ (clock _) => apply keeps_clock, _
  | |- keeps _ (and_then _ _) => apply keeps_and_then
  | |- keeps _ (mining_now _ _) => apply keeps_mining_now, _
  | |- keeps _ (supervise (fun s => bzm_supervisor_stop _ s ?d)) => apply (supervise_confined (Supervisor.Stop d)); done
  | |- keeps _ (supervise (fun s => io_ret (bzm_supervisor_clear_fault s))) => apply (supervise_confined Supervisor.ClearFault); done
  | |- keeps _ (supervise (fun s => bzm_supervisor_latch_fault _ s ?c ?d)) => apply (supervise_confined (LatchFault c d)); done
  | |- keeps _ (supervise (fun s => bzm_supervisor_acquire_maintenance _ _ s ?o ?now)) =>
      apply (supervise_confined (AcquireMaintenance o now)); done
  | |- keeps _ (supervise (fun s => io_ret (bzm_supervisor_acquire_bridge_recovery s))) =>
      apply (supervise_confined AcquireBridgeRecovery); done
  | |- keeps _ (supervise (fun s => bzm_supervisor_release_maintenance _ s ?o)) =>
      apply (supervise_confined (ReleaseMaintenance o)); done
  | |- keeps _ (supervise (fun s => bzm_supervisor_prepare_restart _ s)) => apply (supervise_confined PrepareRestart); done
  | |- keeps _ (request_validation _ _ ?target ?arm ?hold ?lease ?now) =>
      apply (supervise_confined (RequestValidation target arm hold lease now)); cbn [confined_op]
  | |- keeps _ (board (io_bind _ _)) => apply keeps_board_bind; [|intros ?]
  | |- keeps _ (board (io_ret _)) => apply keeps_board_ret
  | |- keeps _ (board runtime) => apply keeps_runtime
  | |- keeps _ (board (modify _)) => apply confined_modify; intros ?; try done
  | |- keeps _ (board (device (lifted _))) => apply keeps_quiet, _
  | |- keeps _ (board (device (traced _ _))) => apply keeps_call; [apply _|intros ?; try done]
  | |- keeps _ (board (now_ms _)) => apply keeps_now, _
  | |- keeps _ (board (sample_runtime_health_locked _ _)) => apply confined_calmly, calmly_sample_runtime_health
  | |- keeps _ (board (rail_snapshot _)) => apply confined_calmly, calmly_rail_snapshot
  | |- keeps _ (board (wait_discharged _ _ _)) => apply confined_calmly, calmly_wait_discharged
  | |- keeps _ (if ?c then _ else _) => destruct c
  | |- keeps _ (let '(_, _) := ?x in _) => destruct x
  | |- keeps _ (match ?x with _ => _ end) => destruct x
  | |- keeps _ (board (if ?c then _ else _)) => destruct c
  | |- keeps _ (board (let '(_, _) := ?x in _)) => destruct x
  | |- keeps _ (board (match ?x with _ => _ end)) => destruct x
  | |- keeps _ (board (let _ := _ in _)) => cbn zeta
  | |- keeps _ (let _ := _ in _) => cbn zeta
  end.
Ltac confine := repeat confine_step.

Lemma sync_confined : keeps C (board (sync_dispatch_locked t)).
Proof. unfold sync_dispatch_locked, close_dispatch_locked. confine. Qed.

Lemma close_confined : keeps C (board close_dispatch_locked).
Proof. unfold close_dispatch_locked. confine. Qed.

Lemma latch_confined c d : keeps C (latch_fault k t c d).
Proof using Hdev. unfold latch_fault. confine. Qed.

Lemma fail_closed_confined c d : keeps C (fail_closed k t c d).
Proof using Hdev. unfold fail_closed. confine; [apply close_confined|apply latch_confined|apply sync_confined]. Qed.

Lemma evidence_confined now : keeps C (board (evaluate_running_evidence_locked k t now)).
Proof. unfold evaluate_running_evidence_locked. traced_calls. confine. Qed.

Lemma io_step_confined : keeps C (board (board_io_step k t)).
Proof. unfold board_io_step, close_dispatch_locked. traced_calls. confine. all: by destruct (negb _). Qed.

Lemma others_confined : keeps C (others k t).
Proof.
  unfold others. traced_calls. confine. match goal with n : nat |- _ => induction n as [|n IH] end; cbn [repeat_io]; confine; [|done].
  apply io_step_confined.
Qed.

Lemma locked_confined {A} (m : io world A) : keeps C m -> keeps C (locked k t m).
Proof. intros H. unfold locked. apply keeps_bind; [done|]. intros a. confine. apply others_confined. Qed.

Lemma runtime_voltage_confined v :
  keeps C (board (acknowledged (VCORE_bzm_set_runtime_voltage (vcore_device t) (vcore t) v))).
Proof using Hdev.
  apply confined_brings. intros r. unfold acknowledged. apply brings_bind, brings_device. traced_calls.
  eapply emits_mono; [by apply emits_runtime_voltage|]. intros err e [He _]. apply brings_ret. rewrite app_nil_r.
  split; [done|]. by apply idle_may, powerless_idle.
Qed.

Lemma retarget_spares f v r :
  allocated (retarget f v r) = allocated r /\ active (retarget f v r) = active r /\ supervisor (retarget f v r) = supervisor r.
Proof. unfold retarget. by destruct (_ || _). Qed.

Lemma snapshot_confined target : keeps C (tuning_snapshot t target).
Proof.
  unfold tuning_snapshot. cbn zeta. confine.
  4-6: by case_decide.
  all: destruct (resolve_tuning _ _) as [[f v]|]; [|done]; destruct (retarget_spares f v r) as (? & ? & E); unfold mines; by rewrite ?E.
Qed.

Lemma set_active_confined on g : keeps C (tuning_set_active on g).
Proof. unfold tuning_set_active. confine; by destruct (_ =? _). Qed.

Lemma apply_voltage_confined v g : keeps C (frequency_apply_voltage k t v g).
Proof using Hdev.
  unfold frequency_apply_voltage, tuning_authorized. traced_calls. confine; [apply runtime_voltage_confined|apply fail_closed_confined].
Qed.

Lemma apply_domains_confined clocks jump g : keeps C (frequency_apply_domains k t clocks jump g).
Proof using Hdev.
  unfold frequency_apply_domains, frequency_commit_locked, frequency_transition_authorized_locked, tuning_authorized.
  apply keeps_bind.
  { apply confined_brings. intros r. eapply brings_mono; [apply brings_staged_frequency|]. intros o r' e (Hf & _ & ->).
    split; [done|]. apply idle_may. by repeat constructor. }
  intros o. traced_calls. confine; first [apply others_confined | apply fail_closed_confined].
Qed.

Lemma apply_confined target : keeps C (BZM_board_apply k t target).
Proof using Hdev.
  unfold BZM_board_apply, await_replacement, tune, tune_clocks, step_voltage, step_clocks, tuning_failed, tuning_rail_command. traced_calls.
  repeat lazymatch goal with
  | |- keeps _ (locked _ _ _) => apply locked_confined
  | |- keeps _ (tuning_snapshot _ _) => apply snapshot_confined
  | |- keeps _ (tuning_set_active _ _) => apply set_active_confined
  | |- keeps _ (frequency_apply_voltage _ _ _ _) => apply apply_voltage_confined
  | |- keeps _ (frequency_apply_domains _ _ _ _ _) => apply apply_domains_confined
  | _ => confine_step
  end.
Qed.

Lemma off_safe_confined : keeps C (request_off_safe k t).
Proof using Hdev. unfold request_off_safe. confine. by left. Qed.

Lemma init_safe_off_confined : keeps C (init_safe_off k t).
Proof using Hdev.
  unfold init_safe_off, refresh_bridge_evidence_locked, when. traced_calls. confine;
    first [apply off_safe_confined | apply others_confined | apply close_confined | apply latch_confined].
Qed.

Lemma stop_safely_confined : keeps C (stop_safely k t).
Proof using Hdev. unfold stop_safely. confine. apply off_safe_confined. Qed.

Lemma board_stop_confined : keeps C (BZM_board_stop k t).
Proof using Hdev.
  unfold BZM_board_stop. confine; [apply close_confined|apply stop_safely_confined|apply sync_confined].
Qed.

Lemma closed_gate_confined m : keeps C m -> keeps C (with_closed_gate t m).
Proof. intros H. unfold with_closed_gate. confine; [apply close_confined|done|apply sync_confined]. Qed.

Lemma regulator_off_confined : keeps C (regulator_off k t).
Proof using Hdev.
  unfold regulator_off. confine. apply confined_brings. intros r. unfold acknowledged. apply brings_bind, brings_device. traced_calls.
  eapply emits_mono; [by apply emits_regulator_off|]. intros err e (a1 & a2 & -> & _). apply brings_ret. rewrite app_nil_r.
  split; [done|]. by apply idle_may; repeat constructor.
Qed.

Lemma maintenance_confined o acquire : keeps C (BZM_board_maintenance k t o acquire).
Proof using Hdev.
  unfold BZM_board_maintenance, board_prepare_restart, board_release_maintenance, board_acquire_maintenance,
    board_acquire_bridge_recovery, request_pause. cbn zeta. traced_calls.
  repeat lazymatch goal with
  | |- keeps _ (locked _ _ _) => apply locked_confined
  | |- keeps _ (with_closed_gate _ _) => apply closed_gate_confined
  | |- keeps _ (regulator_off _ _) => apply regulator_off_confined
  | _ => confine_step
  end.
Qed.

Lemma sample_confined : keeps C (BZM_board_sample k t).
Proof.
  unfold BZM_board_sample, watch_mining, set_health.
  repeat lazymatch goal with
  | |- keeps _ (supervise _) => apply supervise_heartbeat_confined
  | |- keeps _ (board (evaluate_running_evidence_locked _ _ _)) => apply evidence_confined
  | |- keeps _ (board (sync_dispatch_locked _)) => apply sync_confined
  | _ => confine_step
  end.
Qed.

Lemma start_confined : free -> keeps C (BZM_board_start k t).
Proof using Hdev.
  intros Hfree. unfold BZM_board_start, board_start, start_from_off, recover_fault, start_production_mining_locked, start_failed, first_health.
  traced_calls. cbn zeta.
  repeat lazymatch goal with
  | |- keeps _ (locked _ _ _) => apply locked_confined
  | |- keeps _ (request_off_safe _ _) => apply off_safe_confined
  | |- keeps _ (latch_fault _ _ _ _) => apply latch_confined
  | |- keeps _ (board close_dispatch_locked) => apply close_confined
  | |- keeps _ (board (evaluate_running_evidence_locked _ _ _)) => apply evidence_confined
  | |- keeps _ (board (sync_dispatch_locked _)) => apply sync_confined
  | _ => confine_step
  end.
  by right.
Qed.
End confined.

(** ** Hardware that is powered down *)

Section powered_down.
Context {V : Type} (k : board_config_t) (b : board_services V).
Context (Hdev : bonanza_device (vcore_device b) = true).

Abbreviation t := (traced_services b).
Abbreviation HB := (bzm_runtime_state_t * (V * list board_event))%type.
Abbreviation world := (HB * list validation_event)%type.

(** The regulator was switched off without the bridge, its output seen discharged, and then
    nothing was switched on. *)
Definition recovered_off (hw : list board_event) : Prop :=
  exists before looks rest,
    hw = before ++ [RegulatorEnable false ESP_OK; Vout (f32_of_Z 0) ESP_OK] ++ concat (look_events <$> looks) ++ rest /\
    looks_discharged k looks = true /\ Forall idle rest.

Definition powered_down (hw : list board_event) : Prop := ended_off k hw \/ recovered_off hw.

Lemma powered_down_idle hw e : powered_down hw -> Forall idle e -> powered_down (hw ++ e).
Proof.
  intros [H|(before & looks & rest & -> & Hl & Hr)] He; [left; by apply ended_off_idle|right].
  exists before, looks, (rest ++ e). split_and!; [by rewrite <- !app_assoc|done|by apply Forall_app].
Qed.

(** A board that is powered down and does not mine. *)
Definition off (w : world) : Prop := powered_down w.1.2.2 /\ ~ mines w.1.1.

Lemma confined_start free (w : world) : confined free w.1.1 w.1.2.2 w.
Proof. split; [done|done|by left|]. exists []. by rewrite app_nil_r. Qed.

(** What is confined leaves it so. *)
Lemma confined_keeps_off {A} (m : io world A) :
  (forall r0 hw0, keeps (confined False r0 hw0) m) -> keeps off m.
Proof.
  intros Hm w [Hd Hn]. destruct (Hm w.1.1 w.1.2.2 w (confined_start _ w)) as [_ _ Hmi (e & Ee & He)].
  split; [|by intros [?|?]%Hmi]. rewrite Ee. apply powered_down_idle; [done|]. eapply Forall_impl; [exact He|]. by intros ev [|].
Qed.

Lemma verified_off (w : world) : gated k w -> off_verified w.1.1 = true -> off w.
Proof.
  intros Hg Hv. destruct (gated_verified k w Hg Hv) as [He _]. split; [by left|]. unfold mines. intros Hm.
  destruct Hg as [[[[Hs Hp _] _] _] _]. unfold off_verified in Hv. destruct (board_initialized w.1.1).
  - pose proof (verified_passive _ _ (Hs eq_refl) Hv) as H. by rewrite Hm in H.
  - destruct (Hp eq_refl) as [Hi _]. unfold bzm_supervisor_safe_off_verified in Hv. by rewrite Hi in Hv.
Qed.

(** *** Maintenance by the supervisor *)

Definition verifies {W} (m : io W (bool * bzm_supervisor_t)) : Prop :=
  yields m (fun res => res.1 = true -> bzm_supervisor_safe_off_verified res.2 = true).

Lemma verified_owner s o : bzm_supervisor_safe_off_verified (s <| owner := o |>) = bzm_supervisor_safe_off_verified s.
Proof. done. Qed.

Lemma cleared_verified s ok s' :
  bzm_supervisor_safe_off_verified s = true -> (if Supervisor.fault_latched s then bzm_supervisor_clear_fault s else (true, s)) = (ok, s') ->
  ok = true -> bzm_supervisor_safe_off_verified s' = true.
Proof.
  intros Hv E Hok. destruct (Supervisor.fault_latched s); [|by injection E as _ <-].
  unfold bzm_supervisor_clear_fault in E. destruct (_ || _ || _ || _); injection E as <- <-; [done|].
  unfold bzm_supervisor_safe_off_verified in *. cbn. prop_bool. rewrite !andb_true_iff. split_and!; try done.
  by apply negb_true_iff.
Qed.

Lemma acquire_verifies {W} (run : Z -> io W bzm_stage_result_t) off s o now :
  verifies (bzm_supervisor_acquire_maintenance run off s o now).
Proof.
  intros w. unfold bzm_supervisor_acquire_maintenance. destruct (_ || _ || _); [done|]. unfold io_bind.
  destruct (_ w) as [[safe s'] w']. destruct (_ || _) eqn:E; [done|]. prop_bool.
  destruct (if Supervisor.fault_latched s' then _ else _) as [cleared s2] eqn:Ec.
  destruct cleared; [|done]. cbn. intros _. rewrite verified_owner. by eapply cleared_verified.
Qed.

Lemma restart_verifies {W} (off : io W bzm_stage_result_t) s : verifies (bzm_supervisor_prepare_restart off s).
Proof.
  intros w. unfold bzm_supervisor_prepare_restart. destruct (_ || _); [done|]. unfold io_bind.
  destruct (bzm_supervisor_stop _ _ _ w) as [[ok s'] w']. destruct (_ || _) eqn:E; [done|]. prop_bool. cbn. intros _. by rewrite verified_owner.
Qed.

Lemma supervise_verifies op :
  (forall s, verifies (apply_op (board_run k t) (board_off k t) op s)) ->
  hoare (shut k) (supervise (apply_op (board_run k t) (board_off k t) op))
    (fun ok w => shut k w /\ (ok = true -> off_verified w.1.1 = true)).
Proof using Hdev.
  intros Hv w Hw. split; [by apply (supervise_keeps k b Hdev op)|]. destruct w as [[r x] log].
  rewrite supervise_eq. specialize (Hv (supervisor r) ((r, x), log)).
  destruct (apply_op _ _ op (supervisor r) _) as [[a s] [[r1 x1] log1]]. exact Hv.
Qed.

(** Behind a closed gate. *)
Lemma closed_gate_off (m : io world bool) :
  hoare (shut k) m (fun ok w => shut k w /\ (ok = true -> off_verified w.1.1 = true)) ->
  hoare (gated k) (with_closed_gate t m) (fun ok w => gated k w /\ (ok = true -> off w)).
Proof.
  intros Hm w Hw. split; [apply (closed_gate_keeps k b); [|done]; intros v Hv; by apply Hm|].
  revert w Hw. change (hoare (gated k) (with_closed_gate t m) (fun ok w => ok = true -> off w)).
  unfold with_closed_gate. eapply hoare_bind; [apply shut_mono, close_shuts|]. intros ?.
  eapply hoare_bind; [exact Hm|]. intros ok. eapply hoare_bind with (R := fun _ w => ok = true -> off w).
  - intros w [Hw Hv] ->. destruct (sync_verified k b w) as [Hg Ho]; [by auto|]. by apply verified_off.
  - intros ?. by apply hoare_ret.
Qed.

Lemma acquire_off o :
  hoare (gated k) (board_acquire_maintenance k t o) (fun ok w => gated k w /\ (ok = true -> off w)).
Proof using Hdev.
  unfold board_acquire_maintenance. eapply hoare_bind; [apply keeps_get|]. intros r.
  apply hoare_if; intros _; [by apply hoare_ret|]. eapply hoare_bind; [apply request_pause_keeps|]. intros ?.
  apply closed_gate_off. unfold and_then. apply hoare_if; intros _; [|by apply hoare_ret].
  eapply hoare_bind; [apply (keeps_clock b (shut k))|]. intros now.
  apply (supervise_verifies (AcquireMaintenance o now)). intros s. apply acquire_verifies.
Qed.

(** Once allocated it is active. *)
Definition set_up (r : bzm_runtime_state_t) : Prop := allocated r = true -> active r = true.

Lemma restart_off :
  hoare (with_state (gated k) set_up) (board_prepare_restart k t) (fun ok w => ok = true -> off w).
Proof using Hdev.
  unfold board_prepare_restart. apply hoare_get. intros r. apply hoare_if; intros El; [by apply hoare_ret|].
  apply negb_false_iff in El. eapply hoare_bind with (R := fun _ => with_state (gated k) (fun _ => active r = true)).
  { intros w [[Hw Ha] Hr]. rewrite <- Hr in Ha. split; [by apply request_pause_keeps|by apply Ha]. }
  intros ?. apply hoare_if; intros Ea; [intros w [_ H]; by rewrite H in Ea|].
  eapply hoare_mono with (P := gated k); [apply closed_gate_off|by intros w []|by intros ok w []].
  unfold and_then. apply hoare_if; intros _; [|by apply hoare_ret].
  apply (supervise_verifies PrepareRestart). intros s. apply restart_verifies.
Qed.

(** *** Recovery without the bridge *)

Lemma regulator_off_recovers :
  hoare (fun w : world => ~ mines w.1.1) (regulator_off k t) (fun ok w => ~ mines w.1.1 /\ (ok = true -> recovered_off w.1.2.2)).
Proof using Hdev.
  unfold regulator_off. eapply hoare_bind with (R := fun _ w => ~ mines w.1.1); [by intros [[r x] log] H|]. intros ?.
  eapply hoare_bind with (R := fun ok w => ~ mines w.1.1 /\
    (ok = true -> exists before, w.1.2.2 = before ++ [RegulatorEnable false ESP_OK; Vout (f32_of_Z 0) ESP_OK])).
  { intros [[r [v hw]] log] Hw. unfold board, lifted, acknowledged, device, io_bind, io_ret. traced_calls.
    destruct (emits_regulator_off (vcore_device b) (vcore b) Hdev v hw) as (err & v' & e & -> & a1 & a2 & -> & Herr).
    cbn in *. rewrite Herr. split; [done|]. intros [->%is_ok_spec ->%is_ok_spec]%andb_true_iff. by exists hw. }
  intros [|]; [|by apply hoare_ret; intros w []]. intros [[r [v hw]] log] [Hn Hb]. cbn -[f32_of_Z] in Hn, Hb.
  destruct (Hb eq_refl) as [before ->]. unfold board, lifted. cbn -[wait_discharged f32_of_Z].
  destruct (brings_wait_discharged k b discharge_samples r v (before ++ [RegulatorEnable false ESP_OK; Vout (f32_of_Z 0) ESP_OK]))
    as (safe & r' & v2 & e & -> & -> & looks & -> & _ & ->). cbn.
  split; [done|]. intros Hl. exists before, looks, []. by rewrite app_nil_r, <- app_assoc.
Qed.

Lemma sync_keeps_off : keeps off (board (sync_dispatch_locked t)).
Proof. apply confined_keeps_off. intros. apply sync_confined. Qed.

Lemma recovery_off :
  hoare (fun _ : world => True) (board_acquire_bridge_recovery k t) (fun ok w => ok = true -> off w).
Proof using Hdev.
  unfold board_acquire_bridge_recovery. apply hoare_get. intros r0. apply hoare_if; intros _; [by apply hoare_ret|].
  set (same := fun w : world => supervisor w.1.1 = supervisor r0).
  eapply hoare_bind with (R := fun _ => same); [intros [[r x] log] [_ E]; unfold same; by rewrite E|]. intros ?. unfold with_closed_gate.
  eapply hoare_bind with (R := fun _ => same); [by intros [[r x] log] H|]. intros ?.
  eapply hoare_bind with (R := fun ok w => ok = true -> off w).
  2: { intros ok. eapply hoare_bind with (R := fun _ w => ok = true -> off w); [|intros ?; by apply hoare_ret].
       intros w Hw Hok. apply sync_keeps_off. auto. }
  eapply hoare_bind with (R := fun blank w => blank = true -> ~ mines w.1.1).
  { unfold and_then. destruct (_ && _) eqn:E; [|by apply hoare_ret]. traced_calls. prop_bool.
    eapply hoare_bind with (R := fun _ => same); [by intros [[r [v hw]] log] Hs; unfold board, lifted, device; destruct (call_bridge_is_initialized b v)|].
    intros up. apply hoare_ret. intros w Hw _. unfold mines. rewrite Hw. congruence. }
  intros [|]; cbn [and_then andb].
  - eapply hoare_bind; [eapply hoare_mono; [apply regulator_off_recovers|intros w Hw; by apply Hw|intros ? ? H; exact H]|].
    intros [|]; cbn [and_then]; [|by apply hoare_ret]. intros w [Hn Hr] _.
    apply (confined_keeps_off (supervise (fun s => io_ret (bzm_supervisor_acquire_bridge_recovery s)))).
      + intros r hw. by apply (supervise_confined k b Hdev False r hw AcquireBridgeRecovery).
    + split; [right; by apply Hr|done].
  - eapply hoare_bind with (R := fun _ _ => True); [done|]. intros ?. by apply hoare_ret.
Qed.

(** Maintenance is granted on a board that is off. *)
Lemma maintenance_off o :
  hoare (with_state (gated k) set_up) (BZM_board_maintenance k t o true) (fun ok w => ok = true -> off w).
Proof using Hdev.
  unfold BZM_board_maintenance. cbn zeta. apply hoare_if; intros _; [apply restart_off|]. cbn [negb].
  eapply hoare_mono with (P := gated k) (Q := fun ok w => ok = true -> off w); [|by intros w []|done].
  eapply hoare_bind with (R := fun ok w => ok = true -> off w).
  - unfold locked. eapply hoare_bind; [apply acquire_off|]. intros ok.
    eapply hoare_bind with (R := fun _ w => ok = true -> off w); [|intros ?; by apply hoare_ret].
    intros w [Hw Ho] Hok. apply (confined_keeps_off (others k t)); [intros; apply others_confined|auto].
  - intros acquired. apply hoare_if; intros Ea; [apply hoare_ret; by auto|]. unfold and_then.
    apply hoare_if; intros _; [|by apply hoare_ret]. eapply hoare_mono; [apply recovery_off|done|done].
Qed.

Lemma stop_unallocated :
  hoare (fun w : world => allocated w.1.1 = false) (BZM_board_stop k t) (fun ok _ => ok = false).
Proof.
  unfold BZM_board_stop. apply hoare_get. intros r. apply hoare_if; intros El; [by apply hoare_ret|].
  intros w [Ha Hr]. rewrite <- Hr in Ha. by rewrite Ha in El.
Qed.

Lemma stop_off :
  hoare (with_state (gated k) set_up) (BZM_board_stop k t) (fun ok w => ok = true -> off w).
Proof using Hdev.
  intros w [Hw Ha] Hok. destruct (allocated w.1.1) eqn:E.
  - destruct (stop_verifies k b Hdev w Hw (Ha E) Hok) as [Hg Hv]. by apply verified_off.
  - pose proof (stop_unallocated w E). congruence.
Qed.

(** A board that does not mine dispatches nothing. *)
Lemma off_refuses w : gated k w -> off w -> (runtime_dispatch_authorizer t w.1).1 = false.
Proof.
  intros Hg [_ Hn]. assert (dispatch_enabled w.1.1 = false) as Hd.
  { destruct (dispatch_enabled w.1.1) eqn:E; [|done]. by destruct (gated_open k w Hg E). }
  destruct w as [[r [v hw]] log]. cbn in *. unfold runtime_dispatch_authorizer. unfold io_bind at 1.
  destruct (brings_stop_or_no_pools b r v hw) as (stop & v1 & ->). unfold io_bind, runtime, io_ret. cbn. by rewrite Hd, orb_true_r.
Qed.
End powered_down.
