(* ===== verification/BoardTable.v ===== *)
(** * The operation table of the board

    Models src/main/power/board_power.c for a Bonanza board: the operations that the power
    policy is given, saving a target, the overheat settings and the initialisation.  The
    settings are operations of the world; the operations of the other boards are not
    modelled. *)

From S2P Require Import Prelude Trace Float32 Serial Work BalancedRamp PowerPolicy Frequency Power Vcore Topology Validation Supervisor Bridge LeaseGuard Telemetry Transport RuntimeHealth RunningEvidence Bringup BoardStages BoardPower.
Open Scope Z_scope.
Open Scope io_scope.

(** What the file calls beside the board: the settings that it writes, whether writing or
    publishing, and the configuration of the regulator. *)
Record settings_services (V : Type) := mk_settings_services {
  nvs_set_asic_voltage : Z -> io V unit;
  nvs_set_asic_frequency : f32 -> io V unit;
  nvs_set_auto_fan_speed : bool -> io V unit;
  nvs_set_manual_fan_speed : Z -> io V unit;
  nvs_set_overheat_mode : bool -> io V unit;
  publish_overheat_mode : bool -> io V unit;
  TPS546_init_vout_min : f32;
}.
Arguments mk_settings_services {V}.
Arguments nvs_set_asic_voltage {V}.
Arguments nvs_set_asic_frequency {V}.
Arguments nvs_set_auto_fan_speed {V}.
Arguments nvs_set_manual_fan_speed {V}.
Arguments nvs_set_overheat_mode {V}.
Arguments publish_overheat_mode {V}.
Arguments TPS546_init_vout_min {V}.

(** [ceilf], as the integer that it rounds to. *)
Definition ceilf_Z (x : f32) : Z :=
  match x with
  | S754_finite s m e => let v := if s then Z.neg m else Z.pos m in if 0 <=? e then Z.shiftl v e else - Z.shiftr (- v) (- e)
  | _ => 0
  end.

Section table.
Context {V : Type} (k : board_config_t) (b : board_services V) (settings : settings_services V).

Abbreviation B := (bzm_runtime_state_t * V)%type.
Abbreviation board_world := (B * list validation_event)%type.

Definition setting {A} (m : io V A) : io board_world A := board (device m).

Definition set_overheat (enabled : bool) : io board_world unit :=
  let! _ :=
    if enabled then
      let! _ := setting (nvs_set_auto_fan_speed settings false) in
      setting (nvs_set_manual_fan_speed settings 100)
    else io_ret tt in
  let! _ := setting (nvs_set_overheat_mode settings enabled) in
  setting (publish_overheat_mode settings enabled).

(** The target that is written: the frequency that the clocks can have. *)
Definition saved_target (t : power_target_t) : option power_target_t :=
  if bonanza_bridge (vcore_device b) then
    match bzm_frequency_resolve_target (frequency_mhz t), bzm_power_resolve_user_voltage (voltage_mv t) with
    | Some resolved, Some _ => Some (t <| frequency_mhz := actual_mhz resolved |>)
    | _, _ => None
    end
  else Some t.

(** Read back after it was written. *)
Definition save_target (t : power_target_t) : io board_world bool :=
  match saved_target t with
  | None => io_ret false
  | Some t =>
      let! _ := setting (nvs_set_asic_voltage settings (voltage_mv t)) in
      let! _ := setting (nvs_set_asic_frequency settings (frequency_mhz t)) in
      let! voltage := setting (nvs_asic_voltage b) in
      and_then (voltage =? voltage_mv t)
        (let! frequency := setting (nvs_asic_frequency b) in
         io_ret (flt (fabs (fsub frequency (frequency_mhz t))) (f32_lit 1 1000)))
  end.

Definition cancelled : io board_world bool := board (stop_or_no_pools b).

(** The integer is one that [int16_t] holds. *)
Definition VCORE_get_voltage_min_mv : Z :=
  if TPS546 (vcore_device b) then
    let domains := if voltage_domains (vcore_device b) =? 0 then 1 else voltage_domains (vcore_device b) in
    ceilf_Z (fmul (fdiv (TPS546_init_vout_min settings) (f32_of_Z domains)) (f32_of_Z 1000))
  else 0.

(** The table of a Bonanza board. *)
Definition bonanza_operations : power_operations_t board_world :=
  {| op_start := BZM_board_start k b;
     op_stop := BZM_board_stop k b;
     op_apply := BZM_board_apply k b;
     op_maintenance := BZM_board_maintenance k b;
     op_overheat := set_overheat;
     op_save_target := save_target;
     op_cancelled := Some cancelled;
     minimum_voltage_mv := if 0 <? VCORE_get_voltage_min_mv then u16 VCORE_get_voltage_min_mv else 1000;
     minimum_frequency_mhz := BZM_FREQUENCY_TARGET_MIN_MHZ |}.

Definition BoardPower_init : io board_world esp_err_t := BZM_board_init k b.

Definition BoardPower_sample : io board_world power_sample_t := BZM_board_sample k b.
End table.
