(* ===== verification/PowerTask.v ===== *)
(** * The task that owns the power

    Models src/main/tasks/power_management_task.c: the calls by which other tasks ask for
    a pause, a resume or maintenance, the task that serves them one at a time and then steps
    the policy of [PowerPolicy], and the epochs that revoke work.  A call and the task share the
    request: a heap of requests with their reference counts, the queue, the completion and
    the state that both try to change.  Where the parties meet, at the epochs, the requests and
    the maintenance flag, every atomic access is a step of its own; a policy operation is one,
    and so are the flags that a turn of the task reports; between any two steps of one party the
    others may take theirs.
    The board lock is held around each operation of the board and is part of its step; the
    notifications that only shorten a wait, the texts and the display values are left out. *)

From stdpp Require Import gmap.
From S2P Require Import Prelude Trace Float32 PowerPolicy.
Open Scope Z_scope.
Open Scope io_scope.

(** ** Data *)

Inductive power_request_kind_t :=
| POWER_REQUEST_PAUSE | POWER_REQUEST_RESUME | POWER_REQUEST_ACQUIRE | POWER_REQUEST_RELEASE.
Inductive request_state_t := REQUEST_WAITING | REQUEST_COMPLETE | REQUEST_CANCELLED.
#[export] Instance power_request_kind_t_eq_dec : EqDecision power_request_kind_t.
Proof. solve_decision. Defined.
#[export] Instance request_state_t_eq_dec : EqDecision request_state_t.
Proof. solve_decision. Defined.

(** [completion] is the binary semaphore. *)
Record power_request_t := mk_request {
  kind : power_request_kind_t;
  request_owner : power_owner_t;
  epoch : Z;
  completion : bool;
  references : Z;
  request_state : request_state_t;
  success : bool;
}.
#[export] Instance power_request_t_eta : Eta power_request_t :=
  fun r => mk_request (kind r) (request_owner r) (epoch r) (completion r) (references r) (request_state r) (success r).

Definition QUEUE_LENGTH : nat := 4.

(** Where a call of [POWER_MANAGEMENT_request] is. *)
Inductive call_pc :=
| Asking (kd : power_request_kind_t) (o : power_owner_t)
| Enqueueing
| Waiting
| TimedOut
| Withdrawn
| Reading (completed : bool)
| Leaving (result : bool).

(** Where the task is: in [process_request] for a request, or in its loop. *)
Inductive task_pc :=
| Draining
| Received (id : nat)
| Decided (id : nat) (cancelled : bool)
| Accepting (id : nat)
| Resuming (id : nat)
| Acquiring (id : nat)
| Released (id : nat) (ok : bool)
| Processed (id : nat) (ok : bool)
| Stored (id : nat) (ok : bool)
| RollingBack (id : nat) (ok : bool)
| RollingPause (id : nat)
| Publishing (id : nat)
| Signalling (id : nat)
| Releasing (id : nat)
| Checking
| Sampling
| Stepping (s : power_sample_t)
| Reporting
| Turning.

(** What has happened; nothing reads it. *)
Inductive task_event :=
| Revoked
| Asked (id : nat) (kd : power_request_kind_t) (o : power_owner_t)
| Accepted (id : nat)
| Granted (id : nat) (o : power_owner_t)
| Freed (o : power_owner_t)
| Answered (id : nat) (kd : power_request_kind_t) (o : power_owner_t) (result : bool).

#[export] Instance task_event_eq_dec : EqDecision task_event.
Proof. solve_decision. Defined.

(** The static variables of the file, the requests by their addresses and the calls by
    the address of theirs; [turn_target] is the task's local target. *)
Record power_task_t := mk_power_task {
  requests : gmap nat power_request_t;
  queue : list nat;
  calls : gmap nat call_pc;
  next_call : nat;
  policy : power_policy_t;
  pc : task_pc;
  turn_target : power_target_t;
  task_ready : bool;
  task_cooling : bool;
  maintenance : bool;
  boot_complete : bool;
  boot_success : bool;
  stop_epoch : Z;
  accepted_epoch : Z;
  history : list task_event;
}.
#[export] Instance power_task_t_eta : Eta power_task_t :=
  fun s => mk_power_task (requests s) (queue s) (calls s) (next_call s) (policy s) (pc s) (turn_target s) (task_ready s)
    (task_cooling s) (maintenance s) (boot_complete s) (boot_success s) (stop_epoch s) (accepted_epoch s) (history s).

(** What the task reads of the global state and of the clock. *)
Record task_inputs := mk_inputs {
  in_target : power_target_t;
  in_pools_unavailable : bool;
  in_hardware_fault : bool;
  in_overheat_mode : bool;
  in_self_test_finished : bool;
  in_now_ms : Z;
}.

Definition log_event (e : task_event) (s : power_task_t) : power_task_t := s <| history := history s ++ [e] |>.

(** ** Epochs *)

Definition POWER_MANAGEMENT_stop_requested (s : power_task_t) : bool := negb (stop_epoch s =? accepted_epoch s).

Definition revoke_work (s : power_task_t) : power_task_t :=
  log_event Revoked (s <| stop_epoch := u32 (stop_epoch s + 1) |>).

Definition POWER_MANAGEMENT_in_maintenance (s : power_task_t) : bool := maintenance s.

(** With the lock taken or not in time. *)
Definition POWER_MANAGEMENT_board_io_begin (taken : bool) (s : power_task_t) : bool := taken && negb (maintenance s).

Definition POWER_MANAGEMENT_set_ready (s : power_task_t) : power_task_t := s <| task_ready := true |>.

(** One look of the wait; [None]: it goes on. *)
Definition POWER_MANAGEMENT_wait_started (expired : bool) (s : power_task_t) : option bool * power_task_t :=
  if boot_complete s then (Some (boot_success s), s)
  else if expired then (Some false, revoke_work s) else (None, s).

(** ** Requests *)

Definition set_request (id : nat) (r : power_request_t) (s : power_task_t) : power_task_t :=
  s <| requests := <[id := r]> (requests s) |>.

Definition set_call (id : nat) (c : call_pc) (s : power_task_t) : power_task_t := s <| calls := <[id := c]> (calls s) |>.

(** [None]: the request is freed already. *)
Definition release_request (id : nat) (s : power_task_t) : option power_task_t :=
  r ← requests s !! id;
  Some (if references r =? 1 then s <| requests := delete id (requests s) |>
        else set_request id (r <| references := u32 (references r - 1) |>) s).

Definition new_request (kd : power_request_kind_t) (o : power_owner_t) (s : power_task_t) : power_request_t :=
  mk_request kd o (stop_epoch s) false 2 REQUEST_WAITING false.

(** The end of a call. *)
Definition answer (id : nat) (kd : power_request_kind_t) (o : power_owner_t) (result : bool) (s : power_task_t) : power_task_t :=
  log_event (Answered id kd o result) (s <| calls := delete id (calls s) |>).

(** The entry of a call; a request revokes before it is queued. *)
Definition begin_call (kd : power_request_kind_t) (o : power_owner_t) (s : power_task_t) : power_task_t :=
  let s := match kd with POWER_REQUEST_PAUSE | POWER_REQUEST_ACQUIRE => revoke_work s | _ => s end in
  set_call (next_call s) (Asking kd o) (s <| next_call := S (next_call s) |>).

(** The next atomic step of a call; [chance] is whether memory is found, or the wait ends
    without a completion.  [None]: it cannot, or it would touch a freed request. *)
Definition call_step (chance : bool) (id : nat) (s : power_task_t) : option power_task_t :=
  match calls s !! id with
  | None => None
  | Some (Asking kd o) =>
      Some (if chance
            then log_event (Asked id kd o) (set_call id Enqueueing (set_request id (new_request kd o s) s))
            else answer id kd o false s)
  | Some Enqueueing =>
      r ← requests s !! id;
      if (length (queue s) <? QUEUE_LENGTH)%nat then Some (set_call id Waiting (s <| queue := queue s ++ [id] |>))
      else
        s ← release_request id s;
        s ← release_request id s;
        Some (answer id (kind r) (request_owner r) false s)
  | Some Waiting =>
      r ← requests s !! id;
      if completion r then Some (set_call id (Reading true) (set_request id (r <| completion := false |>) s))
      else if chance then Some (set_call id TimedOut s) else None
  | Some TimedOut =>
      r ← requests s !! id;
      Some (match request_state r with
            | REQUEST_WAITING => set_call id Withdrawn (set_request id (r <| request_state := REQUEST_CANCELLED |>) s)
            | st => set_call id (Reading (bool_decide (st = REQUEST_COMPLETE))) s
            end)
  | Some Withdrawn => Some (set_call id (Reading false) (revoke_work s))
  | Some (Reading completed) =>
      r ← requests s !! id;
      Some (set_call id (Leaving (completed && success r)) s)
  | Some (Leaving result) =>
      r ← requests s !! id;
      s ← release_request id s;
      Some (answer id (kind r) (request_owner r) result s)
  end.

(** ** The task *)

Section task.
Context {W : Type} (ops : power_operations_t W) (sample : io W power_sample_t).

(** Whether other tasks may set the fan, beside the board. *)
Abbreviation FW := (bool * W)%type.
Abbreviation world := (FW * list power_event)%type.

Definition beside {A} (m : io W A) : io FW A := fun '(f, w) => let '(a, w) := m w in (a, (f, w)).
Definition fan_revoked {A} (m : io W A) : io FW A := fun '(_, w) => let '(a, w) := m w in (a, (false, w)).
Definition set_fan_allowed (f : bool) : io world unit := fun '((_, w), log) => (tt, ((f, w), log)).
Definition get_fan_allowed : io world bool := fun w => (w.1.1, w).

(** [board_start], [board_stop] and [board_maintenance] take the fan back first. *)
Definition task_ops : power_operations_t FW :=
  {| op_start := fan_revoked (op_start ops);
     op_stop := fan_revoked (op_stop ops);
     op_apply := fun target => beside (op_apply ops target);
     op_maintenance := fun o acquire => fan_revoked (op_maintenance ops o acquire);
     op_overheat := fun enabled => beside (op_overheat ops enabled);
     op_save_target := fun target => beside (op_save_target ops target);
     op_cancelled := beside <$> op_cancelled ops;
     minimum_voltage_mv := minimum_voltage_mv ops;
     minimum_frequency_mhz := minimum_frequency_mhz ops |}.

Abbreviation policy_ops := (traced_ops task_ops).

Definition POWER_MANAGEMENT_fan_control_allowed (s : power_task_t) : io world bool :=
  let! allowed := get_fan_allowed in io_ret (allowed && negb (POWER_MANAGEMENT_stop_requested s)).

Definition go (p : task_pc) (s : power_task_t) : power_task_t := s <| pc := p |>.

(** An operation of the policy, and where the task goes with its result. *)
Definition act (m : power_policy_t -> io world (bool * power_policy_t)) (k : bool -> power_task_t -> power_task_t)
    (s : power_task_t) : io world (option power_task_t) :=
  let! (ok, p) := m (policy s) in io_ret (Some (k ok (s <| policy := p |>))).

Definition maintain (o : power_owner_t) (acquire : bool) (p : power_policy_t) : io world (bool * power_policy_t) :=
  power_policy_maintenance policy_ops p o acquire.

(** The owner's release, recorded. *)
Definition log_release (o : power_owner_t) (s : power_task_t) : power_task_t :=
  if bool_decide (owner (policy s) = o) && owned (policy s) then log_event (Freed o) s else s.

Definition with_request (id : nat) (s : power_task_t) (f : power_request_t -> io world (option power_task_t))
    : io world (option power_task_t) :=
  match requests s !! id with None => io_ret None | Some r => f r end.

(** Which way [process_request] goes. *)
Definition decide_request (id : nat) (cancelled : bool) (r : power_request_t) (s : power_task_t) : io world (option power_task_t) :=
  match kind r with
  | POWER_REQUEST_PAUSE => act (power_policy_pause policy_ops) (fun ok => go (Processed id ok)) s
  | POWER_REQUEST_RESUME =>
      io_ret (Some (go (if negb cancelled && (epoch r =? stop_epoch s) then Accepting id else Processed id false) s))
  | POWER_REQUEST_ACQUIRE =>
      io_ret (Some (if cancelled then go (Processed id false) s else go (Acquiring id) (s <| maintenance := true |>)))
  | POWER_REQUEST_RELEASE =>
      act (maintain (request_owner r) false) (fun ok => go (Released id ok)) (log_release (request_owner r) s)
  end.

(** The compare-and-exchange that completes a request. *)
Definition complete_request (id : nat) (ok : bool) (r : power_request_t) (s : power_task_t) : power_task_t :=
  match request_state r with
  | REQUEST_WAITING =>
      let s := go (Publishing id) (set_request id (r <| request_state := REQUEST_COMPLETE |>) s) in
      if ok && bool_decide (kind r = POWER_REQUEST_ACQUIRE) then log_event (Granted id (request_owner r)) s else s
  | _ => go (RollingBack id ok) s
  end.

Definition turn_head (i : task_inputs) (s : power_task_t) : power_task_t :=
  go Draining (s <| turn_target := in_target i;
                    policy := (policy s) <| ready := task_ready s; target := in_target i;
                                            pool_unavailable := in_pools_unavailable i |> |>).

Definition report (s : power_task_t) : io world (option power_task_t) :=
  let p := policy s in
  let! _ := set_fan_allowed (running p && negb (fault p) && negb (cooling p)) in
  let s := s <| task_cooling := cooling p |> in
  io_ret (Some (go Turning
    (if ready p && (running p || fault p || paused p || cooling p)
     then s <| boot_success := running p; boot_complete := true |> else s))).

Definition no_sample : power_sample_t :=
  mk_power_sample POWER_HEALTH_OK false (f32_of_Z 0) false false (f32_of_Z 0).

(** The next atomic step of the task; [None]: it would touch a freed request. *)
Definition task_step (i : task_inputs) (s : power_task_t) : io world (option power_task_t) :=
  match pc s with
  | Draining =>
      io_ret (Some (match queue s with
                    | [] => go Checking s
                    | id :: rest => go (Received id) (s <| queue := rest |>)
                    end))
  | Received id =>
      with_request id s (fun r => io_ret (Some (go (Decided id (bool_decide (request_state r = REQUEST_CANCELLED))) s)))
  | Decided id cancelled => with_request id s (fun r => decide_request id cancelled r s)
  | Accepting id =>
      with_request id s (fun r => io_ret (Some (go (Resuming id) (log_event (Accepted id) (s <| accepted_epoch := epoch r |>)))))
  | Resuming id => act (power_policy_resume policy_ops) (fun ok => go (Processed id ok)) s
  | Acquiring id => with_request id s (fun r => act (maintain (request_owner r) true) (fun ok => go (Processed id ok)) s)
  | Released id ok => io_ret (Some (go (Processed id ok) (if ok then s <| maintenance := false |> else s)))
  | Processed id ok => with_request id s (fun r => io_ret (Some (go (Stored id ok) (set_request id (r <| success := ok |>) s))))
  | Stored id ok => with_request id s (fun r => io_ret (Some (complete_request id ok r s)))
  | RollingBack id ok =>
      with_request id s (fun r =>
        if ok && bool_decide (kind r = POWER_REQUEST_ACQUIRE)
        then act (maintain (request_owner r) false) (fun _ => go (RollingPause id)) (log_release (request_owner r) s)
        else io_ret (Some (go (RollingPause id) s)))
  | RollingPause id =>
      if owned (policy s) then io_ret (Some (go (Publishing id) s))
      else act (power_policy_pause policy_ops) (fun _ => go (Publishing id)) s
  | Publishing id => io_ret (Some (go (Signalling id) (s <| maintenance := owned (policy s) |>)))
  | Signalling id => with_request id s (fun r => io_ret (Some (go (Releasing id) (set_request id (r <| completion := true |>) s))))
  | Releasing id => io_ret (go Draining <$> release_request id s)
  | Checking =>
      if POWER_MANAGEMENT_stop_requested s && negb (paused (policy s)) && negb (owned (policy s))
      then act (power_policy_pause policy_ops) (fun _ => go Sampling) s
      else io_ret (Some (go Sampling s))
  | Sampling =>
      if owned (policy s) then io_ret (Some (go (Stepping no_sample) s))
      else let! sm := lifted (beside sample) in io_ret (Some (go (Stepping sm) s))
  | Stepping sm =>
      let p := if in_self_test_finished i then (policy s) <| paused := true |> else policy s in
      let! p := power_policy_step policy_ops p (in_now_ms i) (turn_target s) sm (in_pools_unavailable i)
                  (in_hardware_fault i) (in_overheat_mode i) in
      io_ret (Some (go Reporting (s <| policy := p |>)))
  | Reporting => report s
  | Turning => io_ret (Some (turn_head i s))
  end.

(** ** The system *)

(** After [power_policy_init], with a fault when the board did not come up. *)
Definition task_init (board_ok : bool) : option power_task_t :=
  p ← power_policy_init task_ops;
  Some (mk_power_task ∅ [] ∅ 0 (p <| fault := negb board_ok |>) Turning zero_target false false false false false 0 0 []).
End task.
