(* ===== verification/PowerRequests.v ===== *)
(** * The requests of the power task

    Proofs about [PowerTask]: the call and the task agree on the request that they share, its
    reference count is what they hold, and each always finds the request that it is about to
    touch.  What a step does to the requests and to the history is its [effect], from which
    [PowerOwner] goes on. *)

From stdpp Require Import gmap.
From S2P Require Import Prelude Trace Float32 PowerPolicy PowerTask.
Open Scope Z_scope.
Open Scope io_scope.

(** ** The system *)

Section system.
Context {W : Type} (ops : power_operations_t W) (sample : io W power_sample_t).
(** The worlds that a board leaves that did or did not come up, and what else changes the world. *)
Context (booted : bool -> W -> Prop) (env : W -> W -> Prop).

Abbreviation world := ((bool * W) * list power_event)%type.

Inductive power_task_init : power_task_t * world -> Prop :=
| power_task_init_intro board_ok s x :
    task_init ops board_ok = Some s -> booted board_ok x -> power_task_init (s, ((false, x), [])).

Inductive power_task_step : power_task_t * world -> power_task_t * world -> Prop :=
| step_begin kd o s w : power_task_step (s, w) (begin_call kd o s, w)
| step_call chance id s s' w : call_step chance id s = Some s' -> power_task_step (s, w) (s', w)
| step_task i s s' w w' : task_step ops sample i s w = (Some s', w') -> power_task_step (s, w) (s', w')
| step_ready s w : power_task_step (s, w) (POWER_MANAGEMENT_set_ready s, w)
| step_wait expired s w : power_task_step (s, w) ((POWER_MANAGEMENT_wait_started expired s).2, w)
| step_env s f x x' log : env x x' -> power_task_step (s, ((f, x), log)) (s, ((f, x'), log)).

Definition power_task_reachable : power_task_t * world -> Prop := reachable power_task_init power_task_step.
End system.

(** ** Who holds a request *)

(** The request that the task works on. *)
Definition handles (p : task_pc) : option nat :=
  match p with
  | Received id | Decided id _ | Accepting id | Resuming id | Acquiring id | Released id _ | Processed id _ | Stored id _
  | RollingBack id _ | RollingPause id | Publishing id | Signalling id | Releasing id => Some id
  | _ => None
  end.

(** Where the task's reference to a request is. *)
Inductive position := Nowhere | Queued | At (p : task_pc).

Definition position_of (s : power_task_t) (id : nat) : position :=
  if decide (handles (pc s) = Some id) then At (pc s) else if decide (id ∈ queue s) then Queued else Nowhere.

(** The references that a call and the task have. *)
Definition call_weight (c : option call_pc) : Z :=
  match c with None | Some (Asking _ _) => 0 | Some Enqueueing => 2 | _ => 1 end.
Definition task_weight (p : position) : Z := match p with Nowhere => 0 | _ => 1 end.

Definition before_completion (p : position) : bool :=
  match p with
  | Queued | At (Received _ | Decided _ _ | Accepting _ | Resuming _ | Acquiring _ | Released _ _ | Processed _ _ | Stored _ _) => true
  | _ => false
  end.
Definition rolling (p : position) : bool := match p with At (RollingBack _ _ | RollingPause _) => true | _ => false end.
Definition before_signal (p : position) : bool :=
  before_completion p || rolling p || match p with At (Publishing _ | Signalling _) => true | _ => false end.
Definition stored (p : position) : option bool := match p with At (Stored _ ok) => Some ok | _ => None end.

Definition call_agrees (c : option call_pc) (r : power_request_t) : Prop :=
  match c with
  | None => request_state r <> REQUEST_WAITING
  | Some (Asking _ _) => False
  | Some Enqueueing => request_state r = REQUEST_WAITING /\ completion r = false
  | Some (Waiting | TimedOut) => request_state r <> REQUEST_CANCELLED
  | Some Withdrawn => request_state r = REQUEST_CANCELLED
  | Some (Reading b) => request_state r <> REQUEST_WAITING /\ b = bool_decide (request_state r = REQUEST_COMPLETE)
  | Some (Leaving res) =>
      request_state r <> REQUEST_WAITING /\ res = bool_decide (request_state r = REQUEST_COMPLETE) && success r
  end.

Record task_agrees (p : position) (r : power_request_t) : Prop := mk_task_agrees {
  agrees_before : before_completion p = true -> request_state r <> REQUEST_COMPLETE;
  agrees_silent : before_signal p = true -> completion r = false;
  agrees_rolling : rolling p = true -> request_state r = REQUEST_CANCELLED;
  agrees_after : p <> Nowhere -> before_completion p = false -> request_state r <> REQUEST_WAITING;
  agrees_stored : forall ok, stored p = Some ok -> success r = ok;
}.

(** An allocated request, its call and the task agree. *)
Record protocol (c : option call_pc) (r : power_request_t) (p : position) : Prop := mk_protocol {
  protocol_references : references r = call_weight c + task_weight p;
  protocol_held : 0 < references r;
  protocol_call : call_agrees c r;
  protocol_task : task_agrees p r;
  protocol_enqueueing : c = Some Enqueueing -> p = Nowhere;
  protocol_left : p = Nowhere -> c = Some Enqueueing \/ request_state r <> REQUEST_WAITING;
}.

Definition balanced (c : option call_pc) (r : option power_request_t) (p : position) : Prop :=
  match r with None => call_weight c = 0 /\ p = Nowhere | Some r => protocol c r p end.

Record task_inv (s : power_task_t) : Prop := mk_task_inv {
  inv_ids : forall id, balanced (calls s !! id) (requests s !! id) (position_of s id);
  inv_nodup : NoDup (option_list (handles (pc s)) ++ queue s);
  inv_fresh : forall id, (next_call s <= id)%nat -> calls s !! id = None /\ requests s !! id = None;
}.

(** *** Steps that keep it *)

Lemma handles_queue s id : task_inv s -> handles (pc s) = Some id -> id ∉ queue s.
Proof. intros H E. pose proof (inv_nodup s H) as Hn. rewrite E in Hn. by apply NoDup_cons in Hn as [Hn _]. Qed.

Lemma position_at s id : handles (pc s) = Some id -> position_of s id = At (pc s).
Proof. intros H. unfold position_of. by rewrite decide_True. Qed.

Lemma position_call s id c :
  task_inv s -> calls s !! id = Some c -> (id < next_call s)%nat.
Proof.
  intros H E. destruct (decide (id < next_call s)%nat); [done|].
  destruct (inv_fresh s H id) as [E' _]; [lia|congruence].
Qed.

Lemma at_request s id : task_inv s -> handles (pc s) = Some id -> exists r, requests s !! id = Some r /\ protocol (calls s !! id) r (At (pc s)).
Proof.
  intros H E. pose proof (inv_ids s H id) as Hb. rewrite (position_at s id E) in Hb.
  destruct (requests s !! id) as [r|]; [by exists r|by destruct Hb].
Qed.

(** A step of the call [id]. *)
Lemma inv_call s s' id :
  task_inv s -> (id < next_call s)%nat -> pc s' = pc s -> queue s' = queue s -> next_call s' = next_call s ->
  (forall j, j <> id -> calls s' !! j = calls s !! j /\ requests s' !! j = requests s !! j) ->
  balanced (calls s' !! id) (requests s' !! id) (position_of s id) -> task_inv s'.
Proof.
  intros [Hi Hn Hf] Hid Hp Hq Hnext Hj Hb.
  assert (forall j, position_of s' j = position_of s j) as Hpos by (intros j; unfold position_of; by rewrite Hp, Hq).
  split; [|by rewrite Hp, Hq|].
  - intros j. rewrite Hpos. destruct (decide (j = id)) as [->|Hne]; [done|]. destruct (Hj j Hne) as [-> ->]. apply Hi.
  - rewrite Hnext. intros j Hle. destruct (Hj j) as [-> ->]; [lia|auto].
Qed.

(** A step of the task within its work on [id]. *)
Lemma inv_move s s' id r :
  task_inv s -> handles (pc s) = Some id -> handles (pc s') = Some id -> queue s' = queue s -> calls s' = calls s ->
  next_call s' = next_call s -> (forall j, j <> id -> requests s' !! j = requests s !! j) ->
  requests s' !! id = Some r -> protocol (calls s !! id) r (At (pc s')) -> task_inv s'.
Proof.
  intros H Hp Hp' Hq Hc Hnext Hj Hr Hb. pose proof H as [Hi Hn Hf].
  split; [|by rewrite Hp', Hq; rewrite Hp in Hn|].
  - intros j. rewrite Hc. destruct (decide (j = id)) as [->|Hne].
    + by rewrite Hr, (position_at s' id Hp').
    + rewrite Hj by done. replace (position_of s' j) with (position_of s j); [apply Hi|].
      unfold position_of. rewrite Hp, Hp', Hq. by destruct (decide (Some id = Some j)) as [E|_]; [congruence|].
  - rewrite Hnext, Hc. intros j Hle. destruct (decide (j = id)) as [->|Hne]; [|rewrite Hj by done; auto].
    destruct (Hf id Hle) as [_ E]. destruct (at_request s id H Hp) as (r0 & E' & _). congruence.
Qed.

(** A step of the task outside any request. *)
Lemma inv_loop s s' :
  task_inv s -> handles (pc s) = None -> handles (pc s') = None -> queue s' = queue s -> calls s' = calls s ->
  next_call s' = next_call s -> requests s' = requests s -> task_inv s'.
Proof.
  intros [Hi Hn Hf] Hp Hp' Hq Hc Hnext Hr.
  split; [|by rewrite Hp', Hq; rewrite Hp in Hn|by rewrite Hnext, Hc, Hr]. intros j. rewrite Hc, Hr.
  replace (position_of s' j) with (position_of s j); [apply Hi|]. unfold position_of. by rewrite Hp, Hp', Hq.
Qed.

(** The request without one of its references. *)
Definition dropped (r : power_request_t) : option power_request_t :=
  if references r =? 1 then None else Some (r <| references := references r - 1 |>).

Lemma request_release_spec s id r :
  requests s !! id = Some r -> 0 < references r <= 2 ->
  exists m, release_request id s = Some (s <| requests := m |>) /\ m !! id = dropped r /\
    (forall j, j <> id -> m !! j = requests s !! j).
Proof.
  intros E Hr. unfold release_request, dropped. rewrite E. cbn. destruct (Z.eqb_spec (references r) 1).
  - eexists. split; [reflexivity|]. split; [apply lookup_delete_eq|]. intros j Hj. by apply lookup_delete_ne.
  - eexists. split; [reflexivity|]. rewrite u32_small by lia. split; [apply lookup_insert_eq|].
    intros j Hj. by apply lookup_insert_ne.
Qed.

Lemma protocol_bound c r p : protocol c r p -> 0 < references r <= 2.
Proof.
  intros [Hr Hh _ _ He _]. split; [done|]. rewrite Hr. destruct c as [[]|]; destruct p; cbn; try lia.
  all: by specialize (He eq_refl).
Qed.

(** *** Calls *)

Lemma revoke_inv s : task_inv s -> task_inv (revoke_work s).
Proof. by intros [Hi Hn Hf]. Qed.

Lemma begin_inv kd o s : task_inv s -> task_inv (begin_call kd o s).
Proof.
  intros H. unfold begin_call.
  set (s1 := match kd with POWER_REQUEST_PAUSE | POWER_REQUEST_ACQUIRE => revoke_work s | _ => s end).
  assert (task_inv s1) as [Hi Hn Hf] by (unfold s1; destruct kd; auto using revoke_inv). clearbody s1. clear H s.
  destruct (Hf (next_call s1)) as [Ec Er]; [lia|]. split; [|done|]; cbn [set_call calls requests queue pc next_call set_field].
  - intros j. change (position_of _ j) with (position_of s1 j). cbn. destruct (decide (j = next_call s1)) as [->|Hne].
    + rewrite lookup_insert_eq, Er. specialize (Hi (next_call s1)). rewrite Er in Hi. by destruct Hi.
    + rewrite lookup_insert_ne by done. apply Hi.
  - cbn. intros j Hj. rewrite lookup_insert_ne by lia. apply Hf. lia.
Qed.

Lemma lookup_set_call s id c j : calls (set_call id c s) !! j = if decide (j = id) then Some c else calls s !! j.
Proof. cbn. case_decide as E; [subst; apply lookup_insert_eq|by apply lookup_insert_ne]. Qed.

Ltac ids := cbn; repeat first [rewrite lookup_insert_eq | rewrite lookup_delete_eq | rewrite lookup_insert_ne by done | rewrite lookup_delete_ne by done].

(** The request of a call that has one. *)
Lemma call_request s id c :
  task_inv s -> calls s !! id = Some c -> 0 < call_weight (Some c) ->
  exists r, requests s !! id = Some r /\ protocol (Some c) r (position_of s id).
Proof.
  intros H E Hw. pose proof (inv_ids s H id) as Hb. rewrite E in Hb.
  destruct (requests s !! id) as [r|]; [by exists r|]. destruct Hb. lia.
Qed.

(** A call lets go of its last reference. *)
Lemma leave_balanced c r p :
  protocol c r p -> call_weight c = 1 -> request_state r <> REQUEST_WAITING -> balanced None (dropped r) p.
Proof.
  intros [Hr Hh _ [] _ _] Hc Hs. unfold dropped. rewrite Hc in Hr.
  destruct p; cbn in Hr; rewrite Hr; cbn; [by split|..]; split; cbn; try done; try lia; by auto.
Qed.

(** A request enters the queue. *)
Lemma enqueue_inv s id r :
  task_inv s -> calls s !! id = Some Enqueueing -> requests s !! id = Some r -> protocol (Some Enqueueing) r Nowhere ->
  position_of s id = Nowhere -> task_inv (set_call id Waiting (s <| queue := queue s ++ [id] |>)).
Proof.
  intros H Ec Er [Hr Hh [Hs Hc] _ _ _] Hpos. unfold position_of in Hpos.
  assert (handles (pc s) <> Some id /\ id ∉ queue s) as [Hn Hq] by (by repeat case_decide).
  split.
  - intros j. unfold position_of. cbn. destruct (decide (j = id)) as [->|Hne].
    + rewrite lookup_insert_eq, Er, decide_False by done. rewrite decide_True by (apply elem_of_app; right; by left).
      change (protocol (Some Waiting) r Queued). split; cbn; try done; [congruence|]. split; cbn; try done; congruence.
    + rewrite lookup_insert_ne by done. pose proof (inv_ids s H j) as Hb. unfold position_of in Hb.
      destruct (decide (handles (pc s) = Some j)); [done|].
      destruct (decide (j ∈ queue s ++ [id])) as [Hin|Hin], (decide (j ∈ queue s)) as [Hin'|Hin']; try done; exfalso.
      * apply elem_of_app in Hin as [|Hin]; [done|]. by apply list_elem_of_singleton in Hin.
      * apply Hin, elem_of_app. by left.
  - cbn. rewrite app_assoc. apply NoDup_app. split_and!; [apply (inv_nodup s H)| |apply NoDup_singleton].
    intros j Hj ->%list_elem_of_singleton. apply elem_of_app in Hj as [Hj|Hj]; [|done].
    destruct (handles (pc s)); [|by inversion Hj]. apply list_elem_of_singleton in Hj. congruence.
  - cbn. intros j Hj. pose proof (position_call s id _ H Ec). rewrite lookup_insert_ne by lia. by apply (inv_fresh s H).
Qed.

Lemma call_step_inv chance id s s' : task_inv s -> call_step chance id s = Some s' -> task_inv s'.
Proof.
  intros H. unfold call_step. destruct (calls s !! id) as [c|] eqn:Ec; [|done].
  pose proof (position_call s id c H Ec) as Hid. pose proof (inv_ids s H id) as Hb. rewrite Ec in Hb.
  destruct (decide (call_weight (Some c) = 0)) as [Hw|Hw].
  { destruct c as [kd o| | | | | |]; try done.
    intros [= <-]. destruct chance; apply (inv_call s _ id H); try done; try (by intros j Hj; ids); ids; cbn in Hb.
    - destruct (requests s !! id) as [r|]; [by destruct Hb|]. destruct Hb as [_ ->]. by repeat split; auto.
    - destruct (requests s !! id) as [r|]; [by destruct Hb|done]. }
  destruct (call_request s id c H Ec) as (r & Er & Hp); [destruct c; cbn in *; lia|]. clear Hb.
  pose proof (protocol_bound _ _ _ Hp) as Hbound.
  destruct c as [kd o| | | | |completed|result]; cbn [call_weight] in Hw; try done.
  - rewrite Er. cbn [mbind option_bind]. pose proof (protocol_enqueueing _ _ _ Hp eq_refl) as Hpos.
    destruct (_ <? _)%nat; [intros [= <-]; rewrite Hpos in Hp; by eapply enqueue_inv|].
    rewrite Hpos in Hp. destruct (protocol_references _ _ _ Hp).
    destruct (request_release_spec s id r Er Hbound) as (m & -> & Em & Hm). cbn [mbind option_bind].
    set (r2 := r <| references := 1 |>). replace (dropped r) with (Some r2) in Em
      by (unfold dropped; by rewrite (protocol_references _ _ _ Hp)).
    pose proof (request_release_spec (s <| requests := m |>) id r2) as Hs2. destruct (Hs2 Em) as (m2 & -> & Em2 & Hm2); [done|].
    intros [= <-]. apply (inv_call s _ id H); try done.
    + intros j Hj. ids. split; [done|]. rewrite Hm2 by done. by apply Hm.
    + ids. rewrite Hpos. cbn in Em2. by rewrite Em2.
  - rewrite Er. cbn [mbind option_bind]. destruct Hp as [Hr Hh Ha Ht _ Hl]. destruct (completion r) eqn:Eco.
    + intros [= <-]. apply (inv_call s _ id H); try done; [by intros j Hj; ids|]. ids.
      assert (before_signal (position_of s id) = false) as Hb.
      { destruct (before_signal _) eqn:E; [|done]. apply (agrees_silent _ _ Ht) in E. congruence. }
      assert (request_state r = REQUEST_COMPLETE) as Hst.
      { assert (request_state r <> REQUEST_WAITING); [|cbn in Ha; by destruct (request_state r)].
        assert (position_of s id = Nowhere \/ position_of s id <> Nowhere) as [E|E]
          by (destruct (position_of s id); first [by left|by right]); [by destruct (Hl E)|]. apply (agrees_after _ _ Ht E).
        unfold before_signal in Hb. by destruct (before_completion _). }
      split; cbn; rewrite ?Hst; try done; [|by right]. destruct Ht. split; cbn; auto.
    + destruct chance; [|done]. intros [= <-]. apply (inv_call s _ id H); try done; [by intros j Hj; ids|]. ids. rewrite Er.
      split; try done. intros E. destruct (Hl E); [done|by right].
  - rewrite Er. cbn [mbind option_bind]. destruct Hp as [Hr Hh Ha Ht _ Hl]. cbn in Ha.
    destruct (request_state r) eqn:Est; try done; intros [= <-]; apply (inv_call s _ id H); try done; try (by intros j Hj; ids); ids.
    + split; cbn; try done; [|by right]. destruct Ht. split; cbn; auto; try done.
    + rewrite Er. split; cbn; rewrite ?Est; try done. by right.
  - intros [= <-]. destruct Hp as [Hr Hh Ha Ht _ Hl]. cbn in Ha. apply (inv_call s _ id H); try done; [by intros j Hj; ids|]. ids.
    change (requests (revoke_work s) !! id) with (requests s !! id). rewrite Er.
    split; cbn; rewrite ?Ha; try done. by right.
  - rewrite Er. cbn [mbind option_bind]. intros [= <-]. destruct Hp as [Hr Hh [Hw' ->] Ht _ Hl].
    apply (inv_call s _ id H); try done; [by intros j Hj; ids|]. ids. rewrite Er. split; try done. by right.
  - rewrite Er. cbn [mbind option_bind]. destruct (request_release_spec s id r Er Hbound) as (m & -> & Em & Hm). cbn [mbind option_bind].
    intros [= <-]. apply (inv_call s _ id H); try done; [by intros j Hj; ids; auto|]. ids. rewrite Em.
    apply (leave_balanced _ _ _ Hp); [done|]. by destruct Hp as [_ _ [? _] _ _ _].
Qed.

(** *** The task *)

Section task.
Context {W : Type} (ops : power_operations_t W) (sample : io W power_sample_t).
Abbreviation world := ((bool * W) * list power_event)%type.

Lemma act_spec (m : power_policy_t -> io world (bool * power_policy_t)) k s (w : world) :
  exists ok p w', m (policy s) w = ((ok, p), w') /\ act m k s w = (Some (k ok (s <| policy := p |>)), w').
Proof. unfold act, io_bind. destruct (m (policy s) w) as [[ok p] w']. by exists ok, p, w'. Qed.

(** The step goes on, and keeps the invariant. *)
Definition goes (s : power_task_t) (m : io world (option power_task_t)) : Prop :=
  forall w, exists s' w', m w = (Some s', w') /\ task_inv s'.

Lemma goes_ret s s' : task_inv s' -> goes s (io_ret (Some s')).
Proof. intros H w. by exists s', w. Qed.

Lemma goes_act s m k : (forall ok p, task_inv (k ok (s <| policy := p |>))) -> goes s (act m k s).
Proof. intros H w. destruct (act_spec m k s w) as (ok & p & w' & _ & ->). by eexists _, _. Qed.

Lemma goes_request s id f :
  task_inv s -> handles (pc s) = Some id ->
  (forall r, requests s !! id = Some r -> protocol (calls s !! id) r (At (pc s)) -> goes s (f r)) -> goes s (with_request id s f).
Proof.
  intros H E Hf. destruct (at_request s id H E) as (r & Er & Hp). unfold with_request. rewrite Er. by apply Hf.
Qed.

(** The task goes on with the same request, or a new value of it. *)
Lemma protocol_go c r p p' :
  protocol c r (At p) -> (task_agrees (At p) r -> task_agrees (At p') r) -> protocol c r (At p').
Proof. intros [Hr Hh Hc Ht He _] Hp. split; [done|done|done|by apply Hp| |done]. intros E. by specialize (He E). Qed.

Lemma log_release_spares o s :
  requests (log_release o s) = requests s /\ queue (log_release o s) = queue s /\ calls (log_release o s) = calls s /\
  next_call (log_release o s) = next_call s /\ pc (log_release o s) = pc s.
Proof. unfold log_release. by destruct (_ && _). Qed.

(** A move to [p'] that touches nothing of the requests. *)
Lemma move_inv s s' id p' :
  task_inv s -> handles (pc s) = Some id -> pc s' = p' -> handles p' = Some id -> requests s' = requests s -> queue s' = queue s ->
  calls s' = calls s -> next_call s' = next_call s ->
  (forall r, task_agrees (At (pc s)) r -> task_agrees (At p') r) -> task_inv s'.
Proof.
  intros H E <- E' Hr Hq Hc Hn Ht. destruct (at_request s id H E) as (r & Er & Hp).
  eapply (inv_move s s' id r); try done; [by intros; rewrite Hr|by rewrite Hr|]. eapply protocol_go; [exact Hp|apply Ht].
Qed.

(** A move to [p'] with a new value of the request. *)
Lemma move_set_inv s id r p' :
  task_inv s -> handles (pc s) = Some id -> handles p' = Some id -> protocol (calls s !! id) r (At p') ->
  task_inv (go p' (set_request id r s)).
Proof.
  intros H E E' Hp. eapply (inv_move s _ id r); try done; [intros j Hj; by apply lookup_insert_ne|apply lookup_insert_eq].
Qed.

Ltac agrees := intros ? [????]; split; cbn in *; auto; done.

Lemma decide_goes s id c r :
  task_inv s -> pc s = Decided id c -> goes s (decide_request ops id c r s).
Proof.
  intros H E. assert (handles (pc s) = Some id) as Eh by (by rewrite E). unfold decide_request. destruct (kind r).
  - apply goes_act. intros ok p. eapply (move_inv s _ id (Processed id ok)); try done. rewrite E. agrees.
  - apply goes_ret. destruct (_ && _).
    + eapply (move_inv s _ id (Accepting id)); try done. rewrite E. agrees.
    + eapply (move_inv s _ id (Processed id false)); try done. rewrite E. agrees.
  - apply goes_ret. destruct c.
    + eapply (move_inv s _ id (Processed id false)); try done. rewrite E. agrees.
    + eapply (move_inv s _ id (Acquiring id)); try done. rewrite E. agrees.
  - destruct (log_release_spares (request_owner r) s) as (S1 & S2 & S3 & S4 & S5).
    intros w. destruct (act_spec (maintain ops (request_owner r) false) (fun ok => go (Released id ok))
      (log_release (request_owner r) s) w) as (ok & p & w' & _ & ->). eexists _, _. split; [reflexivity|].
    eapply (move_inv s _ id (Released id ok)); try done. rewrite E. agrees.
Qed.

(** The result is written before anybody may read it. *)
Lemma store_protocol c r id ok :
  protocol c r (At (Processed id ok)) -> protocol c (r <| success := ok |>) (At (Stored id ok)).
Proof.
  intros [Hr Hh Hc [Hb Hs Hro Ha _] He _]. cbn in *. specialize (Hb eq_refl). split; try done; [| |intros E; by specialize (He E)].
  - destruct c as [[]|]; cbn in *; try done. destruct Hc as [Hc ->]. split; [done|]. by rewrite bool_decide_false.
  - split; cbn; auto. by intros ? [= <-].
Qed.

Lemma complete_protocol c r id ok :
  protocol c r (At (Stored id ok)) -> request_state r = REQUEST_WAITING ->
  protocol c (r <| request_state := REQUEST_COMPLETE |>) (At (Publishing id)).
Proof.
  intros [Hr Hh Hc [Hb Hs _ _ _] He _] Est. split; try done; [|intros E; by specialize (He E)].
  destruct c as [[]|]; cbn in *; rewrite ?Est in *; try done; try (by destruct Hc). by specialize (He eq_refl).
Qed.

Lemma withdrawn_protocol c r id ok :
  protocol c r (At (Stored id ok)) -> request_state r <> REQUEST_WAITING -> protocol c r (At (RollingBack id ok)).
Proof.
  intros [Hr Hh Hc [Hb Hs _ _ _] He _] Est. split; try done; [|intros E; by specialize (He E)].
  split; cbn; auto; try done. intros _. specialize (Hb eq_refl). by destruct (request_state r).
Qed.

(** The request is completed, unless its call has withdrawn. *)
Lemma complete_inv s id ok r :
  task_inv s -> pc s = Stored id ok -> requests s !! id = Some r -> protocol (calls s !! id) r (At (Stored id ok)) ->
  task_inv (complete_request id ok r s).
Proof.
  intros H E Er Hp. assert (handles (pc s) = Some id) as Eh by (by rewrite E). unfold complete_request.
  destruct (request_state r) eqn:Est.
  - set (r' := r <| request_state := REQUEST_COMPLETE |>).
    assert (task_inv (go (Publishing id) (set_request id r' s))) as Hi
      by (apply (move_set_inv s id); try done; by apply complete_protocol with ok).
    destruct (_ && _); [|done]. by destruct Hi.
  - by destruct (agrees_before _ _ (protocol_task _ _ _ Hp) eq_refl).
  - eapply (inv_move s _ id r); try done. apply withdrawn_protocol; [done|congruence].
Qed.

Lemma signal_protocol c r id :
  protocol c r (At (Signalling id)) -> protocol c (r <| completion := true |>) (At (Releasing id)).
Proof.
  intros [Hr Hh Hc [Hb Hs _ Ha _] He _]. split; try done; [| |intros E; by specialize (He E)].
  - destruct c as [[]|]; cbn in *; try done. by specialize (He eq_refl).
  - split; cbn in *; auto; done.
Qed.

(** The task lets go of the request. *)
Lemma release_protocol c r id : protocol c r (At (Releasing id)) -> balanced c (dropped r) Nowhere.
Proof.
  intros [Hr Hh Hc [_ _ _ Ha _] He _]. unfold dropped. destruct (Z.eqb_spec (references r) 1) as [E|E].
  - split; [cbn in Hr; lia|done].
  - split; cbn in *; try done; try lia; try (by right; apply Ha).
Qed.

Lemma release_goes s id : task_inv s -> pc s = Releasing id -> goes s (io_ret (W := world) (go Draining <$> release_request id s)).
Proof.
  intros H E w. assert (handles (pc s) = Some id) as Eh by (by rewrite E). destruct (at_request s id H Eh) as (r & Er & Hp).
  destruct (request_release_spec s id r Er (protocol_bound _ _ _ Hp)) as (m & -> & Em & Hm). eexists _, w. split; [reflexivity|].
  pose proof (handles_queue s id H Eh) as Hq. rewrite E in Hp. split.
  - intros j. unfold position_of. cbn. rewrite decide_False by done. destruct (decide (j = id)) as [->|Hne].
    + rewrite decide_False by done. rewrite Em. by apply (release_protocol _ _ id).
    + rewrite Hm by done. pose proof (inv_ids s H j) as Hb. unfold position_of in Hb. rewrite E in Hb. cbn in Hb.
      rewrite decide_False in Hb by congruence. done.
  - cbn. pose proof (inv_nodup s H) as Hn. rewrite E in Hn. by apply NoDup_cons in Hn as [_ Hn].
  - cbn. intros j Hj. pose proof (inv_fresh s H j Hj) as [Hc Hr]. split; [done|].
    destruct (decide (j = id)) as [->|Hne]; [congruence|by rewrite Hm].
Qed.

(** The task takes the next request. *)
Lemma receive_inv s id rest : task_inv s -> pc s = Draining -> queue s = id :: rest -> task_inv (go (Received id) (s <| queue := rest |>)).
Proof.
  intros H E Eq. pose proof (inv_nodup s H) as Hn. rewrite E, Eq in Hn. cbn in Hn. apply NoDup_cons in Hn as [Hin Hn].
  split; [|cbn; by apply NoDup_cons|by apply (inv_fresh s H)].
  intros j. pose proof (inv_ids s H j) as Hb. unfold position_of in Hb |- *. rewrite E, Eq in Hb. cbn in Hb |- *.
  destruct (decide (Some id = Some j)) as [Ej|Ej].
  - injection Ej as <-. rewrite decide_False in Hb by done. rewrite decide_True in Hb by (by left).
    destruct (requests s !! id) as [r|]; [|by destruct Hb]. destruct Hb as [Hr Hh Hc [? ? ? ? ?] He Hl].
    split; try done; try (intros E'; by specialize (He E')).
  - rewrite decide_False in Hb by done. destruct (decide (j ∈ rest)) as [Hj|Hj].
    + by rewrite decide_True in Hb by (by right).
    + rewrite decide_False in Hb; [done|]. intros [->|?]%elem_of_cons; [by apply Ej|done].
Qed.

Lemma task_goes i s : task_inv s -> goes s (task_step ops sample i s).
Proof.
  intros H. unfold task_step. destruct (pc s) eqn:E; try (assert (handles (pc s) = Some id) as Eh by (by rewrite E)).
  - apply goes_ret. destruct (queue s) as [|id rest] eqn:Eq; [apply (inv_loop s); by rewrite ?E, ?Eq|by apply receive_inv].
  - apply (goes_request s id); [done..|]. intros r Er Hp. apply goes_ret.
    eapply (move_inv s _ id); try done. rewrite E. agrees.
  - apply (goes_request s id); [done..|]. intros r Er Hp. by apply decide_goes.
  - apply (goes_request s id); [done..|]. intros r Er Hp. apply goes_ret. eapply (move_inv s _ id (Resuming id)); try done. rewrite E. agrees.
  - apply goes_act. intros ok p. eapply (move_inv s _ id (Processed id ok)); try done. rewrite E. agrees.
  - apply (goes_request s id); [done..|]. intros r Er Hp. apply goes_act. intros ok p.
    eapply (move_inv s _ id (Processed id ok)); try done. rewrite E. agrees.
  - apply goes_ret. destruct ok; eapply (move_inv s _ id (Processed id _)); try done; rewrite E; agrees.
  - apply (goes_request s id); [done..|]. intros r Er Hp. apply goes_ret. apply (move_set_inv s id); try done.
    rewrite E in Hp. by apply store_protocol.
  - apply (goes_request s id); [done..|]. intros r Er Hp. apply goes_ret. apply complete_inv; try done. by rewrite <- E.
  - apply (goes_request s id); [done..|]. intros r Er Hp. destruct (_ && _).
    + destruct (log_release_spares (request_owner r) s) as (S1 & S2 & S3 & S4 & S5).
      intros w. destruct (act_spec (maintain ops (request_owner r) false) (fun _ => go (RollingPause id))
        (log_release (request_owner r) s) w) as (ok' & p & w' & _ & ->). eexists _, _. split; [reflexivity|].
      eapply (move_inv s _ id (RollingPause id)); try done. rewrite E. agrees.
    + apply goes_ret. eapply (move_inv s _ id (RollingPause id)); try done. rewrite E. agrees.
  - destruct (owned (policy s)).
    + apply goes_ret. eapply (move_inv s _ id (Publishing id)); try done. rewrite E. agrees.
    + apply goes_act. intros ok p. eapply (move_inv s _ id (Publishing id)); try done. rewrite E. agrees.
  - apply goes_ret. eapply (move_inv s _ id (Signalling id)); try done. rewrite E. agrees.
  - apply (goes_request s id); [done..|]. intros r Er Hp. apply goes_ret. apply (move_set_inv s id); try done.
    rewrite E in Hp. by apply signal_protocol.
  - by apply release_goes.
  - destruct (_ && _ && _); [apply goes_act; intros ok p|apply goes_ret]; by apply (inv_loop s); rewrite ?E.
  - destruct (owned (policy s)); [apply goes_ret; by apply (inv_loop s); rewrite ?E|].
    intros w. unfold io_bind. destruct (lifted _ w) as [sm w']. eexists _, _. split; [reflexivity|]. by apply (inv_loop s); rewrite ?E.
  - cbn zeta. intros w. unfold io_bind. destruct (power_policy_step _ _ _ _ _ _ _ _ w) as [p w']. eexists _, _.
    split; [reflexivity|]. by apply (inv_loop s); rewrite ?E.
  - unfold report. cbn zeta. intros w. unfold io_bind. destruct (set_fan_allowed _ w) as [u w']. eexists _, _.
    split; [reflexivity|]. by destruct (_ && _); apply (inv_loop s); rewrite ?E.
  - apply goes_ret. by apply (inv_loop s); rewrite ?E.
Qed.
End task.

(** *** Every party can take its next step *)

Lemma call_goes s id : task_inv s -> is_Some (calls s !! id) -> is_Some (call_step true id s).
Proof.
  intros H [c Ec]. unfold call_step. rewrite Ec.
  destruct (decide (call_weight (Some c) = 0)) as [Hw|Hw]; [by destruct c; try done; eexists|].
  destruct (call_request s id c H Ec) as (r & Er & Hp); [destruct c; cbn in *; lia|].
  pose proof (protocol_bound _ _ _ Hp) as Hbound.
  destruct c; try done; rewrite ?Er; cbn [mbind option_bind]; try (by eexists).
  - destruct (_ <? _)%nat; [by eexists|].
    destruct (request_release_spec s id r Er Hbound) as (m & -> & Em & Hm). cbn [mbind option_bind].
    rewrite (protocol_enqueueing _ _ _ Hp eq_refl) in Hp.
    set (r2 := r <| references := 1 |>). replace (dropped r) with (Some r2) in Em
      by (unfold dropped; by rewrite (protocol_references _ _ _ Hp)).
    pose proof (request_release_spec (s <| requests := m |>) id r2) as Hs2. destruct (Hs2 Em) as (m2 & -> & _); [done|]. by eexists.
  - destruct (completion r); by eexists.
  - destruct (request_release_spec s id r Er Hbound) as (m & -> & Em & Hm). by eexists.
Qed.

(** ** What a step does to the requests and to the history *)

Definition revocation (e : task_event) : Z := match e with Revoked => 1 | _ => 0 end.
Definition revocations (h : list task_event) : Z := fold_right Z.add 0 (revocation <$> h).

(** A request is what was asked for, and once completed it stays what it is. *)
Record kept (r r' : power_request_t) : Prop := mk_kept {
  kept_kind : kind r' = kind r;
  kept_owner : request_owner r' = request_owner r;
  kept_epoch : epoch r' = epoch r;
  kept_complete : request_state r = REQUEST_COMPLETE -> request_state r' = REQUEST_COMPLETE /\ success r' = success r;
}.

#[export] Instance kept_preorder : PreOrder kept.
Proof. split; [by intros r; split|]. intros x y z [] []. split; try congruence. intros H. destruct (kept_complete0 H). destruct kept_complete1; [done|]. split; congruence. Qed.

Definition succeeded (r : power_request_t) : bool := bool_decide (request_state r = REQUEST_COMPLETE) && success r.

Record effect (s s' : power_task_t) (e : list task_event) : Prop := mk_effect {
  effect_history : history s' = history s ++ e;
  effect_stop : stop_epoch s' = if bool_decide (revocations e = 0) then stop_epoch s else u32 (stop_epoch s + revocations e);
  effect_requests : forall j r', requests s' !! j = Some r' ->
    (exists r, requests s !! j = Some r /\ kept r r' /\
       (succeeded r' = true -> kind r = POWER_REQUEST_ACQUIRE -> succeeded r = true \/ Granted j (request_owner r) ∈ e)) \/
    (e = [Asked j (kind r') (request_owner r')] /\ requests s !! j = None /\ epoch r' = stop_epoch s /\ succeeded r' = false);
  effect_calls : forall j c r, calls s !! j = Some c -> requests s !! j = Some r ->
    (is_Some (calls s' !! j) /\ is_Some (requests s' !! j)) \/ Answered j (kind r) (request_owner r) (succeeded r) ∈ e;
  effect_answers : forall j o, Answered j POWER_REQUEST_ACQUIRE o true ∈ e ->
    exists r, requests s !! j = Some r /\ kind r = POWER_REQUEST_ACQUIRE /\ request_owner r = o /\ succeeded r = true;
  effect_grants : forall j o, Granted j o ∈ e ->
    exists r', requests s' !! j = Some r' /\ kind r' = POWER_REQUEST_ACQUIRE /\ request_owner r' = o /\ succeeded r' = true /\
      is_Some (calls s' !! j);
}.

(** Events of which only the history knows. *)
Definition silent (e : task_event) : Prop :=
  match e with Freed _ | Accepted _ | Revoked => True | Answered _ _ _ b => b = false | _ => False end.

Lemma silent_answers e j o : Forall silent e -> Answered j POWER_REQUEST_ACQUIRE o true ∈ e -> False.
Proof. intros H Hin. by apply (proj1 (Forall_forall _ _) H) in Hin. Qed.
Lemma silent_grants e j o : Forall silent e -> Granted j o ∈ e -> False.
Proof. intros H Hin. by apply (proj1 (Forall_forall _ _) H) in Hin. Qed.

(** A step that keeps every request as it is. *)
Lemma effect_still s s' e :
  history s' = history s ++ e ->
  (stop_epoch s' = if bool_decide (revocations e = 0) then stop_epoch s else u32 (stop_epoch s + revocations e)) ->
  requests s' = requests s -> (forall j, is_Some (calls s !! j) -> is_Some (requests s !! j) -> is_Some (calls s' !! j)) -> Forall silent e -> effect s s' e.
Proof.
  intros Hh Hs Hr Hc He. split; [done|done|..].
  - intros j r. rewrite Hr. intros E. left. exists r. split_and!; auto; reflexivity.
  - intros j c r Ec Er. left. rewrite Hr. split; [apply Hc; by eexists|by eexists].
  - intros j o Hin. by eapply silent_answers in Hin.
  - intros j o Hin. by eapply silent_grants in Hin.
Qed.

(** A step that changes one request. *)
Lemma effect_set s s' id r r' :
  history s' = history s -> stop_epoch s' = stop_epoch s -> requests s !! id = Some r -> requests s' = <[id := r']> (requests s) ->
  (forall j, is_Some (calls s !! j) -> is_Some (calls s' !! j)) -> kept r r' -> (succeeded r' = true -> succeeded r = true) -> effect s s' [].
Proof.
  intros Hh Hs Er Hr Hc Hk Hsucc. split; rewrite ?Hr; try (by intros ? ? ?%elem_of_nil); [by rewrite app_nil_r|done|..].
  - intros j x. destruct (decide (j = id)) as [->|Hne].
    + rewrite lookup_insert_eq. intros [= <-]. left. exists r. split_and!; auto.
    + rewrite lookup_insert_ne by done. intros E. left. exists x. split_and!; auto; reflexivity.
  - intros j c x Ec Ex. left. split; [apply Hc; by eexists|]. destruct (decide (j = id)) as [->|Hne].
    + rewrite lookup_insert_eq. by eexists.
    + rewrite lookup_insert_ne by done. by eexists.
Qed.

(** A step that lets go of a reference; if it was the call's, the call has answered. *)
Lemma effect_release s s' id r m e :
  history s' = history s ++ e -> revocations e = 0 -> stop_epoch s' = stop_epoch s ->
  requests s !! id = Some r -> requests s' = m -> (m !! id = dropped r \/ m !! id = None) -> (forall j, j <> id -> m !! j = requests s !! j) ->
  (forall j, j <> id -> calls s' !! j = calls s !! j) ->
  (forall j o, Granted j o ∉ e) ->
  (forall j o, Answered j POWER_REQUEST_ACQUIRE o true ∈ e -> j = id /\ kind r = POWER_REQUEST_ACQUIRE /\ request_owner r = o /\ succeeded r = true) ->
  (is_Some (calls s !! id) -> (is_Some (calls s' !! id) /\ is_Some (m !! id)) \/ Answered id (kind r) (request_owner r) (succeeded r) ∈ e) ->
  effect s s' e.
Proof.
  intros Hh Hrev Hs Er Hr Hm Hj Hc Hg Ha Hcall. split; rewrite ?Hr; [done|by rewrite bool_decide_true|..].
  - intros j x Ex. left. destruct (decide (j = id)) as [->|Hne].
    + exists r. split; [done|]. destruct Hm as [Hm|Hm]; rewrite Hm in Ex; [|done].
      unfold dropped in Ex. destruct (_ =? _); [done|]. injection Ex as <-. split; [by split|]. by left.
    + rewrite Hj in Ex by done. exists x. split_and!; auto; reflexivity.
  - intros j c x Ec Ex. destruct (decide (j = id)) as [->|Hne].
    + rewrite Er in Ex. injection Ex as <-. apply Hcall. by eexists.
    + left. rewrite Hc, Hj by done. split; by eexists.
  - intros j o Hin. apply Ha in Hin as (-> & ?). by exists r.
  - intros j o Hin. by apply Hg in Hin.
Qed.

Lemma begin_effect kd o s : task_inv s -> exists e, effect s (begin_call kd o s) e /\ Forall silent e.
Proof.
  intros H. assert (forall j : nat, is_Some (calls s !! j) -> is_Some (<[next_call s := Asking kd o]> (calls s) !! j)) as Hc.
  { intros j Hj. destruct (decide (next_call s = j)) as [->|Hne]; [rewrite lookup_insert_eq; by eexists|by rewrite lookup_insert_ne]. }
  unfold begin_call. destruct kd; [exists [Revoked]|exists []|exists [Revoked]|exists []]; (split; [|by repeat constructor]); apply effect_still;
    try done; try (by rewrite ?app_nil_r); try (by repeat constructor); by auto.
Qed.

Lemma revoke_effect s : effect s (revoke_work s) [Revoked].
Proof. by apply effect_still; try done; repeat constructor. Qed.

Ltac still := apply effect_still; [by rewrite ?app_nil_r|done|done|intros j Hj _; match goal with Hc : _ |- _ => by apply Hc end|by repeat constructor].

Lemma call_effect chance id s s' : task_inv s -> call_step chance id s = Some s' -> exists e, effect s s' e.
Proof.
  intros H. unfold call_step. destruct (calls s !! id) as [c|] eqn:Ec; [|done].
  assert (forall c' j, is_Some (calls s !! j) -> is_Some (<[id := c']> (calls s) !! j)) as Hc.
  { intros c' j Hj. destruct (decide (id = j)) as [->|Hne]; [rewrite lookup_insert_eq; by eexists|by rewrite lookup_insert_ne]. }
  destruct (decide (call_weight (Some c) = 0)) as [Hw|Hw].
  { destruct c as [kd o| | | | | |]; try done. pose proof (inv_ids s H id) as Hb. rewrite Ec in Hb.
    assert (requests s !! id = None) as Er by (destruct (requests s !! id); [by destruct Hb|done]). intros [= <-]. destruct chance.
    - exists [Asked id kd o]. split; [done|done|..].
      + intros j r'. destruct (decide (j = id)) as [->|Hne].
        * cbn. rewrite lookup_insert_eq. intros [= <-]. by right.
        * cbn. rewrite lookup_insert_ne by done. intros E. left. exists r'. split_and!; auto; reflexivity.
      + intros j c r Ej Erj. left. split; [apply Hc; by eexists|]. cbn. assert (j <> id) by congruence. rewrite lookup_insert_ne by done. by eexists.
      + intros j o' Hin. by apply list_elem_of_singleton in Hin.
      + intros j o' Hin. by apply list_elem_of_singleton in Hin.
    - exists [Answered id kd o false]. apply effect_still; try done; [|by repeat constructor].
      intros j Hj Hr. cbn. rewrite lookup_delete_ne; [done|]. intros ->. rewrite Er in Hr. by inversion Hr. }
  destruct (call_request s id c H Ec) as (r & Er & Hp); [destruct c; cbn in *; lia|].
  pose proof (protocol_bound _ _ _ Hp) as Hbound.
  destruct c as [kd o| | | | |completed|result]; cbn [call_weight] in Hw; try done.
  - rewrite Er. cbn [mbind option_bind].
    destruct (_ <? _)%nat; [intros [= <-]; exists []; by still|].
    destruct (request_release_spec s id r Er Hbound) as (m & -> & Em & Hm). cbn [mbind option_bind].
    pose proof Hp as [_ _ [Hst _] _ _ _]. rewrite (protocol_enqueueing _ _ _ Hp eq_refl) in Hp.
    set (r2 := r <| references := 1 |>). replace (dropped r) with (Some r2) in Em
      by (unfold dropped; by rewrite (protocol_references _ _ _ Hp)).
    pose proof (request_release_spec (s <| requests := m |>) id r2) as Hs2. destruct (Hs2 Em) as (m2 & -> & Em2 & Hm2); [done|].
    intros [= <-]. exists [Answered id (kind r) (request_owner r) false].
    apply (effect_release s _ id r m2); try done; [by right| | | | |].
    + intros j Hj. rewrite Hm2 by done. by apply Hm.
    + intros j Hj. cbn. by rewrite lookup_delete_ne.
    + by intros j o Hin%list_elem_of_singleton.
    + by intros j o Hin%list_elem_of_singleton.
    + intros _. right. unfold succeeded. rewrite Hst, bool_decide_false by done. by left.
  - rewrite Er. cbn [mbind option_bind]. destruct (completion r).
    + intros [= <-]. exists []. eapply (effect_set s _ id r); try done; try (intros j Hj; by apply Hc).
    + destruct chance; [|done]. intros [= <-]. exists []. by still.
  - rewrite Er. cbn [mbind option_bind]. destruct (request_state r) eqn:Est; intros [= <-]; exists [];
      try (by still).
    eapply (effect_set s _ id r); try done; try (intros j Hj; by apply Hc). split; try done. congruence.
  - intros [= <-]. exists [Revoked]. apply effect_still; try done; [|by repeat constructor]. intros j Hj _. by apply Hc.
  - rewrite Er. cbn [mbind option_bind]. intros [= <-]. exists []. by still.
  - rewrite Er. cbn [mbind option_bind]. destruct (request_release_spec s id r Er Hbound) as (m & -> & Em & Hm). cbn [mbind option_bind].
    destruct Hp as [_ _ [_ Hres] _ _ _]. change (result = succeeded r) in Hres. subst result.
    intros [= <-]. exists [Answered id (kind r) (request_owner r) (succeeded r)].
    apply (effect_release s _ id r m); try done; [by left| | | |].
    + intros j Hj. cbn. by rewrite lookup_delete_ne.
    + by intros j o Hin%list_elem_of_singleton.
    + intros j o Hin%list_elem_of_singleton. by injection Hin as -> -> -> ->.
    + intros _. right. by left.
Qed.

Section task_effect.
Context {W : Type} (ops : power_operations_t W) (sample : io W power_sample_t).
Abbreviation world := ((bool * W) * list power_event)%type.

(** What the step leaves is an effect of it. *)
Definition effects (s : power_task_t) (m : io world (option power_task_t)) : Prop :=
  forall w s' w', m w = (Some s', w') -> exists e, effect s s' e.

Lemma effects_ret s s' e : effect s s' e -> effects s (io_ret (Some s')).
Proof. intros H w ? w' [= <- <-]. by exists e. Qed.

Lemma effects_act s s0 m k e : (forall ok p, effect s (k ok (s0 <| policy := p |>)) e) -> effects s (act (W := W) m k s0).
Proof. intros H w s' w' E. destruct (act_spec m k s0 w) as (ok & p & w1 & _ & E1). rewrite E1 in E. injection E as <- <-. by exists e. Qed.

Lemma effects_request s id f :
  task_inv s -> handles (pc s) = Some id ->
  (forall r, requests s !! id = Some r -> protocol (calls s !! id) r (At (pc s)) -> effects s (f r)) -> effects s (with_request id s f).
Proof. intros H E Hf. destruct (at_request s id H E) as (r & Er & Hp). unfold with_request. rewrite Er. by apply Hf. Qed.

(** A step that does not touch requests, calls or epochs. *)
Lemma effect_plain s s' : history s' = history s -> stop_epoch s' = stop_epoch s -> requests s' = requests s -> calls s' = calls s -> effect s s' [].
Proof. intros Hh Hs Hr Hc. apply effect_still; [by rewrite app_nil_r|done|done|by rewrite Hc|constructor]. Qed.

Lemma effect_silent s s' ev :
  history s' = history s ++ [ev] -> (exists o, ev = Freed o) \/ (exists id, ev = Accepted id) -> stop_epoch s' = stop_epoch s -> requests s' = requests s -> calls s' = calls s -> effect s s' [ev].
Proof.
  intros Hh He Hs Hr Hc. apply effect_still; [done| |done|by rewrite Hc|]; destruct He as [[? ->]|[? ->]]; try done; by repeat constructor.
Qed.

Lemma release_effects o s m k :
  (forall ok s0, history (k ok s0) = history s0 /\ stop_epoch (k ok s0) = stop_epoch s0 /\ requests (k ok s0) = requests s0 /\ calls (k ok s0) = calls s0) ->
  effects s (act (W := W) m k (log_release o s)).
Proof.
  intros Hk. unfold log_release. destruct (_ && _).
  - eapply effects_act with (e := [Freed o]). intros ok p. destruct (Hk ok ((log_event (Freed o) s) <| policy := p |>)) as (H1 & H2 & H3 & H4).
    apply effect_silent; rewrite ?H1, ?H2, ?H3, ?H4; try done. left. by eexists.
  - eapply effects_act with (e := []). intros ok p. destruct (Hk ok (s <| policy := p |>)) as (H1 & H2 & H3 & H4).
    by apply effect_plain; rewrite ?H1, ?H2, ?H3, ?H4.
Qed.

(** The completion grants what was acquired. *)
Lemma complete_effect s id ok r :
  requests s !! id = Some r -> protocol (calls s !! id) r (At (Stored id ok)) -> exists e, effect s (complete_request id ok r s) e.
Proof.
  intros Er Hp. pose proof (agrees_stored _ _ (protocol_task _ _ _ Hp) ok eq_refl) as Hok. unfold complete_request.
  destruct (request_state r) eqn:Est; [|by exists []; apply effect_plain..].
  set (r' := r <| request_state := REQUEST_COMPLETE |>).
  assert (succeeded r' = ok) as Hs' by done.
  destruct (ok && bool_decide (kind r = POWER_REQUEST_ACQUIRE)) eqn:Eg.
  - prop_bool. exists [Granted id (request_owner r)]. split; [done|done|..]; cbn.
    + intros j x. destruct (decide (j = id)) as [->|Hne].
      * rewrite lookup_insert_eq. intros [= <-]. left. exists r. split_and!; [done|by split; try done; congruence|]. intros _ _. right. by left.
      * rewrite lookup_insert_ne by done. intros Ex. left. exists x. split_and!; auto; reflexivity.
    + intros j c x Ec Ex. left. split; [by eexists|]. destruct (decide (j = id)) as [->|Hne]; [rewrite lookup_insert_eq|rewrite lookup_insert_ne by done]; by eexists.
    + by intros j o Hin%list_elem_of_singleton.
    + intros j o Hin%list_elem_of_singleton. injection Hin as -> ->. exists r'. rewrite lookup_insert_eq. split_and!; try done; [by rewrite Hs'|].
      destruct Hp as [_ _ Hc _ _ _]. destruct (calls s !! id); [by eexists|by cbn in Hc].
  - exists []. split; [by rewrite app_nil_r|done|..]; cbn; try by intros ? ? ?%elem_of_nil.
    + intros j x. destruct (decide (j = id)) as [->|Hne].
      * rewrite lookup_insert_eq. intros [= <-]. left. exists r. split_and!; [done|by split; try done; congruence|].
        intros Hsucc Hk. rewrite Hs' in Hsucc. subst ok. by rewrite Hsucc, bool_decide_true in Eg.
      * rewrite lookup_insert_ne by done. intros Ex. left. exists x. split_and!; auto; reflexivity.
    + intros j c x Ec Ex. left. split; [by eexists|]. destruct (decide (j = id)) as [->|Hne]; [rewrite lookup_insert_eq|rewrite lookup_insert_ne by done]; by eexists.
Qed.

Lemma task_effect i s : task_inv s -> effects s (task_step ops sample i s).
Proof.
  intros H. unfold task_step. destruct (pc s) eqn:E; try (assert (handles (pc s) = Some id) as Eh by (by rewrite E)).
  1: { destruct (queue s); by apply effects_ret with (e := []), effect_plain. }
  all: try (apply (effects_request s id); [done..|]; intros r Er Hp).
  all: try (by apply effects_ret with (e := []), effect_plain).
  all: try (by eapply effects_act with (e := []); intros ok' p; apply effect_plain).
  - unfold decide_request. destruct (kind r).
    + by eapply effects_act with (e := []); intros ok' p; apply effect_plain.
    + by apply effects_ret with (e := []), effect_plain; destruct (_ && _).
    + by apply effects_ret with (e := []), effect_plain; destruct cancelled.
    + by apply release_effects.
  - apply effects_ret with (e := [Accepted id]). apply effect_silent; try done. right. by eexists.
  - apply effects_ret with (e := []). by destruct ok; apply effect_plain.
  - apply effects_ret with (e := []). eapply (effect_set s _ id r); try done; rewrite E in Hp.
    + split; try done. intros Est. by destruct (agrees_before _ _ (protocol_task _ _ _ Hp) eq_refl).
    + unfold succeeded. cbn. pose proof (agrees_before _ _ (protocol_task _ _ _ Hp) eq_refl). by rewrite bool_decide_false.
  - rewrite E in Hp. destruct (complete_effect s id ok r Er Hp) as [e He]. by apply effects_ret with (e := e).
  - destruct (_ && _); [by apply release_effects|by apply effects_ret with (e := []), effect_plain].
  - destruct (owned (policy s)); [by apply effects_ret with (e := []), effect_plain|].
    by eapply effects_act with (e := []); intros ok' p; apply effect_plain.
  - apply effects_ret with (e := []). by eapply (effect_set s _ id r).
  - intros w s' w' Es. destruct (at_request s id H Eh) as (r & Er & Hp).
    destruct (request_release_spec s id r Er (protocol_bound _ _ _ Hp)) as (m & Em0 & Em & Hm). rewrite Em0 in Es. injection Es as <- <-. exists [].
    eapply (effect_release s _ id r m); try done; [by rewrite app_nil_r|by left|by intros j o Hin%elem_of_nil|by intros j o Hin%elem_of_nil|].
    intros [c Ec]. left. split; [by eexists|]. cbn.
    pose proof (task_goes (W := W) ops sample i s H w) as Hg. unfold task_step in Hg. rewrite E in Hg. cbn in Hg. rewrite Em0 in Hg.
    destruct Hg as (s1 & w1 & Hg & Hi). injection Hg as <- <-. pose proof (inv_ids _ Hi id) as Hb. cbn in Hb. rewrite Ec in Hb.
    destruct (m !! id); [by eexists|]. destruct Hb as [Hb _]. rewrite Ec in Hp. destruct c; try done. by destruct Hp.
  - destruct (_ && _ && _); [by eapply effects_act with (e := []); intros ok' p; apply effect_plain|by apply effects_ret with (e := []), effect_plain].
  - destruct (owned (policy s)); [by apply effects_ret with (e := []), effect_plain|].
    intros w s' w'. unfold io_bind. destruct (lifted _ w) as [sm w1]. intros [= <- <-]. exists []. by apply effect_plain.
  - cbn zeta. intros w s' w'. unfold io_bind. destruct (power_policy_step _ _ _ _ _ _ _ _ w) as [p w1]. intros [= <- <-]. exists []. by apply effect_plain.
  - unfold report. cbn zeta. intros w s' w'. unfold io_bind. destruct (set_fan_allowed _ w) as [u w1]. intros [= <- <-]. exists [].
    by destruct (_ && _); apply effect_plain.
Qed.
End task_effect.

