(* ===== verification/PowerOwner.v ===== *)
(** * Who owns the power, and what was revoked

    Proofs about [PowerTask], over the requests of [PowerRequests]: work that was revoked
    stays revoked until a resume that was asked for later is accepted; and maintenance that
    was granted belongs to a call that is told so, until it is released. *)

From stdpp Require Import gmap.
From S2P Require Import Prelude Trace Float32 PowerPolicy PowerTask PowerRequests.
Open Scope Z_scope.
Open Scope io_scope.

(** ** Epochs *)

Definition asked (h : list task_event) (id : nat) (kd : power_request_kind_t) (o : power_owner_t) (e : Z) : Prop :=
  exists l1 l2, h = l1 ++ Asked id kd o :: l2 /\ e = u32 (revocations l1).

(** The accepted epoch is the first, or that of a resume that was accepted after it was asked for. *)
Definition accepted (h : list task_event) (e : Z) : Prop :=
  e = 0 \/ exists l1 id o l2, h = l1 ++ Asked id POWER_REQUEST_RESUME o :: l2 /\ Accepted id ∈ l2 /\ e = u32 (revocations l1).

(** What the task has decided about the request that it works on. *)
Definition working (s : power_task_t) : Prop :=
  forall id r, requests s !! id = Some r ->
    (pc s = Accepting id \/ pc s = Resuming id -> kind r = POWER_REQUEST_RESUME) /\
    (pc s = Acquiring id -> kind r = POWER_REQUEST_ACQUIRE) /\
    (forall ok, pc s = Released id ok -> kind r = POWER_REQUEST_RELEASE).

Record epoch_inv (s : power_task_t) : Prop := mk_epoch_inv {
  epoch_stop : stop_epoch s = u32 (revocations (history s));
  epoch_asked : forall id r, requests s !! id = Some r -> asked (history s) id (kind r) (request_owner r) (epoch r);
  epoch_accepted : accepted (history s) (accepted_epoch s);
  epoch_working : working s;
}.

Lemma revocations_app h1 h2 : revocations (h1 ++ h2) = revocations h1 + revocations h2.
Proof. unfold revocations. induction h1 as [|e h1 IH]; cbn; [done|]. cbn in IH. lia. Qed.

Lemma revocations_nonneg h : 0 <= revocations h.
Proof. unfold revocations. induction h as [|e h IH]; cbn; [done|]. cbn in IH. destruct e; cbn; lia. Qed.

Lemma revocations_none h : revocations h = 0 -> Revoked ∉ h.
Proof.
  intros H Hin. apply list_elem_of_split in Hin as (l1 & l2 & ->). rewrite revocations_app in H.
  change (revocations (Revoked :: l2)) with (1 + revocations l2) in H.
  pose proof (revocations_nonneg l1). pose proof (revocations_nonneg l2). lia.
Qed.

Lemma asked_app h id kd o e x : asked h id kd o e -> asked (h ++ x) id kd o e.
Proof. intros (l1 & l2 & -> & He). exists l1, (l2 ++ x). by rewrite <- app_assoc. Qed.

Lemma accepted_app h e x : accepted h e -> accepted (h ++ x) e.
Proof.
  intros [He|(l1 & id & o & l2 & -> & Ha & He)]; [by left|right]. exists l1, id, o, (l2 ++ x).
  rewrite <- app_assoc. split_and!; try done. apply elem_of_app. by left.
Qed.

Lemma effect_epochs s s' e :
  effect s s' e -> epoch_inv s -> stop_epoch s' = u32 (revocations (history s')) /\
    (forall id r, requests s' !! id = Some r -> asked (history s') id (kind r) (request_owner r) (epoch r)).
Proof.
  intros He [Hs Ha _ _]. rewrite (effect_history _ _ _ He), (effect_stop _ _ _ He), revocations_app. split.
  - case_bool_decide as E; [by rewrite E, Z.add_0_r|]. rewrite Hs. unfold u32. by rewrite wrap_add_l.
  - intros id r' E. destruct (effect_requests _ _ _ He id r' E) as [(r & Er & [-> -> -> _] & _)|(-> & _ & Hep & _)].
    + apply asked_app. by apply Ha.
    + exists (history s), []. split; [done|]. by rewrite Hep.
Qed.

(** A call moves neither the task nor the policy. *)
Record spared (s s' : power_task_t) : Prop := mk_spared {
  spared_pc : pc s' = pc s;
  spared_policy : policy s' = policy s;
  spared_flag : maintenance s' = maintenance s;
  spared_accepted : accepted_epoch s' = accepted_epoch s;
}.

Lemma release_spared id s s' : release_request id s = Some s' -> spared s s' /\ history s' = history s.
Proof. unfold release_request. destruct (requests s !! id) as [r|]; cbn; [|done]. intros [= <-]. by destruct (_ =? _). Qed.

Lemma call_spared chance id s s' : call_step chance id s = Some s' -> spared s s'.
Proof.
  unfold call_step. destruct (calls s !! id) as [[]|]; cbn; try done.
  1: { intros [= <-]. by destruct chance. }
  all: try (destruct (requests s !! id) as [r|] eqn:Er; cbn; [|done]).
  - case_match; [by intros [= <-]|]. destruct (release_request id s) as [s1|] eqn:E1; cbn; [|done].
    destruct (release_request id s1) as [s2|] eqn:E2; cbn; [|done]. intros [= <-].
    apply release_spared in E1 as [[] _]. apply release_spared in E2 as [[] _]. split; cbn; congruence.
  - destruct (completion r); [by intros [= <-]|]. destruct chance; [by intros [= <-]|done].
  - intros [= <-]. by destruct (request_state r).
  - by intros [= <-].
  - by intros [= <-].
  - destruct (release_request id s) as [s1|] eqn:E1; cbn; [|done]. intros [= <-]. by apply release_spared in E1 as [[] _].
Qed.

Lemma begin_spared kd o s : spared s (begin_call kd o s).
Proof. by destruct kd. Qed.

Lemma spared_working s s' e : effect s s' e -> spared s s' -> task_inv s -> working s -> working s'.
Proof.
  intros He Hsp H Hw id r' Er'. rewrite (spared_pc _ _ Hsp).
  assert (handles (pc s) = Some id -> exists r, requests s !! id = Some r /\ kind r' = kind r) as Hk.
  { intros Eh. destruct (at_request s id H Eh) as (r & Er & _). exists r. split; [done|].
    destruct (effect_requests _ _ _ He id r' Er') as [(r0 & E0 & [-> _ _ _] & _)|(_ & E & _)]; congruence. }
  split_and!; [intros E|intros E|intros ok E]; destruct Hk as (r & Er & ->); try (by rewrite E); try (by destruct E as [-> | ->]);
    by apply (Hw id r Er) in E.
Qed.

Section task_epochs.
Context {W : Type} (ops : power_operations_t W) (sample : io W power_sample_t).
Abbreviation world := ((bool * W) * list power_event)%type.

(** Whatever state the step leaves satisfies [P]. *)
Definition leads (m : io world (option power_task_t)) (P : power_task_t -> Prop) : Prop :=
  forall w s' w', m w = (Some s', w') -> P s'.

Lemma leads_ret s (P : power_task_t -> Prop) : P s -> leads (io_ret (Some s)) P.
Proof. by intros H w s' w' [= <- <-]. Qed.

Lemma leads_act s m k (P : power_task_t -> Prop) : (forall ok p, P (k ok (s <| policy := p |>))) -> leads (act (W := W) m k s) P.
Proof. intros H w s' w' E. destruct (act_spec m k s w) as (ok & p & w1 & _ & E1). rewrite E1 in E. by injection E as <- <-. Qed.

Lemma leads_request id s f P : (forall r, requests s !! id = Some r -> leads (f r) P) -> leads (with_request id s f) P.
Proof. intros H. unfold with_request. destruct (requests s !! id) as [r|]; [by apply H|done]. Qed.

Lemma leads_bind {A} (m : io world A) f P : (forall a, leads (f a) P) -> leads (io_bind m f) P.
Proof. intros H w s' w'. unfold io_bind. destruct (m w) as [a w1]. apply H. Qed.

Lemma leads_release id s P : (forall m, P (go Draining (s <| requests := m |>))) -> leads (io_ret (go Draining <$> release_request id s)) P.
Proof.
  intros H w s' w'. unfold release_request. destruct (requests s !! id) as [r|]; cbn; [|done]. destruct (_ =? _); intros [= <- <-]; apply H.
Qed.

(** One step of the task, case by case. *)
Ltac task_cases E :=
  unfold task_step; destruct (pc _) eqn:E; cbn zeta;
  repeat first
    [ apply leads_request; intros ? ?
    | apply leads_release; intros ?
    | progress unfold decide_request, report; cbn zeta
    | apply leads_bind; intros ?
    | apply leads_act; intros ? ?
    | apply leads_ret
    | match goal with
      | |- leads (if ?c then _ else _) _ => let E := fresh "E" in destruct c eqn:E
      | |- leads (match ?x with _ => _ end) _ => let E := fresh "E" in destruct x eqn:E
      end ].

Lemma log_release_accepted o s : accepted_epoch (log_release o s) = accepted_epoch s.
Proof. unfold log_release. by destruct (_ && _). Qed.

Lemma task_accepted i s :
  leads (task_step ops sample i s) (fun s' => accepted_epoch s' = accepted_epoch s \/
    exists id r, requests s !! id = Some r /\ pc s = Accepting id /\ history s' = history s ++ [Accepted id] /\ accepted_epoch s' = epoch r).
Proof.
  task_cases E; try (by left); try (left; cbn; by rewrite log_release_accepted); try (left; by destruct (queue s)); try (left; by destruct (_ && _)).
  - left. by destruct cancelled.
  - right. eexists _, _. by split_and!.
  - left. by destruct ok.
  - left. unfold complete_request. destruct (request_state r); try done. by destruct (_ && _).
Qed.

Lemma log_release_requests o s : requests (log_release o s) = requests s.
Proof. unfold log_release. by destruct (_ && _). Qed.

Definition deciding (p : task_pc) : bool :=
  match p with Accepting _ | Resuming _ | Acquiring _ | Released _ _ => true | _ => false end.

Lemma working_other s : deciding (pc s) = false -> working s.
Proof. intros H id r _. split_and!; [intros [E|E]|intros E|intros ok E]; by rewrite E in H. Qed.

Lemma task_working i s : working s -> leads (task_step ops sample i s) working.
Proof.
  intros Hw. task_cases E; try by apply working_other.
  - apply working_other. by destruct (queue s).
  - destruct (_ && _); [|by apply working_other]. intros j x Ex. cbn in *. split_and!; [intros [[= ->]|]|..]; try done. congruence.
  - destruct cancelled; [by apply working_other|]. intros j x Ex. cbn in *. split_and!; [by intros []| |done]. intros [= ->]. congruence.
  - intros j x Ex. cbn in *. rewrite log_release_requests in Ex. split_and!; [by intros []|done|]. intros ok' [= -> ->]. congruence.
  - intros j x Ex. cbn in *. split_and!; try done. intros [|[= ->]]; [done|]. apply (Hw j x Ex). by left.
  - apply working_other. unfold complete_request. destruct (request_state r); try done. by destruct (_ && _).
Qed.

Lemma task_epochs i s w s' w' : task_inv s -> epoch_inv s -> task_step ops sample i s w = (Some s', w') -> epoch_inv s'.
Proof.
  intros H He Es. destruct (task_effect ops sample i s H w s' w' Es) as [e Hef].
  destruct (effect_epochs s s' e Hef He) as [Hs Ha]. split; [done|done| |by eapply task_working; [apply He|]].
  destruct (task_accepted i s w s' w' Es) as [Eq|(id & r & Er & Ep & Eh & Eq)]; rewrite Eq.
  - rewrite (effect_history _ _ _ Hef). apply accepted_app, (epoch_accepted _ He).
  - destruct (epoch_asked _ He id r Er) as (l1 & l2 & E1 & E2).
    rewrite (proj1 (epoch_working _ He id r Er) (or_introl Ep)) in E1. right. exists l1, id, (request_owner r), (l2 ++ [Accepted id]).
    split_and!; [by rewrite Eh, E1, <- app_assoc|apply elem_of_app; right; by left|done].
Qed.
End task_epochs.

Lemma call_epochs s s' e : task_inv s -> epoch_inv s -> effect s s' e -> spared s s' -> epoch_inv s'.
Proof.
  intros H He Hef Hsp. destruct (effect_epochs s s' e Hef He) as [Hs Ha]. split; [done|done| |].
  - rewrite (spared_accepted _ _ Hsp), (effect_history _ _ _ Hef). apply accepted_app, (epoch_accepted _ He).
  - eapply spared_working; try done. apply He.
Qed.

(** ** Ownership *)

(** *** What the policy does with its owner *)

Section policy_owner.
Context {W : Type} (ops : power_operations_t W).

Lemma yields_any {A B} (m : io W A) (f : A -> io W B) (post : B -> Prop) : (forall a, yields (f a) post) -> yields (io_bind m f) post.
Proof. intros H. by eapply yields_bind with (p := fun _ => True). Qed.

Definition same_owner (p : power_policy_t) (m : io W power_policy_t) : Prop := yields m (fun q => owner q = owner p).
Definition same_owner2 (p : power_policy_t) (m : io W (bool * power_policy_t)) : Prop := yields m (fun r => owner r.2 = owner p).

Lemma stop_owner p : same_owner2 p (stop ops p).
Proof. apply yields_any. intros ok. apply yields_ret. by destruct ok. Qed.

Lemma begin_cooling_owner p now target : same_owner p (begin_cooling ops p now target).
Proof.
  apply yields_any. intros ?. eapply yields_bind; [apply stop_owner|]. intros [ok q] E. by apply yields_ret.
Qed.

Lemma fail_unless_cancelled_owner p : same_owner p (fail_unless_cancelled ops p).
Proof. apply yields_any. intros ?. eapply yields_bind; [apply stop_owner|]. intros [ok q] E. by apply yields_ret. Qed.

Lemma ensure_stopped_owner p : same_owner p (ensure_stopped ops p).
Proof.
  unfold same_owner, ensure_stopped. destruct (stopped p); [by apply yields_ret|].
  eapply yields_bind; [apply stop_owner|]. intros [ok q] E. by apply yields_ret.
Qed.

Lemma pause_owner p : same_owner2 p (power_policy_pause ops p).
Proof. unfold same_owner2, power_policy_pause. cbn zeta. destruct (owned _); [by apply yields_ret|]. exact (stop_owner (p <| paused := true |>)). Qed.

Ltac owner_step :=
  lazymatch goal with
  | |- yields (io_ret _) _ => apply yields_ret
  | |- yields (io_bind (begin_cooling _ ?p _ _) _) _ => eapply yields_bind; [apply begin_cooling_owner|]; intros ? ?
  | |- yields (io_bind (fail_unless_cancelled _ ?p) _) _ => eapply yields_bind; [apply fail_unless_cancelled_owner|]; intros ? ?
  | |- yields (io_bind _ _) _ => apply yields_any; intros ?
  | |- yields (fail_unless_cancelled _ _) _ => apply fail_unless_cancelled_owner
  | |- yields (begin_cooling _ _ _ _) _ => apply begin_cooling_owner
  | |- yields (ensure_stopped _ _) _ => apply ensure_stopped_owner
  | |- yields (if ?c then _ else _) _ => destruct c
  | |- yields (let '(_, _) := ?x in _) _ => destruct x
  | |- yields (match ?x with _ => _ end) _ => destruct x
  end.

Lemma resume_owner p : same_owner2 p (power_policy_resume ops p).
Proof. unfold same_owner2, power_policy_resume. cbn zeta. repeat owner_step; cbn; done. Qed.

Lemma save_reduced_owner p : same_owner2 p (save_reduced ops p).
Proof. unfold same_owner2, save_reduced. repeat owner_step; done. Qed.

Lemma cooling_step_owner p now target sm pools : same_owner p (cooling_step ops p now target sm pools).
Proof.
  unfold same_owner, cooling_step. set (p0 := if _ =? _ then _ else p). assert (owner p0 = owner p) as Hp by (unfold p0; by destruct (_ =? _)).
  destruct (cooled p0 now sm) as [cool q] eqn:Ec. assert (owner q = owner p) as Hq.
  { rewrite <- Hp. unfold cooled in Ec. repeat (case_match; [by injection Ec as <- <-|]). by injection Ec as <- <-. }
  destruct (negb cool); [by apply yields_ret|]. eapply yields_bind; [apply save_reduced_owner|]. intros [saved q'] E. cbn in E.
  rewrite <- Hq, <- E. repeat owner_step; done.
Qed.

Lemma step_owner p now target sm pools hw persisted : same_owner p (power_policy_step ops p now target sm pools hw persisted).
Proof.
  unfold same_owner, power_policy_step, running_step. cbn zeta. destruct (owned _); [by apply yields_ret|].
  set (q := if hw || _ then _ else _). assert (owner q = owner p) as Hq by (unfold q; by destruct (_ || _)). rewrite <- Hq. clearbody q.
  destruct (fault q); [apply ensure_stopped_owner|].
  eapply yields_bind with (p := fun q' => owner q' = owner q); [destruct (_ && _); [apply begin_cooling_owner|by apply yields_ret]|].
  intros q' Hq'. rewrite <- Hq'. destruct (_ && _); [by apply yields_ret|]. destruct (cooling q'); [apply cooling_step_owner|].
  destruct (_ || _ || _); [apply ensure_stopped_owner|].
  eapply yields_bind with (p := fun r => owner r.2 = owner q').
  { destruct (running q'); [by apply yields_ret|apply resume_owner]. }
  intros [resumed p1] E. cbn in E. rewrite <- E. repeat owner_step; done.
Qed.

(** Maintenance is acquired by the one that was asked for, from nobody. *)
Lemma acquire_owner p o :
  yields (power_policy_maintenance ops p o true) (fun r =>
    if r.1 then owned p = false /\ o <> POWER_OWNER_NONE /\ owner r.2 = o else owner r.2 = owner p).
Proof.
  unfold power_policy_maintenance. case_bool_decide; [by apply yields_ret|]. destruct (owned p) eqn:Eo; [by apply yields_ret|]. cbn zeta.
  apply yields_any. intros ok. destruct ok; by apply yields_ret.
Qed.

(** It is released for the one that has it. *)
Lemma release_owner p o :
  yields (power_policy_maintenance ops p o false) (fun r =>
    if bool_decide (owner p = o) && owned p then owner r.2 = POWER_OWNER_NONE else r.1 = false /\ owner r.2 = owner p).
Proof.
  unfold power_policy_maintenance, owned. destruct (decide (o = POWER_OWNER_NONE)) as [->|Ho].
  { rewrite bool_decide_true by done. apply yields_ret. cbn. by destruct (owner p). }
  rewrite (bool_decide_false (o = POWER_OWNER_NONE)) by done. destruct (decide (owner p = o)) as [E|E].
  - rewrite (bool_decide_true (owner p = o)) by done. cbn [negb]. rewrite (bool_decide_false (owner p = POWER_OWNER_NONE)) by congruence.
    cbn. apply yields_any. intros ok. destruct ok; by apply yields_ret.
  - rewrite (bool_decide_false (owner p = o)) by done. cbn. by apply yields_ret.
Qed.
End policy_owner.

(** *** Who has been granted maintenance *)

Definition holder_event (h : option (nat * power_owner_t)) (e : task_event) : option (nat * power_owner_t) :=
  match e with Granted id o => Some (id, o) | Freed _ => None | _ => h end.

(** The request that was granted maintenance which has not been released since. *)
Definition holder (h : list task_event) : option (nat * power_owner_t) := foldl holder_event None h.

(** An acquisition that is not yet completed. *)
Definition pending (s : power_task_t) : option power_owner_t :=
  match pc s with
  | Processed id true | Stored id true | RollingBack id true =>
      r ← requests s !! id; if decide (kind r = POWER_REQUEST_ACQUIRE) then Some (request_owner r) else None
  | _ => None
  end.

Record owns (o : power_owner_t) (h : option (nat * power_owner_t)) (pend : option power_owner_t) (flag : bool) : Prop := mk_owns {
  owns_owner : o = default POWER_OWNER_NONE (pend ∪ (snd <$> h));
  owns_pending : forall o', pend = Some o' -> h = None /\ o' <> POWER_OWNER_NONE;
  owns_held : forall id o', h = Some (id, o') -> o' <> POWER_OWNER_NONE;
  owns_flag : o <> POWER_OWNER_NONE -> flag = true;
}.

Record own_inv (s : power_task_t) : Prop := mk_own_inv {
  own_owns : owns (owner (policy s)) (holder (history s)) (pending s) (maintenance s);
  own_acquiring : forall id, pc s = Acquiring id -> maintenance s = true;
  own_released : forall id, pc s = Released id true -> owner (policy s) = POWER_OWNER_NONE;
}.

Lemma owned_spec p : owned p = false <-> owner p = POWER_OWNER_NONE.
Proof. unfold owned. case_bool_decide; by split. Qed.

Lemma holder_app h e : holder (h ++ e) = foldl holder_event (holder h) e.
Proof. unfold holder. by rewrite foldl_app. Qed.

(** Nobody has it, so nobody was granted it. *)
Lemma owns_none h pend flag : owns POWER_OWNER_NONE h pend flag -> h = None /\ pend = None.
Proof.
  intros [Ho Hp Hh _]. destruct pend as [o|].
  - destruct (Hp o eq_refl) as [-> Hne]. cbn in Ho. congruence.
  - destruct h as [[id o]|]; [|done]. cbn in Ho. by destruct (Hh id o eq_refl).
Qed.

Lemma owns_free flag : owns POWER_OWNER_NONE None None flag.
Proof. by split. Qed.

(** A step that leaves the owner alone. *)
Lemma own_still s s' :
  own_inv s -> owner (policy s') = owner (policy s) -> holder (history s') = holder (history s) -> pending s' = pending s ->
  (maintenance s' = maintenance s \/ maintenance s' = true) -> (forall id, pc s' = Acquiring id -> maintenance s' = true) ->
  (forall id, pc s' <> Released id true) -> own_inv s'.
Proof.
  intros [[Ho Hp Hh Hf] _ _] Eo Eh Ep Em Ha Hr. split; [|done|by intros id E%Hr].
  rewrite Eo, Eh, Ep. split; try done. intros H. destruct Em as [-> | ->]; auto.
Qed.

Section task_owner.
Context {W : Type} (ops : power_operations_t W) (sample : io W power_sample_t).
Abbreviation world := ((bool * W) * list power_event)%type.

Lemma leads_acts s m k (post : bool * power_policy_t -> Prop) (P : power_task_t -> Prop) :
  yields (m (policy s)) post -> (forall ok p, post (ok, p) -> P (k ok (s <| policy := p |>))) -> leads (act (W := W) m k s) P.
Proof.
  intros Hm H w s' w' E. destruct (act_spec m k s w) as (ok & p & w1 & E0 & E1). rewrite E1 in E. injection E as <- <-.
  apply H. specialize (Hm w). by rewrite E0 in Hm.
Qed.

Lemma leads_yields {A} (m : io world A) f (post : A -> Prop) P : yields m post -> (forall a, post a -> leads (f a) P) -> leads (io_bind m f) P.
Proof. intros Hm H w s' w'. unfold io_bind. specialize (Hm w). destruct (m w) as [a w1]. by apply H. Qed.

(** The owner's release. *)
Lemma release_owns s o k :
  own_inv s -> pending s = Some o \/ pending s = None ->
  (forall ok p, policy (k ok p) = policy p /\ history (k ok p) = history p /\ pending (k ok p) = None /\ maintenance (k ok p) = maintenance p /\
    (forall id, pc (k ok p) <> Acquiring id)) ->
  (pending s = Some o -> owner (policy s) = o /\ o <> POWER_OWNER_NONE) ->
  (forall ok p id, pc (k ok p) = Released id true -> ok = true) ->
  leads (act (W := W) (maintain ops o false) k (log_release o s)) own_inv.
Proof.
  intros Hi Hpend Hk Hown Hrel. pose proof Hi as [Hs _ _].
  assert (policy (log_release o s) = policy s /\ maintenance (log_release o s) = maintenance s) as [Epo Em]
    by (unfold log_release; by destruct (_ && _)).
  eapply leads_acts; [rewrite Epo; apply release_owner|]. intros ok p Hp. cbn [fst snd] in Hp.
  destruct (Hk ok ((log_release o s) <| policy := p |>)) as (E1 & E2 & E3 & E4 & E5).
  destruct (bool_decide (owner (policy s) = o) && owned (policy s)) eqn:E.
  - split; rewrite ?E1, ?E2, ?E3, ?E4; cbn -[holder]; [|by intros id H%E5|by intros]. rewrite Hp.
    replace (holder (history (log_release o s))) with (@None (nat * power_owner_t)); [apply owns_free|].
    unfold log_release. rewrite E. cbn -[holder]. by rewrite holder_app.
  - destruct Hp as [-> Hp]. assert (pending s = None) as Ep.
    { destruct Hpend as [Hpend|]; [|done]. destruct (Hown Hpend) as [<- Ho].
      apply andb_false_iff in E as [E|E%owned_spec]; [by rewrite bool_decide_true in E|done]. }
    split; rewrite ?E1, ?E2, ?E3, ?E4; cbn -[holder]; [|by intros id H%E5|by intros id H%Hrel].
    rewrite Hp, Em. unfold log_release. rewrite E. by rewrite <- Ep.
Qed.

Lemma acquire_owns s id r :
  own_inv s -> working s -> pc s = Acquiring id -> requests s !! id = Some r ->
  leads (act (W := W) (maintain ops (request_owner r) true) (fun ok => go (Processed id ok)) s) own_inv.
Proof.
  intros Hi Hw E Er. assert (kind r = POWER_REQUEST_ACQUIRE) as Hk by (by apply (Hw id r Er)).
  pose proof Hi as [Hs Ha _]. specialize (Ha id E).
  eapply leads_acts; [apply acquire_owner|]. intros ok p Hp. cbn [fst snd] in Hp. split; [|done|done]. cbn -[holder].
  assert (pending s = None) as Ep by (unfold pending; by rewrite E). rewrite Ep in Hs. rewrite Ha in *.
  unfold pending. cbn -[holder]. destruct ok; [|by rewrite Hp]. rewrite Er. cbn -[holder]. rewrite decide_True by done.
  destruct Hp as (Ho%owned_spec & Hne & ->). rewrite Ho in Hs. apply owns_none in Hs as [-> _]. split; try done. by intros o' [= <-].
Qed.

Lemma complete_owns s id ok r :
  own_inv s -> pc s = Stored id ok -> requests s !! id = Some r -> own_inv (complete_request id ok r s).
Proof.
  intros Hi E Er. pose proof Hi as [Hs _ _]. unfold complete_request.
  assert (pending s = if ok && bool_decide (kind r = POWER_REQUEST_ACQUIRE) then Some (request_owner r) else None) as Ep.
  { unfold pending. rewrite E. destruct ok; [|done]. rewrite Er. cbn. case_decide; [by rewrite bool_decide_true|by rewrite bool_decide_false]. }
  destruct (request_state r).
  - destruct (ok && _).
    + split; [|done|done]. cbn -[holder]. rewrite holder_app. cbn. destruct Hs as [Ho Hp Hh Hf]. rewrite Ep in Ho, Hp.
      destruct (Hp _ eq_refl) as [Hn Hne]. rewrite Hn in Ho. cbn in Ho. split; try done. by intros id' o' [= <- <-].
    + apply (own_still s); try done. by left.
  - apply (own_still s); try done; [|by left]. unfold pending. rewrite E. cbn. by destruct ok.
  - apply (own_still s); try done; [|by left]. unfold pending. rewrite E. cbn. by destruct ok.
Qed.

Lemma task_owner i s : own_inv s -> working s -> leads (task_step ops sample i s) own_inv.
Proof.
  intros Hi Hw. unfold task_step. destruct (pc s) eqn:E; cbn zeta;
    try (assert (pending s = None) as Ep by (unfold pending; by rewrite E)).
  - apply leads_ret. destruct (queue s); apply (own_still s); try done; by left.
  - apply leads_request. intros r Er. apply leads_ret. apply (own_still s); try done. by left.
  - apply leads_request. intros r Er. unfold decide_request. destruct (kind r) eqn:Ek.
    + eapply leads_acts; [apply pause_owner|]. intros ok p Hp. apply (own_still s); try done; [|by left].
      rewrite Ep. unfold pending. cbn. rewrite Er. cbn. rewrite decide_False by congruence. by destruct ok.
    + apply leads_ret. destruct (_ && _); apply (own_still s); try done; by left.
    + apply leads_ret. destruct cancelled; apply (own_still s); try done; [by left|by right].
    + apply release_owns; try done; [by right|by rewrite Ep|]. by intros ok p id' [= -> ->].
  - apply leads_request. intros r Er. apply leads_ret. apply (own_still s); try done; [|by left]. cbn -[holder]. by rewrite holder_app.
  - eapply leads_acts; [apply resume_owner|]. intros ok p Hp. apply (own_still s); try done; [|by left].
    rewrite Ep. unfold pending. cbn. destruct ok; [|done]. destruct (requests s !! id) as [r|] eqn:Er; [|done]. cbn.
    rewrite decide_False; [done|]. rewrite (proj1 (Hw id r Er)) by (by right). done.
  - apply leads_request. intros r Er. by apply acquire_owns.
  - apply leads_ret. assert (pending (go (Processed id ok) (if ok then s <| maintenance := false |> else s)) = None) as Ep'.
    { unfold pending. destruct ok; [|done]. cbn. destruct (requests s !! id) as [r|] eqn:Er; [|done]. cbn.
      rewrite decide_False; [done|]. by rewrite (proj2 (proj2 (Hw id r Er)) _ E). }
    destruct ok; [|apply (own_still s); try done; by left]. pose proof (own_released s Hi id E) as Hn. pose proof Hi as [Hs _ _].
    split; [|done|done]. rewrite Ep'. cbn -[holder]. rewrite Hn in *. by apply owns_none in Hs as [-> _].
  - apply leads_request. intros r Er. apply leads_ret. apply (own_still s); try done; [|by left].
    unfold pending. rewrite E. cbn. destruct ok; [|done]. by rewrite lookup_insert_eq, Er.
  - apply leads_request. intros r Er. apply leads_ret. by apply complete_owns.
  - apply leads_request. intros r Er. destruct (ok && bool_decide (kind r = POWER_REQUEST_ACQUIRE)) eqn:Eg.
    + apply andb_true_iff in Eg as [-> Hk%bool_decide_eq_true]. assert (pending s = Some (request_owner r)) as Ep by (unfold pending; rewrite E, Er; cbn; by rewrite decide_True).
      apply release_owns; try done; [by left|]. intros _. pose proof Hi as [[Ho Hp _ _] _ _]. rewrite Ep in Ho, Hp.
      destruct (Hp _ eq_refl) as [Hn Hne]. rewrite Hn in Ho. by split.
    + apply leads_ret. apply (own_still s); try done; [|by left]. unfold pending. rewrite E. cbn. destruct ok; [|done]. rewrite Er. cbn.
      cbn in Eg. apply bool_decide_eq_false in Eg. by rewrite decide_False.
  - destruct (owned (policy s)); [apply leads_ret; apply (own_still s); try done; by left|].
    eapply leads_acts; [apply pause_owner|]. intros ok p Hp. apply (own_still s); try done. by left.
  - apply leads_ret. pose proof Hi as [[Ho Hp Hh Hf] _ _]. rewrite Ep in *. split; [|done|done]. cbn -[holder]. split; try done.
    intros Hne. destruct (owned (policy s)) eqn:Eo; [done|]. by apply owned_spec in Eo.
  - apply leads_request. intros r Er. apply leads_ret. apply (own_still s); try done. by left.
  - apply leads_release. intros m. apply (own_still s); try done. by left.
  - destruct (_ && _ && _); [|apply leads_ret; apply (own_still s); try done; by left].
    eapply leads_acts; [apply pause_owner|]. intros ok p Hp. apply (own_still s); try done. by left.
  - destruct (owned (policy s)); [|apply leads_bind; intros sm]; apply leads_ret; apply (own_still s); try done; by left.
  - eapply leads_yields; [apply step_owner|]. intros p Hp. apply leads_ret. apply (own_still s); try done; [|by left].
    cbn. rewrite Hp. by destruct (in_self_test_finished i).
  - unfold report. cbn zeta. apply leads_bind. intros ?. apply leads_ret. destruct (_ && _); apply (own_still s); try done; by left.
  - apply leads_ret. apply (own_still s); try done. by left.
Qed.
End task_owner.

Lemma answer_holder id kd o result s : holder (history (answer id kd o result s)) = holder (history s).
Proof. cbn -[holder]. by rewrite holder_app. Qed.

Lemma call_holder chance id s s' : call_step chance id s = Some s' -> holder (history s') = holder (history s).
Proof.
  unfold call_step. destruct (calls s !! id) as [[]|]; try done.
  1: { intros [= <-]. destruct chance; [|apply answer_holder]. cbn -[holder]. by rewrite holder_app. }
  all: try (destruct (requests s !! id) as [r|] eqn:Er; cbn [mbind option_bind]; [|done]).
  - destruct (_ <? _)%nat; [by intros [= <-]|]. destruct (release_request id s) as [s1|] eqn:E1; cbn [mbind option_bind]; [|done].
    destruct (release_request id s1) as [s2|] eqn:E2; cbn [mbind option_bind]; [|done]. intros [= <-]. rewrite answer_holder.
    apply release_spared in E1 as [_ <-]. by apply release_spared in E2 as [_ <-].
  - destruct (completion r); [by intros [= <-]|]. destruct chance; [by intros [= <-]|done].
  - intros [= <-]. by destruct (request_state r).
  - intros [= <-]. cbn -[holder]. by rewrite holder_app.
  - by intros [= <-].
  - destruct (release_request id s) as [s1|] eqn:E1; cbn [mbind option_bind]; [|done]. intros [= <-]. rewrite answer_holder.
    by apply release_spared in E1 as [_ <-].
Qed.

Lemma begin_holder kd o s : holder (history (begin_call kd o s)) = holder (history s).
Proof. destruct kd; cbn -[holder]; by rewrite ?holder_app. Qed.

(** A call leaves the pending acquisition alone. *)
Lemma call_pending s s' e : task_inv s -> task_inv s' -> effect s s' e -> spared s s' -> pending s' = pending s.
Proof.
  intros H H' He Hsp. unfold pending. rewrite (spared_pc _ _ Hsp).
  assert (forall id, handles (pc s) = Some id -> exists r r', requests s !! id = Some r /\ requests s' !! id = Some r' /\
    kind r' = kind r /\ request_owner r' = request_owner r) as Hk.
  { intros id Eh. destruct (at_request s id H Eh) as (r & Er & _). assert (handles (pc s') = Some id) as Eh' by (by rewrite (spared_pc _ _ Hsp)).
    destruct (at_request s' id H' Eh') as (r' & Er' & _). exists r, r'.
    destruct (effect_requests _ _ _ He id r' Er') as [(r0 & E0 & [-> -> _ _] & _)|(_ & E & _)]; [|congruence].
    rewrite Er in E0. by injection E0 as ->. }
  destruct (pc s) as [|id|id c|id|id|id|id ok|id ok|id ok|id ok|id|id|id|id| | |sm| |]; try done; destruct ok; try done;
    destruct (Hk id eq_refl) as (r & r' & -> & -> & E1 & E2); cbn; by rewrite E1, E2.
Qed.

Lemma call_owner s s' e :
  task_inv s -> task_inv s' -> effect s s' e -> spared s s' -> holder (history s') = holder (history s) -> own_inv s -> own_inv s'.
Proof.
  intros H H' He Hsp Hh [Hs Ha Hr]. split; rewrite ?(spared_policy _ _ Hsp), ?(spared_pc _ _ Hsp), ?(spared_flag _ _ Hsp), ?Hh; try done.
  by rewrite (call_pending s s' e).
Qed.

(** *** Whoever was granted maintenance is told so *)

Record grant_inv (s : power_task_t) : Prop := mk_grant_inv {
  grant_told : forall id o, Granted id o ∈ history s ->
    (exists r, requests s !! id = Some r /\ is_Some (calls s !! id) /\ kind r = POWER_REQUEST_ACQUIRE /\ request_owner r = o /\ succeeded r = true) \/
    Answered id POWER_REQUEST_ACQUIRE o true ∈ history s;
  grant_succeeded : forall id r, requests s !! id = Some r -> kind r = POWER_REQUEST_ACQUIRE -> succeeded r = true -> Granted id (request_owner r) ∈ history s;
  grant_answered : forall id o, Answered id POWER_REQUEST_ACQUIRE o true ∈ history s -> Granted id o ∈ history s;
}.

Lemma effect_grant s s' e : grant_inv s -> effect s s' e -> grant_inv s'.
Proof.
  intros [Ht Hs Ha] He.
  split.
  - intros id o. rewrite (effect_history _ _ _ He). intros [Hin|Hin]%elem_of_app.
    + destruct (Ht id o Hin) as [(r & Er & [c Ec] & Hk & Ho & Hr)|Hin']; [|right; apply elem_of_app; by left].
      destruct (effect_calls _ _ _ He id c r Ec Er) as [[Hc [r' Er']]|Hin'].
      * left. exists r'. destruct (effect_requests _ _ _ He id r' Er') as [(r0 & E0 & [Kk Ko _ Kc] & _)|(_ & E & _)]; [|congruence].
        rewrite Er in E0. injection E0 as <-. unfold succeeded in Hr |- *. apply andb_true_iff in Hr as [Hst%bool_decide_eq_true Hsu].
        destruct (Kc Hst) as [-> ->]. rewrite Kk, Ko, bool_decide_true by done. by split_and!.
      * right. apply elem_of_app. right. by rewrite Hk, Ho, Hr in Hin'.
    + destruct (effect_grants _ _ _ He id o Hin) as (r' & Er' & Hk & Ho & Hr & Hc). left. by exists r'.
  - intros id r' Er' Hk Hr. rewrite (effect_history _ _ _ He). apply elem_of_app.
    destruct (effect_requests _ _ _ He id r' Er') as [(r & Er & [Kk Ko _ _] & Hsucc)|(_ & _ & _ & E)]; [|congruence].
    rewrite Ko. rewrite Kk in Hk. destruct (Hsucc Hr Hk) as [Hr0|Hin]; [left; by apply Hs|by right].
  - intros id o. rewrite (effect_history _ _ _ He). intros [Hin|Hin]%elem_of_app; apply elem_of_app; left; [by apply Ha|].
    destruct (effect_answers _ _ _ He id o Hin) as (r & Er & Hk & <- & Hr). by apply Hs.
Qed.

(** ** Every reachable state *)

Record power_inv (s : power_task_t) : Prop := mk_power_inv {
  power_requests : task_inv s;
  power_epochs : epoch_inv s;
  power_owner : own_inv s;
  power_grants : grant_inv s;
}.

Lemma power_call s s' e :
  power_inv s -> task_inv s' -> effect s s' e -> spared s s' -> holder (history s') = holder (history s) -> power_inv s'.
Proof.
  intros [H He Ho Hg] H' Hef Hsp Hh. split; [done|by apply (call_epochs s s' e)|by apply (call_owner s s' e)|by apply (effect_grant s s' e)].
Qed.

Section reachable.
Context {W : Type} (ops : power_operations_t W) (sample : io W power_sample_t).
Context (booted : bool -> W -> Prop) (env : W -> W -> Prop).

Lemma power_init_inv board_ok s : task_init ops board_ok = Some s -> power_inv s.
Proof.
  unfold task_init, power_policy_init. destruct (_ || _); [done|]. cbn. intros [= <-]. split.
  - split; [|constructor|done]. intros id. cbn. by rewrite !lookup_empty.
  - split; [done| |by left|]; intros id r; cbn; by rewrite lookup_empty.
  - split; [by split|done|done].
  - split; cbn.
    + by intros id o ?%elem_of_nil.
    + intros id r. by rewrite lookup_empty.
    + by intros id o ?%elem_of_nil.
Qed.

Lemma power_step_inv x y : power_inv x.1 -> power_task_step ops sample env x y -> power_inv y.1.
Proof.
  intros Hi Hs. pose proof Hi as [H He Ho Hg]. destruct Hs as [kd o s w|chance id s s' w E|i s s' w w' E|s w|expired s w|s f x x' log E]; cbn in *.
  - destruct (begin_effect kd o s H) as (e & Hef & _). eapply power_call; try done.
    + by apply begin_inv.
    + apply begin_spared.
    + apply begin_holder.
  - destruct (call_effect chance id s s' H E) as [e Hef]. eapply power_call; try done.
    + by eapply call_step_inv.
    + by eapply call_spared.
    + by eapply call_holder.
  - destruct (task_goes ops sample i s H w) as (s1 & w1 & E1 & H1). rewrite E in E1. injection E1 as <- <-.
    destruct (task_effect ops sample i s H w s' w' E) as [e Hef].
    split; [done|by apply (task_epochs ops sample i s w s' w')|by apply (task_owner ops sample i s Ho (epoch_working _ He) w s' w')|by apply (effect_grant s s' e)].
  - apply (power_call s _ []); [done|by destruct H|by apply effect_plain|done|done].
  - unfold POWER_MANAGEMENT_wait_started. destruct (boot_complete s); [done|]. destruct expired; [|done]. cbn.
    eapply power_call; [done|by apply revoke_inv|apply revoke_effect|done|]. cbn -[holder]. by rewrite holder_app.
  - done.
Qed.

Lemma power_reachable_inv s w : power_task_reachable ops sample booted env (s, w) -> power_inv s.
Proof.
  intros H. change (power_inv (s, w).1). revert H. apply (reachable_invariant _ _ (fun x : power_task_t * ((bool * W) * list power_event) => power_inv x.1)).
  - intros ? [board_ok s0 x E _]. by eapply power_init_inv.
  - intros x y Hx Hxy. by eapply power_step_inv.
Qed.

(** *** The flags of the policy *)

(** What [PowerPolicy] proves of its commands holds of the task, which gives no others. *)
Definition flags_proved (s : power_task_t) (w : (bool * W) * list power_event) : Prop := inv (policy s) (board w.2).

Lemma command_flags c p w :
  inv p (board w.2) -> inv (perform (task_ops ops) c p w).1 (board (perform (task_ops ops) c p w).2.2).
Proof.
  intros H. destruct w as [x log]. destruct (perform_keeps (task_ops ops) c p (board log) H x log) as (q & x' & evs & -> & Hk & _).
  cbn. unfold board in *. by rewrite foldl_app.
Qed.

(** An operation of the policy that is a command. *)
Lemma act_flags c m k s w s' w' :
  (forall p w, perform (task_ops ops) c p w = ((m p w).1.2, (m p w).2)) -> (forall ok s0, policy (k ok s0) = policy s0) ->
  flags_proved s w -> act m k s w = (Some s', w') -> flags_proved s' w'.
Proof.
  intros Hm Hk H E. destruct (act_spec m k s w) as (ok & p & w1 & E0 & E1). rewrite E1 in E. injection E as <- <-.
  pose proof (command_flags c (policy s) w H) as Hc. rewrite Hm, E0 in Hc. unfold flags_proved. by rewrite Hk.
Qed.

Lemma pause_command p w :
  perform (task_ops ops) Pause p w = ((power_policy_pause (traced_ops (task_ops ops)) p w).1.2, (power_policy_pause (traced_ops (task_ops ops)) p w).2).
Proof. cbn [perform]. unfold io_bind. by destruct (power_policy_pause _ p w) as [[ok q] w']. Qed.

Lemma resume_command p w :
  perform (task_ops ops) Resume p w = ((power_policy_resume (traced_ops (task_ops ops)) p w).1.2, (power_policy_resume (traced_ops (task_ops ops)) p w).2).
Proof. cbn [perform]. unfold io_bind. by destruct (power_policy_resume _ p w) as [[ok q] w']. Qed.

Lemma maintenance_command o acquire p w :
  perform (task_ops ops) (Maintenance o acquire) p w = ((maintain ops o acquire p w).1.2, (maintain ops o acquire p w).2).
Proof. cbn [perform]. unfold io_bind, maintain. by destruct (power_policy_maintenance _ p o acquire w) as [[ok q] w']. Qed.

Lemma flags_same s w s' w' : flags_proved s w -> policy s' = policy s -> w'.2 = w.2 -> flags_proved s' w'.
Proof. unfold flags_proved. by intros H -> ->. Qed.

Lemma log_release_policy o s : policy (log_release o s) = policy s.
Proof. unfold log_release. by destruct (_ && _). Qed.

Lemma task_flags i s w s' w' : flags_proved s w -> task_step ops sample i s w = (Some s', w') -> flags_proved s' w'.
Proof.
  intros H. unfold task_step.
  assert (forall s0, (Some s0, w) = (Some s', w') -> policy s0 = policy s -> flags_proved s' w') as Hret.
  { intros s0 [= <- <-] E. by apply (flags_same s w). }
  assert (forall c m k s0, (forall p w, perform (task_ops ops) c p w = ((m p w).1.2, (m p w).2)) ->
    (forall ok s1, policy (k ok s1) = policy s1) -> policy s0 = policy s -> act m k s0 w = (Some s', w') -> flags_proved s' w') as Hact.
  { intros c m k s0 Hm Hk E. apply (act_flags c m k s0); try done. by apply (flags_same s w). }
  destruct (pc s); cbn zeta;
    repeat match goal with |- context [with_request ?id s _] => unfold with_request; destruct (requests s !! id) as [r|]; [|done] end.
  all: try (intros E; by apply (Hret _ E)).
  - intros E. apply (Hret _ E). by destruct (queue s).
  - unfold decide_request. destruct (kind r).
    + by apply (Hact Pause); [apply pause_command|..].
    + intros E. apply (Hret _ E). by destruct (_ && _).
    + intros E. apply (Hret _ E). by destruct cancelled.
    + apply (Hact (Maintenance (request_owner r) false)); [apply maintenance_command|done|apply log_release_policy].
  - by apply (Hact Resume); [apply resume_command|..].
  - by apply (Hact (Maintenance (request_owner r) true)); [apply maintenance_command|..].
  - intros E. apply (Hret _ E). by destruct ok.
  - intros E. apply (Hret _ E). unfold complete_request. destruct (request_state r); try done. by destruct (_ && _).
  - destruct (_ && _); [|intros E; by apply (Hret _ E)].
    apply (Hact (Maintenance (request_owner r) false)); [apply maintenance_command|done|apply log_release_policy].
  - destruct (owned (policy s)); [intros E; by apply (Hret _ E)|]. by apply (Hact Pause); [apply pause_command|..].
  - unfold release_request. destruct (requests s !! id) as [r|]; cbn; [|done]. intros E. apply (Hret _ E). by destruct (_ =? _).
  - destruct (_ && _ && _); [|intros E; by apply (Hret _ E)]. by apply (Hact Pause); [apply pause_command|..].
  - destruct (owned (policy s)); [intros E; by apply (Hret _ E)|]. unfold io_bind. destruct w as [fw log]. unfold lifted.
    destruct (beside sample fw) as [sm fw']. intros [= <- <-]. by apply (flags_same s (fw, log)).
  - set (p := if in_self_test_finished i then _ else _). assert (inv p (board w.2)) as Hp.
    { unfold p. destruct (in_self_test_finished i); [|done]. destruct H as [H1 H2 H3 H4]. split; try done. intros Ho. by split; [apply H4|]. }
    pose proof (command_flags (Step (in_now_ms i) (turn_target s) s0 (in_pools_unavailable i) (in_hardware_fault i) (in_overheat_mode i)) p w Hp) as Hc.
    cbn [perform] in Hc. unfold io_bind. destruct (power_policy_step _ p _ _ _ _ _ _ w) as [q w1]. by intros [= <- <-].
  - unfold report, io_bind, set_fan_allowed. cbn zeta. destruct w as [[f x] log]. intros [= <- <-].
    apply (flags_same s ((f, x), log)); [done| |done]. by destruct (_ && _).
  - intros [= <- <-]. destruct H as [H1 H2 H3 H4]. by split.
Qed.

Lemma power_reachable_flags s w : power_task_reachable ops sample booted env (s, w) -> flags_proved s w.
Proof.
  intros H. change (flags_proved (s, w).1 (s, w).2). revert H.
  apply (reachable_invariant _ _ (fun x : power_task_t * ((bool * W) * list power_event) => flags_proved x.1 x.2)).
  - intros ? [board_ok s0 x E _]. unfold task_init, power_policy_init in E. destruct (_ || _); [done|]. injection E as <-. by apply inv_off.
  - intros x y Hx Hxy. destruct Hxy as [kd o s0 w0|chance id s0 s' w0 E|i s0 s' w0 w' E|s0 w0|expired s0 w0|s0 f x x' log E]; cbn in *.
    + eapply flags_same; [exact Hx|apply begin_spared|done].
    + eapply flags_same; [exact Hx|by apply (call_spared chance id)|done].
    + by eapply task_flags.
    + by eapply flags_same.
    + eapply flags_same; [exact Hx| |done]. unfold POWER_MANAGEMENT_wait_started. destruct (boot_complete s0); [done|]. by destruct expired.
    + by eapply flags_same.
Qed.

Lemma holder_owner s id o :
  own_inv s -> holder (history s) = Some (id, o) -> owner (policy s) = o /\ maintenance s = true /\ o <> POWER_OWNER_NONE.
Proof.
  intros [[Ho Hp Hh Hf] _ _] E. assert (pending s = None) as Ep.
  { destruct (pending s) as [o'|]; [|done]. destruct (Hp o' eq_refl). congruence. }
  rewrite Ep, E in Ho. cbn in Ho. pose proof (Hh id o E). split_and!; [done|apply Hf; congruence|done].
Qed.

(** ** Properties *)

(** C6: No party ever touches a request that is freed, and none is forgotten: in every state that
    the calls, the task and the world can reach, in any order of their steps, the task
    can take its next step, every call can once its wait has ended, and a
    request that is still allocated has one reference for each of its call and the task that
    is not done with it. *)
Theorem power_requests_held s w :
  power_task_reachable ops sample booted env (s, w) ->
  (forall i, exists s' w', task_step ops sample i s w = (Some s', w')) /\
  (forall id, is_Some (calls s !! id) -> is_Some (call_step true id s)) /\
  (forall id r, requests s !! id = Some r ->
     references r = call_weight (calls s !! id) + task_weight (position_of s id) /\ 0 < references r).
Proof.
  intros [H _ _ _]%power_reachable_inv. split_and!.
  - intros i. destruct (task_goes ops sample i s H w) as (s' & w' & E & _). by exists s', w'.
  - intros id. by apply call_goes.
  - intros id r Er. pose proof (inv_ids s H id) as Hb. rewrite Er in Hb. by destruct Hb.
Qed.

Lemma holder_granted h id o : holder h = Some (id, o) -> Granted id o ∈ h.
Proof.
  induction h as [|e h IH] using rev_ind; [done|]. rewrite holder_app. cbn -[holder]. intros E. apply elem_of_app.
  destruct e; cbn -[holder] in E; try (by left; apply IH). injection E as -> ->. right. by left.
Qed.

(** C7: Nobody owns the board unknowingly: in every reachable state, maintenance that was granted
    and not released since belongs to the policy's owner, refuses all other board I/O, and was
    answered with success to the call that acquired it or is held for that call as a completed
    success, even when its wait times out at the same moment; the policy has no other owner but
    one whose acquisition is being completed or undone; and no acquisition is answered
    with success that was not granted. *)
Theorem power_maintenance_owned s w :
  power_task_reachable ops sample booted env (s, w) ->
  (forall id o, holder (history s) = Some (id, o) ->
     owner (policy s) = o /\ (forall taken, POWER_MANAGEMENT_board_io_begin taken s = false) /\
     ((exists r, requests s !! id = Some r /\ is_Some (calls s !! id) /\ kind r = POWER_REQUEST_ACQUIRE /\ request_owner r = o /\ succeeded r = true) \/
      Answered id POWER_REQUEST_ACQUIRE o true ∈ history s)) /\
  (owner (policy s) <> POWER_OWNER_NONE ->
     POWER_MANAGEMENT_in_maintenance s = true /\ (pending s = Some (owner (policy s)) \/ exists id, holder (history s) = Some (id, owner (policy s)))) /\
  (forall id o, Answered id POWER_REQUEST_ACQUIRE o true ∈ history s -> Granted id o ∈ history s).
Proof.
  intros [_ _ Hown Hg]%power_reachable_inv. pose proof Hown as [[Ho Hp Hh Hf] _ _]. split_and!; [| |apply Hg].
  - intros id o E. destruct (holder_owner s id o Hown E) as (H1 & H2 & _). split_and!; [done| |].
    { intros taken. unfold POWER_MANAGEMENT_board_io_begin. by rewrite H2, andb_false_r. }
    apply (grant_told _ Hg). by apply holder_granted.
  - intros Hne. split; [by apply Hf|]. destruct (pending s) as [o'|].
    + left. destruct (Hp o' eq_refl) as [E _]. rewrite E in Ho. cbn in Ho. by rewrite Ho.
    + right. destruct (holder (history s)) as [[id o']|]; cbn in Ho; [|done]. exists id. by rewrite Ho.
Qed.

End reachable.

(** ** A concrete history *)

Module Demo.
(** The board of [PowerPolicy.Demo]; nothing else changes its world. *)
Definition sample : io nat power_sample_t := io_ret (PowerPolicy.Demo.sample POWER_HEALTH_OK 60).
Definition booted (board_ok : bool) (n : nat) : Prop := n = 0%nat.
Definition env (n n' : nat) : Prop := False.

Definition inputs : task_inputs := mk_inputs PowerPolicy.Demo.wanted false false false false 1000.

(** Steps to take: of the calls, of a wait that ends, and some of the task. *)
Inductive action := Begin (kd : power_request_kind_t) (o : power_owner_t) | Call (id : nat) | Turns (n : nat) | SetReady.

Abbreviation demo_state := (power_task_t * ((bool * nat) * list power_event))%type.

Fixpoint turns (n : nat) (x : demo_state) : demo_state :=
  match n with
  | O => x
  | S n => match task_step PowerPolicy.Demo.board_ops sample inputs x.1 x.2 with
           | (Some s, w) => turns n (s, w)
           | (None, _) => x
           end
  end.

Definition take (x : demo_state) (a : action) : demo_state :=
  match a with
  | Begin kd o => (begin_call kd o x.1, x.2)
  | Call id => (default x.1 (call_step true id x.1), x.2)
  | Turns n => turns n x
  | SetReady => (POWER_MANAGEMENT_set_ready x.1, x.2)
  end.

Definition initial : power_task_t :=
  mk_power_task ∅ [] ∅ 0
    (mk_power_policy false false false false false false false false zero_target POWER_OWNER_NONE 0 zero_target)
    Turning zero_target false false false false false 0 0 [].

Definition run (actions : list action) : demo_state := foldl take (initial, ((false, 0%nat), [])) actions.

Abbreviation demo_reachable := (power_task_reachable PowerPolicy.Demo.board_ops sample booted env).

Lemma turns_reachable n x : demo_reachable x -> demo_reachable (turns n x).
Proof.
  revert x. induction n as [|n IH]; intros [s w] H; [done|]. cbn. destruct (task_step _ _ _ _ _) as [[s'|] w'] eqn:E; [|done].
  apply IH. destruct H as (x0 & H0 & Hr). exists x0. split; [done|]. eapply rtc_r; [exact Hr|]. by eapply step_task.
Qed.

Lemma take_reachable x a : demo_reachable x -> demo_reachable (take x a).
Proof.
  intros H. destruct a; cbn; [| |by apply turns_reachable|].
  all: destruct x as [s w], H as (x0 & H0 & Hr); cbn.
  - exists x0. split; [done|]. eapply rtc_r; [exact Hr|]. apply step_begin.
  - destruct (call_step true id s) as [s'|] eqn:E; [|by exists x0]. exists x0. split; [done|]. eapply rtc_r; [exact Hr|].
    cbn. by eapply step_call.
  - exists x0. split; [done|]. eapply rtc_r; [exact Hr|]. apply step_ready.
Qed.

Lemma actions_reachable actions : demo_reachable (run actions).
Proof.
  unfold run. assert (demo_reachable (initial, ((false, 0%nat), []))) as H.
  { eexists. split; [|apply rtc_refl]. apply (power_task_init_intro _ booted true); [by vm_compute|done]. }
  revert H. generalize (initial, ((false, 0%nat), @nil power_event)). induction actions as [|a actions IH]; intros x H; [done|].
  apply IH, take_reachable, H.
Qed.

Definition after (actions : list action) : power_task_t := (run actions).1.
Definition world_after (actions : list action) : (bool * nat) * list power_event := (run actions).2.

Lemma after_reachable actions : demo_reachable (after actions, world_after actions).
Proof. unfold after, world_after. pose proof (actions_reachable actions) as H. by destruct (run actions). Qed.

(** An update acquires the board just as its wait ends: its request is completed first, so the
    call still learns that it owns the board; then a pause, and a resume that was asked for
    after it. *)
Definition acquired : list action :=
  [SetReady; Turns 6; Begin POWER_REQUEST_ACQUIRE POWER_OWNER_OTA; Call 0; Call 0; Turns 7; Call 0; Turns 7].
Definition answered : list action := acquired ++ [Call 0; Call 0; Call 0].
Definition resumed : list action :=
  answered ++ [Begin POWER_REQUEST_RELEASE POWER_OWNER_OTA; Call 1; Call 1; Turns 20;
               Begin POWER_REQUEST_RESUME POWER_OWNER_NONE; Call 2; Call 2; Turns 20].

Example acquisition : holder (history (after acquired)) = Some (0%nat, POWER_OWNER_OTA) /\ calls (after acquired) !! 0%nat = Some TimedOut.
Proof. by vm_compute. Qed.

Lemma power_requests_held_witness :
  exists r, requests (after acquired) !! 0%nat = Some r /\
    references r = call_weight (Some TimedOut) + task_weight (position_of (after acquired) 0) /\ 0 < references r.
Proof.
  destruct (power_requests_held PowerPolicy.Demo.board_ops sample booted env (after acquired) (world_after acquired)
    (after_reachable acquired)) as (_ & _ & H).
  eexists. split; [by vm_compute|]. apply (H 0%nat). by vm_compute.
Defined.

Lemma power_maintenance_owned_witness :
  owner (policy (after answered)) = POWER_OWNER_OTA /\ POWER_MANAGEMENT_board_io_begin true (after answered) = false /\
  Granted 0 POWER_OWNER_OTA ∈ history (after answered).
Proof.
  destruct (power_maintenance_owned PowerPolicy.Demo.board_ops sample booted env (after answered) (world_after answered)
    (after_reachable answered)) as (H & _ & Ha).
  destruct (H 0%nat POWER_OWNER_OTA) as (H1 & H2 & _); [by vm_compute|]. split; [exact H1|]. split; [exact (H2 true)|].
  apply Ha. change (Answered 0 POWER_REQUEST_ACQUIRE POWER_OWNER_OTA true ∈ history (after answered)).
  refine (proj1 (bool_decide_eq_true _) _). by vm_compute.
Defined.

End Demo.
