(* ===== verification/BoardTask.v ===== *)
(** * The power task over the Bonanza board

    The composition of [PowerTask] with the operation table of [BoardTable]: in every state
    that the task, its callers, the monitor of the board and a changing world can reach, the
    hardware is powered down while somebody owns the board or the policy counts it as stopped. *)

From stdpp Require Import gmap.
From S2P Require Import Prelude Trace Float32 Serial Work BalancedRamp PowerPolicy Frequency Power Vcore Topology Validation Supervisor Bridge LeaseGuard Telemetry Transport RuntimeHealth RunningEvidence Bringup BoardStages BoardEvidence BoardPower BoardGate BoardSafety BoardMaintenance BoardTable PowerTask PowerRequests PowerOwner.
Open Scope string_scope.
Open Scope list_scope.
Open Scope Z_scope.
Open Scope io_scope.

(** ** What each operation of the table does *)

Section table.
Context {V : Type} (k : board_config_t) (b : board_services V) (settings : settings_services V).
Context (Hdev : bonanza_device (vcore_device b) = true).

Abbreviation t := (traced_services b).
Abbreviation HB := (bzm_runtime_state_t * (V * list board_event))%type.
Abbreviation board_world := (HB * list validation_event)%type.

(** The settings leave no trace in the log of the hardware. *)
Definition traced_settings : settings_services (V * list board_event) :=
  {| nvs_set_asic_voltage := fun mv => lifted (nvs_set_asic_voltage settings mv);
     nvs_set_asic_frequency := fun f => lifted (nvs_set_asic_frequency settings f);
     nvs_set_auto_fan_speed := fun on => lifted (nvs_set_auto_fan_speed settings on);
     nvs_set_manual_fan_speed := fun percent => lifted (nvs_set_manual_fan_speed settings percent);
     nvs_set_overheat_mode := fun on => lifted (nvs_set_overheat_mode settings on);
     publish_overheat_mode := fun on => lifted (publish_overheat_mode settings on);
     TPS546_init_vout_min := TPS546_init_vout_min settings |}.

Definition board_operations : power_operations_t board_world := bonanza_operations k t traced_settings.
Definition board_sample : io board_world power_sample_t := BoardPower_sample k t.

(** A board between two operations; once allocated it is active. *)
Definition sound : board_world -> Prop := with_state (gated k) set_up.

Lemma keeps_sound {A} (m : io board_world A) :
  keeps (gated k) m -> (forall r0 hw0, keeps (confined True r0 hw0) m) -> keeps sound m.
Proof.
  intros Hg Hc w [Hw Ha]. split; [by apply Hg|]. unfold set_up. destruct (Hc w.1.1 w.1.2.2 w (confined_start _ w)) as [-> -> _ _]. done.
Qed.

(** What an operation other than a start keeps. *)
Definition steady {A} (m : io board_world A) : Prop := keeps sound m /\ keeps (off k) m.

Lemma steady_intro {A} (m : io board_world A) :
  keeps (gated k) m -> (forall free r0 hw0, keeps (confined free r0 hw0) m) -> steady m.
Proof. intros Hg Hc. split; [by apply keeps_sound|]. by apply confined_keeps_off. Qed.

Lemma steady_ret {A} (a : A) : steady (io_ret a).
Proof. split; apply keeps_ret. Qed.

Lemma steady_bind {A C} (m : io board_world A) (f : A -> io board_world C) : steady m -> (forall a, steady (f a)) -> steady (io_bind m f).
Proof. intros [H1 H2] Hf. split; apply keeps_bind; try done; intros a; apply Hf. Qed.

Lemma steady_quiet {A} (m : io V A) : steady (board (device (lifted m))).
Proof. apply steady_intro; [apply keeps_quiet, _|]. intros. apply keeps_quiet, _. Qed.

Lemma start_sound : keeps sound (op_start board_operations).
Proof using Hdev. apply keeps_sound; [by apply start_keeps|]. intros. by apply start_confined. Qed.

Lemma stop_steady : steady (op_stop board_operations).
Proof using Hdev. apply steady_intro; [by apply board_stop_keeps|]. intros. by apply board_stop_confined. Qed.

Lemma apply_steady target : steady (op_apply board_operations target).
Proof using Hdev. apply steady_intro; [by apply apply_keeps|]. intros. by apply apply_confined. Qed.

Lemma maintenance_steady o acquire : steady (op_maintenance board_operations o acquire).
Proof using Hdev. apply steady_intro; [by apply board_maintenance_keeps|]. intros. by apply maintenance_confined. Qed.

Lemma sample_steady : steady board_sample.
Proof. apply steady_intro; [apply board_sample_keeps|]. intros. apply sample_confined. Qed.

Lemma overheat_steady enabled : steady (op_overheat board_operations enabled).
Proof.
  cbn. unfold set_overheat, setting. apply steady_bind.
  - destruct enabled; [|apply steady_ret]. apply steady_bind; [apply steady_quiet|]. intros ?. apply steady_quiet.
  - intros ?. apply steady_bind; [apply steady_quiet|]. intros ?. apply steady_quiet.
Qed.

Lemma save_steady target : steady (op_save_target board_operations target).
Proof.
  cbn. unfold save_target, setting, and_then. destruct (saved_target _ _) as [saved|]; [|apply steady_ret].
  do 3 (apply steady_bind; [apply steady_quiet|]; intros ?). destruct (_ =? _); [|apply steady_ret].
  apply steady_bind; [apply steady_quiet|]. intros ?. apply steady_ret.
Qed.

Lemma cancelled_steady : steady (BoardTable.cancelled t).
Proof.
  apply steady_intro; [|intros free r0 hw0]; unfold BoardTable.cancelled, stop_or_no_pools; traced_calls;
    (apply keeps_board_bind; [apply keeps_quiet, _|]; intros []; [apply keeps_board_ret|apply keeps_quiet, _]).
Qed.

(** A stop that succeeds, and maintenance that is granted, find the board off. *)
Lemma stop_proves : hoare sound (op_stop board_operations) (fun ok w => ok = true -> off k w).
Proof using Hdev. exact (stop_off k b Hdev). Qed.

Lemma acquire_proves o : hoare sound (op_maintenance board_operations o true) (fun ok w => ok = true -> off k w).
Proof using Hdev. exact (maintenance_off k b Hdev o). Qed.
End table.

(** ** The policy over the table *)

Section policy.
Context {V : Type} (k : board_config_t) (b : board_services V) (settings : settings_services V).
Context (Hdev : bonanza_device (vcore_device b) = true).

Abbreviation t := (traced_services b).
Abbreviation board_world := ((bzm_runtime_state_t * (V * list board_event)) * list validation_event)%type.
Abbreviation world := ((bool * board_world) * list PowerPolicy.power_event)%type.
Abbreviation ops := (PowerPolicy.traced_ops (task_ops (board_operations k b settings))).

(** Whatever the operations have proved off is off. *)
Record secured (w : world) : Prop := mk_secured {
  secured_sound : sound k w.1.2;
  secured_off : PowerPolicy.board w.2 = ProvedOff -> off k w.1.2;
}.

Definition secures {A} (m : io world A) : Prop := hoare secured m (fun _ => secured).

Lemma secures_ret {A} (a : A) : secures (io_ret a).
Proof. by apply hoare_ret. Qed.

Lemma secures_bind {A C} (m : io world A) (f : A -> io world C) : secures m -> (forall a, secures (f a)) -> secures (io_bind m f).
Proof. intros Hm Hf. by eapply hoare_bind. Qed.

(** An operation of the board below the fan flag. *)
Definition runs {A} (m : io board_world A) (m' : io (bool * board_world) A) : Prop :=
  forall f w, (m' (f, w)).1 = (m w).1 /\ (m' (f, w)).2.2 = (m w).2.

Lemma runs_beside {A} (m : io board_world A) : runs m (beside m).
Proof. intros f w. unfold beside. by destruct (m w). Qed.

Lemma runs_revoked {A} (m : io board_world A) : runs m (fan_revoked m).
Proof. intros f w. unfold fan_revoked. by destruct (m w). Qed.

Lemma traced_secures {A} (m : io board_world A) m' (ev : A -> PowerPolicy.power_event) (proves : A -> Prop) (retains : Prop) :
  runs m m' -> keeps (sound k) m -> hoare (sound k) m (fun a w => proves a -> off k w) -> (retains -> keeps (off k) m) ->
  (forall a before, PowerPolicy.board_event before (ev a) = ProvedOff -> proves a \/ (retains /\ before = ProvedOff)) ->
  secures (traced m' ev).
Proof.
  intros Hr Hs Hp Ho He [[f w] log] [Hw Hoff]. cbn in Hw, Hoff. destruct (Hr f w) as [E1 E2]. unfold traced.
  specialize (Hs w Hw). specialize (Hp w Hw). destruct (m' (f, w)) as [a [f' w']]. cbn in *. subst a w'.
  split; cbn; [done|]. unfold PowerPolicy.board. rewrite foldl_app. cbn. intros [H|[H E]]%He; [auto|by apply Ho; auto].
Qed.

Lemma lifted_secures {A} (m : io board_world A) m' : runs m m' -> steady k m -> secures (lifted m').
Proof.
  intros Hr [Hs Ho] [[f w] log] [Hw Hoff]. cbn in Hw, Hoff. destruct (Hr f w) as [E1 E2]. unfold lifted.
  destruct (m' (f, w)) as [a [f' w']]. cbn in *. subst. split; cbn; [by apply Hs|]. intros E. apply Ho. auto.
Qed.

Lemma off_no_proof {A} (m : io board_world A) : hoare (sound k) m (fun _ w => False -> off k w).
Proof. by intros w _. Qed.

Lemma start_secures : secures (op_start ops).
Proof using Hdev.
  eapply (traced_secures _ _ _ (fun _ => False) False); [apply runs_revoked|by apply start_sound|apply off_no_proof|done|].
  intros [] before; by cbn.
Qed.

Lemma stop_secures : secures (op_stop ops).
Proof using Hdev.
  eapply (traced_secures _ _ _ (fun ok => ok = true) False); [apply runs_revoked|by apply stop_steady|by apply stop_proves|done|].
  intros [] before; cbn; [by left|done].
Qed.

Lemma apply_secures target : secures (op_apply ops target).
Proof using Hdev.
  eapply (traced_secures _ _ _ (fun _ => False) True); [apply runs_beside|by apply apply_steady|apply off_no_proof|intros _; by apply apply_steady|].
  intros ok before; cbn; by right.
Qed.

Lemma maintenance_secures o acquire : secures (op_maintenance ops o acquire).
Proof using Hdev.
  destruct acquire.
  - eapply (traced_secures _ _ _ (fun ok => ok = true) False); [apply runs_revoked|by apply maintenance_steady|by apply acquire_proves|done|].
    intros [] before; cbn; [by left|done].
  - eapply (traced_secures _ _ _ (fun _ => False) True); [apply runs_revoked|by apply maintenance_steady|apply off_no_proof|intros _; by apply maintenance_steady|].
    intros [] before; cbn; [by right|done].
Qed.

Lemma overheat_secures enabled : secures (op_overheat ops enabled).
Proof.
  eapply (traced_secures _ _ _ (fun _ => False) True); [apply runs_beside|apply overheat_steady|apply off_no_proof|intros _; apply overheat_steady|].
  intros ok before; cbn; by right.
Qed.

Lemma save_secures target : secures (op_save_target ops target).
Proof.
  eapply (traced_secures _ _ _ (fun _ => False) True); [apply runs_beside|apply save_steady|apply off_no_proof|intros _; apply save_steady|].
  intros ok before; cbn; by right.
Qed.

Lemma cancelled_secures : secures (PowerPolicy.cancelled ops).
Proof. unfold PowerPolicy.cancelled. cbn. eapply lifted_secures; [apply runs_beside|apply cancelled_steady]. Qed.

Ltac secure_step :=
  lazymatch goal with
  | |- secures (io_ret _) => apply secures_ret
  | |- secures (io_bind _ _) => apply secures_bind; [|intros ?]
  | |- secures (op_start _) => apply start_secures
  | |- secures (op_stop _) => apply stop_secures
  | |- secures (op_apply _ _) => apply apply_secures
  | |- secures (op_maintenance _ _ _) => apply maintenance_secures
  | |- secures (op_overheat _ _) => apply overheat_secures
  | |- secures (op_save_target _ _) => apply save_secures
  | |- secures (PowerPolicy.cancelled _) => apply cancelled_secures
  | |- secures (if ?c then _ else _) => destruct c
  | |- secures (let '(_, _) := ?x in _) => destruct x
  | |- secures (match ?x with _ => _ end) => destruct x
  | |- secures (let _ := _ in _) => cbn zeta
  end.

Lemma pause_secures p : secures (power_policy_pause ops p).
Proof using Hdev. unfold power_policy_pause, PowerPolicy.stop. repeat secure_step. Qed.

Lemma resume_secures p : secures (power_policy_resume ops p).
Proof using Hdev. unfold power_policy_resume, begin_cooling, fail_unless_cancelled, PowerPolicy.stop. repeat secure_step. Qed.

Lemma policy_maintenance_secures p o acquire : secures (power_policy_maintenance ops p o acquire).
Proof using Hdev. unfold power_policy_maintenance. repeat secure_step. Qed.

Lemma step_secures p now target sm pools hw persisted : secures (power_policy_step ops p now target sm pools hw persisted).
Proof using Hdev.
  unfold power_policy_step, cooling_step, running_step, save_reduced, ensure_stopped, begin_cooling, fail_unless_cancelled, PowerPolicy.stop.
  repeat first [apply resume_secures | secure_step].
Qed.

(** *** The task *)

Lemma act_secures m kk s : (forall p, secures (m p)) -> secures (act m kk s).
Proof. intros H. unfold act. apply secures_bind; [apply H|]. intros [ok p]. apply secures_ret. Qed.

Lemma request_secures id s (f : power_request_t -> io world (option power_task_t)) : (forall r, secures (f r)) -> secures (with_request id s f).
Proof. intros H. unfold with_request. destruct (requests s !! id); [apply H|apply secures_ret]. Qed.

Lemma task_secures i s : secures (task_step (board_operations k b settings) (board_sample k b) i s).
Proof using Hdev.
  unfold task_step, decide_request, report. destruct (pc s); cbn zeta;
    repeat first
      [ apply request_secures; intros ?
      | apply act_secures; intros ?
      | apply pause_secures | apply resume_secures | apply policy_maintenance_secures | apply step_secures
      | eapply lifted_secures; [apply runs_beside|apply sample_steady]
      | secure_step ].
  intros [[f w] log] [Hw Ho]. by split.
Qed.
End policy.

(** ** Reachable states *)

Section system.
Context {V : Type} (k : board_config_t) (b : board_services V) (settings : settings_services V).
Context (Hdev : bonanza_device (vcore_device b) = true).

Abbreviation t := (traced_services b).
Abbreviation board_world := ((bzm_runtime_state_t * (V * list board_event)) * list validation_event)%type.
Abbreviation world := ((bool * board_world) * list PowerPolicy.power_event)%type.

(** A board that nothing was done with yet, and one that the task has initialised. *)
Definition fresh_board (v : V) : board_world := ((zero_runtime <| allocated := false |>, (v, [])), []).
Definition board_booted (board_ok : bool) (w : board_world) : Prop :=
  exists v, board_ok = is_ok (BoardPower_init k t (fresh_board v)).1 /\ w = (BoardPower_init k t (fresh_board v)).2.

(** An iteration of the monitor task, or a change of the world. *)
Inductive board_env : board_world -> board_world -> Prop :=
| env_monitor w : board_env w (board (board_io_step k t) w).2
| env_world r v v' hw log : board_env ((r, (v, hw)), log) ((r, (v', hw)), log).

Definition board_task_reachable : power_task_t * world -> Prop :=
  power_task_reachable (board_operations k b settings) (board_sample k b) board_booted board_env.

Lemma fresh_gated v : gated k (fresh_board v).
Proof.
  assert (recorded k [] []) as Hr by (split; [apply disciplined_nil|by intros ([] & o & E & _)]).
  by repeat (split; try done).
Qed.

(** An allocated board that is active remains so. *)
Lemma confined_active_board {A} (m : io board_world A) :
  (forall r0 hw0, keeps (confined True r0 hw0) m) -> keeps (fun w => active w.1.1 = true) m.
Proof. intros Hc w Hw. destruct (Hc w.1.1 w.1.2.2 w (confined_start _ w)) as [_ E _ _]. cbn in E. congruence. Qed.

(** The initialisation activates what it allocates. *)
Abbreviation blank := (fun w : board_world => allocated w.1.1 = false).
Abbreviation up := (fun w : board_world => active w.1.1 = true).

#[local] Instance quiet_blank : Quiet blank.
Proof. by split. Qed.

#[local] Instance quiet_up : Quiet up.
Proof. by split. Qed.

Lemma boot_sets_up : hoare blank (BZM_board_init k t) (fun _ w => set_up w.1.1).
Proof using Hdev.
  unfold BZM_board_init, runtime_state_init, set_up. traced_calls.
  eapply hoare_bind with (R := fun _ => blank); [apply (keeps_quiet blank)|]. intros ok.
  apply hoare_if; intros _; [apply hoare_ret; congruence|].
  eapply hoare_bind with (R := fun (ok : bool) w => if ok then board_initialized w.1.1 = false else blank w).
  { apply hoare_get. intros r. apply hoare_if; intros Ha; [intros w [H Hr]; rewrite Hr in Ha; congruence|].
    eapply hoare_mono with (P := blank); [|intros w [H _]; exact H|intros a w H; exact H].
    eapply hoare_bind with (R := fun _ => blank); [apply (keeps_quiet blank)|]. intros ok'.
    apply hoare_if; intros _; [by apply hoare_ret|]. by intros [[r' x] log] _. }
  intros [|]; cbn [negb]; [|apply hoare_ret; congruence].
  apply hoare_get. intros r. apply hoare_if; intros Hi; [intros w [H Hr]; rewrite Hr in Hi; congruence|].
  do 2 (eapply hoare_bind with (R := fun _ _ => True); [done|]; intros ?). cbn zeta.
  eapply hoare_bind with (R := fun _ => up); [by intros [[r' x] log] _|]. intros ?.
  eapply hoare_bind with (R := fun _ => up); [apply (keeps_quiet up)|]. intros ?.
  destruct (bzm_supervisor_init _ _) as [s|]; [|by apply hoare_ret].
  eapply hoare_bind with (R := fun _ => up); [by intros [[r' x] log] H|]. intros ?.
  eapply hoare_mono with (P := up) (Q := fun _ => up); [|done|by intros]. apply confined_active_board.
  intros. by apply init_safe_off_confined.
Qed.

Lemma env_steady w w' : board_env w w' -> sound k w -> sound k w' /\ (off k w -> off k w').
Proof using Hdev.
  intros [w0|r v v' hw log] Hs.
  - assert (steady k (board (board_io_step k t))) as [H1 H2]; [|by auto].
    apply steady_intro; [by apply io_step_keeps|]. intros. apply io_step_confined.
  - destruct Hs as [Hg Ha]. split; [split|]; [|done|done]. rewrite <- (app_nil_r hw). eapply quiet_step; [by constructor|exact Hg].
Qed.

Lemma task_reachable_secured s w : board_task_reachable (s, w) -> secured k w.
Proof using Hdev.
  intros H. change (secured k (s, w).2). revert H.
  apply (reachable_invariant _ _ (fun x : power_task_t * world => secured k x.2)).
  - intros ? [board_ok s0 x _ (v & _ & ->)]. split; [|done]. split; [|by apply boot_sets_up].
    apply (board_init_keeps k b Hdev), fresh_gated.
  - intros x y Hx Hxy. destruct Hxy as [kd o s0 w0|chance id s0 s' w0 E|i s0 s' w0 w' E|s0 w0|expired s0 w0|s0 f x x' log E]; cbn in *; try done.
    + pose proof (task_secures k b settings Hdev i s0 w0 Hx) as H. by rewrite E in H.
    + destruct Hx as [Hs Ho]. cbn in *. destruct (env_steady x x' E Hs) as [Hs' Ho']. split; cbn; auto.
Qed.

End system.

(** ** A run of the simulated board *)

Module Demo.
Import BoardSafety.Demo.

(** No setting matters. *)
Definition settings : settings_services sim :=
  mk_settings_services (fun _ => io_ret tt) (fun _ => io_ret tt) (fun _ => io_ret tt) (fun _ => io_ret tt)
    (fun _ => io_ret tt) (fun _ => io_ret tt) BZM_TPS546_FIXED_VOUT_V.

Definition inputs : task_inputs :=
  mk_inputs (zero_target <| frequency_mhz := BZM_FREQUENCY_POWER_ON_MHZ |> <| voltage_mv := 2800 |>) false false false false 1000.

Abbreviation demo_ops := (board_operations options services settings).
Abbreviation demo_sample := (board_sample options services).
Abbreviation demo_world := ((bool * sim_world) * list PowerPolicy.power_event)%type.

Fixpoint turns (n : nat) (x : power_task_t * demo_world) : power_task_t * demo_world :=
  match n with
  | O => x
  | S n => match task_step demo_ops demo_sample inputs x.1 x.2 with
           | (Some s, w) => turns n (s, w)
           | (None, _) => x
           end
  end.

Definition initial : power_task_t * demo_world :=
  (mk_power_task ∅ [] ∅ 0
     (mk_power_policy false false false false false false false false zero_target POWER_OWNER_NONE 0 zero_target)
     Turning zero_target false false false false false 0 0 [],
   ((false, (BoardPower_init options (traced_services services) (fresh_board (mk_sim false true false false false))).2), [])).

(** The task is told that all is ready and starts the board; then an update acquires it. *)
Definition mining : power_task_t * demo_world := turns 8 (POWER_MANAGEMENT_set_ready initial.1, initial.2).
Definition asking : power_task_t * demo_world := (begin_call POWER_REQUEST_ACQUIRE POWER_OWNER_OTA mining.1, mining.2).
Definition call (x : power_task_t * demo_world) : power_task_t * demo_world := (default x.1 (call_step true 0 x.1), x.2).
Definition acquired : power_task_t * demo_world := Eval vm_compute in turns 12 (call (call asking)).

Abbreviation demo_reachable := (board_task_reachable options services settings).

Lemma demo_step x y :
  power_task_step demo_ops demo_sample (board_env options services) x y -> demo_reachable x -> demo_reachable y.
Proof. intros Hs (x0 & H0 & Hr). exists x0. split; [done|]. by eapply rtc_r. Qed.

Lemma demo_turns n x : demo_reachable x -> demo_reachable (turns n x).
Proof.
  revert x. induction n as [|n IH]; intros [s w] H; [done|]. cbn [turns fst snd].
  destruct (task_step demo_ops demo_sample inputs s w) as [[s'|] w'] eqn:E; [|done].
  apply IH. eapply demo_step; [|exact H]. by eapply step_task.
Qed.

Lemma demo_call x : demo_reachable x -> demo_reachable (call x).
Proof.
  intros H. unfold call. destruct x as [s w]. cbn [fst snd]. destruct (call_step true 0 s) as [s'|] eqn:E; [|done].
  eapply demo_step; [|exact H]. by eapply step_call.
Qed.

Lemma acquired_reachable : demo_reachable acquired.
Proof.
  replace acquired with (turns 12 (call (call asking))) by (by vm_compute).
  apply demo_turns, demo_call, demo_call. eapply demo_step; [apply step_begin|].
  change (demo_reachable (mining.1, mining.2)). rewrite <- surjective_pairing. apply demo_turns.
  eapply demo_step; [apply step_ready|]. eexists. split; [|apply rtc_refl].
  apply (power_task_init_intro _ _ true); [by vm_compute|]. exists (mk_sim false true false false false). split; [by vm_compute|done].
Qed.

End Demo.
